(* ===== verification/_CoqProject ===== *)
-Q . S2P
Prelude.v
KernelApi.v
Uapi.v
DrmRect.v
DrmFourcc.v
DrmModes.v
DrmBridge.v
DrmPlaneCheck.v
DrmDumb.v
DrmFramebuffer.v
DrmVblank.v
DrmVblankHw.v
DrmVblankIoctl.v
DrmCommitSync.v
DrmCommit.v
DrmAtomicState.v
DrmCheck.v
DrmDisplay.v
DrmModeset.v
Ma35Plane.v
Ma35Crtc.v
Ma35Drm.v
Ma35Display.v
VsDc.v
VsPlane.v
VsPipe.v
VsDrm.v
VsBoard.v
VsDisplay.v
PhyMa35.v
UsbMa35.v
UsbPmap.v
Dwc2Sched.v
Dwc2Qh.v
