(* ===== verification/Prelude.v ===== *)
(** * Display and USB drivers of the MA35D1: a verified model

    The repository is an excerpt of the Linux tree: the MA35 display driver
    (src/drm/nuvoton), the Verisilicon display driver (src/drm/verisilicon), the USB
    PHY drivers (src/phy/nuvoton), the MA35 glue of the EHCI and OHCI controllers
    (src/usb/host), and the parts of the DRM core (src/drm) and of the DWC2 host
    (src/usb/dwc2) they run on.  This library models the paths from what user
    space asks for to what the registers hold, and proves them right.

    ** How the parts interact

    User space creates buffers (DrmDumb), wraps them in framebuffers
    (DrmFramebuffer, which reads the pixel-format database DrmFourcc) and commits
    configurations.  A commit is built as a set of copied states (DrmAtomicState),
    checked (DrmCheck, which calls the mode library DrmModes and the drivers' checks;
    planes are clipped by DrmPlaneCheck over the rectangles of DrmRect), ordered
    against the commits under way (DrmCommitSync), and carried out by the
    commit tail (DrmCommit), which calls the drivers: Ma35Crtc, Ma35Plane, and
    VsPlane, VsPipe over the generations of VsDc.  Between an encoder and its
    connector sits a chain of bridges (DrmBridge), the first of them a bridge of
    VsPipe: the check negotiates the bus formats along it, the tail enables and
    disables it.  DrmDisplay composes building, check and tail; DrmModeset follows
    the mode the hardware is given through the check; Ma35Display puts the MA35
    handlers and their registers under it, VsBoard and VsDisplay those of the
    Verisilicon driver.  The interrupts of the drivers feed the
    vertical-blanking counters and events (DrmVblank, DrmVblankHw), for which user
    space waits (DrmVblankIoctl).  Ma35Drm and VsDrm are the probe paths that set all
    of this up.  On the USB side the glue (UsbMa35) starts the PHYs (PhyMa35); the
    DWC2 host places periodic transfers (Dwc2Sched) in bitmaps (UsbPmap) and
    decides when a queue runs (Dwc2Qh).

    ** The files

    - Prelude: C integers at their widths, bit fields, errnos, the [option] and
      result monads with their notations, tactics and hint databases.
    - KernelApi: register maps ([RegmapOps], laws [RegmapLaws]), memory-mapped
      registers with volatile bits and polling ([PollOps], [MmioLaws]), and the
      oracle monad [prog] for set-up code: a program is a tree of kernel calls,
      run against a list of answers, its trace the calls made.
    - Uapi: the structures and constants of the DRM headers.
    - DrmRect (drm_rect.c), DrmFourcc (drm_fourcc.c), DrmModes (drm_modes.c),
      DrmBridge (drm_bridge.c, [drm_atomic_helper_bridge_propagate_bus_fmt]),
      DrmPlaneCheck (drm_atomic_helper.c, [drm_atomic_helper_check_plane_state]).
    - DrmDumb (drm_dumb_buffers.c, drm_gem_dma_helper.c), DrmFramebuffer
      (drm_framebuffer.c, drm_gem_framebuffer_helper.c, drm_fb_dma_helper.c, the
      framebuffer checks of drm_plane.c and drm_atomic.c).
    - DrmVblank, DrmVblankHw, DrmVblankIoctl (drm_vblank.c).
    - DrmCommitSync (the ordering half of drm_atomic_helper.c), DrmCommit (its commit
      tails), DrmAtomicState (drm_atomic.c, drm_atomic_uapi.c,
      drm_atomic_state_helper.c), DrmCheck (the checks of drm_atomic_helper.c),
      DrmDisplay (their composition, [drm_mode_atomic_ioctl]), DrmModeset (adjusted
      modes).
    - Ma35Plane (ma35_plane.c), Ma35Crtc (ma35_crtc.c), Ma35Drm (ma35_drm.c,
      ma35_interface.c, registration in the others), Ma35Display (the helper tables
      of all of them: [ma35_hooks] answers the checks, [ma35_call] runs the calls of
      the tail on the registers).
    - VsDc (vs_hwdb.c, vs_dc8000.c, vs_dc8200.c, interrupts of vs_dc.c), VsPlane
      (vs_plane.c, vs_primary_plane.c, vs_cursor_plane.c), VsPipe (vs_crtc.c,
      vs_bridge.c), VsDrm (vs_drm.c, vs_dc.c, registration in the others), VsBoard
      (the helper tables of all of them: [vs_hooks] answers the checks,
      [vs_tail_call] runs the calls of the tail on the registers), VsDisplay (its
      sessions of commits).
    - PhyMa35 (phy-ma35d1-otg.c, phy-ma35d1-usb2.c), UsbMa35 (ehci-ma35.c,
      ohci-ma35.c).
    - UsbPmap, Dwc2Sched, Dwc2Qh (hcd_queue.c).

    Operations keep the names of the C functions, records and constructors those of
    the structures and constants.

    ** How code is modelled

    A handler is a function on the state it changes: the register map [D] of a device
    - any type with [RegmapOps] -, the structure it updates, or the commit.  What
    goes wrong is a value: an errno in a [result], [None] for the dereference of
    NULL.  Fixed-width integers are [Z] with the wrap-around written at every
    assignment ([u16], [u32], [s32]).  Code that sets up devices is a [prog], and its
    theorems hold for every sequence of answers.  Concurrency is a step relation:
    DrmCommitSync steps at every completion, fence and critical section, DrmVblank at
    every function that runs under the vblank locks, DrmVblankIoctl at every point where
    an ioctl looks at the vblank code, Dwc2Qh at every entry point, timer
    and callback.  Those who sleep for a vblank are on a wait queue of their pipe
    ([vb_queue]), and go on only when a [wake_up] has taken them off it, at a timeout or
    at a signal.

    What is outside the repository is an interface - operations in a class, their
    documented behaviour in a second class of laws: [RegmapOps] and [MmioLaws]
    (KernelApi), [RectOps] (DrmRect), [PlaneRectOps] (DrmPlaneCheck), [PlaneSizeOps]
    (DrmFramebuffer), [AtomicInlines] (DrmCommit), [BitmapOps] (UsbPmap), [Log2Ops]
    (VsPlane), and the hooks of a display driver towards the vblank core,
    [VblankDriver] with [VblankEnables], [VblankCounter], [VblankSwitch].  Each has an
    instance, with which the witnesses compute.  [VsDcContract] (VsDc) is an interface
    inside a driver: both generations implement it, and the plane and CRTC code is
    verified against it.

    ** What the theorems show

    - Atomic display updates.  [display_refines]: through any session of commits the
      calls to the drivers keep the protocol of a display pipeline - nothing is
      enabled twice, programmed while off, fed by a CRTC that is off - and leave the
      pipeline as the configuration says.  [checked_routes]: what the check accepts
      is a configuration whose routes are consistent.  [no_modeset_unnoticed]: a
      commit without leave to set modes changes no route.  [commit_tail_protocol],
      [commit_tail_rpm_protocol]: the two commit tails on their own.
    - The MA35 display as a whole.  [ma35_display_follows]: through any session of
      commits no check and no handler dereferences NULL - what such a check would
      answer, [oops], is arbitrary, and does not matter -, and the registers - data enable, timings,
      the enable bit of the primary plane - and the vblank calls show what user space
      asked for.
    - Bridge chains.  [bus_fmts_negotiated]: the depth-first negotiation of bus
      formats is a search for the first compatible assignment in the order of the
      bridges' preferences, and fails exactly when there is none.
      [bridge_chain_order]: the chain is enabled and disabled in the documented
      order, with the two pre-enable flags.  [bridge_attach_all_or_nothing]: an
      attach that fails leaves the chain, the bridge and its references as before.
    - The Verisilicon display as a whole.  [vs_display_follows]: through any session
      of commits, on either generation and with any bridges behind, panels, scan-out,
      pixel clocks, vblanks and timing registers follow what user space asked for -
      up to the commits that put an invisible primary plane on a CRTC: exactly
      those dereference NULL.
    - Ordering of commits.  [commit_hw_exclusive], [commits_complete] (no
      deadlock), [commit_flips_in_order], [commit_backlog], [commit_failure_clean].
    - Memory.  [scanout_in_bounds]: a plane that passed the checks is scanned out of
      its buffers only.  [dumb_create_internal_sound], [size_dumb_sound].
    - Vertical blanking.  [vblank_count_tracks], [vblank_hardware_follows]
      (refinement of the hardware's counter and switch), [vblank_references_exact],
      [vblank_events_once], [vblank_event_delivery], [vblank_idle_released]; with the
      ioctls, whose every step is a step of that system, [ioctl_references_exact] (no
      path of a call leaks its reference, whether or not the driver can enable the
      interrupt), [sleeper_wakes] (nobody is left on a wait queue), [wait_target_exact].
    - Registers.  Enable and update handlers program what the mode or plane state
      says, word by word, and touch nothing else: the theorems named [..._programs] and
      [vs_mode_programmed].
    - Geometry and modes.  [plane_check_destination], [rotate_inv_rotate],
      [set_crtcinfo_ordered].
    - Probe paths.  [ma35_probe_sound], [vs_probe_sound], [ma35_ehci_probe_sound],
      [ma35_usb_power_on_sound]: the first failure ends the probe and is what it
      returns, and what is taken is given back.
    - USB schedules.  [pmap_schedule_exact] (equivalence with the first fit),
      [pmap_ledger_exact], [split_schedule_sound], [qh_init_well_formed],
      [pick_first_frame_exact], [hs_runs_in_reserved_time], [qh_protocol_accounting].

    Where the code does not do what it means to, the theorem states what it does:
    for instance the blend register in [ma35_overlay_update_programs], the disable
    handler of [ma35_plane_atomic_disable], the trim in [ma35_ehci_probe_sound], the bits
    that the failed rounds of [split_schedule_sound] take from others, the bus time that
    [dwc2_hcd_qh_free] releases twice in [qh_protocol_accounting].  Where a value does not
    fit its field or type, the theorem gives the value that is left, and an example shows
    such an input: [long_line_truncated], [overlay_wraps_into_view], [far_left_visible],
    [dumb_pitch_wraps], [fast_clock_wraps].

    ** Recursion that is not structural

    - [pmap_search] (UsbPmap) has one unit of fuel for each start from the requested
      one to the last, and every round moves on by at least one.
    - [split_loop] (Dwc2Sched) has 36, the slices of a frame: every round starts at
      a later slice.
    - [frame_catch_up] (Dwc2Qh) has [frame_fuel], 0x2000: a frame is late by less than
      half the 14-bit circle, and every round moves it on.
    - The walks over a chain of bridges (DrmBridge: [post_disable_loop],
      [pre_enable_loop]) have the length of the chain as fuel, and every
      round moves along it.
    - [counter_and_timestamp] (DrmVblank) has the three tries of the source.
    - Waiting in DrmCommitSync is a step that is not enabled; [commits_complete] rests
      on a measure of all commits, [total_weight], that every step decreases.

    Theorems about these say that the fuel is enough: the functions answer.

    ** Not modelled

    - Locks as such: a function that runs under a lock is one step.  Modeset locks
      appear as an answer (a commit may be refused for them at any call).
    - The compositions of the two displays run one commit after the other, without the
      legacy cursor's asynchronous path; the bus flags that the MA35 encoder's check
      stores in the driver are an input of the commit.  The two hooks with which a
      bridge creates its state ([atomic_reset] in the core, [atomic_create_state] in
      the Verisilicon driver) are taken for the same.
    - Memory management: reference counts of states, blobs and commits, user-space
      copies, destruction of objects.
    - Of the atomic core: colour pipelines, writeback, damage clips, zpos
      normalisation, self-refresh, asynchronous plane updates, private objects.
    - Of vertical blanking: works, the software timer, the timestamp helper,
      [drm_crtc_wait_one_vblank], suspend and restore of legacy drivers; drivers are those
      with [DRIVER_ATOMIC].
    - Of bridges: the list of all bridges, hot-plug and EDID forwarding, the
      connector made for a chain.
    - EDID, DisplayPort, HDMI, panels and the bridge drivers of other boards, the ESWIN, TI and
      virtio drivers, drm_mm and the other memory managers: not part of the MA35
      display, or written over header code that is not in the repository.
    - The DWC2 gadget and transfer engines and the EHCI, OHCI and xHCI cores: single
      calls here.
    - Device trees, bindings and build files: data, not programs. *)

From stdpp Require Export prelude gmap.
From Stdlib Require Export ZArith Lia.

#[export] Set Default Goal Selector "!".
#[global] Open Scope Z_scope.

(** ** C operators, in a scope of their own *)

Declare Scope cint_scope.
Delimit Scope cint_scope with c.

Infix ".|" := Z.lor (at level 53, left associativity) : cint_scope.
Infix ".&" := Z.land (at level 52, left associativity) : cint_scope.
Infix ".<<" := Z.shiftl (at level 51, left associativity) : cint_scope.
Infix ".>>" := Z.shiftr (at level 51, left associativity) : cint_scope.
Open Scope cint_scope.

(** Conversions to the fixed-width C types.  The unsigned ones reduce modulo
    the width; [s32] is the two's-complement [int]. *)
Definition u8 (x : Z) : Z := x mod 2 ^ 8.
Definition u16 (x : Z) : Z := x mod 2 ^ 16.
Definition u32 (x : Z) : Z := x mod 2 ^ 32.
Definition u64 (x : Z) : Z := x mod 2 ^ 64.
Definition s32 (x : Z) : Z := (x + 2 ^ 31) mod 2 ^ 32 - 2 ^ 31.

(** Range predicates that go with them. *)
Definition is_u16 (x : Z) : Prop := 0 <= x < 2 ^ 16.
Definition is_u32 (x : Z) : Prop := 0 <= x < 2 ^ 32.
Definition is_u64 (x : Z) : Prop := 0 <= x < 2 ^ 64.
Definition is_s32 (x : Z) : Prop := - 2 ^ 31 <= x < 2 ^ 31.

(** A C condition [if (x)]. *)
Definition truthy (x : Z) : bool := negb (x =? 0).

(** The bit macros of the C sources: [BIT(n)], [GENMASK(h, l)],
    [FIELD_PREP(mask, v)] and [FIELD_GET(mask, v)]. *)
Definition BIT (n : Z) : Z := 1 .<< n.
Definition GENMASK (h l : Z) : Z := Z.ones (h - l + 1) .<< l.

Fixpoint ctz_pos (p : positive) : Z :=
  match p with
  | xO q => 1 + ctz_pos q
  | _ => 0
  end.
Definition bf_shf (mask : Z) : Z :=
  match mask with Zpos p => ctz_pos p | _ => 0 end.

Definition FIELD_PREP (mask v : Z) : Z := (v .<< bf_shf mask) .& mask.
Definition FIELD_GET (mask v : Z) : Z := (v .& mask) .>> bf_shf mask.

(** Integer-rounding macros. *)
Definition DIV_ROUND_UP (n d : Z) : Z := (n + d - 1) / d.
Definition ALIGN (x a : Z) : Z := (x + (a - 1)) .& Z.lnot (a - 1).
Definition roundup (x y : Z) : Z := ((x + (y - 1)) / y) * y.

Definition U32_MAX : Z := 2 ^ 32 - 1.

(** ** Errors

    A kernel function of type [int] returns 0 or a negative errno. *)
Definition EPERM : Z := 1.
Definition ENOENT : Z := 2.
Definition EINTR : Z := 4.
Definition ENOMEM : Z := 12.
Definition EBUSY : Z := 16.
Definition ENODEV : Z := 19.
Definition EINVAL : Z := 22.
Definition ENOSPC : Z := 28.
Definition ERANGE : Z := 34.
Definition ENOSYS : Z := 38.
Definition EOPNOTSUPP : Z := 95.
Definition ETIMEDOUT : Z := 110.
Definition EPROBE_DEFER : Z := 517.
Definition ENOTSUPP : Z := 524.

(** ** Automation *)

Create HintDb cint.
Create Rewrite HintDb cint_rw.
Create Rewrite HintDb field.

(** Case analysis on the first [if]/[match] scrutinee of the goal. *)
Ltac case_if :=
  match goal with
  | |- context [if ?b then _ else _] => destruct b eqn:?
  end.

(** The same in a hypothesis. *)
Ltac case_if_in H :=
  match type of H with
  | context [if ?b then _ else _] => destruct b eqn:?
  end.

(** Turn boolean comparisons in the context into propositions. *)
Ltac zb :=
  repeat match goal with
  | H : (_ && _)%bool = true |- _ => apply andb_true_iff in H; destruct H as [? ?]
  | H : (_ || _)%bool = false |- _ => apply orb_false_iff in H; destruct H as [? ?]
  | H : negb _ = true |- _ => apply negb_true_iff in H
  | H : negb _ = false |- _ => apply negb_false_iff in H
  | H : (_ =? _) = true |- _ => apply Z.eqb_eq in H
  | H : (_ =? _) = false |- _ => apply Z.eqb_neq in H
  | H : (_ <? _) = true |- _ => apply Z.ltb_lt in H
  | H : (_ <? _) = false |- _ => apply Z.ltb_ge in H
  | H : (_ <=? _) = true |- _ => apply Z.leb_le in H
  | H : (_ <=? _) = false |- _ => apply Z.leb_gt in H
  | H : (_ >? _) = true |- _ => apply Z.gtb_lt in H
  | H : (_ >? _) = false |- _ => rewrite Z.gtb_ltb in H; apply Z.ltb_ge in H
  | H : (_ >=? _) = true |- _ => apply Z.geb_le in H
  | H : (_ >=? _) = false |- _ => rewrite Z.geb_leb in H; apply Z.leb_gt in H
  end.

(** ** Functions, updated at a point *)

Definition update {A} (i : nat) (x : A) (f : nat -> A) (j : nat) : A := if decide (j = i) then x else f j.

Lemma update_same {A} i (x : A) f : update i x f i = x.
Proof. unfold update. by rewrite decide_True. Qed.

Lemma update_other {A} i j (x : A) f : j <> i -> update i x f j = f j.
Proof. intros. unfold update. by rewrite decide_False. Qed.

(** ** Lists *)

Lemma Forall_mbind {A B} (Q : B -> Prop) (f : A -> list B) (l : list A) :
  (forall x, x ∈ l -> Forall Q (f x)) -> Forall Q (l ≫= f).
Proof.
  induction l as [|x l IH]; intros Hf; [constructor|]. rewrite bind_cons. apply Forall_app. split; [apply Hf; left|].
  apply IH. intros y Hy. apply Hf. by right.
Qed.

(** ** Lemmas on the fixed-width conversions *)

Lemma not_truthy z : truthy z = false -> z = 0.
Proof. unfold truthy. by destruct (Z.eqb_spec z 0). Qed.

Lemma u32_range x : is_u32 (u32 x).
Proof. unfold is_u32, u32. apply Z.mod_pos_bound. lia. Qed.

Lemma u32_id x : is_u32 x -> u32 x = x.
Proof. unfold is_u32, u32. intros. by apply Z.mod_small. Qed.

Lemma u32_idemp x : u32 (u32 x) = u32 x.
Proof. apply u32_id, u32_range. Qed.

Lemma u64_range x : is_u64 (u64 x).
Proof. unfold is_u64, u64. apply Z.mod_pos_bound. lia. Qed.

Lemma u64_id x : is_u64 x -> u64 x = x.
Proof. unfold is_u64, u64. intros. by apply Z.mod_small. Qed.

Lemma u16_id x : is_u16 x -> u16 x = x.
Proof. unfold is_u16, u16. intros. by apply Z.mod_small. Qed.

Lemma s32_range x : is_s32 (s32 x).
Proof. unfold is_s32, s32. pose proof (Z.mod_pos_bound (x + 2 ^ 31) (2 ^ 32)). lia. Qed.

Lemma s32_id x : is_s32 x -> s32 x = x.
Proof. unfold is_s32, s32. intros. rewrite Z.mod_small; lia. Qed.

(** [s32] depends only on the residue modulo 2^32, so inner conversions may
    be dropped. *)
Lemma u32_s32 x : u32 (s32 x) = u32 x.
Proof. unfold u32, s32. rewrite Zminus_mod_idemp_l. f_equal. lia. Qed.

Lemma s32_eqm x y : (x - y) mod 2 ^ 32 = 0 -> s32 x = s32 y.
Proof.
  intros H. unfold s32. f_equal.
  apply Z.mod_divide in H; [|lia]. destruct H as [k Hk].
  replace (x + 2 ^ 31) with (y + 2 ^ 31 + k * 2 ^ 32) by lia.
  apply Z_mod_plus_full.
Qed.

Lemma s32_sub_s32_r x y : s32 (x - s32 y) = s32 (x - y).
Proof.
  apply s32_eqm. unfold s32.
  pose proof (Z.div_mod (y + 2 ^ 31) (2 ^ 32)) as Hd.
  replace (x - _ - (x - y)) with (((y + 2 ^ 31) / 2 ^ 32) * 2 ^ 32) by lia.
  by rewrite Z_mod_mult.
Qed.

Lemma s32_add_s32_l x y : s32 (s32 x + y) = s32 (x + y).
Proof.
  apply s32_eqm. unfold s32.
  pose proof (Z.div_mod (x + 2 ^ 31) (2 ^ 32)) as Hd.
  replace (_ - _ + y - (x + y)) with ((- ((x + 2 ^ 31) / 2 ^ 32)) * 2 ^ 32) by lia.
  by rewrite Z_mod_mult.
Qed.

(** Reflecting twice in the same axis is the identity, wrap-around included. *)
Lemma s32_reflect w x : is_s32 x -> s32 (w - s32 (w - x)) = x.
Proof.
  intros Hx. rewrite s32_sub_s32_r.
  replace (w - (w - x)) with x by lia. by apply s32_id.
Qed.

#[export] Hint Resolve u32_range u64_range s32_range : cint.
#[export] Hint Rewrite u32_idemp s32_sub_s32_r s32_add_s32_l : cint_rw.

(** Drop the conversions of values that are in range. *)
Ltac s32_simp :=
  repeat match goal with
  | |- context [s32 ?x] => rewrite (s32_id x) by (unfold is_s32; lia)
  end.

(** ** Lemmas on bit fields *)

Lemma ctz_pos_nonneg p : 0 <= ctz_pos p.
Proof. induction p; cbn [ctz_pos]; lia. Qed.

Lemma bf_shf_nonneg m : 0 <= bf_shf m.
Proof. destruct m; cbn; [lia| |lia]. apply ctz_pos_nonneg. Qed.

Lemma GENMASK_testbit h l i :
  0 <= l <= h -> Z.testbit (GENMASK h l) i = ((l <=? i) && (i <=? h))%bool.
Proof.
  intros Hl. unfold GENMASK.
  destruct (Z.ltb_spec i 0).
  { rewrite Z.testbit_neg_r by lia. destruct (Z.leb_spec l i); [lia|done]. }
  rewrite Z.shiftl_spec by lia.
  destruct (Z.leb_spec l i), (Z.leb_spec i h); cbn.
  - apply Z.ones_spec_low. lia.
  - apply Z.ones_spec_high. lia.
  - apply Z.testbit_neg_r. lia.
  - apply Z.testbit_neg_r. lia.
Qed.

Lemma bf_shf_double z : 0 < z -> bf_shf (2 * z) = 1 + bf_shf z.
Proof. destruct z; [lia|done|lia]. Qed.

Lemma bf_shf_odd z : 0 < z -> Z.odd z = true -> bf_shf z = 0.
Proof. destruct z as [|p|p]; [done| |lia]. by destruct p. Qed.

Lemma bf_shf_shiftl z l : 0 < z -> Z.odd z = true -> 0 <= l -> bf_shf (z .<< l) = l.
Proof.
  intros Hz Ho Hl. revert l Hl. apply natlike_ind.
  - rewrite Z.shiftl_0_r. by apply bf_shf_odd.
  - intros l Hl IH.
    assert (H2 : z .<< Z.succ l = 2 * (z .<< l)).
    { rewrite !Z.shiftl_mul_pow2, Z.pow_succ_r by lia. lia. }
    rewrite H2, bf_shf_double, IH; [lia|].
    rewrite Z.shiftl_mul_pow2 by lia. lia.
Qed.

Lemma ones_pos w : 0 < w -> 0 < Z.ones w.
Proof.
  intros. rewrite Z.ones_equiv. pose proof (Z.pow_gt_1 2 w). lia.
Qed.

Lemma bf_shf_GENMASK h l : 0 <= l <= h -> bf_shf (GENMASK h l) = l.
Proof.
  intros Hl. apply bf_shf_shiftl; [apply ones_pos; lia| |lia].
  rewrite <- Z.bit0_odd. apply Z.ones_spec_low. lia.
Qed.

Lemma FIELD_PREP_GENMASK h l v :
  0 <= l <= h -> FIELD_PREP (GENMASK h l) v = (v .& Z.ones (h - l + 1)) .<< l.
Proof.
  intros Hl. unfold FIELD_PREP. rewrite bf_shf_GENMASK by done.
  unfold GENMASK. by rewrite <- Z.shiftl_land.
Qed.

Lemma FIELD_GET_GENMASK h l v :
  0 <= l <= h -> FIELD_GET (GENMASK h l) v = (v .>> l) .& Z.ones (h - l + 1).
Proof.
  intros Hl. unfold FIELD_GET. rewrite bf_shf_GENMASK by done.
  rewrite Z.shiftr_land. f_equal. unfold GENMASK.
  rewrite Z.shiftr_shiftl_l by lia. by rewrite Z.sub_diag, Z.shiftl_0_r.
Qed.

(** Reading back a field of a word assembled with [.|]. *)
Lemma FIELD_GET_lor m a b : FIELD_GET m (a .| b) = FIELD_GET m a .| FIELD_GET m b.
Proof. unfold FIELD_GET. by rewrite Z.land_lor_distr_l, Z.shiftr_lor. Qed.

Lemma FIELD_GET_PREP h l v :
  0 <= l <= h -> 0 <= v < 2 ^ (h - l + 1) ->
  FIELD_GET (GENMASK h l) (FIELD_PREP (GENMASK h l) v) = v.
Proof.
  intros Hl Hv. rewrite FIELD_GET_GENMASK, FIELD_PREP_GENMASK by done.
  rewrite Z.shiftr_shiftl_l, Z.sub_diag, Z.shiftl_0_r by lia.
  rewrite <- Z.land_assoc, Z.land_diag, Z.land_ones, Z.mod_small; lia.
Qed.

Lemma FIELD_GET_PREP_trunc h l v :
  0 <= l <= h ->
  FIELD_GET (GENMASK h l) (FIELD_PREP (GENMASK h l) v) = v mod 2 ^ (h - l + 1).
Proof.
  intros Hl. rewrite FIELD_GET_GENMASK, FIELD_PREP_GENMASK by done.
  rewrite Z.shiftr_shiftl_l, Z.sub_diag, Z.shiftl_0_r by lia.
  rewrite <- Z.land_assoc, Z.land_diag, Z.land_ones; lia.
Qed.

Lemma FIELD_GET_PREP_disjoint m1 m2 v :
  m1 .& m2 = 0 -> FIELD_GET m1 (FIELD_PREP m2 v) = 0.
Proof.
  intros H. unfold FIELD_GET, FIELD_PREP.
  rewrite <- Z.land_assoc, (Z.land_comm m2), H, Z.land_0_r. apply Z.shiftr_0_l.
Qed.

Lemma FIELD_GET_disjoint m v : v .& m = 0 -> FIELD_GET m v = 0.
Proof. intros H. unfold FIELD_GET. rewrite H. apply Z.shiftr_0_l. Qed.

(** A word assembled from fields, as a number: a field is its value modulo the
    width of the field, at its place, and disjoint fields add up. *)
Lemma FIELD_PREP_word h l v :
  0 <= l <= h -> FIELD_PREP (GENMASK h l) v = (v mod 2 ^ (h - l + 1)) * 2 ^ l.
Proof.
  intros Hl. rewrite FIELD_PREP_GENMASK by done.
  by rewrite Z.land_ones, Z.shiftl_mul_pow2 by lia.
Qed.

Lemma lor_add n a b : 0 <= n -> 0 <= a < 2 ^ n -> a .| (b * 2 ^ n) = a + b * 2 ^ n.
Proof.
  intros Hn Ha. rewrite <- Z.lxor_lor, <- Z.add_nocarry_lxor; try done.
  all: apply Z.bits_inj'; intros i Hi; rewrite Z.land_spec, Z.bits_0, Z.mul_pow2_bits by lia.
  all: destruct (Z.ltb_spec i n).
  all: try (rewrite (Z.testbit_neg_r b) by lia; apply andb_false_r).
  all: rewrite <- (Z.mod_small a (2 ^ n)) by done; by rewrite Z.mod_pow2_bits_high by lia.
Qed.

Lemma FIELD_PREP2_word h l k a b :
  0 <= k < l -> l <= h ->
  FIELD_PREP (GENMASK h l) a .| FIELD_PREP (GENMASK k 0) b
  = (a mod 2 ^ (h - l + 1)) * 2 ^ l + b mod 2 ^ (k + 1).
Proof.
  intros Hk Hl. rewrite !FIELD_PREP_word by lia.
  rewrite Z.sub_0_r, Z.pow_0_r, Z.mul_1_r, Z.lor_comm, lor_add; [lia|lia|].
  pose proof (Z.mod_pos_bound b (2 ^ (k + 1)) ltac:(lia)).
  pose proof (Z.pow_le_mono_r 2 (k + 1) l ltac:(lia) ltac:(lia)). lia.
Qed.

(** Read-modify-write of the bits selected by [mask]. *)
Definition rmw (old mask val : Z) : Z := (Z.ldiff old mask) .| (val .& mask).

Lemma rmw_testbit old m v i :
  Z.testbit (rmw old m v) i = if Z.testbit m i then Z.testbit v i else Z.testbit old i.
Proof.
  unfold rmw. rewrite Z.lor_spec, Z.ldiff_spec, Z.land_spec.
  destruct (Z.testbit m i), (Z.testbit old i), (Z.testbit v i); done.
Qed.

Lemma FIELD_GET_rmw_same m old v : FIELD_GET m (rmw old m v) = FIELD_GET m v.
Proof.
  unfold FIELD_GET. f_equal. apply Z.bits_inj'. intros i Hi.
  rewrite !Z.land_spec, rmw_testbit. destruct (Z.testbit m i); [done|].
  by rewrite !andb_false_r.
Qed.

Lemma FIELD_GET_rmw_sub m m' old v :
  m .& m' = m -> FIELD_GET m (rmw old m' v) = FIELD_GET m v.
Proof.
  intros H. unfold FIELD_GET. f_equal. apply Z.bits_inj'. intros i Hi.
  rewrite !Z.land_spec, rmw_testbit.
  assert (Hb : Z.testbit (m .& m') i = Z.testbit m i) by (by rewrite H).
  rewrite Z.land_spec in Hb.
  destruct (Z.testbit m' i), (Z.testbit m i); cbn in *; try done.
  by rewrite !andb_false_r.
Qed.

Lemma FIELD_GET_rmw_disjoint m m' old v :
  m' .& m = 0 -> FIELD_GET m (rmw old m' v) = FIELD_GET m old.
Proof.
  intros H. unfold FIELD_GET. f_equal. apply Z.bits_inj'. intros i Hi.
  rewrite !Z.land_spec, rmw_testbit.
  assert (Hb : Z.testbit (m' .& m) i = false) by (rewrite H; apply Z.bits_0).
  rewrite Z.land_spec in Hb.
  destruct (Z.testbit m' i), (Z.testbit m i); cbn in *; try done.
  by rewrite !andb_false_r.
Qed.

(** Reading a whole word back through a mask, without shifting. *)
(** Setting and clearing bits. *)
Lemma rmw_set old m : rmw old m m = old .| m.
Proof.
  apply Z.bits_inj'. intros i Hi. rewrite rmw_testbit, Z.lor_spec.
  destruct (Z.testbit m i); [by rewrite orb_true_r|by rewrite orb_false_r].
Qed.

Lemma rmw_clear old m : rmw old m 0 = Z.ldiff old m.
Proof. unfold rmw. by rewrite Z.land_0_l, Z.lor_0_r. Qed.

Lemma rmw_land_same old m v : rmw old m v .& m = v .& m.
Proof.
  apply Z.bits_inj'. intros i Hi. rewrite !Z.land_spec, rmw_testbit.
  destruct (Z.testbit m i); [done|]. by rewrite !andb_false_r.
Qed.

Lemma rmw_land_disjoint old m m' v : m .& m' = 0 -> rmw old m v .& m' = old .& m'.
Proof.
  intros H. apply Z.bits_inj'. intros i Hi. rewrite !Z.land_spec, rmw_testbit.
  assert (Hb : Z.testbit (m .& m') i = false) by (rewrite H; apply Z.bits_0).
  rewrite Z.land_spec in Hb.
  destruct (Z.testbit m i), (Z.testbit m' i); cbn in *; try done.
  by rewrite !andb_false_r.
Qed.

Lemma BIT_testbit n i : 0 <= n -> Z.testbit (BIT n) i = (i =? n).
Proof.
  intros Hn. unfold BIT. rewrite Z.shiftl_1_l.
  destruct (Z.eqb_spec i n) as [->|Hne]; [by apply Z.pow2_bits_true|].
  by apply Z.pow2_bits_false.
Qed.

(** A non-negative word is below 2^n as soon as its bits from n on are clear. *)
Lemma bits_bound x n : 0 <= n -> 0 <= x ->
  (forall i, n <= i -> Z.testbit x i = false) -> x < 2 ^ n.
Proof.
  intros Hn Hx Hb. destruct (Z.lt_ge_cases x (2 ^ n)) as [|Hge]; [done|].
  exfalso. pose proof (Z.pow_pos_nonneg 2 n).
  assert (Hl : n <= Z.log2 x) by (apply Z.log2_le_pow2; lia).
  specialize (Hb (Z.log2 x) Hl). rewrite Z.bit_log2 in Hb by lia. done.
Qed.

Lemma bits_above x n i : 0 <= x < 2 ^ n -> n <= i -> Z.testbit x i = false.
Proof.
  intros Hx Hi. destruct (Z.eq_dec x 0) as [->|]; [apply Z.bits_0|].
  apply Z.bits_above_log2; [lia|].
  assert (Z.log2 x < n) by (apply Z.log2_lt_pow2; lia). lia.
Qed.

Lemma lor_range a b n :
  0 <= n -> 0 <= a < 2 ^ n -> 0 <= b < 2 ^ n -> 0 <= a .| b < 2 ^ n.
Proof.
  intros Hn Ha Hb. assert (0 <= a .| b) by (apply Z.lor_nonneg; lia).
  split; [done|]. apply bits_bound; [done..|]. intros i Hi.
  by rewrite Z.lor_spec, !(bits_above _ n).
Qed.

Lemma land_range a m n : 0 <= n -> 0 <= m < 2 ^ n -> 0 <= a .& m < 2 ^ n.
Proof.
  intros Hn Hm. assert (0 <= a .& m) by (apply Z.land_nonneg; lia).
  split; [done|]. apply bits_bound; [done..|]. intros i Hi.
  by rewrite Z.land_spec, (bits_above m n), andb_false_r.
Qed.

Lemma rmw_range old m v :
  is_u32 old -> is_u32 m -> is_u32 (rmw old m v).
Proof.
  intros Ho Hm. unfold is_u32, rmw. apply lor_range; [lia| |by apply land_range].
  assert (0 <= Z.ldiff old m) by (apply Z.ldiff_nonneg; unfold is_u32 in *; lia).
  split; [done|]. apply bits_bound; [lia|done|]. intros i Hi.
  by rewrite Z.ldiff_spec, (bits_above old 32).
Qed.

Lemma FIELD_PREP_range m v : is_u32 m -> is_u32 (FIELD_PREP m v).
Proof. intros. by apply land_range. Qed.

Lemma lor_u32 a b : is_u32 a -> is_u32 b -> is_u32 (a .| b).
Proof. intros. by apply lor_range. Qed.

(** Closes goals [is_u32 e] for words assembled from fields and constants. *)
Ltac solve_u32 :=
  repeat first
    [ apply lor_u32 | apply FIELD_PREP_range | apply u32_range
    | solve [split; [vm_compute; discriminate|vm_compute; reflexivity]]
    | solve [unfold is_u32 in *; lia] ].

(** Evaluates [FIELD_GET] of a word assembled with [FIELD_PREP] and constants;
    the masks must be unfolded to [GENMASK]s. *)
Ltac field_simp :=
  rewrite ?FIELD_GET_lor;
  repeat first
    [ rewrite FIELD_GET_PREP by lia
    | rewrite FIELD_GET_PREP_disjoint by reflexivity
    | rewrite FIELD_GET_disjoint by reflexivity
    | rewrite Z.lor_0_r | rewrite Z.lor_0_l ].

(** A flag test [x & BIT(k)] is a bit test. *)
Lemma truthy_land_BIT x k : 0 <= k -> truthy (x .& BIT k) = Z.testbit x k.
Proof.
  intros Hk. unfold truthy. destruct (Z.testbit x k) eqn:E.
  - apply negb_true_iff, Z.eqb_neq. intros H0.
    apply (f_equal (fun z => Z.testbit z k)) in H0.
    by rewrite Z.land_spec, BIT_testbit, Z.eqb_refl, E, Z.bits_0 in H0 by done.
  - apply negb_false_iff, Z.eqb_eq, Z.bits_inj'. intros i Hi.
    rewrite Z.land_spec, BIT_testbit, Z.bits_0 by done.
    destruct (Z.eqb_spec i k) as [->|]; [by rewrite E|by rewrite andb_false_r].
Qed.

Lemma truthy_land_lor x a b :
  truthy (x .& (a .| b)) = (truthy (x .& a) || truthy (x .& b))%bool.
Proof.
  unfold truthy. rewrite Z.land_lor_distr_r.
  destruct (Z.eqb_spec (x .& a) 0) as [->|Ha], (Z.eqb_spec (x .& b) 0) as [->|Hb];
    cbn; rewrite ?Z.lor_0_l, ?Z.lor_0_r.
  - done.
  - by apply negb_true_iff, Z.eqb_neq.
  - by apply negb_true_iff, Z.eqb_neq.
  - apply negb_true_iff, Z.eqb_neq. intros H0. apply Z.lor_eq_0_iff in H0. by destruct H0.
Qed.

(** Integer primitives stay folded under [cbn] and [simpl]. *)
#[global] Arguments Z.testbit : simpl never.
#[global] Arguments Z.land : simpl never.
#[global] Arguments Z.lor : simpl never.
#[global] Arguments Z.ldiff : simpl never.
#[global] Arguments Z.shiftl : simpl never.
#[global] Arguments Z.shiftr : simpl never.
#[global] Arguments Z.modulo : simpl never.
#[global] Arguments Z.div : simpl never.
#[global] Arguments Z.quot : simpl never.
#[global] Arguments Z.mul : simpl never.
#[global] Arguments Z.add : simpl never.
#[global] Arguments Z.sub : simpl never.
#[global] Arguments Z.pow : simpl never.
#[global] Arguments u8 : simpl never.
#[global] Arguments u16 : simpl never.
#[global] Arguments u32 : simpl never.
#[global] Arguments u64 : simpl never.
#[global] Arguments s32 : simpl never.
#[global] Arguments rmw : simpl never.
#[global] Arguments FIELD_PREP : simpl never.
#[global] Arguments FIELD_GET : simpl never.
#[global] Arguments truthy : simpl never.
