(* ===== verification/KernelApi.v ===== *)
(** * KernelApi: the kernel services the drivers call

    The regmap, clock and poll services live outside the modelled sources:
    they are interfaces here, operations in one class and their documented
    behaviour in another.  The drivers are defined and verified against the
    interfaces; [regfile] is a concrete register file, which makes every definition
    executable and shows that the laws can hold. *)

From S2P Require Export Prelude.

Create HintDb prog.

(** ** regmap *)

Class RegmapOps (D : Type) := {
  regmap_read : D -> Z -> Z;
  regmap_write : D -> Z -> Z -> D;
  regmap_update_bits : D -> Z -> Z -> Z -> D;
  regmap_set_bits : D -> Z -> Z -> D;
  regmap_clear_bits : D -> Z -> Z -> D;
  regmap_assign_bits : D -> Z -> Z -> bool -> D;
  (** the writes that reached the bus, oldest first: an observation *)
  regmap_log : D -> list (Z * Z)
}.

(** Laws of a register file without hardware-driven bits: what the display
    drivers rely on for configuration registers. *)
Class RegmapLaws (D : Type) `{!RegmapOps D} : Prop := {
  regmap_read_range d r : is_u32 (regmap_read d r);
  regmap_read_write d r v : regmap_read (regmap_write d r v) r = u32 v;
  regmap_read_write_ne d r r' v :
    r <> r' -> regmap_read (regmap_write d r v) r' = regmap_read d r';
  regmap_read_update d r m v :
    regmap_read (regmap_update_bits d r m v) r
    = rmw (regmap_read d r) (u32 m) (u32 v);
  regmap_read_update_ne d r r' m v :
    r <> r' -> regmap_read (regmap_update_bits d r m v) r' = regmap_read d r';
  regmap_set_bits_eq d r b : regmap_set_bits d r b = regmap_update_bits d r b b;
  regmap_clear_bits_eq d r b : regmap_clear_bits d r b = regmap_update_bits d r b 0;
  regmap_assign_bits_eq d r b (c : bool) :
    regmap_assign_bits d r b c
    = if c then regmap_update_bits d r b b else regmap_update_bits d r b 0;
  regmap_log_write d r v :
    regmap_log (regmap_write d r v) = regmap_log d ++ [(r, u32 v)];
  (** an update is one write of the new value; it may be left out when it
      changes nothing *)
  regmap_log_update d r m v :
    let new := rmw (regmap_read d r) (u32 m) (u32 v) in
    regmap_log (regmap_update_bits d r m v) = regmap_log d ++ [(r, new)]
    \/ (new = regmap_read d r
        /\ regmap_log (regmap_update_bits d r m v) = regmap_log d)
}.

(** Disequality of register addresses: by computation or by arithmetic. *)
Ltac reg_ne := first [ discriminate | lia | (vm_compute; discriminate) ].

Ltac rm_unfold_bits :=
  rewrite ?regmap_set_bits_eq, ?regmap_clear_bits_eq, ?regmap_assign_bits_eq.

(** Evaluate a read of a register after a chain of register operations. *)
Ltac rm_step :=
  match goal with
  | |- context [regmap_read (regmap_write ?d ?r ?v) ?r'] =>
      first [ unify r r'; rewrite (regmap_read_write d r v)
            | rewrite (regmap_read_write_ne d r r' v) by reg_ne ]
  | |- context [regmap_read (regmap_update_bits ?d ?r ?m ?v) ?r'] =>
      first [ unify r r'; rewrite (regmap_read_update d r m v)
            | rewrite (regmap_read_update_ne d r r' m v) by reg_ne ]
  end.
Ltac rm_simp := rm_unfold_bits; repeat rm_step.

(** The concrete register file. *)
Record regfile := RegFile { rf_regs : gmap Z Z; rf_writes : list (Z * Z) }.

Definition rf_get (d : regfile) (r : Z) : Z := u32 (default 0 (rf_regs d !! r)).
Definition rf_put (d : regfile) (r v : Z) : regfile :=
  RegFile (<[r := u32 v]> (rf_regs d)) (rf_writes d ++ [(r, u32 v)]).
Definition rf_upd (d : regfile) (r m v : Z) : regfile :=
  let new := rmw (rf_get d r) (u32 m) (u32 v) in
  if new =? rf_get d r then d else rf_put d r new.

#[export] Instance regfile_ops : RegmapOps regfile := {
  regmap_read := rf_get;
  regmap_write := rf_put;
  regmap_update_bits := rf_upd;
  regmap_set_bits d r b := rf_upd d r b b;
  regmap_clear_bits d r b := rf_upd d r b 0;
  regmap_assign_bits d r b c := if c then rf_upd d r b b else rf_upd d r b 0;
  regmap_log := rf_writes
}.

Definition regfile0 : regfile := RegFile empty [].

Lemma rf_get_put d r v : rf_get (rf_put d r v) r = u32 v.
Proof. unfold rf_get, rf_put; cbn. rewrite lookup_insert_eq; cbn. apply u32_idemp. Qed.

Lemma rf_get_put_ne d r r' v : r <> r' -> rf_get (rf_put d r v) r' = rf_get d r'.
Proof. intros. unfold rf_get, rf_put; cbn. by rewrite lookup_insert_ne. Qed.

Lemma rf_rmw_range d r m v : is_u32 (rmw (rf_get d r) (u32 m) (u32 v)).
Proof. apply rmw_range; apply u32_range. Qed.

#[export] Instance regfile_laws : RegmapLaws regfile.
Proof.
  split; cbn; try done.
  - intros. apply u32_range.
  - apply rf_get_put.
  - intros. by apply rf_get_put_ne.
  - intros d r m v. unfold rf_upd. case_if; zb; [done|].
    rewrite rf_get_put. apply u32_id, rf_rmw_range.
  - intros d r r' m v Hne. unfold rf_upd. case_if; [done|]. by apply rf_get_put_ne.
  - intros d r m v. unfold rf_upd. case_if; zb; [by right|].
    left; cbn. by rewrite (u32_id (rmw _ _ _)) by apply rf_rmw_range.
Qed.

(** ** Polling

    Hardware changes some bits of its registers on its own, while time passes:
    the volatile bits.  [regmap_read_poll_timeout] answers its result and the
    last value read. *)
Class PollOps (D : Type) := {
  msleep : D -> Z -> D;
  udelay : D -> Z -> D;
  regmap_read_poll_timeout : D -> Z -> (Z -> bool) -> Z -> Z -> Z * Z * D
}.

(** What is known of registers with the given volatile bits: an update reads
    back except for them, and waiting changes nothing else and writes
    nothing. *)
Class MmioLaws (D : Type) `{!RegmapOps D} `{!PollOps D} (volatile : Z -> Z) : Prop := {
  mmio_read_range d r : is_u32 (regmap_read d r);
  mmio_read_update d r m v :
    Z.ldiff (regmap_read (regmap_update_bits d r m v) r) (volatile r)
    = Z.ldiff (rmw (regmap_read d r) (u32 m) (u32 v)) (volatile r);
  mmio_read_update_ne d r r' m v : r <> r' ->
    Z.ldiff (regmap_read (regmap_update_bits d r m v) r') (volatile r')
    = Z.ldiff (regmap_read d r') (volatile r');
  mmio_read_write d r v :
    Z.ldiff (regmap_read (regmap_write d r v) r) (volatile r) = Z.ldiff (u32 v) (volatile r);
  mmio_read_write_ne d r r' v : r <> r' ->
    Z.ldiff (regmap_read (regmap_write d r v) r') (volatile r')
    = Z.ldiff (regmap_read d r') (volatile r');
  mmio_msleep d t r :
    Z.ldiff (regmap_read (msleep d t) r) (volatile r)
    = Z.ldiff (regmap_read d r) (volatile r);
  mmio_udelay d t r :
    Z.ldiff (regmap_read (udelay d t) r) (volatile r)
    = Z.ldiff (regmap_read d r) (volatile r);
  mmio_poll d r c s t :
    let '(ret, val, d') := regmap_read_poll_timeout d r c s t in
    (forall r', Z.ldiff (regmap_read d' r') (volatile r')
                = Z.ldiff (regmap_read d r') (volatile r'))
    /\ (ret = 0 -> c val = true /\ val = regmap_read d' r)
    /\ (ret = - ETIMEDOUT -> c val = false)
    /\ ret <= 0
}.

(** ** Calls into the rest of the kernel

    Initialisation code is a sequence of calls whose results it cannot
    predict: a computation runs against an oracle, which answers each call
    from what was called before, and records every call in order. *)

Definition prog (Ev A : Type) : Type := (list Ev -> Ev -> Z) -> list Ev -> A * list Ev.

Definition pret {Ev A} (x : A) : prog Ev A := fun _ tr => (x, tr).
Definition pbind {Ev A B} (p : prog Ev A) (k : A -> prog Ev B) : prog Ev B :=
  fun o tr => let '(x, tr) := p o tr in k x o tr.
(** A call: its result is the oracle's answer. *)
Definition ext {Ev} (e : Ev) : prog Ev Z := fun o tr => (o tr e, tr ++ [e]).

Notation "'let*' x ':=' p 'in' k" := (pbind p (fun x => k))
  (at level 10, x name, p at level 100, k at level 200).
Notation "'do*' p 'in' k" := (pbind p (fun _ => k))
  (at level 10, p at level 100, k at level 200).

(** The common step [ret = f(); if (ret) return ret;]. *)
Definition try {Ev} (e : Ev) (k : prog Ev Z) : prog Ev Z :=
  let* ret := ext e in if truthy ret then pret ret else k.

Definition run {Ev A} (p : prog Ev A) (o : list Ev -> Ev -> Z) : A * list Ev := p o [].

(** A computation only adds calls. *)
Definition extends {Ev A} (p : prog Ev A) : Prop :=
  forall o tr, exists new, snd (p o tr) = tr ++ new.

Lemma pret_extends {Ev A} (x : A) : extends (pret (Ev:=Ev) x).
Proof. intros o tr. exists []. by rewrite app_nil_r. Qed.

Lemma ext_extends {Ev} (e : Ev) : extends (ext e).
Proof. intros o tr. by exists [e]. Qed.

Lemma pbind_extends {Ev A B} (p : prog Ev A) (k : A -> prog Ev B) :
  extends p -> (forall x, extends (k x)) -> extends (pbind p k).
Proof.
  intros Hp Hk o tr. unfold pbind. destruct (Hp o tr) as [n1 H1].
  destruct (p o tr) as [x tr1]. cbn in H1. subst tr1.
  destruct (Hk x o (tr ++ n1)) as [n2 H2]. exists (n1 ++ n2). by rewrite H2, app_assoc.
Qed.

#[export] Hint Resolve pret_extends ext_extends pbind_extends : prog.

(** The early return of an error, with the state as it stands. *)
Definition bail {Ev S} (ret : Z) (s : S) (k : prog Ev (Z * S)) : prog Ev (Z * S) :=
  if truthy ret then pret (ret, s) else k.

(** What a computation leaves behind, its whole trace included. *)
Definition wp {Ev A} (p : prog Ev A) (o : list Ev -> Ev -> Z) (tr : list Ev)
    (Q : A -> list Ev -> Prop) : Prop :=
  let '(x, tr') := p o tr in Q x tr'.

Section Wp.
Context {Ev : Type} (o : list Ev -> Ev -> Z).

Lemma wp_ret {A} (x : A) tr (Q : A -> list Ev -> Prop) : Q x tr -> wp (pret x) o tr Q.
Proof. done. Qed.

Lemma wp_ext e tr (Q : Z -> list Ev -> Prop) : Q (o tr e) (tr ++ [e]) -> wp (ext e) o tr Q.
Proof. done. Qed.

Lemma wp_bind {A B} (p : prog Ev A) (k : A -> prog Ev B) tr Q :
  wp p o tr (fun x tr' => wp (k x) o tr' Q) -> wp (pbind p k) o tr Q.
Proof. unfold wp, pbind. by destruct (p o tr). Qed.

Lemma wp_mono {A} (p : prog Ev A) tr (Q Q' : A -> list Ev -> Prop) :
  wp p o tr Q -> (forall x tr', Q x tr' -> Q' x tr') -> wp p o tr Q'.
Proof. unfold wp. destruct (p o tr). auto. Qed.

Lemma wp_bail {S} ret (s : S) k tr Q :
  (ret <> 0 -> Q (ret, s) tr) -> (ret = 0 -> wp k o tr Q) -> wp (bail ret s k) o tr Q.
Proof. unfold bail, truthy. intros H1 H2. destruct (Z.eqb_spec ret 0); cbn; auto. Qed.

Lemma wp_if {A} (b : bool) (p q : prog Ev A) tr Q :
  (b = true -> wp p o tr Q) -> (b = false -> wp q o tr Q) -> wp (if b then p else q) o tr Q.
Proof. destruct b; auto. Qed.
End Wp.

(** One step of a computation; a sub-computation with a lemma of its own is
    left to the caller. *)
Ltac wp_step :=
  lazymatch goal with
  | |- wp (pbind _ _) _ _ _ => apply wp_bind
  | |- wp (pret _) _ _ _ => apply wp_ret
  | |- wp (ext _) _ _ _ => apply wp_ext; cbv beta
  | |- wp (bail _ _ _) _ _ _ => apply wp_bail; intros ?
  | |- wp (if _ then _ else _) _ _ _ => apply wp_if; intros ?
  | |- wp (let '(_, _) := ?r in _) _ _ _ => destruct r
  end.
Ltac wp_steps := repeat wp_step.
