(* ===== verification/Uapi.v ===== *)
(** * Uapi: the DRM interface types the sources share

    The structures and constants the modelled sources use from the DRM
    headers: pixel formats, display modes, rectangles, framebuffers, plane and
    CRTC states, each with the fields the sources read or write.  Pixel-format
    codes are named as in the sources; the only thing the code does with them
    is compare them. *)

From S2P Require Export Prelude.

(** ** Pixel formats *)

Inductive fourcc : Set :=
| DRM_FORMAT_INVALID
| DRM_FORMAT_ABGR1555
| DRM_FORMAT_ABGR16161616
| DRM_FORMAT_ABGR16161616F
| DRM_FORMAT_ABGR2101010
| DRM_FORMAT_ABGR4444
| DRM_FORMAT_ABGR8888
| DRM_FORMAT_ARGB1555
| DRM_FORMAT_ARGB16161616
| DRM_FORMAT_ARGB16161616F
| DRM_FORMAT_ARGB2101010
| DRM_FORMAT_ARGB4444
| DRM_FORMAT_ARGB8888
| DRM_FORMAT_AXBXGXRX106106106106
| DRM_FORMAT_AYUV
| DRM_FORMAT_BGR161616
| DRM_FORMAT_BGR233
| DRM_FORMAT_BGR565
| DRM_FORMAT_BGR565_A8
| DRM_FORMAT_BGR888
| DRM_FORMAT_BGR888_A8
| DRM_FORMAT_BGRA1010102
| DRM_FORMAT_BGRA4444
| DRM_FORMAT_BGRA5551
| DRM_FORMAT_BGRA8888
| DRM_FORMAT_BGRX1010102
| DRM_FORMAT_BGRX4444
| DRM_FORMAT_BGRX5551
| DRM_FORMAT_BGRX8888
| DRM_FORMAT_BGRX8888_A8
| DRM_FORMAT_C1
| DRM_FORMAT_C2
| DRM_FORMAT_C4
| DRM_FORMAT_C8
| DRM_FORMAT_D1
| DRM_FORMAT_D2
| DRM_FORMAT_D4
| DRM_FORMAT_D8
| DRM_FORMAT_NV12
| DRM_FORMAT_NV15
| DRM_FORMAT_NV16
| DRM_FORMAT_NV20
| DRM_FORMAT_NV21
| DRM_FORMAT_NV24
| DRM_FORMAT_NV30
| DRM_FORMAT_NV42
| DRM_FORMAT_NV61
| DRM_FORMAT_P010
| DRM_FORMAT_P012
| DRM_FORMAT_P016
| DRM_FORMAT_P030
| DRM_FORMAT_P210
| DRM_FORMAT_P230
| DRM_FORMAT_Q401
| DRM_FORMAT_Q410
| DRM_FORMAT_R1
| DRM_FORMAT_R10
| DRM_FORMAT_R12
| DRM_FORMAT_R2
| DRM_FORMAT_R4
| DRM_FORMAT_R8
| DRM_FORMAT_RGB161616
| DRM_FORMAT_RGB332
| DRM_FORMAT_RGB565
| DRM_FORMAT_RGB565_A8
| DRM_FORMAT_RGB888
| DRM_FORMAT_RGB888_A8
| DRM_FORMAT_RGBA1010102
| DRM_FORMAT_RGBA4444
| DRM_FORMAT_RGBA5551
| DRM_FORMAT_RGBA8888
| DRM_FORMAT_RGBX1010102
| DRM_FORMAT_RGBX4444
| DRM_FORMAT_RGBX5551
| DRM_FORMAT_RGBX8888
| DRM_FORMAT_RGBX8888_A8
| DRM_FORMAT_S010
| DRM_FORMAT_S012
| DRM_FORMAT_S016
| DRM_FORMAT_S210
| DRM_FORMAT_S212
| DRM_FORMAT_S216
| DRM_FORMAT_S410
| DRM_FORMAT_S412
| DRM_FORMAT_S416
| DRM_FORMAT_T430
| DRM_FORMAT_UYVY
| DRM_FORMAT_VUY101010
| DRM_FORMAT_VUY888
| DRM_FORMAT_VYUY
| DRM_FORMAT_X0L0
| DRM_FORMAT_X0L2
| DRM_FORMAT_XBGR1555
| DRM_FORMAT_XBGR16161616
| DRM_FORMAT_XBGR16161616F
| DRM_FORMAT_XBGR2101010
| DRM_FORMAT_XBGR4444
| DRM_FORMAT_XBGR8888
| DRM_FORMAT_XBGR8888_A8
| DRM_FORMAT_XRGB1555
| DRM_FORMAT_XRGB16161616
| DRM_FORMAT_XRGB16161616F
| DRM_FORMAT_XRGB2101010
| DRM_FORMAT_XRGB4444
| DRM_FORMAT_XRGB8888
| DRM_FORMAT_XRGB8888_A8
| DRM_FORMAT_XVUY2101010
| DRM_FORMAT_XVYU12_16161616
| DRM_FORMAT_XVYU16161616
| DRM_FORMAT_XVYU2101010
| DRM_FORMAT_XYUV8888
| DRM_FORMAT_XYYY2101010
| DRM_FORMAT_Y0L0
| DRM_FORMAT_Y0L2
| DRM_FORMAT_Y210
| DRM_FORMAT_Y212
| DRM_FORMAT_Y216
| DRM_FORMAT_Y410
| DRM_FORMAT_Y412
| DRM_FORMAT_Y416
| DRM_FORMAT_Y8
| DRM_FORMAT_YUV410
| DRM_FORMAT_YUV411
| DRM_FORMAT_YUV420
| DRM_FORMAT_YUV420_10BIT
| DRM_FORMAT_YUV420_8BIT
| DRM_FORMAT_YUV422
| DRM_FORMAT_YUV444
| DRM_FORMAT_YUYV
| DRM_FORMAT_YVU410
| DRM_FORMAT_YVU411
| DRM_FORMAT_YVU420
| DRM_FORMAT_YVU422
| DRM_FORMAT_YVU444
| DRM_FORMAT_YVYU
| DRM_FORMAT_OTHER (code : Z).

Definition fourcc_index (f : fourcc) : Z * Z :=
  match f with
  | DRM_FORMAT_INVALID => (0, 0)
  | DRM_FORMAT_ABGR1555 => (1, 0)
  | DRM_FORMAT_ABGR16161616 => (2, 0)
  | DRM_FORMAT_ABGR16161616F => (3, 0)
  | DRM_FORMAT_ABGR2101010 => (4, 0)
  | DRM_FORMAT_ABGR4444 => (5, 0)
  | DRM_FORMAT_ABGR8888 => (6, 0)
  | DRM_FORMAT_ARGB1555 => (7, 0)
  | DRM_FORMAT_ARGB16161616 => (8, 0)
  | DRM_FORMAT_ARGB16161616F => (9, 0)
  | DRM_FORMAT_ARGB2101010 => (10, 0)
  | DRM_FORMAT_ARGB4444 => (11, 0)
  | DRM_FORMAT_ARGB8888 => (12, 0)
  | DRM_FORMAT_AXBXGXRX106106106106 => (13, 0)
  | DRM_FORMAT_AYUV => (14, 0)
  | DRM_FORMAT_BGR161616 => (15, 0)
  | DRM_FORMAT_BGR233 => (16, 0)
  | DRM_FORMAT_BGR565 => (17, 0)
  | DRM_FORMAT_BGR565_A8 => (18, 0)
  | DRM_FORMAT_BGR888 => (19, 0)
  | DRM_FORMAT_BGR888_A8 => (20, 0)
  | DRM_FORMAT_BGRA1010102 => (21, 0)
  | DRM_FORMAT_BGRA4444 => (22, 0)
  | DRM_FORMAT_BGRA5551 => (23, 0)
  | DRM_FORMAT_BGRA8888 => (24, 0)
  | DRM_FORMAT_BGRX1010102 => (25, 0)
  | DRM_FORMAT_BGRX4444 => (26, 0)
  | DRM_FORMAT_BGRX5551 => (27, 0)
  | DRM_FORMAT_BGRX8888 => (28, 0)
  | DRM_FORMAT_BGRX8888_A8 => (29, 0)
  | DRM_FORMAT_C1 => (30, 0)
  | DRM_FORMAT_C2 => (31, 0)
  | DRM_FORMAT_C4 => (32, 0)
  | DRM_FORMAT_C8 => (33, 0)
  | DRM_FORMAT_D1 => (34, 0)
  | DRM_FORMAT_D2 => (35, 0)
  | DRM_FORMAT_D4 => (36, 0)
  | DRM_FORMAT_D8 => (37, 0)
  | DRM_FORMAT_NV12 => (38, 0)
  | DRM_FORMAT_NV15 => (39, 0)
  | DRM_FORMAT_NV16 => (40, 0)
  | DRM_FORMAT_NV20 => (41, 0)
  | DRM_FORMAT_NV21 => (42, 0)
  | DRM_FORMAT_NV24 => (43, 0)
  | DRM_FORMAT_NV30 => (44, 0)
  | DRM_FORMAT_NV42 => (45, 0)
  | DRM_FORMAT_NV61 => (46, 0)
  | DRM_FORMAT_P010 => (47, 0)
  | DRM_FORMAT_P012 => (48, 0)
  | DRM_FORMAT_P016 => (49, 0)
  | DRM_FORMAT_P030 => (50, 0)
  | DRM_FORMAT_P210 => (51, 0)
  | DRM_FORMAT_P230 => (52, 0)
  | DRM_FORMAT_Q401 => (53, 0)
  | DRM_FORMAT_Q410 => (54, 0)
  | DRM_FORMAT_R1 => (55, 0)
  | DRM_FORMAT_R10 => (56, 0)
  | DRM_FORMAT_R12 => (57, 0)
  | DRM_FORMAT_R2 => (58, 0)
  | DRM_FORMAT_R4 => (59, 0)
  | DRM_FORMAT_R8 => (60, 0)
  | DRM_FORMAT_RGB161616 => (61, 0)
  | DRM_FORMAT_RGB332 => (62, 0)
  | DRM_FORMAT_RGB565 => (63, 0)
  | DRM_FORMAT_RGB565_A8 => (64, 0)
  | DRM_FORMAT_RGB888 => (65, 0)
  | DRM_FORMAT_RGB888_A8 => (66, 0)
  | DRM_FORMAT_RGBA1010102 => (67, 0)
  | DRM_FORMAT_RGBA4444 => (68, 0)
  | DRM_FORMAT_RGBA5551 => (69, 0)
  | DRM_FORMAT_RGBA8888 => (70, 0)
  | DRM_FORMAT_RGBX1010102 => (71, 0)
  | DRM_FORMAT_RGBX4444 => (72, 0)
  | DRM_FORMAT_RGBX5551 => (73, 0)
  | DRM_FORMAT_RGBX8888 => (74, 0)
  | DRM_FORMAT_RGBX8888_A8 => (75, 0)
  | DRM_FORMAT_S010 => (76, 0)
  | DRM_FORMAT_S012 => (77, 0)
  | DRM_FORMAT_S016 => (78, 0)
  | DRM_FORMAT_S210 => (79, 0)
  | DRM_FORMAT_S212 => (80, 0)
  | DRM_FORMAT_S216 => (81, 0)
  | DRM_FORMAT_S410 => (82, 0)
  | DRM_FORMAT_S412 => (83, 0)
  | DRM_FORMAT_S416 => (84, 0)
  | DRM_FORMAT_T430 => (85, 0)
  | DRM_FORMAT_UYVY => (86, 0)
  | DRM_FORMAT_VUY101010 => (87, 0)
  | DRM_FORMAT_VUY888 => (88, 0)
  | DRM_FORMAT_VYUY => (89, 0)
  | DRM_FORMAT_X0L0 => (90, 0)
  | DRM_FORMAT_X0L2 => (91, 0)
  | DRM_FORMAT_XBGR1555 => (92, 0)
  | DRM_FORMAT_XBGR16161616 => (93, 0)
  | DRM_FORMAT_XBGR16161616F => (94, 0)
  | DRM_FORMAT_XBGR2101010 => (95, 0)
  | DRM_FORMAT_XBGR4444 => (96, 0)
  | DRM_FORMAT_XBGR8888 => (97, 0)
  | DRM_FORMAT_XBGR8888_A8 => (98, 0)
  | DRM_FORMAT_XRGB1555 => (99, 0)
  | DRM_FORMAT_XRGB16161616 => (100, 0)
  | DRM_FORMAT_XRGB16161616F => (101, 0)
  | DRM_FORMAT_XRGB2101010 => (102, 0)
  | DRM_FORMAT_XRGB4444 => (103, 0)
  | DRM_FORMAT_XRGB8888 => (104, 0)
  | DRM_FORMAT_XRGB8888_A8 => (105, 0)
  | DRM_FORMAT_XVUY2101010 => (106, 0)
  | DRM_FORMAT_XVYU12_16161616 => (107, 0)
  | DRM_FORMAT_XVYU16161616 => (108, 0)
  | DRM_FORMAT_XVYU2101010 => (109, 0)
  | DRM_FORMAT_XYUV8888 => (110, 0)
  | DRM_FORMAT_XYYY2101010 => (111, 0)
  | DRM_FORMAT_Y0L0 => (112, 0)
  | DRM_FORMAT_Y0L2 => (113, 0)
  | DRM_FORMAT_Y210 => (114, 0)
  | DRM_FORMAT_Y212 => (115, 0)
  | DRM_FORMAT_Y216 => (116, 0)
  | DRM_FORMAT_Y410 => (117, 0)
  | DRM_FORMAT_Y412 => (118, 0)
  | DRM_FORMAT_Y416 => (119, 0)
  | DRM_FORMAT_Y8 => (120, 0)
  | DRM_FORMAT_YUV410 => (121, 0)
  | DRM_FORMAT_YUV411 => (122, 0)
  | DRM_FORMAT_YUV420 => (123, 0)
  | DRM_FORMAT_YUV420_10BIT => (124, 0)
  | DRM_FORMAT_YUV420_8BIT => (125, 0)
  | DRM_FORMAT_YUV422 => (126, 0)
  | DRM_FORMAT_YUV444 => (127, 0)
  | DRM_FORMAT_YUYV => (128, 0)
  | DRM_FORMAT_YVU410 => (129, 0)
  | DRM_FORMAT_YVU411 => (130, 0)
  | DRM_FORMAT_YVU420 => (131, 0)
  | DRM_FORMAT_YVU422 => (132, 0)
  | DRM_FORMAT_YVU444 => (133, 0)
  | DRM_FORMAT_YVYU => (134, 0)
  | DRM_FORMAT_OTHER code => (135, code)
  end.

Definition fourcc_of_index (i : Z * Z) : fourcc :=
  match fst i with
  | 1 => DRM_FORMAT_ABGR1555
  | 2 => DRM_FORMAT_ABGR16161616
  | 3 => DRM_FORMAT_ABGR16161616F
  | 4 => DRM_FORMAT_ABGR2101010
  | 5 => DRM_FORMAT_ABGR4444
  | 6 => DRM_FORMAT_ABGR8888
  | 7 => DRM_FORMAT_ARGB1555
  | 8 => DRM_FORMAT_ARGB16161616
  | 9 => DRM_FORMAT_ARGB16161616F
  | 10 => DRM_FORMAT_ARGB2101010
  | 11 => DRM_FORMAT_ARGB4444
  | 12 => DRM_FORMAT_ARGB8888
  | 13 => DRM_FORMAT_AXBXGXRX106106106106
  | 14 => DRM_FORMAT_AYUV
  | 15 => DRM_FORMAT_BGR161616
  | 16 => DRM_FORMAT_BGR233
  | 17 => DRM_FORMAT_BGR565
  | 18 => DRM_FORMAT_BGR565_A8
  | 19 => DRM_FORMAT_BGR888
  | 20 => DRM_FORMAT_BGR888_A8
  | 21 => DRM_FORMAT_BGRA1010102
  | 22 => DRM_FORMAT_BGRA4444
  | 23 => DRM_FORMAT_BGRA5551
  | 24 => DRM_FORMAT_BGRA8888
  | 25 => DRM_FORMAT_BGRX1010102
  | 26 => DRM_FORMAT_BGRX4444
  | 27 => DRM_FORMAT_BGRX5551
  | 28 => DRM_FORMAT_BGRX8888
  | 29 => DRM_FORMAT_BGRX8888_A8
  | 30 => DRM_FORMAT_C1
  | 31 => DRM_FORMAT_C2
  | 32 => DRM_FORMAT_C4
  | 33 => DRM_FORMAT_C8
  | 34 => DRM_FORMAT_D1
  | 35 => DRM_FORMAT_D2
  | 36 => DRM_FORMAT_D4
  | 37 => DRM_FORMAT_D8
  | 38 => DRM_FORMAT_NV12
  | 39 => DRM_FORMAT_NV15
  | 40 => DRM_FORMAT_NV16
  | 41 => DRM_FORMAT_NV20
  | 42 => DRM_FORMAT_NV21
  | 43 => DRM_FORMAT_NV24
  | 44 => DRM_FORMAT_NV30
  | 45 => DRM_FORMAT_NV42
  | 46 => DRM_FORMAT_NV61
  | 47 => DRM_FORMAT_P010
  | 48 => DRM_FORMAT_P012
  | 49 => DRM_FORMAT_P016
  | 50 => DRM_FORMAT_P030
  | 51 => DRM_FORMAT_P210
  | 52 => DRM_FORMAT_P230
  | 53 => DRM_FORMAT_Q401
  | 54 => DRM_FORMAT_Q410
  | 55 => DRM_FORMAT_R1
  | 56 => DRM_FORMAT_R10
  | 57 => DRM_FORMAT_R12
  | 58 => DRM_FORMAT_R2
  | 59 => DRM_FORMAT_R4
  | 60 => DRM_FORMAT_R8
  | 61 => DRM_FORMAT_RGB161616
  | 62 => DRM_FORMAT_RGB332
  | 63 => DRM_FORMAT_RGB565
  | 64 => DRM_FORMAT_RGB565_A8
  | 65 => DRM_FORMAT_RGB888
  | 66 => DRM_FORMAT_RGB888_A8
  | 67 => DRM_FORMAT_RGBA1010102
  | 68 => DRM_FORMAT_RGBA4444
  | 69 => DRM_FORMAT_RGBA5551
  | 70 => DRM_FORMAT_RGBA8888
  | 71 => DRM_FORMAT_RGBX1010102
  | 72 => DRM_FORMAT_RGBX4444
  | 73 => DRM_FORMAT_RGBX5551
  | 74 => DRM_FORMAT_RGBX8888
  | 75 => DRM_FORMAT_RGBX8888_A8
  | 76 => DRM_FORMAT_S010
  | 77 => DRM_FORMAT_S012
  | 78 => DRM_FORMAT_S016
  | 79 => DRM_FORMAT_S210
  | 80 => DRM_FORMAT_S212
  | 81 => DRM_FORMAT_S216
  | 82 => DRM_FORMAT_S410
  | 83 => DRM_FORMAT_S412
  | 84 => DRM_FORMAT_S416
  | 85 => DRM_FORMAT_T430
  | 86 => DRM_FORMAT_UYVY
  | 87 => DRM_FORMAT_VUY101010
  | 88 => DRM_FORMAT_VUY888
  | 89 => DRM_FORMAT_VYUY
  | 90 => DRM_FORMAT_X0L0
  | 91 => DRM_FORMAT_X0L2
  | 92 => DRM_FORMAT_XBGR1555
  | 93 => DRM_FORMAT_XBGR16161616
  | 94 => DRM_FORMAT_XBGR16161616F
  | 95 => DRM_FORMAT_XBGR2101010
  | 96 => DRM_FORMAT_XBGR4444
  | 97 => DRM_FORMAT_XBGR8888
  | 98 => DRM_FORMAT_XBGR8888_A8
  | 99 => DRM_FORMAT_XRGB1555
  | 100 => DRM_FORMAT_XRGB16161616
  | 101 => DRM_FORMAT_XRGB16161616F
  | 102 => DRM_FORMAT_XRGB2101010
  | 103 => DRM_FORMAT_XRGB4444
  | 104 => DRM_FORMAT_XRGB8888
  | 105 => DRM_FORMAT_XRGB8888_A8
  | 106 => DRM_FORMAT_XVUY2101010
  | 107 => DRM_FORMAT_XVYU12_16161616
  | 108 => DRM_FORMAT_XVYU16161616
  | 109 => DRM_FORMAT_XVYU2101010
  | 110 => DRM_FORMAT_XYUV8888
  | 111 => DRM_FORMAT_XYYY2101010
  | 112 => DRM_FORMAT_Y0L0
  | 113 => DRM_FORMAT_Y0L2
  | 114 => DRM_FORMAT_Y210
  | 115 => DRM_FORMAT_Y212
  | 116 => DRM_FORMAT_Y216
  | 117 => DRM_FORMAT_Y410
  | 118 => DRM_FORMAT_Y412
  | 119 => DRM_FORMAT_Y416
  | 120 => DRM_FORMAT_Y8
  | 121 => DRM_FORMAT_YUV410
  | 122 => DRM_FORMAT_YUV411
  | 123 => DRM_FORMAT_YUV420
  | 124 => DRM_FORMAT_YUV420_10BIT
  | 125 => DRM_FORMAT_YUV420_8BIT
  | 126 => DRM_FORMAT_YUV422
  | 127 => DRM_FORMAT_YUV444
  | 128 => DRM_FORMAT_YUYV
  | 129 => DRM_FORMAT_YVU410
  | 130 => DRM_FORMAT_YVU411
  | 131 => DRM_FORMAT_YVU420
  | 132 => DRM_FORMAT_YVU422
  | 133 => DRM_FORMAT_YVU444
  | 134 => DRM_FORMAT_YVYU
  | 135 => DRM_FORMAT_OTHER (snd i)
  | _ => DRM_FORMAT_INVALID
  end.

Lemma fourcc_of_index_index f : fourcc_of_index (fourcc_index f) = f.
Proof. by destruct f. Qed.

#[export] Instance fourcc_eq_dec : EqDecision fourcc.
Proof.
  intros f g. destruct (decide (fourcc_index f = fourcc_index g)) as [He|Hn].
  - left. by rewrite <- (fourcc_of_index_index f), He, fourcc_of_index_index.
  - right. by intros ->.
Defined.

(** On a little-endian machine the host-order formats are the plain ones. *)
Abbreviation DRM_FORMAT_HOST_XRGB8888 := DRM_FORMAT_XRGB8888.
Abbreviation DRM_FORMAT_HOST_ARGB8888 := DRM_FORMAT_ARGB8888.
Abbreviation DRM_FORMAT_HOST_RGB565 := DRM_FORMAT_RGB565.
Abbreviation DRM_FORMAT_HOST_XRGB1555 := DRM_FORMAT_XRGB1555.

(** [struct drm_format_info]; [char_per_block] is the union with [cpp]. *)
Record drm_format_info := mkfmt {
  format : fourcc;
  depth : Z;
  num_planes : Z;
  char_per_block : list Z;
  block_w : list Z;
  block_h : list Z;
  hsub : Z;
  vsub : Z;
  has_alpha : bool;
  is_yuv : bool;
  is_color_indexed : bool
}.

(** A read of a fixed-size C array inside its bounds; 0 outside, which no
    modelled caller reaches. *)
Definition aget (l : list Z) (i : Z) : Z := nth (Z.to_nat i) l 0.

(** ** Rectangles and modes *)

Record drm_rect := mkrect { x1 : Z; y1 : Z; x2 : Z; y2 : Z }.

#[export] Instance drm_rect_eq_dec : EqDecision drm_rect.
Proof. solve_decision. Defined.

Definition DRM_MODE_ROTATE_0 : Z := BIT 0.
Definition DRM_MODE_ROTATE_90 : Z := BIT 1.
Definition DRM_MODE_ROTATE_180 : Z := BIT 2.
Definition DRM_MODE_ROTATE_270 : Z := BIT 3.
Definition DRM_MODE_ROTATE_MASK : Z := GENMASK 3 0.
Definition DRM_MODE_REFLECT_X : Z := BIT 4.
Definition DRM_MODE_REFLECT_Y : Z := BIT 5.
Definition DRM_MODE_REFLECT_MASK : Z := DRM_MODE_REFLECT_X .| DRM_MODE_REFLECT_Y.

Definition DRM_MODE_FLAG_PHSYNC : Z := BIT 0.
Definition DRM_MODE_FLAG_NHSYNC : Z := BIT 1.
Definition DRM_MODE_FLAG_PVSYNC : Z := BIT 2.
Definition DRM_MODE_FLAG_NVSYNC : Z := BIT 3.
Definition DRM_MODE_FLAG_INTERLACE : Z := BIT 4.
Definition DRM_MODE_FLAG_DBLSCAN : Z := BIT 5.
Definition DRM_MODE_FLAG_3D_MASK : Z := GENMASK 18 14.
Definition DRM_MODE_FLAG_3D_FRAME_PACKING : Z := 1 .<< 14.

Record drm_display_mode := mkmode {
  clock : Z;                 (* int, kHz *)
  hdisplay : Z; hsync_start : Z; hsync_end : Z; htotal : Z; hskew : Z;
  vdisplay : Z; vsync_start : Z; vsync_end : Z; vtotal : Z; vscan : Z;
  flags : Z; type : Z; picture_aspect_ratio : Z;
  crtc_clock : Z;
  crtc_hdisplay : Z; crtc_hblank_start : Z; crtc_hblank_end : Z;
  crtc_hsync_start : Z; crtc_hsync_end : Z; crtc_htotal : Z; crtc_hskew : Z;
  crtc_vdisplay : Z; crtc_vblank_start : Z; crtc_vblank_end : Z;
  crtc_vsync_start : Z; crtc_vsync_end : Z; crtc_vtotal : Z
}.

(** [enum drm_mode_status], the constants the modelled code returns. *)
Inductive drm_mode_status : Set :=
| MODE_OK | MODE_HSYNC | MODE_VSYNC | MODE_H_ILLEGAL | MODE_V_ILLEGAL
| MODE_BAD_WIDTH | MODE_NOMODE | MODE_NO_INTERLACE | MODE_NO_DBLESCAN
| MODE_NO_VSCAN | MODE_MEM | MODE_VIRTUAL_X | MODE_VIRTUAL_Y | MODE_MEM_VIRT
| MODE_NOCLOCK | MODE_CLOCK_HIGH | MODE_CLOCK_LOW | MODE_CLOCK_RANGE
| MODE_BAD_HVALUE | MODE_BAD_VVALUE | MODE_BAD.

#[export] Instance drm_mode_status_eq_dec : EqDecision drm_mode_status.
Proof. solve_decision. Defined.

(** Their [enum] values: counted from [MODE_OK = 0]; [MODE_BAD] is -2. *)
Definition mode_status_value (s : drm_mode_status) : Z :=
  match s with
  | MODE_OK => 0 | MODE_HSYNC => 1 | MODE_VSYNC => 2 | MODE_H_ILLEGAL => 3
  | MODE_V_ILLEGAL => 4 | MODE_BAD_WIDTH => 5 | MODE_NOMODE => 6
  | MODE_NO_INTERLACE => 7 | MODE_NO_DBLESCAN => 8 | MODE_NO_VSCAN => 9
  | MODE_MEM => 10 | MODE_VIRTUAL_X => 11 | MODE_VIRTUAL_Y => 12
  | MODE_MEM_VIRT => 13 | MODE_NOCLOCK => 14 | MODE_CLOCK_HIGH => 15
  | MODE_CLOCK_LOW => 16 | MODE_CLOCK_RANGE => 17 | MODE_BAD_HVALUE => 18
  | MODE_BAD_VVALUE => 19 | MODE_BAD => -2
  end.

(** ** Media bus formats *)

(** Those the modelled sources name, and any other code. *)
Inductive media_bus_fmt : Set :=
| MEDIA_BUS_FMT_FIXED | MEDIA_BUS_FMT_RGB888_1X24 | MEDIA_BUS_FMT_RGB565_1X16
| MEDIA_BUS_FMT_RGB666_1X18 | MEDIA_BUS_FMT_RGB101010_1X30 | MEDIA_BUS_FMT_UYVY8_1X16
| MEDIA_BUS_FMT_UYVY10_1X20 | MEDIA_BUS_FMT_YUV8_1X24 | MEDIA_BUS_FMT_YUV10_1X30
| MEDIA_BUS_FMT_UYYVYY8_0_5X24 | MEDIA_BUS_FMT_UYYVYY10_0_5X30
| MEDIA_BUS_FMT_OTHER (code : Z).

#[export] Instance media_bus_fmt_eq_dec : EqDecision media_bus_fmt.
Proof. solve_decision. Defined.

(** ** Framebuffers, planes and CRTCs *)

(** A framebuffer; [fb_id] stands for its address, which is all a pointer
    comparison sees.  [fb_obj] is the DMA address of the GEM object behind
    each plane, [None] for a NULL object; [fb_modifier] is the one modifier all
    planes share. *)
Record drm_framebuffer := mkfb {
  fb_id : Z;
  fb_format : drm_format_info;
  fb_width : Z;
  fb_height : Z;
  fb_pitches : list Z;
  fb_offsets : list Z;
  fb_modifier : Z;
  fb_obj : list (option Z)
}.

Inductive drm_plane_type : Set :=
| DRM_PLANE_TYPE_OVERLAY | DRM_PLANE_TYPE_PRIMARY | DRM_PLANE_TYPE_CURSOR.

#[export] Instance drm_plane_type_eq_dec : EqDecision drm_plane_type.
Proof. solve_decision. Defined.

(** The [enum] values, used as array indices by the drivers. *)
Definition plane_type_value (t : drm_plane_type) : Z :=
  match t with
  | DRM_PLANE_TYPE_OVERLAY => 0
  | DRM_PLANE_TYPE_PRIMARY => 1
  | DRM_PLANE_TYPE_CURSOR => 2
  end.

Definition DRM_MODE_BLEND_PREMULTI : Z := 0.
Definition DRM_MODE_BLEND_COVERAGE : Z := 1.
Definition DRM_MODE_BLEND_PIXEL_NONE : Z := 2.

Definition DRM_PLANE_NO_SCALING : Z := 1 .<< 16.

Definition DRM_BUS_FLAG_DE_LOW : Z := BIT 0.
Definition DRM_BUS_FLAG_PIXDATA_DRIVE_NEGEDGE : Z := BIT 3.

(** [ps_crtc] is the index of the CRTC, [None] for NULL. *)
Record drm_plane_state := mkps {
  ps_crtc : option nat;
  ps_fb : option drm_framebuffer;
  crtc_x : Z; crtc_y : Z;           (* int32_t *)
  crtc_w : Z; crtc_h : Z;           (* uint32_t *)
  src_x : Z; src_y : Z;             (* uint32_t, 16.16 *)
  src_w : Z; src_h : Z;
  hotspot_x : Z; hotspot_y : Z;     (* int32_t *)
  pixel_blend_mode : Z;             (* uint16_t *)
  rotation : Z;                     (* unsigned int *)
  ps_src : drm_rect; ps_dst : drm_rect;
  visible : bool
}.

Record drm_color_lut := mklut { red : Z; green : Z; blue : Z }.

Record drm_crtc_state := mkcs {
  enable : bool;
  mode : drm_display_mode;
  adjusted_mode : drm_display_mode;
  gamma_lut : option (list drm_color_lut);
  color_mgmt_changed : bool
}.

(** The ioctl argument of dumb-buffer creation: u32 fields, [size] is u64. *)
Record drm_mode_create_dumb := mkdumb {
  d_height : Z; d_width : Z; d_bpp : Z;
  d_handle : Z; d_pitch : Z; d_size : Z
}.

(** The fields of [struct drm_mode_config] the sources use. *)
Record drm_mode_config := mkcfg {
  min_width : Z; min_height : Z; max_width : Z; max_height : Z;
  cursor_width : Z; cursor_height : Z;
  quirk_addfb_prefer_host_byte_order : bool;
  quirk_addfb_prefer_xbgr_30bpp : bool
}.
