(* ===== verification/DrmRect.v ===== *)
(** * DrmRect: rectangles (src/drm/drm_rect.c, drm_rotation_simplify)

    Coordinates are C [int]s: every assignment wraps with [s32].  The four
    accessors of the rectangle header are an interface, [RectOps], with their
    documented meaning in [RectLaws]; [rect_ops] is the direct
    implementation. *)

From S2P Require Export Uapi.

(** ** The rectangle header *)

Class RectOps := {
  drm_rect_width : drm_rect -> Z;
  drm_rect_height : drm_rect -> Z;
  drm_rect_visible : drm_rect -> bool;
  drm_rect_equals : drm_rect -> drm_rect -> bool
}.

Class RectLaws `{!RectOps} : Prop := {
  drm_rect_width_eq r : drm_rect_width r = s32 (x2 r - x1 r);
  drm_rect_height_eq r : drm_rect_height r = s32 (y2 r - y1 r);
  drm_rect_visible_eq r :
    drm_rect_visible r = ((0 <? drm_rect_width r) && (0 <? drm_rect_height r))%bool;
  drm_rect_equals_eq r s : drm_rect_equals r s = bool_decide (r = s)
}.

#[export] Instance rect_ops : RectOps | 10 := {
  drm_rect_width r := s32 (x2 r - x1 r);
  drm_rect_height r := s32 (y2 r - y1 r);
  drm_rect_visible r := ((0 <? s32 (x2 r - x1 r)) && (0 <? s32 (y2 r - y1 r)))%bool;
  drm_rect_equals r s := bool_decide (r = s)
}.

#[export] Instance rect_laws : RectLaws | 10.
Proof. by split. Qed.

(** ** Operations *)

Section Rect.
Context `{!RectOps}.

Definition drm_rect_intersect (r1 r2 : drm_rect) : bool * drm_rect :=
  let r := mkrect (Z.max (x1 r1) (x1 r2)) (Z.max (y1 r1) (y1 r2))
                  (Z.min (x2 r1) (x2 r2)) (Z.min (y2 r1) (y2 r2)) in
  (drm_rect_visible r, r).

(** Returns the new source length and the updated [*clip]. *)
Definition clip_scaled (src dst clip : Z) : Z * Z :=
  if dst =? 0 then (0, clip)
  else
    let clip := Z.min clip dst in
    let tmp := u64 (u32 src * u32 (dst - clip)) in
    if src <? s32 (dst .<< 16)
    then (u32 (u64 (tmp + dst - 1) / u32 dst), clip)
    else (u32 (tmp / u32 dst), clip).

(** One block of [drm_rect_clip_scaled] per side. *)
Definition clip_left (src dst clip : drm_rect) : drm_rect * drm_rect :=
  let diff := s32 (x1 clip - x1 dst) in
  if 0 <? diff then
    let '(new_src_w, diff) := clip_scaled (drm_rect_width src) (drm_rect_width dst) diff in
    ({| src with x1 := s32 (x2 src - new_src_w) |},
     {| dst with x1 := s32 (x1 dst + diff) |})
  else (src, dst).

Definition clip_top (src dst clip : drm_rect) : drm_rect * drm_rect :=
  let diff := s32 (y1 clip - y1 dst) in
  if 0 <? diff then
    let '(new_src_h, diff) := clip_scaled (drm_rect_height src) (drm_rect_height dst) diff in
    ({| src with y1 := s32 (y2 src - new_src_h) |},
     {| dst with y1 := s32 (y1 dst + diff) |})
  else (src, dst).

Definition clip_right (src dst clip : drm_rect) : drm_rect * drm_rect :=
  let diff := s32 (x2 dst - x2 clip) in
  if 0 <? diff then
    let '(new_src_w, diff) := clip_scaled (drm_rect_width src) (drm_rect_width dst) diff in
    ({| src with x2 := s32 (x1 src + new_src_w) |},
     {| dst with x2 := s32 (x2 dst - diff) |})
  else (src, dst).

Definition clip_bottom (src dst clip : drm_rect) : drm_rect * drm_rect :=
  let diff := s32 (y2 dst - y2 clip) in
  if 0 <? diff then
    let '(new_src_h, diff) := clip_scaled (drm_rect_height src) (drm_rect_height dst) diff in
    ({| src with y2 := s32 (y1 src + new_src_h) |},
     {| dst with y2 := s32 (y2 dst - diff) |})
  else (src, dst).

(** Returns visibility and the clipped source and destination. *)
Definition drm_rect_clip_scaled (src dst clip : drm_rect)
  : bool * drm_rect * drm_rect :=
  let '(src, dst) := clip_left src dst clip in
  let '(src, dst) := clip_top src dst clip in
  let '(src, dst) := clip_right src dst clip in
  let '(src, dst) := clip_bottom src dst clip in
  (drm_rect_visible dst, src, dst).

(** C's [/] on [int] truncates: [Z.quot]. *)
Definition drm_calc_scale (src dst : Z) : Z :=
  if (src <? 0) || (dst <? 0) then - EINVAL
  else if dst =? 0 then 0
  else if src >? s32 (dst .<< 16) then Z.quot (s32 (src + dst - 1)) dst
  else Z.quot src dst.

Definition drm_rect_calc_hscale (src dst : drm_rect) (min_hscale max_hscale : Z) : Z :=
  let src_w := drm_rect_width src in
  let dst_w := drm_rect_width dst in
  let hscale := drm_calc_scale src_w dst_w in
  if (hscale <? 0) || (dst_w =? 0) then hscale
  else if (hscale <? min_hscale) || (hscale >? max_hscale) then - ERANGE
  else hscale.

Definition drm_rect_calc_vscale (src dst : drm_rect) (min_vscale max_vscale : Z) : Z :=
  let src_h := drm_rect_height src in
  let dst_h := drm_rect_height dst in
  let vscale := drm_calc_scale src_h dst_h in
  if (vscale <? 0) || (dst_h =? 0) then vscale
  else if (vscale <? min_vscale) || (vscale >? max_vscale) then - ERANGE
  else vscale.

End Rect.

(** The reflection block, textually the same in both directions. *)
Definition reflect_rect (r : drm_rect) (width height rotation : Z) : drm_rect :=
  if truthy (rotation .& (DRM_MODE_REFLECT_X .| DRM_MODE_REFLECT_Y)) then
    let tmp := r in
    let r := if truthy (rotation .& DRM_MODE_REFLECT_X)
             then {| r with x1 := s32 (width - x2 tmp); x2 := s32 (width - x1 tmp) |}
             else r in
    if truthy (rotation .& DRM_MODE_REFLECT_Y)
    then {| r with y1 := s32 (height - y2 tmp); y2 := s32 (height - y1 tmp) |}
    else r
  else r.

Definition drm_rect_rotate (r : drm_rect) (width height rotation : Z) : drm_rect :=
  let r := reflect_rect r width height rotation in
  let rot := rotation .& DRM_MODE_ROTATE_MASK in
  if rot =? DRM_MODE_ROTATE_0 then r
  else if rot =? DRM_MODE_ROTATE_90 then
    mkrect (y1 r) (s32 (width - x2 r)) (y2 r) (s32 (width - x1 r))
  else if rot =? DRM_MODE_ROTATE_180 then
    mkrect (s32 (width - x2 r)) (s32 (height - y2 r))
           (s32 (width - x1 r)) (s32 (height - y1 r))
  else if rot =? DRM_MODE_ROTATE_270 then
    mkrect (s32 (height - y2 r)) (x1 r) (s32 (height - y1 r)) (x2 r)
  else r.

Definition drm_rect_rotate_inv (r : drm_rect) (width height rotation : Z) : drm_rect :=
  let rot := rotation .& DRM_MODE_ROTATE_MASK in
  let r :=
    if rot =? DRM_MODE_ROTATE_0 then r
    else if rot =? DRM_MODE_ROTATE_90 then
      mkrect (s32 (width - y2 r)) (x1 r) (s32 (width - y1 r)) (x2 r)
    else if rot =? DRM_MODE_ROTATE_180 then
      mkrect (s32 (width - x2 r)) (s32 (height - y2 r))
             (s32 (width - x1 r)) (s32 (height - y1 r))
    else if rot =? DRM_MODE_ROTATE_270 then
      mkrect (y1 r) (s32 (height - x2 r)) (y2 r) (s32 (height - x1 r))
    else r in
  reflect_rect r width height rotation.

(** [ffs]: one plus the index of the lowest set bit, 0 for 0. *)
Definition ffs (x : Z) : Z := if x =? 0 then 0 else bf_shf x + 1.

(** [drm_rotation_simplify] (src/drm/drm_blend.c). *)
Definition drm_rotation_simplify (rotation supported_rotations : Z) : Z :=
  if truthy (Z.ldiff rotation supported_rotations) then
    let rotation := Z.lxor rotation (DRM_MODE_REFLECT_X .| DRM_MODE_REFLECT_Y) in
    (rotation .& DRM_MODE_REFLECT_MASK)
    .| BIT ((ffs (rotation .& DRM_MODE_ROTATE_MASK) + 1) mod 4)
  else rotation.

(** ** Rotation *)

Definition rect_s32 (r : drm_rect) : Prop :=
  is_s32 (x1 r) /\ is_s32 (y1 r) /\ is_s32 (x2 r) /\ is_s32 (y2 r).

Lemma reflect_rect_bits r width height rotation :
  reflect_rect r width height rotation =
  let r' := if Z.testbit rotation 4
            then {| r with x1 := s32 (width - x2 r); x2 := s32 (width - x1 r) |}
            else r in
  if Z.testbit rotation 5
  then {| r' with y1 := s32 (height - y2 r); y2 := s32 (height - y1 r) |}
  else r'.
Proof.
  unfold reflect_rect, DRM_MODE_REFLECT_X, DRM_MODE_REFLECT_Y.
  rewrite truthy_land_lor, !truthy_land_BIT by lia.
  destruct (Z.testbit rotation 4), (Z.testbit rotation 5); done.
Qed.

(** C35: [drm_rect_rotate_inv] undoes [drm_rect_rotate], for every rotation
    value, valid or not, every width and height, and with the wrap-around of
    [int] in every intermediate result. *)
Theorem rotate_inv_rotate r width height rotation :
  rect_s32 r ->
  drm_rect_rotate_inv (drm_rect_rotate r width height rotation) width height rotation = r.
Proof.
  intros Hr. unfold drm_rect_rotate, drm_rect_rotate_inv.
  rewrite !reflect_rect_bits.
  destruct Hr as (?&?&?&?), r as [a b c d]; cbn in *.
  destruct (Z.testbit rotation 4), (Z.testbit rotation 5);
    repeat case_if; cbn; rewrite ?s32_reflect by (done || apply s32_range); done.
Qed.

Definition is_rotation (rotation : Z) : Prop :=
  rotation .& DRM_MODE_ROTATE_MASK ∈
    [DRM_MODE_ROTATE_0; DRM_MODE_ROTATE_90; DRM_MODE_ROTATE_180; DRM_MODE_ROTATE_270].

(** What [drm_rotation_simplify] makes of the rotation and reflection bits. *)
Lemma simplify_bits rotation b :
  0 <= b < 4 ->
  let r' := (Z.lxor rotation (DRM_MODE_REFLECT_X .| DRM_MODE_REFLECT_Y)
               .& DRM_MODE_REFLECT_MASK) .| BIT b in
  r' .& DRM_MODE_ROTATE_MASK = BIT b
  /\ Z.testbit r' 4 = negb (Z.testbit rotation 4)
  /\ Z.testbit r' 5 = negb (Z.testbit rotation 5).
Proof.
  intros Hb r'. subst r'. repeat split.
  - rewrite Z.land_lor_distr_l, <- Z.land_assoc.
    change (DRM_MODE_REFLECT_MASK .& DRM_MODE_ROTATE_MASK) with 0.
    rewrite Z.land_0_r, Z.lor_0_l.
    assert (b = 0 \/ b = 1 \/ b = 2 \/ b = 3) as [->|[->|[->| ->]]] by lia; done.
  - rewrite Z.lor_spec, Z.land_spec, Z.lxor_spec, BIT_testbit by lia.
    replace (4 =? b) with false by (symmetry; apply Z.eqb_neq; lia).
    by destruct (Z.testbit rotation 4).
  - rewrite Z.lor_spec, Z.land_spec, Z.lxor_spec, BIT_testbit by lia.
    replace (5 =? b) with false by (symmetry; apply Z.eqb_neq; lia).
    by destruct (Z.testbit rotation 5).
Qed.

(** One rotation value [k] of the next lemma; [b] is the new rotation bit. *)
Ltac simplify_case Hv rotation k b :=
  rewrite Hv; change ((ffs k + 1) mod 4) with b;
  destruct (simplify_bits rotation b ltac:(lia)) as (-> & -> & ->);
  destruct (Z.testbit rotation 4), (Z.testbit rotation 5); cbn -[BIT];
  rewrite ?s32_reflect by (done || apply s32_range); done.

(** [drm_rotation_simplify] may re-encode a rotation (turn 180 degrees more
    and reflect in both axes) but never changes what [drm_rect_rotate] does
    with it. *)
Theorem simplify_rotate r width height rotation supported :
  rect_s32 r -> is_rotation rotation ->
  drm_rect_rotate r width height (drm_rotation_simplify rotation supported)
  = drm_rect_rotate r width height rotation.
Proof.
  intros Hr Hrot. unfold drm_rotation_simplify. case_if; [|done].
  assert (Hm : Z.lxor rotation (DRM_MODE_REFLECT_X .| DRM_MODE_REFLECT_Y)
                 .& DRM_MODE_ROTATE_MASK = rotation .& DRM_MODE_ROTATE_MASK).
  { apply Z.bits_inj'. intros i Hi. unfold DRM_MODE_ROTATE_MASK.
    rewrite !Z.land_spec, Z.lxor_spec, Z.lor_spec, GENMASK_testbit by lia.
    unfold DRM_MODE_REFLECT_X, DRM_MODE_REFLECT_Y. rewrite !BIT_testbit by lia.
    destruct (Z.leb_spec i 3); [|by rewrite !andb_false_r].
    replace (i =? 4) with false by (symmetry; apply Z.eqb_neq; lia).
    replace (i =? 5) with false by (symmetry; apply Z.eqb_neq; lia).
    by rewrite xorb_false_r. }
  cbv zeta. rewrite Hm. unfold is_rotation in Hrot.
  unfold drm_rect_rotate. rewrite !reflect_rect_bits.
  destruct Hr as (?&?&?&?), r as [a b c d]; cbn in *.
  rewrite !elem_of_cons in Hrot.
  destruct Hrot as [Hv|[Hv|[Hv|[Hv|Hv%elem_of_nil]]]]; [..|done].
  - simplify_case Hv rotation DRM_MODE_ROTATE_0 2.
  - simplify_case Hv rotation DRM_MODE_ROTATE_90 3.
  - simplify_case Hv rotation DRM_MODE_ROTATE_180 0.
  - simplify_case Hv rotation DRM_MODE_ROTATE_270 1.
Qed.

(** ** Clipping *)

Section ClipFacts.
Context `{!RectOps} `{!RectLaws}.

(** Coordinates for which no [int] computation of the clip wraps. *)
Definition coord_ok (x : Z) : Prop := - 2 ^ 29 <= x <= 2 ^ 29.
Definition rect_ok (r : drm_rect) : Prop :=
  coord_ok (x1 r) /\ coord_ok (y1 r) /\ coord_ok (x2 r) /\ coord_ok (y2 r).

(** One direction of a clip, from [a, b] to [c, d]: the exact condition under
    which none of its [int] subtractions wraps. *)
Definition span_ok (a b c d : Z) : Prop :=
  is_s32 a /\ is_s32 b /\ is_s32 c /\ is_s32 d /\ a <= b /\ b - a < 2 ^ 31
  /\ is_s32 (c - a) /\ is_s32 (b - d) /\ is_s32 (Z.min b d - Z.max a c).

Definition clip_fits (dst clip : drm_rect) : Prop :=
  span_ok (x1 dst) (x2 dst) (x1 clip) (x2 clip)
  /\ span_ok (y1 dst) (y2 dst) (y1 clip) (y2 clip).

Lemma rect_ok_fits dst clip :
  rect_ok dst -> rect_ok clip -> x1 dst <= x2 dst -> y1 dst <= y2 dst -> clip_fits dst clip.
Proof.
  intros (?&?&?&?) (?&?&?&?) ? ?. unfold clip_fits, span_ok, coord_ok, is_s32 in *. lia.
Qed.

Lemma clip_scaled_snd src dst clip : dst <> 0 -> snd (clip_scaled src dst clip) = Z.min clip dst.
Proof. intros. unfold clip_scaled. case_if; zb; [done|]. by case_if. Qed.

Lemma clip_scaled_0 src clip : clip_scaled src 0 clip = (0, clip).
Proof. done. Qed.

(** The new source length as plain arithmetic: rounded up when enlarging,
    down when reducing. *)
Lemma clip_scaled_eq src dst clip :
  0 < dst < 2 ^ 15 -> 0 <= src < 2 ^ 31 -> 0 <= clip ->
  let c := Z.min clip dst in
  clip_scaled src dst clip =
  (if src <? dst * 65536 then (src * (dst - c) + dst - 1) / dst
   else src * (dst - c) / dst, c).
Proof.
  intros Hd Hs Hc c.
  assert (Hw : 0 <= src * (dst - c) <= 2 ^ 46) by nia.
  assert (Hup : 0 <= (src * (dst - c) + dst - 1) / dst <= src).
  { split; [apply Z.div_pos; lia|]. apply Z.lt_succ_r, Z.div_lt_upper_bound; nia. }
  assert (Hdn : 0 <= src * (dst - c) / dst <= src).
  { split; [apply Z.div_pos; lia|]. apply Z.div_le_upper_bound; nia. }
  unfold clip_scaled. replace (dst =? 0) with false by (symmetry; apply Z.eqb_neq; lia).
  fold c. rewrite (u32_id src), (u32_id (dst - c)), (u32_id dst) by (unfold is_u32; lia).
  rewrite (u64_id (src * _)) by (unfold is_u64; lia).
  rewrite u64_id by (unfold is_u64; lia).
  rewrite Z.shiftl_mul_pow2, s32_id by (unfold is_s32; lia).
  change (2 ^ 16) with 65536. case_if; rewrite u32_id by (unfold is_u32; lia); done.
Qed.

(** The integer arithmetic of [clip_scaled]: it consumes no more than the
    destination, leaves a source length inside the old one, never turns an
    enlargement into a reduction or vice versa, and the new length is within
    one pixel of the exact proportion. *)
Theorem clip_scaled_direction src dst clip :
  0 < dst < 2 ^ 15 -> 0 <= src < 2 ^ 31 -> 0 <= clip ->
  let '(w, c) := clip_scaled src dst clip in
  c = Z.min clip dst /\ 0 <= w <= src
  /\ (src <= dst * 65536 -> w <= (dst - c) * 65536)
  /\ (dst * 65536 <= src -> (dst - c) * 65536 <= w)
  /\ Z.abs (w * dst - src * (dst - c)) < dst.
Proof.
  intros Hd Hs Hc. rewrite clip_scaled_eq by done.
  set (c := Z.min clip dst). assert (Hcr : 0 <= c <= dst) by lia.
  set (p := src * (dst - c)). assert (Hp : 0 <= p <= src * dst) by nia.
  destruct (Z.ltb_spec src (dst * 65536)) as [Hlt|Hge].
  - pose proof (Z.div_mod (p + dst - 1) dst ltac:(lia)) as Hdm.
    pose proof (Z.mod_pos_bound (p + dst - 1) dst ltac:(lia)).
    set (q := (p + dst - 1) / dst) in *.
    assert (p <= dst * ((dst - c) * 65536)) by nia.
    repeat split; [nia|nia|nia|nia|nia].
  - pose proof (Z.div_mod p dst ltac:(lia)) as Hdm.
    pose proof (Z.mod_pos_bound p dst ltac:(lia)).
    set (q := p / dst) in *.
    assert (dst * ((dst - c) * 65536) <= p) by nia.
    repeat split; [nia|nia| |nia|nia].
    intros ?. assert (src = dst * 65536) by lia. subst p. nia.
Qed.

Lemma clip_scaled_unscaled dst clip :
  0 < dst < 2 ^ 15 -> 0 <= clip ->
  clip_scaled (65536 * dst) dst clip
  = (65536 * (dst - Z.min clip dst), Z.min clip dst).
Proof.
  intros Hd Hc. rewrite clip_scaled_eq by lia.
  replace (_ <? _) with false by (symmetry; apply Z.ltb_ge; lia).
  f_equal. replace (65536 * dst * (dst - Z.min clip dst))
    with (65536 * (dst - Z.min clip dst) * dst) by lia.
  by apply Z.div_mul; lia.
Qed.

(** The destination coordinate each side of the clip leaves behind. *)
Definition lo_clip (a b c : Z) : Z := if a <? b then Z.min (Z.max a c) b else Z.max a c.
Definition hi_clip (a b d : Z) : Z := if a <? b then Z.max a (Z.min b d) else Z.min b d.

Lemma clip_dst_step src w diff :
  snd (clip_scaled src w diff) = if w =? 0 then diff else Z.min diff w.
Proof.
  destruct (Z.eqb_spec w 0) as [->|]; [done|]. by apply clip_scaled_snd.
Qed.

Ltac clip_side :=
  match goal with |- context [clip_scaled ?s ?w ?d] =>
    let H := fresh in
    pose proof (clip_dst_step s w d) as H; destruct (clip_scaled s w d); cbn in H |- *;
    subst end.

Lemma clip_left_dst src dst clip :
  span_ok (x1 dst) (x2 dst) (x1 clip) (x2 clip) ->
  snd (clip_left src dst clip)
  = {| dst with x1 := lo_clip (x1 dst) (x2 dst) (x1 clip) |}.
Proof.
  unfold span_ok, is_s32, clip_left, lo_clip. intros ?.
  destruct dst as [a b c d]; cbn in *. rewrite !drm_rect_width_eq; cbn.
  s32_simp. case_if; zb.
  - clip_side. f_equal.
    destruct (Z.eqb_spec (c - a) 0), (Z.ltb_spec a c); rewrite s32_id; unfold is_s32; lia.
  - cbn. f_equal. destruct (Z.ltb_spec a c); lia.
Qed.

Lemma clip_top_dst src dst clip :
  span_ok (y1 dst) (y2 dst) (y1 clip) (y2 clip) ->
  snd (clip_top src dst clip)
  = {| dst with y1 := lo_clip (y1 dst) (y2 dst) (y1 clip) |}.
Proof.
  unfold span_ok, is_s32, clip_top, lo_clip. intros ?.
  destruct dst as [a b c d]; cbn in *. rewrite !drm_rect_height_eq; cbn.
  s32_simp. case_if; zb.
  - clip_side. f_equal.
    destruct (Z.eqb_spec (d - b) 0), (Z.ltb_spec b d); rewrite s32_id; unfold is_s32; lia.
  - cbn. f_equal. destruct (Z.ltb_spec b d); lia.
Qed.

Lemma clip_right_dst src dst clip :
  span_ok (x1 dst) (x2 dst) (x1 clip) (x2 clip) ->
  snd (clip_right src dst clip)
  = {| dst with x2 := hi_clip (x1 dst) (x2 dst) (x2 clip) |}.
Proof.
  unfold span_ok, is_s32, clip_right, hi_clip. intros ?.
  destruct dst as [a b c d]; cbn in *. rewrite !drm_rect_width_eq; cbn.
  s32_simp. case_if; zb.
  - clip_side. f_equal.
    destruct (Z.eqb_spec (c - a) 0), (Z.ltb_spec a c); rewrite s32_id; unfold is_s32; lia.
  - cbn. f_equal. destruct (Z.ltb_spec a c); lia.
Qed.

Lemma clip_bottom_dst src dst clip :
  span_ok (y1 dst) (y2 dst) (y1 clip) (y2 clip) ->
  snd (clip_bottom src dst clip)
  = {| dst with y2 := hi_clip (y1 dst) (y2 dst) (y2 clip) |}.
Proof.
  unfold span_ok, is_s32, clip_bottom, hi_clip. intros ?.
  destruct dst as [a b c d]; cbn in *. rewrite !drm_rect_height_eq; cbn.
  s32_simp. case_if; zb.
  - clip_side. f_equal.
    destruct (Z.eqb_spec (d - b) 0), (Z.ltb_spec b d); rewrite s32_id; unfold is_s32; lia.
  - cbn. f_equal. destruct (Z.ltb_spec b d); lia.
Qed.

Lemma span_lo a b c d :
  a < b -> span_ok a b c d ->
  let a' := lo_clip a b c in a <= a' <= b /\ span_ok a' b c d /\ (a' < b \/ a' = b).
Proof.
  unfold span_ok, lo_clip, is_s32. intros Hab Hsp. destruct (Z.ltb_spec a b); lia.
Qed.

(** The destination after the four sides, whatever the source. *)
Lemma clip_scaled_dst src dst clip :
  clip_fits dst clip -> x1 dst < x2 dst -> y1 dst < y2 dst ->
  let xl := lo_clip (x1 dst) (x2 dst) (x1 clip) in
  let yl := lo_clip (y1 dst) (y2 dst) (y1 clip) in
  snd (drm_rect_clip_scaled src dst clip)
  = mkrect xl yl (hi_clip xl (x2 dst) (x2 clip)) (hi_clip yl (y2 dst) (y2 clip)).
Proof.
  intros Hf Hx Hy xl yl. unfold drm_rect_clip_scaled. destruct Hf as [Hfx Hfy].
  destruct (span_lo _ _ _ _ Hx Hfx) as (_ & Hxl & _).
  destruct (span_lo _ _ _ _ Hy Hfy) as (_ & Hyl & _). fold xl in Hxl. fold yl in Hyl.
  destruct (clip_left src dst clip) as [src1 dst1] eqn:E1.
  pose proof (clip_left_dst src dst clip Hfx) as H1.
  rewrite E1 in H1; cbn in H1. fold xl in H1.
  destruct (clip_top src1 dst1 clip) as [src2 dst2] eqn:E2.
  pose proof (clip_top_dst src1 dst1 clip ltac:(by subst dst1)) as H2.
  rewrite E2 in H2; cbn in H2.
  replace (lo_clip (y1 dst1) (y2 dst1) (y1 clip)) with yl in H2 by (by subst dst1).
  destruct (clip_right src2 dst2 clip) as [src3 dst3] eqn:E3.
  pose proof (clip_right_dst src2 dst2 clip ltac:(by subst dst1 dst2)) as H3.
  rewrite E3 in H3; cbn in H3.
  replace (hi_clip _ _ _) with (hi_clip xl (x2 dst) (x2 clip)) in H3
    by (by subst dst1 dst2).
  destruct (clip_bottom src3 dst3 clip) as [src4 dst4] eqn:E4.
  pose proof (clip_bottom_dst src3 dst3 clip ltac:(by subst dst1 dst2 dst3)) as H4.
  rewrite E4 in H4; cbn in H4.
  cbn. by subst dst1 dst2 dst3.
Qed.

(** The visibility the clip answers is that of its destination. *)
Lemma clip_scaled_vis src dst clip :
  fst (fst (drm_rect_clip_scaled src dst clip))
  = drm_rect_visible (snd (drm_rect_clip_scaled src dst clip)).
Proof.
  unfold drm_rect_clip_scaled.
  repeat match goal with |- context [let '(_, _) := ?p in _] => destruct p end. done.
Qed.

(** Clipping is intersection: same visibility, and the same rectangle when
    something is left. *)
Lemma clip_fits_intersect src dst clip :
  clip_fits dst clip -> x1 dst < x2 dst -> y1 dst < y2 dst ->
  let '(vis, _, dst') := drm_rect_clip_scaled src dst clip in
  vis = fst (drm_rect_intersect dst clip)
  /\ (vis = true -> dst' = snd (drm_rect_intersect dst clip)).
Proof.
  intros Hf Hx Hy.
  pose proof (clip_scaled_dst src dst clip Hf Hx Hy) as Hdst.
  pose proof (clip_scaled_vis src dst clip) as Hv.
  destruct (drm_rect_clip_scaled src dst clip) as [[vis src'] dst'] eqn:E.
  cbn in Hdst, Hv. unfold drm_rect_intersect; cbn [fst snd].
  rewrite Hv, Hdst, !drm_rect_visible_eq, !drm_rect_width_eq, !drm_rect_height_eq; cbn.
  unfold clip_fits, span_ok, is_s32, lo_clip, hi_clip in *. destruct Hf.
  replace (x1 dst <? x2 dst) with true by (symmetry; apply Z.ltb_lt; lia).
  replace (y1 dst <? y2 dst) with true by (symmetry; apply Z.ltb_lt; lia).
  destruct (Z.ltb_spec (Z.min (Z.max (x1 dst) (x1 clip)) (x2 dst)) (x2 dst)),
    (Z.ltb_spec (Z.min (Z.max (y1 dst) (y1 clip)) (y2 dst)) (y2 dst));
    s32_simp; (split; [apply eq_true_iff_eq; rewrite !andb_true_iff, !Z.ltb_lt; lia|]);
    rewrite andb_true_iff, !Z.ltb_lt; intros [? ?]; f_equal; lia.
Qed.

Lemma clip_scaled_intersect src dst clip :
  rect_ok dst -> rect_ok clip -> x1 dst < x2 dst -> y1 dst < y2 dst ->
  let '(vis, _, dst') := drm_rect_clip_scaled src dst clip in
  vis = fst (drm_rect_intersect dst clip)
  /\ (vis = true -> dst' = snd (drm_rect_intersect dst clip)).
Proof.
  intros Hd Hc Hx Hy. apply clip_fits_intersect; [apply rect_ok_fits; lia || done|done..].
Qed.

(** An empty destination stays empty: the blocks of one direction leave the
    other alone, and a zero width is never made positive. *)
Lemma clip_top_x src dst clip :
  x1 (snd (clip_top src dst clip)) = x1 dst /\ x2 (snd (clip_top src dst clip)) = x2 dst.
Proof. unfold clip_top. case_if; [|done]. by destruct (clip_scaled _ _ _). Qed.
Lemma clip_bottom_x src dst clip :
  x1 (snd (clip_bottom src dst clip)) = x1 dst /\ x2 (snd (clip_bottom src dst clip)) = x2 dst.
Proof. unfold clip_bottom. case_if; [|done]. by destruct (clip_scaled _ _ _). Qed.
Lemma clip_left_y src dst clip :
  y1 (snd (clip_left src dst clip)) = y1 dst /\ y2 (snd (clip_left src dst clip)) = y2 dst.
Proof. unfold clip_left. case_if; [|done]. by destruct (clip_scaled _ _ _). Qed.
Lemma clip_right_y src dst clip :
  y1 (snd (clip_right src dst clip)) = y1 dst /\ y2 (snd (clip_right src dst clip)) = y2 dst.
Proof. unfold clip_right. case_if; [|done]. by destruct (clip_scaled _ _ _). Qed.

Lemma clip_empty_x src dst clip :
  span_ok (x1 dst) (x2 dst) (x1 clip) (x2 clip) -> x1 dst = x2 dst ->
  fst (fst (drm_rect_clip_scaled src dst clip)) = false.
Proof.
  intros Hsp He. rewrite clip_scaled_vis. unfold drm_rect_clip_scaled.
  destruct (clip_left src dst clip) as [src1 dst1] eqn:E1.
  pose proof (clip_left_dst src dst clip Hsp) as H1. rewrite E1 in H1; cbn in H1.
  destruct (clip_top src1 dst1 clip) as [src2 dst2] eqn:E2.
  pose proof (clip_top_x src1 dst1 clip) as [H2 H2']. rewrite E2 in H2, H2'; cbn in H2, H2'.
  destruct (clip_right src2 dst2 clip) as [src3 dst3] eqn:E3.
  destruct (clip_bottom src3 dst3 clip) as [src4 dst4] eqn:E4.
  pose proof (clip_bottom_x src3 dst3 clip) as [H4 H4']. rewrite E4 in H4, H4'; cbn in H4, H4'.
  cbn. rewrite drm_rect_visible_eq, drm_rect_width_eq, H4, H4'.
  apply andb_false_iff. left. apply Z.ltb_ge.
  assert (Hx : x1 dst2 = Z.max (x1 dst) (x1 clip) /\ x2 dst2 = x1 dst).
  { rewrite H2, H2', H1. cbn. unfold lo_clip. destruct (Z.ltb_spec (x1 dst) (x2 dst)); lia. }
  destruct Hx as [Hx1 Hx2]. unfold clip_right in E3. rewrite (drm_rect_width_eq dst2), Hx1, Hx2 in E3.
  unfold span_ok, is_s32 in Hsp.
  rewrite (s32_id (x1 dst - x2 clip)) in E3 by (unfold is_s32; lia).
  rewrite (s32_id (x1 dst - Z.max _ _)) in E3 by (unfold is_s32; lia).
  destruct (Z.ltb_spec 0 (x1 dst - x2 clip)); simplify_eq.
  - revert E3. clip_side. intros ?. simplify_eq. cbn. rewrite ?Hx1.
    case_if; zb; s32_simp; lia.
  - rewrite Hx1, Hx2, s32_id; unfold is_s32; lia.
Qed.

Lemma clip_empty_y src dst clip :
  span_ok (y1 dst) (y2 dst) (y1 clip) (y2 clip) -> y1 dst = y2 dst ->
  fst (fst (drm_rect_clip_scaled src dst clip)) = false.
Proof.
  intros Hsp He. rewrite clip_scaled_vis. unfold drm_rect_clip_scaled.
  destruct (clip_left src dst clip) as [src1 dst1] eqn:E1.
  pose proof (clip_left_y src dst clip) as [H1 H1']. rewrite E1 in H1, H1'; cbn in H1, H1'.
  destruct (clip_top src1 dst1 clip) as [src2 dst2] eqn:E2.
  pose proof (clip_top_dst src1 dst1 clip) as H2. rewrite H1, H1' in H2.
  specialize (H2 Hsp). rewrite E2 in H2; cbn in H2.
  destruct (clip_right src2 dst2 clip) as [src3 dst3] eqn:E3.
  pose proof (clip_right_y src2 dst2 clip) as [H3 H3']. rewrite E3 in H3, H3'; cbn in H3, H3'.
  assert (Hy : y1 dst3 = Z.max (y1 dst) (y1 clip) /\ y2 dst3 = y1 dst).
  { rewrite H3, H3', H2. cbn. unfold lo_clip. destruct (Z.ltb_spec (y1 dst) (y2 dst)); lia. }
  destruct (clip_bottom src3 dst3 clip) as [src4 dst4] eqn:E4.
  cbn. rewrite drm_rect_visible_eq, drm_rect_height_eq.
  apply andb_false_iff. right. apply Z.ltb_ge.
  destruct Hy as [Hy1 Hy2]. unfold clip_bottom in E4. rewrite (drm_rect_height_eq dst3), Hy1, Hy2 in E4.
  unfold span_ok, is_s32 in Hsp.
  rewrite (s32_id (y1 dst - y2 clip)) in E4 by (unfold is_s32; lia).
  rewrite (s32_id (y1 dst - Z.max _ _)) in E4 by (unfold is_s32; lia).
  destruct (Z.ltb_spec 0 (y1 dst - y2 clip)); simplify_eq.
  - revert E4. clip_side. intros ?. simplify_eq. cbn. rewrite ?Hy1.
    case_if; zb; s32_simp; lia.
  - rewrite Hy1, Hy2, s32_id; unfold is_s32; lia.
Qed.
End ClipFacts.

(** ** Clipping without scaling *)

Section Unscaled.
Context `{!RectOps} `{!RectLaws}.

(** A 16.16 source of exactly the destination's size. *)
Definition unscaled (src dst : drm_rect) : Prop :=
  x2 src - x1 src = 65536 * (x2 dst - x1 dst)
  /\ y2 src - y1 src = 65536 * (y2 dst - y1 dst).

(** A source rectangle inside the positive [int]s. *)
Definition src_ok (r : drm_rect) : Prop :=
  0 <= x1 r <= x2 r /\ x2 r < 2 ^ 31 /\ 0 <= y1 r <= y2 r /\ y2 r < 2 ^ 31.

Definition unscaled_ok (src dst clip : drm_rect) : Prop :=
  unscaled src dst /\ src_ok src /\ rect_ok dst /\ rect_ok clip
  /\ x1 dst < x2 dst /\ y1 dst < y2 dst
  /\ x2 dst - x1 dst < 2 ^ 15 /\ y2 dst - y1 dst < 2 ^ 15.

Ltac unscaled_side :=
  intros (Hu & Hs & Hd & Hc & ? & ? & ? & ?) Hvis;
  unfold unscaled, src_ok, rect_ok, coord_ok in *; cbv delta [clip_left clip_top clip_right clip_bottom] beta zeta;
  rewrite ?drm_rect_width_eq, ?drm_rect_height_eq;
  repeat match goal with r : drm_rect |- _ => destruct r end; cbn in *.

Lemma clip_left_unscaled src dst clip :
  unscaled_ok src dst clip -> Z.max (x1 dst) (x1 clip) < x2 dst ->
  clip_left src dst clip
  = ({| src with x1 := x1 src + 65536 * (Z.max (x1 dst) (x1 clip) - x1 dst) |},
     {| dst with x1 := Z.max (x1 dst) (x1 clip) |}).
Proof.
  unscaled_side. destruct Hu as [Hux Huy].
  rewrite Hux. s32_simp. case_if; zb.
  - rewrite clip_scaled_unscaled by lia. f_equal; f_equal; s32_simp; lia.
  - f_equal; f_equal; lia.
Qed.

Lemma clip_top_unscaled src dst clip :
  unscaled_ok src dst clip -> Z.max (y1 dst) (y1 clip) < y2 dst ->
  clip_top src dst clip
  = ({| src with y1 := y1 src + 65536 * (Z.max (y1 dst) (y1 clip) - y1 dst) |},
     {| dst with y1 := Z.max (y1 dst) (y1 clip) |}).
Proof.
  unscaled_side. destruct Hu as [Hux Huy].
  rewrite Huy. s32_simp. case_if; zb.
  - rewrite clip_scaled_unscaled by lia. f_equal; f_equal; s32_simp; lia.
  - f_equal; f_equal; lia.
Qed.

Lemma clip_right_unscaled src dst clip :
  unscaled_ok src dst clip -> x1 dst < Z.min (x2 dst) (x2 clip) ->
  clip_right src dst clip
  = ({| src with x2 := x2 src - 65536 * (x2 dst - Z.min (x2 dst) (x2 clip)) |},
     {| dst with x2 := Z.min (x2 dst) (x2 clip) |}).
Proof.
  unscaled_side. destruct Hu as [Hux Huy].
  rewrite Hux. s32_simp. case_if; zb.
  - rewrite clip_scaled_unscaled by lia. f_equal; f_equal; s32_simp; lia.
  - f_equal; f_equal; lia.
Qed.

Lemma clip_bottom_unscaled src dst clip :
  unscaled_ok src dst clip -> y1 dst < Z.min (y2 dst) (y2 clip) ->
  clip_bottom src dst clip
  = ({| src with y2 := y2 src - 65536 * (y2 dst - Z.min (y2 dst) (y2 clip)) |},
     {| dst with y2 := Z.min (y2 dst) (y2 clip) |}).
Proof.
  unscaled_side. destruct Hu as [Hux Huy].
  rewrite Huy. s32_simp. case_if; zb.
  - rewrite clip_scaled_unscaled by lia. f_equal; f_equal; s32_simp; lia.
  - f_equal; f_equal; lia.
Qed.

(** The part of the source that shows in the window [i] of [dst]. *)
Definition src_window (src dst i : drm_rect) : drm_rect :=
  mkrect (x1 src + 65536 * (x1 i - x1 dst)) (y1 src + 65536 * (y1 i - y1 dst))
         (x2 src - 65536 * (x2 dst - x2 i)) (y2 src - 65536 * (y2 dst - y2 i)).

(** Without scaling, a visible clip cuts the source by exactly the pixels it
    cuts from the destination. *)
Lemma clip_unscaled src dst clip :
  unscaled_ok src dst clip -> fst (drm_rect_intersect dst clip) = true ->
  let i := snd (drm_rect_intersect dst clip) in
  drm_rect_clip_scaled src dst clip = (true, src_window src dst i, i).
Proof.
  intros Hok Hv i. subst i. unfold drm_rect_intersect in *; cbn [fst snd] in *.
  rewrite drm_rect_visible_eq, drm_rect_width_eq, drm_rect_height_eq in Hv; cbn in Hv.
  pose proof Hok as (Hu & Hs & Hd & Hc & ? & ? & ? & ?).
  unfold unscaled, src_ok, rect_ok, coord_ok in *.
  rewrite !s32_id in Hv by (unfold is_s32; lia). zb.
  unfold drm_rect_clip_scaled.
  rewrite clip_left_unscaled by (done || lia). cbv beta iota.
  rewrite clip_top_unscaled; cbn;
    [|unfold unscaled_ok, unscaled, src_ok, rect_ok, coord_ok; cbn; lia|lia].
  rewrite clip_right_unscaled; cbn;
    [|unfold unscaled_ok, unscaled, src_ok, rect_ok, coord_ok; cbn; lia|lia].
  rewrite clip_bottom_unscaled; cbn;
    [|unfold unscaled_ok, unscaled, src_ok, rect_ok, coord_ok; cbn; lia|lia].
  rewrite drm_rect_visible_eq, drm_rect_width_eq, drm_rect_height_eq; cbn. s32_simp.
  unfold src_window; cbn. repeat f_equal; [|lia..].
  apply andb_true_iff; rewrite !Z.ltb_lt; lia.
Qed.

(** [DRM_PLANE_NO_SCALING] as both limits accepts exactly 1:1 (or an empty
    destination). *)
Lemma calc_scale_unscaled src dst :
  0 <= src < 2 ^ 30 -> 0 < dst < 2 ^ 15 ->
  let s := drm_calc_scale src dst in
  0 <= s /\ (s = 65536 <-> src = 65536 * dst).
Proof.
  intros Hs Hd. unfold drm_calc_scale.
  replace (src <? 0) with false by (symmetry; apply Z.ltb_ge; lia).
  replace (dst <? 0) with false by (symmetry; apply Z.ltb_ge; lia).
  replace (dst =? 0) with false by (symmetry; apply Z.eqb_neq; lia). cbn.
  rewrite Z.shiftl_mul_pow2 by lia. s32_simp. rewrite !Z.quot_div_nonneg by lia.
  change (2 ^ 16) with 65536. case_if; zb.
  - pose proof (Z.div_mod (src + dst - 1) dst ltac:(lia)).
    pose proof (Z.mod_pos_bound (src + dst - 1) dst ltac:(lia)).
    set (q := (src + dst - 1) / dst) in *. split; [nia|]. split; intros; nia.
  - pose proof (Z.div_mod src dst ltac:(lia)).
    pose proof (Z.mod_pos_bound src dst ltac:(lia)).
    set (q := src / dst) in *. split; [nia|]. split; intros; nia.
Qed.
End Unscaled.

(** ** Main theorems *)

Section ClipTheorems.
Context `{!RectOps} `{!RectLaws}.

(** [drm_rect_clip_scaled] clips to the intersection that
    [drm_rect_intersect] computes, whatever the source and the scaling: both
    agree on visibility, and on the rectangle when something is visible. *)
Theorem clip_scaled_is_intersect src dst clip :
  rect_ok dst -> rect_ok clip -> x1 dst < x2 dst -> y1 dst < y2 dst ->
  let '(vis, _, dst') := drm_rect_clip_scaled src dst clip in
  vis = fst (drm_rect_intersect dst clip)
  /\ (vis = true -> dst' = snd (drm_rect_intersect dst clip)).
Proof. apply clip_scaled_intersect. Qed.

(** For an unscaled plane (a 16.16 source of exactly the destination's
    size) a visible [drm_rect_clip_scaled] returns the intersection and cuts
    from the source, on each side, exactly the pixels it cuts from the
    destination: sub-pixel source offsets survive. *)
Theorem clip_unscaled_window src dst clip :
  unscaled_ok src dst clip -> fst (drm_rect_intersect dst clip) = true ->
  let i := snd (drm_rect_intersect dst clip) in
  drm_rect_clip_scaled src dst clip = (true, src_window src dst i, i)
  /\ unscaled (src_window src dst i) i.
Proof.
  intros Hok Hv i. split; [by apply clip_unscaled|].
  destruct Hok as [[Hx Hy] _]. unfold unscaled, src_window; cbn. lia.
Qed.
End ClipTheorems.

(** ** Witnesses *)

Lemma rotate_inv_rotate_witness :
  let r := mkrect 10 20 30 60 in
  rect_s32 r
  /\ drm_rect_rotate r 100 200 (DRM_MODE_ROTATE_90 .| DRM_MODE_REFLECT_X)
     = mkrect 20 10 60 30
  /\ drm_rect_rotate_inv (mkrect 20 10 60 30) 100 200
       (DRM_MODE_ROTATE_90 .| DRM_MODE_REFLECT_X) = r.
Proof.
  cbv zeta. assert (H : rect_s32 (mkrect 10 20 30 60)) by (vm_compute; intuition discriminate).
  split; [exact H|]. split; [vm_compute; reflexivity|].
  exact (rotate_inv_rotate (mkrect 10 20 30 60) 100 200
           (DRM_MODE_ROTATE_90 .| DRM_MODE_REFLECT_X) H).
Defined.

Lemma simplify_rotate_witness :
  let r := mkrect 10 20 30 60 in
  drm_rotation_simplify DRM_MODE_ROTATE_90
    (DRM_MODE_ROTATE_0 .| DRM_MODE_ROTATE_270 .| DRM_MODE_REFLECT_MASK)
  = DRM_MODE_ROTATE_270 .| DRM_MODE_REFLECT_MASK
  /\ drm_rect_rotate r 100 200 (DRM_MODE_ROTATE_270 .| DRM_MODE_REFLECT_MASK)
     = drm_rect_rotate r 100 200 DRM_MODE_ROTATE_90.
Proof.
  cbv zeta. split; [vm_compute; reflexivity|].
  apply (simplify_rotate (mkrect 10 20 30 60) 100 200 DRM_MODE_ROTATE_90
           (DRM_MODE_ROTATE_0 .| DRM_MODE_ROTATE_270 .| DRM_MODE_REFLECT_MASK)).
  - vm_compute; intuition discriminate.
  - unfold is_rotation. apply (bool_decide_unpack _). vm_compute. exact I.
Defined.

Lemma clip_scaled_direction_witness :
  clip_scaled 1000 300 100 = (667, 100)
  /\ Z.abs (667 * 300 - 1000 * (300 - 100)) < 300.
Proof.
  split; [vm_compute; reflexivity|].
  exact (proj2 (proj2 (proj2 (proj2
    (clip_scaled_direction 1000 300 100 ltac:(lia) ltac:(lia) ltac:(lia)))))).
Defined.

Lemma clip_scaled_is_intersect_witness :
  let src := mkrect 0 0 (100 * 65536) (100 * 65536) in
  let dst := mkrect (-10) 5 40 55 in
  let clip := mkrect 0 0 30 30 in
  snd (drm_rect_clip_scaled src dst clip) = mkrect 0 5 30 30
  /\ (let '(vis, _, dst') := drm_rect_clip_scaled src dst clip in
      vis = fst (drm_rect_intersect dst clip)
      /\ (vis = true -> dst' = snd (drm_rect_intersect dst clip))).
Proof.
  cbv zeta. split; [vm_compute; reflexivity|].
  apply clip_scaled_is_intersect; vm_compute; intuition discriminate.
Defined.

Lemma clip_unscaled_window_witness :
  let src := mkrect 32768 0 (32768 + 50 * 65536) (50 * 65536) in
  let dst := mkrect (-10) 5 40 55 in
  let clip := mkrect 0 0 30 30 in
  drm_rect_clip_scaled src dst clip
  = (true, mkrect (32768 + 10 * 65536) 0 (32768 + 40 * 65536) (25 * 65536),
     mkrect 0 5 30 30).
Proof.
  cbv zeta.
  refine (proj1 (clip_unscaled_window
    (mkrect 32768 0 (32768 + 50 * 65536) (50 * 65536)) (mkrect (-10) 5 40 55)
    (mkrect 0 0 30 30) _ _)).
  - unfold unscaled_ok, unscaled, src_ok, rect_ok, coord_ok; cbn; lia.
  - vm_compute; reflexivity.
Defined.
