(* ===== verification/DrmFourcc.v ===== *)
(** * DrmFourcc: the pixel-format database (src/drm/drm_fourcc.c)

    The format table is transcribed entry by entry; a big-endian build adds
    two more entries, a little-endian one is modelled. *)

From S2P Require Export Uapi.

(** ** Legacy format descriptions *)

Definition drm_mode_legacy_fb_format (bpp depth : Z) : fourcc :=
  match bpp with
  | 1 => if depth =? 1 then DRM_FORMAT_C1 else DRM_FORMAT_INVALID
  | 2 => if depth =? 2 then DRM_FORMAT_C2 else DRM_FORMAT_INVALID
  | 4 => if depth =? 4 then DRM_FORMAT_C4 else DRM_FORMAT_INVALID
  | 8 => if depth =? 8 then DRM_FORMAT_C8 else DRM_FORMAT_INVALID
  | 16 =>
      match depth with
      | 15 => DRM_FORMAT_XRGB1555
      | 16 => DRM_FORMAT_RGB565
      | _ => DRM_FORMAT_INVALID
      end
  | 24 => if depth =? 24 then DRM_FORMAT_RGB888 else DRM_FORMAT_INVALID
  | 32 =>
      match depth with
      | 24 => DRM_FORMAT_XRGB8888
      | 30 => DRM_FORMAT_XRGB2101010
      | 32 => DRM_FORMAT_ARGB8888
      | _ => DRM_FORMAT_INVALID
      end
  | _ => DRM_FORMAT_INVALID
  end.

Definition drm_driver_legacy_fb_format (cfg : drm_mode_config) (bpp depth : Z) : fourcc :=
  let fmt := drm_mode_legacy_fb_format bpp depth in
  let fmt :=
    if quirk_addfb_prefer_host_byte_order cfg then
      let fmt := if decide (fmt = DRM_FORMAT_XRGB8888) then DRM_FORMAT_HOST_XRGB8888 else fmt in
      let fmt := if decide (fmt = DRM_FORMAT_ARGB8888) then DRM_FORMAT_HOST_ARGB8888 else fmt in
      let fmt := if decide (fmt = DRM_FORMAT_RGB565) then DRM_FORMAT_HOST_RGB565 else fmt in
      if decide (fmt = DRM_FORMAT_XRGB1555) then DRM_FORMAT_HOST_XRGB1555 else fmt
    else fmt in
  if (quirk_addfb_prefer_xbgr_30bpp cfg
      && bool_decide (fmt = DRM_FORMAT_XRGB2101010))%bool
  then DRM_FORMAT_XBGR2101010 else fmt.

Definition drm_driver_color_mode_format (cfg : drm_mode_config) (color_mode : Z) : fourcc :=
  match color_mode with
  | 15 => drm_driver_legacy_fb_format cfg 16 15
  | 32 => drm_driver_legacy_fb_format cfg 32 24
  | _ => drm_driver_legacy_fb_format cfg color_mode color_mode
  end.

(** ** The format table *)

(** The first entries of [formats[]]: indexed, depth and RGB formats. *)
Definition formats_rgb : list drm_format_info := [
    mkfmt DRM_FORMAT_C1 1 1 [1; 0; 0] [8; 0; 0] [1; 0; 0] 1 1 false false true;
    mkfmt DRM_FORMAT_C2 2 1 [1; 0; 0] [4; 0; 0] [1; 0; 0] 1 1 false false true;
    mkfmt DRM_FORMAT_C4 4 1 [1; 0; 0] [2; 0; 0] [1; 0; 0] 1 1 false false true;
    mkfmt DRM_FORMAT_C8 8 1 [1; 0; 0] [0; 0; 0] [0; 0; 0] 1 1 false false true;
    mkfmt DRM_FORMAT_D1 1 1 [1; 0; 0] [8; 0; 0] [1; 0; 0] 1 1 false false false;
    mkfmt DRM_FORMAT_D2 2 1 [1; 0; 0] [4; 0; 0] [1; 0; 0] 1 1 false false false;
    mkfmt DRM_FORMAT_D4 4 1 [1; 0; 0] [2; 0; 0] [1; 0; 0] 1 1 false false false;
    mkfmt DRM_FORMAT_D8 8 1 [1; 0; 0] [0; 0; 0] [0; 0; 0] 1 1 false false false;
    mkfmt DRM_FORMAT_R1 1 1 [1; 0; 0] [8; 0; 0] [1; 0; 0] 1 1 false false false;
    mkfmt DRM_FORMAT_R2 2 1 [1; 0; 0] [4; 0; 0] [1; 0; 0] 1 1 false false false;
    mkfmt DRM_FORMAT_R4 4 1 [1; 0; 0] [2; 0; 0] [1; 0; 0] 1 1 false false false;
    mkfmt DRM_FORMAT_R8 8 1 [1; 0; 0] [0; 0; 0] [0; 0; 0] 1 1 false false false;
    mkfmt DRM_FORMAT_R10 10 1 [2; 0; 0] [0; 0; 0] [0; 0; 0] 1 1 false false false;
    mkfmt DRM_FORMAT_R12 12 1 [2; 0; 0] [0; 0; 0] [0; 0; 0] 1 1 false false false;
    mkfmt DRM_FORMAT_RGB332 8 1 [1; 0; 0] [0; 0; 0] [0; 0; 0] 1 1 false false false;
    mkfmt DRM_FORMAT_BGR233 8 1 [1; 0; 0] [0; 0; 0] [0; 0; 0] 1 1 false false false;
    mkfmt DRM_FORMAT_XRGB4444 0 1 [2; 0; 0] [0; 0; 0] [0; 0; 0] 1 1 false false false;
    mkfmt DRM_FORMAT_XBGR4444 0 1 [2; 0; 0] [0; 0; 0] [0; 0; 0] 1 1 false false false;
    mkfmt DRM_FORMAT_RGBX4444 0 1 [2; 0; 0] [0; 0; 0] [0; 0; 0] 1 1 false false false;
    mkfmt DRM_FORMAT_BGRX4444 0 1 [2; 0; 0] [0; 0; 0] [0; 0; 0] 1 1 false false false;
    mkfmt DRM_FORMAT_ARGB4444 0 1 [2; 0; 0] [0; 0; 0] [0; 0; 0] 1 1 true false false;
    mkfmt DRM_FORMAT_ABGR4444 0 1 [2; 0; 0] [0; 0; 0] [0; 0; 0] 1 1 true false false;
    mkfmt DRM_FORMAT_RGBA4444 0 1 [2; 0; 0] [0; 0; 0] [0; 0; 0] 1 1 true false false;
    mkfmt DRM_FORMAT_BGRA4444 0 1 [2; 0; 0] [0; 0; 0] [0; 0; 0] 1 1 true false false;
    mkfmt DRM_FORMAT_XRGB1555 15 1 [2; 0; 0] [0; 0; 0] [0; 0; 0] 1 1 false false false;
    mkfmt DRM_FORMAT_XBGR1555 15 1 [2; 0; 0] [0; 0; 0] [0; 0; 0] 1 1 false false false;
    mkfmt DRM_FORMAT_RGBX5551 15 1 [2; 0; 0] [0; 0; 0] [0; 0; 0] 1 1 false false false;
    mkfmt DRM_FORMAT_BGRX5551 15 1 [2; 0; 0] [0; 0; 0] [0; 0; 0] 1 1 false false false;
    mkfmt DRM_FORMAT_ARGB1555 15 1 [2; 0; 0] [0; 0; 0] [0; 0; 0] 1 1 true false false;
    mkfmt DRM_FORMAT_ABGR1555 15 1 [2; 0; 0] [0; 0; 0] [0; 0; 0] 1 1 true false false;
    mkfmt DRM_FORMAT_RGBA5551 15 1 [2; 0; 0] [0; 0; 0] [0; 0; 0] 1 1 true false false;
    mkfmt DRM_FORMAT_BGRA5551 15 1 [2; 0; 0] [0; 0; 0] [0; 0; 0] 1 1 true false false;
    mkfmt DRM_FORMAT_RGB565 16 1 [2; 0; 0] [0; 0; 0] [0; 0; 0] 1 1 false false false;
    mkfmt DRM_FORMAT_BGR565 16 1 [2; 0; 0] [0; 0; 0] [0; 0; 0] 1 1 false false false;
    mkfmt DRM_FORMAT_RGB888 24 1 [3; 0; 0] [0; 0; 0] [0; 0; 0] 1 1 false false false;
    mkfmt DRM_FORMAT_BGR888 24 1 [3; 0; 0] [0; 0; 0] [0; 0; 0] 1 1 false false false;
    mkfmt DRM_FORMAT_XRGB8888 24 1 [4; 0; 0] [0; 0; 0] [0; 0; 0] 1 1 false false false;
    mkfmt DRM_FORMAT_XBGR8888 24 1 [4; 0; 0] [0; 0; 0] [0; 0; 0] 1 1 false false false;
    mkfmt DRM_FORMAT_RGBX8888 24 1 [4; 0; 0] [0; 0; 0] [0; 0; 0] 1 1 false false false;
    mkfmt DRM_FORMAT_BGRX8888 24 1 [4; 0; 0] [0; 0; 0] [0; 0; 0] 1 1 false false false;
    mkfmt DRM_FORMAT_RGB565_A8 24 2 [2; 1; 0] [0; 0; 0] [0; 0; 0] 1 1 true false false;
    mkfmt DRM_FORMAT_BGR565_A8 24 2 [2; 1; 0] [0; 0; 0] [0; 0; 0] 1 1 true false false;
    mkfmt DRM_FORMAT_XRGB2101010 30 1 [4; 0; 0] [0; 0; 0] [0; 0; 0] 1 1 false false false;
    mkfmt DRM_FORMAT_XBGR2101010 30 1 [4; 0; 0] [0; 0; 0] [0; 0; 0] 1 1 false false false;
    mkfmt DRM_FORMAT_RGBX1010102 30 1 [4; 0; 0] [0; 0; 0] [0; 0; 0] 1 1 false false false;
    mkfmt DRM_FORMAT_BGRX1010102 30 1 [4; 0; 0] [0; 0; 0] [0; 0; 0] 1 1 false false false;
    mkfmt DRM_FORMAT_ARGB2101010 30 1 [4; 0; 0] [0; 0; 0] [0; 0; 0] 1 1 true false false;
    mkfmt DRM_FORMAT_ABGR2101010 30 1 [4; 0; 0] [0; 0; 0] [0; 0; 0] 1 1 true false false;
    mkfmt DRM_FORMAT_RGBA1010102 30 1 [4; 0; 0] [0; 0; 0] [0; 0; 0] 1 1 true false false;
    mkfmt DRM_FORMAT_BGRA1010102 30 1 [4; 0; 0] [0; 0; 0] [0; 0; 0] 1 1 true false false;
    mkfmt DRM_FORMAT_RGB161616 0 1 [6; 0; 0] [1; 0; 0] [1; 0; 0] 1 1 false false false;
    mkfmt DRM_FORMAT_BGR161616 0 1 [6; 0; 0] [1; 0; 0] [1; 0; 0] 1 1 false false false;
    mkfmt DRM_FORMAT_ARGB8888 32 1 [4; 0; 0] [0; 0; 0] [0; 0; 0] 1 1 true false false;
    mkfmt DRM_FORMAT_ABGR8888 32 1 [4; 0; 0] [0; 0; 0] [0; 0; 0] 1 1 true false false;
    mkfmt DRM_FORMAT_RGBA8888 32 1 [4; 0; 0] [0; 0; 0] [0; 0; 0] 1 1 true false false;
    mkfmt DRM_FORMAT_BGRA8888 32 1 [4; 0; 0] [0; 0; 0] [0; 0; 0] 1 1 true false false;
    mkfmt DRM_FORMAT_XRGB16161616F 0 1 [8; 0; 0] [0; 0; 0] [0; 0; 0] 1 1 false false false;
    mkfmt DRM_FORMAT_XBGR16161616F 0 1 [8; 0; 0] [0; 0; 0] [0; 0; 0] 1 1 false false false;
    mkfmt DRM_FORMAT_ARGB16161616F 0 1 [8; 0; 0] [0; 0; 0] [0; 0; 0] 1 1 true false false;
    mkfmt DRM_FORMAT_ABGR16161616F 0 1 [8; 0; 0] [0; 0; 0] [0; 0; 0] 1 1 true false false;
    mkfmt DRM_FORMAT_AXBXGXRX106106106106 0 1 [8; 0; 0] [0; 0; 0] [0; 0; 0] 1 1 true false false;
    mkfmt DRM_FORMAT_XRGB16161616 0 1 [8; 0; 0] [0; 0; 0] [0; 0; 0] 1 1 false false false;
    mkfmt DRM_FORMAT_XBGR16161616 0 1 [8; 0; 0] [0; 0; 0] [0; 0; 0] 1 1 false false false;
    mkfmt DRM_FORMAT_ARGB16161616 0 1 [8; 0; 0] [0; 0; 0] [0; 0; 0] 1 1 true false false;
    mkfmt DRM_FORMAT_ABGR16161616 0 1 [8; 0; 0] [0; 0; 0] [0; 0; 0] 1 1 true false false;
    mkfmt DRM_FORMAT_RGB888_A8 32 2 [3; 1; 0] [0; 0; 0] [0; 0; 0] 1 1 true false false;
    mkfmt DRM_FORMAT_BGR888_A8 32 2 [3; 1; 0] [0; 0; 0] [0; 0; 0] 1 1 true false false;
    mkfmt DRM_FORMAT_XRGB8888_A8 32 2 [4; 1; 0] [0; 0; 0] [0; 0; 0] 1 1 true false false;
    mkfmt DRM_FORMAT_XBGR8888_A8 32 2 [4; 1; 0] [0; 0; 0] [0; 0; 0] 1 1 true false false;
    mkfmt DRM_FORMAT_RGBX8888_A8 32 2 [4; 1; 0] [0; 0; 0] [0; 0; 0] 1 1 true false false;
    mkfmt DRM_FORMAT_BGRX8888_A8 32 2 [4; 1; 0] [0; 0; 0] [0; 0; 0] 1 1 true false false].

(** The remaining entries of [formats[]]: the YUV formats. *)
Definition formats_yuv : list drm_format_info := [
    mkfmt DRM_FORMAT_YUV410 0 3 [1; 1; 1] [0; 0; 0] [0; 0; 0] 4 4 false true false;
    mkfmt DRM_FORMAT_YVU410 0 3 [1; 1; 1] [0; 0; 0] [0; 0; 0] 4 4 false true false;
    mkfmt DRM_FORMAT_YUV411 0 3 [1; 1; 1] [0; 0; 0] [0; 0; 0] 4 1 false true false;
    mkfmt DRM_FORMAT_YVU411 0 3 [1; 1; 1] [0; 0; 0] [0; 0; 0] 4 1 false true false;
    mkfmt DRM_FORMAT_YUV420 0 3 [1; 1; 1] [0; 0; 0] [0; 0; 0] 2 2 false true false;
    mkfmt DRM_FORMAT_YVU420 0 3 [1; 1; 1] [0; 0; 0] [0; 0; 0] 2 2 false true false;
    mkfmt DRM_FORMAT_YUV422 0 3 [1; 1; 1] [0; 0; 0] [0; 0; 0] 2 1 false true false;
    mkfmt DRM_FORMAT_YVU422 0 3 [1; 1; 1] [0; 0; 0] [0; 0; 0] 2 1 false true false;
    mkfmt DRM_FORMAT_YUV444 0 3 [1; 1; 1] [0; 0; 0] [0; 0; 0] 1 1 false true false;
    mkfmt DRM_FORMAT_YVU444 0 3 [1; 1; 1] [0; 0; 0] [0; 0; 0] 1 1 false true false;
    mkfmt DRM_FORMAT_Y8 8 1 [1; 0; 0] [0; 0; 0] [0; 0; 0] 1 1 false true false;
    mkfmt DRM_FORMAT_NV12 0 2 [1; 2; 0] [0; 0; 0] [0; 0; 0] 2 2 false true false;
    mkfmt DRM_FORMAT_NV21 0 2 [1; 2; 0] [0; 0; 0] [0; 0; 0] 2 2 false true false;
    mkfmt DRM_FORMAT_NV16 0 2 [1; 2; 0] [0; 0; 0] [0; 0; 0] 2 1 false true false;
    mkfmt DRM_FORMAT_NV61 0 2 [1; 2; 0] [0; 0; 0] [0; 0; 0] 2 1 false true false;
    mkfmt DRM_FORMAT_NV24 0 2 [1; 2; 0] [0; 0; 0] [0; 0; 0] 1 1 false true false;
    mkfmt DRM_FORMAT_NV42 0 2 [1; 2; 0] [0; 0; 0] [0; 0; 0] 1 1 false true false;
    mkfmt DRM_FORMAT_YUYV 0 1 [2; 0; 0] [0; 0; 0] [0; 0; 0] 2 1 false true false;
    mkfmt DRM_FORMAT_YVYU 0 1 [2; 0; 0] [0; 0; 0] [0; 0; 0] 2 1 false true false;
    mkfmt DRM_FORMAT_UYVY 0 1 [2; 0; 0] [0; 0; 0] [0; 0; 0] 2 1 false true false;
    mkfmt DRM_FORMAT_VYUY 0 1 [2; 0; 0] [0; 0; 0] [0; 0; 0] 2 1 false true false;
    mkfmt DRM_FORMAT_XYUV8888 0 1 [4; 0; 0] [0; 0; 0] [0; 0; 0] 1 1 false true false;
    mkfmt DRM_FORMAT_VUY888 0 1 [3; 0; 0] [0; 0; 0] [0; 0; 0] 1 1 false true false;
    mkfmt DRM_FORMAT_XVUY2101010 0 1 [4; 0; 0] [0; 0; 0] [0; 0; 0] 1 1 false true false;
    mkfmt DRM_FORMAT_AYUV 0 1 [4; 0; 0] [0; 0; 0] [0; 0; 0] 1 1 true true false;
    mkfmt DRM_FORMAT_Y210 0 1 [4; 0; 0] [0; 0; 0] [0; 0; 0] 2 1 false true false;
    mkfmt DRM_FORMAT_Y212 0 1 [4; 0; 0] [0; 0; 0] [0; 0; 0] 2 1 false true false;
    mkfmt DRM_FORMAT_Y216 0 1 [4; 0; 0] [0; 0; 0] [0; 0; 0] 2 1 false true false;
    mkfmt DRM_FORMAT_Y410 0 1 [4; 0; 0] [0; 0; 0] [0; 0; 0] 1 1 true true false;
    mkfmt DRM_FORMAT_Y412 0 1 [8; 0; 0] [0; 0; 0] [0; 0; 0] 1 1 true true false;
    mkfmt DRM_FORMAT_Y416 0 1 [8; 0; 0] [0; 0; 0] [0; 0; 0] 1 1 true true false;
    mkfmt DRM_FORMAT_XVYU2101010 0 1 [4; 0; 0] [0; 0; 0] [0; 0; 0] 1 1 false true false;
    mkfmt DRM_FORMAT_XVYU12_16161616 0 1 [8; 0; 0] [0; 0; 0] [0; 0; 0] 1 1 false true false;
    mkfmt DRM_FORMAT_XVYU16161616 0 1 [8; 0; 0] [0; 0; 0] [0; 0; 0] 1 1 false true false;
    mkfmt DRM_FORMAT_Y0L0 0 1 [8; 0; 0] [2; 0; 0] [2; 0; 0] 2 2 true true false;
    mkfmt DRM_FORMAT_X0L0 0 1 [8; 0; 0] [2; 0; 0] [2; 0; 0] 2 2 false true false;
    mkfmt DRM_FORMAT_Y0L2 0 1 [8; 0; 0] [2; 0; 0] [2; 0; 0] 2 2 true true false;
    mkfmt DRM_FORMAT_X0L2 0 1 [8; 0; 0] [2; 0; 0] [2; 0; 0] 2 2 false true false;
    mkfmt DRM_FORMAT_P010 0 2 [2; 4; 0] [1; 1; 0] [1; 1; 0] 2 2 false true false;
    mkfmt DRM_FORMAT_P012 0 2 [2; 4; 0] [1; 1; 0] [1; 1; 0] 2 2 false true false;
    mkfmt DRM_FORMAT_P016 0 2 [2; 4; 0] [1; 1; 0] [1; 1; 0] 2 2 false true false;
    mkfmt DRM_FORMAT_P210 0 2 [2; 4; 0] [1; 1; 0] [1; 1; 0] 2 1 false true false;
    mkfmt DRM_FORMAT_VUY101010 0 1 [0; 0; 0] [0; 0; 0] [0; 0; 0] 1 1 false true false;
    mkfmt DRM_FORMAT_YUV420_8BIT 0 1 [0; 0; 0] [0; 0; 0] [0; 0; 0] 2 2 false true false;
    mkfmt DRM_FORMAT_YUV420_10BIT 0 1 [0; 0; 0] [0; 0; 0] [0; 0; 0] 2 2 false true false;
    mkfmt DRM_FORMAT_NV15 0 2 [5; 5; 0] [4; 2; 0] [1; 1; 0] 2 2 false true false;
    mkfmt DRM_FORMAT_NV20 0 2 [5; 5; 0] [4; 2; 0] [1; 1; 0] 2 1 false true false;
    mkfmt DRM_FORMAT_NV30 0 2 [5; 5; 0] [4; 2; 0] [1; 1; 0] 1 1 false true false;
    mkfmt DRM_FORMAT_Q410 0 3 [2; 2; 2] [1; 1; 1] [1; 1; 1] 1 1 false true false;
    mkfmt DRM_FORMAT_Q401 0 3 [2; 2; 2] [1; 1; 1] [1; 1; 1] 1 1 false true false;
    mkfmt DRM_FORMAT_P030 0 2 [4; 8; 0] [3; 3; 0] [1; 1; 0] 2 2 false true false;
    mkfmt DRM_FORMAT_P230 0 2 [4; 8; 0] [3; 3; 0] [1; 1; 0] 2 1 false true false;
    mkfmt DRM_FORMAT_S010 0 3 [2; 2; 2] [1; 1; 1] [1; 1; 1] 2 2 false true false;
    mkfmt DRM_FORMAT_S210 0 3 [2; 2; 2] [1; 1; 1] [1; 1; 1] 2 1 false true false;
    mkfmt DRM_FORMAT_S410 0 3 [2; 2; 2] [1; 1; 1] [1; 1; 1] 1 1 false true false;
    mkfmt DRM_FORMAT_S012 0 3 [2; 2; 2] [1; 1; 1] [1; 1; 1] 2 2 false true false;
    mkfmt DRM_FORMAT_S212 0 3 [2; 2; 2] [1; 1; 1] [1; 1; 1] 2 1 false true false;
    mkfmt DRM_FORMAT_S412 0 3 [2; 2; 2] [1; 1; 1] [1; 1; 1] 1 1 false true false;
    mkfmt DRM_FORMAT_S016 0 3 [2; 2; 2] [1; 1; 1] [1; 1; 1] 2 2 false true false;
    mkfmt DRM_FORMAT_S216 0 3 [2; 2; 2] [1; 1; 1] [1; 1; 1] 2 1 false true false;
    mkfmt DRM_FORMAT_S416 0 3 [2; 2; 2] [1; 1; 1] [1; 1; 1] 1 1 false true false;
    mkfmt DRM_FORMAT_XYYY2101010 0 1 [4; 0; 0] [3; 0; 0] [1; 0; 0] 1 1 false true false;
    mkfmt DRM_FORMAT_T430 0 3 [4; 4; 4] [3; 3; 3] [1; 1; 1] 1 1 false true false].

Definition formats : list drm_format_info := formats_rgb ++ formats_yuv.

(** The search loop. *)
Fixpoint find_format (l : list drm_format_info) (f : fourcc) : option drm_format_info :=
  match l with
  | [] => None
  | i :: l => if decide (format i = f) then Some i else find_format l f
  end.

Definition __drm_format_info (f : fourcc) : option drm_format_info := find_format formats f.

(** Apart from the kernel-log warning for NULL, the public lookup. *)
Definition drm_format_info_lookup (f : fourcc) : option drm_format_info :=
  __drm_format_info f.

(** [drm_get_format_info]; [get_format_info] is the optional driver hook. *)
Definition drm_get_format_info
    (get_format_info : option (fourcc -> Z -> option drm_format_info))
    (pixel_format : fourcc) (modifier : Z) : option drm_format_info :=
  let info := match get_format_info with
              | Some hook => hook pixel_format modifier
              | None => None
              end in
  match info with
  | Some i => Some i
  | None => drm_format_info_lookup pixel_format
  end.

(** ** Derived quantities *)

Definition bad_plane (info : drm_format_info) (plane : Z) : bool :=
  ((plane <? 0) || (plane >=? num_planes info))%bool.

Definition drm_format_info_block_width (info : option drm_format_info) (plane : Z) : Z :=
  match info with
  | None => 0
  | Some info =>
      if bad_plane info plane then 0
      else if aget (block_w info) plane =? 0 then 1 else aget (block_w info) plane
  end.

Definition drm_format_info_block_height (info : option drm_format_info) (plane : Z) : Z :=
  match info with
  | None => 0
  | Some info =>
      if bad_plane info plane then 0
      else if aget (block_h info) plane =? 0 then 1 else aget (block_h info) plane
  end.

Definition drm_format_info_bpp (info : option drm_format_info) (plane : Z) : Z :=
  match info with
  | None => 0
  | Some i =>
      if bad_plane i plane then 0
      else
        let block_size := drm_format_info_block_width info plane
                          * drm_format_info_block_height info plane in
        if truthy ((aget (char_per_block i) plane * 8) mod block_size) then 0
        else aget (char_per_block i) plane * 8 / block_size
  end.

(** [buffer_width] is an [unsigned int]; the product is computed in [u64]. *)
Definition drm_format_info_min_pitch (info : option drm_format_info)
    (plane buffer_width : Z) : Z :=
  match info with
  | None => 0
  | Some i =>
      if bad_plane i plane then 0
      else
        let d := drm_format_info_block_width info plane
                 * drm_format_info_block_height info plane in
        u64 (u64 (buffer_width * aget (char_per_block i) plane) + d - 1) / d
  end.

(** ** Facts *)

(** What every table entry satisfies, as a decidable test: plane count within
    the three slots, subsampling factors positive, bytes per block at most 8
    and blocks at most 8 pixels wide. *)
Definition fmt_wf (i : drm_format_info) : bool :=
  ((1 <=? num_planes i) && (num_planes i <=? 3)
   && (1 <=? hsub i) && (hsub i <=? 4) && (1 <=? vsub i) && (vsub i <=? 4)
   && (length (char_per_block i) =? 3)%nat
   && (length (block_w i) =? 3)%nat && (length (block_h i) =? 3)%nat
   && forallb (fun c => ((0 <=? c) && (c <=? 8))%bool) (char_per_block i)
   && forallb (fun c => ((0 <=? c) && (c <=? 8))%bool) (block_w i)
   && forallb (fun c => ((0 <=? c) && (c <=? 2))%bool) (block_h i))%bool.

Lemma formats_wf : forallb fmt_wf formats = true.
Proof. vm_compute. reflexivity. Qed.

Lemma find_format_Some l f i : find_format l f = Some i -> i ∈ l /\ format i = f.
Proof.
  induction l as [|j l IH]; cbn; [done|]. case_decide.
  - intros [= ->]. split; [rewrite elem_of_cons; auto|done].
  - intros Hi; apply IH in Hi as [? ?]; split; [rewrite elem_of_cons; auto|done].
Qed.

Lemma find_format_unique l f i :
  NoDup (format <$> l) -> i ∈ l -> format i = f -> find_format l f = Some i.
Proof.
  induction l as [|j l IH]; cbn; [set_solver|].
  intros [Hn Hd]%NoDup_cons Hi Hf. case_decide as Hj.
  - apply elem_of_cons in Hi as [->|Hi]; [done|].
    destruct Hn. rewrite Hj, <- Hf. by apply list_elem_of_fmap_2.
  - apply elem_of_cons in Hi as [->|Hi]; [done|]. by apply IH.
Qed.

Lemma fourcc_index_inj f g : fourcc_index f = fourcc_index g -> f = g.
Proof.
  intros He. by rewrite <- (fourcc_of_index_index f), He, fourcc_of_index_index.
Qed.

Lemma formats_NoDup : NoDup (format <$> formats).
Proof.
  apply (NoDup_fmap_1 fourcc_index).
  apply (bool_decide_unpack _). vm_compute. exact I.
Qed.

(** The lookup finds exactly the table's entry for a format. *)
Lemma format_info_spec f i :
  __drm_format_info f = Some i <-> i ∈ formats /\ format i = f.
Proof.
  split; [apply find_format_Some|].
  intros [Hi Hf]. by apply find_format_unique; [apply formats_NoDup| |].
Qed.

Lemma format_info_wf f i : __drm_format_info f = Some i -> fmt_wf i = true.
Proof.
  intros [Hi _]%format_info_spec. pose proof formats_wf as H.
  rewrite forallb_forall in H. by apply H, list_elem_of_In.
Qed.

Lemma aget_forallb (p : Z -> bool) l k :
  forallb p l = true -> 0 <= k < Z.of_nat (length l) -> p (aget l k) = true.
Proof.
  intros Hp Hk. rewrite forallb_forall in Hp. apply Hp, nth_In. lia.
Qed.

Lemma block_size_pos i plane :
  fmt_wf i = true -> 0 <= plane < num_planes i ->
  0 < drm_format_info_block_width (Some i) plane <= 8
  /\ 0 < drm_format_info_block_height (Some i) plane <= 2
  /\ 0 <= aget (char_per_block i) plane <= 8.
Proof.
  intros Hwf Hp. unfold fmt_wf in Hwf. rewrite !andb_true_iff in Hwf.
  destruct Hwf as [[[[[[[[[[[_ Hn] _] _] _] _] Hl1] Hl2] Hl3] Hc] Hw] Hh].
  apply Nat.eqb_eq in Hl1, Hl2, Hl3. zb.
  apply (aget_forallb _ _ plane) in Hc, Hw, Hh; [|lia..]. cbn beta in *. zb.
  unfold drm_format_info_block_width, drm_format_info_block_height, bad_plane.
  replace (plane <? 0) with false by (symmetry; apply Z.ltb_ge; lia).
  replace (plane >=? num_planes i) with false
    by (symmetry; rewrite Z.geb_leb; apply Z.leb_gt; lia). cbn.
  repeat case_if; zb; lia.
Qed.

(** The minimum pitch is the exact number of bytes of a line, rounded up: no
    [u64] wrap-around happens for any 32-bit width. *)
Lemma min_pitch_eq i plane w :
  fmt_wf i = true -> 0 <= plane < num_planes i -> is_u32 w ->
  let d := drm_format_info_block_width (Some i) plane
           * drm_format_info_block_height (Some i) plane in
  let p := drm_format_info_min_pitch (Some i) plane w in
  0 < d /\ d * (p - 1) < w * aget (char_per_block i) plane <= d * p.
Proof.
  intros Hwf Hp Hw d p.
  destruct (block_size_pos i plane Hwf Hp) as (Hbw & Hbh & Hc).
  assert (Hd : 0 < d <= 16) by (subst d; nia).
  subst p; unfold drm_format_info_min_pitch, bad_plane.
  replace (plane <? 0) with false by (symmetry; apply Z.ltb_ge; lia).
  replace (plane >=? num_planes i) with false
    by (symmetry; rewrite Z.geb_leb; apply Z.leb_gt; lia). cbn [orb].
  fold d. unfold is_u32 in Hw. set (c := aget (char_per_block i) plane) in *.
  assert (0 <= w * c <= 8 * 2 ^ 32) by nia.
  rewrite (u64_id (w * c)), u64_id by (unfold is_u64; lia).
  pose proof (Z.div_mod (w * c + d - 1) d ltac:(lia)).
  pose proof (Z.mod_pos_bound (w * c + d - 1) d ltac:(lia)).
  split; [lia|]. nia.
Qed.

(** For a format of the table, [drm_format_info_bpp] times the pixels of a
    block gives the bits of a block, or 0 when it is not an integer. *)
Lemma bpp_eq i plane :
  fmt_wf i = true -> 0 <= plane < num_planes i ->
  let b := drm_format_info_bpp (Some i) plane in
  let d := drm_format_info_block_width (Some i) plane
           * drm_format_info_block_height (Some i) plane in
  b = 0 \/ b * d = 8 * aget (char_per_block i) plane.
Proof.
  intros Hwf Hp b d.
  destruct (block_size_pos i plane Hwf Hp) as (Hbw & Hbh & Hc).
  assert (Hd : 0 < d <= 16) by (subst d; nia).
  subst b; unfold drm_format_info_bpp.
  case_if; [by left|]. fold d. case_if; [by left|].
  right. unfold truthy in *. zb.
  pose proof (Z.div_mod (aget (char_per_block i) plane * 8) d ltac:(lia)). lia.
Qed.

(** ** Main theorems *)

(** [__drm_format_info] is exact: it returns an entry iff the table holds
    it for that code, codes are unique in the table, and every entry it can
    return has one to three planes, subsampling factors from 1 to 4 and blocks
    of at most 8 bytes and 8 by 2 pixels. *)
Theorem format_info_exact f i :
  (__drm_format_info f = Some i <-> i ∈ formats /\ format i = f)
  /\ NoDup (format <$> formats)
  /\ (__drm_format_info f = Some i -> fmt_wf i = true).
Proof.
  split; [apply format_info_spec|]. split; [apply formats_NoDup|apply format_info_wf].
Qed.

(** For every format of the table, every plane of it and every 32-bit
    width, [drm_format_info_min_pitch] is the number of bytes of a line rounded
    up to a whole number, computed without wrap-around in 64 bits;
    [drm_format_info_bpp] is the exact number of bits per pixel whenever it is
    not 0. *)
Theorem min_pitch_exact f i plane w :
  __drm_format_info f = Some i -> 0 <= plane < num_planes i -> is_u32 w ->
  let d := drm_format_info_block_width (Some i) plane
           * drm_format_info_block_height (Some i) plane in
  let p := drm_format_info_min_pitch (Some i) plane w in
  let b := drm_format_info_bpp (Some i) plane in
  0 < d
  /\ d * (p - 1) < w * aget (char_per_block i) plane <= d * p
  /\ (b = 0 \/ b * d = 8 * aget (char_per_block i) plane).
Proof.
  intros Hf%format_info_wf Hp Hw d p b.
  destruct (min_pitch_eq i plane w Hf Hp Hw) as [Hd Hm].
  split; [done|]. split; [done|]. by apply bpp_eq.
Qed.

(** Bits per pixel and depth of a format code, from the table. *)
Definition bpp_depth (f : fourcc) : option (Z * Z) :=
  (fun i => (drm_format_info_bpp (Some i) 0, depth i)) <$> __drm_format_info f.

Lemma legacy_pairs bpp dep :
  drm_mode_legacy_fb_format bpp dep <> DRM_FORMAT_INVALID ->
  (bpp, dep) ∈ [(1,1); (2,2); (4,4); (8,8); (16,15); (16,16); (24,24); (32,24);
                (32,30); (32,32)].
Proof.
  intros H. apply list_elem_of_In. unfold drm_mode_legacy_fb_format in H.
  repeat (case_match; try done); zb; subst; cbn; tauto.
Qed.

Lemma legacy_bpp_depth bpp dep :
  drm_mode_legacy_fb_format bpp dep <> DRM_FORMAT_INVALID ->
  drm_mode_legacy_fb_format bpp dep <> DRM_FORMAT_INVALID
  /\ bpp_depth (drm_mode_legacy_fb_format bpp dep) = Some (bpp, dep).
Proof.
  intros E. split; [done|]. apply legacy_pairs in E. rewrite !elem_of_cons in E.
  repeat match goal with
  | E : _ \/ _ |- _ => destruct E as [[= -> ->]|E]
  end; first [by apply elem_of_nil in E|vm_compute; reflexivity].
Qed.

(** On a little-endian machine only the 30-bit quirk changes the choice. *)
Lemma driver_legacy_eq cfg bpp dep :
  drm_driver_legacy_fb_format cfg bpp dep
  = let f := drm_mode_legacy_fb_format bpp dep in
    if (quirk_addfb_prefer_xbgr_30bpp cfg && bool_decide (f = DRM_FORMAT_XRGB2101010))%bool
    then DRM_FORMAT_XBGR2101010 else f.
Proof.
  unfold drm_driver_legacy_fb_format. cbv zeta.
  destruct (quirk_addfb_prefer_host_byte_order cfg); [|done].
  set (f := drm_mode_legacy_fb_format bpp dep). clearbody f.
  assert (Hid : forall g h : fourcc, (if decide (g = h) then h else g) = g)
    by (intros; by case_decide; subst).
  by rewrite !Hid.
Qed.

Lemma driver_bpp_depth cfg bpp dep :
  drm_driver_legacy_fb_format cfg bpp dep <> DRM_FORMAT_INVALID ->
  bpp_depth (drm_driver_legacy_fb_format cfg bpp dep) = Some (bpp, dep).
Proof.
  rewrite driver_legacy_eq. cbv zeta. intros Hne.
  destruct (decide (drm_mode_legacy_fb_format bpp dep = DRM_FORMAT_INVALID)) as [E|E].
  { rewrite E in Hne. cbn in Hne. by rewrite andb_false_r in Hne. }
  pose proof (legacy_bpp_depth bpp dep E) as [_ Hb].
  destruct (_ && _)%bool eqn:H; [|done]. rewrite <- Hb.
  apply andb_true_iff in H as [_ ->%bool_decide_eq_true]. by vm_compute.
Qed.

(** The legacy (bpp, depth) description and the format table agree: a code
    chosen by [drm_driver_legacy_fb_format], whatever the driver's quirks, has
    exactly that bpp and depth in the table, and is chosen for no other pair;
    unknown pairs give no table entry. *)
Theorem legacy_format_roundtrip cfg bpp dep :
  let f := drm_driver_legacy_fb_format cfg bpp dep in
  if decide (f = DRM_FORMAT_INVALID) then bpp_depth f = None
  else bpp_depth f = Some (bpp, dep).
Proof.
  intros f. case_decide as Hf; [by rewrite Hf; vm_compute|]. by apply driver_bpp_depth.
Qed.

(** ** Witnesses *)

(** 100 luma pixels of NV15 take 125 bytes, 101 take 127: four pixels share
    five bytes. *)
Lemma min_pitch_exact_witness :
  let i := mkfmt DRM_FORMAT_NV15 0 2 [5; 5; 0] [4; 2; 0] [1; 1; 0] 2 2 false true false in
  drm_format_info_min_pitch (Some i) 0 101 = 127
  /\ 4 * (127 - 1) < 101 * 5 <= 4 * 127.
Proof.
  cbv zeta. split; [vm_compute; reflexivity|].
  exact (proj1 (proj2 (min_pitch_exact DRM_FORMAT_NV15
    (mkfmt DRM_FORMAT_NV15 0 2 [5; 5; 0] [4; 2; 0] [1; 1; 0] 2 2 false true false)
    0 101 ltac:(vm_compute; reflexivity) ltac:(cbn; lia) ltac:(unfold is_u32; lia)))).
Defined.
