(* ===== verification/DrmModes.v ===== *)
(** * DrmModes: display modes (src/drm/drm_modes.c)

    The arithmetic part of the mode library: refresh rate, CRTC timings,
    comparison and validation.  [clock] and [crtc_clock] are C [int]s, the
    timing fields are 16-bit, so every assignment to a [crtc_] timing wraps
    with [u16]. *)

From S2P Require Export Uapi.

Definition CRTC_INTERLACE_HALVE_V : Z := BIT 0.
Definition CRTC_STEREO_DOUBLE : Z := BIT 1.
Definition CRTC_NO_DBLSCAN : Z := BIT 2.
Definition CRTC_NO_VSCAN : Z := BIT 3.
Definition CRTC_STEREO_DOUBLE_ONLY : Z :=
  CRTC_STEREO_DOUBLE .| CRTC_NO_DBLSCAN .| CRTC_NO_VSCAN.

Definition DRM_MODE_MATCH_TIMINGS : Z := BIT 0.
Definition DRM_MODE_MATCH_CLOCK : Z := BIT 1.
Definition DRM_MODE_MATCH_FLAGS : Z := BIT 2.
Definition DRM_MODE_MATCH_3D_FLAGS : Z := BIT 3.
Definition DRM_MODE_MATCH_ASPECT_RATIO : Z := BIT 4.

(** [PREFERRED], [USERDEF] and [DRIVER]. *)
Definition DRM_MODE_TYPE_ALL : Z := BIT 3 .| BIT 5 .| BIT 6.
(** Bits 0 to 9 (sync polarities, interlace, doublescan, csync, hskew), 12 and
    13 (clock doubling and halving) and the stereo layout. *)
Definition DRM_MODE_FLAG_ALL : Z :=
  GENMASK 9 0 .| GENMASK 13 12 .| DRM_MODE_FLAG_3D_MASK.
Definition DRM_MODE_FLAG_3D_MAX : Z := 8 .<< 14.

(** [KHZ2PICOS]: an [int] divisor is converted to [unsigned long]. *)
Definition KHZ2PICOS (a : Z) : Z := 1000000000 / u64 a.

(** ** Refresh rate *)

Definition drm_mode_vrefresh (m : drm_display_mode) : Z :=
  if (htotal m =? 0) || (vtotal m =? 0) then 0
  else
    let num := if truthy (flags m .& DRM_MODE_FLAG_INTERLACE) then 2 else 1 in
    let den := if truthy (flags m .& DRM_MODE_FLAG_DBLSCAN) then 2 else 1 in
    let den := if vscan m >? 1 then u32 (den * vscan m) else den in
    (* check_mul_overflow: the exact product has to fit the unsigned result *)
    let num := clock m * num in
    if (num <? 0) || (num >? U32_MAX) then 0
    else
      let den := s32 (htotal m * vtotal m) * den in
      if (den <? 0) || (den >? U32_MAX) then 0
      else s32 ((num * 1000 + den / 2) / den).

(** ** CRTC timings *)

(** The vertical timings, multiplied or divided in place one after the other. *)
Definition crtc_v_map (f : Z -> Z) (p : drm_display_mode) : drm_display_mode :=
  {| p with
     crtc_vdisplay := u16 (f (crtc_vdisplay p));
     crtc_vsync_start := u16 (f (crtc_vsync_start p));
     crtc_vsync_end := u16 (f (crtc_vsync_end p));
     crtc_vtotal := u16 (f (crtc_vtotal p)) |}.

(** The blocks of [drm_mode_set_crtcinfo], in its order. *)
Definition crtc_copy (p : drm_display_mode) : drm_display_mode :=
  {| p with
    crtc_clock := clock p;
    crtc_hdisplay := hdisplay p;
    crtc_hsync_start := hsync_start p;
    crtc_hsync_end := hsync_end p;
    crtc_htotal := htotal p;
    crtc_hskew := hskew p;
    crtc_vdisplay := vdisplay p;
    crtc_vsync_start := vsync_start p;
    crtc_vsync_end := vsync_end p;
    crtc_vtotal := vtotal p |}.

Definition adjust_interlace (adjust_flags : Z) (p : drm_display_mode) : drm_display_mode :=
  if truthy (flags p .& DRM_MODE_FLAG_INTERLACE) then
    if truthy (adjust_flags .& CRTC_INTERLACE_HALVE_V)
    then crtc_v_map (fun v => v / 2) p else p
  else p.

Definition adjust_dblscan (adjust_flags : Z) (p : drm_display_mode) : drm_display_mode :=
  if negb (truthy (adjust_flags .& CRTC_NO_DBLSCAN)) then
    if truthy (flags p .& DRM_MODE_FLAG_DBLSCAN)
    then crtc_v_map (fun v => v * 2) p else p
  else p.

Definition adjust_vscan (adjust_flags : Z) (p : drm_display_mode) : drm_display_mode :=
  if negb (truthy (adjust_flags .& CRTC_NO_VSCAN)) then
    if vscan p >? 1 then crtc_v_map (fun v => v * vscan p) p else p
  else p.

Definition adjust_stereo (adjust_flags : Z) (p : drm_display_mode) : drm_display_mode :=
  if truthy (adjust_flags .& CRTC_STEREO_DOUBLE) then
    let layout := flags p .& DRM_MODE_FLAG_3D_MASK in
    if layout =? DRM_MODE_FLAG_3D_FRAME_PACKING then
      {| p with
         crtc_clock := s32 (crtc_clock p * 2);
         crtc_vdisplay := u16 (crtc_vdisplay p + crtc_vtotal p);
         crtc_vsync_start := u16 (crtc_vsync_start p + crtc_vtotal p);
         crtc_vsync_end := u16 (crtc_vsync_end p + crtc_vtotal p);
         crtc_vtotal := u16 (crtc_vtotal p + crtc_vtotal p) |}
    else p
  else p.

Definition crtc_blank (p : drm_display_mode) : drm_display_mode :=
  {| p with
     crtc_vblank_start := Z.min (crtc_vsync_start p) (crtc_vdisplay p);
     crtc_vblank_end := Z.max (crtc_vsync_end p) (crtc_vtotal p);
     crtc_hblank_start := Z.min (crtc_hsync_start p) (crtc_hdisplay p);
     crtc_hblank_end := Z.max (crtc_hsync_end p) (crtc_htotal p) |}.

Definition drm_mode_set_crtcinfo (p : drm_display_mode) (adjust_flags : Z)
  : drm_display_mode :=
  let p := crtc_copy p in
  let p := adjust_interlace adjust_flags p in
  let p := adjust_dblscan adjust_flags p in
  let p := adjust_vscan adjust_flags p in
  let p := adjust_stereo adjust_flags p in
  crtc_blank p.

(** Returns [(hdisplay, vdisplay)]; the copy loses only the list head, which
    is not part of the model. *)
Definition drm_mode_get_hv_timing (mode : drm_display_mode) : Z * Z :=
  let adjusted := drm_mode_set_crtcinfo mode CRTC_STEREO_DOUBLE_ONLY in
  (crtc_hdisplay adjusted, crtc_vdisplay adjusted).

(** ** Comparison *)

Definition drm_mode_match_timings (m1 m2 : drm_display_mode) : bool :=
  ((hdisplay m1 =? hdisplay m2)
   && (hsync_start m1 =? hsync_start m2)
   && (hsync_end m1 =? hsync_end m2)
   && (htotal m1 =? htotal m2)
   && (hskew m1 =? hskew m2)
   && (vdisplay m1 =? vdisplay m2)
   && (vsync_start m1 =? vsync_start m2)
   && (vsync_end m1 =? vsync_end m2)
   && (vtotal m1 =? vtotal m2)
   && (vscan m1 =? vscan m2))%bool.

Definition drm_mode_match_clock (m1 m2 : drm_display_mode) : bool :=
  if truthy (clock m1) && truthy (clock m2)
  then KHZ2PICOS (clock m1) =? KHZ2PICOS (clock m2)
  else clock m1 =? clock m2.

Definition drm_mode_match_flags (m1 m2 : drm_display_mode) : bool :=
  Z.ldiff (flags m1) DRM_MODE_FLAG_3D_MASK =? Z.ldiff (flags m2) DRM_MODE_FLAG_3D_MASK.

Definition drm_mode_match_3d_flags (m1 m2 : drm_display_mode) : bool :=
  (flags m1 .& DRM_MODE_FLAG_3D_MASK) =? (flags m2 .& DRM_MODE_FLAG_3D_MASK).

Definition drm_mode_match_aspect_ratio (m1 m2 : drm_display_mode) : bool :=
  picture_aspect_ratio m1 =? picture_aspect_ratio m2.

(** [None] is a NULL mode. *)
Definition drm_mode_match (mode1 mode2 : option drm_display_mode) (match_flags : Z) : bool :=
  match mode1, mode2 with
  | None, None => true
  | Some m1, Some m2 =>
      if truthy (match_flags .& DRM_MODE_MATCH_TIMINGS)
         && negb (drm_mode_match_timings m1 m2) then false
      else if truthy (match_flags .& DRM_MODE_MATCH_CLOCK)
              && negb (drm_mode_match_clock m1 m2) then false
      else if truthy (match_flags .& DRM_MODE_MATCH_FLAGS)
              && negb (drm_mode_match_flags m1 m2) then false
      else if truthy (match_flags .& DRM_MODE_MATCH_3D_FLAGS)
              && negb (drm_mode_match_3d_flags m1 m2) then false
      else if truthy (match_flags .& DRM_MODE_MATCH_ASPECT_RATIO)
              && negb (drm_mode_match_aspect_ratio m1 m2) then false
      else true
  | _, _ => false
  end.

Definition drm_mode_equal (mode1 mode2 : option drm_display_mode) : bool :=
  drm_mode_match mode1 mode2
    (DRM_MODE_MATCH_TIMINGS .| DRM_MODE_MATCH_CLOCK .| DRM_MODE_MATCH_FLAGS
     .| DRM_MODE_MATCH_3D_FLAGS .| DRM_MODE_MATCH_ASPECT_RATIO).

Definition drm_mode_equal_no_clocks (mode1 mode2 : option drm_display_mode) : bool :=
  drm_mode_match mode1 mode2
    (DRM_MODE_MATCH_TIMINGS .| DRM_MODE_MATCH_FLAGS .| DRM_MODE_MATCH_3D_FLAGS).

Definition drm_mode_equal_no_clocks_no_stereo (mode1 mode2 : option drm_display_mode) : bool :=
  drm_mode_match mode1 mode2 (DRM_MODE_MATCH_TIMINGS .| DRM_MODE_MATCH_FLAGS).

(** ** Validation *)

Definition drm_mode_validate_basic (mode : drm_display_mode) : drm_mode_status :=
  if truthy (Z.ldiff (type mode) DRM_MODE_TYPE_ALL) then MODE_BAD
  else if truthy (Z.ldiff (flags mode) DRM_MODE_FLAG_ALL) then MODE_BAD
  else if (flags mode .& DRM_MODE_FLAG_3D_MASK) >? DRM_MODE_FLAG_3D_MAX then MODE_BAD
  else if clock mode =? 0 then MODE_CLOCK_LOW
  else if (hdisplay mode =? 0) || (hsync_start mode <? hdisplay mode)
          || (hsync_end mode <? hsync_start mode) || (htotal mode <? hsync_end mode)
  then MODE_H_ILLEGAL
  else if (vdisplay mode =? 0) || (vsync_start mode <? vdisplay mode)
          || (vsync_end mode <? vsync_start mode) || (vtotal mode <? vsync_end mode)
  then MODE_V_ILLEGAL
  else MODE_OK.

(** [mode_valid] is the driver's optional hook. *)
Definition drm_mode_validate_driver
    (mode_valid : option (drm_display_mode -> drm_mode_status))
    (mode : drm_display_mode) : drm_mode_status :=
  let status := drm_mode_validate_basic mode in
  if negb (bool_decide (status = MODE_OK)) then status
  else match mode_valid with
       | Some f => f mode
       | None => MODE_OK
       end.

Definition drm_mode_validate_size (mode : drm_display_mode) (maxX maxY : Z)
  : drm_mode_status :=
  if (maxX >? 0) && (hdisplay mode >? maxX) then MODE_VIRTUAL_X
  else if (maxY >? 0) && (vdisplay mode >? maxY) then MODE_VIRTUAL_Y
  else MODE_OK.

(** ** Facts *)

(** The C types of the fields that the modelled functions read. *)
Definition mode_typed (m : drm_display_mode) : Prop :=
  Forall is_u16 [hdisplay m; hsync_start m; hsync_end m; htotal m; hskew m;
                 vdisplay m; vsync_start m; vsync_end m; vtotal m; vscan m]
  /\ is_s32 (clock m) /\ is_u32 (flags m).

(** Equality of modes: the equivalence that [drm_mode_equal] decides. *)
Definition timings (m : drm_display_mode) : list Z :=
  [hdisplay m; hsync_start m; hsync_end m; htotal m; hskew m;
   vdisplay m; vsync_start m; vsync_end m; vtotal m; vscan m].

(** The pixel clock up to the resolution of the comparison. *)
Definition clock_class (c : Z) : option Z :=
  if truthy c then Some (KHZ2PICOS c) else None.

Definition mode_eqv (m1 m2 : drm_display_mode) : Prop :=
  timings m1 = timings m2 /\ clock_class (clock m1) = clock_class (clock m2)
  /\ flags m1 = flags m2 /\ picture_aspect_ratio m1 = picture_aspect_ratio m2.

#[export] Instance mode_eqv_equivalence : Equivalence mode_eqv.
Proof.
  unfold mode_eqv. split.
  - done.
  - intros ?? (?&?&?&?). auto.
  - intros ??? (?&?&?&?) (?&?&?&?). repeat split; congruence.
Qed.

Lemma match_timings_iff m1 m2 : drm_mode_match_timings m1 m2 = true <-> timings m1 = timings m2.
Proof.
  unfold drm_mode_match_timings, timings.
  rewrite !andb_true_iff, !Z.eqb_eq. split; [intros; destruct_and!; congruence|].
  intros [= -> -> -> -> -> -> -> -> -> ->]. tauto.
Qed.

Lemma match_clock_iff m1 m2 :
  drm_mode_match_clock m1 m2 = true <-> clock_class (clock m1) = clock_class (clock m2).
Proof.
  unfold drm_mode_match_clock, clock_class, truthy.
  destruct (Z.eqb_spec (clock m1) 0) as [->|], (Z.eqb_spec (clock m2) 0) as [->|];
    cbn [negb andb]; rewrite Z.eqb_eq; split; congruence.
Qed.

Lemma match_flags_iff m1 m2 :
  drm_mode_match_flags m1 m2 = true /\ drm_mode_match_3d_flags m1 m2 = true
  <-> flags m1 = flags m2.
Proof.
  unfold drm_mode_match_flags, drm_mode_match_3d_flags. rewrite !Z.eqb_eq. split.
  - intros [H1 H2].
    rewrite <- (Z.lor_ldiff_and (flags m1) DRM_MODE_FLAG_3D_MASK), H1, H2.
    apply Z.lor_ldiff_and.
  - by intros ->.
Qed.

Lemma mode_equal_iff m1 m2 :
  drm_mode_equal (Some m1) (Some m2) = true <-> mode_eqv m1 m2.
Proof.
  unfold drm_mode_equal, drm_mode_match, mode_eqv.
  rewrite <- match_timings_iff, <- match_clock_iff, <- match_flags_iff.
  repeat match goal with
  | |- context [truthy ?x] => replace (truthy x) with true by reflexivity
  end.
  unfold drm_mode_match_aspect_ratio. rewrite <- Z.eqb_eq. cbn [andb].
  repeat match goal with
  | |- context [negb ?b] => destruct b; cbn [negb]
  end; intuition congruence.
Qed.

(** What the vertical adjustments do to one timing value. *)
Definition v_scale (m : drm_display_mode) (adjust_flags v : Z) : Z :=
  let v := if truthy (flags m .& DRM_MODE_FLAG_INTERLACE)
              && truthy (adjust_flags .& CRTC_INTERLACE_HALVE_V) then v / 2 else v in
  let v := if negb (truthy (adjust_flags .& CRTC_NO_DBLSCAN))
              && truthy (flags m .& DRM_MODE_FLAG_DBLSCAN) then v * 2 else v in
  if negb (truthy (adjust_flags .& CRTC_NO_VSCAN)) && (vscan m >? 1)
  then v * vscan m else v.

(** Frame packing puts the second eye's frame below the first. *)
Definition packed (m : drm_display_mode) (adjust_flags : Z) : bool :=
  (truthy (adjust_flags .& CRTC_STEREO_DOUBLE)
   && ((flags m .& DRM_MODE_FLAG_3D_MASK) =? DRM_MODE_FLAG_3D_FRAME_PACKING))%bool.

Definition v_timing (m : drm_display_mode) (adjust_flags v : Z) : Z :=
  v_scale m adjust_flags v
  + (if packed m adjust_flags then v_scale m adjust_flags (vtotal m) else 0).

(** No vertical timing overflows its 16 bits even with every factor applied. *)
Definition v_fits (m : drm_display_mode) : Prop :=
  vtotal m * 4 * Z.max 1 (vscan m) < 2 ^ 16.

Lemma v_scale_mono m a v w : 0 <= vscan m -> v <= w -> v_scale m a v <= v_scale m a w.
Proof.
  intros Hs Hle. unfold v_scale.
  pose proof (Z.div_le_mono v w 2 ltac:(lia) Hle).
  repeat case_if; nia.
Qed.

Lemma v_scale_bound m a v :
  0 <= v -> 0 <= vscan m -> 0 <= v_scale m a v <= v * 2 * Z.max 1 (vscan m).
Proof.
  intros Hv Hs. unfold v_scale.
  pose proof (Z.div_pos v 2 Hv). pose proof (Z.div_le_upper_bound v 2 v).
  repeat case_if; zb; nia.
Qed.

(** Drop the conversions of values that are in range, innermost first. *)
Ltac u16_simp :=
  repeat match goal with
  | |- context [u16 ?x] =>
      lazymatch x with
      | context [u16 _] => fail
      | _ => rewrite (u16_id x) by (unfold is_u16; lia)
      end
  end.

(** The three vertical steps on one value, with the 16-bit stores between. *)
Definition v_chain (m : drm_display_mode) (adjust_flags v : Z) : Z :=
  let v := if truthy (flags m .& DRM_MODE_FLAG_INTERLACE)
              && truthy (adjust_flags .& CRTC_INTERLACE_HALVE_V) then u16 (v / 2) else v in
  let v := if negb (truthy (adjust_flags .& CRTC_NO_DBLSCAN))
              && truthy (flags m .& DRM_MODE_FLAG_DBLSCAN) then u16 (v * 2) else v in
  if negb (truthy (adjust_flags .& CRTC_NO_VSCAN)) && (vscan m >? 1)
  then u16 (v * vscan m) else v.

Lemma v_chain_scale m a v :
  v_fits m -> 0 <= v <= vtotal m -> 0 <= vscan m ->
  v_chain m a v = v_scale m a v /\ 0 <= v_scale m a v /\ v_scale m a v * 2 < 2 ^ 16.
Proof.
  intros Hf Hv Hs. pose proof (v_scale_bound m a v ltac:(lia) Hs) as Hb.
  split; [|unfold v_fits in Hf; nia].
  assert (0 <= v / 2 <= v /\ 0 <= v * 4 < 2 ^ 16
     /\ 0 <= v * 4 * vscan m < 2 ^ 16 /\ 0 <= v / 2 * 4 * vscan m < 2 ^ 16).
  { unfold v_fits in Hf.
    pose proof (Z.div_pos v 2). pose proof (Z.div_le_upper_bound v 2 v).
    repeat split; nia. }
  unfold v_chain, v_scale. repeat case_if; u16_simp; lia.
Qed.

(** The vertical CRTC timings, and everything the vertical steps leave alone. *)
Definition v_vec (p : drm_display_mode) : list Z :=
  [crtc_vdisplay p; crtc_vsync_start p; crtc_vsync_end p; crtc_vtotal p].

Definition h_vec (p : drm_display_mode) : list Z :=
  [crtc_hdisplay p; crtc_hsync_start p; crtc_hsync_end p; crtc_htotal p; crtc_hskew p].

Definition v_frame (p q : drm_display_mode) : Prop :=
  timings p = timings q /\ flags p = flags q /\ vscan p = vscan q
  /\ h_vec p = h_vec q /\ clock p = clock q.

#[local] Instance v_frame_trans : Transitive v_frame.
Proof. unfold v_frame. intros ??? (?&?&?&?&?) (?&?&?&?&?). repeat split; congruence. Qed.

Lemma interlace_step a p :
  v_frame (adjust_interlace a p) p /\ crtc_clock (adjust_interlace a p) = crtc_clock p
  /\ v_vec (adjust_interlace a p)
     = (fun v => if truthy (flags p .& DRM_MODE_FLAG_INTERLACE)
              && truthy (a .& CRTC_INTERLACE_HALVE_V) then u16 (v / 2) else v) <$> v_vec p.
Proof. unfold adjust_interlace. repeat (case_if; cbn [andb]); by repeat split. Qed.

Lemma dblscan_step a p :
  v_frame (adjust_dblscan a p) p /\ crtc_clock (adjust_dblscan a p) = crtc_clock p
  /\ v_vec (adjust_dblscan a p)
     = (fun v => if negb (truthy (a .& CRTC_NO_DBLSCAN))
              && truthy (flags p .& DRM_MODE_FLAG_DBLSCAN) then u16 (v * 2) else v) <$> v_vec p.
Proof. unfold adjust_dblscan. repeat (case_if; cbn [andb]); by repeat split. Qed.

Lemma vscan_step a p :
  v_frame (adjust_vscan a p) p /\ crtc_clock (adjust_vscan a p) = crtc_clock p
  /\ v_vec (adjust_vscan a p)
     = (fun v => if negb (truthy (a .& CRTC_NO_VSCAN)) && (vscan p >? 1)
                 then u16 (v * vscan p) else v) <$> v_vec p.
Proof. unfold adjust_vscan. repeat (case_if; cbn [andb]); by repeat split. Qed.

Lemma stereo_step a p :
  v_frame (adjust_stereo a p) p
  /\ crtc_clock (adjust_stereo a p) = (if packed p a then s32 (crtc_clock p * 2) else crtc_clock p)
  /\ v_vec (adjust_stereo a p)
     = (fun v => if packed p a then u16 (v + crtc_vtotal p) else v) <$> v_vec p.
Proof. unfold adjust_stereo, packed. repeat (case_if; cbn [andb]); by repeat split. Qed.

(** All steps together; [crtc_blank] then only reads the result. *)
Lemma set_crtcinfo_chain m a :
  let p := drm_mode_set_crtcinfo m a in
  v_vec p = (fun v => if packed m a then u16 (v_chain m a v + v_chain m a (vtotal m))
                      else v_chain m a v)
            <$> [vdisplay m; vsync_start m; vsync_end m; vtotal m]
  /\ h_vec p = [hdisplay m; hsync_start m; hsync_end m; htotal m; hskew m]
  /\ crtc_clock p = (if packed m a then s32 (clock m * 2) else clock m)
  /\ crtc_vblank_start p = Z.min (crtc_vsync_start p) (crtc_vdisplay p)
  /\ crtc_vblank_end p = Z.max (crtc_vsync_end p) (crtc_vtotal p)
  /\ crtc_hblank_start p = Z.min (crtc_hsync_start p) (crtc_hdisplay p)
  /\ crtc_hblank_end p = Z.max (crtc_hsync_end p) (crtc_htotal p).
Proof.
  unfold drm_mode_set_crtcinfo. cbv zeta.
  destruct (interlace_step a (crtc_copy m)) as ((T1 & F1 & S1 & H1 & _) & C1 & V1).
  revert T1 F1 S1 H1 C1 V1. generalize (adjust_interlace a (crtc_copy m)) as p1. intros.
  destruct (dblscan_step a p1) as ((T2 & F2 & S2 & H2 & _) & C2 & V2).
  revert T2 F2 S2 H2 C2 V2. generalize (adjust_dblscan a p1) as p2. intros.
  destruct (vscan_step a p2) as ((T3 & F3 & S3 & H3 & _) & C3 & V3).
  revert T3 F3 S3 H3 C3 V3. generalize (adjust_vscan a p2) as p3. intros.
  destruct (stereo_step a p3) as ((T4 & F4 & S4 & H4 & _) & C4 & V4).
  revert T4 F4 S4 H4 C4 V4. generalize (adjust_stereo a p3) as p4. intros.
  assert (Hp : packed p3 a = packed m a).
  { unfold packed. by rewrite F3, F2, F1. }
  assert (V : v_vec p3 = v_chain m a <$> [vdisplay m; vsync_start m; vsync_end m; vtotal m]).
  { rewrite V3, V2, V1, S2, F1, S1. done. }
  split; [|split; [|split; [|done]]].
  - change (v_vec (crtc_blank p4)) with (v_vec p4). rewrite V4, V, Hp.
    replace (crtc_vtotal p3) with (v_chain m a (vtotal m)); [done|].
    unfold v_vec in V. cbn in V. by injection V.
  - change (h_vec (crtc_blank p4)) with (h_vec p4). by rewrite H4, H3, H2, H1.
  - change (crtc_clock (crtc_blank p4)) with (crtc_clock p4).
    by rewrite C4, C3, C2, C1, Hp.
Qed.

Lemma set_crtcinfo_v m a :
  0 <= vdisplay m <= vsync_start m -> vsync_start m <= vsync_end m <= vtotal m ->
  0 <= vscan m -> v_fits m ->
  let p := drm_mode_set_crtcinfo m a in
  crtc_vdisplay p = v_timing m a (vdisplay m)
  /\ crtc_vsync_start p = v_timing m a (vsync_start m)
  /\ crtc_vsync_end p = v_timing m a (vsync_end m)
  /\ crtc_vtotal p = v_timing m a (vtotal m).
Proof.
  intros H1 H2 Hs Hf. cbv zeta.
  destruct (set_crtcinfo_chain m a) as (V & _).
  revert V. generalize (drm_mode_set_crtcinfo m a) as p. intros p V.
  unfold v_vec in V; cbn in V. injection V as -> -> -> ->. unfold v_timing.
  pose proof (v_scale_mono m a (vdisplay m) (vtotal m) Hs ltac:(lia)).
  pose proof (v_scale_mono m a (vsync_start m) (vtotal m) Hs ltac:(lia)).
  pose proof (v_scale_mono m a (vsync_end m) (vtotal m) Hs ltac:(lia)).
  destruct (v_chain_scale m a (vdisplay m) Hf ltac:(lia) Hs) as (-> & ? & ?).
  destruct (v_chain_scale m a (vsync_start m) Hf ltac:(lia) Hs) as (-> & ? & ?).
  destruct (v_chain_scale m a (vsync_end m) Hf ltac:(lia) Hs) as (-> & ? & ?).
  destruct (v_chain_scale m a (vtotal m) Hf ltac:(lia) Hs) as (-> & ? & ?).
  case_if; u16_simp; lia.
Qed.

Lemma timings_eq m1 m2 :
  timings m1 = timings m2 ->
  [hdisplay m1; hsync_start m1; hsync_end m1; htotal m1; hskew m1]
  = [hdisplay m2; hsync_start m2; hsync_end m2; htotal m2; hskew m2]
  /\ [vdisplay m1; vsync_start m1; vsync_end m1; vtotal m1]
     = [vdisplay m2; vsync_start m2; vsync_end m2; vtotal m2]
  /\ vscan m1 = vscan m2.
Proof.
  unfold timings. intros H. injection H as E1 E2 E3 E4 E5 E6 E7 E8 E9 E10.
  rewrite E1, E2, E3, E4, E5, E6, E7, E8, E9, E10. done.
Qed.

(** Modes that agree on timings and flags have the same CRTC timings. *)
Lemma set_crtcinfo_proper m1 m2 a :
  timings m1 = timings m2 -> flags m1 = flags m2 ->
  let p1 := drm_mode_set_crtcinfo m1 a in
  let p2 := drm_mode_set_crtcinfo m2 a in
  v_vec p1 = v_vec p2 /\ h_vec p1 = h_vec p2
  /\ crtc_vblank_start p1 = crtc_vblank_start p2 /\ crtc_vblank_end p1 = crtc_vblank_end p2
  /\ crtc_hblank_start p1 = crtc_hblank_start p2 /\ crtc_hblank_end p1 = crtc_hblank_end p2.
Proof.
  intros (Hh & Hv & Hs)%timings_eq Hf p1 p2.
  destruct (set_crtcinfo_chain m1 a) as (V1 & H1 & _ & B1 & C1 & D1 & E1).
  destruct (set_crtcinfo_chain m2 a) as (V2 & H2 & _ & B2 & C2 & D2 & E2).
  fold p1 in V1, H1, B1, C1, D1, E1. fold p2 in V2, H2, B2, C2, D2, E2.
  assert (HV : v_vec p1 = v_vec p2).
  { rewrite V1, V2, <- Hv. apply list_fmap_ext. intros i v _.
    unfold packed, v_chain. rewrite Hf, Hs. by injection Hv as _ _ _ ->. }
  assert (HH : h_vec p1 = h_vec p2) by congruence.
  clearbody p1 p2. unfold v_vec, h_vec in HV, HH. injection HV as ????. injection HH as ?????.
  unfold v_vec, h_vec. repeat split; congruence.
Qed.

Lemma validate_basic_ok m :
  drm_mode_validate_basic m = MODE_OK ->
  clock m <> 0 /\ hdisplay m <> 0 /\ vdisplay m <> 0
  /\ hdisplay m <= hsync_start m <= hsync_end m /\ hsync_end m <= htotal m
  /\ vdisplay m <= vsync_start m <= vsync_end m /\ vsync_end m <= vtotal m.
Proof.
  unfold drm_mode_validate_basic. intros H.
  repeat (case_match; [done|]). zb. lia.
Qed.

(** Only frame packing changes the size that [drm_mode_get_hv_timing] sees. *)
Lemma get_hv_timing_eq m :
  drm_mode_get_hv_timing m
  = (hdisplay m, if packed m CRTC_STEREO_DOUBLE_ONLY then u16 (vdisplay m + vtotal m)
                 else vdisplay m).
Proof.
  unfold drm_mode_get_hv_timing.
  destruct (set_crtcinfo_chain m CRTC_STEREO_DOUBLE_ONLY) as (V & H & _).
  revert V H. generalize (drm_mode_set_crtcinfo m CRTC_STEREO_DOUBLE_ONLY) as p.
  intros p V Hh.
  assert (Hc : forall v, v_chain m CRTC_STEREO_DOUBLE_ONLY v = v).
  { intros v. unfold v_chain.
    replace (truthy (_ .& CRTC_INTERLACE_HALVE_V)) with false by done.
    replace (truthy (_ .& CRTC_NO_DBLSCAN)) with true by done.
    replace (truthy (_ .& CRTC_NO_VSCAN)) with true by done.
    by rewrite andb_false_r. }
  unfold v_vec, h_vec in V, Hh. cbn [fmap list_fmap] in V. rewrite !Hc in V.
  injection Hh as -> _ _ _ _. by injection V as -> _ _ _.
Qed.

(** ** Main theorems *)

(** After [drm_mode_validate_basic] accepts a mode, the CRTC timings that
    [drm_mode_set_crtcinfo] derives under any adjustment flags are ordered
    (display <= sync start <= sync end <= total in both directions), the
    blanking interval starts where the display ends and ends at the total, the
    horizontal timings are the mode's, and each vertical timing is the mode's
    halved, doubled, multiplied by vscan and stacked for frame packing as the
    flags ask, with no 16-bit overflow when four times vscan times the total
    fits. *)
Theorem set_crtcinfo_ordered m a :
  mode_typed m -> drm_mode_validate_basic m = MODE_OK -> v_fits m ->
  let p := drm_mode_set_crtcinfo m a in
  [crtc_vdisplay p; crtc_vsync_start p; crtc_vsync_end p; crtc_vtotal p]
    = v_timing m a <$> [vdisplay m; vsync_start m; vsync_end m; vtotal m]
  /\ [crtc_hdisplay p; crtc_hsync_start p; crtc_hsync_end p; crtc_htotal p]
    = [hdisplay m; hsync_start m; hsync_end m; htotal m]
  /\ crtc_vdisplay p <= crtc_vsync_start p <= crtc_vsync_end p
  /\ crtc_vsync_end p <= crtc_vtotal p
  /\ crtc_vblank_start p = crtc_vdisplay p /\ crtc_vblank_end p = crtc_vtotal p
  /\ crtc_hblank_start p = crtc_hdisplay p /\ crtc_hblank_end p = crtc_htotal p.
Proof.
  intros [Hty _] Hok Hf p. apply validate_basic_ok in Hok.
  unfold is_u16 in Hty. rewrite !Forall_cons in Hty. destruct_and!.
  destruct (set_crtcinfo_chain m a) as (_ & HH & _ & B1 & B2 & B3 & B4).
  destruct (set_crtcinfo_v m a) as (V1 & V2 & V3 & V4); [lia..|done|].
  fold p in HH, B1, B2, B3, B4, V1, V2, V3, V4.
  clearbody p. unfold h_vec in HH. injection HH as E1 E2 E3 E4 _.
  pose proof (v_scale_mono m a (vdisplay m) (vsync_start m) ltac:(lia) ltac:(lia)).
  pose proof (v_scale_mono m a (vsync_start m) (vsync_end m) ltac:(lia) ltac:(lia)).
  pose proof (v_scale_mono m a (vsync_end m) (vtotal m) ltac:(lia) ltac:(lia)).
  cbn [fmap list_fmap].
  split; [congruence|]. split; [congruence|].
  rewrite B1, B2, B3, B4, V1, V2, V3, V4, E1, E2, E3, E4. unfold v_timing. lia.
Qed.

(** [drm_mode_equal] decides an equivalence relation on modes, NULL
    included: all timings, all flags and the aspect ratio equal and the clocks
    either both zero or of the same period in picoseconds; modes it identifies
    get identical CRTC and blanking timings from [drm_mode_set_crtcinfo]. *)
Theorem mode_equal_equivalence :
  (forall o1 o2, drm_mode_equal o1 o2 = true <-> option_Forall2 mode_eqv o1 o2)
  /\ Equivalence (option_Forall2 mode_eqv)
  /\ (forall m1 m2 a, drm_mode_equal (Some m1) (Some m2) = true ->
      let p1 := drm_mode_set_crtcinfo m1 a in
      let p2 := drm_mode_set_crtcinfo m2 a in
      v_vec p1 = v_vec p2 /\ h_vec p1 = h_vec p2
      /\ crtc_vblank_start p1 = crtc_vblank_start p2
      /\ crtc_vblank_end p1 = crtc_vblank_end p2
      /\ crtc_hblank_start p1 = crtc_hblank_start p2
      /\ crtc_hblank_end p1 = crtc_hblank_end p2).
Proof.
  split; [|split].
  - intros [m1|] [m2|].
    + rewrite mode_equal_iff. split; [by constructor|by inversion 1].
    + split; [done|by inversion 1].
    + split; [done|by inversion 1].
    + split; [by constructor|done].
  - apply _.
  - intros m1 m2 a (Ht & _ & Hf & _)%mode_equal_iff. by apply set_crtcinfo_proper.
Qed.

(** Pixels per field or frame and the pixel rate of a mode. *)
Definition refresh_num (m : drm_display_mode) : Z :=
  clock m * (if truthy (flags m .& DRM_MODE_FLAG_INTERLACE) then 2 else 1).
Definition refresh_den (m : drm_display_mode) : Z :=
  htotal m * vtotal m * (if truthy (flags m .& DRM_MODE_FLAG_DBLSCAN) then 2 else 1)
  * Z.max 1 (vscan m).

(** For a typed mode with a clock below 2^20 kHz and fewer than 2^31
    pixels per frame, doublescan and vscan included, [drm_mode_vrefresh] is the
    refresh rate 1000 * clock / pixels (twice that for interlaced modes)
    rounded to the nearest integer, and 0 when a total is 0. *)
Theorem vrefresh_nearest m :
  mode_typed m -> 0 <= clock m < 2 ^ 20 -> refresh_den m < 2 ^ 31 ->
  let r := drm_mode_vrefresh m in
  if (htotal m =? 0) || (vtotal m =? 0) then r = 0
  else 0 < refresh_den m
       /\ - refresh_den m < 2 * (r * refresh_den m - 1000 * refresh_num m) <= refresh_den m.
Proof.
  intros [Hty _] Hc Hd r. unfold is_u16 in Hty. rewrite !Forall_cons in Hty. destruct_and!.
  subst r. unfold drm_mode_vrefresh. case_if; [done|]. zb.
  unfold refresh_den, refresh_num in *.
  set (i := if truthy (flags m .& DRM_MODE_FLAG_INTERLACE) then 2 else 1).
  set (d := if truthy (flags m .& DRM_MODE_FLAG_DBLSCAN) then 2 else 1) in *.
  assert (Hi : 1 <= i <= 2) by (subst i; case_if; lia).
  assert (Hd2 : 1 <= d <= 2) by (subst d; case_if; lia). clearbody i d.
  assert (Hv : (if vscan m >? 1 then u32 (d * vscan m) else d) = d * Z.max 1 (vscan m)).
  { case_if; zb; [rewrite u32_id by (unfold is_u32; nia)|]; f_equal; nia. }
  rewrite Hv. set (hv := htotal m * vtotal m) in *.
  set (s := Z.max 1 (vscan m)) in *.
  assert (Hhv : 0 < hv) by (subst hv; nia). assert (Hs : 1 <= s) by (subst s; lia).
  clearbody hv s. rewrite (s32_id hv) by (unfold is_s32; nia).
  replace (hv * (d * s)) with (hv * d * s) by lia.
  set (den := hv * d * s) in *. assert (Hden : 0 < den) by (subst den; nia). clearbody den.
  set (num := clock m * i). assert (Hn : 0 <= num < 2 ^ 21) by (subst num; nia). clearbody num.
  unfold U32_MAX.
  replace (_ || _)%bool with false by (symmetry; apply orb_false_iff; split; [apply Z.ltb_ge|rewrite Z.gtb_ltb; apply Z.ltb_ge]; lia).
  replace (_ || _)%bool with false by (symmetry; apply orb_false_iff; split; [apply Z.ltb_ge|rewrite Z.gtb_ltb; apply Z.ltb_ge]; lia).
  split; [done|].
  pose proof (Z.div_mod den 2 ltac:(lia)). pose proof (Z.mod_pos_bound den 2 ltac:(lia)).
  set (h := den / 2) in *.
  pose proof (Z.div_mod (num * 1000 + h) den ltac:(lia)).
  pose proof (Z.mod_pos_bound (num * 1000 + h) den ltac:(lia)).
  set (q := (num * 1000 + h) / den) in *.
  assert (0 <= q) by (apply Z.div_pos; lia).
  assert (q <= num * 1000 + h) by nia.
  assert (q < 2 ^ 31).
  { destruct (Z.eq_dec den 1) as [->|]; [lia|]. nia. }
  rewrite s32_id by (unfold is_s32; lia). nia.
Qed.

(** ** Witnesses: 800x480, 60 Hz *)

Definition mode_800x480 : drm_display_mode :=
  mkmode 33000 800 840 968 1056 0 480 490 492 525 0 0 64 0
    0 0 0 0 0 0 0 0 0 0 0 0 0 0.

Lemma mode_800x480_typed : mode_typed mode_800x480.
Proof. repeat constructor; cbn; lia. Qed.

Lemma set_crtcinfo_ordered_witness :
  let p := drm_mode_set_crtcinfo mode_800x480 CRTC_INTERLACE_HALVE_V in
  crtc_vblank_start p = 480 /\ crtc_vblank_end p = 525
  /\ crtc_vdisplay p <= crtc_vsync_start p <= crtc_vsync_end p.
Proof.
  split; [vm_compute; reflexivity|]. split; [vm_compute; reflexivity|].
  exact (proj1 (proj2 (proj2 (set_crtcinfo_ordered mode_800x480 CRTC_INTERLACE_HALVE_V
    mode_800x480_typed ltac:(vm_compute; reflexivity) ltac:(vm_compute; reflexivity))))).
Defined.

Lemma vrefresh_nearest_witness :
  drm_mode_vrefresh mode_800x480 = 60
  /\ - (1056 * 525) < 2 * (60 * (1056 * 525) - 1000 * 33000) <= 1056 * 525.
Proof.
  split; [vm_compute; reflexivity|].
  exact (proj2 (vrefresh_nearest mode_800x480 mode_800x480_typed
    ltac:(cbn; lia) ltac:(vm_compute; reflexivity))).
Defined.
