(* ===== verification/DrmBridge.v ===== *)
(** * DrmBridge: chains of display bridges (src/drm/drm_bridge.c)

    The bridges behind an encoder form a list, first the one next to the encoder.
    The helpers walk it one way or the other and call the bridges' hooks;
    negotiate the formats on the links between them, by backtracking from the last
    one; and propagate the bus flags.  A bridge of a chain is its position in it.
    The hooks are arguments; of a CRTC state they see the modes. *)

From S2P Require Export Uapi.

#[local] Open Scope Z_scope.

(** ** Data *)

Record drm_bus_cfg := mkbus { bc_format : media_bus_fmt; bc_flags : Z }.
Record drm_bridge_state := mkbrs { input_bus_cfg : drm_bus_cfg; output_bus_cfg : drm_bus_cfg }.

(** What a hook answers that lists formats: their number is 0, or it is not and the array
    is NULL, or an array. *)
Inductive bus_fmts : Set :=
| NoFmts | NullFmts | Fmts (f : media_bus_fmt) (l : list media_bus_fmt).

Definition fmts_of (l : list media_bus_fmt) : bus_fmts :=
  match l with [] => NoFmts | f :: l => Fmts f l end.
Definition fmts_list (r : bus_fmts) : list media_bus_fmt :=
  match r with Fmts f l => f :: l | _ => [] end.

(** Of [struct drm_bridge] and its [struct drm_bridge_funcs]: which hooks there are, and
    what those answer that do. *)
Record drm_bridge := mkbridge {
  br_pre_enable_prev_first : bool;
  br_atomic_reset : bool;
  br_mode_valid : option (drm_display_mode -> drm_mode_status);
  br_mode_set : bool;
  br_atomic_disable : bool; br_disable : bool;
  br_atomic_post_disable : bool; br_post_disable : bool;
  br_atomic_pre_enable : bool; br_pre_enable : bool;
  br_atomic_enable : bool; br_enable : bool;
  br_get_output_bus_fmts : option (drm_bridge_state -> bus_fmts);
  br_get_input_bus_fmts : option (drm_bridge_state -> media_bus_fmt -> bus_fmts);
  (** with the adjusted mode *)
  br_atomic_check : option (drm_bridge_state -> drm_display_mode -> Z * drm_bridge_state * drm_display_mode);
  (** of the mode and the adjusted mode *)
  br_mode_fixup : option (drm_display_mode -> drm_display_mode -> bool * drm_display_mode)
}.

Inductive bridge_hook : Set :=
| BridgeModeSet | BridgeAtomicDisable | BridgeDisable | BridgeAtomicPostDisable | BridgePostDisable
| BridgeAtomicPreEnable | BridgePreEnable | BridgeAtomicEnable | BridgeEnable.

#[export] Instance bridge_hook_eq_dec : EqDecision bridge_hook.
Proof. solve_decision. Defined.

Definition bridge_call : Set := nat * bridge_hook.

Definition drm_bridge_is_atomic (b : drm_bridge) : bool := br_atomic_reset b.

(** A bridge that forwards its output format (drm_atomic_helper.c). *)
Definition drm_atomic_helper_bridge_propagate_bus_fmt (kzalloc_ok : bool) (output_fmt : media_bus_fmt) : bus_fmts :=
  if kzalloc_ok then Fmts output_fmt [] else NoFmts.

(** The new states of the bridges that have one. *)
Abbreviation bridge_states := (gmap nat drm_bridge_state).

Definition set_formats (cur : nat) (inp out : media_bus_fmt) (st : bridge_states) : bridge_states :=
  alter (fun s => mkbrs (mkbus inp (bc_flags (input_bus_cfg s))) (mkbus out (bc_flags (output_bus_cfg s)))) cur st.

Section Chain.
Context (chain : list drm_bridge).

Abbreviation n := (length chain).

(** ** Calls along the chain *)

(** An atomic hook, or else the plain one. *)
Definition hook_call (atomic plain : drm_bridge -> bool) (ha hp : bridge_hook) (i : nat) : list bridge_call :=
  match chain !! i with
  | Some b => if atomic b then [(i, ha)] else if plain b then [(i, hp)] else []
  | None => []
  end.

Definition call_disable : nat -> list bridge_call :=
  hook_call br_atomic_disable br_disable BridgeAtomicDisable BridgeDisable.
Definition drm_atomic_bridge_call_post_disable : nat -> list bridge_call :=
  hook_call br_atomic_post_disable br_post_disable BridgeAtomicPostDisable BridgePostDisable.
Definition drm_atomic_bridge_call_pre_enable : nat -> list bridge_call :=
  hook_call br_atomic_pre_enable br_pre_enable BridgeAtomicPreEnable BridgePreEnable.
Definition call_enable : nat -> list bridge_call :=
  hook_call br_atomic_enable br_enable BridgeAtomicEnable BridgeEnable.

(** [drm_for_each_bridge_in_chain_from]: from a bridge to the last. *)
Definition chain_from (first : nat) : list nat := seq first (n - first).

Definition drm_bridge_chain_mode_valid (first : option nat) (mode : drm_display_mode) : drm_mode_status :=
  match first with
  | None => MODE_OK
  | Some first =>
      foldr (fun i rest =>
               match b ← chain !! i; br_mode_valid b with
               | None => rest
               | Some f => if decide (f mode = MODE_OK) then rest else f mode
               end) MODE_OK (chain_from first)
  end.

Definition drm_bridge_chain_mode_set (first : option nat) : list bridge_call :=
  match first with
  | None => []
  | Some first => chain_from first ≫= fun i =>
      match chain !! i with Some b => if br_mode_set b then [(i, BridgeModeSet)] else [] | None => [] end
  end.

Definition drm_atomic_bridge_chain_enable (first : option nat) : list bridge_call :=
  match first with None => [] | Some first => chain_from first ≫= call_enable end.

(** Backwards to [bridge]; [iter] is the one to call. *)
Fixpoint disable_loop (bridge iter : nat) : list bridge_call :=
  call_disable iter
  ++ (if Nat.eqb iter bridge then [] else match iter with O => [] | S iter => disable_loop bridge iter end).

Definition drm_atomic_bridge_chain_disable (bridge : option nat) : list bridge_call :=
  match bridge with None => [] | Some bridge => disable_loop bridge (n - 1) end.

Definition prev_first (i : nat) : bool :=
  match chain !! i with Some b => br_pre_enable_prev_first b | None => false end.

(** The last of the bridges from [next] on that want their predecessor enabled first;
    [m] bridges follow [next]. *)
Fixpoint post_limit (m next : nat) : nat :=
  if negb (prev_first next) then (next - 1)%nat
  else match m with O => next | S m => post_limit m (S next) end.

Fixpoint post_disable_loop (fuel bridge : nat) : list bridge_call :=
  match fuel with
  | O => []
  | S fuel =>
      if negb (Nat.ltb bridge n) then []
      else
        let limit := if negb (Nat.eqb bridge (n - 1)) && prev_first (S bridge)
                     then post_limit (n - 1 - S bridge) (S bridge) else bridge in
        (reverse (seq (S bridge) (limit - bridge)) ≫= drm_atomic_bridge_call_post_disable)
        ++ drm_atomic_bridge_call_post_disable bridge
        ++ post_disable_loop fuel (S limit)
  end.

Definition drm_atomic_bridge_chain_post_disable (bridge : option nat) : list bridge_call :=
  match bridge with None => [] | Some bridge => post_disable_loop n bridge end.

(** Backwards from [next], the first bridge that does not want its predecessor enabled
    first, or [bridge]. *)
Fixpoint pre_limit (bridge next : nat) : nat :=
  if Nat.eqb next bridge then bridge
  else if negb (prev_first next) then next
  else match next with O => bridge | S next => pre_limit bridge next end.

Fixpoint pre_enable_loop (fuel bridge iter : nat) : list bridge_call :=
  match fuel with
  | O => []
  | S fuel =>
      let limit := if prev_first iter then pre_limit bridge iter else iter in
      (seq limit (iter - limit) ≫= drm_atomic_bridge_call_pre_enable)
      ++ drm_atomic_bridge_call_pre_enable iter
      ++ (if Nat.eqb limit bridge then []
          else match limit with O => [] | S iter => pre_enable_loop fuel bridge iter end)
  end.

Definition drm_atomic_bridge_chain_pre_enable (bridge : option nat) : list bridge_call :=
  match bridge with None => [] | Some bridge => pre_enable_loop n bridge (n - 1) end.

(** ** Bus formats *)

(** One after the other until something else than -ENOTSUPP; the format tried last. *)
Definition try_fmts (try : media_bus_fmt -> bridge_states -> option (Z * bridge_states))
  : media_bus_fmt -> list media_bus_fmt -> bridge_states -> option (Z * media_bus_fmt * bridge_states) :=
  fix go f l st :=
    '(ret, st) ← try f st;
    match l with
    | g :: l => if ret =? - ENOTSUPP then go g l st else Some (ret, f, st)
    | [] => Some (ret, f, st)
    end.

(** [None] is the dereference of a NULL predecessor. *)
Fixpoint select_bus_fmt_recursive (first_bridge cur_bridge : nat) (out_bus_fmt : media_bus_fmt) (st : bridge_states)
  : option (Z * bridge_states) :=
  let prev f st := match cur_bridge with
                  | O => None
                  | S prev_bridge => select_bus_fmt_recursive first_bridge prev_bridge f st
                  end in
  b ← chain !! cur_bridge;
  match br_get_input_bus_fmts b with
  | None =>
      '(ret, st) ← (if Nat.eqb cur_bridge first_bridge then Some (0, st) else prev MEDIA_BUS_FMT_FIXED st);
      if truthy ret then Some (ret, st)
      else Some (0, set_formats cur_bridge MEDIA_BUS_FMT_FIXED out_bus_fmt st)
  | Some atomic_get_input_bus_fmts =>
      match st !! cur_bridge with
      | None => Some (- EINVAL, st)
      | Some cur_state =>
          match atomic_get_input_bus_fmts cur_state out_bus_fmt with
          | NoFmts => Some (- ENOTSUPP, st)
          | NullFmts => Some (- ENOMEM, st)
          | Fmts f l =>
              if Nat.eqb first_bridge cur_bridge then Some (0, set_formats cur_bridge f out_bus_fmt st)
              else
                '(ret, f, st) ← try_fmts prev f l st;
                if truthy ret then Some (ret, st) else Some (0, set_formats cur_bridge f out_bus_fmt st)
          end
      end
  end.

(** [bus_formats] is the connector's preferred format, if it has any. *)
Definition drm_atomic_bridge_chain_select_bus_fmts (kmalloc_ok : bool) (bus_formats : option media_bus_fmt)
    (bridge : nat) (st : bridge_states) : option (Z * bridge_states) :=
  last_bridge ← chain !! (n - 1)%nat;
  let select f l :=
    '(ret, _, st) ← try_fmts (fun f st => select_bus_fmt_recursive bridge (n - 1) f st) f l st; Some (ret, st) in
  match br_get_output_bus_fmts last_bridge with
  | Some atomic_get_output_bus_fmts =>
      match st !! (n - 1)%nat with
      | None => Some (- EINVAL, st)
      | Some last_bridge_state =>
          match atomic_get_output_bus_fmts last_bridge_state with
          | NoFmts => Some (- ENOTSUPP, st)
          | NullFmts => Some (- ENOMEM, st)
          | Fmts f l => select f l
          end
      end
  | None =>
      if negb kmalloc_ok then Some (- ENOMEM, st)
      else select (default MEDIA_BUS_FMT_FIXED bus_formats) []
  end.

(** ** The check *)

(** [bus_flags] are those of the connector. *)
Definition drm_atomic_bridge_propagate_bus_flags (bus_flags : Z) (bridge : nat) (st : bridge_states) : bridge_states :=
  let output_flags := if Nat.eqb (S bridge) n then bus_flags
                      else match st !! S bridge with Some s => bc_flags (input_bus_cfg s) | None => 0 end in
  alter (fun s => mkbrs (mkbus (bc_format (input_bus_cfg s)) output_flags)
                        (mkbus (bc_format (output_bus_cfg s)) output_flags)) bridge st.

Definition drm_atomic_bridge_check (mode : drm_display_mode) (bridge : nat) (st : bridge_states)
    (adjusted_mode : drm_display_mode) : Z * bridge_states * drm_display_mode :=
  match chain !! bridge with
  | None => (0, st, adjusted_mode)
  | Some b =>
      match br_atomic_check b, br_mode_fixup b with
      | Some atomic_check, _ =>
          match st !! bridge with
          | None => (- EINVAL, st, adjusted_mode)
          | Some bridge_state =>
              let '(ret, bridge_state, adjusted_mode) := atomic_check bridge_state adjusted_mode in
              (ret, <[bridge := bridge_state]> st, adjusted_mode)
          end
      | None, Some mode_fixup =>
          let '(ok, adjusted_mode) := mode_fixup mode adjusted_mode in
          (if ok then 0 else - EINVAL, st, adjusted_mode)
      | None, None => (0, st, adjusted_mode)
      end
  end.

Fixpoint chain_check_loop (bus_flags : Z) (mode : drm_display_mode) (bridge iter : nat) (st : bridge_states)
    (adjusted_mode : drm_display_mode) : Z * bridge_states * drm_display_mode :=
  let st := drm_atomic_bridge_propagate_bus_flags bus_flags iter st in
  let '(ret, st, adjusted_mode) := drm_atomic_bridge_check mode iter st adjusted_mode in
  if truthy ret then (ret, st, adjusted_mode)
  else if Nat.eqb iter bridge then (0, st, adjusted_mode)
  else match iter with
       | O => (0, st, adjusted_mode)
       | S iter => chain_check_loop bus_flags mode bridge iter st adjusted_mode
       end.

Definition drm_atomic_bridge_chain_check (kmalloc_ok : bool) (bus_formats : option media_bus_fmt) (bus_flags : Z)
    (mode : drm_display_mode) (bridge : option nat) (st : bridge_states) (adjusted_mode : drm_display_mode)
  : option (Z * bridge_states * drm_display_mode) :=
  match bridge with
  | None => Some (0, st, adjusted_mode)
  | Some bridge =>
      '(ret, st) ← drm_atomic_bridge_chain_select_bus_fmts kmalloc_ok bus_formats bridge st;
      if truthy ret then Some (ret, st, adjusted_mode)
      else Some (chain_check_loop bus_flags mode bridge (n - 1) st adjusted_mode)
  end.
End Chain.
(** ** The order of the calls *)

(** The chain falls into groups: a bridge that wants its predecessor enabled first is in
    the group of its predecessor. *)
Section Groups.
Context (flag : nat -> bool).

Definition into_group (i : nat) (gs : list (list nat)) : list (list nat) :=
  match gs with
  | (j :: g) :: gs' => if flag j then (i :: j :: g) :: gs' else [i] :: gs
  | _ => [[i]]
  end.

Fixpoint groups (l : list nat) : list (list nat) :=
  match l with [] => [] | i :: l => into_group i (groups l) end.

Lemma groups_head i l : exists g gs, groups (i :: l) = (i :: g) :: gs.
Proof using.
  cbn. destruct (groups l) as [|[|j g] gs]; [by exists [], []|by exists [], []|]. cbn.
  destruct (flag j); [by exists (j :: g), gs|by exists [], ((j :: g) :: gs)].
Qed.

Lemma groups_cons2 i j l g gs :
  groups (j :: l) = (j :: g) :: gs ->
  groups (i :: j :: l) = if flag j then (i :: j :: g) :: gs else [i] :: (j :: g) :: gs.
Proof using. intros E. change (groups (i :: j :: l)) with (into_group i (groups (j :: l))). by rewrite E. Qed.

Lemma groups_concat l : mjoin (groups l) = l.
Proof using.
  induction l as [|i [|j l] IH]; [done..|]. destruct (groups_head j l) as (g & gs & E).
  rewrite (groups_cons2 i j l g gs E). rewrite E in IH.
  destruct (flag j); exact (f_equal (cons i) IH).
Qed.

(** A bridge without the flag starts a group. *)
Lemma groups_app l1 j l2 : l1 = [] \/ flag j = false -> groups (l1 ++ j :: l2) = groups l1 ++ groups (j :: l2).
Proof using.
  intros [->|Hj]; [done|]. induction l1 as [|i l1 IH]; [done|]. destruct l1 as [|i' l1].
  - destruct (groups_head j l2) as (g & gs & E). cbn [app]. by rewrite (groups_cons2 i j l2 g gs E), E, Hj.
  - destruct (groups_head i' l1) as (g & gs & E). rewrite (groups_cons2 i i' l1 g gs E). rewrite E in IH.
    cbn [app] in IH |- *. rewrite (groups_cons2 i i' _ g _ IH). by destruct (flag i').
Qed.

(** Nothing but its head is without it. *)
Lemma groups_one i l : Forall (fun j => flag j = true) l -> groups (i :: l) = [i :: l].
Proof using.
  revert i. induction l as [|j l IH]; intros i; [done|]. intros [Hj Hl]%Forall_cons.
  by rewrite (groups_cons2 i j l _ _ (IH j Hl)), Hj.
Qed.

(** A bridge with the flag comes right after its predecessor. *)
Lemma groups_together l1 i j l2 : flag j = true ->
  exists gs g1 g2 gs', groups (l1 ++ i :: j :: l2) = gs ++ (g1 ++ i :: j :: g2) :: gs'.
Proof using.
  intros Hj. induction l1 as [|x l1 (gs & g1 & g2 & gs' & E)]; cbn [app].
  { destruct (groups_head j l2) as (g & gs & E). exists [], [], g, gs. by rewrite (groups_cons2 i j l2 g gs E), Hj. }
  destruct (l1 ++ i :: j :: l2) as [|y r] eqn:Er; [by destruct l1|]. destruct (groups_head y r) as (g & gr & Eg).
  rewrite (groups_cons2 x y r g gr Eg). rewrite Eg in E. destruct gs as [|g0 gs]; cbn [app] in E; injection E as E1 ->.
  - destruct (flag y); rewrite E1; [by exists [], (x :: g1), g2, gs'|by exists [[x]], g1, g2, gs'].
  - subst g0. destruct (flag y); [by exists ((x :: y :: g) :: gs), g1, g2, gs'|by exists ([x] :: (y :: g) :: gs), g1, g2, gs'].
Qed.
End Groups.

Section Order.
Context (chain : list drm_bridge).

Abbreviation n := (length chain).
Abbreviation flag := (prev_first chain).

(** The order in which bridges are enabled: group after group from the last, each in the
    order of the chain. *)
Definition pre_enable_order (bridge : nat) : list nat := mjoin (reverse (groups flag (chain_from chain bridge))).

(** [x] before [y]. *)
Definition before {A} (x y : A) (l : list A) : Prop := exists l1 l2 l3, l = l1 ++ x :: l2 ++ y :: l3.

Lemma post_limit_spec m : forall b next,
  (b < next)%nat -> (next + m = n - 1)%nat -> (forall j, (b < j < next)%nat -> flag j = true) ->
  let l := post_limit chain m next in
  (b <= l < n)%nat /\ (forall j, (b < j <= l)%nat -> flag j = true) /\ (S l = n \/ flag (S l) = false).
Proof using.
  induction m as [|m IH]; intros b next Hb Hm Hf; cbn [post_limit]; destruct (flag next) eqn:E; cbn [negb].
  - split_and!; [lia|lia| |left; lia]. intros j Hj. destruct (decide (j = next)) as [->|]; [done|]. apply Hf. lia.
  - split_and!; [lia|lia| |right; by replace (S (next - 1)) with next by lia]. intros j Hj. apply Hf. lia.
  - apply (IH b (S next)); [lia|lia|]. intros j Hj. destruct (decide (j = next)) as [->|]; [done|]. apply Hf. lia.
  - split_and!; [lia|lia| |right; by replace (S (next - 1)) with next by lia]. intros j Hj. apply Hf. lia.
Qed.

Lemma pre_limit_spec b next :
  (b <= next)%nat ->
  let l := pre_limit chain b next in
  (b <= l <= next)%nat /\ (forall j, (l < j <= next)%nat -> flag j = true) /\ (l = b \/ flag l = false).
Proof using.
  induction next as [|next IH]; intros Hb; cbn [pre_limit]; destruct (Nat.eqb_spec (S next) b) as [<-|Hn] || destruct (Nat.eqb_spec 0 b) as [<-|Hn].
  - split_and!; [lia|lia|lia|by left].
  - lia.
  - split_and!; [lia|lia|lia|by left].
  - destruct (flag (S next)) eqn:E; cbn [negb]; [|split_and!; [lia|lia|lia|by right]].
    destruct (IH ltac:(lia)) as (H1 & H2 & H3). split_and!; [lia|lia| |done].
    intros j Hj. destruct (decide (j = S next)) as [->|]; [done|]. apply H2. lia.
Qed.

Lemma post_disable_groups fuel : forall b, (n - b <= fuel)%nat ->
  post_disable_loop chain fuel b
  = mjoin (reverse <$> groups flag (chain_from chain b)) ≫= drm_atomic_bridge_call_post_disable chain.
Proof using.
  induction fuel as [|fuel IH]; intros b Hb.
  { unfold chain_from. by replace (n - b)%nat with O by lia. }
  cbn [post_disable_loop]. destruct (Nat.ltb_spec b n) as [Hlt|Hge]; cbn [negb].
  2:{ unfold chain_from. by replace (n - b)%nat with O by lia. }
  set (l := if _ && _ then post_limit _ _ _ else b).
  assert (Hl : (b <= l < n)%nat /\ (forall j, (b < j <= l)%nat -> flag j = true) /\ (S l = n \/ flag (S l) = false)).
  { unfold l. destruct (Nat.eqb_spec b (n - 1)) as [->|Hne]; cbn [negb andb]; [split_and!; [lia|lia|lia|left; lia]|].
    destruct (flag (S b)) eqn:E; [|split_and!; [lia|lia|lia|by right]].
    apply (post_limit_spec (n - 1 - S b) b (S b)); [lia|lia|lia]. }
  clearbody l. destruct Hl as (H1 & H2 & H3).
  assert (Hg : groups flag (chain_from chain b) = (b :: seq (S b) (l - b)) :: groups flag (chain_from chain (S l))).
  { unfold chain_from. replace (n - b)%nat with (S (l - b) + (n - S l))%nat by lia. rewrite seq_app. cbn [seq].
    replace (b + S (l - b))%nat with (S l) by lia.
    assert (Ho : groups flag (b :: seq (S b) (l - b)) = [b :: seq (S b) (l - b)]).
    { apply groups_one, Forall_forall. intros j Hj%elem_of_seq. apply H2. lia. }
    destruct (n - S l)%nat as [|m] eqn:Em; [cbn [seq]; by rewrite app_nil_r, Ho|]. cbn [seq].
    rewrite groups_app; [by rewrite Ho|]. right. by destruct H3; [lia|]. }
  rewrite Hg. cbn [fmap list_fmap mjoin list_join]. rewrite reverse_cons, !bind_app. cbn [mbind list_bind].
  rewrite app_nil_r, <- !app_assoc. do 2 f_equal. rewrite IH by lia. done.
Qed.

Lemma pre_enable_groups fuel : forall b iter, (b <= iter)%nat -> (iter < fuel)%nat ->
  pre_enable_loop chain fuel b iter
  = mjoin (reverse (groups flag (seq b (S iter - b)))) ≫= drm_atomic_bridge_call_pre_enable chain.
Proof using.
  induction fuel as [|fuel IH]; intros b iter Hb Hi; [lia|]. cbn [pre_enable_loop].
  set (l := if flag iter then pre_limit chain b iter else iter).
  assert (Hl : (b <= l <= iter)%nat /\ (forall j, (l < j <= iter)%nat -> flag j = true) /\ (l = b \/ flag l = false)).
  { unfold l. destruct (flag iter) eqn:E; [by apply pre_limit_spec|]. split_and!; [lia|lia|lia|by right]. }
  clearbody l. destruct Hl as (H1 & H2 & H3).
  assert (Ho : groups flag (seq l (S iter - l)) = [seq l (S iter - l)]).
  { replace (S iter - l)%nat with (S (iter - l)) by lia. cbn [seq]. apply groups_one, Forall_forall.
    intros j Hj%elem_of_seq. apply H2. lia. }
  assert (Hg : groups flag (seq b (S iter - b)) = groups flag (seq b (l - b)) ++ [seq l (S iter - l)]).
  { replace (S iter - b)%nat with ((l - b) + (S iter - l))%nat by lia. rewrite seq_app.
    replace (b + (l - b))%nat with l by lia. rewrite <- Ho. replace (S iter - l)%nat with (S (iter - l)) by lia.
    cbn [seq]. apply groups_app. destruct H3 as [->|]; [left|by right]. by rewrite Nat.sub_diag. }
  rewrite Hg, reverse_app. cbn [reverse]. change (reverse [?x]) with [x]. cbn [app mjoin list_join]. rewrite bind_app.
  replace (S iter - l)%nat with ((iter - l) + 1)%nat by lia. rewrite seq_app, bind_app. cbn [seq mbind list_bind].
  replace (l + (iter - l))%nat with iter by lia. rewrite app_nil_r, <- app_assoc. do 2 f_equal.
  destruct (Nat.eqb_spec l b) as [->|Hne]; [by rewrite Nat.sub_diag|]. destruct l as [|l]; [lia|].
  rewrite IH by lia. done.
Qed.

Lemma chain_from_perm b : pre_enable_order b ≡ₚ chain_from chain b.
Proof using.
  unfold pre_enable_order. rewrite reverse_Permutation. by rewrite groups_concat.
Qed.

Lemma post_order_reverse (gs : list (list nat)) : mjoin (reverse <$> gs) = reverse (mjoin (reverse gs)).
Proof using.
  induction gs as [|g gs IH]; [done|]. rewrite fmap_cons, reverse_cons, join_app, reverse_app. cbn [mjoin list_join].
  rewrite app_nil_r. f_equal. exact IH.
Qed.

Lemma pre_enable_adjacent b i :
  (b <= i)%nat -> (S i < n)%nat ->
  if flag (S i) then before i (S i) (pre_enable_order b) else before (S i) i (pre_enable_order b).
Proof using.
  intros Hb Hn. unfold pre_enable_order, chain_from.
  replace (n - b)%nat with ((i - b) + S (S (n - S (S i))))%nat by lia. rewrite seq_app. cbn [seq].
  replace (b + (i - b))%nat with i by lia. destruct (flag (S i)) eqn:E.
  - destruct (groups_together flag (seq b (i - b)) i (S i) (seq (S (S i)) (n - S (S i))) E) as (gs & g1 & g2 & gs' & ->).
    rewrite reverse_app, reverse_cons, !join_app. cbn [mjoin list_join]. rewrite app_nil_r, <- !app_assoc.
    rewrite (app_assoc (mjoin (reverse gs'))). eexists _, [], _. reflexivity.
  - change (i :: S i :: ?l) with ([i] ++ S i :: l). rewrite app_assoc, groups_app by (by right).
    rewrite reverse_app, join_app.
    assert (Hin : S i ∈ mjoin (reverse (groups flag (S i :: seq (S (S i)) (n - S (S i))))))
      by (rewrite reverse_Permutation, groups_concat; left).
    assert (Hin' : i ∈ mjoin (reverse (groups flag (seq b (i - b) ++ [i]))))
      by (rewrite reverse_Permutation, groups_concat, elem_of_app; right; left).
    apply list_elem_of_split in Hin as (l1 & l2 & ->). apply list_elem_of_split in Hin' as (l3 & l4 & ->).
    exists l1, (l2 ++ l3), l4. rewrite <- !app_assoc. done.
Qed.
End Order.

(** C20: the two loops that obey the flag [pre_enable_prev_first] call each bridge from the
    given one on exactly once, and each undoes the order of the other: the bridges are
    cleaned up ([post_disable]) in the reverse of the order in which they are prepared
    ([pre_enable]).  Of two neighbours in the chain the one further from the encoder is
    prepared first, unless it has the flag: then it is prepared after its predecessor. *)
Theorem bridge_chain_order chain bridge :
  (bridge < length chain)%nat ->
  let order := pre_enable_order chain bridge in
  drm_atomic_bridge_chain_pre_enable chain (Some bridge) = order ≫= drm_atomic_bridge_call_pre_enable chain
  /\ drm_atomic_bridge_chain_post_disable chain (Some bridge)
     = reverse order ≫= drm_atomic_bridge_call_post_disable chain
  /\ order ≡ₚ chain_from chain bridge
  /\ (forall i, (bridge <= i)%nat -> (S i < length chain)%nat ->
        if prev_first chain (S i) then before i (S i) order else before (S i) i order).
Proof.
  intros Hb. cbv zeta. split_and!.
  - cbn [drm_atomic_bridge_chain_pre_enable]. rewrite pre_enable_groups by lia. unfold pre_enable_order, chain_from.
    by replace (S (length chain - 1)) with (length chain) by lia.
  - cbn [drm_atomic_bridge_chain_post_disable]. rewrite post_disable_groups by lia. by rewrite post_order_reverse.
  - apply chain_from_perm.
  - intros i. apply pre_enable_adjacent.
Qed.

(** ** Negotiation *)

Section Negotiation.
Context (chain : list drm_bridge) (first : nat).

Abbreviation n := (length chain).

(** The input formats that a bridge offers for an output format, in the order in which they
    are tried; the first bridge is not asked for more than one. *)
Definition inputs (st : bridge_states) (cur : nat) (out : media_bus_fmt) : list media_bus_fmt :=
  match br_get_input_bus_fmts <$> chain !! cur, st !! cur with
  | Some None, _ => [MEDIA_BUS_FMT_FIXED]
  | Some (Some h), Some s =>
      let l := fmts_list (h s out) in if Nat.eqb cur first then take 1 l else l
  | _, _ => []
  end.

(** The ways to choose the formats of the bridges up to [cur], each with its input and its
    output, in order of preference. *)
Fixpoint negotiations (st : bridge_states) (cur : nat) (out : media_bus_fmt)
  : list (list (media_bus_fmt * media_bus_fmt)) :=
  inputs st cur out ≫= fun f =>
    if Nat.eqb cur first then [[(f, out)]]
    else match cur with
         | O => []
         | S prev => (fun l => l ++ [(f, out)]) <$> negotiations st prev f
         end.

Definition outputs (bus_formats : option media_bus_fmt) (st : bridge_states) : list media_bus_fmt :=
  match br_get_output_bus_fmts <$> chain !! (n - 1)%nat, st !! (n - 1)%nat with
  | Some None, _ => [default MEDIA_BUS_FMT_FIXED bus_formats]
  | Some (Some h), Some s => fmts_list (h s)
  | _, _ => []
  end.

(** Formats chosen for the bridges from [i] on. *)
Fixpoint choose (i : nat) (l : list (media_bus_fmt * media_bus_fmt)) (st : bridge_states) : bridge_states :=
  match l with
  | [] => st
  | (f, out) :: l => choose (S i) l (set_formats i f out st)
  end.

(** Bridges that negotiate have a state, and no allocation fails. *)
Record negotiable (st : bridge_states) : Prop := {
  ng_input i b h : chain !! i = Some b -> br_get_input_bus_fmts b = Some h ->
    exists s, st !! i = Some s /\ forall out, h s out <> NullFmts;
  ng_output b h : chain !! (n - 1)%nat = Some b -> br_get_output_bus_fmts b = Some h ->
    exists s, st !! (n - 1)%nat = Some s /\ h s <> NullFmts
}.

Lemma choose_snoc l : forall i f out st,
  choose i (l ++ [(f, out)]) st = set_formats (i + length l) f out (choose i l st).
Proof using.
  induction l as [|[f' out'] l IH]; intros i f out st; cbn.
  - by rewrite Nat.add_0_r.
  - rewrite IH. by rewrite Nat.add_succ_r.
Qed.

(** The search over a list, of tries that change nothing when they find nothing. *)
Lemma try_fmts_first {X} (try : media_bus_fmt -> bridge_states -> option (Z * bridge_states))
    (N : media_bus_fmt -> list X) (A : X -> bridge_states) st :
  (forall f, try f st = Some (match N f with [] => (- ENOTSUPP, st) | x :: _ => (0, A x) end)) ->
  forall l f, exists g, try_fmts try f l st
  = Some (match (f :: l) ≫= (fun h => pair h <$> N h) with
          | [] => (- ENOTSUPP, g, st)
          | (h, x) :: _ => (0, h, A x)
          end).
Proof using.
  intros Ht. induction l as [|g l IH]; intros f; cbn [try_fmts mbind option_bind]; rewrite Ht; cbn [mbind list_bind].
  - exists f. by destruct (N f).
  - destruct (N f) as [|x xs]; [|by exists f]. cbn [fmap list_fmap app]. destruct (IH g) as [g' E]. exists g'. exact E.
Qed.

Lemma negotiations_first st out : negotiations st first out = (fun f => [(f, out)]) <$> inputs st first out.
Proof using.
  assert (E : forall l : list media_bus_fmt, l ≫= (fun f => [[(f, out)]]) = (fun f => [(f, out)]) <$> l)
    by (intros l; induction l as [|f l IH]; [done|]; cbn; by f_equal).
  assert (H : forall cur, cur = first -> negotiations st cur out = (fun f => [(f, out)]) <$> inputs st cur out).
  { intros [|cur] Hc; cbn [negotiations]; rewrite Hc, Nat.eqb_refl; apply E. }
  by apply H.
Qed.

Lemma negotiations_next st cur out : S cur <> first ->
  negotiations st (S cur) out
  = (fun x => x.2 ++ [(x.1, out)]) <$> (inputs st (S cur) out ≫= fun f => pair f <$> negotiations st cur f).
Proof using.
  intros Hne. cbn [negotiations]. apply Nat.eqb_neq in Hne. rewrite Hne. clear Hne.
  induction (inputs st (S cur) out) as [|f l IH]; [done|]. rewrite !bind_cons, fmap_app, IH. f_equal.
  rewrite <- list_fmap_compose. done.
Qed.

(** Induction from the first bridge on. *)
Lemma from_first (P : nat -> Prop) :
  P first -> (forall cur, (first <= cur)%nat -> P cur -> P (S cur)) -> forall cur, (first <= cur)%nat -> P cur.
Proof using. intros H0 HS cur Hle. induction Hle as [|cur Hle IH]; auto. Qed.

Lemma in_next st cur out l : S cur <> first ->
  l ∈ negotiations st (S cur) out
  <-> exists f l', l = l' ++ [(f, out)] /\ f ∈ inputs st (S cur) out /\ l' ∈ negotiations st cur f.
Proof using.
  intros Hne. rewrite negotiations_next by done. rewrite list_elem_of_fmap. setoid_rewrite list_elem_of_bind.
  setoid_rewrite list_elem_of_fmap. split.
  - intros (x & -> & f & (l' & -> & Hl) & Hf). by exists f, l'.
  - intros (f & l' & -> & Hf & Hl). exists (f, l'). split; [done|]. exists f. split; [|done]. by exists l'.
Qed.

Lemma negotiations_length st : forall cur, (first <= cur)%nat -> forall out l,
  l ∈ negotiations st cur out -> length l = S (cur - first).
Proof using.
  apply (from_first (fun cur => forall out l, l ∈ negotiations st cur out -> length l = S (cur - first))).
  - intros out l. rewrite negotiations_first. intros (f & -> & _)%list_elem_of_fmap. cbn. lia.
  - intros cur Hle IH out l. rewrite in_next by lia. intros (f & l' & -> & _ & Hl).
    rewrite length_app, (IH _ _ Hl). cbn. lia.
Qed.

(** What a bridge answers, as [inputs] sees it. *)
Lemma inputs_cases st cur : negotiable st -> (cur < n)%nat -> forall out,
  exists b, chain !! cur = Some b
  /\ match br_get_input_bus_fmts b with
     | None => inputs st cur out = [MEDIA_BUS_FMT_FIXED]
     | Some h => exists s, st !! cur = Some s
         /\ match h s out with
            | NoFmts => inputs st cur out = []
            | NullFmts => False
            | Fmts f l => inputs st cur out = if Nat.eqb cur first then [f] else f :: l
            end
     end.
Proof using.
  intros Hn Hlt out. destruct (lookup_lt_is_Some_2 chain cur Hlt) as [b Hb]. exists b. split; [done|].
  unfold inputs. rewrite Hb. cbn [fmap option_fmap option_map]. destruct (br_get_input_bus_fmts b) as [h|] eqn:Eh; [|done].
  destruct (ng_input _ Hn _ b h Hb Eh) as (s & Hs & Hnull). exists s. rewrite Hs. split; [done|].
  specialize (Hnull out). destruct (h s out); [by destruct (Nat.eqb _ _)|done|by destruct (Nat.eqb _ _)].
Qed.

Lemma select_exact st : negotiable st -> forall cur, (first <= cur)%nat -> (cur < n)%nat -> forall out,
  select_bus_fmt_recursive chain first cur out st
  = Some (match negotiations st cur out with [] => (- ENOTSUPP, st) | l :: _ => (0, choose first l st) end).
Proof using.
  intros Hn. apply (from_first (fun cur => (cur < n)%nat -> forall out, _ = _)).
  - intros Hlt out. rewrite negotiations_first.
    destruct (inputs_cases st first Hn Hlt out) as (b & Hb & Hi). rewrite Nat.eqb_refl in Hi.
    assert (H : forall cur, cur = first ->
      select_bus_fmt_recursive chain first cur out st
      = Some (match (fun f => [(f, out)]) <$> inputs st first out with
              | [] => (- ENOTSUPP, st) | l :: _ => (0, choose first l st) end)); [|by apply H].
    intros [|cur] Hc; cbn [select_bus_fmt_recursive]; rewrite Hc, Hb, !Nat.eqb_refl; cbn [mbind option_bind];
      (destruct (br_get_input_bus_fmts b) as [h|];
       [destruct Hi as (s & -> & Hi); destruct (h s out); [by rewrite Hi|done|by rewrite Hi]|by rewrite Hi]).
  - intros cur Hle IH Hlt out. rewrite negotiations_next by lia.
    destruct (inputs_cases st (S cur) Hn Hlt out) as (b & Hb & Hi).
    assert (Hne : Nat.eqb (S cur) first = false) by (apply Nat.eqb_neq; lia).
    assert (Hgo : forall f l, exists g,
      try_fmts (fun f st => select_bus_fmt_recursive chain first cur f st) f l st
      = Some (match (f :: l) ≫= (fun h => pair h <$> negotiations st cur h) with
              | [] => (- ENOTSUPP, g, st) | (h, x) :: _ => (0, h, choose first x st) end))
      by (intros f l; apply (try_fmts_first _ (negotiations st cur) (fun x => choose first x st)); intros g; apply IH; lia).
    assert (Hset : forall g x rest f l, (f :: l) ≫= (fun h => pair h <$> negotiations st cur h) = (g, x) :: rest ->
      set_formats (S cur) g out (choose first x st) = choose first (x ++ [(g, out)]) st).
    { intros g x rest f l E. rewrite choose_snoc. f_equal. rewrite (negotiations_length st cur Hle g); [lia|].
      assert (Hin : (g, x) ∈ (f :: l) ≫= (fun h => pair h <$> negotiations st cur h)) by (rewrite E; left).
      apply list_elem_of_bind in Hin as (h & (y & [= -> ->] & Hy)%list_elem_of_fmap & _). exact Hy. }
    cbn [select_bus_fmt_recursive]. rewrite Hb. cbn [mbind option_bind]. rewrite (Nat.eqb_sym first), Hne in *.
    destruct (br_get_input_bus_fmts b) as [h|].
    + destruct Hi as (s & -> & Hi). destruct (h s out) as [| |f l]; [by rewrite Hi|done|]. rewrite Hi.
      destruct (Hgo f l) as [g ->]. cbn [option_bind].
      destruct ((f :: l) ≫= _) as [|[h' x] rest] eqn:E; [done|]. cbn. by rewrite (Hset _ _ _ _ _ E).
    + rewrite Hi. rewrite (IH ltac:(lia)). cbn [option_bind].
      pose proof (fun g x rest => Hset g x rest MEDIA_BUS_FMT_FIXED []) as Hset'. cbn [mbind list_bind] in *. rewrite app_nil_r in *.
      destruct (negotiations st cur MEDIA_BUS_FMT_FIXED) as [|x rest] eqn:E; [done|]. cbn.
      by rewrite (Hset' _ _ _ eq_refl).
Qed.

(** What the choice promises: every bridge accepts its input format for its output format,
    and neighbours agree on the link between them. *)
Record agreed (st : bridge_states) (cur : nat) (out : media_bus_fmt) (l : list (media_bus_fmt * media_bus_fmt)) : Prop := {
  ag_length : length l = S (cur - first);
  ag_inputs k x : l !! k = Some x -> x.1 ∈ inputs st (first + k) x.2;
  ag_links k x y : l !! k = Some x -> l !! S k = Some y -> x.2 = y.1;
  ag_last : snd <$> last l = Some out
}.

Lemma in_negotiations st : forall cur, (first <= cur)%nat -> forall out l,
  l ∈ negotiations st cur out <-> agreed st cur out l.
Proof using.
  apply (from_first (fun cur => forall out l, l ∈ negotiations st cur out <-> agreed st cur out l)).
  - intros out l. rewrite negotiations_first, list_elem_of_fmap. split.
    + intros (f & -> & Hf). split; [cbn; lia| | |done].
      * intros [|k] x; [|by destruct k]. intros [= <-]. by rewrite Nat.add_0_r.
      * intros [|k] x y; [done|by destruct k].
    + intros [Hlen Hi _ Hlast]. rewrite Nat.sub_diag in Hlen. destruct l as [|[f o] [|]]; try done.
      injection Hlast as ->. exists f. split; [done|]. specialize (Hi O (f, out) eq_refl). by rewrite Nat.add_0_r in Hi.
  - intros cur Hle IH out l. rewrite in_next by lia. setoid_rewrite IH. split.
    + intros (f & l' & -> & Hf & [Hlen Hi Hk Hlast]). split.
      * rewrite length_app, Hlen. cbn. lia.
      * intros k x [Hx|[Hge Hx]]%lookup_app_Some; [by apply Hi|].
        apply list_lookup_singleton_Some in Hx as [Hk0 <-]. by replace (first + k)%nat with (S cur) by lia.
      * intros k x y Hx Hy. apply lookup_app_Some in Hy as [Hy|[Hge Hy]].
        { apply (Hk k); [|done]. rewrite lookup_app_l in Hx; [done|]. apply lookup_lt_Some in Hy. lia. }
        apply list_lookup_singleton_Some in Hy as [Hk0 <-]. rewrite lookup_app_l in Hx by lia.
        rewrite last_lookup in Hlast. replace (pred (length l')) with k in Hlast by lia. rewrite Hx in Hlast. by injection Hlast.
      * by rewrite last_snoc.
    + intros [Hlen Hi Hk Hlast]. destruct l as [|x l _] using rev_ind; [done|]. rewrite last_snoc in Hlast. injection Hlast as Ho.
      rewrite length_app in Hlen. cbn in Hlen. exists x.1, l. split_and!.
      * destruct x. cbn in *. by subst.
      * rewrite <- Ho. replace (S cur) with (first + length l)%nat by lia. apply Hi. by rewrite lookup_app_r, Nat.sub_diag by lia.
      * split; [lia| | |].
        -- intros k y Hy. apply Hi. by apply lookup_app_l_Some.
        -- intros k y z Hy Hz. apply (Hk k); by apply lookup_app_l_Some.
        -- destruct l as [|y l _] using rev_ind; [cbn in Hlen; lia|]. rewrite last_snoc. cbn. f_equal.
           apply (Hk (length l)); [rewrite <- app_assoc; by rewrite lookup_app_r, Nat.sub_diag by lia|].
           rewrite lookup_app_r by (rewrite length_app; cbn; lia). rewrite length_app. cbn.
           by replace (S (length l) - (length l + 1))%nat with O by lia.
Qed.

Lemma select_bus_fmts_exact bus_formats st : negotiable st -> (first < n)%nat ->
  drm_atomic_bridge_chain_select_bus_fmts chain true bus_formats first st
  = Some (match outputs bus_formats st ≫= negotiations st (n - 1) with
          | [] => (- ENOTSUPP, st)
          | l :: _ => (0, choose first l st)
          end).
Proof using.
  intros Hn Hlt. unfold drm_atomic_bridge_chain_select_bus_fmts, outputs.
  destruct (lookup_lt_is_Some_2 chain (n - 1)) as [b Hb]; [lia|]. rewrite Hb. cbn [mbind option_bind fmap option_fmap option_map negb].
  assert (Hs : forall f l,
    ('(ret, _, st') ← try_fmts (fun f st => select_bus_fmt_recursive chain first (n - 1) f st) f l st; Some (ret, st'))
    = Some (match (f :: l) ≫= negotiations st (n - 1) with [] => (- ENOTSUPP, st) | l :: _ => (0, choose first l st) end)).
  { assert (E : forall L, L ≫= negotiations st (n - 1) = snd <$> (L ≫= fun h => pair h <$> negotiations st (n - 1) h)).
    { intros L. induction L as [|h L IH]; [done|]. rewrite !bind_cons, fmap_app, IH. f_equal. rewrite <- list_fmap_compose.
      symmetry. apply list_fmap_id. }
    intros f l. destruct (try_fmts_first (fun f st => select_bus_fmt_recursive chain first (n - 1) f st)
      (negotiations st (n - 1)) (fun x => choose first x st) st (fun f => select_exact st Hn (n - 1) ltac:(lia) ltac:(lia) f) l f) as [g ->].
    rewrite E. by destruct ((f :: l) ≫= (fun h => pair h <$> negotiations st (n - 1) h)) as [|[h x] rest]. }
  destruct (br_get_output_bus_fmts b) as [h|] eqn:Eh; [|apply Hs].
  destruct (ng_output _ Hn b h Hb Eh) as (s & -> & Hnull). destruct (h s) as [| |f l]; [done|done|]. apply Hs.
Qed.
End Negotiation.

(** C19: the negotiation of the bus formats equals the exhaustive search.  For bridges that
    keep a state where they negotiate, and if no allocation fails, the backtracking
    finds the first, in the bridges' order of preference, of all the ways to choose the
    formats, and stores exactly it; and if there is none it answers -ENOTSUPP and changes
    nothing.  The ways to choose are those where the last output format is offered,
    every bridge accepts its input for its output format, and neighbours agree. *)
Theorem bus_fmts_negotiated chain bridge bus_formats st :
  (bridge < length chain)%nat -> negotiable chain st ->
  let choices := outputs chain bus_formats st ≫= negotiations chain bridge st (length chain - 1) in
  drm_atomic_bridge_chain_select_bus_fmts chain true bus_formats bridge st
  = Some (match choices with [] => (- ENOTSUPP, st) | l :: _ => (0, choose bridge l st) end)
  /\ (forall l, l ∈ choices
      <-> exists out, out ∈ outputs chain bus_formats st /\ agreed chain bridge st (length chain - 1) out l).
Proof.
  intros Hlt Hn. cbv zeta. split; [by apply select_bus_fmts_exact|]. intros l. rewrite list_elem_of_bind.
  setoid_rewrite (in_negotiations chain bridge st (length chain - 1) ltac:(lia)). naive_solver.
Qed.

(** ** The check of a chain *)

Section Checked.
Context (chain : list drm_bridge).

(** Formats and flags are stored in states that are there; a check stores its own. *)
Lemma set_formats_dom i f o (st : bridge_states) j : is_Some (set_formats i f o st !! j) <-> is_Some (st !! j).
Proof using. unfold set_formats. rewrite lookup_alter_is_Some. done. Qed.

Context {A : Type} (T : drm_display_mode -> A).

(** The hooks that may change the adjusted mode leave [T] of it. *)
Definition checks_keep : Prop := forall i b, chain !! i = Some b ->
  (forall f s m s' m', br_atomic_check b = Some f -> f s m = (0, s', m') -> T m' = T m)
  /\ (forall f mode m m', br_mode_fixup b = Some f -> f mode m = (true, m') -> T m' = T m).

Lemma bridge_check_keep mode i st m st' m' : checks_keep ->
  drm_atomic_bridge_check chain mode i st m = (0, st', m') -> T m' = T m.
Proof using.
  intros K. unfold drm_atomic_bridge_check. destruct (chain !! i) as [b|] eqn:Eb; [|by intros [= <- <-]].
  destruct (K i b Eb) as [K1 K2]. destruct (br_atomic_check b) as [f|] eqn:Ef.
  - destruct (st !! i) as [s|]; [|done]. destruct (f s m) as [[ret s'] m1] eqn:E. intros [= -> _ ->]. by eapply K1.
  - destruct (br_mode_fixup b) as [f|] eqn:Ef'; [|by intros [= <- <-]].
    destruct (f mode m) as [[] m1] eqn:E; [|done]. intros [= _ ->]. by eapply K2.
Qed.

Lemma check_loop_keep flags mode bridge : checks_keep -> forall iter st m st' m',
  chain_check_loop chain flags mode bridge iter st m = (0, st', m') -> T m' = T m.
Proof using.
  intros K. induction iter as [|iter IH]; intros st m st' m'; cbn [chain_check_loop];
    destruct (drm_atomic_bridge_check _ _ _ _ _) as [[ret st1] m1] eqn:E;
    (destruct (truthy ret) eqn:Er; [by intros [= -> _ _]|]);
    apply not_truthy in Er as ->;
    apply bridge_check_keep in E; try done.
  - destruct (Nat.eqb _ _); intros [= _ <-]; done.
  - destruct (Nat.eqb _ _); [by intros [= _ <-]|]. intros H. rewrite <- E. by eapply IH.
Qed.

Lemma chain_check_keep ok fmts flags mode bridge st m st' m' : checks_keep ->
  drm_atomic_bridge_chain_check chain ok fmts flags mode bridge st m = Some (0, st', m') -> T m' = T m.
Proof using.
  intros K. unfold drm_atomic_bridge_chain_check. destruct bridge as [bridge|]; [|by intros [= _ <-]].
  destruct (drm_atomic_bridge_chain_select_bus_fmts _ _ _ _ _) as [[ret st1]|]; [|done]. cbn.
  destruct (truthy ret) eqn:Er; [intros [= -> _ _]; done|]. intros [= H]. by eapply check_loop_keep.
Qed.
End Checked.

(** A check that leaves the state alone has accepted it. *)
Lemma bridge_check_accepted chain mode i b f st m st' m' :
  chain !! i = Some b -> br_atomic_check b = Some f -> (forall s m, (f s m).1.2 = s) ->
  drm_atomic_bridge_check chain mode i st m = (0, st', m') ->
  exists s m0, st' !! i = Some s /\ (f s m0).1.1 = 0.
Proof.
  intros Hb Hf Hs. unfold drm_atomic_bridge_check. rewrite Hb, Hf. destruct (st !! i) as [s|]; [|done].
  specialize (Hs s m). destruct (f s m) as [[ret s1] m1] eqn:E. cbn in Hs. subst s1. intros [= -> <- _].
  exists s, m. by rewrite lookup_insert_eq, E.
Qed.

(** The first bridge is checked last. *)
Lemma check_loop_accepted chain flags mode bridge b f :
  chain !! bridge = Some b -> br_atomic_check b = Some f -> (forall s m, (f s m).1.2 = s) ->
  forall iter st m st' m', (bridge <= iter)%nat ->
  chain_check_loop chain flags mode bridge iter st m = (0, st', m') ->
  exists s m0, st' !! bridge = Some s /\ (f s m0).1.1 = 0.
Proof.
  intros Hb Hf Hs. induction iter as [|iter IH]; intros st m st' m' Hle; cbn [chain_check_loop];
    destruct (drm_atomic_bridge_check _ _ _ _ _) as [[ret st1] m1] eqn:E;
    (destruct (truthy ret) eqn:Er; [by intros [= -> _ _]|]); apply not_truthy in Er as ->.
  - replace bridge with O in * by lia. cbn [Nat.eqb]. intros [= <- _]. by eapply bridge_check_accepted.
  - destruct (Nat.eqb_spec (S iter) bridge) as [<-|Hne]; [intros [= <- _]; by eapply bridge_check_accepted|].
    apply IH. lia.
Qed.

(** ** What a walk calls, and what an accepted check leaves *)

Section Walks.
Context (chain : list drm_bridge).

Lemma hook_call_in a p ha hp i x : x ∈ hook_call chain a p ha hp i -> x.1 = i /\ (x.2 = ha \/ x.2 = hp).
Proof using.
  unfold hook_call. destruct (chain !! i) as [b|]; [|by intros ?%not_elem_of_nil].
  destruct (a b); [intros ->%list_elem_of_singleton; by auto|].
  destruct (p b); [intros ->%list_elem_of_singleton; by auto|by intros ?%not_elem_of_nil].
Qed.

Lemma enable_calls x :
  x ∈ drm_atomic_bridge_chain_enable chain (Some 0%nat) -> x.2 = BridgeAtomicEnable \/ x.2 = BridgeEnable.
Proof using. cbn. intros (i & Hx & _)%list_elem_of_bind. by apply hook_call_in in Hx as [_ ?]. Qed.

Lemma enable_first b :
  chain !! 0%nat = Some b -> br_atomic_enable b = true ->
  (0%nat, BridgeAtomicEnable) ∈ drm_atomic_bridge_chain_enable chain (Some 0%nat).
Proof using.
  intros Hb Ha. cbn. apply list_elem_of_bind. exists 0%nat. split.
  - unfold call_enable, hook_call. rewrite Hb, Ha. left.
  - unfold chain_from. apply lookup_lt_Some in Hb. apply elem_of_seq. lia.
Qed.

Lemma disable_loop_calls bridge iter x :
  x ∈ disable_loop chain bridge iter -> x.2 = BridgeAtomicDisable \/ x.2 = BridgeDisable.
Proof using.
  induction iter as [|iter IH]; cbn [disable_loop]; (intros [Hx|Hx]%elem_of_app; [by apply hook_call_in in Hx as [_ ?]|]).
  - by destruct (Nat.eqb _ _); apply not_elem_of_nil in Hx.
  - destruct (Nat.eqb _ _); [by apply not_elem_of_nil in Hx|by apply IH].
Qed.

Lemma disable_loop_first b iter :
  chain !! 0%nat = Some b -> br_atomic_disable b = true -> (0%nat, BridgeAtomicDisable) ∈ disable_loop chain 0 iter.
Proof using.
  intros Hb Ha. induction iter as [|iter IH]; cbn [disable_loop]; apply elem_of_app.
  - left. unfold call_disable, hook_call. rewrite Hb, Ha. left.
  - by right.
Qed.

Lemma post_disable_calls bridge x :
  x ∈ drm_atomic_bridge_chain_post_disable chain bridge -> x.2 = BridgeAtomicPostDisable \/ x.2 = BridgePostDisable.
Proof using.
  destruct bridge as [bridge|]; [cbn|by intros ?%not_elem_of_nil]. generalize (length chain) at 1. intros fuel.
  revert bridge. induction fuel as [|fuel IH]; intros bridge; cbn [post_disable_loop]; [by intros ?%not_elem_of_nil|].
  destruct (negb _); [by intros ?%not_elem_of_nil|]. cbv zeta. rewrite !elem_of_app. intros [(i & Hx & _)%list_elem_of_bind|[Hx|Hx]].
  - by apply hook_call_in in Hx as [_ ?].
  - by apply hook_call_in in Hx as [_ ?].
  - by eapply IH.
Qed.

Lemma pre_enable_calls bridge x :
  x ∈ drm_atomic_bridge_chain_pre_enable chain bridge -> x.2 = BridgeAtomicPreEnable \/ x.2 = BridgePreEnable.
Proof using.
  destruct bridge as [bridge|]; [cbn|by intros ?%not_elem_of_nil]. generalize (length chain) at 1, (length chain - 1)%nat.
  intros fuel. induction fuel as [|fuel IH]; intros iter; cbn [pre_enable_loop]; [by intros ?%not_elem_of_nil|].
  cbv zeta. rewrite !elem_of_app. intros [(i & Hx & _)%list_elem_of_bind|[Hx|Hx]].
  - by apply hook_call_in in Hx as [_ ?].
  - by apply hook_call_in in Hx as [_ ?].
  - destruct (Nat.eqb _ _); [by apply not_elem_of_nil in Hx|]. set (l := if prev_first chain iter then _ else iter) in Hx. clearbody l.
    destruct l; [by apply not_elem_of_nil in Hx|by eapply IH].
Qed.

(** A negotiation down to the first bridge of the chain never lacks a predecessor, and does
    not succeed if that bridge takes part without a state. *)
Definition keeps_first (st : bridge_states) (r : option (Z * bridge_states)) : Prop :=
  exists ret st', r = Some (ret, st') /\ (is_Some (st' !! 0%nat) <-> is_Some (st !! 0%nat))
  /\ (ret = 0 -> is_Some (st' !! 0%nat)).

Lemma try_fmts_keep try l : (forall f st, keeps_first st (try f st)) -> forall f st,
  exists ret g st', try_fmts try f l st = Some (ret, g, st') /\ (is_Some (st' !! 0%nat) <-> is_Some (st !! 0%nat))
  /\ (ret = 0 -> is_Some (st' !! 0%nat)).
Proof using.
  intros Ht. induction l as [|g l IH]; intros f st; cbn; destruct (Ht f st) as (ret & st1 & -> & H1 & H2); cbn.
  - by exists ret, f, st1.
  - destruct (ret =? - ENOTSUPP); [|by exists ret, f, st1].
    destruct (IH g st1) as (ret' & g' & st2 & H3 & H4 & H5). exists ret', g', st2.
    split_and!; [exact H3| |done]. rewrite H4. exact H1.
Qed.

Context (b0 : drm_bridge) (Hb0 : chain !! 0%nat = Some b0) (Hin : is_Some (br_get_input_bus_fmts b0)).

Lemma select_keeps cur : (cur < length chain)%nat -> forall out st,
  keeps_first st (select_bus_fmt_recursive chain 0 cur out st).
Proof using Hb0 Hin.
  assert (Hset : forall i f o (st : bridge_states), is_Some (set_formats i f o st !! 0%nat) <-> is_Some (st !! 0%nat))
    by (intros; apply set_formats_dom).
  induction cur as [|cur IH]; intros Hlt out st; cbn [select_bus_fmt_recursive].
  - rewrite Hb0. cbn [mbind option_bind]. destruct Hin as [h ->]. destruct (st !! 0%nat) as [s|] eqn:Es.
    + destruct (h s out) as [| |f l]; [by eexists _, st; split_and!|by eexists _, st; split_and!|].
      eexists 0, _. split; [reflexivity|]. rewrite Hset, Es. split; [done|by eexists].
    + by eexists _, st; split_and!.
  - destruct (lookup_lt_is_Some_2 chain (S cur) Hlt) as [b ->]. cbn [mbind option_bind].
    assert (IH' : forall f st, keeps_first st (select_bus_fmt_recursive chain 0 cur f st)) by (intros; apply IH; lia).
    clear IH. destruct (br_get_input_bus_fmts b) as [h|].
    + destruct (st !! S cur) as [s|]; [|by eexists _, st; split_and!].
      destruct (h s out) as [| |f l]; [by eexists _, st; split_and!|by eexists _, st; split_and!|]. cbn [Nat.eqb].
      match goal with |- context [try_fmts ?try] => destruct (try_fmts_keep try l IH' f st) as (ret & g & st' & -> & H1 & H2) end. cbn.
      destruct (truthy ret) eqn:Er; [by exists ret, st'|]. eexists 0, _. rewrite Hset.
      split_and!; [done|done|]. apply not_truthy in Er. auto.
    + cbn [Nat.eqb]. destruct (IH' MEDIA_BUS_FMT_FIXED st) as (ret & st' & -> & H1 & H2). cbn.
      destruct (truthy ret) eqn:Er; [by exists ret, st'|]. eexists 0, _. rewrite Hset.
      split_and!; [done|done|]. apply not_truthy in Er. auto.
Qed.

Lemma check_loop_state flags mode iter : forall st m,
  is_Some (st !! 0%nat) -> is_Some ((chain_check_loop chain flags mode 0 iter st m).1.2 !! 0%nat).
Proof using.
  assert (Hp : forall i st, is_Some (st !! 0%nat) -> is_Some (drm_atomic_bridge_propagate_bus_flags chain flags i st !! 0%nat))
    by (intros; unfold drm_atomic_bridge_propagate_bus_flags; by apply lookup_alter_is_Some).
  assert (Hc : forall i st m, is_Some (st !! 0%nat) -> is_Some ((drm_atomic_bridge_check chain mode i st m).1.2 !! 0%nat)).
  { intros i st m Hs. unfold drm_atomic_bridge_check. destruct (chain !! i) as [b|]; [|done].
    destruct (br_atomic_check b) as [f|]; [|destruct (br_mode_fixup b) as [f|]; [by destruct (f mode m)|done]].
    destruct (st !! i) as [s|]; [|done]. destruct (f s m) as [[r s'] m']. cbn. rewrite lookup_insert_is_Some'. by right. }
  induction iter as [|iter IH]; intros st m Hs; cbn [chain_check_loop];
    match goal with |- context [drm_atomic_bridge_check _ _ ?i ?t m] => specialize (Hc i t m (Hp i st Hs)) end;
    destruct (drm_atomic_bridge_check _ _ _ _ _) as [[ret st1] m1]; cbn in Hc;
    (destruct (truthy ret); [done|]); cbn [Nat.eqb]; [done|by apply IH].
Qed.

(** So the first bridge has a state once a check has passed. *)
Lemma chain_check_first bus_formats flags mode (alloc : bool) st m :
  exists ret st' m', drm_atomic_bridge_chain_check chain alloc bus_formats flags mode (Some 0%nat) st m = Some (ret, st', m')
  /\ (ret = 0 -> is_Some (st' !! 0%nat)).
Proof using Hb0 Hin.
  assert (Hn : (0 < length chain)%nat) by (by eapply lookup_lt_Some).
  assert (Hk : keeps_first st (drm_atomic_bridge_chain_select_bus_fmts chain alloc bus_formats 0 st)).
  { unfold drm_atomic_bridge_chain_select_bus_fmts. destruct (lookup_lt_is_Some_2 chain (length chain - 1)) as [b ->]; [lia|].
    cbn [mbind option_bind]. cbv zeta.
    assert (Hs : forall f l, keeps_first st ('(ret, _, st') ← try_fmts (fun f st =>
              select_bus_fmt_recursive chain 0 (length chain - 1) f st) f l st; Some (ret, st'))).
    { intros f l. destruct (try_fmts_keep (fun f st => select_bus_fmt_recursive chain 0 (length chain - 1) f st) l
        (fun f st => select_keeps (length chain - 1) ltac:(lia) f st) f st) as (ret & g & st' & -> & H1 & H2). by exists ret, st'. }
    destruct (br_get_output_bus_fmts b) as [h|].
    - destruct (st !! _) as [s|]; [|by eexists _, st; split_and!].
      destruct (h s) as [| |f l]; [by eexists _, st; split_and!|by eexists _, st; split_and!|apply Hs].
    - destruct alloc; [apply Hs|by eexists _, st; split_and!]. }
  destruct Hk as (ret & st1 & E & _ & H2). unfold drm_atomic_bridge_chain_check. rewrite E. cbn [mbind option_bind].
  destruct (truthy ret) eqn:Er; [exists ret, st1, m; split; [done|intros ->; done]|]. apply not_truthy in Er.
  pose proof (check_loop_state flags mode (length chain - 1) st1 m (H2 Er)) as Hs.
  destruct (chain_check_loop _ _ _ _ _ _ _) as [[r st2] m2]. by exists r, st2, m2.
Qed.
End Walks.

(** ** Attachment *)

(** A bridge: whether it has a device, its encoder, its references; and the chains of the
    encoders. *)
Record bridge_obj := mkbo { bo_dev : bool; bo_encoder : option nat; bo_refs : Z }.
Record bridge_world := mkbw { bw_obj : nat -> bridge_obj; bw_chain : nat -> list nat }.

Definition upd_obj (b : nat) (f : bridge_obj -> bridge_obj) (w : bridge_world) : bridge_world :=
  {| w with bw_obj := update b (f (bw_obj w b)) (bw_obj w) |}.
Definition upd_chain (e : nat) (f : list nat -> list nat) (w : bridge_world) : bridge_world :=
  {| w with bw_chain := update e (f (bw_chain w e)) (bw_chain w) |}.

Definition drm_bridge_get (b : nat) : bridge_world -> bridge_world :=
  upd_obj b (fun x => {| x with bo_refs := bo_refs x + 1 |}).
Definition drm_bridge_put (b : nat) : bridge_world -> bridge_world :=
  upd_obj b (fun x => {| x with bo_refs := bo_refs x - 1 |}).

(** [list_add] behind an entry. *)
Fixpoint list_add_after (p b : nat) (l : list nat) : list nat :=
  match l with
  | [] => []
  | x :: l => if Nat.eqb x p then x :: b :: l else x :: list_add_after p b l
  end.

Definition list_del (b : nat) (l : list nat) : list nat := filter (fun x => x <> b) l.

(** [attach] is the bridge's own hook.  The warnings and the registration of the private
    state are left out. *)
Definition drm_bridge_attach (attach : option (bridge_world -> Z * bridge_world)) (encoder bridge previous : option nat)
    (w : bridge_world) : Z * bridge_world :=
  match encoder, bridge with
  | Some e, Some b =>
      let w := drm_bridge_get b w in
      if match previous with
         | Some p => negb (bo_dev (bw_obj w p)) || bool_decide (bo_encoder (bw_obj w p) <> Some e)
         | None => false
         end
      then (- EINVAL, drm_bridge_put b w)
      else if bo_dev (bw_obj w b) then (- EBUSY, drm_bridge_put b w)
      else
        let w := upd_obj b (fun x => {| x with bo_dev := true; bo_encoder := Some e |}) w in
        let w := upd_chain e (fun l => match previous with Some p => list_add_after p b l | None => b :: l end) w in
        let '(ret, w) := match attach with Some f => f w | None => (0, w) end in
        if ret <? 0 then
          let w := upd_obj b (fun x => {| x with bo_dev := false; bo_encoder := None |}) w in
          (ret, drm_bridge_put b (upd_chain e (list_del b) w))
        else (0, w)
  | _, _ => (- EINVAL, w)
  end.

(** [detach] is the bridge's own hook; the encoder stays. *)
Definition drm_bridge_detach (detach : bridge_world -> bridge_world) (bridge : option nat) (w : bridge_world) : bridge_world :=
  match bridge with
  | None => w
  | Some b =>
      if negb (bo_dev (bw_obj w b)) then w
      else
        let w := detach w in
        let w := match bo_encoder (bw_obj w b) with Some e => upd_chain e (list_del b) w | None => w end in
        drm_bridge_put b (upd_obj b (fun x => {| x with bo_dev := false |}) w)
  end.

(** Drivers attach the bridge behind theirs in their own hook; the last one answers [last]. *)
Fixpoint attach_all (e : nat) (last : Z) (previous : option nat) (l : list nat) (w : bridge_world) : Z * bridge_world :=
  match l with
  | [] => (last, w)
  | b :: l => drm_bridge_attach (Some (attach_all e last (Some b) l)) (Some e) (Some b) previous w
  end.

(** The same for the bridges: the encoder of a detached bridge means nothing. *)
Definition same_obj (x y : bridge_obj) : Prop :=
  bo_dev x = bo_dev y /\ bo_refs x = bo_refs y /\ (bo_dev x = true -> bo_encoder x = bo_encoder y).
Definition same_world (w w' : bridge_world) : Prop :=
  (forall b, same_obj (bw_obj w b) (bw_obj w' b)) /\ (forall e, bw_chain w e = bw_chain w' e).

#[export] Instance same_world_equiv : Equivalence same_world.
Proof.
  split.
  - intros w. by repeat split.
  - intros w w' [H1 H2]. split; [|done]. intros b. destruct (H1 b) as (E1 & E2 & E3). split_and!; [done|done|].
    rewrite <- E1. intros H. symmetry. auto.
  - intros w1 w2 w3 [H1 H2] [H3 H4]. split; [|intros e; by rewrite H2].
    intros b. destruct (H1 b) as (E1 & E2 & E3), (H3 b) as (F1 & F2 & F3). split_and!; [congruence|congruence|].
    intros H. rewrite E3 by done. apply F3. congruence.
Qed.

(** A chain holds the bridges that belong to its encoder. *)
Record chains_ok (w : bridge_world) : Prop := {
  co_nodup e : NoDup (bw_chain w e);
  co_in e b : b ∈ bw_chain w e <-> bo_dev (bw_obj w b) = true /\ bo_encoder (bw_obj w b) = Some e
}.

(** With the bridges [l] attached to [e], from the place on that [pre] ends at. *)
Definition attached (e : nat) (pre l post : list nat) (w w' : bridge_world) : Prop :=
  bw_chain w' e = pre ++ l ++ post
  /\ (forall b, b ∈ l -> bw_obj w' b = mkbo true (Some e) (bo_refs (bw_obj w b) + 1))
  /\ (forall b, b ∉ l -> bw_obj w' b = bw_obj w b)
  /\ (forall e', e' <> e -> bw_chain w' e' = bw_chain w e').

Section Attach.
Context (e : nat) (last : Z).

(** Where [previous] is: the bridge that [pre] ends with, attached to [e]. *)
Definition at_end (previous : option nat) (pre : list nat) (w : bridge_world) : Prop :=
  match previous with
  | None => pre = []
  | Some p => exists pre', pre = (pre' ++ [p]) /\ (p ∉ pre') /\ bo_dev (bw_obj w p) = true /\ bo_encoder (bw_obj w p) = Some e
  end.

Lemma add_after p b pre post : p ∉ pre -> list_add_after p b (pre ++ p :: post) = pre ++ p :: b :: post.
Proof using.
  induction pre as [|x pre IH]; cbn; [by rewrite Nat.eqb_refl|]. intros [Hx Hp]%not_elem_of_cons.
  rewrite (proj2 (Nat.eqb_neq _ _)) by done. by rewrite IH.
Qed.

Lemma list_del_absent b l : b ∉ l -> list_del b l = l.
Proof using.
  unfold list_del. induction l as [|x l IH]; [done|]. intros [Hx Hl]%not_elem_of_cons.
  by rewrite filter_cons_True, IH by (done || by intros ->).
Qed.

Lemma list_del_middle b pre post : b ∉ pre -> b ∉ post -> list_del b (pre ++ b :: post) = pre ++ post.
Proof using.
  intros H1 H2. unfold list_del. rewrite filter_app, filter_cons_False by (intros H; by apply H).
  change (list_del b pre ++ list_del b post = pre ++ post). by rewrite !list_del_absent.
Qed.

(** What a driver's hook comes after, and what undoes it. *)
Definition undo (b : nat) (w : bridge_world) : bridge_world :=
  drm_bridge_put b (upd_chain e (list_del b) (upd_obj b (fun x => {| x with bo_dev := false; bo_encoder := None |}) w)).

Lemma attach_step f b previous pre post w :
  chains_ok w -> bw_chain w e = pre ++ post -> at_end previous pre w ->
  let r := drm_bridge_attach (Some f) (Some e) (Some b) previous w in
  if bo_dev (bw_obj w b) then exists w', r = (- EBUSY, w') /\ same_world w' w
  else exists w1, attached e pre [b] post w w1
       /\ r = let '(ret, w2) := f w1 in if ret <? 0 then (ret, undo b w2) else (0, w2).
Proof using.
  intros C Hc Hat. cbv zeta. unfold drm_bridge_attach.
  assert (Hg : forall x, bo_dev (bw_obj (drm_bridge_get b w) x) = bo_dev (bw_obj w x)
                         /\ bo_encoder (bw_obj (drm_bridge_get b w) x) = bo_encoder (bw_obj w x)).
  { intros x. cbn. unfold update. by destruct (decide (x = b)) as [->|]. }
  assert (Hp : match previous with
               | Some p => negb (bo_dev (bw_obj (drm_bridge_get b w) p))
                           || bool_decide (bo_encoder (bw_obj (drm_bridge_get b w) p) <> Some e)
               | None => false end = false).
  { destruct previous as [p|]; [|done]. destruct Hat as (pre' & _ & _ & H1 & H2).
    destruct (Hg p) as [-> ->]. rewrite H1, H2. by rewrite bool_decide_eq_false_2 by (intros H; by apply H). }
  rewrite Hp, (proj1 (Hg b)). destruct (bo_dev (bw_obj w b)) eqn:Ed.
  - eexists. split; [reflexivity|]. split; [|done]. intros x. cbn. unfold update.
    destruct (decide (x = b)) as [->|]; [|by repeat split]. rewrite decide_True by done.
    split_and!; cbn; [done|lia|done].
  - set (w1 := upd_chain e _ _). exists w1. split; [|done]. unfold w1, upd_chain, upd_obj. cbn.
    split_and!; cbn; unfold update.
    + rewrite decide_True, Hc by done. destruct previous as [p|]; [|by rewrite Hat].
      destruct Hat as (pre' & -> & Hn & _). rewrite <- !app_assoc. by apply add_after.
    + intros x ->%list_elem_of_singleton. by rewrite !decide_True by done.
    + intros x Hx%not_elem_of_cons. destruct Hx as [Hx _]. by rewrite !decide_False by done.
    + intros e' He. by rewrite decide_False.
Qed.

Lemma undo_same b pre post w w1 w2 :
  bo_dev (bw_obj w b) = false -> b ∉ pre -> b ∉ post -> bw_chain w e = pre ++ post ->
  attached e pre [b] post w w1 -> same_world w2 w1 -> same_world (undo b w2) w.
Proof using.
  intros Hd H1 H2 Hc (A1 & A2 & A3 & A4) [S1 S2]. split.
  - intros x. cbn. unfold update. specialize (S1 x). destruct (decide (x = b)) as [->|Hx].
    + rewrite !decide_True by done. rewrite (A2 b) in S1 by left. destruct S1 as (_ & S1 & _). cbn in S1.
      split_and!; cbn; [by rewrite Hd|lia|done].
    + rewrite <- (A3 x); [done|]. by intros ->%list_elem_of_singleton.
  - intros e'. cbn. unfold update. destruct (decide (e' = e)) as [->|He].
    + rewrite S2, A1, Hc. by apply list_del_middle.
    + rewrite S2. by apply A4.
Qed.

Lemma attached_ok b pre post w w1 :
  chains_ok w -> bw_chain w e = pre ++ post -> bo_dev (bw_obj w b) = false ->
  attached e pre [b] post w w1 -> chains_ok w1 /\ b ∉ pre ++ post.
Proof using.
  intros C Hc Hd (A1 & A2 & A3 & A4).
  assert (Hn : b ∉ pre ++ post) by (rewrite <- Hc; intros [H _]%(co_in _ C); congruence). split; [|done].
  assert (Hp : pre ++ [b] ++ post ≡ₚ b :: bw_chain w e) by (rewrite Hc; cbn; by rewrite Permutation_middle).
  assert (Ho : forall x, x <> b -> bw_obj w1 x = bw_obj w x)
    by (intros x Hx; apply A3; by intros ->%list_elem_of_singleton).
  assert (Hb : bw_obj w1 b = mkbo true (Some e) (bo_refs (bw_obj w b) + 1)) by (apply A2; left).
  split; intros e'; destruct (decide (e' = e)) as [->|He].
  - rewrite A1, Hp. apply NoDup_cons. split; [by rewrite Hc|apply (co_nodup _ C)].
  - rewrite A4 by done. apply (co_nodup _ C).
  - intros x. rewrite A1, Hp, elem_of_cons. destruct (decide (x = b)) as [->|Hx].
    + rewrite Hb. split; [done|by left].
    + rewrite Ho by done. rewrite <- (co_in _ C). naive_solver.
  - intros x. rewrite A4, (co_in _ C) by done. destruct (decide (x = b)) as [->|Hx]; [|by rewrite Ho].
    rewrite Hb, Hd. cbn. split; [by intros [? _]|]. intros [_ [= <-]]. done.
Qed.

Lemma attach_all_spec l : forall previous pre post w,
  chains_ok w -> bw_chain w e = pre ++ post -> at_end previous pre w ->
  exists ret w', attach_all e last previous l w = (ret, w')
  /\ (0 <= ret <-> 0 <= last /\ NoDup l /\ forall b, b ∈ l -> bo_dev (bw_obj w b) = false)
  /\ (0 <= ret -> attached e pre l post w w')
  /\ (ret < 0 -> same_world w' w)
  /\ (l <> [] -> ret <= 0).
Proof using.
  induction l as [|b l IH]; intros previous pre post w C Hc Hat; cbn [attach_all].
  { exists last, w. split; [done|split; [|split; [|by split]]].
    - split; [|by intros [? _]]. intros H. split_and!; [done|constructor|]. by intros b ?%not_elem_of_nil.
    - intros _. split_and!; [done| |done|done]. by intros b ?%not_elem_of_nil. }
  pose proof (attach_step (attach_all e last (Some b) l) b previous pre post w C Hc Hat) as Hs. cbv zeta in Hs.
  destruct (bo_dev (bw_obj w b)) eqn:Ed.
  { destruct Hs as (w' & -> & Hw). exists (- EBUSY), w'. split; [done|split; [|by split]].
    split; [done|]. intros (_ & _ & H). specialize (H b ltac:(left)). congruence. }
  destruct Hs as (w1 & A & ->). destruct (attached_ok b pre post w w1 C Hc Ed A) as [C1 Hn].
  apply not_elem_of_app in Hn as [Hpre Hpost]. pose proof A as (A1 & A2 & A3 & A4).
  assert (Hb : bw_obj w1 b = mkbo true (Some e) (bo_refs (bw_obj w b) + 1)) by (apply A2; left).
  assert (Ho : forall x, x <> b -> bw_obj w1 x = bw_obj w x)
    by (intros x Hx; apply A3; by intros ->%list_elem_of_singleton).
  destruct (IH (Some b) (pre ++ [b]) post w1 C1) as (ret & w2 & E & H1 & H2 & H3 & _).
  { rewrite A1. by rewrite <- app_assoc. }
  { exists pre. by rewrite Hb. }
  rewrite E. assert (Hiff : 0 <= ret <-> 0 <= last /\ NoDup (b :: l) /\ forall x, x ∈ b :: l -> bo_dev (bw_obj w x) = false).
  { rewrite H1, NoDup_cons. split.
    - intros (Hl & Hd & Hx). assert (Hbl : b ∉ l) by (intros Hin; specialize (Hx b Hin); by rewrite Hb in Hx).
      split_and!; [done|done|done|]. intros x [->|Hin]%elem_of_cons; [done|]. rewrite <- Ho by (by intros ->). by apply Hx.
    - intros (Hl & [Hbl Hd] & Hx). split_and!; [done|done|]. intros x Hin. rewrite Ho by (by intros ->). apply Hx. by right. }
  cbv beta iota. destruct (Z.ltb_spec ret 0) as [Hlt|Hge].
  - exists ret, (undo b w2). split; [done|split; [done|split; [lia|split; [|lia]]]]. intros _.
    exact (undo_same b pre post w w1 w2 Ed Hpre Hpost Hc A (H3 Hlt)).
  - exists 0, w2. split; [done|split; [by rewrite <- Hiff|split; [|by split]]]. intros _.
    destruct (H2 Hge) as (B1 & B2 & B3 & B4). destruct (proj1 Hiff Hge) as (_ & [Hbl Hd]%NoDup_cons & _).
    split_and!.
    + rewrite B1. by rewrite <- app_assoc.
    + intros x [->|Hin]%elem_of_cons; [by rewrite B3, Hb|]. rewrite B2, Ho by (done || by intros ->). done.
    + intros x [Hx Hin]%not_elem_of_cons. by rewrite B3, Ho.
    + intros e' He. by rewrite B4, A4.
Qed.
End Attach.

(** C21: attaching a chain of bridges to an encoder - each driver attaches the bridge behind
    its own in its hook, as [vs_bridge_attach] does - is all or nothing.  It succeeds exactly
    if the last hook succeeds, the bridges are distinct and none is attached yet; then
    they are the encoder's first bridges, in order, each with one reference more,
    and all else is as it was.  Otherwise it answers an error, and chains, devices and
    references are as before. *)
Theorem bridge_attach_all_or_nothing e last l w :
  chains_ok w -> l <> [] ->
  exists ret w', attach_all e last None l w = (ret, w')
  /\ (ret = 0 <-> 0 <= last /\ NoDup l /\ forall b, b ∈ l -> bo_dev (bw_obj w b) = false)
  /\ (ret = 0 -> attached e [] l (bw_chain w e) w w')
  /\ (ret <> 0 -> ret < 0 /\ same_world w' w).
Proof.
  intros C Hl. destruct (attach_all_spec e last l None [] (bw_chain w e) w C eq_refl eq_refl) as (ret & w' & E & H1 & H2 & H3 & H4).
  specialize (H4 Hl). exists ret, w'. split; [done|split; [|split]].
  - rewrite <- H1. lia.
  - intros ->. by apply H2.
  - intros Hr. split; [lia|]. apply H3. lia.
Qed.

(** ** Examples *)

Definition plain_bridge (prev : bool) : drm_bridge :=
  mkbridge prev true None false true false true false true false true false None None None None.

(** The chain of the source's comments: B, D and E want their predecessor first. *)
Definition five_bridges : list drm_bridge := plain_bridge <$> [false; true; false; true; true].

Example documented_orders :
  fst <$> drm_atomic_bridge_chain_pre_enable five_bridges (Some 0%nat) = [2; 3; 4; 0; 1]%nat
  /\ fst <$> drm_atomic_bridge_chain_post_disable five_bridges (Some 0%nat) = [1; 0; 4; 3; 2]%nat.
Proof. vm_compute. split; reflexivity. Qed.

Lemma bridge_chain_order_witness :
  (0 < length five_bridges)%nat
  /\ drm_atomic_bridge_chain_pre_enable five_bridges (Some 0%nat)
     = pre_enable_order five_bridges 0 ≫= drm_atomic_bridge_call_pre_enable five_bridges.
Proof.
  assert (H : (0 < length five_bridges)%nat) by (cbn; lia).
  split; [exact H|]. exact (proj1 (bridge_chain_order five_bridges 0 H)).
Defined.

(** The last bridge offers two formats; the first can make only the second of them. *)
Definition fmt_state (f : media_bus_fmt) : drm_bridge_state := mkbrs (mkbus f 0) (mkbus f 0).
Definition picky_chain : list drm_bridge := [
  mkbridge false true None false true false false false false false true false
    None (Some (fun _ out => if decide (out = MEDIA_BUS_FMT_RGB565_1X16) then Fmts out [] else NoFmts)) None None;
  mkbridge false true None false true false false false false false true false
    (Some (fun _ => Fmts MEDIA_BUS_FMT_RGB888_1X24 [MEDIA_BUS_FMT_RGB565_1X16]))
    (Some (fun _ out => drm_atomic_helper_bridge_propagate_bus_fmt true out)) None None ].
Definition picky_states : bridge_states :=
  <[0%nat := fmt_state MEDIA_BUS_FMT_FIXED]> (<[1%nat := fmt_state MEDIA_BUS_FMT_FIXED]> ∅).

Lemma bus_fmts_negotiated_witness :
  (0 < length picky_chain)%nat /\ negotiable picky_chain picky_states
  /\ exists st, drm_atomic_bridge_chain_select_bus_fmts picky_chain true None 0 picky_states = Some (0, st)
     /\ st !! 0%nat = Some (fmt_state MEDIA_BUS_FMT_RGB565_1X16).
Proof.
  assert (Hl : (0 < length picky_chain)%nat) by (cbn; lia).
  assert (Hn : negotiable picky_chain picky_states).
  { split.
    - intros [|[|i]] b h; [| |done]; intros [= <-] [= <-]; (eexists; split; [reflexivity|]).
      + intros out. by case_decide.
      + done.
    - intros b h [= <-] [= <-]. eexists. by split. }
  split; [exact Hl|]. split; [exact Hn|]. rewrite (proj1 (bus_fmts_negotiated picky_chain 0 None picky_states Hl Hn)).
  eexists. split; [reflexivity|]. vm_compute. reflexivity.
Defined.

Definition loose_bridges : bridge_world := mkbw (fun _ => mkbo false None 1) (fun _ => []).

Lemma bridge_attach_all_or_nothing_witness :
  chains_ok loose_bridges
  /\ (exists w, attach_all 0 0 None [3; 5]%nat loose_bridges = (0, w) /\ bw_chain w 0 = [3; 5]%nat)
  /\ (exists ret w, attach_all 0 (- EPROBE_DEFER) None [3; 5]%nat loose_bridges = (ret, w) /\ same_world w loose_bridges).
Proof.
  assert (C : chains_ok loose_bridges).
  { split; [intros e; constructor|]. intros e b. cbn. split; [by intros ?%not_elem_of_nil|by intros [? _]]. }
  split; [exact C|split].
  - destruct (bridge_attach_all_or_nothing 0 0 [3; 5]%nat loose_bridges C) as (ret & w & E & H1 & H2 & _); [done|].
    assert (ret = 0) as ->.
    { apply H1. split; [lia|split; [apply (bool_decide_unpack _); vm_compute; exact I|done]]. }
    exists w. split; [done|]. destruct (H2 eq_refl) as (-> & _). done.
  - destruct (bridge_attach_all_or_nothing 0 (- EPROBE_DEFER) [3; 5]%nat loose_bridges C) as (ret & w & E & H1 & _ & H3); [done|].
    exists ret, w. split; [done|]. apply H3. intros Hr. destruct (proj1 H1 Hr) as (H & _). unfold EPROBE_DEFER in H. lia.
Defined.
