(* ===== verification/DrmPlaneCheck.v ===== *)
(** * DrmPlaneCheck: plane-state validation
      (src/drm/drm_atomic_helper.c, [drm_atomic_helper_check_plane_state])

    The check mutates the source and destination rectangles and the
    visibility of the plane state: it returns the error code with the state as
    it stands at that return. *)

From S2P Require Export Uapi DrmRect DrmModes.

(** The rectangle accessors of the plane header. *)
Class PlaneRectOps := {
  drm_plane_state_src : drm_plane_state -> drm_rect;
  drm_plane_state_dest : drm_plane_state -> drm_rect
}.

Class PlaneRectLaws `{!PlaneRectOps} : Prop := {
  drm_plane_state_src_eq s :
    drm_plane_state_src s
    = mkrect (s32 (src_x s)) (s32 (src_y s))
             (s32 (src_x s + src_w s)) (s32 (src_y s + src_h s));
  drm_plane_state_dest_eq s :
    drm_plane_state_dest s
    = mkrect (s32 (crtc_x s)) (s32 (crtc_y s))
             (s32 (crtc_x s + crtc_w s)) (s32 (crtc_y s + crtc_h s))
}.

#[export] Instance plane_rect_ops : PlaneRectOps | 10 := {
  drm_plane_state_src s :=
    mkrect (s32 (src_x s)) (s32 (src_y s))
           (s32 (src_x s + src_w s)) (s32 (src_y s + src_h s));
  drm_plane_state_dest s :=
    mkrect (s32 (crtc_x s)) (s32 (crtc_y s))
           (s32 (crtc_x s + crtc_w s)) (s32 (crtc_y s + crtc_h s))
}.

#[export] Instance plane_rect_laws : PlaneRectLaws | 10.
Proof. by split. Qed.

Section Check.
Context `{!RectOps} `{!PlaneRectOps}.

(** The clip: what the CRTC scans out, empty when it is off. *)
Definition crtc_rect (cs : drm_crtc_state) : drm_rect :=
  if enable cs then
    let '(hd, vd) := drm_mode_get_hv_timing (mode cs) in mkrect 0 0 hd vd
  else mkrect 0 0 0 0.

Definition drm_atomic_helper_check_plane_state
    (plane_state : drm_plane_state) (crtc_state : drm_crtc_state)
    (min_scale max_scale : Z) (can_position can_update_disabled : bool)
  : Z * drm_plane_state :=
  let src := drm_plane_state_src plane_state in
  let dst := drm_plane_state_dest plane_state in
  let st := {| plane_state with ps_src := src; ps_dst := dst |} in
  match ps_fb st with
  | None => (0, {| st with visible := false |})
  | Some fb =>
      match ps_crtc st with
      | None => (0, {| st with visible := false |})
      | Some _ =>
          if negb (enable crtc_state) && negb can_update_disabled then (- EINVAL, st)
          else
            let w := s32 (u32 (fb_width fb .<< 16)) in
            let h := s32 (u32 (fb_height fb .<< 16)) in
            let src := drm_rect_rotate src w h (rotation st) in
            let hscale := drm_rect_calc_hscale src dst min_scale max_scale in
            let vscale := drm_rect_calc_vscale src dst min_scale max_scale in
            if (hscale <? 0) || (vscale <? 0)
            then (- ERANGE, {| st with ps_src := src |})
            else
              let clip := crtc_rect crtc_state in
              let '(vis, src, dst) := drm_rect_clip_scaled src dst clip in
              let src := drm_rect_rotate_inv src w h (rotation st) in
              let st := {| st with ps_src := src; ps_dst := dst; visible := vis |} in
              if negb vis then (0, st)
              else if negb can_position && negb (drm_rect_equals dst clip)
              then (- EINVAL, st)
              else (0, st)
      end
  end.

End Check.

(** ** Facts *)

Section Facts.
Context `{!RectOps} `{!RectLaws} `{!PlaneRectOps} `{!PlaneRectLaws}.

(** A non-empty destination of moderate size, for the unscaled checks. *)
Definition dest_ok (s : drm_plane_state) : Prop :=
  - 2 ^ 28 <= crtc_x s <= 2 ^ 28 /\ - 2 ^ 28 <= crtc_y s <= 2 ^ 28
  /\ 0 < crtc_w s <= 2 ^ 28 /\ 0 < crtc_h s <= 2 ^ 28.

(** What [drm_atomic_plane_check] makes sure of before a driver's check runs
    (sizes below 2^31 and the far corner an [int]), and the one condition it
    does not make: the near corner is not within 2^16 of the most negative
    [int], where the subtractions of the clip would wrap. *)
Definition dest_fits (s : drm_plane_state) : Prop :=
  (0 <= crtc_w s <= 2 ^ 31 - 1 /\ crtc_x s <= 2 ^ 31 - 1 - crtc_w s)
  /\ (0 <= crtc_h s <= 2 ^ 31 - 1 /\ crtc_y s <= 2 ^ 31 - 1 - crtc_h s)
  /\ - 2 ^ 31 + 2 ^ 16 <= crtc_x s /\ - 2 ^ 31 + 2 ^ 16 <= crtc_y s.

Definition dest_of (s : drm_plane_state) : drm_rect :=
  mkrect (crtc_x s) (crtc_y s) (crtc_x s + crtc_w s) (crtc_y s + crtc_h s).

(** The check changes the two rectangles and the visibility only. *)
Lemma check_plane_state_frame s cs min max cp cud :
  let s' := snd (drm_atomic_helper_check_plane_state s cs min max cp cud) in
  crtc_x s' = crtc_x s /\ crtc_y s' = crtc_y s /\ crtc_w s' = crtc_w s /\ crtc_h s' = crtc_h s
  /\ ps_fb s' = ps_fb s /\ ps_crtc s' = ps_crtc s.
Proof.
  unfold drm_atomic_helper_check_plane_state. cbn.
  destruct (ps_fb s); [|done]. destruct (ps_crtc s); [|done].
  destruct (_ && _)%bool; [done|]. destruct (_ || _)%bool; [done|].
  destruct (drm_rect_clip_scaled _ _ _) as [[vis src] dst].
  destruct vis; cbn; [|done]. by destruct (_ && _)%bool.
Qed.

Lemma dest_of_eq s : dest_ok s -> drm_plane_state_dest s = dest_of s.
Proof.
  intros (?&?&?&?). rewrite drm_plane_state_dest_eq. unfold dest_of. f_equal; s32_simp; done.
Qed.

Lemma dest_fits_eq s : dest_fits s -> drm_plane_state_dest s = dest_of s.
Proof.
  intros (?&?&?&?). rewrite drm_plane_state_dest_eq. unfold dest_of. f_equal; s32_simp; done.
Qed.

(** The display rectangle is at the origin and has 16-bit sizes. *)
Lemma crtc_rect_u16 cs :
  mode_typed (mode cs) ->
  x1 (crtc_rect cs) = 0 /\ y1 (crtc_rect cs) = 0
  /\ is_u16 (x2 (crtc_rect cs)) /\ is_u16 (y2 (crtc_rect cs)).
Proof.
  intros [Hty _]. unfold is_u16 in Hty. rewrite !Forall_cons in Hty. destruct_and!.
  unfold crtc_rect, is_u16. rewrite get_hv_timing_eq.
  destruct (enable cs); cbn; [|lia]. case_if; [|lia].
  match goal with |- context [u16 ?x] => pose proof (Z.mod_pos_bound x (2 ^ 16) ltac:(lia));
    unfold u16 end. lia.
Qed.

Lemma dest_fits_clip s cs :
  dest_fits s -> mode_typed (mode cs) -> clip_fits (dest_of s) (crtc_rect cs).
Proof.
  intros (?&?&?&?) Hm. destruct (crtc_rect_u16 cs Hm) as (Hx & Hy & ? & ?).
  unfold clip_fits, span_ok, dest_of, is_u16, is_s32 in *; cbn. rewrite Hx, Hy. lia.
Qed.

Lemma crtc_rect_ok cs :
  mode_typed (mode cs) -> rect_ok (crtc_rect cs) /\ 0 <= x2 (crtc_rect cs) /\ 0 <= y2 (crtc_rect cs)
  /\ x1 (crtc_rect cs) = 0 /\ y1 (crtc_rect cs) = 0.
Proof.
  intros [Hty _]. unfold is_u16 in Hty. rewrite !Forall_cons in Hty. destruct_and!.
  unfold crtc_rect, rect_ok, coord_ok. rewrite get_hv_timing_eq.
  destruct (enable cs); cbn; [|lia]. case_if; [|lia].
  match goal with |- context [u16 ?x] => pose proof (Z.mod_pos_bound x (2 ^ 16) ltac:(lia));
    unfold u16 end. lia.
Qed.

(** A visible clip of such a destination is the intersection. *)
Lemma dest_clip_visible src s cs :
  dest_fits s -> mode_typed (mode cs) ->
  let '(vis, _, dst') := drm_rect_clip_scaled src (dest_of s) (crtc_rect cs) in
  vis = true ->
  0 < crtc_w s /\ 0 < crtc_h s
  /\ drm_rect_intersect (dest_of s) (crtc_rect cs) = (true, dst').
Proof.
  intros Hd Hm. destruct (dest_fits_clip s cs Hd Hm) as [Hfx Hfy].
  pose proof (clip_empty_x src (dest_of s) (crtc_rect cs) Hfx) as Hex.
  pose proof (clip_empty_y src (dest_of s) (crtc_rect cs) Hfy) as Hey.
  pose proof (clip_fits_intersect src (dest_of s) (crtc_rect cs) (conj Hfx Hfy)) as Hci.
  destruct (drm_rect_clip_scaled _ _ _) as [[vis src'] dst']. cbn [fst snd] in *. intros ->.
  destruct Hd as (?&?&?&?).
  destruct (decide (crtc_w s = 0)); [by specialize (Hex ltac:(cbn; lia))|].
  destruct (decide (crtc_h s = 0)); [by specialize (Hey ltac:(cbn; lia))|].
  do 2 (split; [lia|]). destruct Hci as [Hv Hd']; [cbn; lia..|]. rewrite Hd' by done.
  rewrite (surjective_pairing (drm_rect_intersect _ _)) at 1. by rewrite <- Hv.
Qed.

(** [Some] case of the check, before the scaling is looked at. *)
Lemma check_plane_state_dst s cs min max cp cud fb crtc :
  ps_fb s = Some fb -> ps_crtc s = Some crtc -> dest_fits s -> mode_typed (mode cs) ->
  let '(ret, s') := drm_atomic_helper_check_plane_state s cs min max cp cud in
  ret = 0 -> visible s' = true ->
  enable cs = true /\ (0 < crtc_w s /\ 0 < crtc_h s)
  /\ drm_rect_intersect (dest_of s) (crtc_rect cs) = (true, ps_dst s')
  /\ (cp = false -> ps_dst s' = crtc_rect cs).
Proof.
  intros Hfb Hcrtc Hd Hm. unfold drm_atomic_helper_check_plane_state. cbn.
  rewrite Hfb, Hcrtc, dest_fits_eq by done.
  destruct (negb (enable cs) && negb cud)%bool; [done|].
  set (src := drm_rect_rotate _ _ _ _).
  destruct ((_ <? 0) || (_ <? 0))%bool; [done|].
  pose proof (dest_clip_visible src s cs Hd Hm) as Hci.
  destruct (drm_rect_clip_scaled src (dest_of s) (crtc_rect cs)) as [[vis src'] dst'].
  destruct vis; cbn; [|done]. destruct (Hci eq_refl) as (Hw & Hh & Hi).
  assert (He : enable cs = true).
  { destruct (enable cs) eqn:E; [done|]. exfalso. destruct Hd as (?&?&?&?).
    unfold drm_rect_intersect, crtc_rect, dest_of in Hi. rewrite E in Hi.
    rewrite drm_rect_visible_eq, drm_rect_width_eq in Hi. cbn in Hi.
    injection Hi as Hi _. rewrite s32_id in Hi by (unfold is_s32; lia). zb. lia. }
  rewrite drm_rect_equals_eq. destruct (_ && _)%bool eqn:Hcp; [done|]. cbn. intros _ _.
  split; [done|]. split; [done|]. split; [done|]. intros ->. cbn in *.
  by apply negb_false_iff, bool_decide_eq_true in Hcp.
Qed.

(** The 16.16 source of a plane whose sizes stay below 2^30 (16384 pixels). *)
Definition src_of (s : drm_plane_state) : drm_rect :=
  mkrect (src_x s) (src_y s) (src_x s + src_w s) (src_y s + src_h s).

Definition source_ok (s : drm_plane_state) : Prop :=
  0 <= src_x s /\ 0 <= src_y s /\ 0 <= src_w s < 2 ^ 30 /\ 0 <= src_h s < 2 ^ 30
  /\ src_x s + src_w s < 2 ^ 31 /\ src_y s + src_h s < 2 ^ 31
  /\ crtc_w s < 2 ^ 15 /\ crtc_h s < 2 ^ 15.

(** One 16.16 source pixel per CRTC pixel in both directions. *)
Definition one_to_one (s : drm_plane_state) : bool :=
  ((src_w s =? 65536 * crtc_w s) && (src_h s =? 65536 * crtc_h s))%bool.

Lemma hscale_unscaled r d :
  0 <= x2 r - x1 r < 2 ^ 30 -> 0 < x2 d - x1 d < 2 ^ 15 ->
  (drm_rect_calc_hscale r d DRM_PLANE_NO_SCALING DRM_PLANE_NO_SCALING <? 0)
  = negb (x2 r - x1 r =? 65536 * (x2 d - x1 d)).
Proof.
  intros Hr Hd. unfold drm_rect_calc_hscale. rewrite !drm_rect_width_eq. s32_simp.
  destruct (calc_scale_unscaled _ _ Hr Hd) as [Hnn Hone]. cbv zeta.
  replace (_ || (_ =? 0))%bool with false
    by (symmetry; apply orb_false_iff; rewrite Z.ltb_ge, Z.eqb_neq; lia).
  change DRM_PLANE_NO_SCALING with 65536.
  set (k := drm_calc_scale _ _) in *. rewrite Z.gtb_ltb.
  destruct (Z.eqb_spec (x2 r - x1 r) (65536 * (x2 d - x1 d))) as [Heq|Hne]; cbn [negb].
  - apply Hone in Heq. by rewrite Heq.
  - assert (k <> 65536) by tauto.
    replace ((k <? 65536) || (65536 <? k))%bool with true; [done|].
    symmetry. apply orb_true_iff. rewrite !Z.ltb_lt. lia.
Qed.

Lemma vscale_unscaled r d :
  0 <= y2 r - y1 r < 2 ^ 30 -> 0 < y2 d - y1 d < 2 ^ 15 ->
  (drm_rect_calc_vscale r d DRM_PLANE_NO_SCALING DRM_PLANE_NO_SCALING <? 0)
  = negb (y2 r - y1 r =? 65536 * (y2 d - y1 d)).
Proof.
  intros Hr Hd.
  pose proof (hscale_unscaled (mkrect (y1 r) 0 (y2 r) 0) (mkrect (y1 d) 0 (y2 d) 0) Hr Hd) as Hh.
  unfold drm_rect_calc_hscale, drm_rect_calc_vscale in *.
  by rewrite !drm_rect_width_eq, ?drm_rect_height_eq in *.
Qed.

(** The check of an unscaled, unrotated plane, as a function of its input. *)
Lemma check_plane_state_unscaled s cs cp cud fb crtc :
  ps_fb s = Some fb -> ps_crtc s = Some crtc -> dest_ok s -> source_ok s ->
  rotation s = DRM_MODE_ROTATE_0 -> mode_typed (mode cs) ->
  let '(ret, s') := drm_atomic_helper_check_plane_state s cs
                      DRM_PLANE_NO_SCALING DRM_PLANE_NO_SCALING cp cud in
  let '(vis, i) := drm_rect_intersect (dest_of s) (crtc_rect cs) in
  if negb (enable cs) && negb cud then ret = - EINVAL
  else if negb (one_to_one s) then ret = - ERANGE
  else visible s' = vis
       /\ ret = (if vis && negb cp && negb (bool_decide (i = crtc_rect cs))
                 then - EINVAL else 0)
       /\ (vis = true -> ps_dst s' = i /\ ps_src s' = src_window (src_of s) (dest_of s) i).
Proof.
  intros Hfb Hcrtc Hd Hs Hrot Hm.
  destruct (drm_rect_intersect (dest_of s) (crtc_rect cs)) as [vi i] eqn:Ei.
  unfold drm_atomic_helper_check_plane_state. cbn.
  rewrite Hfb, Hcrtc, dest_of_eq by done.
  destruct (negb (enable cs) && negb cud)%bool; [done|].
  destruct (crtc_rect_ok cs Hm) as (Hok & ? & ? & Hx1 & Hy1).
  destruct Hd as (?&?&?&?), Hs as (?&?&?&?&?&?&?&?).
  replace (drm_plane_state_src s) with (src_of s)
    by (rewrite drm_plane_state_src_eq; unfold src_of; f_equal; s32_simp; done).
  rewrite Hrot. cbn.
  change (drm_rect_rotate ?r ?w ?h DRM_MODE_ROTATE_0) with r.
  rewrite hscale_unscaled, vscale_unscaled by (cbn; lia). cbn.
  replace (src_x s + src_w s - src_x s =? 65536 * (crtc_x s + crtc_w s - crtc_x s))
    with (src_w s =? 65536 * crtc_w s) by (f_equal; lia).
  replace (src_y s + src_h s - src_y s =? 65536 * (crtc_y s + crtc_h s - crtc_y s))
    with (src_h s =? 65536 * crtc_h s) by (f_equal; lia).
  unfold one_to_one. rewrite <- negb_andb.
  destruct ((src_w s =? _) && (src_h s =? _))%bool eqn:E1; cbn; [|done].
  zb. pose proof (clip_scaled_intersect (src_of s) (dest_of s) (crtc_rect cs)) as Hci.
  rewrite Ei in Hci.
  assert (Huo : unscaled_ok (src_of s) (dest_of s) (crtc_rect cs)).
  { unfold unscaled_ok, unscaled, src_ok, rect_ok, coord_ok in *; cbn; lia. }
  pose proof (clip_unscaled _ _ _ Huo) as Hu. rewrite Ei in Hu; cbn in Hu.
  destruct (drm_rect_clip_scaled (src_of s) (dest_of s) (crtc_rect cs)) as [[vis src'] dst'].
  destruct Hci as [Hv Hd']; unfold dest_of, rect_ok, coord_ok in *; cbn in *; [lia|done|lia|lia|].
  subst vi. destruct vis; cbn; [|done].
  injection (Hu eq_refl) as -> ->.
  rewrite drm_rect_equals_eq.
  change (drm_rect_rotate_inv ?r ?w ?h DRM_MODE_ROTATE_0) with r.
  destruct (negb cp && _)%bool; done.
Qed.

End Facts.

(** ** Main theorems *)

Section Theorems.
Context `{!RectOps} `{!RectLaws} `{!PlaneRectOps} `{!PlaneRectLaws}.

(** C30: What the check accepts as visible is on the display.  Take a plane with a
    framebuffer whose destination passed [drm_atomic_plane_check] - sizes, possibly 0,
    and far corners that are an [int] - and whose near corner is not within 2^16 of the
    most negative [int]; nearer to that the clip's subtractions wrap, and a plane far off
    the display is accepted as visible ([far_left_visible]).  When the check succeeds and
    leaves the plane visible, for any rotation and any limits of scaling, the CRTC is
    enabled, and the destination is what is left of the requested rectangle on the
    display, not empty and within the mode's visible area - all of that area, unless the
    plane may be positioned. *)
Theorem plane_check_destination s cs min max cp cud fb crtc :
  ps_fb s = Some fb -> ps_crtc s = Some crtc -> dest_fits s -> mode_typed (mode cs) ->
  let '(ret, s') := drm_atomic_helper_check_plane_state s cs min max cp cud in
  ret = 0 -> visible s' = true ->
  let d := ps_dst s' in
  let '(hd, vd) := drm_mode_get_hv_timing (mode cs) in
  enable cs = true
  /\ drm_rect_intersect (dest_of s) (mkrect 0 0 hd vd) = (true, d)
  /\ d = mkrect (Z.max 0 (crtc_x s)) (Z.max 0 (crtc_y s))
                (Z.min hd (crtc_x s + crtc_w s)) (Z.min vd (crtc_y s + crtc_h s))
  /\ 0 <= x1 d < x2 d /\ x2 d <= hd /\ 0 <= y1 d < y2 d /\ y2 d <= vd
  /\ (cp = false -> d = mkrect 0 0 hd vd).
Proof.
  intros Hfb Hcrtc Hd Hm.
  pose proof (check_plane_state_dst s cs min max cp cud fb crtc Hfb Hcrtc Hd Hm) as Hck.
  destruct (drm_atomic_helper_check_plane_state s cs min max cp cud) as [ret s'].
  intros Hr0 Hv. destruct (Hck Hr0 Hv) as (He & Hwh & Hi & Hc).
  destruct (dest_fits_clip s cs Hd Hm) as [Hfx Hfy].
  destruct (crtc_rect_u16 cs Hm) as (_ & _ & Hu).
  unfold crtc_rect in *. rewrite He in *.
  destruct (drm_mode_get_hv_timing (mode cs)) as [hd vd]; cbn in *.
  split; [done|]. split; [done|].
  unfold drm_rect_intersect in Hi. injection Hi as Hvis Hr. rewrite <- Hr.
  unfold span_ok, is_u16 in *; cbn in *. destruct Hd as (?&?&?&?).
  rewrite drm_rect_visible_eq, drm_rect_width_eq, drm_rect_height_eq in Hvis; cbn in Hvis.
  rewrite !s32_id in Hvis by (destruct_and!; done). zb.
  split; [f_equal; lia|].
  repeat split; try lia. intros Hcp. by rewrite Hr, Hc.
Qed.

(** For an unrotated plane checked with [DRM_PLANE_NO_SCALING] the check
    is exactly: -EINVAL on a disabled CRTC unless updates are allowed there,
    else -ERANGE unless the source is one 16.16 pixel per CRTC pixel, else
    visible iff the destination meets the display, -EINVAL for a visible plane
    that has to cover the display and does not; a visible plane's clipped
    source is the window of the requested source that the clipped destination
    shows. *)
Theorem plane_check_unscaled_exact s cs cp cud fb crtc :
  ps_fb s = Some fb -> ps_crtc s = Some crtc -> dest_ok s -> source_ok s ->
  rotation s = DRM_MODE_ROTATE_0 -> mode_typed (mode cs) ->
  let '(ret, s') := drm_atomic_helper_check_plane_state s cs
                      DRM_PLANE_NO_SCALING DRM_PLANE_NO_SCALING cp cud in
  let '(vis, i) := drm_rect_intersect (dest_of s) (crtc_rect cs) in
  if negb (enable cs) && negb cud then ret = - EINVAL
  else if negb (one_to_one s) then ret = - ERANGE
  else visible s' = vis
       /\ ret = (if vis && negb cp && negb (bool_decide (i = crtc_rect cs))
                 then - EINVAL else 0)
       /\ (vis = true -> ps_dst s' = i /\ ps_src s' = src_window (src_of s) (dest_of s) i).
Proof. apply check_plane_state_unscaled. Qed.
End Theorems.

(** ** Witnesses: a 200x100 plane at (-50, 400) on an 800x480 display *)

Definition fb_200x100 : drm_framebuffer :=
  mkfb 1 (mkfmt DRM_FORMAT_XRGB8888 24 1 [4; 0; 0] [0; 0; 0] [0; 0; 0] 1 1 false false false)
    200 100 [800; 0; 0; 0] [0; 0; 0; 0] 0 [Some 268435456; None; None; None].
Definition ps_200x100 : drm_plane_state :=
  mkps (Some 0%nat) (Some fb_200x100) (-50) 400 200 100 0 0 (200 * 65536) (100 * 65536)
    0 0 DRM_MODE_BLEND_PREMULTI DRM_MODE_ROTATE_0 (mkrect 0 0 0 0) (mkrect 0 0 0 0) false.
Definition cs_800x480 : drm_crtc_state :=
  mkcs true mode_800x480 mode_800x480 None false.

Lemma ps_200x100_dest_ok : dest_ok ps_200x100.
Proof. unfold dest_ok; cbn; lia. Qed.
Lemma ps_200x100_dest_fits : dest_fits ps_200x100.
Proof. unfold dest_fits; cbn; lia. Qed.
Lemma ps_200x100_source_ok : source_ok ps_200x100.
Proof. unfold source_ok; cbn; lia. Qed.

Lemma plane_check_destination_witness :
  drm_rect_intersect (dest_of ps_200x100) (mkrect 0 0 800 480) = (true, mkrect 0 400 150 480).
Proof.
  pose proof (plane_check_destination ps_200x100 cs_800x480
    DRM_PLANE_NO_SCALING DRM_PLANE_NO_SCALING true false fb_200x100 0%nat
    eq_refl eq_refl ps_200x100_dest_fits mode_800x480_typed) as H.
  vm_compute in H. destruct (H eq_refl eq_refl) as (_ & Hi & _).
  vm_compute. exact Hi.
Defined.

Lemma plane_check_unscaled_exact_witness :
  let s' := snd (drm_atomic_helper_check_plane_state ps_200x100 cs_800x480
                   DRM_PLANE_NO_SCALING DRM_PLANE_NO_SCALING true false) in
  visible s' = true /\ ps_src s' = mkrect (50 * 65536) 0 (200 * 65536) (80 * 65536).
Proof.
  pose proof (plane_check_unscaled_exact ps_200x100 cs_800x480 true false fb_200x100 0%nat
    eq_refl eq_refl ps_200x100_dest_ok ps_200x100_source_ok eq_refl mode_800x480_typed) as H.
  vm_compute in H. destruct H as (_ & _ & H). vm_compute. split; [reflexivity|].
  exact (proj2 (H eq_refl)).
Defined.

(** At the most negative position the clip wraps: an unscaled plane of 1000
    pixels, 2^31 to the left of the display, is accepted as visible with a
    destination that is not on the display. *)
Definition ps_far_left : drm_plane_state :=
  {| ps_200x100 with crtc_x := - 2 ^ 31; crtc_y := 0; crtc_w := 1000; src_w := 1000 * 65536 |}.

Lemma far_left_visible :
  (crtc_w ps_far_left <= 2 ^ 31 - 1 /\ crtc_x ps_far_left <= 2 ^ 31 - 1 - crtc_w ps_far_left)
  /\ let '(ret, s') := drm_atomic_helper_check_plane_state ps_far_left cs_800x480
                        DRM_PLANE_NO_SCALING DRM_PLANE_NO_SCALING true false in
     ret = 0 /\ visible s' = true /\ ps_dst s' = mkrect (- 2 ^ 31) 0 (- 2 ^ 31 + 1000) 100.
Proof. split; [cbn; lia|]. vm_compute. repeat split. Qed.
