(* ===== verification/DrmDumb.v ===== *)
(** * DrmDumb: dumb-buffer creation
      (src/drm/drm_dumb_buffers.c, src/drm/drm_gem_dma_helper.c)

    The argument structure is passed through and returned; the GEM core and
    the DMA allocator, which the helpers call, answer from an environment, and
    every call that takes or drops a resource is an event of the trace. *)

From S2P Require Export Uapi DrmFourcc.

(** The page size of the arm64 configuration. *)
Definition PAGE_SIZE : Z := 2 ^ 12.

(** [ALIGN] on a [u32]: the alignment is cast to the type of the value. *)
Definition ALIGN_u32 (x a : Z) : Z := u32 (x + (u32 a - 1)) .& Z.lnot (u32 a - 1).
Definition IS_ALIGNED (x a : Z) : bool := (x .& (a - 1)) =? 0.

(** ** drm_dumb_buffers.c *)

Definition drm_mode_align_dumb (args : drm_mode_create_dumb)
    (hw_pitch_align hw_size_align : Z) : Z * drm_mode_create_dumb :=
  let pitch := d_pitch args in
  if pitch =? 0 then (- EINVAL, args)
  else
    let pitch := if truthy hw_pitch_align then u32 (roundup pitch hw_pitch_align) else pitch in
    let bad := truthy hw_size_align && negb (IS_ALIGNED hw_size_align PAGE_SIZE) in
    let hw_size_align := if truthy hw_size_align then hw_size_align else PAGE_SIZE in
    if bad then (- EINVAL, args)
    else
      let size := d_height args * pitch in
      if size >? U32_MAX then (- EINVAL, args)
      else
        let size := ALIGN_u32 size hw_size_align in
        if size =? 0 then (- EINVAL, args)
        else (0, {| args with d_pitch := pitch; d_size := size |}).

Definition drm_mode_size_dumb (cfg : drm_mode_config) (args : drm_mode_create_dumb)
    (hw_pitch_align hw_size_align : Z) : Z * drm_mode_create_dumb :=
  let fourcc := drm_driver_color_mode_format cfg (d_bpp args) in
  let pitch :=
    if decide (fourcc = DRM_FORMAT_INVALID) then
      (* every case of the switch falls through to the same assignment *)
      Some (if truthy (d_bpp args)
            then u32 (d_width args * (u32 (d_bpp args + 7) / 8)) else 0)
    else
      match drm_format_info_lookup fourcc with
      | None => None
      | Some info => Some (drm_format_info_min_pitch (Some info) 0 (d_width args))
      end in
  match pitch with
  | None => (- EINVAL, args)
  | Some pitch =>
      if (pitch =? 0) || (pitch >? U32_MAX) then (- EINVAL, args)
      else drm_mode_align_dumb {| args with d_pitch := pitch |} hw_pitch_align hw_size_align
  end.

(** [dumb_create] is the driver's hook, [W] what it changes. *)
Definition drm_mode_create_dumb_core {W}
    (dumb_create : option (drm_mode_create_dumb -> W -> Z * drm_mode_create_dumb * W))
    (args : drm_mode_create_dumb) (w : W) : Z * drm_mode_create_dumb * W :=
  match dumb_create with
  | None => (- ENOSYS, args, w)
  | Some hook =>
      if (d_width args =? 0) || (d_height args =? 0) || (d_bpp args =? 0)
      then (- EINVAL, args, w)
      else if d_bpp args >? U32_MAX - 8 then (- EINVAL, args, w)
      else
        let cpp := u32 (d_bpp args + 7) / 8 in
        if cpp >? U32_MAX / d_width args then (- EINVAL, args, w)
        else
          let stride := u32 (cpp * d_width args) in
          if d_height args >? U32_MAX / stride then (- EINVAL, args, w)
          else
            let size := u32 (d_height args * stride) in
            if ALIGN_u32 size PAGE_SIZE =? 0 then (- EINVAL, args, w)
            else hook {| args with d_handle := 0; d_pitch := 0; d_size := 0 |} w
  end.

Definition drm_mode_create_dumb_ioctl {W}
    (dumb_create : option (drm_mode_create_dumb -> W -> Z * drm_mode_create_dumb * W))
    (args : drm_mode_create_dumb) (w : W) : Z * drm_mode_create_dumb * W :=
  let '(err, args, w) := drm_mode_create_dumb_core dumb_create args w in
  if truthy err then (err, {| args with d_handle := 0; d_pitch := 0; d_size := 0 |}, w)
  else (err, args, w).

(** ** drm_gem_dma_helper.c *)

(** What the kernel services answer: the driver's optional object constructor
    (0, or an errno; [None] is no constructor), [kzalloc], the GEM core's
    [drm_gem_object_init] and [drm_gem_create_mmap_offset], the DMA allocator
    by size, and the handle table. *)
Record gem_env := mkgemenv {
  env_gem_create_object : option Z;
  env_kzalloc : bool;
  env_object_init : Z;
  env_mmap_offset : Z;
  env_dma_alloc : Z -> option Z;
  env_handle_create : Z * Z
}.

(** The resource events, newest last. *)
Inductive gem_event : Set :=
| ObjAlloc (size : Z)   (** the object exists, with this size *)
| ObjRelease            (** the GEM core's part of it undone *)
| ObjFree               (** its memory freed without ever being shared *)
| DmaAlloc (size : Z)   (** backing memory attached *)
| HandleCreate (h : Z)  (** the handle took a reference *)
| ObjPut.               (** the allocation reference dropped *)

Section GemDma.
Variable env : gem_env.

(** Returns 0 or an errno; the object is the one of [ObjAlloc]. *)
Definition __drm_gem_dma_create (size : Z) (private : bool) (tr : list gem_event)
  : Z * list gem_event :=
  let created :=
    match env_gem_create_object env with
    | Some 0 => inl tt
    | Some e => inr e
    | None => if env_kzalloc env then inl tt else inr (- ENOMEM)
    end in
  match created with
  | inr e => (e, tr)
  | inl _ =>
      let tr := tr ++ [ObjAlloc size] in
      let ret := if private then 0 else env_object_init env in
      if truthy ret then (ret, tr ++ [ObjFree])
      else
        let ret := env_mmap_offset env in
        if truthy ret then (ret, tr ++ [ObjRelease; ObjFree])
        else (0, tr)
  end.

(** On success also the DMA address. *)
Definition drm_gem_dma_create (size : Z) (tr : list gem_event)
  : Z * Z * list gem_event :=
  let size := u64 (ALIGN size PAGE_SIZE) in
  let '(ret, tr) := __drm_gem_dma_create size false tr in
  if truthy ret then (ret, 0, tr)
  else
    match env_dma_alloc env size with
    | None => (- ENOMEM, 0, tr ++ [ObjPut])
    | Some addr => (0, addr, tr ++ [DmaAlloc size])
    end.

(** Returns the error and the handle stored through the pointer. *)
Definition drm_gem_dma_create_with_handle (size handle : Z) (tr : list gem_event)
  : Z * Z * list gem_event :=
  let '(ret, _, tr) := drm_gem_dma_create size tr in
  if truthy ret then (ret, handle, tr)
  else
    let '(ret, h) := env_handle_create env in
    if truthy ret then (ret, h, tr ++ [ObjPut])
    else (0, h, tr ++ [HandleCreate h; ObjPut]).

Definition drm_gem_dma_dumb_create_internal
    (args : drm_mode_create_dumb) (tr : list gem_event)
  : Z * drm_mode_create_dumb * list gem_event :=
  let min_pitch := u32 (u32 (d_width args * d_bpp args) + 7) / 8 in
  let args := if d_pitch args <? min_pitch then {| args with d_pitch := min_pitch |} else args in
  let args :=
    if d_size args <? u32 (d_pitch args * d_height args)
    then {| args with d_size := u32 (d_pitch args * d_height args) |} else args in
  let '(ret, h, tr) := drm_gem_dma_create_with_handle (d_size args) (d_handle args) tr in
  (ret, {| args with d_handle := h |}, tr).

Definition drm_gem_dma_dumb_create (cfg : drm_mode_config)
    (args : drm_mode_create_dumb) (tr : list gem_event)
  : Z * drm_mode_create_dumb * list gem_event :=
  let '(ret, args) := drm_mode_size_dumb cfg args 0 0 in
  if truthy ret then (ret, args, tr)
  else
    let '(ret, h, tr) := drm_gem_dma_create_with_handle (d_size args) (d_handle args) tr in
    (ret, {| args with d_handle := h |}, tr).
End GemDma.

(** ** Facts: alignment *)

Lemma land_lnot_pow2 x k : 0 <= k -> x .& Z.lnot (2 ^ k - 1) = x - x mod 2 ^ k.
Proof.
  intros Hk. replace (2 ^ k - 1) with (Z.ones k) by (rewrite Z.ones_equiv; lia).
  rewrite <- Z.ldiff_land, Z.ldiff_ones_r by done.
  rewrite Z.shiftl_mul_pow2, Z.shiftr_div_pow2 by done.
  pose proof (Z.div_mod x (2 ^ k) ltac:(pose proof (Z.pow_pos_nonneg 2 k); lia)). lia.
Qed.

Lemma pow2_small k : 0 <= k <= 31 -> 0 < 2 ^ k <= 2 ^ 31.
Proof. intros. split; [apply Z.pow_pos_nonneg; lia|apply Z.pow_le_mono_r; lia]. Qed.

(** Rounding a [u32] up to a power of two: the next multiple, or 0 when that
    does not fit. *)
Lemma ALIGN_u32_pow2 x k :
  is_u32 x -> 0 <= k <= 31 ->
  let a := ALIGN_u32 x (2 ^ k) in
  a mod 2 ^ k = 0 /\ is_u32 a
  /\ (a = 0 \/ x <= a < x + 2 ^ k).
Proof.
  intros Hx Hk a. pose proof (pow2_small k Hk) as Hp. subst a. unfold ALIGN_u32.
  rewrite (u32_id (2 ^ k)) by (unfold is_u32; lia).
  rewrite land_lnot_pow2 by lia. revert Hp. generalize (2 ^ k). intros p Hp.
  pose proof (u32_range (x + (p - 1))) as Hr.
  set (y := u32 (x + (p - 1))) in *.
  pose proof (Z.mod_pos_bound y (p) ltac:(lia)).
  pose proof (Z.div_mod y (p) ltac:(lia)) as Hdm.
  assert (0 <= y / p) by (apply Z.div_pos; unfold is_u32 in *; lia).
  split; [|split].
  - rewrite Zminus_mod_idemp_r, Z.sub_diag. apply Z.mod_0_l. lia.
  - unfold is_u32 in *. nia.
  - unfold is_u32 in Hx. destruct (Z.lt_ge_cases (x + (p - 1)) (2 ^ 32)).
    + right. subst y. rewrite u32_id in * by (unfold is_u32; lia). lia.
    + left. assert (y = x + (p - 1) - 2 ^ 32).
      { subst y. unfold u32. symmetry. apply (Z.mod_unique_pos _ _ 1);
        rewrite ?Z.mul_1_r; lia. }
      rewrite Z.mod_small by lia. lia.
Qed.

Lemma ALIGN_u32_pow2_fits x k :
  is_u32 x -> 0 <= k <= 31 -> x + 2 ^ k <= 2 ^ 32 ->
  x <= ALIGN_u32 x (2 ^ k) < x + 2 ^ k.
Proof.
  intros Hx Hk Hf. pose proof (pow2_small k Hk) as Hp. unfold is_u32 in Hx. unfold ALIGN_u32.
  rewrite (u32_id (2 ^ k)) by (unfold is_u32; lia).
  rewrite u32_id by (unfold is_u32; lia). rewrite land_lnot_pow2 by lia.
  pose proof (Z.mod_pos_bound (x + (2 ^ k - 1)) (2 ^ k) ltac:(lia)). lia.
Qed.

Lemma roundup_spec x y : 0 <= x -> 0 < y -> roundup x y mod y = 0 /\ x <= roundup x y < x + y.
Proof.
  intros Hx Hy. unfold roundup. split; [apply Z_mod_mult|].
  pose proof (Z.div_mod (x + (y - 1)) y ltac:(lia)).
  pose proof (Z.mod_pos_bound (x + (y - 1)) y ltac:(lia)). lia.
Qed.

(** A pitch alignment a driver may ask for: none or a power of two. *)
Definition align_ok (a : Z) : Prop := a = 0 \/ exists k, 0 <= k <= 31 /\ a = 2 ^ k.

Definition multiple_of (x a : Z) : Prop := a = 0 \/ x mod a = 0.

Lemma u32_roundup_pow2 p a :
  0 < p < 2 ^ 32 -> align_ok a ->
  let q := if truthy a then u32 (roundup p a) else p in
  q = 0 \/ (p <= q < 2 ^ 32 /\ multiple_of q a).
Proof.
  intros Hp Ha q. subst q. unfold multiple_of.
  destruct Ha as [->|(k & Hk & ->)]; [right; change (truthy 0) with false; split; [lia|by left]|].
  pose proof (pow2_small k Hk) as Hpk.
  unfold truthy. replace (2 ^ k =? 0) with false by (symmetry; apply Z.eqb_neq; lia). cbn.
  destruct (roundup_spec p (2 ^ k)) as [Hm Hr]; [lia..|].
  destruct (Z.lt_ge_cases (roundup p (2 ^ k)) (2 ^ 32)).
  - right. rewrite u32_id by (unfold is_u32; lia). split; [lia|]. by right.
  - left. apply Z.mod_divide in Hm as [c Hc]; [|lia].
    assert (Hd : 2 ^ 32 = 2 ^ (32 - k) * 2 ^ k) by (rewrite <- Z.pow_add_r by lia; f_equal; lia).
    assert (c = 2 ^ (32 - k)) by nia. subst c.
    rewrite Hc, <- Hd. reflexivity.
Qed.

(** ** Facts: sizes *)

Definition dumb_typed (args : drm_mode_create_dumb) : Prop :=
  is_u32 (d_height args) /\ is_u32 (d_width args) /\ is_u32 (d_bpp args)
  /\ is_u32 (d_pitch args) /\ is_u64 (d_size args).

Lemma align_dumb_spec args pa sa :
  is_u32 (d_height args) -> is_u32 (d_pitch args) -> align_ok pa ->
  (sa = 0 \/ exists k, 12 <= k <= 31 /\ sa = 2 ^ k) ->
  let '(ret, args') := drm_mode_align_dumb args pa sa in
  (ret = 0 \/ ret = - EINVAL)
  /\ (ret = 0 ->
      args' = {| args with d_pitch := d_pitch args'; d_size := d_size args' |}
      /\ d_pitch args <= d_pitch args' < 2 ^ 32 /\ multiple_of (d_pitch args') pa
      /\ 0 < d_size args' < 2 ^ 32 /\ d_height args * d_pitch args' <= d_size args'
      /\ d_size args' mod PAGE_SIZE = 0 /\ multiple_of (d_size args') sa).
Proof.
  intros Hh Hp Hpa Hsa. unfold drm_mode_align_dumb.
  destruct (Z.eqb_spec (d_pitch args) 0); [split; [by right|done]|].
  unfold is_u32 in Hh, Hp.
  pose proof (u32_roundup_pow2 (d_pitch args) pa ltac:(lia) Hpa) as Hq. cbv zeta in Hq.
  set (q := if truthy pa then _ else _) in *. clearbody q.
  destruct (_ && _)%bool; [split; [by right|done]|].
  set (s := if truthy sa then sa else PAGE_SIZE).
  assert (Hs : exists k, 12 <= k <= 31 /\ s = 2 ^ k).
  { subst s. destruct Hsa as [->|(k & Hk & ->)].
    - exists 12. done.
    - exists k. split; [done|]. unfold truthy. case_if; [done|]. zb.
      pose proof (Z.pow_pos_nonneg 2 k). lia. }
  assert (Hsm : multiple_of s sa).
  { subst s. unfold multiple_of, truthy. destruct (Z.eqb_spec sa 0); [by left|].
    right. by rewrite Z.mod_same. }
  clearbody s. destruct Hs as (k & Hk & ->).
  destruct (Z.gtb_spec (d_height args * q) U32_MAX) as [|Hle]; [split; [by right|done]|].
  unfold U32_MAX in Hle.
  assert (Hq0 : 0 <= q) by lia.
  destruct (ALIGN_u32_pow2 (d_height args * q) k) as (Hm & Hr & Ha);
    [unfold is_u32; nia|lia|].
  set (z := ALIGN_u32 _ _) in *. clearbody z.
  destruct (Z.eqb_spec z 0) as [|Hz]; [split; [by right|done]|].
  split; [by left|]. intros _. cbn. unfold is_u32 in Hr.
  destruct Ha as [|Ha]; [done|].
  destruct Hq as [->|Hq].
  { exfalso. rewrite Z.mul_0_r in Ha. apply Z.mod_divide in Hm as [c Hc];
      [|pose proof (Z.pow_pos_nonneg 2 k); lia].
    assert (c = 0) by nia. lia. }
  split; [done|]. repeat split; try lia; try tauto.
  - unfold PAGE_SIZE. apply Z.mod_divide; [done|]. apply Z.mod_divide in Hm;
      [|pose proof (Z.pow_pos_nonneg 2 k); lia].
    apply (Z.divide_trans _ (2 ^ k)); [|done].
    exists (2 ^ (k - 12)). rewrite <- Z.pow_add_r by lia. f_equal. lia.
  - destruct Hsm as [->|Hsm]; [by left|]. destruct Hsa as [->|(j & Hj & ->)]; [by left|].
    right. apply Z.mod_divide in Hsm; [|pose proof (Z.pow_pos_nonneg 2 j); lia].
    apply Z.mod_divide in Hm; [|pose proof (Z.pow_pos_nonneg 2 k); lia].
    apply Z.mod_divide; [pose proof (Z.pow_pos_nonneg 2 j); lia|].
    by apply (Z.divide_trans _ (2 ^ k)).
Qed.

(** A colour mode that names a format has, in the table, at least as many bits
    per pixel, and the pitch covers them. *)
Lemma color_mode_pitch cfg bpp w :
  is_u32 w -> drm_driver_color_mode_format cfg bpp <> DRM_FORMAT_INVALID ->
  exists i, drm_format_info_lookup (drm_driver_color_mode_format cfg bpp) = Some i
    /\ w * bpp <= 8 * drm_format_info_min_pitch (Some i) 0 w.
Proof.
  intros Hw Hne.
  assert (H : exists b dep, bpp <= b /\ 0 < b
    /\ bpp_depth (drm_driver_color_mode_format cfg bpp) = Some (b, dep)).
  { assert (Hp : forall b dep, drm_driver_legacy_fb_format cfg b dep <> DRM_FORMAT_INVALID -> 0 < b).
    { intros b dep Hb. rewrite driver_legacy_eq in Hb. cbv zeta in Hb.
      destruct (decide (drm_mode_legacy_fb_format b dep = DRM_FORMAT_INVALID)) as [E|E].
      - rewrite E in Hb. cbn in Hb. by rewrite andb_false_r in Hb.
      - apply legacy_pairs in E. rewrite !elem_of_cons, elem_of_nil in E.
        intuition (simplify_eq; lia). }
    unfold drm_driver_color_mode_format in *.
    destruct (decide (bpp = 15)) as [->|]; [exists 16, 15; split; [lia|]; split;
      [lia|by apply driver_bpp_depth]|].
    destruct (decide (bpp = 32)) as [->|]; [exists 32, 24; split; [lia|]; split;
      [lia|by apply driver_bpp_depth]|].
    replace (match bpp with 15 => _ | 32 => _ | _ => _ end)
      with (drm_driver_legacy_fb_format cfg bpp bpp) in *
      by (destruct bpp as [|p|p]; try done; repeat (destruct p as [p|p|]; try done)).
    exists bpp, bpp. split; [lia|]. split; [by eapply Hp|by apply driver_bpp_depth]. }
  destruct H as (b & dep & Hle & Hb0 & H). unfold bpp_depth in H.
  unfold drm_format_info_lookup.
  apply fmap_Some in H as (i & Ei & Heq). assert (Hb : b = drm_format_info_bpp (Some i) 0) by congruence.
  clear Heq. rewrite Ei.
  exists i. split; [done|]. apply format_info_wf in Ei.
  assert (Hpl : 0 <= 0 < num_planes i).
  { split; [done|]. unfold fmt_wf in Ei. rewrite !andb_true_iff in Ei. destruct_and!. zb. lia. }
  destruct (min_pitch_eq i 0 w Ei Hpl Hw) as [Hd Hm].
  destruct (bpp_eq i 0 Ei Hpl) as [He|He]; [lia|]. rewrite <- Hb in He.
  unfold is_u32 in Hw. cbv zeta in Hm.
  revert Hd Hm He.
  generalize (drm_format_info_min_pitch (Some i) 0 w) as mp.
  generalize (drm_format_info_block_width (Some i) 0
              * drm_format_info_block_height (Some i) 0) as d.
  generalize (aget (char_per_block i) 0) as c. intros c d mp Hd Hm He.
  assert (d * (w * b) <= d * (8 * mp)) by nia. nia.
Qed.

Lemma size_dumb_spec cfg args pa sa :
  dumb_typed args -> align_ok pa -> (sa = 0 \/ exists k, 12 <= k <= 31 /\ sa = 2 ^ k) ->
  d_bpp args <= U32_MAX - 8 -> d_width args * ((d_bpp args + 7) / 8) <= U32_MAX ->
  let '(ret, args') := drm_mode_size_dumb cfg args pa sa in
  (ret = 0 \/ ret = - EINVAL)
  /\ (ret = 0 ->
      args' = {| args with d_pitch := d_pitch args'; d_size := d_size args' |}
      /\ d_width args * d_bpp args <= 8 * d_pitch args'
      /\ 0 < d_pitch args' < 2 ^ 32 /\ multiple_of (d_pitch args') pa
      /\ 0 < d_size args' < 2 ^ 32 /\ d_height args * d_pitch args' <= d_size args'
      /\ d_size args' mod PAGE_SIZE = 0 /\ multiple_of (d_size args') sa).
Proof.
  intros (Hh & Hw & Hb & _ & _) Hpa Hsa Hb8 Hwb. unfold drm_mode_size_dumb, U32_MAX in *.
  assert (Hgen : forall pitch, d_width args * d_bpp args <= 8 * pitch ->
    let '(ret, args') :=
      if (pitch =? 0) || (pitch >? 2 ^ 32 - 1) then (- EINVAL, args)
      else drm_mode_align_dumb {| args with d_pitch := pitch |} pa sa in
    (ret = 0 \/ ret = - EINVAL)
    /\ (ret = 0 ->
        args' = {| args with d_pitch := d_pitch args'; d_size := d_size args' |}
        /\ d_width args * d_bpp args <= 8 * d_pitch args'
        /\ 0 < d_pitch args' < 2 ^ 32 /\ multiple_of (d_pitch args') pa
        /\ 0 < d_size args' < 2 ^ 32 /\ d_height args * d_pitch args' <= d_size args'
        /\ d_size args' mod PAGE_SIZE = 0 /\ multiple_of (d_size args') sa)).
  { intros pitch Hp. destruct (_ || _)%bool eqn:E; [split; [by right|done]|]. zb.
    unfold is_u32 in *.
    assert (0 <= pitch) by nia.
    pose proof (align_dumb_spec {| args with d_pitch := pitch |} pa sa) as Hal.
    destruct (drm_mode_align_dumb _ _ _) as [ret args']. cbn in Hal.
    destruct Hal as [Hr Hal]; [done|unfold is_u32; lia|done|done|].
    split; [done|]. intros Hr0. destruct (Hal Hr0) as (He & Hlt & Hm & Hs & Hhs & Hpg & Hsm).
    destruct args'; cbn in *. simplify_eq. repeat split; try done; lia. }
  case_decide as Hf.
  - apply Hgen. unfold truthy. destruct (Z.eqb_spec (d_bpp args) 0) as [->|]; cbn; [lia|].
    unfold is_u32 in *.
    assert (0 <= (d_bpp args + 7) / 8) by (apply Z.div_pos; lia).
    rewrite (u32_id (d_bpp args + 7)) by (unfold is_u32; lia).
    rewrite u32_id by (unfold is_u32; nia).
    pose proof (Z.div_mod (d_bpp args + 7) 8 ltac:(lia)).
    pose proof (Z.mod_pos_bound (d_bpp args + 7) 8 ltac:(lia)). nia.
  - destruct (color_mode_pitch cfg (d_bpp args) (d_width args) Hw Hf) as (i & -> & Hp).
    by apply Hgen.
Qed.

Lemma ALIGN_u32_page_0 x :
  is_u32 x -> ALIGN_u32 x PAGE_SIZE = 0 <-> x = 0 \/ 2 ^ 32 - 4096 < x.
Proof.
  intros Hx. unfold is_u32 in Hx.
  destruct (ALIGN_u32_pow2 x 12 Hx ltac:(lia)) as (Hm & Hr & Ha).
  change PAGE_SIZE with (2 ^ 12). change (2 ^ 12) with 4096 in *.
  unfold is_u32 in Hr. apply Z.mod_divide in Hm as [c Hc]; [|lia].
  split; [|intros [->|]; [done|lia]].
  intros H0. destruct (Z.lt_ge_cases (2 ^ 32 - 4096) x); [by right|]. left.
  revert H0. unfold ALIGN_u32. change (u32 4096) with (2 ^ 12).
  rewrite land_lnot_pow2, u32_id by (unfold is_u32; lia). change (2 ^ 12) with 4096.
  pose proof (Z.mod_pos_bound (x + (4096 - 1)) 4096 ltac:(lia)). lia.
Qed.

(** Net references taken on the object over a trace. *)
Definition ref_weight (e : gem_event) : Z :=
  match e with
  | ObjAlloc _ | HandleCreate _ => 1
  | ObjFree | ObjPut => -1
  | ObjRelease | DmaAlloc _ => 0
  end.
Definition obj_refs (tr : list gem_event) : Z := foldr (fun e n => ref_weight e + n) 0 tr.

Lemma obj_refs_app t1 t2 : obj_refs (t1 ++ t2) = obj_refs t1 + obj_refs t2.
Proof. induction t1 as [|e t1 IH]; cbn; [done|]. unfold obj_refs in *. rewrite IH. lia. Qed.

Lemma create_with_handle_spec env size handle tr :
  let '(ret, h, tr') := drm_gem_dma_create_with_handle env size handle tr in
  obj_refs tr' = obj_refs tr + (if ret =? 0 then 1 else 0)
  /\ (ret = 0 -> h = snd (env_handle_create env)
      /\ tr' = tr ++ [ObjAlloc (u64 (ALIGN size PAGE_SIZE));
                      DmaAlloc (u64 (ALIGN size PAGE_SIZE)); HandleCreate h; ObjPut]).
Proof.
  unfold drm_gem_dma_create_with_handle, drm_gem_dma_create, __drm_gem_dma_create.
  set (sz := u64 _). clearbody sz. cbv zeta.
  assert (Herr : forall (e : Z) t (P : Prop), e <> 0 -> obj_refs t = 0 ->
    obj_refs (tr ++ t) = obj_refs tr + 0 /\ (e = 0 -> P)).
  { intros e t P He Ht. by rewrite obj_refs_app, Ht. }
  assert (Hne : forall e, e <> 0 -> (e =? 0) = false) by (intros; by apply Z.eqb_neq).
  set (created := match env_gem_create_object env with Some _ => _ | None => _ end).
  assert (Hcr : match created with inl _ => True | inr e => e <> 0 end).
  { subst created. destruct (env_gem_create_object env) as [[]|]; try done.
    by destruct (env_kzalloc env). }
  clearbody created. destruct created as [_|e]; cbn.
  2:{ unfold truthy. repeat (rewrite (Hne e Hcr); cbn).
      pose proof (Herr e [] (handle = snd (env_handle_create env)
        /\ tr = tr ++ [ObjAlloc sz; DmaAlloc sz; HandleCreate handle; ObjPut]) Hcr eq_refl) as Hn.
      by rewrite app_nil_r in Hn. }
  unfold truthy. destruct (Z.eqb_spec (env_object_init env) 0) as [Hi|Hi]; cbn.
  2:{ repeat (rewrite (Hne _ Hi); cbn). rewrite <- app_assoc. by apply Herr. }
  destruct (Z.eqb_spec (env_mmap_offset env) 0) as [Hm|Hm]; cbn.
  2:{ repeat (rewrite (Hne _ Hm); cbn). rewrite <- app_assoc. by apply Herr. }
  destruct (env_dma_alloc env sz) as [a|]; cbn.
  2:{ rewrite <- app_assoc. by apply Herr. }
  destruct (env_handle_create env) as [r h]. destruct (Z.eqb_spec r 0) as [Hr|Hr]; cbn.
  - rewrite <- !app_assoc. cbn. rewrite obj_refs_app. done.
  - rewrite (Hne _ Hr), <- !app_assoc. cbn. by apply Herr.
Qed.

(** What the core demands before it calls the driver. *)
Definition dumb_request_ok (args : drm_mode_create_dumb) : bool :=
  ((0 <? d_width args) && (0 <? d_height args) && (0 <? d_bpp args)
   && (d_bpp args <=? U32_MAX - 8)
   && ((d_bpp args + 7) / 8 * d_width args * d_height args <=? 2 ^ 32 - 4096))%bool.

Lemma create_dumb_core_eq {W} hook args (w : W) :
  dumb_typed args ->
  drm_mode_create_dumb_core (Some hook) args w
  = if dumb_request_ok args
    then hook {| args with d_handle := 0; d_pitch := 0; d_size := 0 |} w
    else (- EINVAL, args, w).
Proof.
  intros (Hh & Hw & Hb & _ & _). unfold is_u32 in *.
  unfold drm_mode_create_dumb_core, dumb_request_ok, U32_MAX.
  destruct (Z.eqb_spec (d_width args) 0) as [->|]; [done|].
  destruct (Z.eqb_spec (d_height args) 0) as [->|]; [by rewrite andb_false_r|].
  destruct (Z.eqb_spec (d_bpp args) 0) as [->|]; [by rewrite andb_false_r|].
  rewrite !(proj2 (Z.ltb_lt 0 _)) by lia. cbn [orb andb].
  destruct (Z.gtb_spec (d_bpp args) (2 ^ 32 - 1 - 8)) as [Hgt|Hle].
  { by rewrite (proj2 (Z.leb_gt _ _) Hgt). }
  rewrite (proj2 (Z.leb_le _ _) Hle). cbn [andb].
  rewrite (u32_id (d_bpp args + 7)) by (unfold is_u32; lia).
  set (cpp := (d_bpp args + 7) / 8).
  assert (Hc : 1 <= cpp < 2 ^ 32).
  { subst cpp. split; [apply Z.div_le_lower_bound; lia|apply Z.div_lt_upper_bound; lia]. }
  clearbody cpp. set (wd := d_width args) in *. set (ht := d_height args) in *.
  assert (Hdiv : forall k d, 0 < d -> k * d <= 2 ^ 32 - 1 <-> k <= (2 ^ 32 - 1) / d).
  { intros k d Hd. split; intros.
    - by apply Z.div_le_lower_bound; lia.
    - pose proof (Z.mul_div_le (2 ^ 32 - 1) d Hd). nia. }
  destruct (Z.gtb_spec cpp ((2 ^ 32 - 1) / wd)) as [Hg|Hl].
  { replace (_ <=? _) with false; [done|]. symmetry. apply Z.leb_gt.
    assert (~ cpp * wd <= 2 ^ 32 - 1) by (rewrite Hdiv; lia). nia. }
  apply Hdiv in Hl; [|lia].
  rewrite (u32_id (cpp * wd)) by (unfold is_u32; nia).
  destruct (Z.gtb_spec ht ((2 ^ 32 - 1) / (cpp * wd))) as [Hg|Hl2].
  { replace (_ <=? _) with false; [done|]. symmetry. apply Z.leb_gt.
    assert (~ ht * (cpp * wd) <= 2 ^ 32 - 1) by (rewrite Hdiv; nia). lia. }
  apply Hdiv in Hl2; [|nia].
  assert (Hs : is_u32 (ht * (cpp * wd))) by (unfold is_u32; nia).
  rewrite u32_id by done. pose proof (ALIGN_u32_page_0 _ Hs) as Ha.
  destruct (Z.eqb_spec (ALIGN_u32 (ht * (cpp * wd)) PAGE_SIZE) 0) as [H0|H0].
  - apply Ha in H0. destruct H0; [nia|].
    replace (_ <=? _) with false; [done|]. symmetry. apply Z.leb_gt. lia.
  - replace (_ <=? _) with true; [done|]. symmetry. apply Z.leb_le. lia.
Qed.

Lemma dumb_internal_spec env args tr :
  dumb_typed args ->
  let '(ret, args', tr') := drm_gem_dma_dumb_create_internal env args tr in
  d_pitch args' = Z.max (d_pitch args) (u32 (u32 (d_width args * d_bpp args) + 7) / 8)
  /\ d_size args' = Z.max (d_size args) (u32 (d_pitch args' * d_height args))
  /\ (d_width args * d_bpp args + 7 < 2 ^ 32 -> d_width args * d_bpp args <= 8 * d_pitch args')
  /\ (d_pitch args' * d_height args < 2 ^ 32 -> d_pitch args' * d_height args <= d_size args')
  /\ d_width args' = d_width args /\ d_height args' = d_height args
  /\ d_bpp args' = d_bpp args
  /\ obj_refs tr' = obj_refs tr + (if ret =? 0 then 1 else 0)
  /\ (ret = 0 -> d_handle args' = snd (env_handle_create env)
      /\ tr' = tr ++ [ObjAlloc (u64 (ALIGN (d_size args') PAGE_SIZE));
                      DmaAlloc (u64 (ALIGN (d_size args') PAGE_SIZE));
                      HandleCreate (d_handle args'); ObjPut]).
Proof.
  intros (Hh & Hw & Hb & Hp & Hs). unfold is_u32 in *.
  unfold drm_gem_dma_dumb_create_internal.
  set (mp := u32 (u32 (d_width args * d_bpp args) + 7) / 8).
  assert (Hmp : d_width args * d_bpp args + 7 < 2 ^ 32 -> d_width args * d_bpp args <= 8 * mp).
  { intros Hwb. subst mp.
    rewrite (u32_id (d_width args * d_bpp args)), u32_id by (unfold is_u32; nia).
    pose proof (Z.div_mod (d_width args * d_bpp args + 7) 8 ltac:(lia)).
    pose proof (Z.mod_pos_bound (d_width args * d_bpp args + 7) 8 ltac:(lia)). lia. }
  assert (Hmp0 : 0 <= mp) by (apply Z.div_pos; [apply u32_range|lia]).
  set (a1 := if d_pitch args <? mp then _ else args).
  assert (Ha1 : a1 = {| args with d_pitch := Z.max (d_pitch args) mp |}).
  { subst a1. clearbody mp. destruct args as [h0 w0 b0 hd0 p0 s0]; cbn in *. destruct (Z.ltb_spec p0 mp); f_equal; lia. }
  rewrite Ha1. cbn. clear a1 Ha1.
  set (pt := Z.max (d_pitch args) mp).
  set (a2 := if d_size args <? u32 (pt * d_height args) then _ else _).
  assert (Ha2 : a2 = {| args with d_pitch := pt;
                        d_size := Z.max (d_size args) (u32 (pt * d_height args)) |}).
  { subst a2. clearbody pt. destruct args as [h0 w0 b0 hd0 p0 s0]; cbn in *. destruct (Z.ltb_spec s0 (u32 (pt * h0))); f_equal; lia. }
  rewrite Ha2. cbn. clear a2 Ha2.
  set (sz := Z.max (d_size args) (u32 (pt * d_height args))).
  pose proof (create_with_handle_spec env sz (d_handle args) tr) as Hc.
  destruct (drm_gem_dma_create_with_handle env sz (d_handle args) tr) as [[ret h] tr'].
  cbn. destruct Hc as [Hrefs Hok].
  split; [done|]. split; [done|]. split; [intros Hwb; specialize (Hmp Hwb); lia|]. split.
  { intros Hlt. subst sz. rewrite u32_id by (unfold is_u32; nia). lia. }
  split; [done|]. split; [done|]. split; [done|]. split; [done|]. exact Hok.
Qed.

(** The pitch alignment of the Verisilicon driver. *)
Lemma align_ok_128 : align_ok 128.
Proof. right. exists 7. split; [lia|done]. Qed.

(** ** Main theorems *)

(** [drm_mode_size_dumb], for any colour mode, a power-of-two pitch
    alignment and a power-of-two size alignment of at least a page, and a
    request whose bytes per line fit 32 bits: it either fails with -EINVAL or
    returns a pitch that covers the line and is aligned, and a non-zero 32-bit
    size that covers all lines and is a multiple of the page size and of the
    alignment, with width, height, bpp and handle untouched. *)
Theorem size_dumb_sound cfg args pa sa :
  dumb_typed args -> align_ok pa -> (sa = 0 \/ exists k, 12 <= k <= 31 /\ sa = 2 ^ k) ->
  d_bpp args <= U32_MAX - 8 -> d_width args * ((d_bpp args + 7) / 8) <= U32_MAX ->
  let '(ret, args') := drm_mode_size_dumb cfg args pa sa in
  (ret = 0 \/ ret = - EINVAL)
  /\ (ret = 0 ->
      args' = {| args with d_pitch := d_pitch args'; d_size := d_size args' |}
      /\ d_width args * d_bpp args <= 8 * d_pitch args'
      /\ 0 < d_pitch args' < 2 ^ 32 /\ multiple_of (d_pitch args') pa
      /\ 0 < d_size args' < 2 ^ 32 /\ d_height args * d_pitch args' <= d_size args'
      /\ d_size args' mod PAGE_SIZE = 0 /\ multiple_of (d_size args') sa).
Proof. apply size_dumb_spec. Qed.

(** The overflow guards of [drm_mode_create_dumb] are exact: the driver's
    hook runs, with handle, pitch and size zeroed, iff width, height and bpp
    are non-zero, bpp is below 2^32 - 8 and the whole-byte pixel size times
    width times height, rounded up to a page, fits 32 bits; otherwise -EINVAL,
    nothing called. The ioctl returns zeroed outputs on every error, and
    -ENOSYS without a hook. *)
Theorem create_dumb_guards {W} hook args (w : W) :
  dumb_typed args ->
  let zeroed a := {| a with d_handle := 0; d_pitch := 0; d_size := 0 |} in
  let run := if dumb_request_ok args then hook (zeroed args) w else (- EINVAL, args, w) in
  drm_mode_create_dumb_core (Some hook) args w = run
  /\ drm_mode_create_dumb_ioctl (Some hook) args w
     = (if fst (fst run) =? 0 then run
        else (fst (fst run), zeroed (snd (fst run)), snd run))
  /\ drm_mode_create_dumb_ioctl None args w = (- ENOSYS, zeroed args, w).
Proof.
  intros Ht zeroed run. pose proof (create_dumb_core_eq hook args w Ht) as He.
  split; [done|]. split; [|done].
  unfold drm_mode_create_dumb_ioctl. rewrite He. fold (zeroed args). fold run.
  destruct run as [[r a] w']. cbn. unfold truthy. by destruct (r =? 0).
Qed.

(** C31: [drm_gem_dma_dumb_create_internal] never shrinks the pitch or the size
    it is given: each is the larger of the given value and of the product the code
    computes in 32 bits, bits per line rounded up to bytes and pitch times height.  The
    pitch covers the line as long as the bits per line plus 7 do not overflow 32 bits,
    and the size covers all lines as long as pitch times height does not; where they do,
    the buffer may be smaller than its pixels ([dumb_pitch_wraps]).  On success the object and its DMA memory have that
    size rounded up to pages and exactly one reference, held by the returned
    handle; on every failure - allocation, object or mmap-offset set-up, DMA
    memory, handle table - no reference and no memory is left behind. *)
Theorem dumb_create_internal_sound env args tr :
  dumb_typed args ->
  let '(ret, args', tr') := drm_gem_dma_dumb_create_internal env args tr in
  d_pitch args' = Z.max (d_pitch args) (u32 (u32 (d_width args * d_bpp args) + 7) / 8)
  /\ d_size args' = Z.max (d_size args) (u32 (d_pitch args' * d_height args))
  /\ (d_width args * d_bpp args + 7 < 2 ^ 32 -> d_width args * d_bpp args <= 8 * d_pitch args')
  /\ (d_pitch args' * d_height args < 2 ^ 32 -> d_pitch args' * d_height args <= d_size args')
  /\ d_width args' = d_width args /\ d_height args' = d_height args
  /\ d_bpp args' = d_bpp args
  /\ obj_refs tr' = obj_refs tr + (if ret =? 0 then 1 else 0)
  /\ (ret = 0 -> d_handle args' = snd (env_handle_create env)
      /\ tr' = tr ++ [ObjAlloc (u64 (ALIGN (d_size args') PAGE_SIZE));
                      DmaAlloc (u64 (ALIGN (d_size args') PAGE_SIZE));
                      HandleCreate (d_handle args'); ObjPut]).
Proof. apply dumb_internal_spec. Qed.

(** ** Witnesses: a 100x50 buffer, 32 bits per pixel *)

Definition plain_cfg : drm_mode_config := mkcfg 0 0 4096 4096 0 0 false false.
Definition dumb_100x50 : drm_mode_create_dumb := mkdumb 50 100 32 0 0 0.
Definition env_ok : gem_env := mkgemenv None true 0 0 (fun _ => Some 268435456) (0, 7).

Lemma dumb_100x50_typed : dumb_typed dumb_100x50.
Proof. vm_compute. intuition discriminate. Qed.

Lemma size_dumb_sound_witness :
  let a := snd (drm_mode_size_dumb plain_cfg dumb_100x50 128 0) in
  a = mkdumb 50 100 32 0 512 28672 /\ 50 * d_pitch a <= d_size a.
Proof.
  pose proof (size_dumb_sound plain_cfg dumb_100x50 128 0 dumb_100x50_typed
    align_ok_128
    (or_introl eq_refl) ltac:(vm_compute; discriminate) ltac:(vm_compute; discriminate)) as H.
  vm_compute in H. destruct H as [_ H].
  vm_compute. split; [reflexivity|]. exact (proj1 (proj2 (proj2 (proj2 (proj2 (proj2 (H eq_refl))))))).
Defined.

Lemma create_dumb_guards_witness :
  drm_mode_create_dumb_ioctl (Some (fun a (w : nat) => (- EINVAL, a, S w)))
    (mkdumb 50 100 32 5 6 7) O = (- EINVAL, mkdumb 50 100 32 0 0 0, 1%nat).
Proof.
  pose proof (create_dumb_guards (fun a (w : nat) => (- EINVAL, a, S w))
    (mkdumb 50 100 32 5 6 7) O ltac:(vm_compute; intuition discriminate)) as H.
  destruct H as (_ & H & _). vm_compute in H. exact H.
Defined.

Lemma dumb_create_internal_sound_witness :
  let r := drm_gem_dma_dumb_create_internal env_ok dumb_100x50 [] in
  snd r = [ObjAlloc 20480; DmaAlloc 20480; HandleCreate 7; ObjPut]
  /\ obj_refs (snd r) = 1.
Proof.
  pose proof (dumb_create_internal_sound env_ok dumb_100x50 [] dumb_100x50_typed) as H.
  vm_compute in H. destruct H as (_ & _ & _ & _ & _ & _ & _ & Hr & H).
  vm_compute. split; [exact (proj2 (H eq_refl))|exact Hr].
Defined.

(** The ioctl bounds bytes per line, not bits: with 2^29 + 100 pixels of 8 bits
    the number of bits wraps, and the internal helper returns a buffer whose
    pitch is 100 bytes. *)
Lemma dumb_pitch_wraps :
  let '(ret, args, _) :=
    drm_mode_create_dumb_ioctl (Some (drm_gem_dma_dumb_create_internal env_ok))
      (mkdumb 1 (2 ^ 29 + 100) 8 0 0 0) [] in
  ret = 0 /\ d_pitch args = 100 /\ d_width args = 2 ^ 29 + 100.
Proof. vm_compute. repeat split. Qed.
