(* ===== verification/DrmFramebuffer.v ===== *)
(** * DrmFramebuffer: framebuffer creation, the core plane checks and scanout
      addresses (src/drm/drm_framebuffer.c, drm_gem_framebuffer_helper.c,
      drm_modeset_helper.c, drm_plane.c, drm_atomic.c, drm_fb_dma_helper.c)

    A framebuffer request goes through [drm_internal_framebuffer_create],
    which validates the layout and calls the driver's [fb_create]; the GEM
    helper behind it looks the buffer objects up and checks their sizes.  The
    atomic core then checks the source rectangle of every plane against the
    framebuffer, and the drivers compute scanout addresses from it. *)

From S2P Require Export Uapi DrmFourcc.

(** [struct drm_mode_fb_cmd2]; the arrays have four entries. *)
Record drm_mode_fb_cmd2 := mkcmd {
  r_width : Z; r_height : Z; r_pixel_format : fourcc; r_flags : Z;
  r_handles : list Z; r_pitches : list Z; r_offsets : list Z; r_modifier : list Z
}.

Definition DRM_MODE_FB_INTERLACED : Z := BIT 0.
Definition DRM_MODE_FB_MODIFIERS : Z := BIT 1.
Definition DRM_FORMAT_MOD_LINEAR : Z := 0.
(** [fourcc_mod_code(SAMSUNG, 1)]; the vendor, 4, is in the top byte. *)
Definition DRM_FORMAT_MOD_SAMSUNG_64_32_TILE : Z := (4 .<< 56) .| 1.
Definition UINT_MAX : Z := 2 ^ 32 - 1.
Definition INT_MAX : Z := 2 ^ 31 - 1.

(** Plane sizes of the format header, with what is documented for planes whose
    size the subsampling divides. *)
Class PlaneSizeOps := {
  drm_format_info_plane_width : drm_format_info -> Z -> Z -> Z;
  drm_format_info_plane_height : drm_format_info -> Z -> Z -> Z
}.

Class PlaneSizeLaws `{!PlaneSizeOps} : Prop := {
  plane_width_0 i w : 0 < num_planes i -> drm_format_info_plane_width i w 0 = w;
  plane_height_0 i h : 0 < num_planes i -> drm_format_info_plane_height i h 0 = h;
  plane_width_sub i w p :
    0 < p < num_planes i -> 0 < hsub i -> w mod hsub i = 0 ->
    drm_format_info_plane_width i w p = w / hsub i;
  plane_height_sub i h p :
    0 < p < num_planes i -> 0 < vsub i -> h mod vsub i = 0 ->
    drm_format_info_plane_height i h p = h / vsub i
}.

#[export] Instance plane_size_ops : PlaneSizeOps | 10 := {
  drm_format_info_plane_width i w p :=
    if p >=? num_planes i then 0 else if p =? 0 then w else DIV_ROUND_UP w (hsub i);
  drm_format_info_plane_height i h p :=
    if p >=? num_planes i then 0 else if p =? 0 then h else DIV_ROUND_UP h (vsub i)
}.

(** ** drm_framebuffer.c *)

Section Framebuffer.
Context `{!PlaneSizeOps}.

(** The body of the first loop of [framebuffer_check]; 0 is "go on". *)
Definition fb_check_plane (info : drm_format_info) (r : drm_mode_fb_cmd2) (i : Z) : Z :=
  let width := drm_format_info_plane_width info (r_width r) i in
  let height := drm_format_info_plane_height info (r_height r) i in
  let block_size := aget (char_per_block info) i in
  let min_pitch := drm_format_info_min_pitch (Some info) i width in
  let modifier := aget (r_modifier r) i in
  let pitch := aget (r_pitches r) i in
  if (block_size =? 0) && (modifier =? DRM_FORMAT_MOD_LINEAR) then - EINVAL
  else if aget (r_handles r) i =? 0 then - EINVAL
  else if min_pitch >? UINT_MAX then - ERANGE
  else if u64 (height * pitch + aget (r_offsets r) i) >? UINT_MAX then - ERANGE
  else if truthy block_size && (pitch <? min_pitch) then - EINVAL
  else if truthy modifier && negb (truthy (r_flags r .& DRM_MODE_FB_MODIFIERS)) then - EINVAL
  else if truthy (r_flags r .& DRM_MODE_FB_MODIFIERS)
          && negb (modifier =? aget (r_modifier r) 0) then - EINVAL
  else if modifier =? DRM_FORMAT_MOD_SAMSUNG_64_32_TILE then
    if negb (bool_decide (r_pixel_format r = DRM_FORMAT_NV12))
       || truthy (width mod 128) || truthy (height mod 32) || truthy (pitch mod 128)
    then - EINVAL else 0
  else 0.

(** The body of the second loop, over the unused planes. *)
Definition fb_check_unused (r : drm_mode_fb_cmd2) (i : Z) : Z :=
  if truthy (aget (r_modifier r) i) then - EINVAL
  else if negb (truthy (r_flags r .& DRM_MODE_FB_MODIFIERS)) then 0
  else if truthy (aget (r_handles r) i) then - EINVAL
  else if truthy (aget (r_pitches r) i) then - EINVAL
  else if truthy (aget (r_offsets r) i) then - EINVAL
  else 0.

(** A loop that returns the first error. *)
Fixpoint first_err (f : Z -> Z) (l : list Z) : Z :=
  match l with
  | [] => 0
  | i :: l => let ret := f i in if truthy ret then ret else first_err f l
  end.

Definition planes_of (info : drm_format_info) : list Z := seqZ 0 (num_planes info).

Definition framebuffer_check (info : drm_format_info) (r : drm_mode_fb_cmd2) : Z :=
  if r_width r =? 0 then - EINVAL
  else if r_height r =? 0 then - EINVAL
  else
    let ret := first_err (fb_check_plane info r) (planes_of info) in
    if truthy ret then ret
    else first_err (fb_check_unused r) (seqZ (num_planes info) (4 - num_planes info)).

(** [fb_create] is the driver's hook; [W] is what it changes.  An error pointer
    is [inr]. *)
Definition drm_internal_framebuffer_create {W F}
    (config : drm_mode_config) (fb_modifiers_not_supported : bool)
    (get_format_info : option (fourcc -> Z -> option drm_format_info))
    (fb_create : drm_format_info -> drm_mode_fb_cmd2 -> W -> (F + Z) * W)
    (r : drm_mode_fb_cmd2) (w : W) : option ((F + Z) * W) :=
  if truthy (Z.ldiff (r_flags r) (DRM_MODE_FB_INTERLACED .| DRM_MODE_FB_MODIFIERS))
  then Some (inr (- EINVAL), w)
  else if (min_width config >? r_width r) || (r_width r >? max_width config)
  then Some (inr (- EINVAL), w)
  else if (min_height config >? r_height r) || (r_height r >? max_height config)
  then Some (inr (- EINVAL), w)
  else if truthy (r_flags r .& DRM_MODE_FB_MODIFIERS) && fb_modifiers_not_supported
  then Some (inr (- EINVAL), w)
  else
    match __drm_format_info (r_pixel_format r) with
    | None => Some (inr (- EINVAL), w)
    | Some _ =>
        match drm_get_format_info get_format_info (r_pixel_format r)
                (aget (r_modifier r) 0) with
        | None => None   (* NULL dereference in framebuffer_check *)
        | Some info =>
            let ret := framebuffer_check info r in
            if truthy ret then Some (inr ret, w)
            else Some (fb_create info r w)
        end
    end.

Definition drm_framebuffer_check_src_coords (src_x src_y src_w src_h : Z)
    (fb : drm_framebuffer) : Z :=
  let fb_width := u32 (fb_width fb .<< 16) in
  let fb_height := u32 (fb_height fb .<< 16) in
  if (src_w >? fb_width) || (src_x >? u32 (fb_width - src_w))
     || (src_h >? fb_height) || (src_y >? u32 (fb_height - src_h))
  then - ENOSPC else 0.

(** ** drm_gem_framebuffer_helper.c *)

(** A GEM object: its address in the kernel, size and DMA address. *)
Record gem_object := mkobj { go_id : Z; go_size : Z; go_dma : Z }.

(** Reference events on GEM objects and their handles. *)
Inductive fb_event : Set :=
| ObjGet (id : Z) | ObjPutRef (id : Z) | HandleGet (id : Z) | HandlePut (id : Z).

(** The services around it: the handle table, whether an object has a
    user-space handle, and the result of registering the mode object. *)
Record fb_env := mkfbenv {
  gem_object_lookup : Z -> option gem_object;
  gem_has_handle : gem_object -> bool;
  mode_object_add : Z;
  new_fb_id : Z
}.

Section Gem.
Variable env : fb_env.

Definition drm_helper_mode_fill_fb_struct (id : Z) (info : drm_format_info)
    (mode_cmd : drm_mode_fb_cmd2) (obj : list (option Z)) : drm_framebuffer :=
  mkfb id info (r_width mode_cmd) (r_height mode_cmd)
       (take 4 (r_pitches mode_cmd)) (take 4 (r_offsets mode_cmd))
       (aget (r_modifier mode_cmd) 0) obj.

(** The handle references of a framebuffer: taken for the objects that have a
    handle, dropped again when registration fails. *)
Definition drm_framebuffer_init (objs : list gem_object) (tr : list fb_event)
  : Z * list fb_event :=
  let refs := filter (fun o => gem_has_handle env o = true) objs in
  let tr := tr ++ (HandleGet <$> (go_id <$> refs)) in
  if truthy (mode_object_add env)
  then (mode_object_add env, tr ++ (HandlePut <$> (go_id <$> refs)))
  else (0, tr).

Definition drm_gem_fb_init (info : drm_format_info) (mode_cmd : drm_mode_fb_cmd2)
    (objs : list gem_object) (tr : list fb_event) : Z * drm_framebuffer * list fb_event :=
  let obj := (fun o => Some (go_dma o)) <$> objs in
  let fb := drm_helper_mode_fill_fb_struct (new_fb_id env) info mode_cmd
              (obj ++ replicate (4 - length objs) None) in
  let '(ret, tr) := drm_framebuffer_init objs tr in
  (ret, fb, tr).

(** The lookup loop; [objs] is what it has so far, in order.  The error value
    comes with the objects that [err_gem_object_put] has to drop. *)
Fixpoint fb_lookup_loop (info : drm_format_info) (mode_cmd : drm_mode_fb_cmd2)
    (l : list Z) (objs : list gem_object) (tr : list fb_event)
  : Z * list gem_object * list fb_event :=
  match l with
  | [] => (0, objs, tr)
  | i :: l =>
      let width := drm_format_info_plane_width info (r_width mode_cmd) i in
      let height := drm_format_info_plane_height info (r_height mode_cmd) i in
      match gem_object_lookup env (aget (r_handles mode_cmd) i) with
      | None => (- ENOENT, objs, tr)
      | Some o =>
          let tr := tr ++ [ObjGet (go_id o)] in
          let min_size :=
            u32 (u64 (u32 (u32 (height - 1) * aget (r_pitches mode_cmd) i)
                      + drm_format_info_min_pitch (Some info) i width
                      + aget (r_offsets mode_cmd) i)) in
          if go_size o <? min_size
          then (- EINVAL, objs, tr ++ [ObjPutRef (go_id o)])
          else fb_lookup_loop info mode_cmd l (objs ++ [o]) tr
      end
  end.

(** [any_plane_has_format] is [drm_any_plane_has_format] of the device, tested
    only by atomic drivers. *)
Definition drm_gem_fb_init_with_funcs (uses_atomic : bool)
    (any_plane_has_format : fourcc -> Z -> bool)
    (info : drm_format_info) (mode_cmd : drm_mode_fb_cmd2) (tr : list fb_event)
  : (drm_framebuffer + Z) * list fb_event :=
  if uses_atomic && negb (any_plane_has_format (r_pixel_format mode_cmd)
                                               (aget (r_modifier mode_cmd) 0))
  then (inr (- EINVAL), tr)
  else
    let '(ret, objs, tr) := fb_lookup_loop info mode_cmd (planes_of info) [] tr in
    let put_all tr := tr ++ (ObjPutRef <$> (go_id <$> rev objs)) in
    if truthy ret then (inr ret, put_all tr)
    else
      let '(ret, fb, tr) := drm_gem_fb_init info mode_cmd objs tr in
      if truthy ret then (inr ret, put_all tr)
      else (inl fb, tr).

(** [kzalloc_ok] is the allocation of the framebuffer structure. *)
Definition drm_gem_fb_create_with_funcs (kzalloc_ok uses_atomic : bool)
    (any_plane_has_format : fourcc -> Z -> bool)
    (info : drm_format_info) (mode_cmd : drm_mode_fb_cmd2) (tr : list fb_event)
  : (drm_framebuffer + Z) * list fb_event :=
  if negb kzalloc_ok then (inr (- ENOMEM), tr)
  else drm_gem_fb_init_with_funcs uses_atomic any_plane_has_format info mode_cmd tr.

End Gem.

(** [obj] has four slots. *)
Definition drm_gem_fb_get_obj (fb : drm_framebuffer) (plane : Z) : option Z :=
  if plane >=? 4 then None else default None (fb_obj fb !! Z.to_nat plane).

(** ** drm_fb_dma_helper.c *)

Definition drm_fb_dma_get_gem_obj (fb : drm_framebuffer) (plane : Z) : option Z :=
  match drm_gem_fb_get_obj fb plane with
  | None => None
  | Some gem => Some gem
  end.

Definition drm_fb_dma_get_gem_addr (fb : drm_framebuffer) (state : drm_plane_state)
    (plane : Z) : Z :=
  let block_w := drm_format_info_block_width (Some (fb_format fb)) plane in
  let block_h := drm_format_info_block_height (Some (fb_format fb)) plane in
  let block_size := aget (char_per_block (fb_format fb)) plane in
  match drm_fb_dma_get_gem_obj fb plane with
  | None => 0
  | Some obj =>
      let dma_addr := u64 (obj + aget (fb_offsets fb) plane) in
      let h_div := if plane >? 0 then hsub (fb_format fb) else 1 in
      let v_div := if plane >? 0 then vsub (fb_format fb) else 1 in
      let sample_x := (src_x state .>> 16) / h_div in
      let sample_y := (src_y state .>> 16) / v_div in
      let block_start_y := u32 (sample_y / block_h * block_h) in
      let num_hblocks := sample_x / block_w in
      let dma_addr := u64 (dma_addr + u32 (aget (fb_pitches fb) plane * block_start_y)) in
      u64 (dma_addr + u32 (block_size * num_hblocks))
  end.

End Framebuffer.

(** ** drm_plane.c, drm_atomic.c *)

(** What the format check reads of a plane. *)
Record drm_plane := mkplane {
  possible_crtcs : Z;
  format_types : list fourcc;
  format_mod_supported : option (fourcc -> Z -> bool);
  modifiers : list Z
}.

Definition drm_plane_has_format (plane : drm_plane) (format : fourcc) (modifier : Z) : bool :=
  if negb (existsb (fun f => bool_decide (f = format)) (format_types plane)) then false
  else match format_mod_supported plane with
       | Some hook => hook format modifier
       | None =>
           match modifiers plane with
           | [] => true
           | ms => existsb (Z.eqb modifier) ms
           end
       end.

Definition drm_any_plane_has_format (planes : list drm_plane) (format : fourcc)
    (modifier : Z) : bool :=
  existsb (fun p => drm_plane_has_format p format modifier) planes.

Definition plane_switching_crtc (old_plane_state new_plane_state : drm_plane_state) : bool :=
  match ps_crtc old_plane_state, ps_crtc new_plane_state with
  | Some o, Some n => negb (o =? n)%nat
  | _, _ => false
  end.

(** One damage clip; the comparison with the framebuffer size is unsigned. *)
Definition bad_damage_clip (fb_width fb_height : Z) (c : drm_rect) : bool :=
  ((x1 c >=? x2 c) || (y1 c >=? y2 c) || (x1 c <? 0) || (y1 c <? 0)
   || (u32 (x2 c) >? fb_width) || (u32 (y2 c) >? fb_height))%bool.

Definition drm_atomic_plane_check (plane : drm_plane) (clips : list drm_rect)
    (old_plane_state new_plane_state : drm_plane_state) : Z :=
  let st := new_plane_state in
  match ps_crtc st, ps_fb st with
  | Some _, None => - EINVAL
  | None, Some _ => - EINVAL
  | None, None => 0
  | Some crtc, Some fb =>
      if negb (truthy (possible_crtcs plane .& BIT (Z.of_nat crtc))) then - EINVAL
      else if negb (drm_plane_has_format plane (format (fb_format fb)) (fb_modifier fb))
      then - EINVAL
      else if (crtc_w st >? INT_MAX) || (crtc_x st >? INT_MAX - crtc_w st)
              || (crtc_h st >? INT_MAX) || (crtc_y st >? INT_MAX - crtc_h st)
      then - ERANGE
      else
        let fb_width := u32 (fb_width fb .<< 16) in
        let fb_height := u32 (fb_height fb .<< 16) in
        if (src_w st >? fb_width) || (src_x st >? u32 (fb_width - src_w st))
           || (src_h st >? fb_height) || (src_y st >? u32 (fb_height - src_h st))
        then - ENOSPC
        else if existsb (bad_damage_clip fb_width fb_height) clips then - EINVAL
        else if plane_switching_crtc old_plane_state new_plane_state then - EINVAL
        else 0
  end.

(** ** Facts: the validation loops *)

Lemma div_round_up_exact w d : 0 < d -> w mod d = 0 -> DIV_ROUND_UP w d = w / d.
Proof.
  intros Hd Hm. unfold DIV_ROUND_UP. apply Z.mod_divide in Hm as [q ->]; [|lia].
  rewrite Z.div_mul by lia. symmetry. apply (Z.div_unique_pos _ _ _ (d - 1)); lia.
Qed.

#[export] Instance plane_size_laws : PlaneSizeLaws | 10.
Proof.
  split; cbn.
  - intros i w Hn. by rewrite Z.geb_leb, (proj2 (Z.leb_gt _ _) Hn).
  - intros i w Hn. by rewrite Z.geb_leb, (proj2 (Z.leb_gt _ _) Hn).
  - intros i w p [Hp Hn] Hs Hm. rewrite Z.geb_leb, (proj2 (Z.leb_gt _ _) Hn).
    rewrite (proj2 (Z.eqb_neq p 0)) by lia. by apply div_round_up_exact.
  - intros i h p [Hp Hn] Hs Hm. rewrite Z.geb_leb, (proj2 (Z.leb_gt _ _) Hn).
    rewrite (proj2 (Z.eqb_neq p 0)) by lia. by apply div_round_up_exact.
Qed.

Lemma first_err_0 f l : first_err f l = 0 <-> Forall (fun i => f i = 0) l.
Proof.
  induction l as [|i l IH]; cbn; [done|]. rewrite Forall_cons. unfold truthy.
  destruct (Z.eqb_spec (f i) 0); cbn; [tauto|]. tauto.
Qed.

Section Facts.
Context `{Hps : !PlaneSizeOps}.

Lemma truthy_false x : truthy x = false <-> x = 0.
Proof. unfold truthy. rewrite negb_false_iff. apply Z.eqb_eq. Qed.

(** What an accepted plane of a request satisfies. *)
Lemma fb_check_plane_ok info r i :
  fb_check_plane info r i = 0 ->
  let pitch := aget (r_pitches r) i in
  let h := drm_format_info_plane_height info (r_height r) i in
  let w := drm_format_info_plane_width info (r_width r) i in
  let mp := drm_format_info_min_pitch (Some info) i w in
  mp <= UINT_MAX
  /\ u64 (h * pitch + aget (r_offsets r) i) <= UINT_MAX
  /\ (aget (char_per_block info) i <> 0 -> mp <= pitch).
Proof.
  unfold fb_check_plane. cbv zeta. intros Hz.
  destruct (_ && _)%bool; [done|]. destruct (aget (r_handles r) i =? 0); [done|].
  destruct (Z.gtb_spec (drm_format_info_min_pitch (Some info) i
    (drm_format_info_plane_width info (r_width r) i)) UINT_MAX); [done|].
  destruct (Z.gtb_spec (u64 (drm_format_info_plane_height info (r_height r) i
    * aget (r_pitches r) i + aget (r_offsets r) i)) UINT_MAX); [done|].
  split; [done|]. split; [done|]. intros Hc.
  destruct (Z.ltb_spec (aget (r_pitches r) i) (drm_format_info_min_pitch (Some info) i
    (drm_format_info_plane_width info (r_width r) i))); [|done].
  destruct (truthy (aget (char_per_block info) i)) eqn:E; [done|].
  by apply truthy_false in E.
Qed.

Lemma framebuffer_check_ok info r :
  framebuffer_check info r = 0 ->
  r_width r <> 0 /\ r_height r <> 0
  /\ Forall (fun i => fb_check_plane info r i = 0) (planes_of info).
Proof.
  unfold framebuffer_check.
  destruct (Z.eqb_spec (r_width r) 0); [done|]. destruct (Z.eqb_spec (r_height r) 0); [done|].
  destruct (truthy _) eqn:E; [by unfold truthy in E; intros H; rewrite H in E|].
  apply truthy_false, first_err_0 in E. done.
Qed.

(** The minimum size of the object behind plane [i], as computed. *)
Definition min_size_of (info : drm_format_info) (r : drm_mode_fb_cmd2) (i : Z) : Z :=
  u32 (u64 (u32 (u32 (drm_format_info_plane_height info (r_height r) i - 1)
                 * aget (r_pitches r) i)
            + drm_format_info_min_pitch (Some info) i
                (drm_format_info_plane_width info (r_width r) i)
            + aget (r_offsets r) i)).

Lemma lookup_loop_spec env info r l : forall objs tr,
  let '(ret, objs', tr') := fb_lookup_loop env info r l objs tr in
  exists os, objs' = objs ++ os
  /\ (ret = 0 -> tr' = tr ++ (ObjGet <$> (go_id <$> os))
      /\ Forall2 (fun i o => gem_object_lookup env (aget (r_handles r) i) = Some o
                             /\ min_size_of info r i <= go_size o) l os)
  /\ (ret <> 0 -> tr' = tr ++ (ObjGet <$> (go_id <$> os))
      \/ exists o, tr' = tr ++ (ObjGet <$> (go_id <$> os)) ++ [ObjGet (go_id o); ObjPutRef (go_id o)]).
Proof.
  induction l as [|i l IH]; intros objs tr; cbn [fb_lookup_loop]; cbv zeta.
  - exists []. rewrite !app_nil_r. repeat split; try done; by constructor.
  - destruct (gem_object_lookup env (aget (r_handles r) i)) as [o|] eqn:Eo.
    2:{ exists []. rewrite !app_nil_r. split; [done|]. split; [done|]. intros _. by left. }
    fold (min_size_of info r i).
    destruct (Z.ltb_spec (go_size o) (min_size_of info r i)) as [Hlt|Hge].
    { exists []. rewrite !app_nil_r. split; [done|]. split; [done|]. intros _. right.
      exists o. by rewrite <- app_assoc. }
    specialize (IH (objs ++ [o]) (tr ++ [ObjGet (go_id o)])).
    destruct (fb_lookup_loop env info r l _ _) as [[ret objs'] tr'].
    destruct IH as (os & -> & Hok & Herr). exists (o :: os). split; [by rewrite <- app_assoc|].
    split.
    + intros H0. destruct (Hok H0) as [-> Hf]. split; [by rewrite <- app_assoc|].
      by constructor.
    + intros H0. destruct (Herr H0) as [->|[o' ->]]; [left|right; exists o'];
        by rewrite <- !app_assoc.
Qed.

(** A successful creation, taken apart. *)
Lemma fb_create_ok env kz ua anyf info r tr fb tr' :
  drm_gem_fb_create_with_funcs env kz ua anyf info r tr = (inl fb, tr') ->
  exists os, Forall2 (fun i o => gem_object_lookup env (aget (r_handles r) i) = Some o
                      /\ min_size_of info r i <= go_size o) (planes_of info) os
  /\ fb = drm_helper_mode_fill_fb_struct (new_fb_id env) info r
            (((fun o => Some (go_dma o)) <$> os) ++ replicate (4 - length os) None).
Proof.
  unfold drm_gem_fb_create_with_funcs, drm_gem_fb_init_with_funcs, drm_gem_fb_init.
  destruct kz; [|done]. cbn. destruct (_ && _)%bool; [done|].
  pose proof (lookup_loop_spec env info r (planes_of info) [] tr) as Hl.
  destruct (fb_lookup_loop _ _ _ _ _ _) as [[ret objs] t].
  destruct Hl as (os & -> & Hok & _). cbn.
  destruct (truthy ret) eqn:E; [done|]. apply truthy_false in E.
  destruct (Hok E) as [_ Hf].
  destruct (drm_framebuffer_init _ _ _) as [ret2 t2]. destruct (truthy ret2); [done|].
  intros [= <- _]. by exists os.
Qed.
End Facts.

(** ** Facts: scanout addresses *)

Definition cmd_typed (r : drm_mode_fb_cmd2) : Prop :=
  is_u32 (r_width r) /\ is_u32 (r_height r)
  /\ Forall is_u32 (r_pitches r) /\ Forall is_u32 (r_offsets r).

Definition source_typed (st : drm_plane_state) : Prop :=
  is_u32 (src_x st) /\ is_u32 (src_y st) /\ is_u32 (src_w st) /\ is_u32 (src_h st).

(** Horizontal and vertical subsampling of plane [p]. *)
Definition hdiv (info : drm_format_info) (p : Z) : Z := if p >? 0 then hsub info else 1.
Definition vdiv (info : drm_format_info) (p : Z) : Z := if p >? 0 then vsub info else 1.

(** A plane of whole-byte pixels: what every RGB and semi-planar 8-bit YUV
    format of the drivers is. *)
Definition byte_pixels (info : drm_format_info) (p : Z) : Prop :=
  drm_format_info_block_width (Some info) p = 1
  /\ drm_format_info_block_height (Some info) p = 1
  /\ 0 < aget (char_per_block info) p.

(** Pixel (x, y) is, at least in part, inside the source rectangle. *)
Definition in_source (st : drm_plane_state) (x y : Z) : Prop :=
  src_x st .>> 16 <= x /\ x * 65536 < src_x st + src_w st
  /\ src_y st .>> 16 <= y /\ y * 65536 < src_y st + src_h st.

Lemma aget_u32 l i : Forall is_u32 l -> is_u32 (aget l i).
Proof.
  intros Hl. unfold aget. destruct (nth_in_or_default (Z.to_nat i) l 0) as [Hin| ->]; [|done].
  rewrite Forall_forall in Hl. by apply Hl, list_elem_of_In.
Qed.

Lemma aget_take l i k : 0 <= i < k -> aget (take (Z.to_nat k) l) i = aget l i.
Proof.
  intros Hi. unfold aget. rewrite !nth_lookup, lookup_take_lt by lia. done.
Qed.

Section Scanout.
Context `{Hps : !PlaneSizeOps} `{Hpl : !PlaneSizeLaws}.

Lemma fmt_wf_subsampling info :
  fmt_wf info = true -> 1 <= num_planes info <= 3 /\ 1 <= hsub info <= 4 /\ 1 <= vsub info <= 4.
Proof. unfold fmt_wf. rewrite !andb_true_iff. intros Hwf. destruct_and!. zb. lia. Qed.

Lemma plane_dims info w h p :
  fmt_wf info = true -> 0 <= p < num_planes info ->
  w mod hdiv info p = 0 -> h mod vdiv info p = 0 ->
  drm_format_info_plane_width info w p = w / hdiv info p
  /\ drm_format_info_plane_height info h p = h / vdiv info p
  /\ 1 <= hdiv info p <= 4 /\ 1 <= vdiv info p <= 4.
Proof.
  intros (Hn & Hh & Hv)%fmt_wf_subsampling Hp. unfold hdiv, vdiv.
  destruct (Z.gtb_spec p 0); intros Hw Hht.
  - by rewrite plane_width_sub, plane_height_sub by lia.
  - replace p with 0 by lia.
    rewrite plane_width_0, plane_height_0, !Z.div_1_r by lia. lia.
Qed.

(** The size check covers every line of the plane, without wrap-around. *)
Lemma min_size_exact info r p :
  fmt_wf info = true -> cmd_typed r -> 0 <= p < num_planes info ->
  byte_pixels info p -> fb_check_plane info r p = 0 ->
  let h := drm_format_info_plane_height info (r_height r) p in
  let w := drm_format_info_plane_width info (r_width r) p in
  let pitch := aget (r_pitches r) p in
  let off := aget (r_offsets r) p in
  let cpp := aget (char_per_block info) p in
  1 <= h <= r_height r -> 0 <= w <= r_width r ->
  w * cpp <= pitch /\ h * pitch + off <= UINT_MAX
  /\ min_size_of info r p = (h - 1) * pitch + w * cpp + off.
Proof.
  intros Hwf (Hw & Hh & Hpi & Hof) Hp (Hbw & Hbh & Hc) Hck h w pitch off cpp Hhr Hwr.
  apply (aget_u32 _ p) in Hpi. apply (aget_u32 _ p) in Hof. fold pitch in Hpi. fold off in Hof.
  apply fb_check_plane_ok in Hck. cbv zeta in Hck. fold h w pitch off cpp in Hck.
  destruct Hck as (Hmp & Hsz & Hpm).
  destruct (min_pitch_eq info p w Hwf Hp) as [_ Hm].
  { unfold is_u32 in *. lia. }
  rewrite Hbw, Hbh in Hm. fold cpp in Hm. unfold min_size_of. fold h w pitch off.
  set (mp := drm_format_info_min_pitch (Some info) p w) in *.
  assert (Hmpw : mp = w * cpp) by lia. specialize (Hpm ltac:(lia)).
  unfold is_u32, UINT_MAX in *.
  assert (Hno : 0 <= h * pitch + off < 2 ^ 64) by nia.
  rewrite u64_id in Hsz by done.
  split; [lia|]. split; [done|].
  rewrite (u32_id (h - 1)) by (unfold is_u32; lia).
  rewrite (u32_id ((h - 1) * pitch)) by (unfold is_u32; nia).
  rewrite u64_id by (unfold is_u64; nia). rewrite u32_id by (unfold is_u32; nia). lia.
Qed.

(** Without wrap-around the computed address is the linear one. *)
Lemma gem_addr_linear fb st p dma :
  drm_gem_fb_get_obj fb p = Some dma ->
  byte_pixels (fb_format fb) p ->
  let sx := (src_x st .>> 16) / hdiv (fb_format fb) p in
  let sy := (src_y st .>> 16) / vdiv (fb_format fb) p in
  let pitch := aget (fb_pitches fb) p in
  let off := aget (fb_offsets fb) p in
  let cpp := aget (char_per_block (fb_format fb)) p in
  0 <= dma -> 0 <= off -> 0 <= sx -> 0 <= sy -> 0 <= pitch -> sy < 2 ^ 32 ->
  pitch * sy < 2 ^ 32 -> cpp * sx < 2 ^ 32 ->
  dma + off + pitch * sy + cpp * sx < 2 ^ 64 ->
  drm_fb_dma_get_gem_addr fb st p = dma + off + pitch * sy + cpp * sx.
Proof.
  intros Hobj (Hbw & Hbh & Hc) sx sy pitch off cpp Hd Ho Hsx Hsy Hpi Hsy32 H1 H2 H3.
  unfold drm_fb_dma_get_gem_addr, drm_fb_dma_get_gem_obj. rewrite Hobj, Hbw, Hbh.
  fold (hdiv (fb_format fb) p) (vdiv (fb_format fb) p). fold sx sy pitch off cpp.
  rewrite !Z.div_1_r, Z.mul_1_r.
  rewrite (u32_id sy), (u32_id (pitch * sy)), (u32_id (cpp * sx)) by (unfold is_u32; nia).
  rewrite (u64_id (dma + off)) by (unfold is_u64; nia).
  rewrite (u64_id (dma + off + pitch * sy)) by (unfold is_u64; nia).
  rewrite u64_id by (unfold is_u64; nia). done.
Qed.

Lemma shl16_le w : 0 <= w -> u32 (w .<< 16) <= w * 65536.
Proof.
  intros Hw. rewrite Z.shiftl_mul_pow2 by lia. unfold u32.
  change (2 ^ 16) with 65536. apply Z.mod_le; lia.
Qed.

(** The core's source check confines the source to the framebuffer. *)
Lemma plane_check_source plane clips old st fb c x y :
  ps_fb st = Some fb -> ps_crtc st = Some c -> source_typed st ->
  is_u32 (fb_width fb) -> is_u32 (fb_height fb) ->
  drm_atomic_plane_check plane clips old st = 0 -> in_source st x y ->
  0 <= src_x st .>> 16 <= x /\ x < fb_width fb
  /\ 0 <= src_y st .>> 16 <= y /\ y < fb_height fb.
Proof.
  intros Hfb Hc (Hx & Hy & Hw & Hh) Hfw Hfh. unfold drm_atomic_plane_check.
  rewrite Hfb, Hc. unfold is_u32 in *.
  destruct (negb (truthy _)); [done|]. destruct (negb (drm_plane_has_format _ _ _)); [done|].
  destruct (_ || (crtc_y st >? _))%bool; [done|].
  destruct (_ || (src_y st >? _))%bool eqn:E; [done|]. intros _ (Hx1 & Hx2 & Hy1 & Hy2). zb.
  pose proof (shl16_le (fb_width fb) ltac:(lia)). pose proof (shl16_le (fb_height fb) ltac:(lia)).
  pose proof (u32_range (fb_width fb .<< 16)). pose proof (u32_range (fb_height fb .<< 16)).
  unfold is_u32 in *.
  set (fw := u32 (fb_width fb .<< 16)) in *. set (fh := u32 (fb_height fb .<< 16)) in *.
  pose proof (u32_id (fw - src_w st)) as Hi1. pose proof (u32_id (fh - src_h st)) as Hi2.
  unfold is_u32 in Hi1, Hi2. rewrite Hi1, Hi2 in * by lia.
  assert (0 <= src_x st .>> 16) by (apply Z.shiftr_nonneg; lia).
  assert (0 <= src_y st .>> 16) by (apply Z.shiftr_nonneg; lia). lia.
Qed.

(** Pixel coordinates scale down into a subsampled plane. *)
Lemma sub_coord s x w d :
  1 <= d -> 0 <= s <= x -> x < w -> w mod d = 0 -> 0 <= s / d <= x / d /\ x / d < w / d /\ w / d <= w.
Proof.
  intros Hd Hs Hx Hm. split_and!; [by apply Z.div_pos; lia|by apply Z.div_le_mono; lia| |apply Z.div_le_upper_bound; nia].
  apply Z.mod_divide in Hm as [q ->]; [|lia]. rewrite Z.div_mul by lia. apply Z.div_lt_upper_bound; lia.
Qed.

(** A pixel of the source rectangle, at its linear address. *)
Lemma pixel_in_object dma off pitch cpp sx sy X Y w h size :
  0 <= pitch -> 0 <= cpp -> 0 <= sx <= X /\ X < w -> 0 <= sy <= Y /\ Y < h -> w * cpp <= pitch ->
  (h - 1) * pitch + w * cpp + off <= size ->
  let a := dma + off + pitch * sy + cpp * sx + (Y - sy) * pitch + (X - sx) * cpp in
  dma + off <= a /\ a + cpp <= dma + size.
Proof.
  intros Hp Hc [HX1 HX2] [HY1 HY2] Hw Hs a. unfold a.
  replace (dma + off + pitch * sy + cpp * sx + (Y - sy) * pitch + (X - sx) * cpp)
    with (dma + off + Y * pitch + X * cpp) by lia. split; [nia|].
  assert (Y * pitch <= (h - 1) * pitch) by nia. assert ((X + 1) * cpp <= w * cpp) by nia. lia.
Qed.

(** What the checks say of a plane whose size divides evenly. *)
Lemma checked_layout info r p :
  fmt_wf info = true -> framebuffer_check info r = 0 -> cmd_typed r -> 0 <= p < num_planes info ->
  byte_pixels info p -> r_width r mod hdiv info p = 0 -> r_height r mod vdiv info p = 0 ->
  let w := r_width r / hdiv info p in
  let h := r_height r / vdiv info p in
  let pitch := aget (r_pitches r) p in
  let off := aget (r_offsets r) p in
  let cpp := aget (char_per_block info) p in
  1 <= h -> w * cpp <= pitch /\ h * pitch + off <= UINT_MAX
  /\ min_size_of info r p = (h - 1) * pitch + w * cpp + off.
Proof.
  intros Hwf (Hw0 & Hh0 & Hfc)%framebuffer_check_ok Hty Hp Hbp Hmw Hmh w h pitch off cpp Hh1.
  pose proof Hty as (Hw & Hh & _). unfold is_u32 in Hw, Hh.
  destruct (plane_dims info (r_width r) (r_height r) p Hwf Hp Hmw Hmh) as (Hpw & Hph & Hhd & Hvd).
  assert (Hpk : fb_check_plane info r p = 0).
  { rewrite Forall_forall in Hfc. apply Hfc. unfold planes_of. apply elem_of_seqZ. lia. }
  pose proof (Z.div_le_upper_bound (r_width r) (hdiv info p) (r_width r) ltac:(lia) ltac:(nia)).
  pose proof (Z.div_le_upper_bound (r_height r) (vdiv info p) (r_height r) ltac:(lia) ltac:(nia)).
  pose proof (Z.div_pos (r_width r) (hdiv info p) ltac:(lia) ltac:(lia)).
  pose proof (min_size_exact info r p Hwf Hty Hp Hbp Hpk) as Hm. cbv zeta in Hm. rewrite Hpw, Hph in Hm.
  apply Hm; unfold w, h in *; lia.
Qed.
End Scanout.

(** What [drm_internal_framebuffer_create] has checked when the hook ran. *)
Lemma internal_create_ok `{Hps : !PlaneSizeOps} {W F} config nomod
    (hook : drm_format_info -> drm_mode_fb_cmd2 -> W -> (F + Z) * W) r w f w' :
  drm_internal_framebuffer_create config nomod None hook r w = Some (inl f, w') ->
  exists info, __drm_format_info (r_pixel_format r) = Some info
  /\ framebuffer_check info r = 0 /\ hook info r w = (inl f, w').
Proof.
  unfold drm_internal_framebuffer_create. repeat (case_match; try done).
  unfold drm_get_format_info, drm_format_info_lookup in *. simplify_eq.
  intros [= Hk]. eexists. split; [done|]. split; [|done]. by apply truthy_false.
Qed.

(** References an object gains over a trace. *)
Definition obj_weight (id : Z) (e : fb_event) : Z :=
  match e with
  | ObjGet i => if i =? id then 1 else 0
  | ObjPutRef i => if i =? id then -1 else 0
  | _ => 0
  end.
Definition handle_weight (id : Z) (e : fb_event) : Z :=
  match e with
  | HandleGet i => if i =? id then 1 else 0
  | HandlePut i => if i =? id then -1 else 0
  | _ => 0
  end.
Definition weigh (f : fb_event -> Z) (tr : list fb_event) : Z := foldr (fun e n => f e + n) 0 tr.

Lemma weigh_app f t1 t2 : weigh f (t1 ++ t2) = weigh f t1 + weigh f t2.
Proof. induction t1 as [|e t1 IH]; cbn; [done|]. unfold weigh in *. rewrite IH. lia. Qed.

Lemma weigh_nil f : weigh f [] = 0.
Proof. done. Qed.

(** Occurrences of an id. *)
Definition count_id (id : Z) (l : list Z) : Z := foldr (fun i n => (if i =? id then 1 else 0) + n) 0 l.

Lemma count_id_app id l1 l2 : count_id id (l1 ++ l2) = count_id id l1 + count_id id l2.
Proof. induction l1 as [|i l1 IH]; cbn; [done|]. unfold count_id in *. rewrite IH. lia. Qed.

Lemma count_id_rev id l : count_id id (rev l) = count_id id l.
Proof.
  induction l as [|i l IH]; [done|]. change (rev (i :: l)) with (rev l ++ [i]).
  rewrite count_id_app, IH. unfold count_id; cbn. lia.
Qed.

Lemma weigh_events id l :
  weigh (obj_weight id) (ObjGet <$> l) = count_id id l
  /\ weigh (obj_weight id) (ObjPutRef <$> l) = - count_id id l
  /\ weigh (handle_weight id) (ObjGet <$> l) = 0
  /\ weigh (handle_weight id) (ObjPutRef <$> l) = 0
  /\ weigh (obj_weight id) (HandleGet <$> l) = 0
  /\ weigh (obj_weight id) (HandlePut <$> l) = 0
  /\ weigh (handle_weight id) (HandleGet <$> l) = count_id id l
  /\ weigh (handle_weight id) (HandlePut <$> l) = - count_id id l.
Proof.
  induction l as [|i l IH]; cbn; [done|]. unfold weigh, count_id in *.
  destruct IH as (-> & -> & -> & -> & -> & -> & -> & ->).
  destruct (i =? id); lia.
Qed.

Lemma fmap_rev_ids (os : list gem_object) : go_id <$> rev os = rev (go_id <$> os).
Proof. induction os as [|o os IH]; cbn; [done|]. by rewrite fmap_app, IH. Qed.

(** The object and handle references after [drm_gem_fb_create_with_funcs]. *)
Lemma fb_create_refs `{Hps : !PlaneSizeOps} env kz ua anyf info r tr id :
  let '(res, tr') := drm_gem_fb_create_with_funcs env kz ua anyf info r tr in
  match res with
  | inr _ => weigh (obj_weight id) tr' = weigh (obj_weight id) tr
             /\ weigh (handle_weight id) tr' = weigh (handle_weight id) tr
  | inl fb => exists os,
      Forall2 (fun i o => gem_object_lookup env (aget (r_handles r) i) = Some o) (planes_of info) os
      /\ weigh (obj_weight id) tr' = weigh (obj_weight id) tr + count_id id (go_id <$> os)
      /\ weigh (handle_weight id) tr'
         = weigh (handle_weight id) tr
           + count_id id (go_id <$> filter (fun o => gem_has_handle env o = true) os)
  end.
Proof.
  unfold drm_gem_fb_create_with_funcs, drm_gem_fb_init_with_funcs, drm_gem_fb_init.
  destruct kz; cbn; [|done]. destruct (_ && _)%bool; [done|].
  pose proof (lookup_loop_spec env info r (planes_of info) [] tr) as Hl.
  destruct (fb_lookup_loop _ _ _ _ _ _) as [[ret objs] t].
  destruct Hl as (os & -> & Hok & Herr). cbn [app] in *.
  pose proof (weigh_events id (go_id <$> os)) as (G1 & _ & G2 & _).
  pose proof (weigh_events id (go_id <$> rev os)) as (_ & P1 & _ & P2 & _).
  rewrite fmap_rev_ids in P1, P2. rewrite count_id_rev in P1.
  destruct (truthy ret) eqn:E.
  - assert (Hne : ret <> 0) by (intros ->; done).
    rewrite fmap_rev_ids.
    destruct (Herr Hne) as [->|[o ->]]; rewrite !weigh_app, G1, G2, P1, P2; cbn.
    + lia.
    + destruct (go_id o =? id); lia.
  - apply truthy_false in E. destruct (Hok E) as [-> Hf].
    unfold drm_framebuffer_init.
    set (hs := filter _ os).
    pose proof (weigh_events id (go_id <$> hs)) as (_ & _ & _ & _ & H1 & H2 & H3 & H4).
    destruct (truthy (mode_object_add env)) eqn:Em.
    + cbn. rewrite Em, fmap_rev_ids. rewrite !weigh_app, G1, G2, P1, P2, H1, H2, H3, H4. lia.
    + cbn. exists os. split.
      { eapply Forall2_impl; [exact Hf|]. by intros ?? [? _]. }
      rewrite !weigh_app, G1, G2, H1, H3. fold hs. lia.
Qed.

(** ** Main theorems *)

(** C7: Memory safety of scanout, end to end. For a framebuffer that
    [drm_internal_framebuffer_create] built through the GEM helper and a plane
    state that passed [drm_atomic_plane_check], every pixel of the (16.16)
    source rectangle, in every colour plane of whole-byte pixels, lies inside
    the GEM object of that plane, at the address the drivers compute with
    [drm_fb_dma_get_gem_addr] plus the linear offset of the pixel. The 32-bit
    and 64-bit arithmetic of the checks and of the address never wraps.  (The request
    and the source rectangle hold 32-bit values, the size of the framebuffer is a
    multiple of the plane's subsampling, and the objects lie within 64-bit memory.) *)
Theorem scanout_in_bounds `{Hps : !PlaneSizeOps} `{Hpl : !PlaneSizeLaws}
    env kz ua anyf config nomod r tr fb tr' plane clips old st c p x y :
  drm_internal_framebuffer_create config nomod None
    (drm_gem_fb_create_with_funcs env kz ua anyf) r tr = Some (inl fb, tr') ->
  ps_fb st = Some fb -> ps_crtc st = Some c ->
  drm_atomic_plane_check plane clips old st = 0 ->
  cmd_typed r -> source_typed st ->
  (forall h o, gem_object_lookup env h = Some o -> 0 <= go_dma o /\ go_dma o + go_size o <= 2 ^ 64) ->
  let info := fb_format fb in
  0 <= p < num_planes info -> byte_pixels info p ->
  fb_width fb mod hdiv info p = 0 -> fb_height fb mod vdiv info p = 0 ->
  in_source st x y ->
  exists o, gem_object_lookup env (aget (r_handles r) p) = Some o
  /\ let X := x / hdiv info p - (src_x st .>> 16) / hdiv info p in
     let Y := y / vdiv info p - (src_y st .>> 16) / vdiv info p in
     let cpp := aget (char_per_block info) p in
     let a := drm_fb_dma_get_gem_addr fb st p + Y * aget (fb_pitches fb) p + X * cpp in
     0 <= X /\ 0 <= Y /\ go_dma o + aget (fb_offsets fb) p <= a
     /\ a + cpp <= go_dma o + go_size o.
Proof.
  intros Hcr Hfb Hc Hck Hty Hst Henv info Hp Hbp Hmw Hmh Hin.
  apply internal_create_ok in Hcr as (info' & Hinfo & Hfc & Hcr).
  apply fb_create_ok in Hcr as (os & Hos & ->).
  cbn [fb_format drm_helper_mode_fill_fb_struct] in info. subst info. rename info' into info. unfold drm_helper_mode_fill_fb_struct in *.
  cbn [fb_format fb_width fb_height fb_pitches fb_offsets fb_obj] in Hp, Hbp, Hmw, Hmh, Hfb |- *.
  apply format_info_wf in Hinfo as Hwf. destruct (fmt_wf_subsampling info Hwf) as (Hnp & _).
  pose proof Hty as (Hw & Hh & Hpi & Hof).
  destruct (plane_check_source plane clips old st _ c x y Hfb Hc Hst Hw Hh Hck Hin)
    as (Hx0 & Hx & Hy0 & Hy). cbn in Hx, Hy.
  destruct (plane_dims info (r_width r) (r_height r) p Hwf Hp Hmw Hmh) as (_ & _ & Hhd & Hvd).
  pose proof (sub_coord _ x (r_width r) (hdiv info p) ltac:(lia) Hx0 Hx Hmw) as (HX1 & HX & HXw).
  pose proof (sub_coord _ y (r_height r) (vdiv info p) ltac:(lia) Hy0 Hy Hmh) as (HY1 & HY & HYh).
  unfold is_u32 in Hw, Hh.
  destruct (checked_layout info r p Hwf Hfc Hty Hp Hbp Hmw Hmh) as (Hpitch & Hsz & Hms); [lia|].
  (* the object behind plane p *)
  assert (Hseq : planes_of info !! Z.to_nat p = Some p).
  { unfold planes_of. rewrite lookup_seqZ_lt by lia. f_equal. lia. }
  destruct (Forall2_lookup_l _ _ _ _ _ Hos Hseq) as (o & Ho & Hlk & Hsize).
  exists o. split; [done|]. destruct (Henv _ _ Hlk) as [Hd0 Hd1].
  apply (aget_u32 _ p) in Hpi, Hof. unfold is_u32 in Hpi, Hof. pose proof Hbp as (_ & _ & Hcpp).
  set (cpp := aget (char_per_block info) p) in *.
  set (w := r_width r / hdiv info p) in *. set (h := r_height r / vdiv info p) in *.
  unfold UINT_MAX in Hsz. rewrite Hms in Hsize.
  assert (Hl1 : aget (take 4 (r_pitches r)) p = aget (r_pitches r) p) by (apply (aget_take _ _ 4); lia).
  assert (Hl2 : aget (take 4 (r_offsets r)) p = aget (r_offsets r) p) by (apply (aget_take _ _ 4); lia).
  rewrite Hl1, Hl2.
  set (pitch := aget (r_pitches r) p) in *. set (off := aget (r_offsets r) p) in *.
  erewrite gem_addr_linear with (dma := go_dma o); cbn [fb_format fb_pitches fb_offsets fb_obj];
    fold cpp; rewrite ?Hl1, ?Hl2; fold pitch off; try done; [| |lia|lia|nia..].
  - split; [lia|]. split; [lia|]. apply (pixel_in_object _ _ _ _ _ _ _ _ w h); try split; lia.
  - unfold drm_gem_fb_get_obj. cbn. rewrite Z.geb_leb, (proj2 (Z.leb_gt 4 p)) by lia.
    rewrite lookup_app_l by (rewrite length_fmap; by eapply lookup_lt_Some).
    by rewrite list_lookup_fmap, Ho.
Qed.

(** [drm_gem_fb_create_with_funcs] leaks nothing: when it fails, at any
    step - allocation, format test, a missing or too small object, a failed
    registration - every object and every handle has the references it had
    before; when it succeeds, each object gained exactly one reference per
    plane it backs, and one handle reference per such plane if it has a
    handle. *)
Theorem fb_create_balanced `{Hps : !PlaneSizeOps} env kz ua anyf info r tr id :
  let '(res, tr') := drm_gem_fb_create_with_funcs env kz ua anyf info r tr in
  match res with
  | inr _ => weigh (obj_weight id) tr' = weigh (obj_weight id) tr
             /\ weigh (handle_weight id) tr' = weigh (handle_weight id) tr
  | inl fb => exists os,
      Forall2 (fun i o => gem_object_lookup env (aget (r_handles r) i) = Some o) (planes_of info) os
      /\ weigh (obj_weight id) tr' = weigh (obj_weight id) tr + count_id id (go_id <$> os)
      /\ weigh (handle_weight id) tr'
         = weigh (handle_weight id) tr
           + count_id id (go_id <$> filter (fun o => gem_has_handle env o = true) os)
  end.
Proof. apply fb_create_refs. Qed.

(** ** Witness: the chroma plane of a 200x100 NV12 buffer *)

Definition nv12_info : drm_format_info :=
  mkfmt DRM_FORMAT_NV12 0 2 [1; 2; 0] [0; 0; 0] [0; 0; 0] 2 2 false true false.
Definition nv12_cmd : drm_mode_fb_cmd2 :=
  mkcmd 200 100 DRM_FORMAT_NV12 0 [5; 5; 0; 0] [256; 256; 0; 0] [0; 25600; 0; 0] [0; 0; 0; 0].
Definition nv12_env : fb_env :=
  mkfbenv (fun h => if h =? 5 then Some (mkobj 9 38400 268435456) else None)
          (fun _ => true) 0 77.
Definition nv12_fb : drm_framebuffer :=
  mkfb 77 nv12_info 200 100 [256; 256; 0; 0] [0; 25600; 0; 0] 0
       [Some 268435456; Some 268435456; None; None].
Definition nv12_plane : drm_plane := mkplane 1 [DRM_FORMAT_NV12] None [].
Definition nv12_state : drm_plane_state :=
  mkps (Some 0%nat) (Some nv12_fb) 0 0 64 64 (20 * 65536) (10 * 65536) (64 * 65536) (64 * 65536)
    0 0 0 DRM_MODE_ROTATE_0 (mkrect 0 0 0 0) (mkrect 0 0 0 0) false.
Definition nv12_cfg : drm_mode_config := mkcfg 0 0 4096 4096 0 0 false false.

Lemma nv12_created :
  drm_internal_framebuffer_create nv12_cfg true None
    (drm_gem_fb_create_with_funcs nv12_env true true (drm_any_plane_has_format [nv12_plane]))
    nv12_cmd []
  = Some (inl nv12_fb, [ObjGet 9; ObjGet 9; HandleGet 9; HandleGet 9]).
Proof. vm_compute. reflexivity. Qed.

Lemma nv12_env_ok h o :
  gem_object_lookup nv12_env h = Some o -> 0 <= go_dma o /\ go_dma o + go_size o <= 2 ^ 64.
Proof. cbn. case_match; [|done]. intros [= <-]. cbn. lia. Qed.

Lemma scanout_in_bounds_witness :
  drm_fb_dma_get_gem_addr nv12_fb nv12_state 1 = 268435456 + 25600 + 5 * 256 + 10 * 2
  /\ exists o, gem_object_lookup nv12_env 5 = Some o
     /\ 268435456 + 25600 + 5 * 256 + 10 * 2 + 31 * 256 + 31 * 2 + 2 <= go_dma o + go_size o.
Proof.
  split; [vm_compute; reflexivity|].
  destruct (scanout_in_bounds nv12_env true true (drm_any_plane_has_format [nv12_plane])
    nv12_cfg true nv12_cmd [] nv12_fb _ nv12_plane [] nv12_state nv12_state 0%nat 1 83 73
    nv12_created eq_refl eq_refl ltac:(vm_compute; reflexivity)
    ltac:(repeat split; repeat constructor; vm_compute; intuition discriminate)
    ltac:(vm_compute; intuition discriminate) nv12_env_ok
    ltac:(vm_compute; intuition discriminate) ltac:(vm_compute; intuition discriminate)
    eq_refl eq_refl ltac:(vm_compute; intuition discriminate)) as (o & Ho & H).
  exists o. split; [exact Ho|]. revert H. injection Ho as <-. intros H.
  vm_compute in H. vm_compute. exact (proj2 (proj2 (proj2 H))).
Defined.
