(* ===== verification/DrmVblank.v ===== *)
(** * DrmVblank: vertical-blanking counters, interrupts and events
      (src/drm/drm_vblank.c)

    The counter of a CRTC, the reference count that keeps its interrupt on, the
    timer that switches it off, and the list of events that wait for a vblank.
    The CRTC hooks of the driver and the clock are an interface.  A function of
    the source runs under the locks it takes, so it is one step here.  Drivers are
    those with [DRIVER_ATOMIC]; works, the timestamp helper and the restore of legacy
    drivers are not modelled, and the ioctls are in DrmVblankIoctl. *)

From S2P Require Export DrmModes.

(** ** The driver's hooks and the clock *)

(** A hook may be missing.  Reading the hardware takes time: every hook returns
    the state it leaves. *)
Class VblankDriver (S : Type) := {
  hook_get_vblank_counter : option (S -> nat -> Z * S);
  (** success, time and new state, for a maximal error and whether it is called
      from the interrupt *)
  hook_get_vblank_timestamp : option (S -> nat -> Z -> bool -> bool * Z * S);
  hook_enable_vblank : option (S -> nat -> Z * S);
  hook_disable_vblank : option (S -> nat -> S);
  ktime_get : S -> Z * S
}.

(** ** State *)

(** [struct drm_vblank_crtc]; [vb_timer] tells whether the timer that disables
    the interrupt is armed, [vb_queue] which callers sleep on the wait queue and have
    not been woken. *)
Record drm_vblank_crtc := mkvb {
  vb_last : Z; vb_time : Z; vb_count : Z;
  vb_refcount : Z; vb_enabled : bool; vb_inmodeset : Z;
  vb_framedur_ns : Z; vb_linedur_ns : Z; vb_max_vblank_count : Z;
  vb_offdelay_ms : Z; vb_disable_immediate : bool;
  vb_timer : bool; vb_hwmode : drm_display_mode; vb_queue : gset nat
}.

Inductive vblank_event_type : Set :=
| DRM_EVENT_VBLANK | DRM_EVENT_FLIP_COMPLETE | DRM_EVENT_CRTC_SEQUENCE.

(** [struct drm_pending_vblank_event]. *)
Record drm_pending_vblank_event := mkev {
  ev_id : Z; ev_type : vblank_event_type; ev_pipe : nat; ev_sequence : Z
}.

(** What user space receives. *)
Inductive vblank_payload : Set :=
| PayloadVbl (sequence tv_sec tv_usec : Z)
| PayloadSeq (sequence time_ns : Z).

(** What the file uses of [struct drm_device], the module parameters, and the
    events sent so far. *)
Record vblank_dev (S : Type) := mkvd {
  vd_crtcs : list drm_vblank_crtc;
  vd_max_vblank_count : Z;
  vd_disable_immediate : bool; vd_offdelay : Z; vd_precision : Z;
  vd_events : list drm_pending_vblank_event;
  vd_sent : list (drm_pending_vblank_event * vblank_payload);
  vd_drv : S
}.
Arguments mkvd {S}. Arguments vd_crtcs {S}. Arguments vd_max_vblank_count {S}.
Arguments vd_disable_immediate {S}. Arguments vd_offdelay {S}. Arguments vd_precision {S}.
Arguments vd_events {S}. Arguments vd_sent {S}. Arguments vd_drv {S}.

Definition DRM_TIMESTAMP_MAXRETRIES : Z := 3.

(** [ktime_t] is a signed 64-bit number of nanoseconds. *)
Definition s64 (x : Z) : Z := (x + 2 ^ 63) mod 2 ^ 64 - 2 ^ 63.

Definition DIV_ROUND_CLOSEST_ULL (x d : Z) : Z := u64 (x + d / 2) / u32 d.

Definition drm_vblank_passed (seq ref : Z) : bool := u64 (seq - ref) <=? 1 .<< 23.

(** ** Counter and timestamp *)

Section Vblank.
Context {S : Type} `{!VblankDriver S}.
Implicit Types (v : drm_vblank_crtc) (s : S) (d : vblank_dev S) (pipe : nat).

Definition store_vblank v (vblank_count_inc t_vblank last : Z) : drm_vblank_crtc :=
  {| v with vb_last := last; vb_time := t_vblank;
            vb_count := u64 (vb_count v + vblank_count_inc) |}.

Definition drm_max_vblank_count (dev_max : Z) v : Z :=
  if truthy (vb_max_vblank_count v) then vb_max_vblank_count v else dev_max.

Definition __get_vblank_counter s pipe : Z * S :=
  match hook_get_vblank_counter with
  | Some get => get s pipe
  | None => (0, s)
  end.

Definition drm_crtc_get_last_vbltimestamp (precision : Z) s pipe (in_vblank_irq : bool)
  : bool * Z * S :=
  let max_error := s32 (u32 precision * 1000) in
  let '(ret, t, s) :=
    match hook_get_vblank_timestamp with
    | Some get => if max_error >? 0 then get s pipe max_error in_vblank_irq else (false, 0, s)
    | None => (false, 0, s)
    end in
  if ret then (true, t, s) else let '(t, s) := ktime_get s in (false, t, s).

(** The loop, with [n] retries left. *)
Fixpoint counter_and_timestamp (n : nat) (precision : Z) s pipe (in_vblank_irq : bool)
  : bool * Z * Z * S :=
  let '(cur, s) := __get_vblank_counter s pipe in
  let '(rc, t, s) := drm_crtc_get_last_vbltimestamp precision s pipe in_vblank_irq in
  let '(again, s) := __get_vblank_counter s pipe in
  if cur =? again then (rc, cur, t, s)
  else match n with
       | O => (rc, cur, t, s)
       | Datatypes.S n => counter_and_timestamp n precision s pipe in_vblank_irq
       end.

Definition get_vblank_counter_and_timestamp (precision : Z) s pipe (in_vblank_irq : bool)
  : bool * Z * Z * S :=
  counter_and_timestamp (Z.to_nat (DRM_TIMESTAMP_MAXRETRIES - 1)) precision s pipe in_vblank_irq.

(** [vx] is the device's maximal count. *)
Definition drm_reset_vblank_timestamp (precision : Z) v s pipe : drm_vblank_crtc * S :=
  let '(rc, cur_vblank, t_vblank, s) :=
    get_vblank_counter_and_timestamp precision s pipe false in
  let t_vblank := if rc then t_vblank else 0 in
  (store_vblank v 1 t_vblank cur_vblank, s).

Definition drm_update_vblank_count (precision dev_max : Z) v s pipe (in_vblank_irq : bool)
  : drm_vblank_crtc * S :=
  let framedur_ns := vb_framedur_ns v in
  let max_vblank_count := drm_max_vblank_count dev_max v in
  let '(rc, cur_vblank, t_vblank, s) :=
    get_vblank_counter_and_timestamp precision s pipe in_vblank_irq in
  let diff :=
    if truthy max_vblank_count then u32 (cur_vblank - vb_last v) .& max_vblank_count
    else if rc && truthy framedur_ns then
      let diff_ns := u64 (s64 (t_vblank - vb_time v)) in
      u32 (DIV_ROUND_CLOSEST_ULL diff_ns framedur_ns)
    else if in_vblank_irq then 1 else 0 in
  let diff := if (diff >? 1) && truthy (vb_inmodeset v .& 0x2) then 1 else diff in
  if diff =? 0 then (v, s)
  else
    let t_vblank := if negb rc && negb in_vblank_irq then 0 else t_vblank in
    (store_vblank v diff t_vblank cur_vblank, s).

(** ** Enabling and disabling the interrupt *)

Definition __enable_vblank s pipe : Z * S :=
  match hook_enable_vblank with Some enable => enable s pipe | None => (- EINVAL, s) end.

Definition __disable_vblank s pipe : S :=
  match hook_disable_vblank with Some disable => disable s pipe | None => s end.

Definition drm_vblank_disable_and_save (precision dev_max : Z) v s pipe : drm_vblank_crtc * S :=
  if vb_enabled v then
    let '(v, s) := drm_update_vblank_count precision dev_max v s pipe false in
    let s := __disable_vblank s pipe in
    ({| v with vb_enabled := false |}, s)
  else (v, s).

Definition vblank_disable_fn (precision dev_max : Z) v s pipe : drm_vblank_crtc * S :=
  if (vb_refcount v =? 0) && vb_enabled v
  then drm_vblank_disable_and_save precision dev_max v s pipe else (v, s).

Definition drm_vblank_enable (precision dev_max : Z) v s pipe : Z * drm_vblank_crtc * S :=
  if vb_enabled v then (0, v, s)
  else
    let '(ret, s) := __enable_vblank s pipe in
    if truthy ret then (ret, {| v with vb_refcount := vb_refcount v - 1 |}, s)
    else
      let '(v, s) := drm_update_vblank_count precision dev_max v s pipe false in
      (ret, {| v with vb_enabled := true |}, s).

(** A function of a pipe's state, run on the device; nothing for a pipe that
    does not exist. *)
Definition on_pipe d pipe (f : drm_vblank_crtc -> S -> drm_vblank_crtc * S) : vblank_dev S :=
  match vd_crtcs d !! pipe with
  | None => d
  | Some v =>
      let '(v, s) := f v (vd_drv d) in
      {| d with vd_crtcs := <[pipe := v]> (vd_crtcs d); vd_drv := s |}
  end.

Definition drm_vblank_get d pipe : Z * vblank_dev S :=
  match vd_crtcs d !! pipe with
  | None => (- EINVAL, d)
  | Some v =>
      let v := {| v with vb_refcount := vb_refcount v + 1 |} in
      let '(ret, v, s) :=
        if vb_refcount v =? 1
        then drm_vblank_enable (vd_precision d) (vd_max_vblank_count d) v (vd_drv d) pipe
        else if vb_enabled v then (0, v, vd_drv d)
        else (- EINVAL, {| v with vb_refcount := vb_refcount v - 1 |}, vd_drv d) in
      (ret, {| d with vd_crtcs := <[pipe := v]> (vd_crtcs d); vd_drv := s |})
  end.

(** [drm_vblank_put] on the state of the pipe. *)
Definition vblank_put (precision dev_max : Z) v s pipe : drm_vblank_crtc * S :=
  if vb_refcount v =? 0 then (v, s)
  else
    let v := {| v with vb_refcount := vb_refcount v - 1 |} in
    if vb_refcount v =? 0 then
      if vb_offdelay_ms v =? 0 then (v, s)
      else if vb_offdelay_ms v <? 0 then vblank_disable_fn precision dev_max v s pipe
      else if negb (vb_disable_immediate v) then ({| v with vb_timer := true |}, s)
      else (v, s)
    else (v, s).

Definition drm_vblank_put d pipe : vblank_dev S :=
  on_pipe d pipe (fun v s => vblank_put (vd_precision d) (vd_max_vblank_count d) v s pipe).

(** The timer fires. *)
Definition vblank_timer_fires d pipe : vblank_dev S :=
  on_pipe d pipe (fun v s =>
    vblank_disable_fn (vd_precision d) (vd_max_vblank_count d)
      {| v with vb_timer := false |} s pipe).

Definition drm_vblank_count d pipe : Z :=
  match vd_crtcs d !! pipe with Some v => vb_count v | None => 0 end.

Definition drm_vblank_count_and_time d pipe : Z * Z :=
  match vd_crtcs d !! pipe with Some v => (vb_count v, vb_time v) | None => (0, 0) end.

Definition drm_crtc_accurate_vblank_count d pipe : Z * vblank_dev S :=
  let d := on_pipe d pipe (fun v s =>
             drm_update_vblank_count (vd_precision d) (vd_max_vblank_count d) v s pipe false) in
  (drm_vblank_count d pipe, d).

(** ** Events *)

Definition payload (t : vblank_event_type) (seq now : Z) : vblank_payload :=
  match t with
  | DRM_EVENT_VBLANK | DRM_EVENT_FLIP_COMPLETE =>
      PayloadVbl (u32 seq) (u32 (now / 1000000000)) (u32 (now mod 1000000000 / 1000))
  | DRM_EVENT_CRTC_SEQUENCE => PayloadSeq seq now
  end.

Definition send_vblank_event d (e : drm_pending_vblank_event) (seq now : Z) : vblank_dev S :=
  {| d with vd_sent := vd_sent d ++ [(e, payload (ev_type e) seq now)] |}.

Definition drm_crtc_arm_vblank_event d pipe (id : Z) (t : vblank_event_type) : vblank_dev S :=
  let '(count, d) := drm_crtc_accurate_vblank_count d pipe in
  {| d with vd_events := vd_events d ++ [mkev id t pipe (u64 (count + 1))] |}.

Definition drm_crtc_send_vblank_event d pipe (id : Z) (t : vblank_event_type) : vblank_dev S :=
  if negb (Z.of_nat (length (vd_crtcs d)) =? 0) then
    let '(seq, now) := drm_vblank_count_and_time d pipe in
    send_vblank_event d (mkev id t pipe 0) seq now
  else
    let '(now, s) := ktime_get (vd_drv d) in
    send_vblank_event {| d with vd_drv := s |} (mkev id t pipe 0) 0 now.

(** Walking the list of events: those of the pipe that are due are unlinked,
    drop the reference they hold and are sent; [kept] is the part of the list
    already passed. *)
Fixpoint events_loop d pipe (due : drm_pending_vblank_event -> bool) (seq now : Z)
    (kept l : list drm_pending_vblank_event) : vblank_dev S :=
  match l with
  | [] => d
  | e :: l =>
      if negb (Nat.eqb (ev_pipe e) pipe) || negb (due e)
      then events_loop d pipe due seq now (kept ++ [e]) l
      else
        let d := {| d with vd_events := kept ++ l |} in
        let d := drm_vblank_put d pipe in
        let d := send_vblank_event d e seq now in
        events_loop d pipe due seq now kept l
  end.

Definition drm_handle_vblank_events d pipe : vblank_dev S :=
  let '(seq, now) := drm_vblank_count_and_time d pipe in
  events_loop d pipe (fun e => drm_vblank_passed seq (ev_sequence e)) seq now [] (vd_events d).

(** [wake_up] on the wait queue of the pipe: nobody sleeps there any more. *)
Definition wake_up v : drm_vblank_crtc := {| v with vb_queue := ∅ |}.

Definition drm_handle_vblank d pipe : bool * vblank_dev S :=
  match vd_crtcs d !! pipe with
  | None => (false, d)
  | Some v =>
      if negb (vb_enabled v) then (false, d)
      else
        let d := on_pipe d pipe (fun v s =>
                   let '(v, s) := drm_update_vblank_count (vd_precision d) (vd_max_vblank_count d)
                                    v s pipe true in
                   (wake_up v, s)) in
        let disable_irq := vb_disable_immediate v && (vb_offdelay_ms v >? 0)
                           && (vb_refcount v =? 0) in
        let d := drm_handle_vblank_events d pipe in
        let d := if disable_irq
                 then on_pipe d pipe (fun v s =>
                        vblank_disable_fn (vd_precision d) (vd_max_vblank_count d) v s pipe)
                 else d in
        (true, d)
  end.

(** What the ioctls do with an event under the lock of the events: one whose number has
    passed drops the reference it came with and is sent, any other waits. *)
Definition queue_vblank_event d (e : drm_pending_vblank_event) (seq now : Z) : vblank_dev S :=
  if drm_vblank_passed seq (ev_sequence e)
  then send_vblank_event (drm_vblank_put d (ev_pipe e)) e seq now
  else {| d with vd_events := vd_events d ++ [e] |}.

(** ** Switching a CRTC on and off *)

(** The reference that keeps [drm_vblank_get] from enabling the interrupt. *)
Definition block_get v : drm_vblank_crtc :=
  if vb_inmodeset v =? 0
  then {| v with vb_refcount := vb_refcount v + 1; vb_inmodeset := 1 |} else v.

Definition drm_crtc_vblank_off d pipe : vblank_dev S :=
  if Nat.leb (length (vd_crtcs d)) pipe then d
  else
    let d := on_pipe d pipe (fun v s =>
               let '(v, s) := drm_vblank_disable_and_save (vd_precision d)
                                (vd_max_vblank_count d) v s pipe in
               (block_get (wake_up v), s)) in
    let '(seq, now) := drm_vblank_count_and_time d pipe in
    let d := events_loop d pipe (fun _ => true) seq now [] (vd_events d) in
    on_pipe d pipe (fun v s => ({| v with vb_hwmode := {| (vb_hwmode v) with crtc_clock := 0 |} |}, s)).

(** A change of who sleeps on the wait queue. *)
Definition on_queue d pipe (f : gset nat -> gset nat) : vblank_dev S :=
  on_pipe d pipe (fun v s => ({| v with vb_queue := f (vb_queue v) |}, s)).

Definition drm_crtc_vblank_reset d pipe : vblank_dev S :=
  on_pipe d pipe (fun v s => (block_get v, s)).

(** The critical section of [drm_crtc_vblank_on_config], and whether the enabling in it
    fails, of which the code only warns. *)
Definition vblank_on_pipe (precision dev_max offdelay_ms : Z) (disable_immediate : bool) v s pipe
  : bool * drm_vblank_crtc * S :=
  let v := {| v with vb_offdelay_ms := offdelay_ms;
                     vb_disable_immediate := disable_immediate |} in
  let v := if truthy (vb_inmodeset v)
           then {| v with vb_refcount := vb_refcount v - 1; vb_inmodeset := 0 |} else v in
  let '(v, s) := drm_reset_vblank_timestamp precision v s pipe in
  if negb (vb_refcount v =? 0) || (vb_offdelay_ms v =? 0) then
    let '(ret, v, s) := drm_vblank_enable precision dev_max v s pipe in
    (truthy ret, v, s)
  else (false, v, s).

Definition drm_crtc_vblank_on_config d pipe (offdelay_ms : Z) (disable_immediate : bool)
  : vblank_dev S :=
  on_pipe d pipe (fun v s =>
    let '(_, v, s) := vblank_on_pipe (vd_precision d) (vd_max_vblank_count d)
                        offdelay_ms disable_immediate v s pipe in
    (v, s)).

Definition drm_crtc_vblank_on d pipe : vblank_dev S :=
  drm_crtc_vblank_on_config d pipe (vd_offdelay d) (vd_disable_immediate d).

Definition vblank_on_fails d pipe : bool :=
  match vd_crtcs d !! pipe with
  | None => false
  | Some v => fst (fst (vblank_on_pipe (vd_precision d) (vd_max_vblank_count d)
                          (vd_offdelay d) (vd_disable_immediate d) v (vd_drv d) pipe))
  end.

(** [drm_vblank_init], from the zeroed state the allocation leaves.  The
    allocation may fail, and so may the registration of a pipe's release or the
    start of its worker: [setup] answers for the two calls of a pipe. *)
Definition vblank_crtc0 (mode0 : drm_display_mode) : drm_vblank_crtc :=
  mkvb 0 0 0 0 false 0 0 0 0 0 false false mode0 ∅.

Fixpoint init_pipes (setup : nat -> Z * Z) (pipes : list nat) : Z :=
  match pipes with
  | [] => 0
  | i :: pipes =>
      let '(ret, worker) := setup i in
      if truthy ret then ret else if truthy worker then worker else init_pipes setup pipes
  end.

Definition drm_vblank_init d (num_crtcs : nat) (mode0 : drm_display_mode)
    (alloc : bool) (setup : nat -> Z * Z) : Z * vblank_dev S :=
  if negb alloc then (- ENOMEM, {| d with vd_crtcs := [] |})
  else (init_pipes setup (seq 0 num_crtcs),
        {| d with vd_crtcs := replicate num_crtcs (vblank_crtc0 mode0) |}).

(** ** What the drivers do with an event

    [drm_crtc_vblank_atomic_flush] (src/drm/drm_vblank_helper.c) and the flush
    handlers written like it: armed for the next vblank if the interrupt can be
    had, sent at once if not. *)
Definition drm_crtc_vblank_atomic_flush d pipe (event : option (Z * vblank_event_type))
  : vblank_dev S :=
  match event with
  | None => d
  | Some (id, t) =>
      let '(ret, d) := drm_vblank_get d pipe in
      if ret =? 0 then drm_crtc_arm_vblank_event d pipe id t
      else drm_crtc_send_vblank_event d pipe id t
  end.
End Vblank.

(** ** Facts *)

(** What the counter code leaves alone. *)
Definition erase (v : drm_vblank_crtc) : drm_vblank_crtc :=
  {| v with vb_last := 0; vb_time := 0; vb_count := 0 |}.

(** The fields that two states with the same erasure share. *)
Ltac erase_fields H :=
  let R := fresh "Hrc" in let E := fresh "Hen" in let I := fresh "Him" in
  let O := fresh "Hod" in let D := fresh "Hdi" in let T := fresh "Hti" in
  let Q := fresh "Hqu" in
  pose proof (f_equal vb_refcount H) as R; pose proof (f_equal vb_enabled H) as E;
  pose proof (f_equal vb_inmodeset H) as I; pose proof (f_equal vb_offdelay_ms H) as O;
  pose proof (f_equal vb_disable_immediate H) as D; pose proof (f_equal vb_timer H) as T;
  pose proof (f_equal vb_queue H) as Q;
  cbn in R, E, I, O, D, T, Q.

(** The driver can always switch the interrupt on. *)
Class VblankEnables (S : Type) `{!VblankDriver S} : Prop :=
  enable_succeeds : forall (s : S) p, fst (__enable_vblank s p) = 0.

Section Facts.
Context {S : Type} `{!VblankDriver S}.
Implicit Types (v : drm_vblank_crtc) (s : S) (d : vblank_dev S) (pipe p : nat).

Lemma update_erase prec mx v s pipe irq :
  erase (fst (drm_update_vblank_count prec mx v s pipe irq)) = erase v.
Proof.
  unfold drm_update_vblank_count.
  destruct (get_vblank_counter_and_timestamp prec s pipe irq) as [[[rc cur] t] s'].
  cbv zeta. by case_if.
Qed.

Lemma disable_and_save_erase prec mx v s pipe :
  erase (fst (drm_vblank_disable_and_save prec mx v s pipe))
  = {| (erase v) with vb_enabled := false |}.
Proof.
  unfold drm_vblank_disable_and_save. destruct (vb_enabled v) eqn:E.
  - pose proof (update_erase prec mx v s pipe false) as H.
    destruct (drm_update_vblank_count prec mx v s pipe false) as [v' s']. cbn [fst] in *.
    by rewrite <- H.
  - destruct v; cbn in *. by subst.
Qed.

Lemma disable_fn_erase prec mx v s pipe :
  erase (fst (vblank_disable_fn prec mx v s pipe))
  = if (vb_refcount v =? 0) && vb_enabled v
    then {| (erase v) with vb_enabled := false |} else erase v.
Proof. unfold vblank_disable_fn. case_if; [apply disable_and_save_erase|done]. Qed.

Lemma enable_erase prec mx v s pipe :
  let '(ret, v', _) := drm_vblank_enable prec mx v s pipe in
  erase v' = if ret =? 0 then {| (erase v) with vb_enabled := true |}
             else {| (erase v) with vb_refcount := vb_refcount v - 1 |}.
Proof.
  unfold drm_vblank_enable. destruct (vb_enabled v) eqn:E.
  - destruct v; cbn in *. by subst.
  - destruct (__enable_vblank s pipe) as [ret s']. unfold truthy.
    destruct (Z.eqb_spec ret 0) as [->|Hr]; cbn [negb]; [|rewrite (proj2 (Z.eqb_neq ret 0) Hr); unfold erase; cbn; by rewrite E].
    pose proof (update_erase prec mx v s' pipe false) as H.
    destruct (drm_update_vblank_count prec mx v s' pipe false) as [v' s'']. cbn [fst] in H.
    cbn [Z.eqb]. by rewrite <- H.
Qed.

Lemma enables_ret `{!VblankEnables S} prec mx v s pipe :
  fst (fst (drm_vblank_enable prec mx v s pipe)) = 0.
Proof.
  unfold drm_vblank_enable. case_if; [done|]. pose proof (enable_succeeds s pipe) as H0.
  destruct (__enable_vblank s pipe) as [ret s']. cbn in H0. subst ret. cbn.
  by destruct (drm_update_vblank_count prec mx v s' pipe false).
Qed.

Lemma enables_on `{!VblankEnables S} d pipe : vblank_on_fails d pipe = false.
Proof.
  unfold vblank_on_fails, vblank_on_pipe. destruct (vd_crtcs d !! pipe) as [v|]; [|done]. cbv zeta.
  destruct (drm_reset_vblank_timestamp _ _ _ _) as [v1 s1]. case_if; [|done].
  pose proof (enables_ret (vd_precision d) (vd_max_vblank_count d) v1 s1 pipe) as H.
  destruct (drm_vblank_enable _ _ _ _ _) as [[ret v2] s2]. cbn in *. by rewrite H.
Qed.

(** The first part of the interrupt handler. *)
Lemma update_wake_erase prec mx v s pipe irq :
  erase (fst (let '(v, s) := drm_update_vblank_count prec mx v s pipe irq in (wake_up v, s)))
  = wake_up (erase v).
Proof.
  pose proof (update_erase prec mx v s pipe irq) as H.
  destruct (drm_update_vblank_count _ _ _ _ _ _) as [v' s']. cbn in *. by rewrite <- H.
Qed.

Lemma reset_timestamp_erase prec v s pipe :
  erase (fst (drm_reset_vblank_timestamp prec v s pipe)) = erase v.
Proof.
  unfold drm_reset_vblank_timestamp.
  by destruct (get_vblank_counter_and_timestamp prec s pipe false) as [[[rc cur] t] s'].
Qed.

Lemma vblank_put_erase prec mx v s pipe :
  erase (fst (vblank_put prec mx v s pipe))
  = if vb_refcount v =? 0 then erase v
    else
      let w := {| (erase v) with vb_refcount := vb_refcount v - 1 |} in
      if vb_refcount v =? 1 then
        if vb_offdelay_ms v =? 0 then w
        else if vb_offdelay_ms v <? 0
        then {| w with vb_enabled := false |}
        else if vb_disable_immediate v then w else {| w with vb_timer := true |}
      else w.
Proof.
  unfold vblank_put. destruct (vb_refcount v =? 0) eqn:E0; [done|].
  cbn [vb_refcount vb_offdelay_ms vb_disable_immediate].
  destruct (Z.eqb_spec (vb_refcount v) 1) as [E1|E1].
  - rewrite E1. change (1 - 1 =? 0) with true. cbv iota.
    destruct (vb_offdelay_ms v =? 0); [done|].
    destruct (vb_offdelay_ms v <? 0).
    + rewrite disable_fn_erase. cbn [vb_refcount vb_enabled].
      change (1 - 1 =? 0) with true. cbn [andb].
      destruct (vb_enabled v) eqn:Een; [done|]. destruct v; cbn in *. by subst.
    + destruct v as [? ? ? ? ? ? ? ? ? ? [] ? ? ?]; by cbn in *.
  - by rewrite (proj2 (Z.eqb_neq (vb_refcount v - 1) 0)) by lia.
Qed.

(** Running a function on one pipe. *)
Lemma on_pipe_lookup d pipe f p :
  vd_crtcs (on_pipe d pipe f) !! p
  = if decide (p = pipe) then (fun v => fst (f v (vd_drv d))) <$> vd_crtcs d !! pipe
    else vd_crtcs d !! p.
Proof.
  unfold on_pipe. destruct (vd_crtcs d !! pipe) as [v|] eqn:E.
  - destruct (f v (vd_drv d)) as [v' s'] eqn:Ef. cbn.
    destruct (decide (p = pipe)) as [->|Hne].
    + rewrite list_lookup_insert_eq by (by eapply lookup_lt_Some). cbn. by rewrite Ef.
    + by rewrite list_lookup_insert_ne by congruence.
  - destruct (decide (p = pipe)) as [->|]; [by rewrite E|done].
Qed.

Lemma on_pipe_rest d pipe f :
  let d' := on_pipe d pipe f in
  vd_events d' = vd_events d /\ vd_sent d' = vd_sent d
  /\ vd_offdelay d' = vd_offdelay d /\ vd_disable_immediate d' = vd_disable_immediate d
  /\ length (vd_crtcs d') = length (vd_crtcs d)
  /\ vd_max_vblank_count d' = vd_max_vblank_count d /\ vd_precision d' = vd_precision d.
Proof.
  unfold on_pipe. destruct (vd_crtcs d !! pipe) as [v|]; [|done].
  destruct (f v (vd_drv d)). cbn. by rewrite length_insert.
Qed.
End Facts.

(** ** The system: users, interrupts and timers in any order *)

(** [users] counts the references taken with [drm_vblank_get] on a pipe and not
    yet given back; [submitted] the events handed over, oldest first. *)
Record vb_sys (S : Type) := mksys {
  sys_dev : vblank_dev S; users : nat -> Z; submitted : list Z
}.
Arguments mksys {S}. Arguments sys_dev {S}. Arguments users {S}. Arguments submitted {S}.

Section System.
Context {S : Type} `{!VblankDriver S}.
Implicit Types (v : drm_vblank_crtc) (d : vblank_dev S) (pipe p : nat) (y : vb_sys S).

(** What the rest of the machine may do to the hardware and the clock. *)
Variable env : S -> S -> Prop.
(** The states the driver starts in. *)
Variable init : S -> Prop.

Definition users_add y p (n : Z) : nat -> Z :=
  fun q => if decide (q = p) then users y q + n else users y q.

Inductive vb_label : Set :=
| LGet (p : nat) | LPut (p : nat) | LFlush (p : nat) | LInterrupt (p : nat) | LTimer (p : nat)
| LOff (p : nat) | LOn (p : nat) | LQueue (p : nat) | LWait (p : nat) | LEnv.

Inductive vb_step y : vb_label -> vb_sys S -> Prop :=
| step_get p ret d :
    drm_vblank_get (sys_dev y) p = (ret, d) ->
    vb_step y (LGet p)
      (mksys d (if ret =? 0 then users_add y p 1 else users y) (submitted y))
| step_put p :
    0 < users y p ->
    vb_step y (LPut p)
      (mksys (drm_vblank_put (sys_dev y) p) (users_add y p (-1)) (submitted y))
| step_flush p id t :
    (p < length (vd_crtcs (sys_dev y)))%nat ->
    vb_step y (LFlush p)
      (mksys (drm_crtc_vblank_atomic_flush (sys_dev y) p (Some (id, t)))
         (users y) (submitted y ++ [id]))
| step_interrupt p :
    vb_step y (LInterrupt p)
      (mksys (snd (drm_handle_vblank (sys_dev y) p)) (users y) (submitted y))
| step_timer p v :
    vd_crtcs (sys_dev y) !! p = Some v -> vb_timer v = true ->
    vb_step y (LTimer p) (mksys (vblank_timer_fires (sys_dev y) p) (users y) (submitted y))
| step_off p :
    vb_step y (LOff p) (mksys (drm_crtc_vblank_off (sys_dev y) p) (users y) (submitted y))
| step_on p :
    vb_step y (LOn p) (mksys (drm_crtc_vblank_on (sys_dev y) p) (users y) (submitted y))
| step_queue e seq now v :
    0 < users y (ev_pipe e) -> vd_crtcs (sys_dev y) !! ev_pipe e = Some v -> vb_enabled v = true ->
    vb_step y (LQueue (ev_pipe e))
      (mksys (queue_vblank_event (sys_dev y) e seq now) (users_add y (ev_pipe e) (-1))
             (submitted y ++ [ev_id e]))
| step_wait p f :
    (forall v, vd_crtcs (sys_dev y) !! p = Some v -> f (vb_queue v) ⊆ vb_queue v \/ vb_enabled v = true) ->
    vb_step y (LWait p) (mksys (on_queue (sys_dev y) p f) (users y) (submitted y))
| step_env s :
    env (vd_drv (sys_dev y)) s ->
    vb_step y LEnv (mksys {| (sys_dev y) with vd_drv := s |} (users y) (submitted y)).

(** A device after [drm_vblank_init] and a reset of every CRTC. *)
Definition vb_initial y : Prop :=
  exists d n mode0 alloc setup d1,
    drm_vblank_init d n mode0 alloc setup = (0, d1)
    /\ sys_dev y = fold_left drm_crtc_vblank_reset (seq 0 n) d1
    /\ vd_events d = [] /\ vd_sent d = [] /\ (forall p, users y p = 0) /\ submitted y = []
    /\ init (vd_drv d).

Inductive vb_reachable : vb_sys S -> Prop :=
| reach_initial y : vb_initial y -> vb_reachable y
| reach_step y l y' : vb_reachable y -> vb_step y l y' -> vb_reachable y'.

(** *** The invariant *)

Definition queued p (l : list drm_pending_vblank_event) : Z :=
  Z.of_nat (length (filter (fun e => ev_pipe e = p) l)).

(** The state of a pipe with [n] references taken by users and events. *)
Record pipe_ok (offdelay : Z) (immediate : bool) (n : Z) v : Prop := {
  po_nonneg : 0 <= n;
  po_refs : vb_refcount v = n + (if vb_inmodeset v =? 0 then 0 else 1);
  po_off : vb_inmodeset v <> 0 -> vb_enabled v = false;
  po_held : vb_inmodeset v = 0 -> 0 < n -> vb_enabled v = true;
  po_config : vb_inmodeset v = 0 ->
    vb_offdelay_ms v = offdelay /\ vb_disable_immediate v = immediate;
  po_idle : vb_enabled v = true -> n = 0 ->
    offdelay = 0 \/ vb_timer v = true \/ (immediate = true /\ 0 < offdelay);
  po_awake : vb_inmodeset v <> 0 -> vb_queue v = ∅
}.

(** Every pipe is in order, [n] telling how many references are out. *)
Definition counts_ok d (n : nat -> Z) : Prop :=
  forall p v, vd_crtcs d !! p = Some v ->
    pipe_ok (vd_offdelay d) (vd_disable_immediate d) (n p) v.

(** While a CRTC is off no event waits for it. *)
Definition quiet_off d : Prop :=
  forall p v, vd_crtcs d !! p = Some v -> vb_inmodeset v <> 0 -> queued p (vd_events d) = 0.

Definition vb_inv y : Prop :=
  (forall p, 0 <= users y p)
  /\ counts_ok (sys_dev y) (fun p => users y p + queued p (vd_events (sys_dev y)))
  /\ quiet_off (sys_dev y)
  /\ submitted y ≡ₚ ((fun x => ev_id (fst x)) <$> vd_sent (sys_dev y))
                      ++ (ev_id <$> vd_events (sys_dev y)).

Lemma queued_nonneg p l : 0 <= queued p l.
Proof. unfold queued. lia. Qed.

Lemma queued_app p l l' : queued p (l ++ l') = queued p l + queued p l'.
Proof. unfold queued. rewrite filter_app, length_app. lia. Qed.

Lemma queued_cons p e l : queued p (e :: l) = (if decide (ev_pipe e = p) then 1 else 0) + queued p l.
Proof. unfold queued. rewrite filter_cons. case_decide; cbn [length]; lia. Qed.

(** The invariant sees a pipe up to its counter. *)
Lemma pipe_ok_erase o i n v v' : erase v = erase v' -> pipe_ok o i n v -> pipe_ok o i n v'.
Proof.
  intros He [H1 H2 H3 H4 H5 H6 H7]. erase_fields He.
  split; rewrite <- ?Hrc, <- ?Hen, <- ?Him, <- ?Hod, <- ?Hdi, <- ?Hti, <- ?Hqu; done.
Qed.

(** A step on one pipe: it suffices to look at the erased state it leaves. *)
Lemma on_pipe_ok d n n' pipe f :
  counts_ok d n -> (forall p, p <> pipe -> n' p = n p) ->
  (forall v, vd_crtcs d !! pipe = Some v ->
     pipe_ok (vd_offdelay d) (vd_disable_immediate d) (n' pipe) (erase (fst (f v (vd_drv d))))) ->
  counts_ok (on_pipe d pipe f) n'.
Proof.
  intros Hd Hn Hf p v Hv. rewrite on_pipe_lookup in Hv.
  destruct (on_pipe_rest d pipe f) as (_ & _ & -> & -> & _). case_decide as Hp.
  - subst p. destruct (vd_crtcs d !! pipe) as [w|] eqn:Ew; [|done].
    cbn in Hv. injection Hv as <-. by eapply pipe_ok_erase, (Hf w eq_refl).
  - rewrite (Hn p Hp). by apply Hd.
Qed.

Lemma disable_ok o i n v :
  pipe_ok o i n v -> (vb_inmodeset v = 0 -> 0 < n -> False) ->
  pipe_ok o i n {| (erase v) with vb_enabled := false |}.
Proof.
  intros [H1 H2 H3 H4 H5 H6 H7] Hn.
  split; cbn; try done. intros Hm Hp. by destruct (Hn Hm Hp).
Qed.

Lemma disable_fn_ok o i n prec mx v s pipe :
  pipe_ok o i n v -> pipe_ok o i n (erase (fst (vblank_disable_fn prec mx v s pipe))).
Proof.
  intros Hok. rewrite disable_fn_erase. destruct ((vb_refcount v =? 0) && vb_enabled v) eqn:E.
  - apply andb_true_iff in E as [E0 E1]. apply Z.eqb_eq in E0. apply disable_ok; [done|].
    intros Hm Hn. pose proof (po_refs _ _ _ _ Hok) as Hr. rewrite Hm in Hr. cbn in Hr. lia.
  - by apply (pipe_ok_erase o i n v).
Qed.

Lemma update_ok o i n prec mx v s pipe irq :
  pipe_ok o i n v -> pipe_ok o i n (erase (fst (drm_update_vblank_count prec mx v s pipe irq))).
Proof. intros Hok. rewrite update_erase. by apply (pipe_ok_erase o i n v). Qed.

Lemma wake_ok o i n v : pipe_ok o i n v -> pipe_ok o i n (wake_up v).
Proof. by intros []; split. Qed.

Lemma update_wake_ok o i n prec mx v s pipe irq :
  pipe_ok o i n v ->
  pipe_ok o i n (erase (fst (let '(v, s) := drm_update_vblank_count prec mx v s pipe irq in (wake_up v, s)))).
Proof. intros Hok. rewrite update_wake_erase. apply wake_ok. by apply (pipe_ok_erase o i n v). Qed.

(** Giving a reference back. *)
Lemma put_ok o i n prec mx v s pipe :
  0 < n -> pipe_ok o i n v -> pipe_ok o i (n - 1) (erase (fst (vblank_put prec mx v s pipe))).
Proof.
  intros Hn [H1 H2 H3 H4 H5 H6 H7]. rewrite vblank_put_erase.
  assert (Hpos : 0 < vb_refcount v) by (rewrite H2; case_if; lia).
  rewrite (proj2 (Z.eqb_neq (vb_refcount v) 0)) by lia. cbv zeta.
  destruct (Z.eqb_spec (vb_refcount v) 1) as [E1|E1].
  - assert (Hm : vb_inmodeset v = 0) by (destruct (Z.eqb_spec (vb_inmodeset v) 0); lia).
    destruct (H5 Hm) as [Ho Hi]. rewrite Hm in H2. cbn in H2.
    rewrite Ho, Hi in *.
    destruct (Z.eqb_spec o 0) as [Eo|Eo]; [|destruct (Z.ltb_spec o 0) as [Hlt|Hge]; [|destruct i]];
      split; cbn; rewrite ?Hm, ?Ho, ?Hi; cbn; try done; try lia; auto; try (intros; lia);
      intros; right; right; (split; [done|lia]).
  - split; cbn; auto; try lia.
    + intros He Hn0. destruct (Z.eqb_spec (vb_inmodeset v) 0) as [Hm|Hm]; [lia|].
      by rewrite (H3 Hm) in He.
Qed.

(** What a step leaves of the pipes that are off, and of the configuration. *)
Definition same_setup d d' : Prop :=
  (forall p, vb_inmodeset <$> vd_crtcs d' !! p = vb_inmodeset <$> vd_crtcs d !! p)
  /\ vd_offdelay d' = vd_offdelay d /\ vd_disable_immediate d' = vd_disable_immediate d
  /\ length (vd_crtcs d') = length (vd_crtcs d).

Lemma on_pipe_setup d pipe f :
  (forall v s, vb_inmodeset (fst (f v s)) = vb_inmodeset v) -> same_setup d (on_pipe d pipe f).
Proof.
  intros Hf. destruct (on_pipe_rest d pipe f) as (_ & _ & H1 & H2 & H3 & _).
  split; [|done]. intros p. rewrite on_pipe_lookup. case_decide; [subst p|done].
  destruct (vd_crtcs d !! pipe); cbn; [by rewrite Hf|done].
Qed.

#[local] Instance same_setup_trans : Transitive same_setup.
Proof. intros d1 d2 d3 (A&B&C&D) (A'&B'&C'&D'). split; [intros p; by rewrite A'|]. by rewrite B', C', D'. Qed.

Lemma put_inmodeset prec mx pipe v s :
  vb_inmodeset (fst (vblank_put prec mx v s pipe)) = vb_inmodeset v.
Proof.
  pose proof (vblank_put_erase prec mx v s pipe) as H. apply (f_equal vb_inmodeset) in H.
  revert H. cbn. repeat case_if; done.
Qed.

Lemma events_loop_spec pipe due seq now l : forall kept d n,
  vd_events d = kept ++ l -> counts_ok d n -> is_Some (vd_crtcs d !! pipe) ->
  let gone := filter (fun e => ev_pipe e = pipe /\ due e = true) l in
  Z.of_nat (length gone) <= n pipe ->
  let d' := events_loop d pipe due seq now kept l in
  counts_ok d' (fun p => if decide (p = pipe) then n p - Z.of_nat (length gone) else n p)
  /\ vd_events d' = kept ++ filter (fun e => ~ (ev_pipe e = pipe /\ due e = true)) l
  /\ vd_sent d' = vd_sent d ++ ((fun e => (e, payload (ev_type e) seq now)) <$> gone)
  /\ same_setup d d'.
Proof.
  induction l as [|e l IH]; intros kept d n He Hd Hp gone Hn; cbn [events_loop].
  - subst gone. cbn. rewrite !app_nil_r in *. split; [|done].
    intros p v Hv. specialize (Hd p v Hv). destruct (decide (p = pipe)); [|done].
    by rewrite Z.sub_0_r.
  - subst gone. rewrite !filter_cons in *. cbv beta in *.
    destruct (decide (ev_pipe e = pipe /\ due e = true)) as [[Ep Ed]|Hno].
    + rewrite (decide_False (P := ~ _)) by tauto. cbn [length] in Hn.
      rewrite (proj2 (Nat.eqb_eq _ _) Ep), Ed. cbn [negb orb].
      set (d1 := drm_vblank_put {| d with vd_events := kept ++ l |} pipe).
      destruct (on_pipe_rest {| d with vd_events := kept ++ l |} pipe
        (fun v s => vblank_put (vd_precision d) (vd_max_vblank_count d) v s pipe))
        as (He1 & Hs1 & _).
      change (vd_events d1 = kept ++ l) in He1. change (vd_sent d1 = vd_sent d) in Hs1.
      assert (Hc1 : counts_ok d1 (fun p => if decide (p = pipe) then n p - 1 else n p)).
      { apply (on_pipe_ok _ n); [done|intros; by rewrite decide_False|].
        intros v Hv. rewrite decide_True by done. apply put_ok; [lia|]. by apply Hd. }
      assert (Hset : same_setup d d1) by
        exact (on_pipe_setup {| d with vd_events := kept ++ l |} pipe _
                 (fun v s => put_inmodeset _ _ _ v s)).
      destruct (IH kept (send_vblank_event d1 e seq now)
                  (fun p => if decide (p = pipe) then n p - 1 else n p)) as (H1 & H2 & H3 & H4).
      * exact He1.
      * exact Hc1.
      * destruct Hset as (Hl & _). specialize (Hl pipe). destruct Hp as [w Hw].
        rewrite Hw in Hl. cbn in *. destruct (vd_crtcs d1 !! pipe); [done|discriminate Hl].
      * rewrite decide_True by done. lia.
      * split; [|split; [done|split]].
        -- intros p v Hv. specialize (H1 p v Hv). cbv beta in H1. cbn [length].
           destruct (decide (p = pipe)); [|done].
           replace (n p - _) with (n p - 1 - Z.of_nat (length (filter
             (fun e => ev_pipe e = pipe /\ due e = true) l))) by lia. done.
        -- rewrite H3. cbn [send_vblank_event vd_sent fmap list_fmap].
           rewrite <- app_assoc. cbn. by rewrite Hs1.
        -- etransitivity; [exact Hset|exact H4].
    + rewrite (decide_True (P := ~ _)) by done.
      replace (negb _ || negb _) with true
        by (destruct (Nat.eqb_spec (ev_pipe e) pipe), (due e); cbn; tauto || done).
      destruct (IH (kept ++ [e]) d n) as (H1 & H2 & H3 & H4);
        [by rewrite <- app_assoc|done..|].
      split; [done|]. split; [|done]. by rewrite H2, <- app_assoc.
Qed.

(** *** Each step keeps the invariant *)

Lemma queued_filter p pipe due l :
  queued p (filter (fun e => ~ (ev_pipe e = pipe /\ due e = true)) l)
  = queued p l - (if decide (p = pipe)
                  then Z.of_nat (length (filter (fun e => ev_pipe e = pipe /\ due e = true) l))
                  else 0).
Proof.
  induction l as [|e l IH]; [by case_decide|].
  rewrite !filter_cons, queued_cons.
  destruct (decide (ev_pipe e = pipe /\ due e = true)) as [[Ep Ed]|Hno].
  - rewrite (decide_False (P := ~ _)) by tauto. rewrite IH. cbn [length].
    destruct (decide (p = pipe)), (decide (ev_pipe e = p)); try congruence; lia.
  - rewrite (decide_True (P := ~ _)) by done. rewrite queued_cons, IH. lia.
Qed.

Lemma gone_queued pipe due l :
  Z.of_nat (length (filter (fun e => ev_pipe e = pipe /\ due e = true) l)) <= queued pipe l.
Proof.
  pose proof (queued_filter pipe pipe due l) as H. rewrite decide_True in H by done.
  pose proof (queued_nonneg pipe (filter (fun e => ~ (ev_pipe e = pipe /\ due e = true)) l)). lia.
Qed.

Definition counted d (u : nat -> Z) : Prop :=
  counts_ok d (fun p => u p + queued p (vd_events d)).

Definition event_ids d : list Z := ((fun x => ev_id (fst x)) <$> vd_sent d) ++ (ev_id <$> vd_events d).

Lemma filter_split_perm {A} (P : A -> Prop) `{forall x, Decision (P x)} (l : list A) :
  l ≡ₚ filter P l ++ filter (fun x => ~ P x) l.
Proof.
  induction l as [|x l IH]; [done|]. rewrite !filter_cons.
  destruct (decide (P x)).
  - rewrite (decide_False (P := ~ _)) by tauto. cbn. by rewrite <- IH.
  - rewrite (decide_True (P := ~ _)) by done. rewrite <- Permutation_middle. by rewrite <- IH.
Qed.

(** Delivering the events of a pipe that are due. *)
Lemma drain_ok d u pipe due seq now :
  (forall p, 0 <= u p) -> counted d u -> is_Some (vd_crtcs d !! pipe) ->
  let d' := events_loop d pipe due seq now [] (vd_events d) in
  counted d' u /\ event_ids d ≡ₚ event_ids d' /\ same_setup d d'
  /\ vd_events d' = filter (fun e => ~ (ev_pipe e = pipe /\ due e = true)) (vd_events d).
Proof.
  intros Hu Hd Hp.
  pose proof (gone_queued pipe due (vd_events d)) as Hg. specialize (Hu pipe) as Hup.
  destruct (events_loop_spec pipe due seq now (vd_events d) [] d _ eq_refl Hd Hp ltac:(lia))
    as (H1 & H2 & H3 & H4). cbn [app] in H2.
  split; [|split; [|done]].
  - intros p v Hv. specialize (H1 p v Hv). cbv beta in H1. rewrite H2, queued_filter.
    destruct (decide (p = pipe)); [subst p|]; [|by rewrite Z.sub_0_r].
    by rewrite Z.add_sub_assoc.
  - unfold event_ids. rewrite H3, H2, fmap_app, <- app_assoc.
    apply Permutation_app_head. rewrite <- list_fmap_compose.
    rewrite (filter_split_perm (fun e => ev_pipe e = pipe /\ due e = true) (vd_events d)) at 1.
    by rewrite fmap_app.
Qed.

Lemma quiet_off_mono d d' :
  same_setup d d' -> (forall p, queued p (vd_events d') <= queued p (vd_events d)) ->
  quiet_off d -> quiet_off d'.
Proof.
  intros (Hl & _) Hq Hd p v Hv Hm. specialize (Hl p). rewrite Hv in Hl. cbn in Hl.
  destruct (vd_crtcs d !! p) as [w|] eqn:Ew; [|done]. cbn in Hl. injection Hl as Hl.
  rewrite Hl in Hm. specialize (Hd p w Ew Hm). specialize (Hq p).
  pose proof (queued_nonneg p (vd_events d')). lia.
Qed.

Lemma queued_filter_le p pipe due l :
  queued p (filter (fun e => ~ (ev_pipe e = pipe /\ due e = true)) l) <= queued p l.
Proof. rewrite queued_filter. case_decide; lia. Qed.

(** [drm_vblank_get] in full. *)
Lemma get_spec d n pipe :
  counts_ok d n ->
  let '(ret, d') := drm_vblank_get d pipe in
  counts_ok d' (fun p => if decide (p = pipe /\ ret = 0) then n p + 1 else n p)
  /\ vd_events d' = vd_events d /\ vd_sent d' = vd_sent d /\ same_setup d d'
  /\ (ret = 0 -> exists v, vd_crtcs d !! pipe = Some v /\ vb_inmodeset v = 0).
Proof.
  intros Hd. unfold drm_vblank_get. destruct (vd_crtcs d !! pipe) as [v|] eqn:Ev.
  2: { split; [|done]. intros p w Hw. rewrite decide_False by (intros []; done). by apply Hd. }
  specialize (Hd pipe v Ev) as Hok. pose proof Hok as [H1 H2 H3 H4 H5 H6 H7].
  cbn [vb_refcount vb_enabled].
  assert (Hput : forall v' s' m, pipe_ok (vd_offdelay d) (vd_disable_immediate d) m v' ->
    vb_inmodeset v' = vb_inmodeset v ->
    let d' := {| d with vd_crtcs := <[pipe:=v']> (vd_crtcs d); vd_drv := s' |} in
    counts_ok d' (fun p => if decide (p = pipe) then m else n p) /\ same_setup d d').
  { intros v' s' m Hok' Hm d'. split; [|split; [|by cbn; rewrite length_insert]].
    - intros p w Hw. cbn in Hw. destruct (decide (p = pipe)) as [->|Hne].
      + rewrite list_lookup_insert_eq in Hw by (by eapply lookup_lt_Some). by injection Hw as <-.
      + rewrite list_lookup_insert_ne in Hw by congruence. by apply Hd.
    - intros p. cbn. destruct (decide (p = pipe)) as [->|Hne].
      + rewrite list_lookup_insert_eq by (by eapply lookup_lt_Some). cbn. by rewrite Ev, Hm.
      + by rewrite list_lookup_insert_ne by congruence. }
  assert (Hshape : forall d' m r, counts_ok d' (fun p => if decide (p = pipe) then m else n p) ->
    m = (if decide (r = 0) then n pipe + 1 else n pipe) ->
    counts_ok d' (fun p => if decide (p = pipe /\ r = 0) then n p + 1 else n p)).
  { intros d' m r Hc -> p w Hw. specialize (Hc p w Hw). cbv beta in Hc.
    repeat case_decide; try tauto; by subst. }
  destruct (Z.eqb_spec (vb_inmodeset v) 0) as [Hm|Hm].
  - assert (H2' : vb_refcount v = n pipe) by (cbn in H2; lia).
    destruct (Z.eqb_spec (vb_refcount v + 1) 1) as [Er|Er].
    + pose proof (enable_erase (vd_precision d) (vd_max_vblank_count d)
        {| v with vb_refcount := vb_refcount v + 1 |} (vd_drv d) pipe) as Hi.
      destruct (drm_vblank_enable _ _ _ _ _) as [[ret v'] s']. destruct (Z.eqb_spec ret 0) as [->|Hret].
      * destruct (Hput v' s' (n pipe + 1)) as [Hc Hs]; [|by apply (f_equal vb_inmodeset) in Hi|].
        { apply (pipe_ok_erase _ _ _ {| v with vb_refcount := vb_refcount v + 1; vb_enabled := true |});
            [by rewrite Hi|]. split; cbn; rewrite ?Hm; cbn; auto; lia. }
        split; [eapply Hshape; [exact Hc|by rewrite decide_True]|]. split_and!; try done. by eexists.
      * destruct (Hput v' s' (n pipe)) as [Hc Hs]; [|by apply (f_equal vb_inmodeset) in Hi|].
        { apply (pipe_ok_erase _ _ _ v); [rewrite Hi; cbn|done].
          replace (vb_refcount v + 1 - 1) with (vb_refcount v) by lia. by destruct v. }
        split; [eapply Hshape; [exact Hc|by rewrite decide_False]|]. by split_and!.
    + rewrite H4 by (done || lia).
      destruct (Hput {| v with vb_refcount := vb_refcount v + 1; vb_enabled := true |} (vd_drv d)
                  (n pipe + 1))
        as [Hc Hs]; [|done|].
      { split; cbn; rewrite ?Hm; cbn; auto; lia. }
      split; [eapply Hshape; [exact Hc|by rewrite decide_True]|]. split_and!; try done. by eexists.
  - assert (Er : vb_refcount v + 1 <> 1) by lia.
    rewrite (proj2 (Z.eqb_neq _ _) Er), (H3 Hm).
    destruct (Hput {| v with vb_refcount := vb_refcount v + 1 - 1; vb_enabled := false |}
                (vd_drv d) (n pipe))
      as [Hc Hs]; [|done|].
    { rewrite <- (H3 Hm). replace (vb_refcount v + 1 - 1) with (vb_refcount v) by lia.
      by destruct v. }
    cbn [vb_refcount vb_enabled] in *.
    split; [eapply Hshape; [exact Hc|by rewrite decide_False]|]. by split_and!.
Qed.

(** A step on one pipe that keeps its number of references. *)
Lemma on_pipe_counted d u pipe f :
  counted d u ->
  (forall v n, vd_crtcs d !! pipe = Some v ->
     pipe_ok (vd_offdelay d) (vd_disable_immediate d) n v ->
     pipe_ok (vd_offdelay d) (vd_disable_immediate d) n (erase (fst (f v (vd_drv d))))) ->
  counted (on_pipe d pipe f) u.
Proof.
  intros Hd Hf. destruct (on_pipe_rest d pipe f) as (He & _). unfold counted. rewrite He.
  eapply on_pipe_ok; [exact Hd|done|]. intros v Hv. apply Hf; [done|]. by apply Hd.
Qed.

Lemma on_pipe_ids d pipe f : event_ids (on_pipe d pipe f) = event_ids d.
Proof. unfold event_ids. by destruct (on_pipe_rest d pipe f) as (-> & -> & _). Qed.

Lemma on_pipe_queued d pipe f p :
  queued p (vd_events (on_pipe d pipe f)) <= queued p (vd_events d).
Proof. destruct (on_pipe_rest d pipe f) as (-> & _). done. Qed.

Lemma update_inmodeset prec mx pipe irq v s :
  vb_inmodeset (fst (drm_update_vblank_count prec mx v s pipe irq)) = vb_inmodeset v.
Proof. exact (f_equal vb_inmodeset (update_erase prec mx v s pipe irq)). Qed.

Lemma update_wake_inmodeset prec mx pipe irq v s :
  vb_inmodeset (fst (let '(v, s) := drm_update_vblank_count prec mx v s pipe irq in (wake_up v, s)))
  = vb_inmodeset v.
Proof. exact (f_equal vb_inmodeset (update_wake_erase prec mx v s pipe irq)). Qed.

Lemma disable_fn_inmodeset prec mx pipe v s :
  vb_inmodeset (fst (vblank_disable_fn prec mx v s pipe)) = vb_inmodeset v.
Proof.
  pose proof (f_equal vb_inmodeset (disable_fn_erase prec mx v s pipe)) as H.
  revert H. cbn. by case_if.
Qed.

(** Every operation as a step of the invariant, its bookkeeping aside. *)
Record step_ok d d' (u : nat -> Z) (ids : list Z) : Prop := {
  so_counted : counted d' u;
  so_quiet : quiet_off d';
  so_ids : event_ids d ++ ids ≡ₚ event_ids d'
}.

Lemma put_step d u pipe :
  counted d u -> quiet_off d -> (forall p, 0 <= u p) -> 0 < u pipe ->
  step_ok d (drm_vblank_put d pipe) (fun p => if decide (p = pipe) then u p + -1 else u p) [].
Proof.
  intros Hd Hq Hu Hp. unfold drm_vblank_put. split.
  - unfold counted. destruct (on_pipe_rest d pipe (fun v s =>
      vblank_put (vd_precision d) (vd_max_vblank_count d) v s pipe)) as (-> & _).
    eapply on_pipe_ok; [exact Hd|intros; by rewrite decide_False|].
    intros v Hv. rewrite decide_True by done. pose proof (queued_nonneg pipe (vd_events d)).
    replace (u pipe + -1 + _) with (u pipe + queued pipe (vd_events d) - 1) by lia.
    apply put_ok; [lia|]. by apply Hd.
  - eapply quiet_off_mono; [apply on_pipe_setup|intros; apply on_pipe_queued|done].
    intros. apply put_inmodeset.
  - by rewrite app_nil_r, on_pipe_ids.
Qed.

Lemma interrupt_step d u pipe :
  counted d u -> quiet_off d -> (forall p, 0 <= u p) ->
  step_ok d (snd (drm_handle_vblank d pipe)) u [].
Proof.
  intros Hd Hq Hu. unfold drm_handle_vblank.
  assert (Hid : step_ok d d u []) by (split; [done|done|by rewrite app_nil_r]).
  destruct (vd_crtcs d !! pipe) as [v|] eqn:Ev; [|done].
  destruct (vb_enabled v); [|done]. cbn [negb snd].
  set (d1 := on_pipe d pipe _).
  assert (Hc1 : counted d1 u) by (apply on_pipe_counted; [done|]; intros; by apply update_wake_ok).
  assert (Hs1 : same_setup d d1) by (apply on_pipe_setup; intros; apply update_wake_inmodeset).
  assert (Hp1 : is_Some (vd_crtcs d1 !! pipe)).
  { unfold d1. rewrite on_pipe_lookup, decide_True, Ev by done. by eexists. }
  unfold drm_handle_vblank_events. destruct (drm_vblank_count_and_time d1 pipe) as [sq now].
  destruct (drain_ok d1 u pipe (fun e => drm_vblank_passed sq (ev_sequence e)) sq now Hu Hc1 Hp1)
    as (Hc2 & Hi2 & Hs2 & He2).
  set (d2 := events_loop _ _ _ _ _ _ _) in *.
  assert (Hids : event_ids d ++ [] ≡ₚ event_ids d2)
    by (by rewrite app_nil_r, <- Hi2; unfold d1; rewrite on_pipe_ids).
  assert (Hq2 : quiet_off d2).
  { eapply quiet_off_mono; [etransitivity; [exact Hs1|exact Hs2]| |exact Hq].
    intros p. rewrite He2. etransitivity; [apply queued_filter_le|apply on_pipe_queued]. }
  case_if; [|done]. split.
  - apply on_pipe_counted; [done|]. intros. by apply disable_fn_ok.
  - eapply quiet_off_mono; [apply on_pipe_setup|intros; apply on_pipe_queued|done].
    intros. apply disable_fn_inmodeset.
  - by rewrite on_pipe_ids.
Qed.

Lemma timer_ok o i n prec mx v s pipe :
  pipe_ok o i n v ->
  pipe_ok o i n (erase (fst (vblank_disable_fn prec mx {| v with vb_timer := false |} s pipe))).
Proof.
  intros [H1 H2 H3 H4 H5 H6 H7]. rewrite disable_fn_erase. cbn [vb_refcount vb_enabled].
  destruct (Z.eqb_spec (vb_refcount v) 0) as [E0|E0], (vb_enabled v) eqn:E1; cbn [andb];
    split; cbn; rewrite ?E1; auto; try done; intros; destruct (Z.eqb_spec (vb_inmodeset v) 0); lia.
Qed.

Lemma timer_step d u pipe :
  counted d u -> quiet_off d -> step_ok d (vblank_timer_fires d pipe) u [].
Proof.
  intros Hd Hq. unfold vblank_timer_fires. split.
  - apply on_pipe_counted; [done|]. intros. by apply timer_ok.
  - eapply quiet_off_mono; [apply on_pipe_setup|intros; apply on_pipe_queued|done].
    intros. by rewrite disable_fn_inmodeset.
  - by rewrite app_nil_r, on_pipe_ids.
Qed.

Lemma block_get_ok o i n v :
  pipe_ok o i n v -> pipe_ok o i n (block_get (wake_up {| (erase v) with vb_enabled := false |})).
Proof.
  intros [H1 H2 H3 H4 H5 H6 H7]. unfold block_get.
  change (vb_inmodeset (wake_up {| (erase v) with vb_enabled := false |})) with (vb_inmodeset v).
  destruct (Z.eqb_spec (vb_inmodeset v) 0) as [E|E]; split; cbn; auto; try done.
  - lia.
  - rewrite (proj2 (Z.eqb_neq _ _) E). lia.
Qed.

Lemma block_get_erase v v' : erase v = erase v' -> erase (block_get v) = erase (block_get v').
Proof.
  intros He. erase_fields He. unfold block_get. rewrite Him.
  destruct (vb_inmodeset v' =? 0); [|done].
  destruct v, v'. cbn in *. by injection He as -> -> -> -> -> -> -> -> -> -> ->.
Qed.

Lemma off_step d u pipe :
  counted d u -> quiet_off d -> (forall p, 0 <= u p) ->
  step_ok d (drm_crtc_vblank_off d pipe) u [].
Proof.
  intros Hd Hq Hu. unfold drm_crtc_vblank_off.
  destruct (Nat.leb_spec (length (vd_crtcs d)) pipe) as [Hl|Hl].
  { split; [done|done|by rewrite app_nil_r]. }
  set (f := fun (v : drm_vblank_crtc) (s : S) => let '(v, s) := _ in _).
  set (d1 := on_pipe d pipe f).
  assert (Hf : forall v s, erase (fst (f v s)) = erase (block_get (wake_up {| (erase v) with vb_enabled := false |}))).
  { intros v s. unfold f.
    pose proof (disable_and_save_erase (vd_precision d) (vd_max_vblank_count d) v s pipe) as H.
    destruct (drm_vblank_disable_and_save _ _ _ _ _) as [v' s']. cbn [fst] in *.
    apply block_get_erase. unfold wake_up. by rewrite <- H. }
  assert (Hc1 : counted d1 u).
  { apply on_pipe_counted; [done|]. intros v n Hv Hok. rewrite Hf.
    eapply pipe_ok_erase; [|apply block_get_ok, Hok]. done. }
  assert (Hp1 : is_Some (vd_crtcs d1 !! pipe)).
  { unfold d1. rewrite on_pipe_lookup, decide_True by done.
    destruct (lookup_lt_is_Some_2 (vd_crtcs d) pipe Hl) as [v ->]. by eexists. }
  destruct (drm_vblank_count_and_time d1 pipe) as [sq now].
  destruct (drain_ok d1 u pipe (fun _ => true) sq now Hu Hc1 Hp1) as (Hc2 & Hi2 & Hs2 & He2).
  set (d2 := events_loop _ _ _ _ _ _ _) in *.
  split.
  - apply on_pipe_counted; [done|]. intros v n Hv Hok. cbn [fst].
    apply (pipe_ok_erase _ _ _ {| v with vb_hwmode := {| (vb_hwmode v) with crtc_clock := 0 |} |});
      [done|]. by destruct Hok; split.
  - eapply quiet_off_mono; [apply on_pipe_setup; done|intros; apply on_pipe_queued|].
    intros p v Hv Hm. rewrite He2, queued_filter. destruct (decide (p = pipe)) as [->|Hne].
    + unfold queued. rewrite (list_filter_iff (fun e => ev_pipe e = pipe /\ true = true)
        (fun e => ev_pipe e = pipe)) by (intros; tauto). lia.
    + rewrite Z.sub_0_r. destruct Hs2 as (Hs2 & _). specialize (Hs2 p). rewrite Hv in Hs2.
      unfold d1 in Hs2. rewrite on_pipe_lookup, decide_False in Hs2 by done.
      cbn in Hs2. destruct (vd_crtcs d !! p) as [w|] eqn:Ew; [|done].
      cbn in Hs2. injection Hs2 as Hs2. rewrite Hs2 in Hm.
      unfold d1. destruct (on_pipe_rest d pipe f) as (-> & _). by apply (Hq p w).
  - rewrite app_nil_r, on_pipe_ids, <- Hi2. unfold d1. by rewrite on_pipe_ids.
Qed.

Lemma on_config_ok o i n prec mx v s pipe :
  pipe_ok o i n v ->
  let '(failed, r, _) := vblank_on_pipe prec mx o i v s pipe in
  failed = false -> pipe_ok o i n (erase r) /\ vb_inmodeset (erase r) = 0.
Proof.
  intros [H1 H2 H3 H4 H5 H6 H7]. unfold vblank_on_pipe. set (v2 := if truthy _ then _ else _).
  assert (Hv2 : vb_refcount v2 = n /\ vb_inmodeset v2 = 0 /\ vb_offdelay_ms v2 = o
                /\ vb_disable_immediate v2 = i /\ vb_timer v2 = vb_timer v
                /\ vb_enabled v2 = vb_enabled v).
  { unfold v2, truthy. cbn. destruct (Z.eqb_spec (vb_inmodeset v) 0); cbn; split_and!; lia || done. }
  destruct Hv2 as (Hr & Hm & Ho & Hi & Ht & He).
  pose proof (reset_timestamp_erase prec v2 s pipe) as Hres.
  destruct (drm_reset_vblank_timestamp prec v2 s pipe) as [v3 s3]. cbn [fst] in Hres.
  symmetry in Hres. erase_fields Hres.
  rewrite <- Hrc, <- Hod, Hr, Ho.
  assert (Hup : 0 < n \/ o = 0 -> pipe_ok o i n {| (erase v3) with vb_enabled := true |}).
  { intros Hc. split; cbn; rewrite <- ?Hrc, <- ?Him, <- ?Hod, <- ?Hdi, ?Hm; cbn; auto; try done; lia. }
  destruct (Z.eqb_spec n 0) as [Hn|Hn], (Z.eqb_spec o 0) as [E|E]; cbn [negb orb];
    try (pose proof (enable_erase prec mx v3 s3 pipe) as Hen3;
         destruct (drm_vblank_enable prec mx v3 s3 pipe) as [[ret v4] s4];
         unfold truthy; intros Hret%negb_false_iff; rewrite Hret in Hen3; rewrite Hen3;
         split; [apply Hup; lia|by cbn; rewrite <- Him]).
  intros _. split; [|by cbn; rewrite <- Him]. apply (pipe_ok_erase _ _ _ v3); [done|].
  split; rewrite <- ?Hrc, <- ?Him, <- ?Hod, <- ?Hdi, <- ?Hen, <- ?Hti, ?Hm, ?Hr, ?He, ?Ht;
    cbn; auto; try done; lia.
Qed.

Lemma on_step d u pipe :
  counted d u -> quiet_off d -> (forall p, 0 <= u p) -> vblank_on_fails d pipe = false ->
  step_ok d (drm_crtc_vblank_on d pipe) u [].
Proof.
  intros Hd Hq Hu Hf. unfold drm_crtc_vblank_on, drm_crtc_vblank_on_config.
  assert (Hon : forall v n, vd_crtcs d !! pipe = Some v ->
    pipe_ok (vd_offdelay d) (vd_disable_immediate d) n v ->
    let r := fst (let '(_, v, s) := vblank_on_pipe (vd_precision d) (vd_max_vblank_count d)
                    (vd_offdelay d) (vd_disable_immediate d) v (vd_drv d) pipe in (v, s)) in
    pipe_ok (vd_offdelay d) (vd_disable_immediate d) n (erase r) /\ vb_inmodeset (erase r) = 0).
  { intros v n Hv Hok.
    pose proof (on_config_ok _ _ _ (vd_precision d) (vd_max_vblank_count d) v (vd_drv d) pipe Hok) as H.
    unfold vblank_on_fails in Hf. rewrite Hv in Hf.
    destruct (vblank_on_pipe _ _ _ _ _ _ _) as [[failed r] s]. by apply H. }
  split.
  - apply on_pipe_counted; [done|]. intros v n Hv Hok. by apply Hon.
  - intros p v Hv Hm. rewrite (proj1 (on_pipe_rest d pipe _)).
    rewrite on_pipe_lookup in Hv. destruct (decide (p = pipe)) as [->|]; [|by apply (Hq p v)].
    exfalso. destruct (vd_crtcs d !! pipe) as [w|] eqn:Ew; [|done].
    cbn [fmap option_fmap option_map] in Hv. injection Hv as <-. apply Hm.
    exact (proj2 (Hon w _ eq_refl (Hd pipe w Ew))).
  - by rewrite app_nil_r, on_pipe_ids.
Qed.

Lemma wait_step d u pipe f :
  counted d u -> quiet_off d ->
  (forall v, vd_crtcs d !! pipe = Some v -> f (vb_queue v) ⊆ vb_queue v \/ vb_enabled v = true) ->
  step_ok d (on_queue d pipe f) u [].
Proof.
  intros Hd Hq Hf. split.
  - apply on_pipe_counted; [done|]. intros v n Hv Hok. cbn [fst].
    apply (pipe_ok_erase _ _ _ {| v with vb_queue := f (vb_queue v) |}); [done|].
    destruct Hok as [H1 H2 H3 H4 H5 H6 H7]. split; try done. cbn. intros Hm.
    destruct (Hf v Hv) as [Hs|He]; [|by rewrite (H3 Hm) in He]. rewrite (H7 Hm) in *. set_solver.
  - eapply quiet_off_mono; [by apply on_pipe_setup|intros; apply on_pipe_queued|done].
  - unfold on_queue. by rewrite app_nil_r, on_pipe_ids.
Qed.

Lemma flush_step d u pipe id t :
  counted d u -> quiet_off d -> (forall p, 0 <= u p) -> (pipe < length (vd_crtcs d))%nat ->
  step_ok d (drm_crtc_vblank_atomic_flush d pipe (Some (id, t))) u [id].
Proof.
  intros Hd Hq Hu Hl. unfold drm_crtc_vblank_atomic_flush.
  pose proof (get_spec d _ pipe Hd) as Hg.
  destruct (drm_vblank_get d pipe) as [ret d1]. destruct Hg as (Hc1 & He1 & Hs1 & Hset1 & Hret).
  destruct (lookup_lt_is_Some_2 _ _ Hl) as [v Ev].
  assert (Hq1 : quiet_off d1)
    by (eapply quiet_off_mono; [exact Hset1|intros; by rewrite He1|done]).
  destruct (Z.eqb_spec ret 0) as [Er|Er].
  - unfold drm_crtc_arm_vblank_event, drm_crtc_accurate_vblank_count.
    set (d2 := on_pipe d1 pipe _).
    assert (Hset2 : same_setup d1 d2) by (apply on_pipe_setup; intros; apply update_inmodeset).
    assert (He2 : vd_events d2 = vd_events d) by (unfold d2; by rewrite (proj1 (on_pipe_rest _ _ _))).
    assert (Hs2 : vd_sent d2 = vd_sent d)
      by (unfold d2; by rewrite (proj1 (proj2 (on_pipe_rest _ _ _)))).
    split.
    + intros p w Hw. cbn in Hw |- *. rewrite He2, queued_app, queued_cons. cbn [ev_pipe].
      assert (Hc2 : counts_ok d2 (fun p => if decide (p = pipe /\ ret = 0)
                 then u p + queued p (vd_events d) + 1 else u p + queued p (vd_events d))).
      { eapply on_pipe_ok; [exact Hc1|done|]. intros x Hx. apply update_ok.
        by specialize (Hc1 pipe x Hx). }
      specialize (Hc2 p w Hw). cbv beta in Hc2.
      replace (u p + _) with (if decide (p = pipe /\ ret = 0)
        then u p + queued p (vd_events d) + 1 else u p + queued p (vd_events d)); [done|].
      change (queued p []) with 0.
      destruct (decide (pipe = p));
        [rewrite decide_True by (split; congruence)|rewrite decide_False by (intros []; congruence)]; lia.
    + intros p w Hw Hm. cbn in Hw |- *. rewrite He2, queued_app, queued_cons. cbn [ev_pipe].
      destruct Hset2 as (Hset2 & _). specialize (Hset2 p). rewrite Hw in Hset2.
      destruct (vd_crtcs d1 !! p) as [w1|] eqn:Ew1; [|done]. cbn in Hset2. injection Hset2 as Hset2.
      rewrite Hset2 in Hm. specialize (Hq1 p w1 Ew1 Hm). rewrite He1 in Hq1. rewrite Hq1.
      change (queued p []) with 0. destruct (decide (pipe = p)) as [<-|]; [exfalso|lia].
      destruct Hset1 as (Hset1 & _). specialize (Hset1 pipe). rewrite Ew1, Ev in Hset1.
      cbn in Hset1. injection Hset1 as Hset1. destruct (Hret Er) as (v' & Ev' & Hm').
      rewrite Ev in Ev'. injection Ev' as <-. by rewrite Hset1 in Hm.
    + unfold event_ids. cbn. rewrite He2, Hs2, fmap_app, app_assoc. done.
  - unfold drm_crtc_send_vblank_event.
    destruct Hset1 as (Hset1a & Hset1b & Hset1c & Hlen).
    rewrite Hlen, (proj2 (Z.eqb_neq (Z.of_nat (length (vd_crtcs d))) 0)) by lia. cbn [negb].
    destruct (drm_vblank_count_and_time d1 pipe) as [sq now]. split.
    + intros p w Hw. specialize (Hc1 p w Hw). cbv beta in Hc1. cbn. rewrite He1.
      by rewrite decide_False in Hc1 by tauto.
    + done.
    + unfold event_ids. cbn. rewrite He1, Hs1, fmap_app. cbn. rewrite <- !app_assoc.
      apply Permutation_app_head. apply Permutation_app_comm.
Qed.

(** A reference of a user goes to the event, or back. *)
Lemma queue_step d u e seq now v :
  counted d u -> quiet_off d -> (forall p, 0 <= u p) -> 0 < u (ev_pipe e) ->
  vd_crtcs d !! ev_pipe e = Some v -> vb_enabled v = true ->
  step_ok d (queue_vblank_event d e seq now) (fun p => if decide (p = ev_pipe e) then u p + -1 else u p) [ev_id e].
Proof.
  intros Hd Hq Hu Hp Hv Hen. unfold queue_vblank_event. case_if.
  - destruct (put_step d u (ev_pipe e) Hd Hq Hu Hp) as [H1 H2 H3]. split; [done|done|].
    rewrite app_nil_r in H3. rewrite H3. unfold event_ids. cbn. rewrite fmap_app, <- !app_assoc.
    apply Permutation_app_head, Permutation_app_comm.
  - assert (Eq : forall p, queued p (vd_events d ++ [e])
                  = queued p (vd_events d) + (if decide (p = ev_pipe e) then 1 else 0)).
    { intros p. rewrite queued_app, queued_cons. change (queued p []) with 0.
      destruct (decide (ev_pipe e = p)), (decide (p = ev_pipe e)); congruence || lia. }
    split.
    + intros p w Hw. cbn in Hw |- *. rewrite Eq. specialize (Hd p w Hw). cbv beta in Hd.
      destruct (decide (p = ev_pipe e)); [|by rewrite Z.add_0_r].
      by replace (u p + -1 + (queued p (vd_events d) + 1)) with (u p + queued p (vd_events d)) by lia.
    + intros p w Hw Hm. cbn in Hw |- *. rewrite Eq, (Hq p w Hw Hm). case_decide; [|done]. subst p.
      rewrite Hv in Hw. injection Hw as <-. by rewrite (po_off _ _ _ _ (Hd _ _ Hv) Hm) in Hen.
    + unfold event_ids. cbn. by rewrite fmap_app, app_assoc.
Qed.

Lemma reset_fold d n0 : forall k, (k <= n0)%nat -> forall mode0,
  let d' := fold_left drm_crtc_vblank_reset (seq 0 k)
              {| d with vd_crtcs := replicate n0 (vblank_crtc0 mode0) |} in
  vd_crtcs d' = replicate k (block_get (vblank_crtc0 mode0)) ++ replicate (n0 - k) (vblank_crtc0 mode0)
  /\ vd_events d' = vd_events d /\ vd_sent d' = vd_sent d /\ vd_drv d' = vd_drv d.
Proof.
  induction k as [|k IH]; intros Hk mode0.
  { cbn. by rewrite Nat.sub_0_r. }
  rewrite seq_S, fold_left_app. cbn [fold_left Nat.add].
  destruct (IH ltac:(lia) mode0) as (Hc & He & Hs & Hd).
  set (d1 := fold_left _ _ _) in *.
  unfold drm_crtc_vblank_reset, on_pipe. rewrite Hc.
  rewrite lookup_app_r, length_replicate by (rewrite length_replicate; lia).
  rewrite Nat.sub_diag. destruct (n0 - k)%nat as [|m] eqn:Em; [lia|]. cbn [replicate lookup list_lookup].
  cbn [vd_crtcs vd_events vd_sent vd_drv]. split; [|done].
  rewrite insert_app_r_alt, length_replicate, Nat.sub_diag by (rewrite length_replicate; lia).
  cbn [insert list_insert]. replace (n0 - Datatypes.S k)%nat with m by lia.
  cbn [replicate]. by rewrite replicate_cons_app, <- app_assoc.
Qed.

Lemma init_success d n mode0 alloc setup d1 :
  drm_vblank_init d n mode0 alloc setup = (0, d1) ->
  d1 = {| d with vd_crtcs := replicate n (vblank_crtc0 mode0) |}.
Proof. unfold drm_vblank_init. destruct alloc; cbn [negb]; intros H; [|discriminate H]. by injection H. Qed.

Lemma initial_inv y : vb_initial y -> vb_inv y.
Proof.
  intros (d & n & mode0 & alloc & setup & d1 & ->%init_success & E & Hev & Hse & Hu & Hsub & _).
  destruct (reset_fold d n n (le_n n) mode0) as (Hc & He & Hs & _).
  rewrite <- E in *. rewrite Nat.sub_diag, app_nil_r in Hc.
  assert (Hq : forall p, queued p (vd_events (sys_dev y)) = 0) by (intros; by rewrite He, Hev).
  unfold vb_inv. split; [intros p; by rewrite Hu|]. split; [|split].
  - intros p v Hv. rewrite Hu, Hq. rewrite Hc in Hv. apply lookup_replicate in Hv as [-> _].
    split; cbn; done || lia.
  - intros p v Hv Hm. apply Hq.
  - by rewrite Hsub, He, Hs, Hev, Hse.
Qed.

(** A driver's hook may fail, in [drm_vblank_get] as well: only where
    [drm_crtc_vblank_on] enables it does the accounting depend on its success. *)
Lemma step_inv y l y' :
  vb_inv y -> vb_step y l y' -> (forall p, l = LOn p -> vblank_on_fails (sys_dev y) p = false) -> vb_inv y'.
Proof.
  intros (Hu & Hc & Hq & Hp) Hst Hon.
  assert (Hone : forall d' u' ids, step_ok (sys_dev y) d' u' ids -> (forall p, 0 <= u' p) ->
    vb_inv (mksys d' u' (submitted y ++ ids))).
  { intros d' u' ids [H1 H2 H3] Hu'. split; [done|]. split; [done|]. split; [done|].
    cbn [submitted sys_dev]. rewrite Hp. exact H3. }
  destruct Hst as [p ret d Hg|p Hup|p id t Hl|p|p v Hv Ht|p|p|e sq now v Hup Hv Hen|p f Hf|s He].
  - pose proof (get_spec (sys_dev y) _ p Hc) as Hs. rewrite Hg in Hs.
    destruct Hs as (H1 & H2 & H3 & H4 & _).
    split; [|split; [|split]]; cbn [users sys_dev submitted].
    + intros q. pose proof (Hu q). destruct (ret =? 0); [|done].
      unfold users_add. destruct (decide (q = p)); lia.
    + intros q w Hw. specialize (H1 q w Hw). cbv beta in H1. rewrite H2.
      destruct (Z.eqb_spec ret 0); [|by rewrite decide_False in H1 by tauto].
      unfold users_add. destruct (decide (q = p)) as [->|].
      * rewrite decide_True in H1 by done.
        by rewrite <- Z.add_assoc, (Z.add_comm 1), Z.add_assoc.
      * by rewrite decide_False in H1 by tauto.
    + eapply quiet_off_mono; [exact H4|intros; by rewrite H2|done].
    + by rewrite H2, H3.
  - rewrite <- (app_nil_r (submitted y)). apply Hone; [by apply put_step|].
    intros q. unfold users_add. pose proof (Hu q). case_decide; subst; lia.
  - apply Hone; [by apply flush_step|done].
  - rewrite <- (app_nil_r (submitted y)). apply Hone; [by apply interrupt_step|done].
  - rewrite <- (app_nil_r (submitted y)). apply Hone; [by apply timer_step|done].
  - rewrite <- (app_nil_r (submitted y)). apply Hone; [by apply off_step|done].
  - rewrite <- (app_nil_r (submitted y)). apply Hone; [apply on_step; auto|done].
  - apply Hone; [by eapply queue_step|]. intros q. unfold users_add. pose proof (Hu q). case_decide; subst; lia.
  - rewrite <- (app_nil_r (submitted y)). apply Hone; [by apply wait_step|done].
  - by split.
Qed.

Lemma reachable_inv `{!VblankEnables S} y : vb_reachable y -> vb_inv y.
Proof. induction 1; [by apply initial_inv|eapply step_inv; eauto using enables_on]. Qed.
End System.

(** ** Main theorems on the interrupt and its events *)

Section Protocol.
Context {S : Type} `{!VblankDriver S} `{!VblankEnables S} (env : S -> S -> Prop) (init : S -> Prop).
Implicit Types (y : vb_sys S) (v : drm_vblank_crtc) (p : nat).

(** The vblank interrupt and its references, in any order of gets, puts, flushes,
    interrupts, timers and modesets on any number of CRTCs: a CRTC's reference
    count is what users and waiting events hold, plus one while the CRTC is
    off; while it is on and anything is held the interrupt is enabled; while it is
    off the interrupt is disabled and no event waits for it. *)
Theorem vblank_references_exact y p v :
  vb_reachable env init y -> vd_crtcs (sys_dev y) !! p = Some v ->
  let held := users y p + queued p (vd_events (sys_dev y)) in
  vb_refcount v = held + (if vb_inmodeset v =? 0 then 0 else 1)
  /\ (vb_inmodeset v = 0 -> 0 < held -> vb_enabled v = true)
  /\ (vb_inmodeset v <> 0 -> vb_enabled v = false /\ queued p (vd_events (sys_dev y)) = 0).
Proof.
  intros Hy Hv held. destruct (reachable_inv env init y Hy) as (_ & Hc & Hq & _).
  destruct (Hc p v Hv) as [H1 H2 H3 H4 H5 H6 H7]. split; [done|]. split; [done|].
  intros Hm. split; [by apply H3|by apply (Hq p v)].
Qed.

(** No event is lost or sent twice: what was handed over is what was sent and what
    still waits. *)
Theorem vblank_events_once y :
  vb_reachable env init y ->
  submitted y ≡ₚ ((fun x => ev_id (fst x)) <$> vd_sent (sys_dev y))
                   ++ (ev_id <$> vd_events (sys_dev y)).
Proof. intros Hy. by destruct (reachable_inv env init y Hy) as (_ & _ & _ & ?). Qed.

Lemma disabled_after_fn prec mx v s p :
  vb_refcount v = 0 -> vb_enabled (fst (vblank_disable_fn prec mx v s p)) = false.
Proof.
  intros Hr. pose proof (f_equal vb_enabled (disable_fn_erase prec mx v s p)) as H.
  rewrite Hr in H. cbn in H. rewrite H. by case_if.
Qed.

(** C29: An interrupt nobody needs does not stay on: unless the delay is 0, which means
    for ever, the armed timer or the next interrupt switches it off.  (The driver's
    enable hook is assumed not to fail.) *)
Theorem vblank_idle_released y p v :
  vb_reachable env init y -> vd_crtcs (sys_dev y) !! p = Some v ->
  vb_enabled v = true -> users y p = 0 -> queued p (vd_events (sys_dev y)) = 0 ->
  vd_offdelay (sys_dev y) <> 0 ->
  exists l y' v', l ∈ [LTimer p; LInterrupt p] /\ vb_step env y l y'
  /\ vd_crtcs (sys_dev y') !! p = Some v' /\ vb_enabled v' = false.
Proof.
  intros Hy Hv Hen Hu Hq Hod. destruct (reachable_inv env init y Hy) as (Hu0 & Hc & _ & _).
  pose proof (Hc p v Hv) as [H1 H2 H3 H4 H5 H6 H7]. rewrite Hu, Hq in *.
  assert (Hm : vb_inmodeset v = 0) by (destruct (Z.eq_dec (vb_inmodeset v) 0) as [|n]; [done|by rewrite (H3 n) in Hen]).
  assert (Hr : vb_refcount v = 0) by (rewrite H2, Hm; done).
  destruct (H5 Hm) as [Ho Hi].
  destruct (H6 Hen eq_refl) as [H|[Ht|[Hi' Ho']]]; [lia|..].
  - eexists _, _, _. split; [left|]. split; [by eapply (step_timer env y p v)|]. cbn.
    unfold vblank_timer_fires. rewrite on_pipe_lookup, decide_True, Hv by done. cbn.
    split; [done|]. by apply disabled_after_fn.
  - exists (LInterrupt p), (mksys (snd (drm_handle_vblank (sys_dev y) p)) (users y) (submitted y)).
    enough (exists v', vd_crtcs (snd (drm_handle_vblank (sys_dev y) p)) !! p = Some v'
              /\ vb_enabled v' = false) as (v' & ? & ?)
      by (exists v'; split; [right; left|split; [apply step_interrupt|done]]).
    unfold drm_handle_vblank. rewrite Hv, Hen. cbn [negb snd].
    rewrite Hi, Ho, Hi', (proj2 (Z.gtb_lt _ 0) Ho'), Hr. cbn [andb Z.eqb].
    set (d1 := on_pipe (sys_dev y) p _).
    assert (Hc1 : counted d1 (users y))
      by (apply on_pipe_counted; [exact Hc|]; intros; by apply update_wake_ok).
    assert (Hs1 : same_setup (sys_dev y) d1) by (apply on_pipe_setup; intros; apply update_wake_inmodeset).
    assert (Hp1 : is_Some (vd_crtcs d1 !! p))
      by (unfold d1; rewrite on_pipe_lookup, decide_True, Hv by done; by eexists).
    unfold drm_handle_vblank_events. destruct (drm_vblank_count_and_time d1 p) as [sq now].
    destruct (drain_ok d1 (users y) p (fun e => drm_vblank_passed sq (ev_sequence e)) sq now
                Hu0 Hc1 Hp1) as (Hc2 & _ & Hs2 & He2).
    set (d2 := events_loop _ _ _ _ _ _ _) in *.
    destruct (same_setup_trans _ _ _ Hs1 Hs2) as (Hin & _). specialize (Hin p). rewrite Hv in Hin.
    destruct (vd_crtcs d2 !! p) as [w|] eqn:Ew; [|done]. cbn in Hin. injection Hin as Hin.
    assert (Hw : vb_refcount w = 0).
    { rewrite (po_refs _ _ _ _ (Hc2 p w Ew)), Hin, Hm, Hu. cbn.
      pose proof (queued_nonneg p (vd_events d2)).
      assert (Hle : queued p (vd_events d2) <= queued p (vd_events d1))
        by (rewrite He2; apply queued_filter_le).
      assert (E1 : vd_events d1 = vd_events (sys_dev y)) by apply on_pipe_rest.
      rewrite E1, Hq in Hle. lia. }
    rewrite on_pipe_lookup, decide_True, Ew by done. cbn [fmap option_fmap option_map].
    eexists. split; [reflexivity|]. by apply disabled_after_fn.
Qed.
End Protocol.
