(* ===== verification/DrmVblankHw.v ===== *)
(** * DrmVblankHw: the vblank counters and switches of the hardware
      (src/drm/drm_vblank.c)

    What the driver's hooks do, as interfaces - a counter of frames that wraps
    around, a switch for the interrupt -, and what the vblank code of
    [DrmVblank] makes of them; a concrete display at the end. *)

From S2P Require Export DrmVblank.

(** [drm_vblank_get] as a function of the pipe. *)
Definition get_pipe {S} `{!VblankDriver S} (prec mx : Z) (pipe : nat) (v : drm_vblank_crtc) (s : S)
  : drm_vblank_crtc * S :=
  let v := {| v with vb_refcount := vb_refcount v + 1 |} in
  let '(_, v, s) :=
    if vb_refcount v =? 1 then drm_vblank_enable prec mx v s pipe
    else if vb_enabled v then (0, v, s)
    else (- EINVAL, {| v with vb_refcount := vb_refcount v - 1 |}, s) in
  (v, s).

Lemma get_on_pipe {S} `{!VblankDriver S} (d : vblank_dev S) pipe :
  snd (drm_vblank_get d pipe)
  = on_pipe d pipe (get_pipe (vd_precision d) (vd_max_vblank_count d) pipe).
Proof.
  unfold drm_vblank_get, on_pipe, get_pipe. destruct (vd_crtcs d !! pipe) as [v|]; [|done].
  cbv zeta. case_if; [by destruct (drm_vblank_enable _ _ _ _ _) as [[??]?]|]. by case_if.
Qed.

Lemma get_length {S} `{!VblankDriver S} (d : vblank_dev S) pipe :
  length (vd_crtcs (snd (drm_vblank_get d pipe))) = length (vd_crtcs d).
Proof. rewrite get_on_pipe. apply on_pipe_rest. Qed.

(** ** The counter follows the hardware *)

(** A hardware counter of [k] bits: [frames] is the number of frames a pipe has
    scanned out, which no hook turns back. *)
Class VblankCounter (S : Type) `{!VblankDriver S} (k : Z) (frames : S -> nat -> Z) : Prop := {
  counter_reads s p :
    let '(c, s') := __get_vblank_counter s p in
    c = frames s' p mod 2 ^ k /\ forall q, frames s q <= frames s' q;
  timestamp_frames prec s p irq q :
    frames s q <= frames (snd (drm_crtc_get_last_vbltimestamp prec s p irq)) q;
  enable_frames s p q : frames s q <= frames (snd (__enable_vblank s p)) q;
  disable_frames s p q : frames s q <= frames (__disable_vblank s p) q
}.

Section Counter.
Context {S : Type} `{!VblankDriver S} (k : Z) (frames : S -> nat -> Z) `{!VblankCounter S k frames}.
Hypothesis k_range : 0 < k <= 32.
Implicit Types (v : drm_vblank_crtc) (s : S) (d : vblank_dev S) (pipe p q : nat).

(** The loop answers a value the counter had while it ran. *)
Lemma sample_spec prec pipe irq n : forall s,
  let '(_, cur, _, s') := counter_and_timestamp n prec s pipe irq in
  (exists f, frames s pipe <= f <= frames s' pipe /\ cur = f mod 2 ^ k)
  /\ forall q, frames s q <= frames s' q.
Proof.
  induction n as [|n IH]; intros s; cbn [counter_and_timestamp];
    pose proof (counter_reads s pipe) as H1;
    destruct (__get_vblank_counter s pipe) as [cur s1]; destruct H1 as [-> H1];
    pose proof (timestamp_frames prec s1 pipe irq) as H2;
    destruct (drm_crtc_get_last_vbltimestamp prec s1 pipe irq) as [[rc t] s2]; cbn [snd] in H2;
    pose proof (counter_reads s2 pipe) as H3;
    destruct (__get_vblank_counter s2 pipe) as [again s3]; destruct H3 as [-> H3];
    assert (Hall : forall q, frames s q <= frames s3 q)
      by (intros q; specialize (H1 q); specialize (H2 q); specialize (H3 q); lia);
    pose proof (H1 pipe); pose proof (H2 pipe); pose proof (H3 pipe);
    case_if; try (split; [exists (frames s1 pipe); split; [lia|done]|done]).
  specialize (IH s3). destruct (counter_and_timestamp n prec s3 pipe irq) as [[[rc' cur'] t'] s4].
  destruct IH as [(f & Hf & ->) Hq]. split.
  - exists f. split; [|done]. specialize (Hall pipe). lia.
  - intros q. specialize (Hq q). specialize (Hall q). lia.
Qed.

(** The pipe's counter is [base] ahead of the frame number [f] it last saw. *)
Record tracks (mx base f : Z) v s pipe : Prop := {
  tr_max : drm_max_vblank_count mx v = 2 ^ k - 1;
  tr_modeset : truthy (vb_inmodeset v .& 0x2) = false;
  tr_seen : 0 <= f <= frames s pipe;
  tr_last : vb_last v = f mod 2 ^ k;
  tr_count : vb_count v = u64 (base + f)
}.

Lemma wrapped_difference f f' :
  0 <= f' - f < 2 ^ k -> u32 (f' mod 2 ^ k - f mod 2 ^ k) .& (2 ^ k - 1) = f' - f.
Proof.
  intros Hd. replace (2 ^ k - 1) with (Z.ones k) by (rewrite Z.ones_equiv; lia).
  rewrite Z.land_ones by lia. unfold u32.
  replace (2 ^ 32) with (2 ^ k * 2 ^ (32 - k)) by (rewrite <- Z.pow_add_r by lia; f_equal; lia).
  rewrite Z.mod_mod_divide by apply Z.divide_factor_l.
  rewrite <- Zminus_mod. by apply Z.mod_small.
Qed.

(** A step that brings the counter up to a frame of the time it ran, provided
    that the hardware counter has not wrapped around since the last one. *)
Definition steps_to (mx : Z) pipe v s v' s' (lo : Z) : Prop :=
  (forall q, frames s q <= frames s' q)
  /\ forall base f, tracks mx base f v s pipe -> frames s' pipe - f < 2 ^ k ->
     exists f', f <= f' /\ lo <= f' /\ tracks mx base f' v' s' pipe.

Lemma update_steps prec mx v s pipe irq :
  let '(v', s') := drm_update_vblank_count prec mx v s pipe irq in
  steps_to mx pipe v s v' s' (frames s pipe).
Proof.
  unfold drm_update_vblank_count, get_vblank_counter_and_timestamp.
  pose proof (sample_spec prec pipe irq (Z.to_nat (DRM_TIMESTAMP_MAXRETRIES - 1)) s) as Hs.
  destruct (counter_and_timestamp _ prec s pipe irq) as [[[rc cur] t] s'].
  destruct Hs as [(f' & Hf' & ->) Hq]. cbv zeta.
  match goal with |- context [if ?x =? 0 then _ else _] => set (diff := x) end.
  assert (Hdiff : forall base f, tracks mx base f v s pipe -> frames s' pipe - f < 2 ^ k ->
    diff = f' - f).
  { intros base f [Hmax Hms Hseen Hlast _] Hw. unfold diff.
    rewrite Hmax, Hms, andb_false_r, Hlast, wrapped_difference by lia.
    replace (truthy (2 ^ k - 1)) with true; [done|].
    assert (2 ^ 1 <= 2 ^ k) by (apply Z.pow_le_mono_r; lia).
    symmetry. unfold truthy. apply negb_true_iff, Z.eqb_neq. lia. }
  clearbody diff. destruct (Z.eqb_spec diff 0) as [E|E].
  - split; [done|]. intros base f Ht Hw. pose proof (Hdiff base f Ht Hw).
    exists f. destruct Ht as [Hmax Hms Hseen Hlast Hcount].
    split; [lia|]. split; [lia|]. split; try done. pose proof (Hq pipe). lia.
  - split; [done|]. intros base f Ht Hw. pose proof (Hdiff base f Ht Hw) as Hd.
    exists f'. destruct Ht as [Hmax Hms Hseen Hlast Hcount].
    split; [lia|]. split; [lia|]. split; try done; cbn; [lia|].
    rewrite Hcount, Hd. unfold u64. rewrite Zplus_mod_idemp_l. f_equal. lia.
Qed.

Lemma steps_weaken mx pipe v s v' s' lo : steps_to mx pipe v s v' s' lo -> steps_to mx pipe v s v' s' 0.
Proof.
  intros [Hq H]. split; [done|]. intros base f Ht Hw. destruct (H base f Ht Hw) as (f' & ? & ? & ?).
  exists f'. split; [done|]. split; [|done]. pose proof (tr_seen _ _ _ _ _ _ Ht). lia.
Qed.

Lemma steps_trans mx pipe v s v1 s1 v2 s2 l1 l2 :
  steps_to mx pipe v s v1 s1 l1 -> steps_to mx pipe v1 s1 v2 s2 l2 ->
  steps_to mx pipe v s v2 s2 (Z.max l1 l2).
Proof.
  intros [Q1 H1] [Q2 H2]. split; [intros q; specialize (Q1 q); specialize (Q2 q); lia|]. intros base f Ht Hw.
  destruct (H1 base f Ht) as (f1 & Hf1 & Hl1 & Ht1); [pose proof (Q2 pipe); lia|].
  destruct (H2 base f1 Ht1) as (f2 & Hf2 & Hl2 & Ht2); [lia|].
  exists f2. split; [lia|]. split; [lia|done].
Qed.

(** A change of what the counter does not look at, in time that may pass. *)
Lemma steps_other mx pipe v s v' s' :
  vb_last v' = vb_last v -> vb_count v' = vb_count v ->
  vb_max_vblank_count v' = vb_max_vblank_count v ->
  truthy (vb_inmodeset v' .& 0x2) = truthy (vb_inmodeset v .& 0x2) ->
  (forall q, frames s q <= frames s' q) -> steps_to mx pipe v s v' s' 0.
Proof.
  intros Hl Hc Hm Hi Hq. split; [done|]. intros base f [T1 T2 T3 T4 T5] Hw. exists f.
  split; [done|]. split; [lia|]. split; [|by rewrite Hi| |by rewrite Hl|by rewrite Hc].
  - unfold drm_max_vblank_count in *. by rewrite Hm.
  - pose proof (Hq pipe). lia.
Qed.

Lemma update_wake_steps prec mx v s pipe irq :
  let '(v', s') := (let '(v, s) := drm_update_vblank_count prec mx v s pipe irq in (wake_up v, s)) in
  steps_to mx pipe v s v' s' (frames s pipe).
Proof.
  pose proof (update_steps prec mx v s pipe irq) as H.
  destruct (drm_update_vblank_count prec mx v s pipe irq) as [v' s']. destruct H as [Hq H].
  split; [done|]. intros base f Ht Hw. destruct (H base f Ht Hw) as (f' & ? & ? & T).
  exists f'. split_and!; try done. by destruct T; split.
Qed.

Lemma disable_and_save_steps prec mx v s pipe :
  let '(v', s') := drm_vblank_disable_and_save prec mx v s pipe in steps_to mx pipe v s v' s' 0.
Proof.
  unfold drm_vblank_disable_and_save. destruct (vb_enabled v); [|by apply steps_other].
  pose proof (update_steps prec mx v s pipe false) as H.
  destruct (drm_update_vblank_count prec mx v s pipe false) as [v' s'].
  apply steps_weaken in H. eapply (steps_trans _ _ _ _ _ _ _ _ 0 0); [exact H|].
  apply steps_other; try done. intros q. apply disable_frames.
Qed.

Lemma disable_fn_steps prec mx v s pipe :
  let '(v', s') := vblank_disable_fn prec mx v s pipe in steps_to mx pipe v s v' s' 0.
Proof. unfold vblank_disable_fn. case_if; [apply disable_and_save_steps|by apply steps_other]. Qed.

Lemma enable_steps prec mx v s pipe :
  let '(_, v', s') := drm_vblank_enable prec mx v s pipe in steps_to mx pipe v s v' s' 0.
Proof.
  unfold drm_vblank_enable. destruct (vb_enabled v); [by apply steps_other|].
  pose proof (enable_frames s pipe) as Hf.
  destruct (__enable_vblank s pipe) as [ret s1]. cbn [snd] in Hf.
  destruct (truthy ret); [by apply steps_other|].
  pose proof (update_steps prec mx v s1 pipe false) as H.
  destruct (drm_update_vblank_count prec mx v s1 pipe false) as [v2 s2].
  apply steps_weaken in H. eapply (steps_trans _ _ _ _ v s1 _ _ 0 0); [by apply steps_other|].
  eapply (steps_trans _ _ _ _ _ _ _ _ 0 0); [exact H|by apply steps_other].
Qed.

Lemma put_steps prec mx v s pipe :
  let '(v', s') := vblank_put prec mx v s pipe in steps_to mx pipe v s v' s' 0.
Proof.
  unfold vblank_put. repeat case_if; try by apply steps_other.
  pose proof (disable_fn_steps prec mx {| v with vb_refcount := vb_refcount v - 1 |} s pipe) as H.
  destruct (vblank_disable_fn _ _ _ _ _) as [v' s'].
  eapply (steps_trans _ _ _ _ {| v with vb_refcount := vb_refcount v - 1 |} s _ _ 0 0);
    [by apply steps_other|exact H].
Qed.

(** The same for the device, as a pipe sees it. *)
Definition dtracks (base f : Z) d p : Prop :=
  exists v, vd_crtcs d !! p = Some v /\ tracks (vd_max_vblank_count d) base f v (vd_drv d) p.

Definition advances (lo : Z) d d' p : Prop :=
  (forall q, frames (vd_drv d) q <= frames (vd_drv d') q)
  /\ forall base f, dtracks base f d p -> frames (vd_drv d') p - f < 2 ^ k ->
     exists f', f <= f' /\ lo <= f' /\ dtracks base f' d' p.

Lemma advances_trans l1 l2 d d1 d2 p :
  advances l1 d d1 p -> advances l2 d1 d2 p -> advances (Z.max l1 l2) d d2 p.
Proof.
  intros [Q1 H1] [Q2 H2]. split; [intros q; specialize (Q1 q); specialize (Q2 q); lia|]. intros base f Ht Hw.
  destruct (H1 base f Ht) as (f1 & Hf1 & Hl1 & Ht1); [pose proof (Q2 p); lia|].
  destruct (H2 base f1 Ht1) as (f2 & Hf2 & Hl2 & Ht2); [lia|].
  exists f2. split; [lia|]. split; [lia|done].
Qed.

Lemma dtracks_nonneg base f d p : dtracks base f d p -> 0 <= f.
Proof. intros (v & _ & [_ _ H _ _]). lia. Qed.

Lemma advances_weaken lo d d' p : advances lo d d' p -> advances 0 d d' p.
Proof.
  intros [Q H]. split; [done|]. intros base f Ht Hw. destruct (H base f Ht Hw) as (f' & ? & ? & ?).
  exists f'. pose proof (dtracks_nonneg _ _ _ _ Ht). split; [done|]. split; [lia|done].
Qed.

Lemma advances_seq d d1 d2 p : advances 0 d d1 p -> advances 0 d1 d2 p -> advances 0 d d2 p.
Proof. intros H1 H2. exact (advances_trans 0 0 d d1 d2 p H1 H2). Qed.

(** A device that differs in what the counters do not look at. *)
Lemma advances_same d d' p :
  vd_crtcs d' = vd_crtcs d -> vd_max_vblank_count d' = vd_max_vblank_count d ->
  (forall q, frames (vd_drv d) q <= frames (vd_drv d') q) -> advances 0 d d' p.
Proof.
  intros Hc Hm Hq. split; [done|]. intros base f (v & Hv & Ht) Hw. exists f.
  split; [done|]. split; [by destruct Ht; lia|]. exists v. rewrite Hc, Hm. split; [done|].
  destruct Ht as [T1 T2 T3 T4 T5]. split; try done. pose proof (Hq p). lia.
Qed.

Lemma on_pipe_advances lo d pipe f p :
  (forall v, vd_crtcs d !! pipe = Some v ->
     let '(v', s') := f v (vd_drv d) in
     steps_to (vd_max_vblank_count d) pipe v (vd_drv d) v' s' lo) ->
  advances (if decide (p = pipe /\ is_Some (vd_crtcs d !! pipe)) then lo else 0)
    d (on_pipe d pipe f) p.
Proof.
  intros Hf. unfold on_pipe. destruct (vd_crtcs d !! pipe) as [v|] eqn:Ev.
  2: { rewrite decide_False by (intros [_ []]; done). by apply advances_same. }
  specialize (Hf v eq_refl). destruct (f v (vd_drv d)) as [v' s']. destruct Hf as [Hq Hst].
  split; [done|]. cbn [vd_drv vd_crtcs]. intros base g (w & Hw & Ht) Hwrap.
  destruct (decide (p = pipe)) as [->|Hne].
  - rewrite decide_True by (split; [done|by eexists]). rewrite Ev in Hw. injection Hw as <-.
    destruct (Hst base g Ht Hwrap) as (g' & H1 & H2 & H3). exists g'. split; [done|]. split; [done|].
    exists v'. split; [|exact H3]. cbn. by rewrite list_lookup_insert_eq by (by eapply lookup_lt_Some).
  - rewrite decide_False by (intros []; congruence). exists g. split; [done|].
    split; [by destruct Ht; lia|]. exists w. split; [cbn; by rewrite list_lookup_insert_ne by congruence|].
    destruct Ht as [T1 T2 T3 T4 T5]. split; try done. pose proof (Hq p). cbn. lia.
Qed.

Lemma on_pipe_advances0 d pipe f p :
  (forall v, vd_crtcs d !! pipe = Some v ->
     let '(v', s') := f v (vd_drv d) in
     steps_to (vd_max_vblank_count d) pipe v (vd_drv d) v' s' 0) ->
  advances 0 d (on_pipe d pipe f) p.
Proof.
  intros Hf. pose proof (on_pipe_advances 0 d pipe f p Hf) as H. by case_decide.
Qed.

Lemma events_loop_advances pipe due sq now p l : forall kept d,
  advances 0 d (events_loop d pipe due sq now kept l) p.
Proof.
  induction l as [|e l IH]; intros kept d; cbn [events_loop]; [by apply advances_same|].
  case_if; [apply IH|].
  eapply advances_seq; [|apply IH].
  eapply (advances_seq _ {| d with vd_events := kept ++ l |}); [by apply advances_same|].
  eapply advances_seq; [|by apply advances_same].
  apply on_pipe_advances0. intros v Hv. apply put_steps.
Qed.

Lemma queue_advances d e sq now p : advances 0 d (queue_vblank_event d e sq now) p.
Proof.
  unfold queue_vblank_event. case_if; [|by apply advances_same].
  eapply advances_seq; [|by apply advances_same]. apply on_pipe_advances0. intros v Hv. apply put_steps.
Qed.

Lemma get_advances d pipe p : advances 0 d (snd (drm_vblank_get d pipe)) p.
Proof.
  rewrite get_on_pipe. apply on_pipe_advances0. intros v _. unfold get_pipe.
  case_if; [|case_if; by apply steps_other].
  pose proof (enable_steps (vd_precision d) (vd_max_vblank_count d)
    {| v with vb_refcount := vb_refcount v + 1 |} (vd_drv d) pipe) as H.
  destruct (drm_vblank_enable _ _ _ _ _) as [[r v'] s'].
  eapply (steps_trans _ _ _ _ {| v with vb_refcount := vb_refcount v + 1 |} (vd_drv d) _ _ 0 0);
    [by apply steps_other|exact H].
Qed.

Lemma flush_advances d pipe id t p :
  (pipe < length (vd_crtcs d))%nat ->
  advances 0 d (drm_crtc_vblank_atomic_flush d pipe (Some (id, t))) p.
Proof.
  intros Hl. unfold drm_crtc_vblank_atomic_flush.
  pose proof (get_advances d pipe p) as Hg.
  pose proof (get_length d pipe) as Hlen.
  destruct (drm_vblank_get d pipe) as [ret d1]. cbn [snd] in Hg, Hlen.
  eapply advances_seq; [exact Hg|]. case_if.
  - unfold drm_crtc_arm_vblank_event, drm_crtc_accurate_vblank_count.
    eapply advances_seq; [|by apply advances_same].
    apply on_pipe_advances0. intros v _.
    pose proof (update_steps (vd_precision d1) (vd_max_vblank_count d1) v (vd_drv d1) pipe false) as H.
    destruct (drm_update_vblank_count _ _ _ _ _ _) as [v' s']. by eapply steps_weaken.
  - unfold drm_crtc_send_vblank_event.
    rewrite Hlen, (proj2 (Z.eqb_neq (Z.of_nat (length (vd_crtcs d))) 0)) by lia. cbn [negb].
    destruct (drm_vblank_count_and_time d1 pipe). by apply advances_same.
Qed.

Definition pipe_enabled d p : bool :=
  match vd_crtcs d !! p with Some v => vb_enabled v | None => false end.

(** The interrupt of an enabled pipe brings its counter up to date. *)
Lemma interrupt_advances d pipe p :
  let d' := snd (drm_handle_vblank d pipe) in
  advances 0 d d' p
  /\ (pipe_enabled d pipe = true -> advances (Z.max (frames (vd_drv d) pipe) 0) d d' pipe).
Proof.
  unfold drm_handle_vblank, pipe_enabled. destruct (vd_crtcs d !! pipe) as [v|] eqn:Ev.
  2: { split; [by apply advances_same|done]. }
  destruct (vb_enabled v) eqn:Een; cbn [negb snd]; [|split; [by apply advances_same|done]].
  set (d1 := on_pipe d pipe _). set (d2 := drm_handle_vblank_events d1 pipe).
  match goal with |- advances 0 d ?x p /\ _ => set (d3 := x) end.
  assert (H23 : forall q, advances 0 d1 d3 q).
  { intros q. eapply (advances_seq _ d2).
    - unfold d2, drm_handle_vblank_events. destruct (drm_vblank_count_and_time d1 pipe).
      apply events_loop_advances.
    - unfold d3. case_if; [|by apply advances_same]. apply on_pipe_advances0.
      intros w _. apply disable_fn_steps. }
  assert (H1 : forall q, advances (if decide (q = pipe /\ is_Some (vd_crtcs d !! pipe))
                                  then frames (vd_drv d) pipe else 0) d d1 q).
  { intros q. apply on_pipe_advances. intros w _. apply update_wake_steps. }
  split.
  - eapply advances_seq; [eapply advances_weaken, H1|apply H23].
  - intros _. specialize (H1 pipe). rewrite Ev, decide_True in H1 by (split; [done|by eexists]).
    exact (advances_trans _ _ _ _ _ _ H1 (H23 pipe)).
Qed.

Lemma timer_advances d pipe p : advances 0 d (vblank_timer_fires d pipe) p.
Proof.
  apply on_pipe_advances0. intros v _.
  pose proof (disable_fn_steps (vd_precision d) (vd_max_vblank_count d)
    {| v with vb_timer := false |} (vd_drv d) pipe) as H.
  destruct (vblank_disable_fn _ _ _ _ _) as [v' s'].
  eapply (steps_trans _ _ _ _ {| v with vb_timer := false |} (vd_drv d) _ _ 0 0);
    [by apply steps_other|exact H].
Qed.

Lemma off_advances d pipe p : advances 0 d (drm_crtc_vblank_off d pipe) p.
Proof.
  unfold drm_crtc_vblank_off. case_if; [by apply advances_same|].
  set (f := fun (v : drm_vblank_crtc) (s : S) => let '(v, s) := _ in _).
  destruct (drm_vblank_count_and_time (on_pipe d pipe f) pipe) as [sq now].
  eapply (advances_seq _ (on_pipe d pipe f)); [|eapply advances_seq; [apply events_loop_advances|]].
  - apply on_pipe_advances0. intros v _. unfold f.
    pose proof (disable_and_save_steps (vd_precision d) (vd_max_vblank_count d) v (vd_drv d) pipe) as H.
    destruct (drm_vblank_disable_and_save _ _ _ _ _) as [v' s'].
    eapply (steps_trans _ _ _ _ _ _ _ _ 0 0); [exact H|].
    unfold block_get, wake_up. cbn [vb_inmodeset].
    destruct (Z.eqb_spec (vb_inmodeset v') 0) as [E|E]; [|by apply steps_other].
    apply steps_other; try done. by rewrite E.
  - apply on_pipe_advances0. intros v _. by apply steps_other.
Qed.

Lemma on_pipe_elsewhere d pipe f p :
  p <> pipe ->
  (forall v, vd_crtcs d !! pipe = Some v ->
     forall q, frames (vd_drv d) q <= frames (snd (f v (vd_drv d))) q) ->
  advances 0 d (on_pipe d pipe f) p.
Proof.
  intros Hne Hf. unfold on_pipe. destruct (vd_crtcs d !! pipe) as [v|] eqn:Ev; [|by apply advances_same].
  specialize (Hf v eq_refl). destruct (f v (vd_drv d)) as [v' s']. cbn [snd] in Hf.
  split; [done|]. intros base g (w & Hw & Ht) Hwrap. exists g. split; [done|].
  split; [by destruct Ht; lia|]. exists w.
  split; [cbn; by rewrite list_lookup_insert_ne by congruence|].
  destruct Ht as [T1 T2 T3 T4 T5]. split; try done. pose proof (Hf p). cbn. lia.
Qed.

Lemma on_elsewhere d pipe p : p <> pipe -> advances 0 d (drm_crtc_vblank_on d pipe) p.
Proof.
  intros Hne. apply on_pipe_elsewhere; [done|]. intros v Hv.
  unfold vblank_on_pipe, drm_reset_vblank_timestamp, get_vblank_counter_and_timestamp. cbv zeta.
  pose proof (sample_spec (vd_precision d) pipe false (Z.to_nat (DRM_TIMESTAMP_MAXRETRIES - 1))
    (vd_drv d)) as Hs.
  destruct (counter_and_timestamp _ _ _ _ _) as [[[rc cur] t] s']. destruct Hs as [_ Hq].
  match goal with |- context [store_vblank ?x 1 ?y ?z] => set (v3 := store_vblank x 1 y z) end.
  case_if; [|done].
  pose proof (enable_steps (vd_precision d) (vd_max_vblank_count d) v3 s' pipe) as He.
  destruct (drm_vblank_enable _ _ _ _ _) as [[r v4] s4]. destruct He as [He _].
  intros q. cbn. specialize (Hq q). specialize (He q). lia.
Qed.

(** Switching on: the count moves by one, whatever the hardware did meanwhile. *)
Lemma on_rebases d pipe base f :
  dtracks base f d pipe ->
  exists f0, frames (vd_drv d) pipe <= f0
  /\ (frames (vd_drv (drm_crtc_vblank_on d pipe)) pipe - f0 < 2 ^ k ->
      exists f', f0 <= f' /\ dtracks (base + f + 1 - f0) f' (drm_crtc_vblank_on d pipe) pipe).
Proof.
  intros (v & Hv & [T1 T2 T3 T4 T5]).
  unfold drm_crtc_vblank_on, drm_crtc_vblank_on_config, on_pipe, vblank_on_pipe, drm_reset_vblank_timestamp.
  rewrite Hv. cbv zeta. unfold get_vblank_counter_and_timestamp.
  pose proof (sample_spec (vd_precision d) pipe false (Z.to_nat (DRM_TIMESTAMP_MAXRETRIES - 1))
    (vd_drv d)) as Hs.
  destruct (counter_and_timestamp _ _ _ _ _) as [[[rc cur] t] s'].
  destruct Hs as [(f0 & Hf0 & ->) Hq]. exists f0. split; [lia|].
  match goal with |- context [store_vblank ?x 1 ?y ?z] => set (v3 := store_vblank x 1 y z) end.
  assert (Ht : tracks (vd_max_vblank_count d) (base + f + 1 - f0) f0 v3 s' pipe).
  { assert (E : u64 (vb_count v + 1) = u64 (base + f + 1 - f0 + f0)).
    { rewrite T5. unfold u64. rewrite Zplus_mod_idemp_l. f_equal. lia. }
    unfold v3. case_if; (split; [exact T1|done || exact T2|cbn; lia|done|exact E]). }
  clearbody v3. case_if.
  - pose proof (enable_steps (vd_precision d) (vd_max_vblank_count d) v3 s' pipe) as He.
    destruct (drm_vblank_enable _ _ _ _ _) as [[r v4] s4]. destruct He as [_ He]. cbn [vd_drv].
    intros Hw. destruct (He _ _ Ht Hw) as (f' & Hf' & _ & Ht'). exists f'. split; [done|]. exists v4.
    split; [cbn; by rewrite list_lookup_insert_eq by (by eapply lookup_lt_Some)|done].
  - cbn. intros _. exists f0. split; [done|]. exists v3.
    split; [cbn; by rewrite list_lookup_insert_eq by (by eapply lookup_lt_Some)|done].
Qed.

Context (env : S -> S -> Prop) (env_frames : forall s s' q, env s s' -> frames s q <= frames s' q).

(** C8: The software counter refines the hardware's frames.  Whatever step is taken,
    if the hardware counter of a pipe has not wrapped around since the pipe was
    last looked at, its count stays in step with the frame number last seen,
    which never goes back; the interrupt of an enabled pipe sees every frame
    that came before it; switching the CRTC on moves the count by exactly one. *)
Theorem vblank_count_tracks y l y' p base f :
  vb_step env y l y' -> dtracks base f (sys_dev y) p ->
  frames (vd_drv (sys_dev y')) p - f < 2 ^ k ->
  exists base' f', dtracks base' f' (sys_dev y') p
  /\ (l <> LOn p -> base' = base /\ f <= f')
  /\ (l = LInterrupt p -> pipe_enabled (sys_dev y) p = true ->
      frames (vd_drv (sys_dev y)) p <= f')
  /\ (l = LOn p -> exists f0, frames (vd_drv (sys_dev y)) p <= f0 <= f'
                     /\ base' + f0 = base + f + 1).
Proof.
  intros Hst Ht Hw.
  assert (Hadv : advances 0 (sys_dev y) (sys_dev y') p -> l <> LOn p ->
    (l = LInterrupt p -> False) -> exists base' f', dtracks base' f' (sys_dev y') p
    /\ (l <> LOn p -> base' = base /\ f <= f')
    /\ (l = LInterrupt p -> pipe_enabled (sys_dev y) p = true ->
        frames (vd_drv (sys_dev y)) p <= f')
    /\ (l = LOn p -> exists f0, frames (vd_drv (sys_dev y)) p <= f0 <= f'
                       /\ base' + f0 = base + f + 1)).
  { intros [_ H] Hl Hi. destruct (H base f Ht Hw) as (f' & ? & _ & ?).
    exists base, f'. split; [done|]. split; [done|]. split; [intros E; by destruct (Hi E)|done]. }
  destruct Hst as [q ret d Hg|q Hup|q id t Hl|q|q v Hv Ht'|q|q|e sq now v Hup Hv Hen|q g Hg|s He]; cbn [sys_dev] in *.
  - apply Hadv; try discriminate. pose proof (get_advances (sys_dev y) q p) as H. by rewrite Hg in H.
  - apply Hadv; try discriminate. apply on_pipe_advances0. intros w _. apply put_steps.
  - apply Hadv; try discriminate. by apply flush_advances.
  - destruct (interrupt_advances (sys_dev y) q p) as [[_ H0] H1].
    destruct (decide (q = p /\ pipe_enabled (sys_dev y) q = true)) as [[-> Hen]|Hno].
    + destruct (H1 Hen) as [_ H]. destruct (H base f Ht Hw) as (f' & ? & ? & ?).
      exists base, f'. split; [done|]. split; [done|]. split; [intros; lia|discriminate].
    + destruct (H0 base f Ht Hw) as (f' & ? & ? & ?). exists base, f'.
      split; [done|]. split; [done|]. split; [|discriminate].
      intros E Hen. injection E as ->. by destruct Hno.
  - apply Hadv; try discriminate. apply timer_advances.
  - apply Hadv; try discriminate. apply off_advances.
  - destruct (decide (q = p)) as [->|Hne].
    + destruct (on_rebases (sys_dev y) p base f Ht) as (f0 & Hf0 & H).
      destruct Ht as (v & _ & [_ _ Hseen _ _]). destruct H as (f' & Hf' & Ht'); [lia|].
      exists (base + f + 1 - f0), f'. split; [done|]. split; [done|]. split; [done|].
      intros _. exists f0. lia.
    + apply Hadv; [by apply on_elsewhere, not_eq_sym|congruence|discriminate].
  - apply Hadv; try discriminate. apply queue_advances.
  - apply Hadv; try discriminate. apply on_pipe_advances0. intros v _. by apply steps_other.
  - apply Hadv; try discriminate. apply advances_same; cbn; try done. intros. by apply env_frames.
Qed.

Lemma passed_distance base f' g :
  drm_vblank_passed (u64 (base + f')) (u64 (base + g)) = ((f' - g) mod 2 ^ 64 <=? 2 ^ 23).
Proof.
  unfold drm_vblank_passed, u64. rewrite <- Zminus_mod.
  replace (base + f' - (base + g)) with (f' - g) by lia. done.
Qed.

(** What the handler sends of the events, once the counter stands at [c]. *)
Definition due (c : Z) (p : nat) (e : drm_pending_vblank_event) : Prop :=
  ev_pipe e = p /\ drm_vblank_passed c (ev_sequence e) = true.

#[local] Instance due_dec c p e : Decision (due c p e).
Proof using. unfold due. apply _. Defined.

Lemma events_sent d1 users p v1 c :
  counted d1 users -> 0 <= users p -> vd_crtcs d1 !! p = Some v1 -> vb_count v1 = c ->
  let d2 := drm_handle_vblank_events d1 p in
  vd_events d2 = filter (fun e => ~ due c p e) (vd_events d1)
  /\ exists now, vd_sent d2 = vd_sent d1 ++ ((fun e => (e, payload (ev_type e) c now)) <$> filter (due c p) (vd_events d1)).
Proof using.
  intros Hc1 Hu Hv1 Hcount. cbv zeta. unfold drm_handle_vblank_events, drm_vblank_count_and_time. rewrite Hv1, Hcount.
  destruct (events_loop_spec p (fun e => drm_vblank_passed c (ev_sequence e))
    c (vb_time v1) (vd_events d1) [] d1 _ eq_refl Hc1) as (_ & H & H' & _).
  - by rewrite Hv1; eexists.
  - pose proof (gone_queued p (fun e => drm_vblank_passed c (ev_sequence e)) (vd_events d1)). lia.
  - split; [by rewrite H|]. exists (vb_time v1). by rewrite H'.
Qed.

(** The handler counts up to a frame [f'] of its own time, and sends the events that are
    due then. *)
Lemma handler_outcome `{!VblankEnables S} (init : S -> Prop) y p base f :
  vb_reachable env init y -> dtracks base f (sys_dev y) p -> pipe_enabled (sys_dev y) p = true ->
  let d := sys_dev y in
  let d' := snd (drm_handle_vblank d p) in
  frames (vd_drv d') p - f < 2 ^ k ->
  exists f' now, frames (vd_drv d) p <= f' <= frames (vd_drv d') p
  /\ vd_events d' = filter (fun e => ~ due (u64 (base + f')) p e) (vd_events d)
  /\ forall e, e ∈ vd_events d -> due (u64 (base + f')) p e ->
      (e, payload (ev_type e) (u64 (base + f')) now) ∈ vd_sent d'.
Proof.
  intros Hy Ht Hen d d'. destruct (reachable_inv env init y Hy) as (Hu0 & Hc & _ & _).
  fold d in Ht, Hen. unfold d', drm_handle_vblank. clear d'.
  unfold pipe_enabled in Hen. destruct (vd_crtcs d !! p) as [v|] eqn:Ev; [|done].
  rewrite Hen. cbn [negb snd].
  set (d1 := on_pipe d p _). set (d2 := drm_handle_vblank_events d1 p).
  match goal with |- frames (vd_drv ?x) p - f < 2 ^ k -> _ => set (d3 := x) end. intros Hw.
  assert (H12 : advances 0 d1 d2 p).
  { unfold d2, drm_handle_vblank_events. destruct (drm_vblank_count_and_time d1 p).
    apply events_loop_advances. }
  assert (H23 : advances 0 d2 d3 p).
  { unfold d3. case_if; [|by apply advances_same]. apply on_pipe_advances0.
    intros w _. apply disable_fn_steps. }
  assert (H01 : advances (frames (vd_drv d) p) d d1 p).
  { pose proof (on_pipe_advances (frames (vd_drv d) p) d p (fun v s =>
      let '(v, s) := drm_update_vblank_count (vd_precision d) (vd_max_vblank_count d) v s p true in
      (wake_up v, s)) p) as H.
    rewrite decide_True in H by (split; [done|by rewrite Ev; eexists]).
    apply H. intros w _. apply update_wake_steps. }
  destruct H01 as [_ H01]. destruct (advances_seq _ _ _ _ H12 H23) as [Hq _]. specialize (Hq p).
  destruct (H01 base f Ht) as (f' & Hff & Hlo & v1 & Hv1 & Ht1); [lia|].
  assert (Hc1 : counted d1 (users y))
    by (apply on_pipe_counted; [exact Hc|]; intros; by apply update_wake_ok).
  assert (E1 : vd_events d1 = vd_events d) by apply on_pipe_rest.
  assert (H3 : vd_events d3 = vd_events d2 /\ vd_sent d3 = vd_sent d2).
  { unfold d3. case_if; [|done]. by destruct (on_pipe_rest d2 p (fun v s =>
      vblank_disable_fn (vd_precision d2) (vd_max_vblank_count d2) v s p)) as (? & ? & _). }
  destruct H3 as [E3 E3'].
  destruct (events_sent d1 (users y) p v1 (u64 (base + f')) Hc1 (Hu0 p) Hv1 (tr_count _ _ _ _ _ _ Ht1)) as (E2 & now & E2').
  pose proof (tr_seen _ _ _ _ _ _ Ht1) as Hseen1. exists f', now. split; [lia|]. rewrite E3, E3'. fold d2 in E2, E2'. rewrite E2, E2', E1.
  split; [done|]. intros e He Hdue. apply elem_of_app. right. apply list_elem_of_fmap. exists e.
  split; [done|]. by apply list_elem_of_filter.
Qed.

(** C14: An event that waits for frame [g] is sent by the first interrupt that comes
    after that frame, with a frame number of the time of that interrupt, unless the
    interrupt is more than 2^23 frames late; and it is not sent before.  (The hardware
    counter, of [k] bits, does not wrap around between frame [f], at which it was last
    looked at, and that interrupt, and the driver's enable hook does not fail.) *)
Theorem vblank_event_delivery `{!VblankEnables S} (init : S -> Prop) y p base f e g :
  vb_reachable env init y -> dtracks base f (sys_dev y) p -> pipe_enabled (sys_dev y) p = true ->
  e ∈ vd_events (sys_dev y) -> ev_pipe e = p -> ev_sequence e = u64 (base + g) ->
  let d' := snd (drm_handle_vblank (sys_dev y) p) in
  frames (vd_drv d') p - f < 2 ^ k ->
  (g <= frames (vd_drv (sys_dev y)) p -> frames (vd_drv d') p - g <= 2 ^ 23 ->
     (e ∉ vd_events d')
     /\ exists f' now, frames (vd_drv (sys_dev y)) p <= f' <= frames (vd_drv d') p
        /\ (e, payload (ev_type e) (u64 (base + f')) now) ∈ vd_sent d')
  /\ (frames (vd_drv d') p < g -> g - f <= 2 ^ 63 -> e ∈ vd_events d').
Proof.
  intros Hy Ht Hen He Hep Hes d' Hw.
  destruct (handler_outcome init y p base f Hy Ht Hen Hw) as (f' & now & Hf' & Eev & Hsent). fold d' in Hf', Eev, Hsent.
  destruct Ht as (v0 & _ & [_ _ Hseen0 _ _]). rewrite Eev. unfold due in *. split.
  - intros Hg Hlate.
    assert (Hdue : drm_vblank_passed (u64 (base + f')) (ev_sequence e) = true).
    { rewrite Hes, passed_distance, Z.mod_small by lia. apply Z.leb_le. lia. }
    split; [by intros [Hno _]%list_elem_of_filter; apply Hno|]. exists f', now. by auto.
  - intros Hg Hfar. apply list_elem_of_filter. split; [|done]. intros [_ Hdue].
    rewrite Hes, passed_distance in Hdue. apply Z.leb_le in Hdue.
    replace ((f' - g) mod 2 ^ 64) with (f' - g + 2 ^ 64) in Hdue; [lia|].
    symmetry. rewrite <- (Z_mod_plus_full _ 1), Z.mod_small; lia.
Qed.
End Counter.

(** ** The interrupt follows the hardware switch *)

(** [on] tells whether the interrupt of a pipe is enabled in the hardware; only the
    two hooks change it, and only for their pipe. *)
Class VblankSwitch (S : Type) `{!VblankDriver S} (on : S -> nat -> bool) : Prop := {
  switch_counter s p q : on (snd (__get_vblank_counter s p)) q = on s q;
  switch_timestamp prec s p irq q :
    on (snd (drm_crtc_get_last_vbltimestamp prec s p irq)) q = on s q;
  switch_enable s p q :
    on (snd (__enable_vblank s p)) q
    = if fst (__enable_vblank s p) =? 0 then (if Nat.eqb q p then true else on s q) else on s q;
  switch_disable s p q : on (__disable_vblank s p) q = if Nat.eqb q p then false else on s q
}.

Section Switch.
Context {S : Type} `{!VblankDriver S} (on : S -> nat -> bool) `{!VblankSwitch S on}.
Implicit Types (v : drm_vblank_crtc) (s : S) (d : vblank_dev S) (pipe p q : nat).

Definition matched d : Prop :=
  forall p v, vd_crtcs d !! p = Some v -> on (vd_drv d) p = vb_enabled v.

(** A step on a pipe that keeps its switch and its flag together, and the other
    switches as they are. *)
Definition switches pipe v s v' s' : Prop :=
  (on s pipe = vb_enabled v -> on s' pipe = vb_enabled v')
  /\ forall q, q <> pipe -> on s' q = on s q.

Lemma switches_trans pipe v s v1 s1 v2 s2 :
  switches pipe v s v1 s1 -> switches pipe v1 s1 v2 s2 -> switches pipe v s v2 s2.
Proof. intros [A B] [A' B']. split; [auto|]. intros q Hq. by rewrite B', B. Qed.

Lemma switches_flag pipe v s v' : vb_enabled v' = vb_enabled v -> switches pipe v s v' s.
Proof. intros He. split; [by rewrite He|done]. Qed.

Lemma sample_switch prec pipe irq n q : forall s,
  on (snd (counter_and_timestamp n prec s pipe irq)) q = on s q.
Proof.
  induction n as [|n IH]; intros s; cbn [counter_and_timestamp];
    pose proof (switch_counter s pipe q) as H1;
    destruct (__get_vblank_counter s pipe) as [cur s1]; cbn [snd] in H1;
    pose proof (switch_timestamp prec s1 pipe irq q) as H2;
    destruct (drm_crtc_get_last_vbltimestamp prec s1 pipe irq) as [[rc t] s2]; cbn [snd] in H2;
    pose proof (switch_counter s2 pipe q) as H3;
    destruct (__get_vblank_counter s2 pipe) as [again s3]; cbn [snd] in H3;
    case_if; cbn [snd]; congruence || (rewrite IH; congruence).
Qed.

Lemma update_on prec mx v s pipe irq q :
  on (snd (drm_update_vblank_count prec mx v s pipe irq)) q = on s q.
Proof.
  unfold drm_update_vblank_count, get_vblank_counter_and_timestamp.
  pose proof (sample_switch prec pipe irq (Z.to_nat (DRM_TIMESTAMP_MAXRETRIES - 1)) q s) as H.
  destruct (counter_and_timestamp _ prec s pipe irq) as [[[rc cur] t] s']. cbn [snd] in H. cbv zeta.
  by case_if.
Qed.

Lemma update_switches prec mx v s pipe irq :
  let '(v', s') := drm_update_vblank_count prec mx v s pipe irq in switches pipe v s v' s'.
Proof.
  pose proof (update_on prec mx v s pipe irq) as H.
  pose proof (f_equal vb_enabled (update_erase prec mx v s pipe irq)) as He.
  destruct (drm_update_vblank_count prec mx v s pipe irq) as [v' s']. cbn [snd] in H. cbn in He.
  split; [by rewrite H, He|auto].
Qed.

Lemma disable_and_save_switches prec mx v s pipe :
  let '(v', s') := drm_vblank_disable_and_save prec mx v s pipe in switches pipe v s v' s'.
Proof.
  unfold drm_vblank_disable_and_save. destruct (vb_enabled v); [|by apply switches_flag].
  pose proof (update_switches prec mx v s pipe false) as H.
  destruct (drm_update_vblank_count prec mx v s pipe false) as [v' s'].
  eapply switches_trans; [exact H|]. split; cbn.
  - intros _. by rewrite switch_disable, Nat.eqb_refl.
  - intros q Hq. by rewrite switch_disable, (proj2 (Nat.eqb_neq _ _) Hq).
Qed.

Lemma disable_fn_switches prec mx v s pipe :
  let '(v', s') := vblank_disable_fn prec mx v s pipe in switches pipe v s v' s'.
Proof. unfold vblank_disable_fn. case_if; [apply disable_and_save_switches|by apply switches_flag]. Qed.

Lemma enable_switches prec mx v s pipe :
  let '(_, v', s') := drm_vblank_enable prec mx v s pipe in switches pipe v s v' s'.
Proof.
  unfold drm_vblank_enable. destruct (vb_enabled v) eqn:Een; [by apply switches_flag|].
  pose proof (switch_enable s pipe) as Hs.
  destruct (__enable_vblank s pipe) as [ret s1]. cbn [fst snd] in Hs.
  unfold truthy. destruct (ret =? 0); cbn [negb].
  - pose proof (update_on prec mx v s1 pipe false) as H.
    destruct (drm_update_vblank_count prec mx v s1 pipe false) as [v' s']. cbn [snd] in H.
    split; [intros _; by rewrite H, Hs, Nat.eqb_refl|].
    intros q Hq. by rewrite H, Hs, (proj2 (Nat.eqb_neq _ _) Hq).
  - split; [intros He; by rewrite Hs, He|intros; apply Hs].
Qed.

Lemma put_switches prec mx v s pipe :
  let '(v', s') := vblank_put prec mx v s pipe in switches pipe v s v' s'.
Proof.
  unfold vblank_put. repeat case_if; try by apply switches_flag.
  pose proof (disable_fn_switches prec mx {| v with vb_refcount := vb_refcount v - 1 |} s pipe) as H.
  destruct (vblank_disable_fn _ _ _ _ _) as [v' s'].
  eapply switches_trans; [|exact H]. by apply switches_flag.
Qed.

Lemma on_pipe_matched d pipe f :
  matched d ->
  (forall v, vd_crtcs d !! pipe = Some v ->
     let '(v', s') := f v (vd_drv d) in switches pipe v (vd_drv d) v' s') ->
  matched (on_pipe d pipe f).
Proof.
  intros Hm Hf p w Hw. rewrite on_pipe_lookup in Hw. unfold on_pipe.
  destruct (vd_crtcs d !! pipe) as [v|] eqn:Ev.
  - specialize (Hf v eq_refl). destruct (f v (vd_drv d)) as [v' s'] eqn:Ef. destruct Hf as [H1 H2].
    cbn. destruct (decide (p = pipe)) as [->|Hne].
    + cbn in Hw. rewrite Ef in Hw. injection Hw as <-. apply H1. by apply Hm.
    + rewrite H2 by done. by apply Hm.
  - destruct (decide (p = pipe)); [done|]. by apply Hm.
Qed.

Lemma events_loop_matched pipe due sq now l : forall kept d,
  matched d -> matched (events_loop d pipe due sq now kept l).
Proof.
  induction l as [|e l IH]; intros kept d Hm; cbn [events_loop]; [done|].
  case_if; [by apply IH|]. apply IH.
  apply (on_pipe_matched {| d with vd_events := kept ++ l |}); [exact Hm|]. intros v _. apply put_switches.
Qed.

Lemma get_matched d pipe : matched d -> matched (snd (drm_vblank_get d pipe)).
Proof.
  intros Hm. rewrite get_on_pipe. apply on_pipe_matched; [done|]. intros v _. unfold get_pipe.
  case_if; [|case_if; by apply switches_flag].
  pose proof (enable_switches (vd_precision d) (vd_max_vblank_count d)
    {| v with vb_refcount := vb_refcount v + 1 |} (vd_drv d) pipe) as H.
  destruct (drm_vblank_enable _ _ _ _ _) as [[r v'] s'].
  eapply switches_trans; [|exact H]. by apply switches_flag.
Qed.

Context (env : S -> S -> Prop) (env_switch : forall s s' q, env s s' -> on s' q = on s q).

Lemma step_matched y l y' :
  vb_step env y l y' -> matched (sys_dev y) -> matched (sys_dev y').
Proof.
  intros Hst Hm. destruct Hst as [q ret d Hg|q Hup|q id t Hl|q|q v Hv Ht'|q|q|e sq now v Hup Hv Hen|q g Hg|s He]; cbn [sys_dev] in *.
  - pose proof (get_matched (sys_dev y) q Hm) as H. by rewrite Hg in H.
  - apply on_pipe_matched; [done|]. intros v _. apply put_switches.
  - unfold drm_crtc_vblank_atomic_flush. pose proof (get_matched (sys_dev y) q Hm) as H.
    pose proof (get_length (sys_dev y) q) as Hlen.
    destruct (drm_vblank_get (sys_dev y) q) as [ret d1]. cbn [snd] in H, Hlen. case_if.
    + unfold drm_crtc_arm_vblank_event, drm_crtc_accurate_vblank_count.
      apply (on_pipe_matched d1 q); [done|]. intros v _. apply update_switches.
    + unfold drm_crtc_send_vblank_event.
      rewrite Hlen, (proj2 (Z.eqb_neq (Z.of_nat (length (vd_crtcs (sys_dev y)))) 0)) by lia.
      cbn [negb].
      by destruct (drm_vblank_count_and_time d1 q).
  - unfold drm_handle_vblank. destruct (vd_crtcs (sys_dev y) !! q); [|done]. case_if; [done|].
    cbn [snd]. unfold drm_handle_vblank_events.
    destruct (drm_vblank_count_and_time _ q) as [sq now].
    assert (H : matched (events_loop (on_pipe (sys_dev y) q (fun v s =>
      let '(v, s) := drm_update_vblank_count (vd_precision (sys_dev y)) (vd_max_vblank_count (sys_dev y)) v s q true in
      (wake_up v, s)))
      q (fun e => drm_vblank_passed sq (ev_sequence e)) sq now [] (vd_events (on_pipe (sys_dev y) q (fun v s =>
      let '(v, s) := drm_update_vblank_count (vd_precision (sys_dev y)) (vd_max_vblank_count (sys_dev y)) v s q true in
      (wake_up v, s)))))).
    { apply events_loop_matched, on_pipe_matched; [done|]. intros v _.
      pose proof (update_switches (vd_precision (sys_dev y)) (vd_max_vblank_count (sys_dev y)) v (vd_drv (sys_dev y)) q true) as H.
      destruct (drm_update_vblank_count _ _ _ _ _ _) as [v' s']. eapply switches_trans; [exact H|]. by apply switches_flag. }
    case_if; [|done]. apply on_pipe_matched; [done|]. intros v _. apply disable_fn_switches.
  - apply on_pipe_matched; [done|]. intros w _.
    pose proof (disable_fn_switches (vd_precision (sys_dev y)) (vd_max_vblank_count (sys_dev y))
      {| w with vb_timer := false |} (vd_drv (sys_dev y)) q) as H.
    destruct (vblank_disable_fn _ _ _ _ _). eapply switches_trans; [|exact H]. by apply switches_flag.
  - unfold drm_crtc_vblank_off. case_if; [done|].
    destruct (drm_vblank_count_and_time _ q) as [sq now].
    apply on_pipe_matched; [|intros v _; by apply switches_flag].
    apply events_loop_matched, on_pipe_matched; [done|]. intros v _.
    pose proof (disable_and_save_switches (vd_precision (sys_dev y)) (vd_max_vblank_count (sys_dev y))
      v (vd_drv (sys_dev y)) q) as H.
    destruct (drm_vblank_disable_and_save _ _ _ _ _) as [v' s'].
    eapply switches_trans; [exact H|]. apply switches_flag. unfold block_get. by case_if.
  - apply on_pipe_matched; [done|]. intros v _.
    unfold vblank_on_pipe, drm_reset_vblank_timestamp, get_vblank_counter_and_timestamp. cbv zeta.
    pose proof (sample_switch (vd_precision (sys_dev y)) q false
      (Z.to_nat (DRM_TIMESTAMP_MAXRETRIES - 1))) as Hs.
    specialize (fun p => Hs p (vd_drv (sys_dev y))).
    destruct (counter_and_timestamp _ _ _ _ _) as [[[rc cur] t] s']. cbn [snd] in Hs.
    match goal with |- context [store_vblank ?x 1 ?y ?z] => set (v3 := store_vblank x 1 y z) end.
    assert (H3 : switches q v (vd_drv (sys_dev y)) v3 s').
    { split; [|intros; apply Hs]. intros E. rewrite Hs, E. unfold v3. by case_if. }
    clearbody v3. case_if; [|done].
    pose proof (enable_switches (vd_precision (sys_dev y)) (vd_max_vblank_count (sys_dev y)) v3 s' q) as He.
    destruct (drm_vblank_enable _ _ _ _ _) as [[r v4] s4]. by eapply switches_trans.
  - unfold queue_vblank_event. case_if; [|done].
    apply (on_pipe_matched (sys_dev y)); [done|]. intros w _. apply put_switches.
  - apply on_pipe_matched; [done|]. intros v _. by apply switches_flag.
  - intros p v Hv. cbn in *. rewrite (env_switch _ _ p He). by apply Hm.
Qed.

Lemma initial_matched (init : S -> Prop) y :
  (forall s q, init s -> on s q = false) -> vb_initial init y -> matched (sys_dev y).
Proof.
  intros Hi (d & n & mode0 & alloc & setup & d1 & ->%init_success & E & _ & _ & _ & _ & Hd) p v Hv.
  destruct (reset_fold d n n (le_n n) mode0) as (Hc & _ & _ & Hr). rewrite <- E in Hc, Hr.
  rewrite Hc, Nat.sub_diag, app_nil_r in Hv. apply lookup_replicate in Hv as [-> _].
  rewrite Hr. by apply Hi.
Qed.

(** The hardware delivers no interrupts before the first CRTC is switched on. *)
Definition starts_off (init : S -> Prop) : Prop := forall s q, init s -> on s q = false.

(** The hardware's switch is where the flag says, and so, while a CRTC is on and
    anything holds its interrupt, the hardware delivers it. *)
Theorem vblank_hardware_follows `{!VblankEnables S} (init : S -> Prop) y p v :
  starts_off init ->
  vb_reachable env init y -> vd_crtcs (sys_dev y) !! p = Some v ->
  on (vd_drv (sys_dev y)) p = vb_enabled v
  /\ (vb_inmodeset v = 0 -> 0 < users y p + queued p (vd_events (sys_dev y)) ->
      on (vd_drv (sys_dev y)) p = true)
  /\ (vb_inmodeset v <> 0 -> on (vd_drv (sys_dev y)) p = false).
Proof.
  intros Hi Hy Hv.
  assert (Hm : matched (sys_dev y)).
  { clear Hv. induction Hy as [y0 H0|y0 l y1 H0 IH Hst]; [by eapply initial_matched|by eapply step_matched]. }
  rewrite (Hm p v Hv).
  destruct (reachable_inv env init y Hy) as (_ & Hc & _). pose proof (Hc p v Hv) as [? ? ? ? ? ?].
  split; [done|]. split; auto.
Qed.
End Switch.

(** ** A concrete display *)

(** Frames scanned out, the pipes with interrupts enabled, the time; a 24-bit
    counter. *)
Record demo_hw := mkhw { hw_frames : Z; hw_irq : gset nat; hw_now : Z }.

#[export] Instance demo_driver : VblankDriver demo_hw := {
  hook_get_vblank_counter := Some (fun s _ => (hw_frames s mod 2 ^ 24, s));
  hook_get_vblank_timestamp := None;
  hook_enable_vblank := Some (fun s p => (0, {| s with hw_irq := {[p]} ∪ hw_irq s |}));
  hook_disable_vblank := Some (fun s p => {| s with hw_irq := hw_irq s ∖ {[p]} |});
  ktime_get s := (hw_now s, {| s with hw_now := hw_now s + 1 |})
}.

#[export] Instance demo_enables : VblankEnables demo_hw.
Proof. done. Qed.

#[export] Instance demo_counter : VblankCounter demo_hw 24 (fun s _ => hw_frames s).
Proof. split; cbn; intros; try done; lia. Qed.

Definition demo_on (s : demo_hw) (p : nat) : bool := bool_decide (p ∈ hw_irq s).

#[export] Instance demo_switch : VblankSwitch demo_hw demo_on.
Proof.
  split; intros; try done; unfold demo_on; cbn;
    destruct (Nat.eqb_spec q p) as [->|]; apply bool_decide_ext || (symmetry; apply bool_decide_ext)
    || (apply bool_decide_eq_true_2; set_solver) || (apply bool_decide_eq_false_2; set_solver);
    set_solver.
Qed.

Definition demo_env (s s' : demo_hw) : Prop :=
  hw_frames s <= hw_frames s' /\ hw_irq s' = hw_irq s.
Definition demo_init (s : demo_hw) : Prop := hw_irq s = ∅.

Definition demo_mode : drm_display_mode :=
  mkmode 0 0 0 0 0 0 0 0 0 0 0 0 0 0 0 0 0 0 0 0 0 0 0 0 0 0 0 0.

Definition demo_dev0 : vblank_dev demo_hw :=
  mkvd [] (2 ^ 24 - 1) false 5000 20 [] [] (mkhw 0 ∅ 0).

(** One CRTC: switched on, an event flushed to it, and later a frame that ends
    with the counter at its wrap-around. *)
Definition demo_y0 : vb_sys demo_hw :=
  mksys (fold_left drm_crtc_vblank_reset (seq 0 1) (snd (drm_vblank_init demo_dev0 1 demo_mode true (fun _ => (0, 0)))))
    (fun _ => 0) [].
Definition demo_y1 : vb_sys demo_hw :=
  mksys {| (sys_dev demo_y0) with vd_drv := mkhw (2 ^ 24 - 1) ∅ 7 |}
    (users demo_y0) (submitted demo_y0).
Definition demo_y2 : vb_sys demo_hw :=
  mksys (drm_crtc_vblank_on (sys_dev demo_y1) 0) (users demo_y1) (submitted demo_y1).
Definition demo_y3 : vb_sys demo_hw :=
  mksys (drm_crtc_vblank_atomic_flush (sys_dev demo_y2) 0 (Some (77, DRM_EVENT_FLIP_COMPLETE)))
    (users demo_y2) (submitted demo_y2 ++ [77]).
Definition demo_y4 : vb_sys demo_hw :=
  mksys {| (sys_dev demo_y3) with vd_drv := mkhw (2 ^ 24) {[0%nat]} 20 |}
    (users demo_y3) (submitted demo_y3).
Definition demo_y5 : vb_sys demo_hw :=
  mksys (snd (drm_handle_vblank (sys_dev demo_y4) 0)) (users demo_y4) (submitted demo_y4).

Lemma demo_reachable : vb_reachable demo_env demo_init demo_y4 /\ vb_reachable demo_env demo_init demo_y5.
Proof.
  assert (H0 : vb_reachable demo_env demo_init demo_y0)
    by (apply reach_initial; by exists demo_dev0, 1%nat, demo_mode, true, (fun _ => (0, 0)), (snd (drm_vblank_init demo_dev0 1 demo_mode true (fun _ => (0, 0))))).
  assert (H1 : vb_reachable demo_env demo_init demo_y1)
    by (eapply reach_step; [exact H0|apply step_env; by vm_compute]).
  assert (H2 : vb_reachable demo_env demo_init demo_y2) by (eapply reach_step; [exact H1|apply step_on]).
  assert (H3 : vb_reachable demo_env demo_init demo_y3)
    by (eapply reach_step; [exact H2|apply step_flush; vm_compute; lia]).
  assert (H4 : vb_reachable demo_env demo_init demo_y4)
    by (eapply reach_step; [exact H3|apply step_env; by vm_compute]).
  split; [done|]. eapply reach_step; [exact H4|apply step_interrupt].
Qed.

Definition pipe0 (y : vb_sys demo_hw) : drm_vblank_crtc :=
  default (vblank_crtc0 demo_mode) (vd_crtcs (sys_dev y) !! 0%nat).

Lemma demo_pipes :
  vd_crtcs (sys_dev demo_y4) !! 0%nat = Some (pipe0 demo_y4)
  /\ vd_crtcs (sys_dev demo_y5) !! 0%nat = Some (pipe0 demo_y5).
Proof. by vm_compute. Qed.

(** The waiting event holds the interrupt; once sent, nothing does. *)
Lemma vblank_references_exact_witness :
  vb_refcount (pipe0 demo_y4) = 1 /\ vb_enabled (pipe0 demo_y4) = true
  /\ vb_refcount (pipe0 demo_y5) = 0.
Proof.
  destruct demo_reachable as [H4 H5].
  destruct (vblank_references_exact demo_env demo_init demo_y4 0%nat (pipe0 demo_y4) H4
    (proj1 demo_pipes)) as (R4 & E4 & _).
  destruct (vblank_references_exact demo_env demo_init demo_y5 0%nat (pipe0 demo_y5) H5
    (proj2 demo_pipes)) as (R5 & _).
  split; [rewrite R4; by vm_compute|]. split; [apply E4; by vm_compute|rewrite R5; by vm_compute].
Defined.

Lemma vblank_events_once_witness : [77] ≡ₚ ((fun x => ev_id (fst x)) <$> vd_sent (sys_dev demo_y5)).
Proof.
  pose proof (vblank_events_once demo_env demo_init demo_y5 (proj2 demo_reachable)) as H.
  replace (ev_id <$> vd_events (sys_dev demo_y5)) with (@nil Z) in H by (vm_compute; reflexivity).
  rewrite app_nil_r in H. exact H.
Defined.

Lemma vblank_idle_released_witness :
  exists l y' v', l ∈ [LTimer 0; LInterrupt 0] /\ vb_step demo_env demo_y5 l y'
  /\ vd_crtcs (sys_dev y') !! 0%nat = Some v' /\ vb_enabled v' = false.
Proof.
  apply (vblank_idle_released demo_env demo_init demo_y5 0%nat (pipe0 demo_y5) (proj2 demo_reachable)
    (proj2 demo_pipes));
    first [by vm_compute | vm_compute; discriminate].
Defined.

(** The counter wraps from 2^24 - 1 to 0 between the two states; the count moves by
    one. *)
Lemma demo_tracks : dtracks 24 (fun s _ => hw_frames s) (2 - 2 ^ 24) (2 ^ 24 - 1) (sys_dev demo_y4) 0.
Proof. exists (pipe0 demo_y4). split; [apply demo_pipes|]. by split; vm_compute. Qed.

Lemma vblank_count_tracks_witness :
  exists base' f', dtracks 24 (fun s _ => hw_frames s) base' f' (sys_dev demo_y5) 0
  /\ base' = 2 - 2 ^ 24 /\ 2 ^ 24 <= f'.
Proof.
  destruct (vblank_count_tracks 24 (fun s _ => hw_frames s) ltac:(lia) demo_env
    (fun s s' _ H => proj1 H) demo_y4 (LInterrupt 0) demo_y5 0%nat (2 - 2 ^ 24) (2 ^ 24 - 1)
    (step_interrupt demo_env demo_y4 0%nat) demo_tracks ltac:(by vm_compute))
    as (base' & f' & H1 & H2 & H3 & _).
  exists base', f'. split; [exact H1|]. split; [apply H2; discriminate|].
  apply (H3 eq_refl). by vm_compute.
Defined.

Lemma vblank_event_delivery_witness :
  let e := mkev 77 DRM_EVENT_FLIP_COMPLETE 0 2 in
  (e ∉ vd_events (sys_dev demo_y5)) /\ exists f' now,
    (e, payload DRM_EVENT_FLIP_COMPLETE (u64 (2 - 2 ^ 24 + f')) now) ∈ vd_sent (sys_dev demo_y5).
Proof.
  intros e.
  destruct (vblank_event_delivery 24 (fun s _ => hw_frames s) ltac:(lia) demo_env demo_init demo_y4 0%nat
    (2 - 2 ^ 24) (2 ^ 24 - 1) e (2 ^ 24) (proj1 demo_reachable) demo_tracks) as [H _];
    [by vm_compute|vm_compute; left|by vm_compute|by vm_compute|by vm_compute|].
  destruct H as (H1 & f' & now & _ & H2); [vm_compute; discriminate|vm_compute; discriminate|].
  split; [exact H1|]. exists f', now. exact H2.
Defined.

Lemma vblank_hardware_follows_witness :
  demo_on (vd_drv (sys_dev demo_y4)) 0 = true.
Proof.
  apply (vblank_hardware_follows demo_on demo_env
    ltac:(intros s s' q [_ H]; unfold demo_on; by rewrite H) demo_init demo_y4 0%nat (pipe0 demo_y4)
    ltac:(intros s q H; unfold demo_on; by rewrite H) (proj1 demo_reachable) (proj1 demo_pipes));
    by vm_compute.
Defined.
