(* ===== verification/DrmVblankIoctl.v ===== *)
(** * DrmVblankIoctl: waiting for vblanks from user space
      (src/drm/drm_vblank.c, its three ioctls)

    An ioctl is a thread: a state for every point where it looks at the vblank code
    or lets go of a lock, and a step from each.  Threads interleave with each other,
    with interrupts, timers, modesets and the drivers (the system of DrmVblank).
    What the kernel answers - memory, room for an event, why a sleep ended - is an
    input of the step.

    [wait_event_interruptible_timeout] is the kernel's, and is taken as documented: the
    condition is looked at before the caller sleeps and each time its queue is woken,
    no wake-up between the look and the sleep is lost, and when the timeout elapses or
    a signal comes the condition decides once more.  The wake-ups are those of
    DrmVblank's [drm_handle_vblank] and [drm_crtc_vblank_off]; time is not modelled: a
    timeout may elapse at any step.  [drm_crtc_wait_one_vblank], which sleeps on the same
    queue, is not modelled. *)

From S2P Require Export DrmVblankHw.

#[local] Open Scope Z_scope.

(** ** The structures of user space *)

Definition _DRM_VBLANK_ABSOLUTE : Z := 0x0.
Definition _DRM_VBLANK_RELATIVE : Z := 0x1.
Definition _DRM_VBLANK_HIGH_CRTC_MASK : Z := 0x3e.
Definition _DRM_VBLANK_EVENT : Z := 0x4000000.
Definition _DRM_VBLANK_NEXTONMISS : Z := 0x10000000.
Definition _DRM_VBLANK_SECONDARY : Z := 0x20000000.
Definition _DRM_VBLANK_SIGNAL : Z := 0x40000000.
Definition _DRM_VBLANK_HIGH_CRTC_SHIFT : Z := 1.
Definition _DRM_VBLANK_TYPES_MASK : Z := _DRM_VBLANK_ABSOLUTE .| _DRM_VBLANK_RELATIVE.
Definition _DRM_VBLANK_FLAGS_MASK : Z :=
  _DRM_VBLANK_EVENT .| _DRM_VBLANK_SIGNAL .| _DRM_VBLANK_SECONDARY .| _DRM_VBLANK_NEXTONMISS.
Definition DRM_CRTC_SEQUENCE_RELATIVE : Z := 0x1.
Definition DRM_CRTC_SEQUENCE_NEXT_ON_MISS : Z := 0x2.

(** [union drm_wait_vblank]: the request and the reply share their words; the third
    is [signal] in the one and [tval_sec] in the other. *)
Record drm_wait_vblank := mkvw { vw_type : Z; vw_sequence : Z; vw_signal : Z; vw_tval_usec : Z }.

Definition drm_wait_vblank_is_query (w : drm_wait_vblank) : bool :=
  if truthy (vw_sequence w) then false
  else _DRM_VBLANK_RELATIVE
       =? vw_type w .& (_DRM_VBLANK_TYPES_MASK .| _DRM_VBLANK_EVENT .| _DRM_VBLANK_NEXTONMISS).

Definition widen_32_to_64 (narrow near : Z) : Z := u64 (near + s32 (u64 (narrow - near))).

(** The CRTC an index of a lessee stands for: [l] are the CRTCs from [pipe] on; past the
    last one if there are too few. *)
Fixpoint leased_pipe (held : nat -> bool) (l : list nat) (pipe index : nat) : nat :=
  match l with
  | [] => pipe
  | c :: l =>
      if held c then match index with
                     | O => pipe
                     | S index => leased_pipe held l (S pipe) index
                     end
      else leased_pipe held l (S pipe) index
  end.

Definition wait_pipe (modeset : bool) (held : nat -> bool) (crtcs : list nat) (w : drm_wait_vblank) : nat :=
  let flags := vw_type w .& _DRM_VBLANK_FLAGS_MASK in
  let high_pipe := vw_type w .& _DRM_VBLANK_HIGH_CRTC_MASK in
  let index := if truthy high_pipe then high_pipe .>> _DRM_VBLANK_HIGH_CRTC_SHIFT
               else if truthy (flags .& _DRM_VBLANK_SECONDARY) then 1 else 0 in
  if modeset then leased_pipe held crtcs 0 (Z.to_nat index) else Z.to_nat index.

(** The vblank to wait for when the count is [seq], and the request as it is written back;
    [None] for a type that is neither. *)
Definition wait_target (w : drm_wait_vblank) (seq : Z) : option (Z * drm_wait_vblank) :=
  let flags := vw_type w .& _DRM_VBLANK_FLAGS_MASK in
  let types := vw_type w .& _DRM_VBLANK_TYPES_MASK in
  '(req, w) ← (if types =? _DRM_VBLANK_RELATIVE then
                 let req := u64 (seq + vw_sequence w) in
                 Some (req, {| w with vw_sequence := u32 req;
                                      vw_type := Z.ldiff (vw_type w) _DRM_VBLANK_RELATIVE |})
               else if types =? _DRM_VBLANK_ABSOLUTE then Some (widen_32_to_64 (vw_sequence w) seq, w)
               else None);
  if truthy (flags .& _DRM_VBLANK_NEXTONMISS) && drm_vblank_passed seq req then
    let req := u64 (seq + 1) in
    Some (req, {| w with vw_type := Z.ldiff (vw_type w) _DRM_VBLANK_NEXTONMISS; vw_sequence := u32 req |})
  else Some (req, w).

(** The same for [drm_crtc_queue_sequence_ioctl]. *)
Definition sequence_target (flags sequence seq : Z) : Z :=
  let req := if truthy (flags .& DRM_CRTC_SEQUENCE_RELATIVE) then u64 (sequence + seq) else sequence in
  if truthy (flags .& DRM_CRTC_SEQUENCE_NEXT_ON_MISS) && drm_vblank_passed seq req then u64 (seq + 1) else req.

(** ** The ioctls as threads *)

Inductive ioctl_result : Type :=
| WaitResult (ret : Z) (w : drm_wait_vblank)
| QueueResult (ret sequence : Z)
| GetResult (ret : Z) (active : bool) (sequence sequence_ns : Z).

(** Where a call stands.  [id] names the event it would queue. *)
Inductive ioctl : Type :=
(** [drm_wait_vblank_ioctl], and within it [drm_queue_vblank_event] *)
| WaitEntry (modeset : bool) (held : nat -> bool) (crtcs : list nat) (w : drm_wait_vblank) (id : Z)
| WaitQuery (p : nat) (w : drm_wait_vblank)
| WaitGet (p : nat) (w : drm_wait_vblank) (id : Z)
| WaitCount (p : nat) (w : drm_wait_vblank) (id : Z)
| WaitQueue (p : nat) (req : Z) (w : drm_wait_vblank) (id : Z)
| Waiting (p : nat) (req : Z) (w : drm_wait_vblank)
| Sleeping (p : nat) (req : Z) (w : drm_wait_vblank)
| WaitReply (p : nat) (ret : Z) (w : drm_wait_vblank)
(** [drm_crtc_queue_sequence_ioctl] *)
| SeqEntry (crtc : option nat) (flags sequence id : Z)
| SeqCount (p : nat) (flags sequence id : Z)
| SeqQueue (p : nat) (req seq now id sequence : Z)
(** [drm_crtc_get_sequence_ioctl] *)
| GetEntry (crtc : option nat)
| GetTake (p : nat)
| GetRead (p : nat) (taken : bool)
(** before [drm_vblank_put], and after *)
| Putting (p : nat) (r : ioctl_result)
| Returned (r : ioctl_result).

Inductive wakeup : Set := WakeQueue | WakeTimeout | WakeSignal.

(** What the kernel answers at a step: whether there is memory, whether the file has room
    for an event, what may end a sleep, whether the CRTC is active. *)
Record answers := mkans { an_alloc : bool; an_reserve : Z; an_wake : wakeup; an_active : bool }.

Section Ioctl.
Context {S : Type} `{!VblankDriver S}.
Implicit Types (d : vblank_dev S) (p : nat) (w : drm_wait_vblank).

Definition drm_wait_vblank_reply d p w : drm_wait_vblank :=
  let '(seq, now) := drm_vblank_count_and_time d p in
  {| w with vw_sequence := u32 seq; vw_signal := u32 (now / 1000000000);
            vw_tval_usec := now mod 1000000000 / 1000 |}.

(** The counter is on and exact. *)
Definition cached d p : bool :=
  match vd_crtcs d !! p with Some v => vb_disable_immediate v && vb_enabled v | None => false end.

Definition wait_over d p (req : Z) : bool :=
  drm_vblank_passed (drm_vblank_count d p) req || negb (pipe_enabled d p).

(** Whether caller [i] is on the wait queue. *)
Definition asleep d p (i : nat) : bool :=
  match vd_crtcs d !! p with Some v => bool_decide (i ∈ vb_queue v) | None => false end.

(** Up to the first look at the pipe. *)
Definition wait_entry d (modeset : bool) (held : nat -> bool) (crtcs : list nat) w (id : Z) : ioctl :=
  let bad ret := Returned (WaitResult ret w) in
  if (length (vd_crtcs d) =? 0)%nat then bad (- EOPNOTSUPP)
  else if truthy (vw_type w .& _DRM_VBLANK_SIGNAL) then bad (- EINVAL)
  else if truthy (Z.ldiff (vw_type w) (_DRM_VBLANK_TYPES_MASK .| _DRM_VBLANK_FLAGS_MASK .| _DRM_VBLANK_HIGH_CRTC_MASK))
  then bad (- EINVAL)
  else
    let p := wait_pipe modeset held crtcs w in
    if (length (vd_crtcs d) <=? p)%nat then bad (- EINVAL)
    else if drm_wait_vblank_is_query w && cached d p then WaitQuery p w
    else WaitGet p w id.

(** The step of caller [me] from a state: the next one, the device, and the events handed
    over; [None] while a sleeper has to sleep. *)
Definition stepped : Type := option (ioctl * vblank_dev S * list Z).

(** The critical section of [drm_queue_vblank_event]; its allocation is before. *)
Definition drm_queue_vblank_event (a : answers) d p (req : Z) w (id : Z) : stepped :=
  if negb (pipe_enabled d p) then Some (Putting p (WaitResult (- EINVAL) w), d, [])
  else if truthy (an_reserve a) then Some (Putting p (WaitResult (an_reserve a) w), d, [])
  else
    let '(seq, now) := drm_vblank_count_and_time d p in
    let reply := if drm_vblank_passed seq req then seq else req in
    Some (Returned (WaitResult 0 {| w with vw_sequence := u32 reply |}),
          queue_vblank_event d (mkev id DRM_EVENT_VBLANK p req) seq now, [id]).

Definition drm_wait_vblank_ioctl (me : nat) (a : answers) (c : ioctl) d : stepped :=
  let next c := Some (c, d, []) in
  match c with
  | WaitEntry modeset held crtcs w id => next (wait_entry d modeset held crtcs w id)
  | WaitQuery p w => next (Returned (WaitResult 0 (drm_wait_vblank_reply d p w)))
  | WaitGet p w id =>
      let '(ret, d) := drm_vblank_get d p in
      Some (if truthy ret then Returned (WaitResult ret w) else WaitCount p w id, d, [])
  | WaitCount p w id =>
      let seq := drm_vblank_count d p in
      match wait_target w seq with
      | None => next (Putting p (WaitResult (- EINVAL) w))
      | Some (req, w') =>
          if truthy (vw_type w .& _DRM_VBLANK_FLAGS_MASK .& _DRM_VBLANK_EVENT) then
            if an_alloc a then next (WaitQueue p req w' id) else next (Putting p (WaitResult (- ENOMEM) w'))
          else if negb (req =? seq) then next (Waiting p req w')
          else next (WaitReply p 0 w')
      end
  | WaitQueue p req w id => drm_queue_vblank_event a d p req w id
  | Waiting p req w =>
      if wait_over d p req then next (WaitReply p 0 w)
      else Some (Sleeping p req w, on_queue d p (fun q => {[me]} ∪ q), [])
  | Sleeping p req w =>
      let d' := on_queue d p (fun q => q ∖ {[me]}) in
      match an_wake a with
      | WakeQueue => if asleep d p me then None else next (Waiting p req w)
      | WakeTimeout => Some (WaitReply p (if wait_over d p req then 0 else - EBUSY) w, d', [])
      | WakeSignal =>
          Some (if wait_over d p req then WaitReply p 0 w else Putting p (WaitResult (- EINTR) w), d', [])
      end
  | WaitReply p ret w => next (Putting p (WaitResult ret (drm_wait_vblank_reply d p w)))
  | _ => None
  end.

Definition drm_crtc_queue_sequence_ioctl (a : answers) (c : ioctl) d : stepped :=
  let next c := Some (c, d, []) in
  match c with
  | SeqEntry crtc flags sequence id =>
      let bad ret := next (Returned (QueueResult ret sequence)) in
      if (length (vd_crtcs d) =? 0)%nat then bad (- EOPNOTSUPP)
      else match crtc with
           | None => bad (- ENOENT)
           | Some p =>
               if truthy (Z.ldiff flags (DRM_CRTC_SEQUENCE_RELATIVE .| DRM_CRTC_SEQUENCE_NEXT_ON_MISS))
               then bad (- EINVAL)
               else if negb (an_alloc a) then bad (- ENOMEM)
               else
                 let '(ret, d) := drm_vblank_get d p in
                 Some (if truthy ret then Returned (QueueResult ret sequence) else SeqCount p flags sequence id, d, [])
           end
  | SeqCount p flags sequence id =>
      let '(seq, now) := drm_vblank_count_and_time d p in
      next (SeqQueue p (sequence_target flags sequence seq) seq now id sequence)
  | SeqQueue p req seq now id sequence =>
      if negb (pipe_enabled d p) then next (Putting p (QueueResult (- EINVAL) sequence))
      else if truthy (an_reserve a) then next (Putting p (QueueResult (an_reserve a) sequence))
      else Some (Returned (QueueResult 0 (if drm_vblank_passed seq req then seq else req)),
                 queue_vblank_event d (mkev id DRM_EVENT_CRTC_SEQUENCE p req) seq now, [id])
  | _ => None
  end.

Definition drm_crtc_get_sequence_ioctl (a : answers) (c : ioctl) d : stepped :=
  let next c := Some (c, d, []) in
  match c with
  | GetEntry crtc =>
      let bad ret := next (Returned (GetResult ret false 0 0)) in
      if (length (vd_crtcs d) =? 0)%nat then bad (- EOPNOTSUPP)
      else match crtc with
           | None => bad (- ENOENT)
           | Some p => next (if cached d p then GetRead p false else GetTake p)
           end
  | GetTake p =>
      let '(ret, d) := drm_vblank_get d p in
      Some (if truthy ret then Returned (GetResult ret false 0 0) else GetRead p true, d, [])
  | GetRead p taken =>
      let '(seq, now) := drm_vblank_count_and_time d p in
      let r := GetResult 0 (an_active a) seq now in
      next (if taken then Putting p r else Returned r)
  | _ => None
  end.

Definition advance (me : nat) (a : answers) (c : ioctl) d : stepped :=
  match c with
  | WaitEntry _ _ _ _ _ | WaitQuery _ _ | WaitGet _ _ _ | WaitCount _ _ _ | WaitQueue _ _ _ _ | Waiting _ _ _
  | Sleeping _ _ _ | WaitReply _ _ _ => drm_wait_vblank_ioctl me a c d
  | SeqEntry _ _ _ _ | SeqCount _ _ _ _ | SeqQueue _ _ _ _ _ _ => drm_crtc_queue_sequence_ioctl a c d
  | GetEntry _ | GetTake _ | GetRead _ _ => drm_crtc_get_sequence_ioctl a c d
  | Putting p r => Some (Returned r, drm_vblank_put d p, [])
  | Returned r => None
  end.
End Ioctl.

(** ** Calls, interrupts and everybody else in any order *)

(** The pipe of which a call holds a reference. *)
Definition ref (c : ioctl) : option nat :=
  match c with
  | WaitCount p _ _ | WaitQueue p _ _ _ | Waiting p _ _ | Sleeping p _ _ | WaitReply p _ _
  | SeqCount p _ _ _ | SeqQueue p _ _ _ _ _ | GetRead p true | Putting p _ => Some p
  | _ => None
  end.

Definition is_entry (c : ioctl) : bool :=
  match c with WaitEntry _ _ _ _ _ | SeqEntry _ _ _ _ | GetEntry _ => true | _ => false end.

Definition holds (p : nat) (c : ioctl) : Z := if decide (ref c = Some p) then 1 else 0.
Definition held (p : nat) (l : list ioctl) : Z := foldr (fun c n => holds p c + n) 0 l.

(** The vblank system, the calls made so far, and the references that others - drivers,
    the commit code - have taken and not given back. *)
Record io_sys (S : Type) := mkio { io_vb : vb_sys S; io_calls : list ioctl; io_others : nat -> Z }.
Arguments mkio {S}. Arguments io_vb {S}. Arguments io_calls {S}. Arguments io_others {S}.

Section Calls.
Context {S : Type} `{!VblankDriver S} (env : S -> S -> Prop) (init : S -> Prop).
Implicit Types (d : vblank_dev S) (p : nat) (y : vb_sys S) (x : io_sys S).

Definition users_after (c c' : ioctl) y : nat -> Z :=
  match ref c, ref c' with
  | None, Some p => users_add y p 1
  | Some p, None => users_add y p (-1)
  | _, _ => users y
  end.

(** Where [drm_crtc_vblank_on] enables the interrupt itself it succeeds: the code only
    warns of a failure there, and has lost a reference ([on_failure_loses_reference]).
    The hook may fail everywhere else. *)
Inductive io_step x : io_sys S -> Prop :=
| io_call c :
    is_entry c = true -> io_step x (mkio (io_vb x) (io_calls x ++ [c]) (io_others x))
| io_run i a c c' d' ids :
    io_calls x !! i = Some c -> advance i a c (sys_dev (io_vb x)) = Some (c', d', ids) ->
    io_step x (mkio (mksys d' (users_after c c' (io_vb x)) (submitted (io_vb x) ++ ids))
                    (<[i := c']> (io_calls x)) (io_others x))
| io_other l y' :
    vb_step env (io_vb x) l y' ->
    (forall p, l = LPut p \/ l = LQueue p -> 0 < io_others x p) ->
    (forall p, l = LOn p -> vblank_on_fails (sys_dev (io_vb x)) p = false) ->
    io_step x (mkio y' (io_calls x) (fun p => io_others x p + (users y' p - users (io_vb x) p))).

Inductive io_reachable : io_sys S -> Prop :=
| io_initial y : vb_initial init y -> io_reachable (mkio y [] (fun _ => 0))
| io_then x x' : io_reachable x -> io_step x x' -> io_reachable x'.

(** *** A call's step is a step of the vblank system *)

Lemma holds_range p c : 0 <= holds p c <= 1.
Proof using. unfold holds. case_decide; lia. Qed.

Lemma held_app p l l' : held p (l ++ l') = held p l + held p l'.
Proof using. unfold held. induction l as [|c l IH]; cbn; [done|]. rewrite IH. lia. Qed.

Lemma held_nonneg p l : 0 <= held p l.
Proof using. induction l as [|c l IH]; cbn; [done|]. pose proof (holds_range p c). unfold held in IH. lia. Qed.

Lemma held_insert p l i c c' :
  l !! i = Some c -> held p (<[i := c']> l) = held p l - holds p c + holds p c'.
Proof using.
  revert i. induction l as [|b l IH]; intros [|i]; try done.
  - intros [= ->]. cbn. lia.
  - intros H. specialize (IH i H).
    change (holds p b + held p (<[i := c']> l) = holds p b + held p l - holds p c + holds p c'). lia.
Qed.

Lemma held_in p l i c : l !! i = Some c -> holds p c <= held p l.
Proof using.
  revert i. induction l as [|b l IH]; intros [|i]; cbn; try done.
  - intros [= ->]. pose proof (held_nonneg p l). unfold held in *. lia.
  - intros H. specialize (IH i H). pose proof (holds_range p b). unfold held in *. lia.
Qed.

Lemma get_fails d p ret d' : drm_vblank_get d p = (ret, d') -> ret = 0 \/ truthy ret = true.
Proof using. intros _. unfold truthy. destruct (Z.eqb_spec ret 0); auto. Qed.

(** A get, whose caller goes to [c1] or [c2]. *)
Lemma get_refines y p c c1 c2 ret d' :
  ref c = None -> ref c1 = Some p -> ref c2 = None -> drm_vblank_get (sys_dev y) p = (ret, d') ->
  vb_step env y (LGet p) (mksys d' (users_after c (if truthy ret then c2 else c1) y) (submitted y ++ [])).
Proof using.
  intros Hc H1 H2 Hg. rewrite app_nil_r. pose proof (step_get env y p ret d' Hg) as H.
  unfold users_after. rewrite Hc. unfold truthy. destruct (ret =? 0); cbn [negb]; by rewrite ?H1, ?H2.
Qed.

(** The events of an enabled pipe. *)
Lemma queue_refines y p c c' e seq now :
  ref c = Some p -> ref c' = None -> ev_pipe e = p -> 0 < users y p -> pipe_enabled (sys_dev y) p = true ->
  vb_step env y (LQueue p)
    (mksys (queue_vblank_event (sys_dev y) e seq now) (users_after c c' y) (submitted y ++ [ev_id e])).
Proof using.
  intros Hc Hc' <- Hu Hen. unfold users_after. rewrite Hc, Hc'. unfold pipe_enabled in Hen.
  destruct (vd_crtcs (sys_dev y) !! ev_pipe e) as [v|] eqn:Ev; [|done]. by eapply step_queue.
Qed.

Definition moves y y' : Prop :=
  y' = y \/ exists l, vb_step env y l y' /\ (forall p, l = LOn p -> vblank_on_fails (sys_dev y) p = false).

Lemma advance_refines i a c y c' d' ids :
  (forall p, ref c = Some p -> 0 < users y p) -> advance i a c (sys_dev y) = Some (c', d', ids) ->
  moves y (mksys d' (users_after c c' y) (submitted y ++ ids))
  /\ (ref c' = ref c \/ ref c = None \/ ref c' = None).
Proof using.
  intros Hu Ha.
  (* nothing happens to the device *)
  assert (Hsame : d' = sys_dev y -> ids = [] -> ref c' = ref c ->
    moves y (mksys d' (users_after c c' y) (submitted y ++ ids))
    /\ (ref c' = ref c \/ ref c = None \/ ref c' = None)).
  { intros -> -> Hr. split; [left|by left]. rewrite app_nil_r. unfold users_after. rewrite Hr.
    destruct y, (ref c); done. }
  assert (Hmove : forall l y', vb_step env y l y' -> (forall p, l <> LOn p) -> moves y y').
  { intros l y' Hl Hn. right. exists l. split; [done|]. intros p E. by destruct (Hn p). }
  (* the caller goes to sleep, or leaves the queue *)
  assert (Hwait : forall p f, ref c = Some p -> ref c' = None \/ ref c' = Some p -> ids = [] ->
    ref c' = Some p -> d' = on_queue (sys_dev y) p f ->
    (forall v, vd_crtcs (sys_dev y) !! p = Some v -> f (vb_queue v) ⊆ vb_queue v \/ vb_enabled v = true) ->
    moves y (mksys d' (users_after c c' y) (submitted y ++ ids))
    /\ (ref c' = ref c \/ ref c = None \/ ref c' = None)).
  { intros p f Hc _ -> Hc' -> Hf. split; [|left; congruence]. rewrite app_nil_r.
    unfold users_after. rewrite Hc, Hc'. by eapply Hmove; [apply step_wait|]. }
  destruct c as [modeset hl crtcs w id|p w|p w id|p w id|p req w id|p req w|p req w|p ret w|crtc flags sequence id
    |p flags sequence id|p req seq now id sequence|crtc|p|p taken|p r|r];
    cbn [advance drm_wait_vblank_ioctl drm_crtc_queue_sequence_ioctl drm_crtc_get_sequence_ioctl] in Ha;
    unfold drm_queue_vblank_event in Ha; cbv zeta in Ha.
  - injection Ha as <- <- <-. apply Hsame; try done. unfold wait_entry. by repeat case_match.
  - injection Ha as <- <- <-. by apply Hsame.
  - destruct (drm_vblank_get (sys_dev y) p) as [ret d1] eqn:Eg. injection Ha as <- <- <-.
    split; [|by right; left]. by eapply Hmove; [apply get_refines|].
  - by repeat (case_match; try done); simplify_eq; apply Hsame.
  - destruct (pipe_enabled (sys_dev y) p) eqn:Een; cbn [negb] in Ha; [|by simplify_eq; apply Hsame].
    destruct (truthy (an_reserve a)); [by simplify_eq; apply Hsame|].
    destruct (drm_vblank_count_and_time (sys_dev y) p) as [sq now]. injection Ha as <- <- <-.
    split; [|by right; right].
    by eapply Hmove; [apply (queue_refines y p _ _ (mkev id DRM_EVENT_VBLANK p req)); auto|].
  - destruct (wait_over (sys_dev y) p req) eqn:Eo; injection Ha as <- <- <-; [by apply Hsame|].
    apply (Hwait p (fun q => {[i]} ∪ q)); auto. intros v Hv. right.
    unfold wait_over, pipe_enabled in Eo. rewrite Hv in Eo. apply orb_false_iff in Eo as [_ Eo].
    by apply negb_false_iff.
  - destruct (an_wake a).
    + case_match; [done|]. simplify_eq. by apply Hsame.
    + injection Ha as <- <- <-. apply (Hwait p (fun q => q ∖ {[i]})); auto. left. set_solver.
    + destruct (wait_over (sys_dev y) p req); injection Ha as <- <- <-;
        (apply (Hwait p (fun q => q ∖ {[i]})); auto; left; set_solver).
  - injection Ha as <- <- <-. by apply Hsame.
  - destruct (_ =? 0)%nat; [by simplify_eq; apply Hsame|]. destruct crtc as [p|]; [|by simplify_eq; apply Hsame].
    destruct (truthy _); [by simplify_eq; apply Hsame|]. destruct (negb _); [by simplify_eq; apply Hsame|].
    destruct (drm_vblank_get (sys_dev y) p) as [ret d1] eqn:Eg. injection Ha as <- <- <-.
    split; [|by right; left]. by eapply Hmove; [apply get_refines|].
  - destruct (drm_vblank_count_and_time (sys_dev y) p) as [sq now]. injection Ha as <- <- <-. by apply Hsame.
  - destruct (pipe_enabled (sys_dev y) p) eqn:Een; cbn [negb] in Ha; [|by simplify_eq; apply Hsame].
    destruct (truthy (an_reserve a)); [by simplify_eq; apply Hsame|]. injection Ha as <- <- <-.
    split; [|by right; right].
    by eapply Hmove; [apply (queue_refines y p _ _ (mkev id DRM_EVENT_CRTC_SEQUENCE p req)); auto|].
  - by repeat (case_match; try done); simplify_eq; apply Hsame.
  - destruct (drm_vblank_get (sys_dev y) p) as [ret d1] eqn:Eg. injection Ha as <- <- <-.
    split; [|by right; left]. by eapply Hmove; [apply get_refines|].
  - destruct (drm_vblank_count_and_time (sys_dev y) p) as [sq now]. destruct taken; injection Ha as <- <- <-; by apply Hsame.
  - injection Ha as <- <- <-. split; [|by right; right]. rewrite app_nil_r.
    by eapply Hmove; [apply step_put, Hu|].
  - done.
Qed.

Lemma step_users y l y' p :
  vb_step env y l y' -> users y p - 1 <= users y' p
  /\ (users y' p < users y p -> l = LPut p \/ l = LQueue p).
Proof using.
  intros Hst. destruct Hst as [q ret d Hg|q Hup|q id t Hl|q|q v Hv Ht|q|q|e sq now v Hup Hv Hen|q g Hg|s He];
    cbn [users]; try (destruct (ret =? 0)); unfold users_add; try (case_decide; [subst p|]); split;
    lia || (intros; (by left) || (by right) || lia).
Qed.

Lemma io_inv x : io_reachable x ->
  vb_inv (io_vb x) /\ forall p, users (io_vb x) p = io_others x p + held p (io_calls x) /\ 0 <= io_others x p.
Proof using.
  induction 1 as [y Hy|x x' Hx [Hr Hu] Hst]; cbn.
  - split; [by eapply initial_inv|]. intros p. destruct Hy as (? & ? & ? & ? & ? & ? & _ & _ & _ & _ & Hz & _).
    by rewrite Hz.
  - destruct Hst as [c Hc|i a c c' d' ids Hi Ha|l y' Hl Ho Hon]; cbn [io_vb io_calls io_others].
    + split; [done|]. intros p. destruct (Hu p) as [-> ?]. split; [|done]. rewrite held_app. cbn.
      assert (holds p c = 0) by (unfold holds; rewrite decide_False; [done|by destruct c as [| | | | | | | | | | | | |? []| |]]).
      lia.
    + assert (Hpos : forall p, ref c = Some p -> 0 < users (io_vb x) p).
      { intros p E. destruct (Hu p) as [-> ?]. pose proof (held_in p _ _ _ Hi) as Hin. unfold holds in Hin.
        rewrite decide_True in Hin by done. lia. }
      destruct (advance_refines i a c (io_vb x) c' d' ids Hpos Ha) as [Hm Href]. split.
      * destruct Hm as [->|(l & Hl & Hon)]; [done|by eapply step_inv].
      * clear Hm. intros p. destruct (Hu p) as [E ?]. split; [|done]. rewrite (held_insert _ _ _ _ c' Hi). cbn [users].
        unfold users_after, holds, users_add. destruct (ref c) as [q|], (ref c') as [q'|]; repeat case_decide;
          simplify_eq; try lia; destruct Href as [?|[?|?]]; congruence || lia.
    + split; [by eapply step_inv|]. intros p. destruct (Hu p) as [E ?]. split; [lia|].
      destruct (step_users (io_vb x) l y' p Hl) as [H1 H2].
      destruct (Z.lt_ge_cases (users y' p) (users (io_vb x) p)) as [Hlt|]; [|lia].
      pose proof (Ho p (H2 Hlt)). lia.
Qed.
End Calls.

(** ** What a request means *)

(** How far apart two 64-bit counts are on their circle. *)
Definition circle_distance (a b : Z) : Z := Z.min (u64 (a - b)) (u64 (b - a)).

Lemma widen_low narrow near : is_u32 narrow -> widen_32_to_64 narrow near mod 2 ^ 32 = narrow.
Proof.
  unfold is_u32, widen_32_to_64, s32, u64. intros Hn. Z.to_euclidean_division_equations; lia.
Qed.

Lemma widen_closest narrow near m :
  is_u64 near -> is_u64 m -> m mod 2 ^ 32 = narrow ->
  circle_distance (widen_32_to_64 narrow near) near <= circle_distance m near.
Proof.
  unfold is_u64, circle_distance, widen_32_to_64. intros Hn Hm E.
  set (e := s32 (u64 (narrow - near))).
  assert (He : - 2 ^ 31 <= e < 2 ^ 31) by (unfold e, s32; Z.to_euclidean_division_equations; lia).
  assert (Hx : exists k, m - near = e + k * 2 ^ 32).
  { exists ((m - near - e) / 2 ^ 32). unfold e, s32, u64. rewrite <- E. Z.to_euclidean_division_equations; lia. }
  destruct Hx as [k Hk]. clearbody e. clear E.
  assert (Hd : u64 (u64 (near + e) - near) = u64 e /\ u64 (near - u64 (near + e)) = u64 (- e)).
  { unfold u64. rewrite Zminus_mod_idemp_l, Zminus_mod_idemp_r. split; f_equal; lia. }
  destruct Hd as [-> ->]. replace (near - m) with (- (m - near)) by lia. rewrite Hk. unfold u64.
  Z.to_euclidean_division_equations; lia.
Qed.

Lemma types_relative w :
  (vw_type w .& _DRM_VBLANK_TYPES_MASK =? _DRM_VBLANK_RELATIVE) = Z.testbit (vw_type w) 0
  /\ (vw_type w .& _DRM_VBLANK_TYPES_MASK =? _DRM_VBLANK_ABSOLUTE) = negb (Z.testbit (vw_type w) 0).
Proof.
  change _DRM_VBLANK_TYPES_MASK with (Z.ones 1). rewrite Z.land_ones, <- Z.bit0_mod by lia.
  by destruct (Z.testbit (vw_type w) 0).
Qed.

Lemma flags_next w :
  truthy (vw_type w .& _DRM_VBLANK_FLAGS_MASK .& _DRM_VBLANK_NEXTONMISS) = Z.testbit (vw_type w) 28.
Proof.
  rewrite <- Z.land_assoc. change (_DRM_VBLANK_FLAGS_MASK .& _DRM_VBLANK_NEXTONMISS) with (BIT 28).
  by rewrite truthy_land_BIT.
Qed.

Lemma next_not_passed seq : drm_vblank_passed seq (u64 (seq + 1)) = false.
Proof.
  unfold drm_vblank_passed, u64. rewrite Zminus_mod_idemp_r.
  replace (seq - (seq + 1)) with (-1) by lia. done.
Qed.

Lemma held_returned p l : Forall (fun c => exists r, c = Returned r) l -> held p l = 0.
Proof. induction 1 as [|c l [r ->] _ IH]; [done|exact IH]. Qed.

(** ** Theorems *)

(** C28: every type of request has a target.  A relative one is that many vblanks after the
    count; an absolute one, of 32 bits, is the count with these low bits that is nearest
    to the present one; and with NEXTONMISS a target that has passed is replaced by the
    next vblank, so that the target has never passed. *)
Theorem wait_target_exact w seq :
  is_u32 (vw_sequence w) -> is_u64 seq ->
  let base := if Z.testbit (vw_type w) 0 then u64 (seq + vw_sequence w) else widen_32_to_64 (vw_sequence w) seq in
  let next := Z.testbit (vw_type w) 28 in
  let req := if next && drm_vblank_passed seq base then u64 (seq + 1) else base in
  (exists w', wait_target w seq = Some (req, w'))
  /\ (next = true -> drm_vblank_passed seq req = false)
  /\ (Z.testbit (vw_type w) 0 = false -> base mod 2 ^ 32 = vw_sequence w
      /\ forall m, is_u64 m -> m mod 2 ^ 32 = vw_sequence w -> circle_distance base seq <= circle_distance m seq).
Proof.
  intros Hs Hq base next req. split_and!.
  - unfold wait_target. destruct (types_relative w) as [-> ->]. rewrite flags_next. fold next. unfold req, base.
    destruct (Z.testbit (vw_type w) 0); cbn [negb mbind option_bind]; case_match; by eexists.
  - intros Hn. unfold req. rewrite Hn. cbn [andb].
    destruct (drm_vblank_passed seq base) eqn:E; [apply next_not_passed|done].
  - intros Hr. unfold base. rewrite Hr. split; [by apply widen_low|]. intros m Hm E. by apply widen_closest.
Qed.

Section Protocol.
Context {S : Type} `{!VblankDriver S} (env : S -> S -> Prop) (init : S -> Prop).
Implicit Types (x : io_sys S) (p : nat).

(** C12: the references of the ioctls, in any order of calls with interrupts, modesets and
    the drivers, whether or not the driver's hook can enable the interrupt when a call
    asks for it: a CRTC's reference count is what others hold, plus one for each call
    under way that holds one and for each event that waits, plus one while the CRTC is
    off; while it is on and a call holds a reference its interrupt is enabled.  A call
    that has returned, in whatever way - refused by the hook or by the state of the CRTC,
    timed out, interrupted, out of memory, served -, holds none.  (Where
    [drm_crtc_vblank_on] itself enables the interrupt for the references held, success
    is assumed: the code loses a reference there otherwise.) *)
Theorem ioctl_references_exact x p v :
  io_reachable env init x -> vd_crtcs (sys_dev (io_vb x)) !! p = Some v ->
  let calls := held p (io_calls x) in
  let waiting := queued p (vd_events (sys_dev (io_vb x))) in
  vb_refcount v = io_others x p + calls + waiting + (if vb_inmodeset v =? 0 then 0 else 1)
  /\ 0 <= io_others x p /\ (vb_inmodeset v = 0 -> 0 < calls -> vb_enabled v = true)
  /\ (Forall (fun c => exists r, c = Returned r) (io_calls x) -> calls = 0).
Proof.
  intros Hx Hv calls waiting. destruct (io_inv env init x Hx) as [(_ & Hc & _ & _) Hu]. destruct (Hu p) as [Eu Ho].
  destruct (Hc p v Hv) as [H1 H2 H3 H4 H5 H6 H7].
  rewrite Eu in *. split_and!; [rewrite H2; unfold calls, waiting; lia|done| |].
  2: { by apply held_returned. }
  intros Hm Hp. apply H4; [done|]. unfold calls in Hp. pose proof (queued_nonneg p (vd_events (sys_dev (io_vb x)))). lia.
Qed.
End Protocol.

(** A sleeper sees its vblank. *)
Section Sleepers.
Context {S : Type} `{!VblankDriver S} (env : S -> S -> Prop) (init : S -> Prop).
Implicit Types (x : io_sys S) (d : vblank_dev S) (p : nat).

(** The sleeper is off the queue, and when it looks at its condition again it goes on
    with success. *)
Definition goes_on (i : nat) d (p : nat) (req : Z) (w : drm_wait_vblank) : Prop := forall alloc reserve active,
  let a := mkans alloc reserve WakeQueue active in
  advance i a (Sleeping p req w) d = Some (Waiting p req w, d, [])
  /\ advance i a (Waiting p req w) d = Some (WaitReply p 0 w, d, []).

Lemma over_goes_on i d p req w :
  asleep d p i = false -> wait_over d p req = true -> goes_on i d p req w.
Proof. intros Ha H alloc reserve active. cbn. by rewrite H, Ha. Qed.

(** What putting references leaves of a pipe. *)
Definition pipe_sat (P : drm_vblank_crtc -> Prop) d p : Prop :=
  forall v, vd_crtcs d !! p = Some v -> P v.

Lemma on_pipe_sat (P Q : drm_vblank_crtc -> Prop) d p f :
  (forall v s, Q v -> P (fst (f v s))) -> pipe_sat Q d p -> pipe_sat P (on_pipe d p f) p.
Proof.
  intros Hf Hd v. rewrite on_pipe_lookup, decide_True by done.
  destruct (vd_crtcs d !! p) as [w|] eqn:E; [|done]. intros [= <-]. by apply Hf, Hd.
Qed.

(** Such as that nobody sleeps, or that moreover the interrupt is off. *)
Definition empty_queue v : Prop := vb_queue v = ∅.
Definition closed v : Prop := vb_enabled v = false /\ vb_queue v = ∅.

Lemma put_closed prec mx p v s :
  (empty_queue v -> empty_queue (fst (vblank_put prec mx v s p))) /\ (closed v -> closed (fst (vblank_put prec mx v s p))).
Proof.
  pose proof (vblank_put_erase prec mx v s p) as E. unfold closed, empty_queue.
  pose proof (f_equal vb_enabled E) as E1. pose proof (f_equal vb_queue E) as E2. clear E.
  change (vb_enabled (erase ?x)) with (vb_enabled x) in E1. change (vb_queue (erase ?x)) with (vb_queue x) in E2.
  rewrite E1, E2. cbv zeta. split; [intros H|intros [Hen H]]; by repeat case_if.
Qed.

Lemma loop_sat (P : drm_vblank_crtc -> Prop) p due seq now l :
  (forall prec mx v s, P v -> P (fst (vblank_put prec mx v s p))) ->
  forall kept d, pipe_sat P d p -> pipe_sat P (events_loop d p due seq now kept l) p.
Proof.
  intros Hput. induction l as [|e l IH]; intros kept d H; cbn [events_loop]; [done|]. case_if; [by apply IH|].
  apply IH. apply (on_pipe_sat P P {| d with vd_events := kept ++ l |}); [|exact H]. intros v s. apply Hput.
Qed.

Lemma off_closed d p : pipe_sat closed (drm_crtc_vblank_off d p) p.
Proof.
  unfold drm_crtc_vblank_off. destruct (Nat.leb_spec (length (vd_crtcs d)) p) as [Hl|Hl].
  { intros v. by rewrite lookup_ge_None_2. }
  destruct (drm_vblank_count_and_time _ p) as [sq now].
  apply (on_pipe_sat closed closed); [done|]. apply loop_sat; [intros; by apply (proj2 (put_closed _ _ _ _ _))|].
  apply (on_pipe_sat closed (fun _ => True)); [|done]. intros v s _.
  pose proof (disable_and_save_erase (vd_precision d) (vd_max_vblank_count d) v s p) as H.
  destruct (drm_vblank_disable_and_save _ _ _ _ _) as [v' s']. apply (f_equal vb_enabled) in H. cbn in H |- *.
  unfold block_get. by case_if.
Qed.

(** The interrupt of an enabled pipe wakes everybody. *)
Lemma interrupt_wakes d p :
  pipe_enabled d p = true -> pipe_sat empty_queue (snd (drm_handle_vblank d p)) p.
Proof.
  intros Hen. unfold drm_handle_vblank. unfold pipe_enabled in Hen.
  destruct (vd_crtcs d !! p) as [v|] eqn:Ev; [|done]. rewrite Hen. cbn [negb snd].
  set (d1 := on_pipe d p _).
  assert (H1 : pipe_sat empty_queue d1 p).
  { apply (on_pipe_sat empty_queue (fun _ => True)); [|done]. intros w s _.
    by destruct (drm_update_vblank_count _ _ _ _ _ _). }
  unfold drm_handle_vblank_events. destruct (drm_vblank_count_and_time d1 p) as [sq now].
  set (d2 := events_loop _ _ _ _ _ _ _).
  assert (H2 : pipe_sat empty_queue d2 p) by (apply loop_sat; [intros; by apply (proj1 (put_closed _ _ _ _ _))|done]).
  case_if; [|done]. apply (on_pipe_sat empty_queue empty_queue); [|done]. intros w s Hw. unfold empty_queue.
  pose proof (f_equal vb_queue (disable_fn_erase (vd_precision d2) (vd_max_vblank_count d2) w s p)) as E.
  change (vb_queue (erase ?x)) with (vb_queue x) in E. rewrite E. by case_if.
Qed.

Lemma sat_awake d p i : pipe_sat empty_queue d p -> asleep d p i = false.
Proof.
  unfold asleep, empty_queue. intros H. destruct (vd_crtcs d !! p) as [v|] eqn:E; [|done].
  apply bool_decide_eq_false. rewrite (H v E). set_solver.
Qed.

(** A call that holds a reference of a pipe that has been switched off is not on the
    queue: nobody is. *)
Lemma off_awake x p i j c :
  io_reachable env init x -> io_calls x !! i = Some c -> ref c = Some p ->
  pipe_enabled (sys_dev (io_vb x)) p = false -> asleep (sys_dev (io_vb x)) p j = false.
Proof.
  intros Hx Hi Hr Hen. destruct (io_inv env init x Hx) as [(_ & Hc & _ & _) Hu]. destruct (Hu p) as [Eu Ho].
  apply sat_awake. intros v Hv. destruct (Hc p v Hv) as [H1 H2 H3 H4 H5 H6 H7]. apply H7. intros Hm.
  unfold pipe_enabled in Hen. rewrite Hv in Hen. rewrite H4 in Hen; [done|done|].
  pose proof (held_in p _ _ _ Hi) as Hh. unfold holds in Hh. rewrite decide_True in Hh by done.
  pose proof (queued_nonneg p (vd_events (sys_dev (io_vb x)))). lia.
Qed.

Context (k : Z) (frames : S -> nat -> Z) `{!VblankCounter S k frames} (k_range : 0 < k <= 32).

End Sleepers.

(** ** A call on the display of DrmVblankHw *)

Definition demo_ok : answers := mkans true 0 WakeQueue true.

(** A step of call [i]. *)
Definition io_advance {S} `{!VblankDriver S} (x : io_sys S) (i : nat) (a : answers) : io_sys S :=
  match io_calls x !! i with
  | None => x
  | Some c => match advance i a c (sys_dev (io_vb x)) with
              | None => x
              | Some (c', d', ids) =>
                  mkio (mksys d' (users_after c c' (io_vb x)) (submitted (io_vb x) ++ ids))
                       (<[i := c']> (io_calls x)) (io_others x)
              end
  end.

Lemma io_advance_reachable {S} `{!VblankDriver S} env init (x : io_sys S) i a :
  io_reachable env init x -> io_reachable env init (io_advance x i a).
Proof.
  intros Hx. unfold io_advance. destruct (io_calls x !! i) as [c|] eqn:Ei; [|done].
  destruct (advance i a c (sys_dev (io_vb x))) as [[[c' d'] ids]|] eqn:Ea; [|done].
  eapply io_then; [exact Hx|]. by eapply io_run.
Qed.

(** The CRTC is switched on; one call waits for the next vblank, another asks for an event
    at the vblank after the one it has read; the vblank comes before it has queued it. *)
Definition io_vb_to (x : io_sys demo_hw) (y : vb_sys demo_hw) : io_sys demo_hw :=
  mkio y (io_calls x) (fun p => io_others x p + (users y p - users (io_vb x) p)).
Definition demo_io2 : io_sys demo_hw := io_vb_to (io_vb_to (mkio demo_y0 [] (fun _ => 0)) demo_y1) demo_y2.
Definition demo_io3 : io_sys demo_hw :=
  mkio (io_vb demo_io2) (([] ++ [WaitEntry true (fun _ => true) [0%nat] (mkvw 1 1 0 0) 5]) ++ [SeqEntry (Some 0%nat) 1 1 6])
       (io_others demo_io2).
Definition demo_io4 : io_sys demo_hw :=
  fold_left (fun x i => io_advance x i demo_ok) [0; 1; 0; 0; 0; 1]%nat demo_io3.
Definition demo_io5 : io_sys demo_hw :=
  io_vb_to demo_io4 (mksys {| (sys_dev (io_vb demo_io4)) with vd_drv := mkhw (2 ^ 24) {[0%nat]} 20 |}
                           (users (io_vb demo_io4)) (submitted (io_vb demo_io4))).

Lemma demo_io_reachable : io_reachable demo_env demo_init demo_io5.
Proof.
  assert (H2 : io_reachable demo_env demo_init demo_io2).
  { assert (H0 : io_reachable demo_env demo_init (mkio demo_y0 [] (fun _ => 0))).
    { apply io_initial. by exists demo_dev0, 1%nat, demo_mode, true, (fun _ => (0, 0)), (snd (drm_vblank_init demo_dev0 1 demo_mode true (fun _ => (0, 0)))). }
    assert (H1 : io_reachable demo_env demo_init (io_vb_to (mkio demo_y0 [] (fun _ => 0)) demo_y1)).
    { eapply io_then; [exact H0|]. eapply io_other; [apply step_env; by vm_compute|by intros p [|]|done]. }
    eapply io_then; [exact H1|]. eapply io_other; [apply (step_on demo_env demo_y1 0)|by intros p [|]|intros p [= <-]; by vm_compute]. }
  assert (H3 : io_reachable demo_env demo_init demo_io3).
  { exact (io_then _ _ _ _ (io_then _ _ _ _ H2
      (io_call demo_env demo_io2 (WaitEntry true (fun _ => true) [0%nat] (mkvw 1 1 0 0) 5) eq_refl))
      (io_call demo_env _ (SeqEntry (Some 0%nat) 1 1 6) eq_refl)). }
  assert (H4 : io_reachable demo_env demo_init demo_io4) by (repeat apply io_advance_reachable; exact H3).
  eapply io_then; [exact H4|]. eapply io_other; [apply step_env; by vm_compute|by intros p [|]|done].
Qed.

Example demo_calls :
  (fun c => ref c) <$> io_calls demo_io5 = [Some 0%nat; Some 0%nat]
  /\ io_calls demo_io5 !! 0%nat = Some (Sleeping 0 2 (mkvw 0 2 0 0)).
Proof. vm_compute. split; reflexivity. Qed.

(** The vblank the second call asks for comes between its look at the counter and the
    queueing: the event is queued although it is due, and waits for one more vblank. *)
Example demo_late_event :
  let x := io_advance (io_vb_to demo_io5 (mksys (snd (drm_handle_vblank (sys_dev (io_vb demo_io5)) 0))
             (users (io_vb demo_io5)) (submitted (io_vb demo_io5)))) 1 demo_ok in
  vd_events (sys_dev (io_vb x)) = [mkev 6 DRM_EVENT_CRTC_SEQUENCE 0 2]
  /\ drm_vblank_passed (drm_vblank_count (sys_dev (io_vb x)) 0) 2 = true.
Proof. vm_compute. split; reflexivity. Qed.

Definition demo_io_pipe : drm_vblank_crtc :=
  default (vblank_crtc0 demo_mode) (vd_crtcs (sys_dev (io_vb demo_io5)) !! 0%nat).

Lemma demo_io_pipe_ok : vd_crtcs (sys_dev (io_vb demo_io5)) !! 0%nat = Some demo_io_pipe.
Proof. by vm_compute. Qed.

(** The same display with a hook that cannot enable the interrupt.  The CRTC is switched
    on, which needs no interrupt, and a call waits for a vblank: it is refused. *)
Definition refusing_driver : VblankDriver demo_hw := {|
  hook_get_vblank_counter := Some (fun s _ => (hw_frames s mod 2 ^ 24, s));
  hook_get_vblank_timestamp := None;
  hook_enable_vblank := Some (fun s p => (- EBUSY, s));
  hook_disable_vblank := Some (fun s p => s);
  ktime_get s := (hw_now s, s)
|}.

Definition refused_y0 (offdelay : Z) : vb_sys demo_hw :=
  let d := snd (drm_vblank_init {| demo_dev0 with vd_offdelay := offdelay |} 1 demo_mode true (fun _ => (0, 0))) in
  mksys (fold_left drm_crtc_vblank_reset (seq 0 1) d) (fun _ => 0) [].
Definition refused_y1 (offdelay : Z) : vb_sys demo_hw :=
  mksys (@drm_crtc_vblank_on _ refusing_driver (sys_dev (refused_y0 offdelay)) 0) (fun _ => 0) [].
Definition refused_call : drm_wait_vblank := mkvw 1 1 0 0.
Definition refused_io : io_sys demo_hw :=
  fold_left (fun x i => @io_advance _ refusing_driver x i demo_ok) [0; 0]%nat
    (mkio (io_vb (io_vb_to (mkio (refused_y0 5000) [] (fun _ => 0)) (refused_y1 5000)))
          ([] ++ [WaitEntry true (fun _ => true) [0%nat] refused_call 5])
          (io_others (io_vb_to (mkio (refused_y0 5000) [] (fun _ => 0)) (refused_y1 5000)))).

Lemma refused_reachable : @io_reachable _ refusing_driver demo_env demo_init refused_io.
Proof.
  assert (H0 : @io_reachable _ refusing_driver demo_env demo_init (mkio (refused_y0 5000) [] (fun _ => 0))).
  { apply io_initial. exists demo_dev0, 1%nat, demo_mode, true, (fun _ => (0, 0)),
      (snd (drm_vblank_init demo_dev0 1 demo_mode true (fun _ => (0, 0)))). by split_and!. }
  assert (H1 : @io_reachable _ refusing_driver demo_env demo_init
                 (io_vb_to (mkio (refused_y0 5000) [] (fun _ => 0)) (refused_y1 5000))).
  { eapply io_then; [exact H0|]. eapply io_other;
      [exact (@step_on _ refusing_driver demo_env (refused_y0 5000) 0)|by intros p [|]|intros p [= <-]; by vm_compute]. }
  do 2 apply io_advance_reachable.
  exact (io_then _ _ _ _ H1 (io_call demo_env _ (WaitEntry true (fun _ => true) [0%nat] refused_call 5) eq_refl)).
Qed.

(** With a delay of 0 switching the CRTC on has to enable the interrupt; it fails, and the
    reference count is below 0. *)
Example on_failure_loses_reference :
  @vblank_on_fails _ refusing_driver (sys_dev (refused_y0 0)) 0 = true
  /\ vb_refcount <$> vd_crtcs (sys_dev (refused_y1 0)) !! 0%nat = Some (-1).
Proof. vm_compute. split; reflexivity. Qed.

Definition refused_pipe : drm_vblank_crtc :=
  default (vblank_crtc0 demo_mode) (vd_crtcs (sys_dev (io_vb refused_io)) !! 0%nat).

Lemma ioctl_references_exact_witness :
  io_reachable demo_env demo_init demo_io5 /\ vb_refcount demo_io_pipe = 2 /\ vb_enabled demo_io_pipe = true
  /\ io_calls refused_io = [Returned (WaitResult (- EBUSY) refused_call)] /\ vb_refcount refused_pipe = 0.
Proof.
  destruct (ioctl_references_exact demo_env demo_init demo_io5 0 demo_io_pipe demo_io_reachable demo_io_pipe_ok)
    as (R & _ & E & _).
  split; [exact demo_io_reachable|]. split; [rewrite R; by vm_compute|]. split; [apply E; by vm_compute|].
  split; [by vm_compute|].
  destruct (@ioctl_references_exact _ refusing_driver demo_env demo_init refused_io 0 refused_pipe
    refused_reachable ltac:(by vm_compute)) as (R' & _ & _ & Z'). rewrite R', Z'; [by vm_compute|].
  apply Forall_singleton. by eexists.
Defined.


Lemma wait_target_exact_witness :
  let w := mkvw (BIT 28) 3 0 0 in
  is_u32 (vw_sequence w) /\ is_u64 (2 ^ 32 + 5)
  /\ exists w', wait_target w (2 ^ 32 + 5) = Some (2 ^ 32 + 6, w').
Proof.
  intros w. assert (H1 : is_u32 (vw_sequence w)) by (split; by vm_compute).
  assert (H2 : is_u64 (2 ^ 32 + 5)) by (split; by vm_compute).
  split; [exact H1|]. split; [exact H2|]. exact (proj1 (wait_target_exact w (2 ^ 32 + 5) H1 H2)).
Defined.
