(* ===== verification/DrmCommitSync.v ===== *)
(** * DrmCommitSync: ordering of atomic commits
      (src/drm/drm_atomic_helper.c, drm_crtc_commit_wait of drm_atomic.c)

    Any number of commits run at the same time: each is set up and swapped in
    under the modeset locks of what it touches, and its tail - waiting for the
    commits before it, programming the hardware, signalling, cleaning up - may
    run in a worker.  What keeps them apart are the three completions of
    [struct drm_crtc_commit] and the list of commits of each CRTC.  Steps are as
    small as the code's: one completion, one critical section of [commit_lock].
    Whoever renders into a framebuffer signals its fences on its own: the wait of a
    commit for them is a step that has to be enabled.
    Reference counts of commits, asynchronous plane updates and a driver's
    [atomic_commit_setup] hook are not modelled. *)

From S2P Require Export Prelude.

Definition ERESTARTSYS : Z := 512.

(** ** What a commit touches *)

Inductive kms_object : Set := CrtcObj (c : nat) | ConnObj (n : nat) | PlaneObj (p : nat).

#[export] Instance kms_object_eq_dec : EqDecision kms_object.
Proof. solve_decision. Defined.

(** A CRTC of the new state: [active] before and after, and whether user space
    asked for an event. *)
Record crtc_update := mkcu {
  cu_crtc : nat; cu_old_active : bool; cu_new_active : bool; cu_event : bool
}.

(** A connector or a plane, with the CRTC of its old and of its new state. *)
Record link_update := mklu { lu_id : nat; lu_old_crtc : option nat; lu_new_crtc : option nat }.

Record drm_atomic_commit := mkac {
  ac_crtcs : list crtc_update;
  ac_connectors : list link_update;
  ac_planes : list link_update;
  legacy_cursor_update : bool
}.

(** A [struct drm_crtc_commit] is known by the commit that allocated it and its
    CRTC, none for the fake one. *)
Definition commit_id : Set := nat * option nat.

(** [crtc_or_fake_commit] for [new->crtc ?: old->crtc]. *)
Definition crtc_or_fake_commit (j : nat) (l : link_update) : commit_id :=
  (j, lu_new_crtc l ∪ lu_old_crtc l).

Definition uses_fake (ac : drm_atomic_commit) : bool :=
  existsb (fun l => bool_decide (lu_new_crtc l ∪ lu_old_crtc l = None))
    (ac_connectors ac ++ ac_planes ac).

(** The commits that a state allocates. *)
Definition own_commits (j : nat) (ac : drm_atomic_commit) : list commit_id :=
  ((fun u => (j, Some (cu_crtc u))) <$> ac_crtcs ac) ++ (if uses_fake ac then [(j, None)] else []).

(** [new_*_state->commit] of an object of the state. *)
Definition new_commit (j : nat) (ac : drm_atomic_commit) (o : kms_object) : option commit_id :=
  match o with
  | CrtcObj c => if bool_decide (c ∈ cu_crtc <$> ac_crtcs ac) then Some (j, Some c) else None
  | ConnObj n => crtc_or_fake_commit j <$> find (fun l => Nat.eqb (lu_id l) n) (ac_connectors ac)
  | PlaneObj p => crtc_or_fake_commit j <$> find (fun l => Nat.eqb (lu_id l) p) (ac_planes ac)
  end.

Definition touches (ac : drm_atomic_commit) (o : kms_object) : Prop := is_Some (new_commit 0 ac o).

Definition objects (ac : drm_atomic_commit) : list kms_object :=
  ((fun u => CrtcObj (cu_crtc u)) <$> ac_crtcs ac)
  ++ ((fun l => ConnObj (lu_id l)) <$> ac_connectors ac)
  ++ ((fun l => PlaneObj (lu_id l)) <$> ac_planes ac).

(** A state holds an object once, and with a connector or plane the CRTCs it
    moves between (the atomic core adds them). *)
Record ac_wf (ac : drm_atomic_commit) : Prop := {
  wf_crtcs : NoDup (cu_crtc <$> ac_crtcs ac);
  wf_links l c : l ∈ ac_connectors ac ++ ac_planes ac ->
    (lu_old_crtc l = Some c \/ lu_new_crtc l = Some c) -> c ∈ cu_crtc <$> ac_crtcs ac
}.

(** Whether an event is attached to the commit of a CRTC. *)
Definition sends_event (ac : drm_atomic_commit) (u : crtc_update) : bool :=
  (cu_old_active u || cu_new_active u) && negb (legacy_cursor_update ac).

Definition event_commits (j : nat) (ac : drm_atomic_commit) : list commit_id :=
  (fun u => (j, Some (cu_crtc u))) <$> filter (fun u => sends_event ac u = true) (ac_crtcs ac).

(** ** The phases of a commit *)

(** What is left to do of [drm_atomic_helper_setup_commit] and of the preparation
    in [drm_atomic_helper_commit]. *)
Inductive setup_op : Set :=
| AllocCommit (u : crtc_update)
| StallChecks (c : nat)
(** the second half of [stall_checks], once it has found a commit to wait for *)
| StallWait (c : nat) (k : commit_id)
| SetupEvent (u : crtc_update)
(** a connector or plane; whether the fake commit is allocated here *)
| TrackObject (o : kms_object) (alloc : bool)
| PreparePlanes
| WaitForFences.

Inductive done_op : Set := CompleteHw (k : commit_id) | CompleteFlip (k : commit_id).
Inductive clean_op : Set := CompleteCleanup (k : commit_id) | Unlink (c : nat) (k : commit_id).

Inductive phase : Set :=
| Setup (todo : list setup_op)
(** the stalls of [drm_atomic_helper_swap_state] left *)
| Swap (todo : list commit_id)
(** the tail's own [drm_atomic_helper_wait_for_fences] *)
| Fences
(** the waits of [drm_atomic_helper_wait_for_dependencies] left; [true] once
    [hw_done] has been waited for *)
| Deps (todo : list (commit_id * bool))
(** between the first and the last access to the hardware *)
| Hardware
| HwDone (todo : list done_op)
| Cleanup (todo : list clean_op)
| Finished
| Failed (err : Z).

Fixpoint track_objects (fake : bool) (l : list (kms_object * link_update)) : list setup_op :=
  match l with
  | [] => []
  | (o, u) :: l =>
      let needs := bool_decide (lu_new_crtc u ∪ lu_old_crtc u = None) in
      TrackObject o (needs && negb fake) :: track_objects (fake || needs) l
  end.

Definition drm_atomic_helper_setup_commit (ac : drm_atomic_commit) : list setup_op :=
  (ac_crtcs ac ≫= fun u => [AllocCommit u; StallChecks (cu_crtc u); SetupEvent u])
  ++ track_objects false (((fun l => (ConnObj (lu_id l), l)) <$> ac_connectors ac)
                          ++ ((fun l => (PlaneObj (lu_id l), l)) <$> ac_planes ac)).

Definition drm_atomic_helper_commit_hw_done (j : nat) (ac : drm_atomic_commit) : list done_op :=
  ((fun u => CompleteHw (j, Some (cu_crtc u))) <$> ac_crtcs ac)
  ++ (if uses_fake ac then [CompleteHw (j, None); CompleteFlip (j, None)] else []).

Definition drm_atomic_helper_commit_cleanup_done (j : nat) (ac : drm_atomic_commit) : list clean_op :=
  (ac_crtcs ac ≫= fun u => [CompleteCleanup (j, Some (cu_crtc u));
                            Unlink (cu_crtc u) (j, Some (cu_crtc u))])
  ++ (if uses_fake ac then [CompleteCleanup (j, None)] else []).

(** ** The state *)

(** [job_old] is the commit of each object's old state, [job_locked] tells whether
    the caller still holds the modeset locks, [job_timeout] whether a wait gave
    up. *)
Record commit_job := mkjob {
  job_state : drm_atomic_commit;
  job_nonblock : bool;
  job_old : kms_object -> option commit_id;
  job_phase : phase;
  job_locked : bool;
  job_timeout : bool
}.

(** [history] lists the commits of the states an object has had, the current one
    first; a completion is the set of the commits for which it is complete;
    [armed] are the commits whose event the driver has and has not sent;
    [swapped] are the commits in the order they were swapped in; [signalled] are
    the commits whose planes' fences have all signalled. *)
Record commit_sys := mkcs {
  jobs : gmap nat commit_job;
  history : kms_object -> list commit_id;
  commit_list : nat -> list commit_id;
  flip_done : gset commit_id;
  hw_done : gset commit_id;
  cleanup_done : gset commit_id;
  armed : gset commit_id;
  swapped : list nat;
  signalled : gset nat
}.

(** [obj->state->commit]. *)
Definition current (y : commit_sys) (o : kms_object) : option commit_id := head (history y o).

Definition old_commits (jb : commit_job) : list commit_id :=
  omap (job_old jb) (objects (job_state jb)).

Definition set_job (y : commit_sys) (j : nat) (jb : commit_job) : commit_sys :=
  {| y with jobs := <[j := jb]> (jobs y) |}.

Definition set_phase (y : commit_sys) (j : nat) (jb : commit_job) (p : phase) : commit_sys :=
  set_job y j {| jb with job_phase := p |}.

(** How a blocking call ends: as it should, by its timeout, with an error. *)
Inductive outcome : Set := Proceed | TimesOut | Error (err : Z).

(** The first half of [stall_checks]. *)
Definition stall_checks (y : commit_sys) (c : nat) (nonblock : bool) : Z + option commit_id :=
  match commit_list y c with
  | [] => inr None
  | k :: l => if negb (bool_decide (k ∈ flip_done y)) && nonblock then inl (- EBUSY) else inr (head l)
  end.

(** A nonblocking commit may not overtake the one a connector or plane waits for. *)
Definition object_busy (y : commit_sys) (jb : commit_job) (o : kms_object) : bool :=
  match job_old jb o with
  | Some k => job_nonblock jb && negb (bool_decide (k ∈ flip_done y))
  | None => false
  end.

Definition setup_step (y : commit_sys) (j : nat) (jb : commit_job) (op : setup_op)
    (todo : list setup_op) (r : outcome) : option commit_sys :=
  let go y := Some (set_phase y j jb (Setup todo)) in
  let fail err := Some (set_phase y j jb (Failed err)) in
  let ac := job_state jb in
  match op, r with
  | AllocCommit _, Proceed => go y
  | AllocCommit _, Error err => if err =? - ENOMEM then fail err else None
  | StallChecks c, Proceed =>
      match stall_checks y c (job_nonblock jb) with
      | inl err => fail err
      | inr None => go y
      | inr (Some k) => Some (set_phase y j jb (Setup (StallWait c k :: todo)))
      end
  | StallWait _ k, Proceed => if bool_decide (k ∈ cleanup_done y) then go y else None
  | StallWait _ _, TimesOut => Some (set_job y j {| jb with job_phase := Setup todo; job_timeout := true |})
  | StallWait _ _, Error err => if err =? - ERESTARTSYS then fail err else None
  | SetupEvent u, Proceed =>
      if sends_event ac u then go y
      else go {| y with flip_done := {[(j, Some (cu_crtc u))]} ∪ flip_done y |}
  | SetupEvent u, Error err =>
      if (err =? - ENOMEM) && sends_event ac u && negb (cu_event u) then fail err else None
  | TrackObject o _, Proceed => if object_busy y jb o then fail (- EBUSY) else go y
  | TrackObject o alloc, Error err =>
      if (err =? - ENOMEM) && alloc && negb (object_busy y jb o) then fail err else None
  | PreparePlanes, Proceed => go y
  | PreparePlanes, Error err => if err <? 0 then fail err else None
  | WaitForFences, Proceed => if bool_decide (j ∈ signalled y) then go y else None
  | WaitForFences, Error err => if err <? 0 then fail err else None
  | _, _ => None
  end.

Definition drm_atomic_helper_wait_for_dependencies (jb : commit_job) : list (commit_id * bool) :=
  (fun k => (k, false)) <$> old_commits jb.

(** The part of [drm_atomic_helper_swap_state] after its stalls. *)
Definition drm_atomic_helper_swap_state (y : commit_sys) (j : nat) (jb : commit_job) : commit_sys :=
  let ac := job_state jb in
  let y := {| y with
    history := fun o => match new_commit j ac o with
                        | Some k => k :: history y o
                        | None => history y o
                        end;
    commit_list := fun c => match new_commit j ac (CrtcObj c) with
                            | Some k => k :: commit_list y c
                            | None => commit_list y c
                            end;
    swapped := swapped y ++ [j] |} in
  set_phase y j jb Fences.

Definition timed_out (r : outcome) : bool := match r with TimesOut => true | _ => false end.

(** The waits for [hw_done] and then [flip_done]; what is left of them. *)
Definition drm_crtc_commit_wait (y : commit_sys) (w : commit_id * bool) (r : outcome)
  : option (list (commit_id * bool)) :=
  let '(k, hw_waited) := w in
  match r with
  | Proceed =>
      if negb hw_waited then if bool_decide (k ∈ hw_done y) then Some [(k, true)] else None
      else if bool_decide (k ∈ flip_done y) then Some [] else None
  | TimesOut => Some []
  | Error _ => None
  end.

(** One step of commit [j].  The order of the phases is that of
    [drm_atomic_helper_commit] and [commit_tail]. *)
Definition job_step (y : commit_sys) (j : nat) (r : outcome) : option commit_sys :=
  match jobs y !! j with
  | None => None
  | Some jb =>
      let ac := job_state jb in
      let go := set_phase y j jb in
      match job_phase jb, r with
      | Setup (op :: todo), _ => setup_step y j jb op todo r
      | Setup [], Proceed => Some (go (Swap (old_commits jb)))
      | Swap (k :: todo), Proceed => if bool_decide (k ∈ hw_done y) then Some (go (Swap todo)) else None
      | Swap (_ :: _), Error err => if err =? - ERESTARTSYS then Some (go (Failed err)) else None
      | Swap [], Proceed => Some (drm_atomic_helper_swap_state y j jb)
      | Fences, Proceed =>
          if bool_decide (j ∈ signalled y)
          then Some (go (Deps (drm_atomic_helper_wait_for_dependencies jb))) else None
      | Deps (w :: todo), _ =>
          match drm_crtc_commit_wait y w r with
          | Some rest =>
              Some (set_job y j {| jb with job_phase := Deps (rest ++ todo);
                                           job_timeout := timed_out r || job_timeout jb |})
          | None => None
          end
      | Deps [], Proceed =>
          let y := {| y with armed := list_to_set (event_commits j ac) ∪ armed y |} in
          Some (set_phase y j jb Hardware)
      | Hardware, Proceed => Some (go (HwDone (drm_atomic_helper_commit_hw_done j ac)))
      | HwDone (CompleteHw k :: todo), Proceed =>
          Some (set_phase {| y with hw_done := {[k]} ∪ hw_done y |} j jb (HwDone todo))
      | HwDone (CompleteFlip k :: todo), Proceed =>
          Some (set_phase {| y with flip_done := {[k]} ∪ flip_done y |} j jb (HwDone todo))
      | HwDone [], Proceed => Some (go (Cleanup (drm_atomic_helper_commit_cleanup_done j ac)))
      | Cleanup (CompleteCleanup k :: todo), Proceed =>
          Some (set_phase {| y with cleanup_done := {[k]} ∪ cleanup_done y |} j jb (Cleanup todo))
      | Cleanup (Unlink c k :: todo), Proceed =>
          let y := {| y with commit_list := fun c' =>
                        if bool_decide (c' = c) then filter (fun k' => k' <> k) (commit_list y c')
                        else commit_list y c' |} in
          Some (set_phase y j jb (Cleanup todo))
      | Cleanup [], Proceed => Some (go Finished)
      | _, _ => None
      end
  end.

(** [drm_atomic_helper_commit] gets as far as the setup, with every modeset lock
    taken. *)
Definition drm_atomic_helper_commit (y : commit_sys) (j : nat) (ac : drm_atomic_commit)
    (nonblock : bool) : commit_sys :=
  set_job y j (mkjob ac nonblock (current y)
    (Setup (drm_atomic_helper_setup_commit ac
            ++ PreparePlanes :: (if nonblock then [] else [WaitForFences]))) true false).

(** The caller drops its locks: after queueing the work of a nonblocking commit, or
    at the end. *)
Definition may_unlock (jb : commit_job) : bool :=
  match job_phase jb with
  | Setup _ | Swap _ => false
  | Finished | Failed _ => true
  | _ => job_nonblock jb
  end.

(** ** Runs *)

Inductive commit_label : Set :=
| LStart (j : nat) | LStep (j : nat) (r : outcome) | LUnlock (j : nat) | LEventSent (k : commit_id)
| LFences (j : nat).

Inductive commit_step (y : commit_sys) : commit_label -> commit_sys -> Prop :=
| step_start j ac nonblock :
    jobs y !! j = None -> ac_wf ac ->
    (forall i jb o, jobs y !! i = Some jb -> job_locked jb = true ->
       touches ac o -> ~ touches (job_state jb) o) ->
    commit_step y (LStart j) (drm_atomic_helper_commit y j ac nonblock)
| step_job j r y' : job_step y j r = Some y' -> commit_step y (LStep j r) y'
| step_unlock j jb :
    jobs y !! j = Some jb -> job_locked jb = true -> may_unlock jb = true ->
    commit_step y (LUnlock j) (set_job y j {| jb with job_locked := false |})
(** the driver sends the event of a commit: its completion is the flip's *)
| step_event k :
    k ∈ armed y ->
    commit_step y (LEventSent k)
      {| y with flip_done := {[k]} ∪ flip_done y; armed := armed y ∖ {[k]} |}
(** whoever renders into the new framebuffers of a commit is done *)
| step_fences j :
    j ∈ dom (jobs y) -> j ∉ signalled y ->
    commit_step y (LFences j) {| y with signalled := {[j]} ∪ signalled y |}.

Definition commit_sys0 : commit_sys :=
  mkcs ∅ (fun _ => []) (fun _ => []) ∅ ∅ ∅ ∅ [] ∅.

Inductive commit_reachable : commit_sys -> Prop :=
| reach_init : commit_reachable commit_sys0
| reach_next y l y' : commit_reachable y -> commit_step y l y' -> commit_reachable y'.

(** ** The invariant *)

Definition has_swapped (p : phase) : bool :=
  match p with Setup _ | Swap _ | Failed _ => false | _ => true end.

Definition no_timeouts (y : commit_sys) : Prop :=
  forall j jb, jobs y !! j = Some jb -> job_timeout jb = false.

Section JobInvariant.
Context (y : commit_sys) (j : nat) (jb : commit_job).
Let ac := job_state jb.

(** Before the swap: the locks are held, so the old states are the current ones. *)
Definition still_current : Prop :=
  job_locked jb = true
  /\ (forall o, touches ac o -> job_old jb o = current y o)
  /\ forall k, k.1 = j -> k ∉ hw_done y.

Definition silent_flipped (except : crtc_update -> Prop) : Prop :=
  forall u, u ∈ ac_crtcs ac -> sends_event ac u = false ->
    except u \/ (j, Some (cu_crtc u)) ∈ flip_done y.

Definition caught_up (except : nat -> commit_id -> Prop) : Prop :=
  no_timeouts y -> forall c, touches ac (CrtcObj c) ->
    forall x, x ∈ drop 1 (commit_list y c) -> except c x \/ x ∈ cleanup_done y.

Definition old_hw_done (except : list commit_id) : Prop :=
  forall k, k ∈ old_commits jb -> k ∈ except \/ k ∈ hw_done y.

Definition old_flip_done (except : list (commit_id * bool)) : Prop :=
  job_timeout jb = false -> forall k, k ∈ old_commits jb -> (k, true) ∈ except \/ (k, false) ∈ except \/ k ∈ flip_done y.

Definition events_handed : Prop := forall k, k ∈ event_commits j ac -> k ∈ armed y \/ k ∈ flip_done y.

Definition own_hw_done (except : list done_op) : Prop :=
  forall k, k ∈ own_commits j ac -> CompleteHw k ∈ except \/ k ∈ hw_done y.

Definition fake_flip_done (except : list done_op) : Prop :=
  uses_fake ac = true -> CompleteFlip (j, None) ∈ except \/ (j, None) ∈ flip_done y.

Definition own_cleanup_done (except : list clean_op) : Prop :=
  forall k, k ∈ own_commits j ac -> CompleteCleanup k ∈ except \/ k ∈ cleanup_done y.

Definition phase_ok : Prop :=
  match job_phase jb with
  | Setup todo =>
      still_current
      /\ silent_flipped (fun u => SetupEvent u ∈ todo)
      /\ (forall c k, StallWait c k ∈ todo -> k ∈ history y (CrtcObj c))
      /\ caught_up (fun c x => StallChecks c ∈ todo \/ StallWait c x ∈ todo)
  | Swap todo =>
      still_current /\ silent_flipped (fun _ => False) /\ caught_up (fun _ _ => False)
      /\ old_hw_done todo /\ (forall k, k ∈ todo -> k ∈ old_commits jb)
  | Fences =>
      (forall k, k.1 = j -> k ∉ hw_done y) /\ silent_flipped (fun _ => False) /\ old_hw_done []
  | Deps todo =>
      (forall k, k.1 = j -> k ∉ hw_done y) /\ silent_flipped (fun _ => False)
      /\ old_hw_done [] /\ old_flip_done todo /\ (forall k b, (k, b) ∈ todo -> k ∈ old_commits jb)
  | Hardware =>
      (forall k, k.1 = j -> k ∉ hw_done y) /\ silent_flipped (fun _ => False)
      /\ old_hw_done [] /\ old_flip_done [] /\ events_handed
  | HwDone todo =>
      silent_flipped (fun _ => False) /\ old_hw_done [] /\ old_flip_done [] /\ events_handed
      /\ (forall k, CompleteHw k ∈ todo -> k.1 = j) /\ own_hw_done todo /\ fake_flip_done todo
  | Cleanup todo =>
      silent_flipped (fun _ => False) /\ old_hw_done [] /\ old_flip_done [] /\ events_handed
      /\ own_hw_done [] /\ fake_flip_done [] /\ own_cleanup_done todo
  | Finished =>
      silent_flipped (fun _ => False) /\ old_hw_done [] /\ old_flip_done [] /\ events_handed
      /\ own_hw_done [] /\ fake_flip_done [] /\ own_cleanup_done []
  | Failed err => err < 0
  end.

Definition job_ok : Prop := ac_wf ac /\ phase_ok.
End JobInvariant.

(** A commit of a job that has been swapped in. *)
Definition known (y : commit_sys) (k : commit_id) : Prop :=
  exists jb, jobs y !! k.1 = Some jb /\ has_swapped (job_phase jb) = true
  /\ k ∈ own_commits k.1 (job_state jb).

Record commit_inv (y : commit_sys) : Prop := {
  inv_jobs j jb : jobs y !! j = Some jb -> job_ok y j jb;
  inv_history o l1 k l2 : history y o = l1 ++ k :: l2 ->
    exists jb, jobs y !! k.1 = Some jb /\ has_swapped (job_phase jb) = true
    /\ new_commit k.1 (job_state jb) o = Some k /\ job_old jb o = head l2;
  inv_current j jb o k :
    jobs y !! j = Some jb -> has_swapped (job_phase jb) = true ->
    new_commit j (job_state jb) o = Some k -> k ∉ hw_done y -> current y o = Some k;
  inv_locks i j jbi jbj o :
    i <> j -> jobs y !! i = Some jbi -> jobs y !! j = Some jbj ->
    job_locked jbi = true -> job_locked jbj = true ->
    touches (job_state jbi) o -> ~ touches (job_state jbj) o;
  inv_list c k : k ∈ commit_list y c -> k ∈ history y (CrtcObj c);
  inv_known j jb k : jobs y !! j = Some jb -> k ∈ old_commits jb -> known y k;
  inv_owner k : k ∈ hw_done y -> is_Some (jobs y !! k.1);
  inv_backlog c x : no_timeouts y -> x ∈ drop 2 (commit_list y c) -> x ∈ cleanup_done y;
  inv_swapped j : j ∈ swapped y <-> exists jb, jobs y !! j = Some jb /\ has_swapped (job_phase jb) = true;
  inv_order l1 j l2 jb k : swapped y = l1 ++ j :: l2 -> jobs y !! j = Some jb ->
    k ∈ old_commits jb -> k.1 ∈ l1
}.

(** ** Preservation *)

Lemma sublist_in_drop {A} (l' l : list A) n x :
  l' `sublist_of` l -> x ∈ drop n l' -> x ∈ drop n l.
Proof.
  intros Hs. revert n. induction Hs as [|a l' l Hs IH|a l' l Hs IH]; intros n Hx; [done|..].
  - destruct n as [|n]; [|by apply IH]. cbn in *. apply elem_of_cons in Hx as [->|Hx]; [left|right].
    by apply (IH 0%nat).
  - destruct n as [|n]; cbn in *; [right; by apply (IH 0%nat)|].
    apply IH in Hx. clear -Hx. revert l Hx. induction n as [|n IHn]; intros l Hx.
    + destruct l; [done|by right].
    + destruct l; [done|]. cbn in *. by apply IHn.
Qed.

(** Completions are only added. *)
Record grows (y y' : commit_sys) : Prop := {
  gr_flip : flip_done y ⊆ flip_done y';
  gr_hw : hw_done y ⊆ hw_done y';
  gr_cleanup : cleanup_done y ⊆ cleanup_done y';
  gr_armed : armed y ⊆ armed y' ∪ flip_done y'
}.

Section Grows.
Context {y y' : commit_sys} (G : grows y y') {i : nat} {jb : commit_job}.

Lemma grows_flip k : k ∈ flip_done y -> k ∈ flip_done y'.
Proof. apply G. Qed.
Lemma grows_hw k : k ∈ hw_done y -> k ∈ hw_done y'.
Proof. apply G. Qed.
Lemma grows_cleanup k : k ∈ cleanup_done y -> k ∈ cleanup_done y'.
Proof. apply G. Qed.
Lemma grows_silent P : silent_flipped y i jb P -> silent_flipped y' i jb P.
Proof. intros H u Hu Hs. destruct (H u Hu Hs) as [?|?%grows_flip]; [by left|by right]. Qed.
Lemma grows_old_hw l : old_hw_done y jb l -> old_hw_done y' jb l.
Proof. intros H k Hk. destruct (H k Hk) as [?|?%grows_hw]; [by left|by right]. Qed.
Lemma grows_old_flip l : old_flip_done y jb l -> old_flip_done y' jb l.
Proof. intros H Ht k Hk. destruct (H Ht k Hk) as [?|[?|?%grows_flip]]; auto. Qed.
Lemma grows_events : events_handed y i jb -> events_handed y' i jb.
Proof.
  intros H k Hk. pose proof (gr_armed _ _ G). pose proof (gr_flip _ _ G).
  specialize (H k Hk). set_solver.
Qed.
Lemma grows_own_hw l : own_hw_done y i jb l -> own_hw_done y' i jb l.
Proof. intros H k Hk. destruct (H k Hk) as [?|?%grows_hw]; auto. Qed.
Lemma grows_fake l : fake_flip_done y i jb l -> fake_flip_done y' i jb l.
Proof. intros H k. destruct (H k) as [?|?%grows_flip]; auto. Qed.
Lemma grows_own_cleanup l : own_cleanup_done y i jb l -> own_cleanup_done y' i jb l.
Proof. intros H k Hk. destruct (H k Hk) as [?|?%grows_cleanup]; auto. Qed.
End Grows.

(** What the steps of others do to a job's view: its own commits are left to it,
    and so are the objects it has locked. *)
Record evolves (y y' : commit_sys) (i : nat) (jb : commit_job) : Prop := {
  ev_grows : grows y y';
  ev_own k : k ∈ hw_done y' -> k ∈ hw_done y \/ k.1 <> i;
  ev_timeouts : no_timeouts y' -> no_timeouts y;
  ev_history o k : k ∈ history y o -> k ∈ history y' o;
  ev_current o : touches (job_state jb) o -> has_swapped (job_phase jb) = false ->
    job_locked jb = true -> current y' o = current y o;
  ev_list c n x : touches (job_state jb) (CrtcObj c) -> has_swapped (job_phase jb) = false ->
    job_locked jb = true -> x ∈ drop n (commit_list y' c) -> x ∈ drop n (commit_list y c)
}.

Section Evolves.
Context {y y' : commit_sys} {i : nat} {jb : commit_job} (E : evolves y y' i jb).

Lemma evolves_not_hw : (forall k, k.1 = i -> k ∉ hw_done y) -> forall k, k.1 = i -> k ∉ hw_done y'.
Proof. intros H k Hk Hin. destruct (ev_own _ _ _ _ E k Hin); [by eapply H|done]. Qed.

Lemma evolves_still_current :
  has_swapped (job_phase jb) = false -> still_current y i jb -> still_current y' i jb.
Proof.
  intros Hp (Hl & Ho & Hh). split; [done|]. split; [|by apply evolves_not_hw].
  intros o Ht. rewrite (ev_current _ _ _ _ E) by done. by apply Ho.
Qed.

Lemma evolves_caught_up P :
  has_swapped (job_phase jb) = false -> job_locked jb = true -> caught_up y jb P -> caught_up y' jb P.
Proof.
  intros Hp Hl H Hn c Ht x Hx. apply (ev_timeouts _ _ _ _ E) in Hn.
  destruct (H Hn c Ht x) as [?|Hc]; [by eapply ev_list|by left|right].
  exact (grows_cleanup (ev_grows _ _ _ _ E) x Hc).
Qed.
End Evolves.

Create HintDb commit_sync.
#[local] Hint Resolve evolves_still_current evolves_caught_up evolves_not_hw ev_history ev_grows
  grows_silent grows_old_hw grows_old_flip grows_events grows_own_hw grows_fake grows_own_cleanup
  : commit_sync.

Lemma phase_ok_evolves y y' i jb : evolves y y' i jb -> phase_ok y i jb -> phase_ok y' i jb.
Proof.
  intros E H. unfold phase_ok in *.
  destruct (job_phase jb) as [todo|todo| |todo| |todo|todo| |err] eqn:Hp; try done;
    assert (Hsw : has_swapped (job_phase jb) = _) by (rewrite Hp; reflexivity); cbn in Hsw.
  - destruct H as (H1 & H2 & H3 & H4). pose proof (proj1 H1). split_and!; eauto with commit_sync.
  - destruct H as (H1 & H2 & H3 & H4 & H5). pose proof (proj1 H1). split_and!; eauto with commit_sync.
  - destruct H as (H1 & H2 & H3). split_and!; eauto with commit_sync.
  - destruct H as (H1 & H2 & H3 & H4 & H5). split_and!; eauto with commit_sync.
  - destruct H as (H1 & H2 & H3 & H4 & H5). split_and!; eauto with commit_sync.
  - destruct H as (H1 & H2 & H3 & H4 & H5 & H6 & H7). split_and!; eauto with commit_sync.
  - destruct H as (H1 & H2 & H3 & H4 & H5 & H6 & H7). split_and!; eauto with commit_sync.
  - destruct H as (H1 & H2 & H3 & H4 & H5 & H6 & H7). split_and!; eauto with commit_sync.
Qed.

(** A step of job [j] that leaves the objects alone. *)
Record advance (y : commit_sys) (j : nat) (jb jb' : commit_job) (y' : commit_sys) : Prop := {
  adv_job : jobs y !! j = Some jb;
  adv_jobs : jobs y' = <[j := jb']> (jobs y);
  adv_state : job_state jb' = job_state jb;
  adv_old : job_old jb' = job_old jb;
  adv_locked : job_locked jb' = true -> job_locked jb = true;
  adv_swapped : has_swapped (job_phase jb') = has_swapped (job_phase jb);
  adv_timeout : job_timeout jb' = false -> job_timeout jb = false;
  adv_history : history y' = history y;
  adv_order : swapped y' = swapped y;
  adv_list c : commit_list y' c `sublist_of` commit_list y c;
  adv_hw k : k ∈ hw_done y' -> k ∈ hw_done y \/ k.1 = j;
  adv_grows : grows y y'
}.

Section Advance.
Context {y y' : commit_sys} {j : nat} {jb jb' : commit_job} (A : advance y j jb jb' y').

Lemma advance_lookup i : jobs y' !! i = if decide (i = j) then Some jb' else jobs y !! i.
Proof.
  rewrite (adv_jobs _ _ _ _ _ A). case_decide; [subst|]; by rewrite ?lookup_insert_eq, ?lookup_insert_ne by done.
Qed.

Lemma advance_timeouts : no_timeouts y' -> no_timeouts y.
Proof.
  intros H i b Hb. destruct (decide (i = j)) as [->|Hne].
  - assert (b = jb) as -> by (pose proof (adv_job _ _ _ _ _ A); congruence).
    apply (adv_timeout _ _ _ _ _ A). apply (H j). by rewrite advance_lookup, decide_True.
  - apply (H i). by rewrite advance_lookup, decide_False.
Qed.

Lemma advance_evolves i b : i <> j -> evolves y y' i b.
Proof.
  intros Hne. destruct A as [? ? ? ? ? ? ? Hh ? Hl Hk ?]. split; try done.
  - intros k [?|<-]%Hk; [by left|right; congruence].
  - apply advance_timeouts.
  - by rewrite Hh.
  - unfold current. by rewrite Hh.
  - intros c n x _ _ _. by apply sublist_in_drop.
Qed.

(** A job of the new state is the moved one or an old one, with the same objects. *)
Lemma advance_back i b :
  jobs y' !! i = Some b ->
  exists b0, jobs y !! i = Some b0 /\ job_state b = job_state b0 /\ job_old b = job_old b0
  /\ has_swapped (job_phase b) = has_swapped (job_phase b0)
  /\ (job_locked b = true -> job_locked b0 = true).
Proof.
  rewrite advance_lookup. case_decide as Hi; intros Hb; [|by exists b].
  subst i. injection Hb as <-. exists jb. destruct A. by split_and!.
Qed.

Lemma advance_forth i b :
  jobs y !! i = Some b ->
  exists b1, jobs y' !! i = Some b1 /\ job_state b1 = job_state b /\ job_old b1 = job_old b
  /\ has_swapped (job_phase b1) = has_swapped (job_phase b).
Proof.
  intros Hb. rewrite advance_lookup. case_decide as Hi; [|by exists b].
  subst i. exists jb'. destruct A as [Hj ? ? ? ? ? ? ? ? ? ? ?].
  rewrite Hb in Hj. injection Hj as ->. by split_and!.
Qed.

Lemma advance_inv : commit_inv y -> phase_ok y' j jb' -> commit_inv y'.
Proof.
  intros I Hp. split.
  - intros i b Hb. rewrite advance_lookup in Hb. case_decide as Hi.
    + subst i. injection Hb as <-. split; [|done]. rewrite (adv_state _ _ _ _ _ A).
      by apply (inv_jobs _ I j jb), A.
    + destruct (inv_jobs _ I i b Hb) as [Hw Hok]. split; [done|].
      by apply (phase_ok_evolves y); [apply advance_evolves|].
  - intros o l1 k l2. rewrite (adv_history _ _ _ _ _ A). intros H.
    destruct (inv_history _ I o l1 k l2 H) as (b & Hb & H1 & H2 & H3).
    destruct (advance_forth _ _ Hb) as (b1 & Hb1 & E1 & E2 & E3).
    exists b1. by rewrite E1, E2, E3.
  - intros i b o k Hb Hs Hk Hn. unfold current. rewrite (adv_history _ _ _ _ _ A).
    destruct (advance_back _ _ Hb) as (b0 & Hb0 & E1 & E2 & E3 & _). rewrite E1, E3 in *.
    apply (inv_current _ I i b0); try done. intros Hin. by apply Hn, (grows_hw (adv_grows _ _ _ _ _ A)).
  - intros i1 i2 b1 b2 o Hne Hb1 Hb2 Hl1 Hl2.
    destruct (advance_back _ _ Hb1) as (c1 & Hc1 & -> & _ & _ & HL1).
    destruct (advance_back _ _ Hb2) as (c2 & Hc2 & -> & _ & _ & HL2).
    apply (inv_locks _ I i1 i2); auto.
  - intros c k Hk. rewrite (adv_history _ _ _ _ _ A). apply (inv_list _ I).
    by apply (sublist_in_drop _ _ 0 k (adv_list _ _ _ _ _ A c)).
  - intros i b k Hb Hk. destruct (advance_back _ _ Hb) as (b0 & Hb0 & E1 & E2 & _).
    destruct (inv_known _ I i b0 k Hb0) as (b2 & Hb2 & H1 & H2); [unfold old_commits in *; by rewrite <- E1, <- E2|].
    destruct (advance_forth _ _ Hb2) as (b3 & Hb3 & E3 & _ & E4). exists b3. by rewrite E3, E4.
  - intros k Hk. destruct (adv_hw _ _ _ _ _ A k Hk) as [Ho| ->].
    + destruct (inv_owner _ I k Ho) as [b Hb]. destruct (advance_forth _ _ Hb) as (b1 & Hb1 & _).
      by exists b1.
    + rewrite advance_lookup, decide_True by done. by eexists.
  - intros c x Hn Hx. apply (grows_cleanup (adv_grows _ _ _ _ _ A)), (inv_backlog _ I c); [by apply advance_timeouts|].
    eapply sublist_in_drop; [apply A|done].
  - intros i. rewrite (adv_order _ _ _ _ _ A), (inv_swapped _ I). split; intros (b & Hb & Hs).
    + destruct (advance_forth _ _ Hb) as (b1 & Hb1 & _ & _ & E). exists b1. by rewrite E.
    + destruct (advance_back _ _ Hb) as (b0 & Hb0 & _ & _ & E & _). exists b0. by rewrite <- E.
  - intros l1 i l2 b k. rewrite (adv_order _ _ _ _ _ A). intros Ho Hb Hk.
    destruct (advance_back _ _ Hb) as (b0 & Hb0 & E1 & E2 & _).
    apply (inv_order _ I l1 i l2 b0 k); [done..|]. unfold old_commits in *. by rewrite <- E1, <- E2.
Qed.
End Advance.

(** Moving job [j] on to phase [p], with the completions [f], [h] and [u] and the
    events [a]. *)
Definition move (y : commit_sys) (j : nat) (jb : commit_job) (p : phase) (b : bool)
    (f h u a : gset commit_id) : commit_sys :=
  set_job {| y with flip_done := f; hw_done := h; cleanup_done := u; armed := a |} j
    {| jb with job_phase := p; job_timeout := b |}.

Lemma move_inv y j jb p b f h u a :
  commit_inv y -> jobs y !! j = Some jb -> has_swapped p = has_swapped (job_phase jb) ->
  (b = false -> job_timeout jb = false) ->
  flip_done y ⊆ f -> hw_done y ⊆ h -> (forall k, k ∈ h -> k ∈ hw_done y \/ k.1 = j) ->
  cleanup_done y ⊆ u -> armed y ⊆ a ∪ f ->
  (phase_ok y j jb ->
   phase_ok (move y j jb p b f h u a) j {| jb with job_phase := p; job_timeout := b |}) ->
  commit_inv (move y j jb p b f h u a).
Proof.
  intros I Hj Hp Hb Hf Hh Hk Hu Ha Hok.
  apply (advance_inv (y := y) (jb := jb) (jb' := {| jb with job_phase := p; job_timeout := b |}) (j := j));
    [|done|by apply Hok, (inv_jobs _ I j jb)].
  split; cbn; by try split.
Qed.

(** *** The steps before the swap *)

(** A phase with more left to do may be continued from one with less, if what was
    dropped is done. *)
Section SetupPhase.
Context (y : commit_sys) (j : nat) (jb : commit_job).

Definition setup_ok (todo : list setup_op) : Prop :=
  still_current y j jb
  /\ silent_flipped y j jb (fun u => SetupEvent u ∈ todo)
  /\ (forall c k, StallWait c k ∈ todo -> k ∈ history y (CrtcObj c))
  /\ caught_up y jb (fun c x => StallChecks c ∈ todo \/ StallWait c x ∈ todo).

Lemma setup_ok_next op todo :
  setup_ok (op :: todo) ->
  (forall u, op = SetupEvent u -> sends_event (job_state jb) u = false ->
     (j, Some (cu_crtc u)) ∈ flip_done y) ->
  (forall c, op = StallChecks c -> no_timeouts y -> forall x, x ∈ drop 1 (commit_list y c) ->
     StallWait c x ∈ todo \/ x ∈ cleanup_done y) ->
  (forall c k, op = StallWait c k -> no_timeouts y -> k ∈ cleanup_done y) ->
  setup_ok todo.
Proof.
  intros (H1 & H2 & H3 & H4) He Hc Hw. split; [done|]. split; [|split].
  - intros u Hu Hs. destruct (H2 u Hu Hs) as [[E|?]%elem_of_cons|?]; [|by left|by right].
    right. by apply He.
  - intros c k Hk. apply H3. by right.
  - intros Hn c Ht x Hx. destruct (H4 Hn c Ht x Hx) as [[[E|?]%elem_of_cons|[E|?]%elem_of_cons]|?]; auto.
    + destruct (Hc c (eq_sym E) Hn x Hx); auto.
    + right. by eapply Hw.
Qed.
End SetupPhase.

Lemma no_timeouts_job y j jb : no_timeouts y -> jobs y !! j = Some jb -> job_timeout jb = false.
Proof. eauto. Qed.

(** The new state of a job differs in what [phase_ok] does not look at. *)
Lemma setup_ok_job y j jb jb' todo :
  job_state jb' = job_state jb -> job_old jb' = job_old jb -> job_locked jb' = job_locked jb ->
  setup_ok y j jb todo -> setup_ok y j jb' todo.
Proof.
  unfold setup_ok, still_current, silent_flipped, caught_up. by intros -> -> ->.
Qed.

(** One more step of the setup, which may complete flips. *)
Lemma setup_advance y j jb op todo l todo' b :
  commit_inv y -> jobs y !! j = Some jb -> job_phase jb = Setup (op :: todo) ->
  (b = false -> job_timeout jb = false) -> flip_done y ⊆ l ->
  let jb' := {| jb with job_phase := Setup todo'; job_timeout := b |} in
  let y' := set_job {| y with flip_done := l |} j jb' in
  (setup_ok y j jb (op :: todo) -> setup_ok y' j jb todo') ->
  commit_inv y'.
Proof.
  intros I Hj Hp Hb Hl jb' y' Hok.
  apply (move_inv y j jb (Setup todo') b l (hw_done y) (cleanup_done y) (armed y)); auto.
  - by rewrite Hp.
  - set_solver.
  - unfold phase_ok. rewrite Hp. exact Hok.
Qed.

Ltac errno := zb; subst; unfold EBUSY, ENOMEM, ERESTARTSYS in *; lia.

(** A commit that fails leaves everything but its own job as it is. *)
Lemma fail_inv y j jb err :
  commit_inv y -> jobs y !! j = Some jb -> has_swapped (job_phase jb) = false -> err < 0 ->
  commit_inv (set_phase y j jb (Failed err)).
Proof.
  intros I Hj Hp Herr.
  apply (move_inv y j jb (Failed err) (job_timeout jb) (flip_done y) (hw_done y) (cleanup_done y) (armed y));
    auto; set_solver.
Qed.

Lemma set_job_timeouts y y1 j jb jb' :
  jobs y !! j = Some jb -> jobs y1 = jobs y -> (job_timeout jb' = false -> job_timeout jb = false) ->
  no_timeouts (set_job y1 j jb') -> no_timeouts y.
Proof.
  intros Hj E Ht Hn i b Hb. destruct (decide (i = j)) as [->|Hne].
  - assert (b = jb) as -> by congruence. apply Ht. apply (Hn j). cbn. by rewrite lookup_insert_eq.
  - apply (Hn i). cbn. by rewrite lookup_insert_ne, E.
Qed.

(** The setup as seen from the state in which some flips are complete, too. *)
Lemma setup_ok_flips y j jb l jb' todo :
  jobs y !! j = Some jb -> (job_timeout jb' = false -> job_timeout jb = false) -> flip_done y ⊆ l ->
  setup_ok y j jb todo -> setup_ok (set_job {| y with flip_done := l |} j jb') j jb todo.
Proof.
  intros Hj Ht Hl (H1 & H2 & H3 & H4). split; [done|]. split; [|split; [done|]].
  - intros u Hu Hs. destruct (H2 u Hu Hs) as [?|?]; [by left|right]. by apply Hl.
  - intros Hn c Hc x Hx. apply H4; [|done|done]. by eapply set_job_timeouts in Hn.
Qed.

Lemma setup_step_inv y j jb op todo r y' :
  commit_inv y -> jobs y !! j = Some jb -> job_phase jb = Setup (op :: todo) ->
  setup_step y j jb op todo r = Some y' -> commit_inv y'.
Proof.
  intros I Hj Hp Hs.
  assert (Hsw : has_swapped (job_phase jb) = false) by by rewrite Hp.
  assert (Hgo : forall l, flip_done y ⊆ l ->
    (setup_ok y j jb (op :: todo) -> setup_ok (set_phase {| y with flip_done := l |} j jb (Setup todo)) j jb todo) ->
    commit_inv (set_phase {| y with flip_done := l |} j jb (Setup todo))).
  { intros l Hl Hok. by apply (setup_advance y j jb op todo l todo (job_timeout jb)). }
  assert (Hnext : (forall u, op <> SetupEvent u) -> (forall c, op <> StallChecks c) ->
    (forall c k, op = StallWait c k -> k ∈ cleanup_done y) ->
    commit_inv (set_phase y j jb (Setup todo))).
  { intros N1 N2 N3. apply (Hgo (flip_done y)); [done|]. intros Hok.
    apply (setup_ok_flips y j jb (flip_done y)); [done..|].
    eapply setup_ok_next; [exact Hok|intros u E; by apply N1 in E|intros c E; by apply N2 in E|].
    intros c k E _. by apply (N3 c). }
  pose proof (fail_inv y j jb) as Hfail.
  destruct op as [u|c|c k|u|o alloc| |]; destruct r as [| |err]; cbn in Hs; try discriminate Hs;
    try (repeat case_if_in Hs; try discriminate Hs; injection Hs as <-; apply Hfail; [done..|errno]);
    try (injection Hs as <-; by apply Hnext).
  - (* the stall checks *)
    unfold stall_checks in Hs. destruct (commit_list y c) as [|k l] eqn:Hc.
    + injection Hs as <-. apply (Hgo (flip_done y)); [done|]. intros Hok.
      apply (setup_ok_flips y j jb (flip_done y)); [done..|].
      eapply setup_ok_next; [exact Hok|..]; try done. intros c' [= <-] _ x. rewrite Hc. set_solver.
    + case_if_in Hs; [injection Hs as <-; apply Hfail; [done..|errno]|].
      destruct l as [|k1 l]; cbn [head] in Hs; injection Hs as <-.
      * apply (Hgo (flip_done y)); [done|]. intros Hok.
        apply (setup_ok_flips y j jb (flip_done y)); [done..|].
        eapply setup_ok_next; [exact Hok|..]; try done. intros c' [= <-] _ x. rewrite Hc. set_solver.
      * apply (setup_advance y j jb (StallChecks c) todo (flip_done y) (StallWait c k1 :: todo)
          (job_timeout jb)); [done..|].
        intros Hok. apply (setup_ok_flips y j jb (flip_done y)); [done..|].
        destruct Hok as (H1 & H2 & H3 & H4). split; [done|]. split; [|split].
        -- intros u Hu Hse. destruct (H2 u Hu Hse) as [[?|?]%elem_of_cons|?]; [done|left; by right|by right].
        -- intros c' k' [[= -> ->]|Hk]%elem_of_cons; [|by apply H3; right].
           apply (inv_list _ I). rewrite Hc. right. left.
        -- intros Hn c' Ht x Hx. destruct (decide (c' = c)) as [->|Hne].
           ++ rewrite Hc in Hx. cbn in Hx. apply elem_of_cons in Hx as [->|Hx].
              ** left. right. left.
              ** right. apply (inv_backlog _ I c); [done|]. by rewrite Hc.
           ++ destruct (H4 Hn c' Ht x Hx) as [[[?|?]%elem_of_cons|[?|?]%elem_of_cons]|?];
                [congruence|left; left; by right|done|left; right; by right|by right].
  - case_if_in Hs; [|discriminate Hs]. injection Hs as <-. apply Hnext; [done..|].
    intros c' k' [= <- <-]. by apply bool_decide_eq_true in Heqb.
  - injection Hs as <-.
    apply (setup_advance y j jb (StallWait c k) todo (flip_done y) todo true); [done..|].
    intros (H1 & H2 & H3 & H4). split; [done|]. split; [|split].
    + intros u Hu Hse. destruct (H2 u Hu Hse) as [[?|?]%elem_of_cons|?]; [done|by left|by right].
    + intros c' k' Hk. apply H3. by right.
    + intros Hn. specialize (Hn j). cbn in Hn. rewrite lookup_insert_eq in Hn. by specialize (Hn _ eq_refl).
  - destruct (sends_event (job_state jb) u) eqn:Hse; injection Hs as <-.
    + apply (Hgo (flip_done y)); [done|]. intros Hok.
      apply (setup_ok_flips y j jb (flip_done y)); [done..|].
      eapply setup_ok_next; [exact Hok|..]; try done. intros u' [= <-] H. congruence.
    + apply Hgo; [set_solver|]. intros Hok.
      eapply setup_ok_next; [apply setup_ok_flips; [done|done|set_solver|exact Hok]|..]; try done.
      intros u' [= <-] _. cbn. set_solver.
  - case_if_in Hs; injection Hs as <-; [apply Hfail; [done..|errno]|by apply Hnext].
  - case_if_in Hs; [|discriminate Hs]. injection Hs as <-. by apply Hnext.
Qed.

(** *** The steps after the swap, and its stalls *)

(** The job itself, seen before and after completions are added. *)
Section OwnGrows.
Context {y : commit_sys} {j : nat} {jb : commit_job} {p : phase} {b : bool} {f h u a : gset commit_id}.
Context (Hb : b = false -> job_timeout jb = false)
  (Hf : flip_done y ⊆ f) (Hh : hw_done y ⊆ h) (Hu : cleanup_done y ⊆ u) (Ha : armed y ⊆ a ∪ f).
Let y' := move y j jb p b f h u a.
Let jb' := {| jb with job_phase := p; job_timeout := b |}.

Lemma move_grows : grows y y'.
Proof. by split. Qed.
Lemma move_silent P : silent_flipped y j jb P -> silent_flipped y' j jb' P.
Proof. intros H. exact (grows_silent move_grows _ H). Qed.
Lemma move_old_hw l : old_hw_done y jb l -> old_hw_done y' jb' l.
Proof. intros H. exact (grows_old_hw move_grows _ H). Qed.
Lemma move_old_flip l : old_flip_done y jb l -> old_flip_done y' jb' l.
Proof. intros H Ht. exact (grows_old_flip move_grows l H (Hb Ht)). Qed.
Lemma move_events : events_handed y j jb -> events_handed y' j jb'.
Proof. intros H. exact (grows_events move_grows H). Qed.
Lemma move_own_hw l : own_hw_done y j jb l -> own_hw_done y' j jb' l.
Proof. intros H. exact (grows_own_hw move_grows _ H). Qed.
Lemma move_fake l : fake_flip_done y j jb l -> fake_flip_done y' j jb' l.
Proof. intros H. exact (grows_fake move_grows _ H). Qed.
Lemma move_own_cleanup l : own_cleanup_done y j jb l -> own_cleanup_done y' j jb' l.
Proof. intros H. exact (grows_own_cleanup move_grows _ H). Qed.
End OwnGrows.

#[local] Hint Resolve move_silent move_old_hw move_old_flip move_events move_own_hw move_fake
  move_own_cleanup : commit_sync.

Lemma own_commits_owner j ac k : k ∈ own_commits j ac -> k.1 = j.
Proof.
  unfold own_commits. rewrite elem_of_app, list_elem_of_fmap.
  intros [(u & -> & _)|H]; [done|]. destruct (uses_fake ac); set_solver.
Qed.

Lemma hw_done_ops j ac k :
  CompleteHw k ∈ drm_atomic_helper_commit_hw_done j ac <-> k ∈ own_commits j ac.
Proof.
  unfold drm_atomic_helper_commit_hw_done, own_commits.
  rewrite !elem_of_app, !list_elem_of_fmap. destruct (uses_fake ac); set_solver.
Qed.

Lemma cleanup_done_ops j ac k :
  k ∈ own_commits j ac -> CompleteCleanup k ∈ drm_atomic_helper_commit_cleanup_done j ac.
Proof.
  unfold drm_atomic_helper_commit_cleanup_done, own_commits.
  rewrite !elem_of_app, list_elem_of_fmap, list_elem_of_bind. intros [(u & -> & Hu)|H].
  - left. exists u. split; [left|done].
  - right. destruct (uses_fake ac); set_solver.
Qed.

Lemma move_caught_up y j jb p b f h u a P Q :
  jobs y !! j = Some jb -> (b = false -> job_timeout jb = false) -> cleanup_done y ⊆ u ->
  (forall c x, P c x -> Q c x) ->
  caught_up y jb P -> caught_up (move y j jb p b f h u a) {| jb with job_phase := p; job_timeout := b |} Q.
Proof.
  intros Hj Hb Hu HPQ H Hn c Hc x Hx. eapply set_job_timeouts in Hn; [|done..].
  destruct (H Hn c Hc x Hx) as [?|?]; [left; auto|right]. by apply Hu.
Qed.

(** Leaving the completions as they are. *)
Lemma stay_inv y j jb p b :
  commit_inv y -> jobs y !! j = Some jb -> has_swapped p = has_swapped (job_phase jb) ->
  (b = false -> job_timeout jb = false) ->
  (phase_ok y j jb ->
   phase_ok (move y j jb p b (flip_done y) (hw_done y) (cleanup_done y) (armed y)) j
     {| jb with job_phase := p; job_timeout := b |}) ->
  commit_inv (set_job y j {| jb with job_phase := p; job_timeout := b |}).
Proof. intros. by apply (move_inv y j jb p b (flip_done y) (hw_done y) (cleanup_done y) (armed y)); auto; set_solver. Qed.

(** The steps that wait. *)
Lemma wait_step_inv y j jb r y' :
  commit_inv y -> jobs y !! j = Some jb ->
  (exists k todo, job_phase jb = Swap (k :: todo)) \/ (exists k todo, job_phase jb = Deps (k :: todo))
  \/ job_phase jb = Setup [] \/ job_phase jb = Fences ->
  job_step y j r = Some y' -> commit_inv y'.
Proof.
  intros I Hj Hph. unfold job_step. rewrite Hj. intros Hs.
  pose proof (stay_inv y j jb) as M. unfold phase_ok in M at 1.
  destruct Hph as [(k & todo & Hp)|[([k b] & todo & Hp)|[Hp|Hp]]]; rewrite Hp in Hs, M; destruct r as [| |e];
    try discriminate Hs.
  - case_if_in Hs; [|discriminate Hs]. injection Hs as <-. apply bool_decide_eq_true in Heqb.
    apply (M (Swap todo) (job_timeout jb)); auto. intros (H1 & H2 & H3 & H4 & H5).
    split; [done|]. split; [done|]. split; [eapply move_caught_up; [..|exact H3]; auto|].
    split; [|intros k' Hk; apply H5; by right].
    intros k' Hk. destruct (H4 k' Hk) as [[->|?]%elem_of_cons|?]; [by right|by left|by right].
  - case_if_in Hs; [|discriminate Hs]. injection Hs as <-. apply fail_inv; rewrite ?Hp; [done..|errno].
  - destruct b; cbn in Hs; case_bool_decide; try discriminate Hs; injection Hs as <-.
    + apply (M (Deps todo) (job_timeout jb)); auto. intros (H1 & H2 & H3 & H4 & H5).
      split_and!; try done; [|intros k' b Hk; eapply H5; by right].
      intros Ht k' Hk. destruct (H4 Ht k' Hk) as [[E|?]%elem_of_cons|[[E|?]%elem_of_cons|?]]; simplify_eq; auto.
    + apply (M (Deps ((k, true) :: todo)) (job_timeout jb)); auto.
      intros (H1 & H2 & H3 & H4 & H5). split_and!; try done.
      2: { intros k' b [E|Hk]%elem_of_cons; [simplify_eq; eapply H5; left|eapply H5; by right]. }
      intros Ht k' Hk. destruct (H4 Ht k' Hk) as [[E|?]%elem_of_cons|[[E|?]%elem_of_cons|?]]; simplify_eq; auto.
      * left. by right.
      * left. left.
      * right. left. by right.
  - cbn in Hs. injection Hs as <-; apply (M (Deps todo) true); auto; try done;
      intros (H1 & H2 & H3 & H4 & H5); split_and!; try done; intros k' b' Hk; eapply H5; by right.
  - injection Hs as <-. apply (M (Swap (old_commits jb)) (job_timeout jb)); auto.
    intros (H1 & H2 & H3 & H4). split; [done|]. split; [|split; [|split]].
    + intros u Hu He. destruct (H2 u Hu He) as [?|?]; [set_solver|by right].
    + eapply move_caught_up; [..|exact H4]; auto. intros c x [?|?]; set_solver.
    + intros k Hk. by left.
    + done.
  - case_if_in Hs; [|discriminate Hs]. injection Hs as <-.
    apply (M (Deps (drm_atomic_helper_wait_for_dependencies jb)) (job_timeout jb)); auto.
    intros (H1 & H2 & H3). split_and!; try done.
    + intros _ k Hk. right. left. cbn. apply list_elem_of_fmap. by exists k.
    + intros k b (k' & [= -> _] & Hk)%list_elem_of_fmap. exact Hk.
Qed.

(** The steps of the tail that program, signal and clean up. *)
Lemma tail_step_inv y j jb r y' :
  commit_inv y -> jobs y !! j = Some jb ->
  match job_phase jb with Setup _ | Swap _ | Fences | Deps (_ :: _) | Failed _ => False | _ => True end ->
  job_step y j r = Some y' -> commit_inv y'.
Proof.
  intros I Hj Hph. unfold job_step. rewrite Hj. intros Hs.
  pose proof (move_inv y j jb) as M. unfold phase_ok in M at 1.
  destruct (job_phase jb) as [?|?| |[|? ?]| |[|[k|k] todo]|[|[k|c k] todo]| |?] eqn:Hp; try done;
    destruct r as [| |e]; try discriminate Hs; injection Hs as <-.
  - apply (M Hardware (job_timeout jb) (flip_done y) (hw_done y) (cleanup_done y)
      (list_to_set (event_commits j (job_state jb)) ∪ armed y)); auto; [set_solver|].
    intros (H1 & H2 & H3 & H4 & H5). split_and!; try done. intros k Hk. left. set_solver.
  - apply (M (HwDone (drm_atomic_helper_commit_hw_done j (job_state jb))) (job_timeout jb) (flip_done y)
      (hw_done y) (cleanup_done y) (armed y)); auto; [set_solver|].
    intros (H1 & H2 & H3 & H4 & H5). split_and!; try done.
    + intros k Hk. apply hw_done_ops in Hk. by eapply own_commits_owner.
    + intros k Hk. left. by apply hw_done_ops.
    + intros Hf. left. unfold drm_atomic_helper_commit_hw_done. cbn in Hf. rewrite Hf. set_solver.
  - apply (M (Cleanup (drm_atomic_helper_commit_cleanup_done j (job_state jb))) (job_timeout jb)
      (flip_done y) (hw_done y) (cleanup_done y) (armed y)); auto; [set_solver|].
    intros (H1 & H2 & H3 & H4 & H5 & H6 & H7). split_and!; try done.
    intros k Hk. left. by apply cleanup_done_ops.
  - apply (M (HwDone todo) (job_timeout jb) (flip_done y) ({[k]} ∪ hw_done y) (cleanup_done y) (armed y));
      auto; [set_solver| |set_solver|].
    { intros k' [->%elem_of_singleton|?]%elem_of_union; [right|by left].
      destruct (inv_jobs _ I j jb Hj) as [_ Hok]. unfold phase_ok in Hok. rewrite Hp in Hok.
      destruct Hok as (_ & _ & _ & _ & H & _). apply H. left. }
    intros (H1 & H2 & H3 & H4 & H5 & H6 & H7). split_and!; try done.
    + intros k' Hk. destruct (H2 k' Hk) as [?|?]; [by left|right; set_solver].
    + intros k' Hk. apply H5. by right.
    + intros k' Hk. destruct (H6 k' Hk) as [[E|?]%elem_of_cons|?]; simplify_eq; cbn; set_solver.
    + intros Hf. destruct (H7 Hf) as [[E|?]%elem_of_cons|?]; simplify_eq; auto.
  - apply (M (HwDone todo) (job_timeout jb) ({[k]} ∪ flip_done y) (hw_done y) (cleanup_done y) (armed y));
      auto; [set_solver|set_solver|].
    intros (H1 & H2 & H3 & H4 & H5 & H6 & H7). split_and!; try done.
    + eapply move_silent; [..|exact H1]; auto; set_solver.
    + eapply move_old_flip; [..|exact H3]; auto; set_solver.
    + eapply move_events; [..|exact H4]; auto; set_solver.
    + intros k' Hk. apply H5. by right.
    + intros k' Hk. destruct (H6 k' Hk) as [[E|?]%elem_of_cons|?]; simplify_eq; auto.
    + intros Hf. destruct (H7 Hf) as [[E|?]%elem_of_cons|?]; simplify_eq; cbn; set_solver.
  - apply (M Finished (job_timeout jb) (flip_done y) (hw_done y) (cleanup_done y) (armed y));
      auto; set_solver.
  - apply (M (Cleanup todo) (job_timeout jb) (flip_done y) (hw_done y) ({[k]} ∪ cleanup_done y) (armed y));
      auto; [set_solver|set_solver|].
    intros (H1 & H2 & H3 & H4 & H5 & H6 & H7). split_and!; try done.
    intros k' Hk. destruct (H7 k' Hk) as [[E|?]%elem_of_cons|?]; simplify_eq; cbn; set_solver.
  - destruct (inv_jobs _ I j jb Hj) as [_ Hok]. unfold phase_ok in Hok. rewrite Hp in Hok.
    destruct Hok as (H1 & H2 & H3 & H4 & H5 & H6 & H7).
    eapply (advance_inv (jb := jb) (jb' := {| jb with job_phase := Cleanup todo |})); [|done|].
    + split; cbn; try done; [by rewrite Hp| |by left|by split; try set_solver].
      intros c'. case_bool_decide; [|done]. apply sublist_filter.
    + split_and!; try done.
      intros k' Hk. destruct (H7 k' Hk) as [[E|?]%elem_of_cons|?]; simplify_eq; auto.
Qed.

(** *** Swapping in, starting, unlocking, and the events *)

Lemma new_commit_owner j ac o k : new_commit j ac o = Some k -> k.1 = j.
Proof.
  destruct o as [c|n|p]; cbn; intros H.
  - case_bool_decide; [|done]. by injection H as <-.
  - destruct (find _ _); [|done]. by injection H as <-.
  - destruct (find _ _); [|done]. by injection H as <-.
Qed.

Lemma new_commit_touches j ac o : is_Some (new_commit j ac o) <-> touches ac o.
Proof.
  unfold touches. destruct o as [c|n|p]; cbn.
  - case_bool_decide; split; intros [? ?]; done || by eexists.
  - by rewrite !fmap_is_Some.
  - by rewrite !fmap_is_Some.
Qed.

Lemma untouched_commit j ac o : ~ touches ac o -> new_commit j ac o = None.
Proof. intros H. destruct (new_commit j ac o) eqn:E; [|done]. destruct H. apply (new_commit_touches j). by eexists. Qed.

Lemma find_in {A} (f : A -> bool) l x : find f l = Some x -> x ∈ l /\ f x = true.
Proof. intros H. apply find_some in H as [H1 H2]. by rewrite list_elem_of_In. Qed.

Lemma touches_objects ac o : touches ac o -> o ∈ objects ac.
Proof.
  unfold touches, objects. rewrite !elem_of_app, !list_elem_of_fmap. destruct o as [c|n|p]; cbn.
  - case_bool_decide as H; [|by intros [? ?]]. intros _. left.
    apply list_elem_of_fmap in H as (u & -> & Hu). by exists u.
  - rewrite fmap_is_Some. intros [l [Hl E]%find_in]. right. left.
    exists l. split; [|done]. f_equal. symmetry. by apply Nat.eqb_eq.
  - rewrite fmap_is_Some. intros [l [Hl E]%find_in]. right. right.
    exists l. split; [|done]. f_equal. symmetry. by apply Nat.eqb_eq.
Qed.

(** A commit that an unswapped job found in the states of its objects. *)
Lemma old_commit_found y j jb o :
  still_current y j jb -> touches (job_state jb) o -> forall k, job_old jb o = Some k ->
  current y o = Some k /\ k ∈ old_commits jb.
Proof.
  intros (_ & Ho & _) Ht k Hk. rewrite <- (Ho o Ht). split; [done|].
  apply list_elem_of_omap. exists o. split; [by apply touches_objects|done].
Qed.

Lemma current_in_history y o k : current y o = Some k -> k ∈ history y o.
Proof. unfold current. destruct (history y o); [done|]. intros [= ->]. left. Qed.

Lemma history_swapped y o k : commit_inv y -> k ∈ history y o -> k.1 ∈ swapped y.
Proof.
  intros I (l1 & l2 & E)%list_elem_of_split. apply (inv_swapped _ I).
  destruct (inv_history _ I _ _ _ _ E) as (jb & H1 & H2 & _). by exists jb.
Qed.

Lemma touched_objects ac o : o ∈ objects ac -> touches ac o.
Proof.
  unfold touches, objects. rewrite !elem_of_app, !list_elem_of_fmap.
  intros [(u & -> & Hu)|[(l & -> & Hl)|(l & -> & Hl)]]; cbn.
  - case_bool_decide as H; [by eexists|]. destruct H. apply list_elem_of_fmap. by exists u.
  - rewrite fmap_is_Some. destruct (find _ _) eqn:E; [by eexists|].
    apply list_elem_of_In in Hl. pose proof (find_none _ _ E l Hl) as H. cbn in H. by rewrite Nat.eqb_refl in H.
  - rewrite fmap_is_Some. destruct (find _ _) eqn:E; [by eexists|].
    apply list_elem_of_In in Hl. pose proof (find_none _ _ E l Hl) as H. cbn in H. by rewrite Nat.eqb_refl in H.
Qed.

Lemma old_commits_swapped y j jb k :
  commit_inv y -> still_current y j jb -> k ∈ old_commits jb -> k.1 ∈ swapped y.
Proof.
  intros I (_ & Ho & _) (o & Hin & Hk)%list_elem_of_omap.
  rewrite Ho in Hk by (by apply touched_objects). by eapply history_swapped, current_in_history.
Qed.

Lemma new_commit_own j ac o k : ac_wf ac -> new_commit j ac o = Some k -> k ∈ own_commits j ac.
Proof.
  intros Hw. unfold own_commits. rewrite elem_of_app, list_elem_of_fmap.
  assert (Hlink : forall l, l ∈ ac_connectors ac ++ ac_planes ac ->
    (exists u, crtc_or_fake_commit j l = (j, Some (cu_crtc u)) /\ u ∈ ac_crtcs ac)
    \/ crtc_or_fake_commit j l ∈ (if uses_fake ac then [(j, None)] else [])).
  { intros l Hl. unfold crtc_or_fake_commit. destruct (lu_new_crtc l ∪ lu_old_crtc l) as [c|] eqn:E.
    - left. assert (Hc : c ∈ cu_crtc <$> ac_crtcs ac).
      { apply (wf_links _ Hw l c Hl). destruct (lu_new_crtc l), (lu_old_crtc l); cbn in E; simplify_eq; auto. }
      apply list_elem_of_fmap in Hc as (u & -> & Hu). by exists u.
    - right. replace (uses_fake ac) with true; [left|]. symmetry. apply existsb_exists.
      exists l. rewrite <- list_elem_of_In, E. by split; [|apply bool_decide_eq_true]. }
  destruct o as [c|n|p]; cbn.
  - case_bool_decide as H; [|done]. intros [= <-]. left.
    apply list_elem_of_fmap in H as (u & -> & Hu). by exists u.
  - destruct (find _ _) as [l|] eqn:E; [|done]. intros [= <-]. apply find_in in E as [E _].
    apply Hlink, elem_of_app. by left.
  - destruct (find _ _) as [l|] eqn:E; [|done]. intros [= <-]. apply find_in in E as [E _].
    apply Hlink, elem_of_app. by right.
Qed.

Lemma history_known y o k : commit_inv y -> k ∈ history y o -> known y k.
Proof.
  intros I (l1 & l2 & E)%list_elem_of_split.
  destruct (inv_history _ I _ _ _ _ E) as (jb & H1 & H2 & H3 & _). exists jb. split_and!; try done.
  eapply new_commit_own; [|done]. by apply (inv_jobs _ I _ _ H1).
Qed.

(** The jobs of a state that differs in one. *)
Lemma set_job_lookup y j jb i :
  jobs (set_job y j jb) !! i = if decide (i = j) then Some jb else jobs y !! i.
Proof. cbn. case_decide; [subst|]; by rewrite ?lookup_insert_eq, ?lookup_insert_ne by done. Qed.

Lemma swap_lookup y j jb i :
  jobs (drm_atomic_helper_swap_state y j jb) !! i
  = if decide (i = j) then Some {| jb with job_phase := Fences |}
    else jobs y !! i.
Proof. apply (set_job_lookup {| y with swapped := swapped y ++ [j] |}). Qed.

Section SwapIn.
Context (y : commit_sys) (j : nat) (jb : commit_job).
Hypothesis (I : commit_inv y) (Hj : jobs y !! j = Some jb) (Hp : job_phase jb = Swap []).
Let y' := drm_atomic_helper_swap_state y j jb.

Lemma swap_phase_facts :
  still_current y j jb /\ silent_flipped y j jb (fun _ => False) /\ caught_up y jb (fun _ _ => False)
  /\ forall k, k ∈ old_commits jb -> k ∈ hw_done y.
Proof using I Hj Hp.
  destruct (inv_jobs _ I j jb Hj) as [_ H]. unfold phase_ok in H. rewrite Hp in H.
  destruct H as (H1 & H2 & H3 & H4 & _). split_and!; try done.
  intros k Hk. by destruct (H4 k Hk) as [?%not_elem_of_nil|?].
Qed.

Lemma swap_not_yet : ~ j ∈ swapped y.
Proof using I Hj Hp. rewrite (inv_swapped _ I). intros (b & Hb & Hs). rewrite Hj in Hb. injection Hb as <-. by rewrite Hp in Hs. Qed.

Lemma swap_timeouts : no_timeouts y' -> no_timeouts y.
Proof using Hj.
  intros Hn i b Hb. specialize (Hn i). unfold y' in Hn. rewrite swap_lookup in Hn. case_decide; [|by apply Hn].
  subst i. rewrite Hj in Hb. injection Hb as <-. by specialize (Hn _ eq_refl).
Qed.

Lemma swap_history o :
  history y' o = match new_commit j (job_state jb) o with Some k => k :: history y o | None => history y o end.
Proof using. done. Qed.

Lemma swap_list c :
  commit_list y' c = match new_commit j (job_state jb) (CrtcObj c) with
                     | Some k => k :: commit_list y c | None => commit_list y c end.
Proof using. done. Qed.

Lemma swap_evolves i b : i <> j -> jobs y !! i = Some b -> evolves y y' i b.
Proof using I Hj Hp.
  intros Hne Hb.
  assert (Hun : forall o, touches (job_state b) o -> job_locked b = true -> new_commit j (job_state jb) o = None).
  { intros o Ht Hl. apply untouched_commit. apply (inv_locks _ I i j b jb o); try done.
    apply swap_phase_facts. }
  split; [by split; try set_solver|by left|apply swap_timeouts|..].
  - intros o k Hk. rewrite swap_history. destruct (new_commit _ _ _); [by right|done].
  - intros o Ht _ Hl. unfold current. by rewrite swap_history, (Hun o Ht Hl).
  - intros c n x Ht _ Hl. by rewrite swap_list, (Hun _ Ht Hl).
Qed.

Lemma swap_jobs_ok i b : jobs y' !! i = Some b -> job_ok y' i b.
Proof using I Hj Hp.
  unfold y'. rewrite swap_lookup. fold y'. case_decide as Hi; intros Hb.
  - injection Hb as <-. subst i. destruct (inv_jobs _ I j jb Hj) as [Hw _]. split; [done|].
    destruct swap_phase_facts as ((_ & _ & Hn) & Hs & _ & Ho). split_and!; try done.
    intros k Hk. right. by apply Ho.
  - destruct (inv_jobs _ I i b Hb) as [Hw Hok]. split; [done|].
    by apply (phase_ok_evolves y); [apply swap_evolves|].
Qed.

Lemma swap_history_ok o l1 k l2 :
  history y' o = l1 ++ k :: l2 ->
  exists b, jobs y' !! k.1 = Some b /\ has_swapped (job_phase b) = true
  /\ new_commit k.1 (job_state b) o = Some k /\ job_old b o = head l2.
Proof using I Hj Hp.
  rewrite swap_history. intros H.
  assert (Hcase : history y o = tail l1 ++ k :: l2 /\ l1 <> [] \/ history y o = l1 ++ k :: l2
    \/ (l1 = [] /\ new_commit j (job_state jb) o = Some k /\ l2 = history y o)).
  { destruct (new_commit j (job_state jb) o) as [k0|]; [|auto].
    destruct l1 as [|x l1]; cbn in H; injection H as ? ?; subst; auto. }
  destruct Hcase as [[H1 _]|[H1|(-> & Hk & ->)]].
  3: { exists {| jb with job_phase := Fences |}.
       assert (k.1 = j) as -> by (by eapply new_commit_owner).
       unfold y'. rewrite swap_lookup, decide_True by done. split_and!; try done.
       destruct swap_phase_facts as ((_ & Ho & _) & _). apply Ho, (new_commit_touches j). by eexists. }
  all: destruct (inv_history _ I _ _ _ _ H1) as (b & Hb & Hs & Hr); exists b;
    unfold y'; rewrite swap_lookup, decide_False; [done|]; intros E; rewrite E, Hj in Hb;
    injection Hb as <-; by rewrite Hp in Hs.
Qed.

Lemma swap_current_ok i b o k :
  jobs y' !! i = Some b -> has_swapped (job_phase b) = true ->
  new_commit i (job_state b) o = Some k -> k ∉ hw_done y' -> current y' o = Some k.
Proof using I Hj Hp.
  unfold y'. rewrite swap_lookup. fold y'. case_decide as Hi; intros Hb Hs Hk Hn.
  - injection Hb as <-. subst i. cbn in Hk. unfold current. by rewrite swap_history, Hk.
  - pose proof (inv_current _ I i b o k Hb Hs Hk Hn) as Hc.
    unfold current. rewrite swap_history. destruct (new_commit j (job_state jb) o) as [k0|] eqn:E; [|done].
    exfalso. destruct swap_phase_facts as (Hsc & _ & _ & Ho).
    assert (Ht : touches (job_state jb) o) by (apply (new_commit_touches j); by eexists).
    apply Hn, Ho. apply (old_commit_found y j jb o Hsc Ht k).
    destruct Hsc as (_ & Hsc & _). by rewrite Hsc.
Qed.

Lemma swap_inv : commit_inv y'.
Proof using I Hj Hp.
  split.
  - apply swap_jobs_ok.
  - apply swap_history_ok.
  - apply swap_current_ok.
  - intros i1 i2 b1 b2 o Hne. unfold y'. rewrite !swap_lookup.
    intros H1 H2 L1 L2. assert (H : forall i b, (if decide (i = j) then Some {| jb with job_phase := Fences |} else jobs y !! i) = Some b ->
      exists b', jobs y !! i = Some b' /\ job_locked b' = job_locked b /\ job_state b' = job_state b).
    { intros i b E. destruct (decide (i = j)); [injection E as <-; subst i; by exists jb|by exists b]. }
    destruct (H _ _ H1) as (c1 & Hc1 & E1 & <-), (H _ _ H2) as (c2 & Hc2 & E2 & <-).
    apply (inv_locks _ I i1 i2); congruence.
  - intros c k. rewrite swap_list, swap_history.
    destruct (new_commit j (job_state jb) (CrtcObj c)); [|apply (inv_list _ I)].
    intros [->|Hk]%elem_of_cons; [left|right]. by apply (inv_list _ I).
  - intros i b k. unfold y'. rewrite swap_lookup. intros Hb Hk.
    assert (Hk' : known y k).
    { destruct (decide (i = j)) as [->|]; [injection Hb as <-|by eapply (inv_known _ I i b)].
      by apply (inv_known _ I j jb). }
    destruct Hk' as (b' & Hb' & Hs & Ho). exists b'. rewrite swap_lookup, decide_False; [done|].
    intros E. rewrite E, Hj in Hb'. injection Hb' as <-. by rewrite Hp in Hs.
  - intros k Hk. unfold y'. rewrite swap_lookup. case_decide; [by eexists|]. by apply (inv_owner _ I).
  - intros c x Hn%swap_timeouts. rewrite swap_list.
    destruct (new_commit j (job_state jb) (CrtcObj c)) eqn:E; [|by apply (inv_backlog _ I)].
    intros Hx. destruct swap_phase_facts as (_ & _ & Hc & _).
    destruct (Hc Hn c) with (x := x) as [?|?]; try done. apply (new_commit_touches j). by eexists.
  - intros i. change (swapped y') with (swapped y ++ [j]). rewrite elem_of_app, (inv_swapped _ I i), list_elem_of_singleton.
    unfold y'. rewrite swap_lookup. split.
    + intros [(b & Hb & Hs)| ->]; [|rewrite decide_True by done; by eexists].
      exists b. rewrite decide_False; [done|]. intros ->. rewrite Hj in Hb. injection Hb as <-. by rewrite Hp in Hs.
    + intros (b & Hb & Hs). case_decide; [by right|left; by exists b].
  - intros l1 i l2 b k. change (swapped y') with (swapped y ++ [j]). unfold y'. rewrite swap_lookup. intros E Hb Hk.
    destruct l2 as [|x l2 _] using rev_ind.
    + apply app_inj_tail in E as [<- <-]. rewrite decide_True in Hb by done. injection Hb as <-.
      apply (old_commits_swapped y j jb); [done|apply swap_phase_facts|exact Hk].
    + rewrite app_comm_cons, app_assoc in E. apply app_inj_tail in E as [E _].
      rewrite decide_False in Hb; [by eapply (inv_order _ I)|].
      intros ->. apply swap_not_yet. rewrite E. set_solver.
Qed.
End SwapIn.

Lemma setup_list_no_wait ac c k : StallWait c k ∉ drm_atomic_helper_setup_commit ac.
Proof.
  unfold drm_atomic_helper_setup_commit. rewrite elem_of_app, list_elem_of_bind.
  intros [(u & H & _)|H]; [set_solver|]. revert H. generalize false as fake.
  generalize (((fun l => (ConnObj (lu_id l), l)) <$> ac_connectors ac)
              ++ ((fun l => (PlaneObj (lu_id l), l)) <$> ac_planes ac)) as l.
  induction l as [|[o l'] l IH]; intros fake; cbn; [set_solver|].
  intros [?|?]%elem_of_cons; [done|by eapply IH].
Qed.

Lemma setup_list_crtc ac u :
  u ∈ ac_crtcs ac ->
  StallChecks (cu_crtc u) ∈ drm_atomic_helper_setup_commit ac
  /\ SetupEvent u ∈ drm_atomic_helper_setup_commit ac.
Proof.
  intros Hu. unfold drm_atomic_helper_setup_commit. rewrite !elem_of_app, !list_elem_of_bind.
  split; left; exists u; set_solver.
Qed.

Lemma start_inv y j ac nonblock :
  commit_inv y -> jobs y !! j = None -> ac_wf ac ->
  (forall i jb o, jobs y !! i = Some jb -> job_locked jb = true ->
     touches ac o -> ~ touches (job_state jb) o) ->
  commit_inv (drm_atomic_helper_commit y j ac nonblock).
Proof.
  intros I Hj Hw Hl. unfold drm_atomic_helper_commit. set (jb := mkjob _ _ _ _ _ _).
  assert (Hne : forall i b, jobs y !! i = Some b -> i <> j) by (intros i b Hb ->; congruence).
  assert (Hold : forall i b, jobs y !! i = Some b -> jobs (set_job y j jb) !! i = Some b)
    by (intros i b Hb; rewrite set_job_lookup, decide_False by eauto; done).
  assert (Hnt : no_timeouts (set_job y j jb) -> no_timeouts y) by (intros H i b Hb; by eapply H, Hold).
  split.
  - intros i b. rewrite set_job_lookup. destruct (decide (i = j)) as [->|Hi]; intros Hb.
    + injection Hb as <-. split; [done|]. unfold phase_ok. cbn. split; [|split; [|split]].
      * split; [done|]. split; [done|]. intros k Hk Hin. destruct (inv_owner _ I k Hin) as [b Hb].
        rewrite Hk in Hb. congruence.
      * intros u Hu _. left. apply elem_of_app. left. by apply setup_list_crtc.
      * intros c k [?%setup_list_no_wait|Hk]%elem_of_app; [done|]. destruct nonblock; set_solver.
      * intros _ c Hc x _. left. left. apply elem_of_app. left. apply touches_objects in Hc.
        unfold objects in Hc. rewrite !elem_of_app, !list_elem_of_fmap in Hc.
        destruct Hc as [(u & [= ->] & Hu)|[(? & ? & _)|(? & ? & _)]]; try done. by apply setup_list_crtc.
    + destruct (inv_jobs _ I i b Hb) as [? Hok]. split; [done|].
      apply (phase_ok_evolves y); [|done]. split; try done; [by split; set_solver|by left].
  - intros o l1 k l2 H. destruct (inv_history _ I o l1 k l2 H) as (b & Hb & Hr). exists b. auto.
  - intros i b o k. rewrite set_job_lookup. destruct (decide (i = j)); intros Hb Hs; [by simplify_eq|].
    by apply (inv_current _ I i b).
  - intros i1 i2 b1 b2 o Hn. rewrite !set_job_lookup.
    destruct (decide (i1 = j)), (decide (i2 = j)); intros H1 H2 L1 L2 T1 T2; simplify_eq.
    + by eapply (Hl i2 b2).
    + by eapply (Hl i1 b1).
    + by eapply (inv_locks _ I i1 i2 b1 b2).
  - apply (inv_list _ I).
  - intros i b k. rewrite set_job_lookup. intros Hb Hk.
    assert (Hk' : known y k).
    { destruct (decide (i = j)) as [->|]; [injection Hb as <-|by eapply (inv_known _ I i b)].
      apply list_elem_of_omap in Hk as (o & _ & Hk). apply (history_known y o); [done|]. by apply current_in_history. }
    destruct Hk' as (b' & Hb' & Hr). exists b'. auto.
  - intros k Hk. destruct (inv_owner _ I k Hk) as [b Hb]. exists b. auto.
  - intros c x Hn. by apply (inv_backlog _ I), Hnt.
  - intros i. change (swapped (set_job y j jb)) with (swapped y). rewrite (inv_swapped _ I). split; intros (b & Hb & Hs).
    + exists b. auto.
    + rewrite set_job_lookup in Hb. destruct (decide (i = j)); [by simplify_eq|by exists b].
  - intros l1 i l2 b k Ho. rewrite set_job_lookup. destruct (decide (i = j)) as [->|]; intros Hb Hk.
    + exfalso. assert (Hin : j ∈ swapped y) by (change (swapped (set_job y j jb)) with (swapped y) in Ho; rewrite Ho; set_solver).
      apply (inv_swapped _ I) in Hin as (b' & Hb' & _). congruence.
    + by eapply (inv_order _ I).
Qed.

Lemma unlock_inv y j jb :
  commit_inv y -> jobs y !! j = Some jb -> may_unlock jb = true ->
  commit_inv (set_job y j {| jb with job_locked := false |}).
Proof.
  intros I Hj Hu.
  eapply (advance_inv (jb := jb) (jb' := {| jb with job_locked := false |})); [|done|].
  - split; cbn; try done; [by left|by split; set_solver].
  - destruct (inv_jobs _ I j jb Hj) as [_ H]. unfold may_unlock in Hu. unfold phase_ok in *. cbn.
    by destruct (job_phase jb).
Qed.

Lemma event_inv y k :
  commit_inv y -> k ∈ armed y ->
  commit_inv {| y with flip_done := {[k]} ∪ flip_done y; armed := armed y ∖ {[k]} |}.
Proof.
  intros I Hk. set (y' := {| y with flip_done := _; armed := _ |}).
  assert (G : grows y y').
  { split; cbn; try done; [set_solver|]. intros x Hx. destruct (decide (x = k)); set_solver. }
  pose proof (inv_jobs _ I) as Hjobs. destruct I; split; try done.
  intros i b Hb. destruct (Hjobs i b Hb) as [Hw Hok]. split; [done|].
  apply (phase_ok_evolves y); [|done]. split; try done. by left.
Qed.

Lemma fences_inv y j : commit_inv y -> commit_inv {| y with signalled := {[j]} ∪ signalled y |}.
Proof. intros I. destruct I; by split. Qed.

Lemma job_step_inv y j r y' : commit_inv y -> job_step y j r = Some y' -> commit_inv y'.
Proof.
  intros I Hs. pose proof Hs as Hs'. unfold job_step in Hs'.
  destruct (jobs y !! j) as [jb|] eqn:Hj; [|done].
  destruct (job_phase jb) as [[|op todo]|[|k todo]| |[|k todo]| |?|?| |?] eqn:Hp;
    try by (eapply tail_step_inv; [done|done| |done]; by rewrite Hp).
  - eapply wait_step_inv; eauto.
  - by eapply setup_step_inv.
  - destruct r; [|done..]. injection Hs' as <-. by apply swap_inv.
  - eapply wait_step_inv; [done|done| |done]. left. eauto.
  - eapply wait_step_inv; eauto.
  - eapply wait_step_inv; [done|done| |done]. right. left. eauto.
Qed.

Lemma commit_sys0_inv : commit_inv commit_sys0.
Proof.
  split; cbn; try done.
  - by intros o [|? ?].
  - by intros c x _ ?%not_elem_of_nil.
  - intros j. split; [by intros ?%not_elem_of_nil|by intros (? & ? & _)].
Qed.

Lemma commit_step_inv y l y' : commit_inv y -> commit_step y l y' -> commit_inv y'.
Proof.
  intros I Hs. destruct Hs.
  - by apply start_inv.
  - by eapply job_step_inv.
  - by apply unlock_inv.
  - by apply event_inv.
  - by apply fences_inv.
Qed.

Lemma commit_reachable_inv y : commit_reachable y -> commit_inv y.
Proof. induction 1; [apply commit_sys0_inv|by eapply commit_step_inv]. Qed.

(** ** Main theorems *)

Lemma filter_none {A} (P : A -> Prop) `{!forall x, Decision (P x)} (l : list A) :
  (forall x, x ∈ l -> ~ P x) -> filter P l = [].
Proof.
  induction l as [|x l IH]; intros Hl; [done|]. rewrite filter_cons_False by (apply Hl; left).
  apply IH. intros z Hz. apply Hl. by right.
Qed.

(** The phases in which a commit has got past its waits for others. *)
Definition past_waits (p : phase) : bool :=
  match p with Hardware | HwDone _ | Cleanup _ | Finished => true | _ => false end.

Lemma hardware_current y j jb o :
  commit_inv y -> jobs y !! j = Some jb -> job_phase jb = Hardware -> touches (job_state jb) o ->
  exists k, current y o = Some k /\ k.1 = j.
Proof.
  intros I Hj Hp [k Hk]%(new_commit_touches j). exists k. pose proof (new_commit_owner _ _ _ _ Hk) as Ho.
  split; [|done]. apply (inv_current _ I j jb); rewrite ?Hp; try done.
  destruct (inv_jobs _ I j jb Hj) as [_ H]. unfold phase_ok in H. rewrite Hp in H. by apply H.
Qed.

(** C5: Commits never program the same hardware at the same time: of two commits
    between the first and the last access of their tails, blocking or not and
    even after waits have timed out, no CRTC, connector or plane is part of
    both. *)
Theorem commit_hw_exclusive y i j jbi jbj o :
  commit_reachable y -> i <> j ->
  jobs y !! i = Some jbi -> jobs y !! j = Some jbj ->
  job_phase jbi = Hardware -> job_phase jbj = Hardware ->
  touches (job_state jbi) o -> ~ touches (job_state jbj) o.
Proof.
  intros I%commit_reachable_inv Hne Hi Hj Pi Pj Ti Tj.
  destruct (hardware_current y i jbi o) as (k & Hk & <-); try done.
  destruct (hardware_current y j jbj o) as (k' & Hk' & <-); try done. congruence.
Qed.

Lemma past_waits_done y j jb k :
  commit_inv y -> jobs y !! j = Some jb -> past_waits (job_phase jb) = true -> job_timeout jb = false ->
  k ∈ old_commits jb -> k ∈ hw_done y /\ k ∈ flip_done y.
Proof.
  intros I Hj Hp Ht Hk. destruct (inv_jobs _ I j jb Hj) as [_ H]. unfold phase_ok in H.
  assert (Hd : old_hw_done y jb [] /\ old_flip_done y jb [])
    by (destruct (job_phase jb); try done; split; apply H).
  destruct Hd as [Hd1 Hd2].
  split; [by destruct (Hd1 k Hk) as [?%not_elem_of_nil|?]|].
  by destruct (Hd2 Ht k Hk) as [?%not_elem_of_nil|[?%not_elem_of_nil|?]].
Qed.

Lemma hw_done_past y j jb k :
  commit_inv y -> jobs y !! j = Some jb -> has_swapped (job_phase jb) = true -> k.1 = j ->
  k ∈ hw_done y -> past_waits (job_phase jb) = true.
Proof.
  intros I Hj Hs Hk Hd. destruct (inv_jobs _ I j jb Hj) as [_ H]. unfold phase_ok in H.
  destruct (job_phase jb); try done; by destruct (proj1 H k Hk).
Qed.

(** C25: Commits take effect in order: when no wait has timed out, a commit that has got
    to its hardware finds, for every object it touches, every commit before it
    programmed and shown, its flip having completed (which a legacy cursor update
    declares at its set-up). *)
Theorem commit_flips_in_order y o l1 k l2 jb k' :
  commit_reachable y -> no_timeouts y ->
  history y o = l1 ++ k :: l2 -> jobs y !! k.1 = Some jb -> past_waits (job_phase jb) = true ->
  k' ∈ l2 -> k' ∈ hw_done y /\ k' ∈ flip_done y.
Proof.
  intros I%commit_reachable_inv Hn. revert l1 k jb. induction l2 as [|k2 l2 IH]; intros l1 k jb H Hj Hp Hk.
  { by apply not_elem_of_nil in Hk. }
  destruct (inv_history _ I _ _ _ _ H) as (jb' & Hj' & Hs & Hnew & Hold).
  assert (jb' = jb) as -> by congruence.
  assert (Hd : k2 ∈ hw_done y /\ k2 ∈ flip_done y).
  { apply (past_waits_done y k.1 jb); try done; [by eapply Hn|].
    apply list_elem_of_omap. exists o. split; [|done]. apply touches_objects, (new_commit_touches k.1). by eexists. }
  apply elem_of_cons in Hk as [->|Hk]; [done|].
  rewrite cons_middle, app_assoc in H.
  destruct (inv_history _ I _ _ _ _ H) as (jb2 & Hj2 & Hs2 & _).
  eapply (IH (l1 ++ [k]) k2 jb2); try done. apply (hw_done_past y k2.1 jb2 k2); try done. apply Hd.
Qed.

(** C26: Commits do not pile up: of the commits on a CRTC's list at most two wait for
    their cleanup, and so at most two states' old framebuffers are held - unless a
    wait has timed out. *)
Theorem commit_backlog y c :
  commit_reachable y -> no_timeouts y ->
  (length (filter (fun k => k ∉ cleanup_done y) (commit_list y c)) <= 2)%nat.
Proof.
  intros I%commit_reachable_inv Hn. rewrite <- (take_drop 2 (commit_list y c)), filter_app, length_app.
  rewrite (filter_none _ (drop 2 _)).
  2: { intros x Hx Hc. by apply Hc, (inv_backlog _ I c). }
  pose proof (length_filter (fun k => k ∉ cleanup_done y) (take 2 (commit_list y c))) as Hf.
  rewrite length_take in Hf. cbn [length]. lia.
Qed.

(** C27: A commit that is refused - with a negative error - leaves no trace: none of its
    own commits is part of an object's states or of a CRTC's list, and nobody waits
    for one. *)
Theorem commit_failure_clean y j jb err :
  commit_reachable y -> jobs y !! j = Some jb -> job_phase jb = Failed err ->
  err < 0 /\ (forall o k, k ∈ history y o -> k.1 <> j)
  /\ (forall c k, k ∈ commit_list y c -> k.1 <> j)
  /\ (forall i jbi k, jobs y !! i = Some jbi -> k ∈ old_commits jbi -> k.1 <> j).
Proof.
  intros I%commit_reachable_inv Hj Hp.
  assert (Hh : forall k, known y k -> k.1 <> j).
  { intros k (b & Hb & Hs & _) E. rewrite E, Hj in Hb. injection Hb as <-. by rewrite Hp in Hs. }
  split; [|split; [|split]].
  - destruct (inv_jobs _ I j jb Hj) as [_ H]. unfold phase_ok in H. by rewrite Hp in H.
  - intros o k Hk. eapply Hh, history_known; done.
  - intros c k Hk%(inv_list _ I). eapply Hh, history_known; done.
  - intros i jbi k Hi Hk. eapply Hh, (inv_known _ I); done.
Qed.

(** ** Every commit completes *)

(** The steps that only wait for what has happened, send events, signal fences and
    drop locks. *)
Definition regular (l : commit_label) : Prop :=
  match l with LStep _ Proceed | LUnlock _ | LEventSent _ | LFences _ => True | _ => False end.

Definition regular_step (y y' : commit_sys) : Prop := exists l, regular l /\ commit_step y l y'.

Definition job_over (jb : commit_job) : Prop :=
  (job_phase jb = Finished \/ exists err, job_phase jb = Failed err) /\ job_locked jb = false.

(** What is left to do: a bound on the regular steps of a job. *)
Definition setup_weight (op : setup_op) : nat := match op with StallChecks _ => 2 | _ => 1 end.

Definition clean_weight (j : nat) (ac : drm_atomic_commit) : nat :=
  2 + length (drm_atomic_helper_commit_cleanup_done j ac).
Definition done_weight (j : nat) (ac : drm_atomic_commit) : nat :=
  1 + length (drm_atomic_helper_commit_hw_done j ac) + clean_weight j ac.
Definition deps_weight (j : nat) (ac : drm_atomic_commit) : nat :=
  2 + length (event_commits j ac) + done_weight j ac.
Definition swap_weight (j : nat) (jb : commit_job) : nat :=
  2 + length (old_commits jb) * 2 + deps_weight j (job_state jb).

Definition phase_weight (j : nat) (jb : commit_job) : nat :=
  let ac := job_state jb in
  match job_phase jb with
  | Setup todo => 1 + sum_list_with setup_weight todo + length (old_commits jb) + swap_weight j jb
  | Swap todo => length todo + swap_weight j jb
  | Fences => 1 + length (old_commits jb) * 2 + deps_weight j ac
  | Deps todo => sum_list_with (fun x : commit_id * bool => if x.2 then 1%nat else 2%nat) todo
                 + deps_weight j ac
  | Hardware => 1 + done_weight j ac
  | HwDone todo => length todo + clean_weight j ac
  | Cleanup todo => 1 + length todo
  | Finished | Failed _ => 0
  end.

Definition job_weight (j : nat) (jb : commit_job) : nat :=
  phase_weight j jb + (if job_locked jb then 1 else 0).

Definition total_weight (y : commit_sys) : nat :=
  map_fold (fun j jb n => job_weight j jb + n)%nat 0%nat (jobs y) + size (armed y)
  + size (dom (jobs y) ∖ signalled y).

Lemma weight_step y j jb jb' :
  jobs y !! j = Some jb ->
  (map_fold (fun j jb n => job_weight j jb + n) 0 (<[j := jb']> (jobs y)) + job_weight j jb
   = map_fold (fun j jb n => job_weight j jb + n) 0 (jobs y) + job_weight j jb')%nat.
Proof.
  intros Hj.
  rewrite (map_fold_delete_L _ _ j jb (jobs y)) by (done || intros; lia).
  rewrite (map_fold_delete_L _ _ j jb' (<[j := jb']> (jobs y))) by (apply lookup_insert_eq || intros; lia).
  rewrite delete_insert_eq. lia.
Qed.

Lemma set_decreases y y' j jb jb' :
  jobs y !! j = Some jb -> jobs y' = <[j := jb']> (jobs y) -> signalled y' = signalled y ->
  (job_weight j jb' + size (armed y') < job_weight j jb + size (armed y))%nat ->
  (total_weight y' < total_weight y)%nat.
Proof.
  intros Hj E Es Hw. unfold total_weight. rewrite E, Es. pose proof (weight_step y j jb jb' Hj).
  rewrite dom_insert_lookup_L by (by eexists). lia.
Qed.

Lemma armed_size (l : list commit_id) (s : gset commit_id) :
  (size (list_to_set l ∪ s) <= length l + size s)%nat.
Proof.
  induction l as [|k l IH]; cbn; [by rewrite union_empty_l_L|].
  rewrite <- union_assoc_L. destruct (decide (k ∈ (list_to_set l ∪ s : gset commit_id))).
  - rewrite subseteq_union_1_L by set_solver. lia.
  - rewrite size_union by set_solver. rewrite size_singleton. lia.
Qed.

Lemma old_commits_phase jb p b :
  old_commits {| jb with job_phase := p; job_timeout := b |} = old_commits jb.
Proof. done. Qed.

Ltac weights Hp :=
  unfold job_weight, phase_weight; rewrite Hp; cbn -[old_commits size list_to_set union];
  unfold swap_weight; rewrite ?(old_commits_phase _ _ _); unfold deps_weight, done_weight, clean_weight;
  cbn -[old_commits size list_to_set union].

Lemma setup_step_decreases y j jb op todo y' :
  jobs y !! j = Some jb -> job_phase jb = Setup (op :: todo) ->
  setup_step y j jb op todo Proceed = Some y' -> (total_weight y' < total_weight y)%nat.
Proof.
  intros Hj Hp Hs.
  assert (Hgo : forall y1, jobs y1 = jobs y -> armed y1 = armed y -> signalled y1 = signalled y ->
    (total_weight (set_phase y1 j jb (Setup todo)) < total_weight y)%nat).
  { intros y1 E1 E2 E3.
    apply (set_decreases y _ j jb {| jb with job_phase := Setup todo |}); [done|cbn; by rewrite E1|done|].
    cbn [set_phase set_job armed]. rewrite E2. weights Hp. destruct op; cbn -[old_commits]; lia. }
  assert (Hfail : forall err, (total_weight (set_phase y j jb (Failed err)) < total_weight y)%nat).
  { intros err. apply (set_decreases y _ j jb {| jb with job_phase := Failed err |}); [done|done|done|].
    cbn [set_phase set_job armed]. weights Hp. lia. }
  destruct op; cbn in Hs; try (repeat case_if_in Hs; try discriminate Hs; injection Hs as <-; by auto).
  destruct (stall_checks y c (job_nonblock jb)) as [err|[k|]]; injection Hs as <-; auto.
  apply (set_decreases y _ j jb {| jb with job_phase := Setup (StallWait c k :: todo) |}); [done|done|done|].
  cbn [set_phase set_job armed]. weights Hp. lia.
Qed.

Lemma job_step_decreases y j y' :
  job_step y j Proceed = Some y' -> (total_weight y' < total_weight y)%nat.
Proof.
  unfold job_step. destruct (jobs y !! j) as [jb|] eqn:Hj; [|done]. intros Hs.
  assert (Hgo : forall p y1, jobs y1 = jobs y /\ signalled y1 = signalled y ->
    (phase_weight j {| jb with job_phase := p |} + size (armed y1) < phase_weight j jb + size (armed y))%nat ->
    (total_weight (set_phase y1 j jb p) < total_weight y)%nat).
  { intros p y1 [E1 E2] Hw.
    apply (set_decreases y _ j jb {| jb with job_phase := p |}); [done|cbn; by rewrite E1|done|].
    unfold job_weight. cbn. cbn in Hw. lia. }
  destruct (job_phase jb) as [[|op todo]|[|k todo]| |[|[k []] todo]| |[|[k|k] todo]|[|[k|c k] todo]| |err] eqn:Hp;
    try discriminate Hs;
    try (repeat case_if_in Hs; try discriminate Hs; injection Hs as <-; apply Hgo; [done|];
         weights Hp; lia).
  - by eapply setup_step_decreases.
  - case_if_in Hs; [|discriminate Hs]. injection Hs as <-. apply Hgo; [done|].
    weights Hp. unfold drm_atomic_helper_wait_for_dependencies.
    assert (E : sum_list_with (fun x : commit_id * bool => if x.2 then 1%nat else 2%nat)
      ((fun k => (k, false)) <$> old_commits jb) = (length (old_commits jb) * 2)%nat)
      by (induction (old_commits jb); cbn in *; lia).
    rewrite E. lia.
  - injection Hs as <-. apply Hgo; [done|]. pose proof (armed_size (event_commits j (job_state jb)) (armed y)).
    weights Hp. lia.
  - cbn in Hs. case_bool_decide; [|discriminate Hs]. injection Hs as <-. apply (Hgo (Deps todo)); [done|].
    weights Hp. lia.
  - cbn in Hs. case_bool_decide; [|discriminate Hs]. injection Hs as <-.
    apply (Hgo (Deps ((k, true) :: todo))); [done|]. weights Hp. lia.
Qed.

(** A finished commit has signalled everything, once its events are sent. *)
Lemma finished_signalled y j jb k :
  commit_inv y -> jobs y !! j = Some jb -> job_phase jb = Finished -> k ∈ own_commits j (job_state jb) ->
  k ∈ hw_done y /\ k ∈ cleanup_done y /\ (armed y = ∅ -> k ∈ flip_done y).
Proof.
  intros I Hj Hp Hk. destruct (inv_jobs _ I j jb Hj) as [_ H]. unfold phase_ok in H. rewrite Hp in H.
  destruct H as (H1 & _ & _ & H4 & H5 & H6 & H7).
  split; [by destruct (H5 k Hk) as [?%not_elem_of_nil|?]|].
  split; [by destruct (H7 k Hk) as [?%not_elem_of_nil|?]|]. intros Ha.
  unfold own_commits in Hk. apply elem_of_app in Hk as [(u & -> & Hu)%list_elem_of_fmap|Hk].
  - destruct (sends_event (job_state jb) u) eqn:Es; [|by destruct (H1 u Hu Es)].
    destruct (H4 (j, Some (cu_crtc u))) as [Hin|?]; [|by rewrite Ha in Hin|done].
    apply list_elem_of_fmap. exists u. split; [done|]. by apply list_elem_of_filter.
  - destruct (uses_fake (job_state jb)) eqn:Ef; [|by apply not_elem_of_nil in Hk].
    apply list_elem_of_singleton in Hk as ->. by destruct (H6 Ef) as [?%not_elem_of_nil|?].
Qed.

Definition finished_job (y : commit_sys) (j : nat) : Prop :=
  exists jb, jobs y !! j = Some jb /\ job_phase jb = Finished.

#[local] Instance finished_job_dec y j : Decision (finished_job y j).
Proof.
  unfold finished_job. destruct (jobs y !! j) as [jb|]; [|right; by intros (? & ? & _)].
  destruct (job_phase jb) eqn:E; try (right; intros (b & [= <-] & Hb); congruence).
  left. by exists jb.
Defined.

(** The first of a list to fail a test. *)
Lemma first_failing {A} (P : A -> Prop) `{!forall x, Decision (P x)} (l : list A) :
  (forall x, x ∈ l -> P x) \/ exists l1 x l2, l = l1 ++ x :: l2 /\ (forall z, z ∈ l1 -> P z) /\ ~ P x.
Proof.
  induction l as [|a l IH]; [left; by intros x ?%not_elem_of_nil|].
  destruct (decide (P a)) as [Ha|Ha].
  - destruct IH as [IH|(l1 & x & l2 & -> & H1 & H2)].
    + left. intros x [->|Hx]%elem_of_cons; auto.
    + right. exists (a :: l1), x, l2. split; [done|]. split; [|done]. intros z [->|Hz]%elem_of_cons; auto.
  - right. exists [], a, l. split; [done|]. split; [by intros z ?%not_elem_of_nil|done].
Qed.

Lemma known_signalled y k :
  commit_inv y -> armed y = ∅ -> known y k -> finished_job y k.1 ->
  k ∈ hw_done y /\ k ∈ cleanup_done y /\ k ∈ flip_done y.
Proof.
  intros I Ha (b & Hb & _ & Hk) (b' & Hb' & Hp). assert (b' = b) as -> by congruence.
  destruct (finished_signalled y k.1 b k I Hb Hp Hk) as (? & ? & ?). auto.
Qed.

Lemma deps_enabled y j jb k b todo :
  jobs y !! j = Some jb -> job_phase jb = Deps ((k, b) :: todo) -> k ∈ hw_done y -> k ∈ flip_done y ->
  is_Some (job_step y j Proceed).
Proof.
  intros Hj Hp H1 H2. unfold job_step. rewrite Hj, Hp. unfold drm_crtc_commit_wait.
  destruct b; cbn [negb]; rewrite bool_decide_eq_true_2 by done; by eexists.
Qed.

(** The oldest unfinished commit that has been swapped in is not blocked. *)
Lemma oldest_enabled y l1 j l2 :
  commit_inv y -> armed y = ∅ -> dom (jobs y) ⊆ signalled y -> swapped y = l1 ++ j :: l2 ->
  (forall i, i ∈ l1 -> finished_job y i) -> ~ finished_job y j -> is_Some (job_step y j Proceed).
Proof.
  intros I Ha Hf E Hl Hn.
  assert (Hin : j ∈ swapped y) by (rewrite E; set_solver).
  apply (inv_swapped _ I) in Hin as (jb & Hj & Hs).
  destruct (inv_jobs _ I j jb Hj) as [_ Hok]. unfold phase_ok in Hok.
  destruct (job_phase jb) as [?|?| |[|[k b] todo]| |[|[k|k] todo]|[|[k|c k] todo]| |err] eqn:Hp; try done;
    try (unfold job_step; rewrite Hj, Hp; by eexists).
  - unfold job_step. rewrite Hj, Hp, bool_decide_eq_true_2; [by eexists|]. apply Hf. by apply (elem_of_dom_2 _ _ jb).
  - destruct Hok as (_ & _ & _ & _ & Hold). assert (Hk : k ∈ old_commits jb) by (eapply Hold; left).
    destruct (known_signalled y k I Ha (inv_known _ I j jb k Hj Hk)) as (H1 & _ & H3);
      [by apply Hl, (inv_order _ I l1 j l2 jb k)|].
    by apply (deps_enabled y j jb k b todo).
  - destruct Hn. by exists jb.
Qed.

(** With every swapped commit finished, one that is being set up is not blocked. *)
Lemma setup_enabled y j jb :
  commit_inv y -> armed y = ∅ -> dom (jobs y) ⊆ signalled y -> (forall i, i ∈ swapped y -> finished_job y i) ->
  jobs y !! j = Some jb -> has_swapped (job_phase jb) = false -> (forall err, job_phase jb <> Failed err) ->
  is_Some (job_step y j Proceed).
Proof.
  intros I Ha Hfe Hall Hj Hs Hf.
  assert (Hsig : forall k, known y k -> k ∈ hw_done y /\ k ∈ cleanup_done y).
  { intros k Hk. destruct Hk as (b & Hb & Hsw & Hown).
    destruct (known_signalled y k I Ha) as (? & ? & _); [by exists b| |done].
    apply Hall, (inv_swapped _ I). by exists b. }
  destruct (inv_jobs _ I j jb Hj) as [_ Hok]. unfold phase_ok in Hok.
  unfold job_step. rewrite Hj.
  destruct (job_phase jb) as [[|op todo]|[|k todo]| |?| |?|?| |err] eqn:Hp; try done; try by eexists.
  - destruct Hok as (_ & _ & Hw & _). destruct op as [u|c|c k|u|o alloc| |]; cbn; try by eexists.
    + destruct (stall_checks y c (job_nonblock jb)) as [|[|]]; by eexists.
    + rewrite bool_decide_eq_true_2; [by eexists|]. apply Hsig, (history_known y (CrtcObj c)); [done|].
      apply Hw. left.
    + case_if; by eexists.
    + case_if; by eexists.
    + rewrite bool_decide_eq_true_2; [by eexists|]. apply Hfe. by apply (elem_of_dom_2 _ _ jb).
  - destruct Hok as (_ & _ & _ & _ & Hold).
    rewrite bool_decide_eq_true_2; [by eexists|]. apply Hsig, (inv_known _ I j jb); [done|]. apply Hold. left.
  - by destruct (Hf err).
Qed.

Lemma job_step_jobs y j r y' :
  job_step y j r = Some y' ->
  (exists jb', jobs y' = <[j := jb']> (jobs y)) /\ (swapped y' = swapped y \/ swapped y' = swapped y ++ [j]).
Proof.
  unfold job_step. destruct (jobs y !! j) as [jb|]; [|done]. intros Hs.
  destruct (job_phase jb) as [[|op todo]|[|k todo]| |[|[k []] todo]| |[|[k|k] todo]|[|[k|c k] todo]| |err];
    destruct r; try discriminate Hs;
    try (repeat case_if_in Hs; try discriminate Hs; injection Hs as <-; cbn; split; [by eexists|by auto]).
  all: try (cbn in Hs; repeat case_bool_decide; try discriminate Hs; injection Hs as <-; cbn;
            split; [by eexists|by auto]).
  all: destruct op; cbn in Hs; try discriminate Hs;
    try (repeat case_if_in Hs; try discriminate Hs; injection Hs as <-; cbn; split; [by eexists|by auto]).
  1: destruct (stall_checks y c (job_nonblock jb)) as [err|[k|]]; injection Hs as <-; cbn; split; eauto.
  all: case_if_in Hs; injection Hs as <-; cbn; split; eauto.
Qed.

Lemma event_decreases y k :
  k ∈ armed y ->
  (total_weight {| y with flip_done := {[k]} ∪ flip_done y; armed := armed y ∖ {[k]} |} < total_weight y)%nat.
Proof.
  intros Hk. unfold total_weight. cbn -[size difference]. apply Nat.add_lt_mono_r, Nat.add_lt_mono_l.
  apply subset_size. set_solver.
Qed.

Lemma fences_decrease y j :
  j ∈ dom (jobs y) -> j ∉ signalled y ->
  (total_weight {| y with signalled := {[j]} ∪ signalled y |} < total_weight y)%nat.
Proof.
  intros Hj Hn. unfold total_weight. cbn -[size difference]. apply Nat.add_lt_mono_l.
  apply subset_size. set_solver.
Qed.

Lemma unlock_decreases y j jb :
  jobs y !! j = Some jb -> job_locked jb = true ->
  (total_weight (set_job y j {| jb with job_locked := false |}) < total_weight y)%nat.
Proof.
  intros Hj Hl. apply (set_decreases y _ j jb {| jb with job_locked := false |}); [done|done|done|].
  unfold job_weight. rewrite Hl. cbn [armed set_job job_locked].
  change (phase_weight j {| jb with job_locked := false |}) with (phase_weight j jb). lia.
Qed.

(** As long as anything is left to do, something regular can be done. *)
Lemma commit_progress y :
  commit_inv y -> (armed y <> ∅ \/ exists j jb, jobs y !! j = Some jb /\ ~ job_over jb) ->
  exists y', regular_step y y' /\ (total_weight y' < total_weight y)%nat /\ swapped y ⊆ swapped y'.
Proof.
  intros I Hleft. destruct (decide (armed y = ∅)) as [Ha|Ha].
  2: { apply set_choose_L in Ha as [k Hk]. eexists. split; [|split; [by apply event_decreases|done]].
       eexists. split; [|by apply (step_event y k Hk)]. done. }
  destruct (decide (dom (jobs y) ∖ signalled y = ∅)) as [Hf|Hf].
  2: { apply set_choose_L in Hf as [i Hi]. apply elem_of_difference in Hi as [Hi Hn].
       eexists. split; [|split; [by apply (fences_decrease y i)|done]].
       eexists. split; [|by apply (step_fences y i)]. done. }
  assert (Hfe : dom (jobs y) ⊆ signalled y) by set_solver.
  destruct Hleft as [?|(j & jb & Hj & Hover)]; [done|].
  assert (Hrun : forall i, is_Some (job_step y i Proceed) ->
    exists y', regular_step y y' /\ (total_weight y' < total_weight y)%nat /\ swapped y ⊆ swapped y').
  { intros i [y' Hi]. exists y'. split; [|split; [by eapply job_step_decreases|]].
    - eexists. split; [|by apply (step_job y i Proceed)]. done.
    - destruct (job_step_jobs _ _ _ _ Hi) as [_ [-> | ->]]; set_solver. }
  destruct (first_failing (finished_job y) (swapped y)) as [Hall|(l1 & i & l2 & E & H1 & H2)];
    [|apply (Hrun i); by eapply oldest_enabled].
  assert (Hend : (job_phase jb = Finished \/ exists err, job_phase jb = Failed err) ->
    exists y', regular_step y y' /\ (total_weight y' < total_weight y)%nat /\ swapped y ⊆ swapped y').
  { intros Hp. assert (Hl : job_locked jb = true).
    { destruct (job_locked jb) eqn:E; [done|]. destruct Hover. by split. }
    eexists. split; [|split; [by apply unlock_decreases|done]].
    eexists. split; [|apply (step_unlock y j jb Hj Hl)]; [done|].
    unfold may_unlock. by destruct Hp as [->|[err ->]]. }
  destruct (has_swapped (job_phase jb)) eqn:Hs.
  - apply Hend. left. destruct (Hall j) as (b & Hb & Hp); [|congruence].
    apply (inv_swapped _ I). by exists jb.
  - destruct (job_phase jb) as [?|?| |?| |?|?| |err] eqn:Hp; try discriminate Hs;
      try (apply (Hrun j); apply (setup_enabled y j jb); rewrite ?Hp; done).
    apply Hend. right. by exists err.
Qed.

Lemma rest_of_work y :
  (armed y <> ∅ \/ exists j jb, jobs y !! j = Some jb /\ ~ job_over jb)
  \/ (armed y = ∅ /\ forall j jb, jobs y !! j = Some jb -> job_over jb).
Proof.
  assert (Hdec : forall jb, Decision (job_over jb)).
  { intros jb. unfold job_over. apply and_dec; [|apply _].
    destruct (job_phase jb); try (right; by intros [?|[? ?]]); [left; by left|left; right; by eexists]. }
  destruct (decide (armed y = ∅)) as [Ha|Ha]; [|by left; left].
  destruct (decide (map_Forall (fun _ jb => job_over jb) (jobs y))) as [Hj|Hj].
  - right. split; [done|]. intros j jb Hb. by apply (Hj j).
  - left. right. apply map_not_Forall in Hj as (j & jb & ? & ?); [by exists j, jb|apply _].
Qed.

(** C6: No deadlock, whatever is under way: waiting for what is already on its way -
    the completions of older commits, the fences of the new framebuffers, of which it is
    assumed that each signals, the events the driver holds, locks to be
    dropped - brings every commit to its end with no timeout and no signal.
    Those that had been swapped in have then programmed the hardware, shown
    their flips and been cleaned up. *)
Theorem commits_complete y :
  commit_reachable y ->
  exists y', rtc regular_step y y' /\ armed y' = ∅
  /\ (forall j jb, jobs y' !! j = Some jb -> job_over jb)
  /\ forall j, j ∈ swapped y -> exists jb, jobs y' !! j = Some jb /\ job_phase jb = Finished
     /\ forall k, k ∈ own_commits j (job_state jb) ->
        k ∈ hw_done y' /\ k ∈ flip_done y' /\ k ∈ cleanup_done y'.
Proof.
  intros Hy%commit_reachable_inv. remember (total_weight y) as n eqn:En. revert y Hy En.
  induction (lt_wf n) as [n _ IH]. intros y I ->.
  destruct (rest_of_work y) as [Hrest|[Ha Hover]].
  - destruct (commit_progress y I Hrest) as (y1 & Hstep & Hlt & Hsub).
    destruct (IH _ Hlt y1) as (y2 & Hrtc & H1 & H2 & H3); [|done|].
    { destruct Hstep as (l & _ & Hs). by eapply commit_step_inv. }
    exists y2. split; [by eapply rtc_l|]. split_and!; try done. intros j Hj. by apply H3, Hsub.
  - exists y. split; [done|]. split_and!; try done.
    intros j (jb & Hj & Hs)%(inv_swapped _ I). exists jb.
    assert (Hp : job_phase jb = Finished).
    { destruct (Hover j jb Hj) as [[Hp|[err Hp]] _]; [done|]. by rewrite Hp in Hs. }
    split_and!; try done. intros k Hk. destruct (finished_signalled y j jb k) as (? & ? & ?); auto.
Qed.

(** ** Concrete runs *)

Fixpoint run_steps (y : commit_sys) (l : list (nat * outcome)) : option commit_sys :=
  match l with
  | [] => Some y
  | (j, r) :: l => match job_step y j r with Some y => run_steps y l | None => None end
  end.

Lemma run_steps_reachable l : forall y y',
  commit_reachable y -> run_steps y l = Some y' -> commit_reachable y'.
Proof.
  induction l as [|[j r] l IH]; intros y y' Hy; cbn; [by intros [= <-]|].
  destruct (job_step y j r) as [y1|] eqn:E; [|done]. apply IH.
  eapply reach_next; [done|by apply (step_job y j r)].
Qed.

(** [n] steps of one job, none of which fails. *)
Definition after (y : commit_sys) (j n : nat) : commit_sys :=
  default y (run_steps y (replicate n (j, Proceed))).

Lemma after_reachable y j n :
  commit_reachable y -> is_Some (run_steps y (replicate n (j, Proceed))) ->
  commit_reachable (after y j n).
Proof.
  intros Hy [y' E]. unfold after. rewrite E. by eapply run_steps_reachable.
Qed.

Definition may_start (y : commit_sys) (ac : drm_atomic_commit) : bool :=
  forallb (fun ijb => negb (job_locked ijb.2)
                      || forallb (fun o => bool_decide (new_commit 0 (job_state ijb.2) o = None)) (objects ac))
    (map_to_list (jobs y)).

Lemma may_start_reachable y j ac nonblock :
  commit_reachable y -> jobs y !! j = None -> ac_wf ac -> may_start y ac = true ->
  commit_reachable (drm_atomic_helper_commit y j ac nonblock).
Proof.
  intros Hy Hj Hw Hs. eapply reach_next; [done|apply step_start; [done|done|]].
  intros i jb o Hi Hl Ht Ht'. unfold may_start in Hs. rewrite forallb_forall in Hs.
  apply elem_of_map_to_list, list_elem_of_In in Hi. specialize (Hs _ Hi). cbn in Hs. rewrite Hl in Hs. cbn in Hs.
  rewrite forallb_forall in Hs. apply touches_objects, list_elem_of_In in Ht. specialize (Hs _ Ht).
  apply bool_decide_eq_true in Hs. destruct Ht' as [k Hk]. by rewrite Hs in Hk.
Qed.

(** A page flip on a CRTC with its plane and connector. *)
Definition flip_of (c : nat) : drm_atomic_commit :=
  mkac [mkcu c true true true] [mklu c (Some c) (Some c)] [mklu c (Some c) (Some c)] false.

Lemma flip_wf c : ac_wf (flip_of c).
Proof.
  split; [apply NoDup_singleton|]. intros l c' Hl. cbn in Hl.
  apply elem_of_cons in Hl as [->|Hl%list_elem_of_singleton]; [|subst l]; cbn; intros [[= <-]|[= <-]]; left.
Qed.

(** The start of a commit whose framebuffers are ready. *)
Definition ready (y : commit_sys) (j : nat) : commit_sys :=
  {| y with signalled := {[j]} ∪ signalled y |}.

Lemma ready_reachable y j :
  commit_reachable y -> j ∈ dom (jobs y) -> j ∉ signalled y -> commit_reachable (ready y j).
Proof. intros Hy Hj Hn. eapply reach_next; [done|by apply step_fences]. Qed.

Definition commit_ready (y : commit_sys) (j : nat) (ac : drm_atomic_commit) (nonblock : bool)
  : commit_sys := ready (drm_atomic_helper_commit y j ac nonblock) j.

(** Two nonblocking flips on different CRTCs that program the hardware at once. *)
Definition run1 : commit_sys := after (commit_ready commit_sys0 0 (flip_of 0) true) 0 10.
Definition run2 : commit_sys := after (commit_ready run1 1 (flip_of 1) true) 1 10.

Lemma commit_ready_reachable y j ac nonblock :
  commit_reachable y -> jobs y !! j = None -> bool_decide (j ∉ signalled y) = true -> ac_wf ac ->
  may_start y ac = true -> commit_reachable (commit_ready y j ac nonblock).
Proof.
  intros Hy Hj Hn%bool_decide_eq_true Hw Hs. apply ready_reachable; [by apply may_start_reachable| |done].
  unfold drm_atomic_helper_commit. cbn. set_solver.
Qed.

Lemma run2_reachable : commit_reachable run1 /\ commit_reachable run2.
Proof.
  assert (H1 : commit_reachable run1).
  { apply after_reachable; [|by vm_compute; eexists].
    apply commit_ready_reachable; [apply reach_init|done|by vm_compute|apply flip_wf|done]. }
  split; [done|]. apply after_reachable; [|by vm_compute; eexists].
  apply commit_ready_reachable; [done|by vm_compute|by vm_compute|apply flip_wf|by vm_compute].
Qed.

Definition unlock (y : commit_sys) (j : nat) : commit_sys :=
  match jobs y !! j with Some jb => set_job y j {| jb with job_locked := false |} | None => y end.

Lemma unlock_reachable y j :
  commit_reachable y -> (jb ← jobs y !! j; Some (job_locked jb && may_unlock jb)) = Some true ->
  commit_reachable (unlock y j).
Proof.
  intros Hy. unfold unlock. destruct (jobs y !! j) as [jb|] eqn:Hj; [|done].
  intros [= [H1 H2]%andb_true_iff]. eapply reach_next; [done|by apply step_unlock].
Qed.

Definition send (y : commit_sys) (k : commit_id) : commit_sys :=
  {| y with flip_done := {[k]} ∪ flip_done y; armed := armed y ∖ {[k]} |}.

Lemma send_reachable y k : commit_reachable y -> k ∈ armed y -> commit_reachable (send y k).
Proof. intros Hy Hk. eapply reach_next; [done|by apply step_event]. Qed.

(** The first flip is programmed and its event sent, and a second one, blocking, has
    got to the hardware; and a second one that comes too early. *)
Definition run3 : commit_sys := unlock run1 0.
Definition run4 : commit_sys := send (after run3 0 6) (0%nat, Some 0%nat).
Definition run5 : commit_sys := after (commit_ready run4 2 (flip_of 0) false) 2 20.
Definition run6 : commit_sys := after (commit_ready run3 3 (flip_of 0) true) 3 2.

Lemma run6_reachable : commit_reachable run5 /\ commit_reachable run6.
Proof.
  assert (H3 : commit_reachable run3) by (apply unlock_reachable; [apply run2_reachable|by vm_compute]).
  split.
  - apply after_reachable; [|by vm_compute; eexists].
    apply commit_ready_reachable; [|by vm_compute|by vm_compute|apply flip_wf|by vm_compute].
    apply send_reachable; [|by vm_compute]. apply after_reachable; [done|by vm_compute; eexists].
  - apply after_reachable; [|by vm_compute; eexists].
    apply commit_ready_reachable; [done|by vm_compute|by vm_compute|apply flip_wf|by vm_compute].
Qed.

Definition job_of (y : commit_sys) (j : nat) : commit_job :=
  default (mkjob (flip_of 0) true (fun _ => None) Finished false false) (jobs y !! j).

Lemma no_timeouts_check y :
  forallb (fun ijb => negb (job_timeout ijb.2)) (map_to_list (jobs y)) = true -> no_timeouts y.
Proof.
  intros H j jb Hj. rewrite forallb_forall in H. apply elem_of_map_to_list, list_elem_of_In in Hj.
  specialize (H _ Hj). by apply negb_true_iff in H.
Qed.

Lemma commit_hw_exclusive_witness :
  job_phase (job_of run2 0) = Hardware /\ job_phase (job_of run2 1) = Hardware
  /\ ~ touches (job_state (job_of run2 1)) (PlaneObj 0).
Proof.
  split; [by vm_compute|]. split; [by vm_compute|].
  apply (commit_hw_exclusive run2 0 1 (job_of run2 0) (job_of run2 1) (PlaneObj 0) (proj2 run2_reachable));
    [discriminate|by vm_compute..|]. vm_compute. by eexists.
Defined.

Lemma commit_flips_in_order_witness :
  (0%nat, Some 0%nat) ∈ hw_done run5 /\ (0%nat, Some 0%nat) ∈ flip_done run5.
Proof.
  apply (commit_flips_in_order run5 (CrtcObj 0) [] (2%nat, Some 0%nat) [(0%nat, Some 0%nat)] (job_of run5 2)
    (0%nat, Some 0%nat) (proj1 run6_reachable));
    [by apply no_timeouts_check; vm_compute|by vm_compute..|by left].
Defined.

Lemma commit_backlog_witness :
  (length (filter (fun k => k ∉ cleanup_done run5) (commit_list run5 0)) <= 2)%nat.
Proof.
  apply commit_backlog; [apply run6_reachable|by apply no_timeouts_check; vm_compute].
Defined.

Lemma commit_failure_clean_witness :
  (3%nat, Some 0%nat) ∉ commit_list run6 0.
Proof.
  intros H.
  destruct (commit_failure_clean run6 3 (job_of run6 3) (- EBUSY) (proj2 run6_reachable))
    as (_ & _ & Hl & _); [by vm_compute..|]. by apply (Hl _ _ H).
Defined.

Lemma commits_complete_witness :
  exists y', rtc regular_step run2 y' /\ forall j, j ∈ [0%nat; 1%nat] -> finished_job y' j.
Proof.
  destruct (commits_complete run2 (proj2 run2_reachable)) as (y' & H1 & _ & _ & H2).
  exists y'. split; [exact H1|]. intros j Hj. destruct (H2 j) as (jb & Hb & Hp & _).
  - assert (E : swapped run2 = [0%nat; 1%nat]) by (by vm_compute). rewrite E. exact Hj.
  - by exists jb.
Defined.
