(* ===== verification/DrmCommit.v ===== *)
(** * DrmCommit: how an atomic commit programs the display
      (src/drm/drm_atomic_helper.c, the commit_tail helpers)

    The helpers decide from the old and new states which hooks of the drivers
    they call, and in which order; nothing a hook does changes the decision.  So
    each helper is a function to a list of calls, and what a commit does to a
    device is the run of its calls.  The [dpms] fallbacks are among the hooks;
    the legacy pointers and the timestamping constants are one call each. *)

From S2P Require Export Prelude.

(** ** States *)

(** What the helpers read of [struct drm_crtc_state]. *)
Record crtc_state := mkst {
  st_enable : bool; st_active : bool; st_self_refresh_active : bool;
  st_mode_changed : bool; st_active_changed : bool; st_connectors_changed : bool;
  st_no_vblank : bool
}.

(** The old and the new state of a CRTC, of a connector - [cn_writeback]: it has a
    writeback job with a framebuffer - and of a plane. *)
Record crtc_entry := mkce { ce_id : nat; ce_old : crtc_state; ce_new : crtc_state }.
Record conn_entry := mkcn {
  cn_id : nat;
  cn_old_crtc : option nat; cn_new_crtc : option nat;
  cn_old_encoder : option nat; cn_new_encoder : option nat;
  cn_writeback : bool
}.
Record plane_entry := mkpe { pe_id : nat; pe_old_crtc : option nat; pe_new_crtc : option nat }.

Record atomic_update := mkau {
  au_crtcs : list crtc_entry; au_connectors : list conn_entry; au_planes : list plane_entry;
  au_legacy_cursor : bool
}.

(** The inline functions of the DRM headers, with their documented meaning. *)
Class AtomicInlines := {
  drm_atomic_crtc_needs_modeset : crtc_state -> bool;
  drm_atomic_crtc_effectively_active : crtc_state -> bool;
  (** of the CRTCs of the old and the new plane state *)
  drm_atomic_plane_disabling : option nat -> option nat -> bool;
  drm_atomic_plane_enabling : option nat -> option nat -> bool
}.

Class AtomicInlinesLaws `{!AtomicInlines} : Prop := {
  needs_modeset_spec st :
    drm_atomic_crtc_needs_modeset st
    = st_mode_changed st || st_active_changed st || st_connectors_changed st;
  effectively_active_spec st :
    drm_atomic_crtc_effectively_active st = st_active st || st_self_refresh_active st;
  plane_disabling_spec o n :
    drm_atomic_plane_disabling o n = bool_decide (is_Some o) && bool_decide (n = None);
  plane_enabling_spec o n :
    drm_atomic_plane_enabling o n = bool_decide (o = None) && bool_decide (is_Some n)
}.

(** ** The drivers' hooks *)

(** Which hooks a driver has: its CRTC, encoder and plane helper tables (an
    encoder and a plane may have none). *)
Record crtc_hooks := mkch {
  ch_prepare : bool; ch_atomic_disable : bool; ch_disable : bool; ch_dpms : bool;
  ch_mode_set_nofb : bool; ch_atomic_enable : bool; ch_commit : bool;
  ch_atomic_begin : bool; ch_atomic_flush : bool
}.
Record encoder_hooks := mkeh {
  eh_atomic_disable : bool; eh_prepare : bool; eh_disable : bool; eh_dpms : bool;
  eh_atomic_mode_set : bool; eh_mode_set : bool;
  eh_atomic_enable : bool; eh_enable : bool; eh_commit : bool
}.
Record plane_hooks := mkph {
  ph_atomic_disable : bool; ph_atomic_enable : bool; ph_end_fb_access : bool; ph_cleanup_fb : bool
}.
Record commit_driver := mkcd {
  cd_crtc : nat -> crtc_hooks;
  cd_encoder : nat -> option encoder_hooks;
  cd_plane : nat -> option plane_hooks;
  cd_writeback_commit : nat -> bool;
  cd_has_vblank : bool
}.

Inductive hook : Set :=
| prepare | atomic_disable | disable | dpms_off | mode_set | atomic_mode_set
| atomic_enable | enable | commit.

(** Calls that leave the helpers.  An encoder's calls come with the CRTC it is
    driven by. *)
Inductive commit_call : Set :=
| BridgeChainDisable (e c : nat)
| EncoderDisable (e c : nat) (h : hook)
| BridgeChainPostDisable (e c : nat)
| CrtcDisable (c : nat) (h : hook)
(** the check that the driver has switched vblanks off *)
| CheckVblankOff (c : nat) (self_refresh : bool)
| UpdateLegacyModesetState
| CalcTimestampingConstants (c : nat)
| CrtcModeSet (c : nat)
| EncoderModeSet (e c : nat) (h : hook)
| BridgeChainModeSet (e c : nat)
| CrtcBegin (c : nat)
| PlaneDisable (p c : nat)
| PlaneUpdate (p : nat) (old new : option nat)
| PlaneEnable (p c : nat)
| CrtcFlush (c : nat)
| PlaneEndFbAccess (p : nat)
| CrtcEnable (c : nat) (h : hook)
| BridgeChainPreEnable (e c : nat)
| EncoderEnable (e c : nat) (h : hook)
| BridgeChainEnable (e c : nat)
| WritebackCommit (n : nat)
| SendFakeVblank (c : nat)
| CommitHwDone
| WaitForVblanks (cs : list nat)
| PlaneCleanupFb (p : nat).

#[export] Instance hook_eq_dec : EqDecision hook.
Proof. solve_decision. Defined.
#[export] Instance commit_call_eq_dec : EqDecision commit_call.
Proof. solve_decision. Defined.

(** ** The helpers *)

Section Helpers.
Context `{!AtomicInlines} (d : commit_driver) (u : atomic_update).

Definition find_crtc (c : nat) : option crtc_entry := find (fun x => Nat.eqb (ce_id x) c) (au_crtcs u).

(** [drm_atomic_get_old_crtc_state] and [drm_atomic_get_new_crtc_state]; the latter
    is [crtc->state] once the states have been swapped, since an update holds the
    CRTCs of its planes and connectors ([uo_old], [uo_new], [uo_plane] below). *)
Definition old_crtc_state (c : nat) : option crtc_state := ce_old <$> find_crtc c.
Definition new_crtc_state (c : nat) : option crtc_state := ce_new <$> find_crtc c.

Definition needs_modeset (c : nat) : bool :=
  match new_crtc_state c with Some st => drm_atomic_crtc_needs_modeset st | None => false end.
Definition is_active (c : nat) : bool :=
  match new_crtc_state c with Some st => st_active st | None => false end.

(** With the CRTCs that the states belong to. *)
Definition crtc_needs_disable (old_crtc : nat) (old : crtc_state) (new : option (nat * crtc_state)) : bool :=
  match new with
  | None => drm_atomic_crtc_effectively_active old
  | Some (new_crtc, new) =>
      if st_self_refresh_active old && negb (Nat.eqb old_crtc new_crtc) then true
      else st_active old || (st_self_refresh_active old && negb (st_active new))
           || st_self_refresh_active new
  end.

(** The encoder of a connector whose output is to be shut down, with the CRTC. *)
Definition shut_down (cn : conn_entry) : option (nat * nat) :=
  c ← cn_old_crtc cn;
  old ← old_crtc_state c;
  let new := c' ← cn_new_crtc cn; st ← new_crtc_state c'; Some (c', st) in
  if negb (crtc_needs_disable c old new) || negb (needs_modeset c) then None
  else e ← cn_old_encoder cn; Some (e, c).

Definition encoder_off (e c : nat) (still_used : bool) : list commit_call :=
  match cd_encoder d e with
  | None => []
  | Some h =>
      if eh_atomic_disable h then [EncoderDisable e c atomic_disable]
      else if still_used && eh_prepare h then [EncoderDisable e c prepare]
      else if eh_disable h then [EncoderDisable e c disable]
      else if eh_dpms h then [EncoderDisable e c dpms_off]
      else []
  end.

Definition drm_atomic_helper_commit_encoder_bridge_disable : list commit_call :=
  au_connectors u ≫= fun cn =>
    match shut_down cn with
    | None => []
    | Some (e, c) => BridgeChainDisable e c :: encoder_off e c (bool_decide (is_Some (cn_new_crtc cn)))
    end.

Definition drm_atomic_helper_commit_encoder_bridge_post_disable : list commit_call :=
  au_connectors u ≫= fun cn =>
    match shut_down cn with None => [] | Some (e, c) => [BridgeChainPostDisable e c] end.

Definition crtc_off (c : nat) (st : crtc_state) : list commit_call :=
  let h := cd_crtc d c in
  if st_enable st && ch_prepare h then [CrtcDisable c prepare]
  else if ch_atomic_disable h then [CrtcDisable c atomic_disable]
  else if ch_disable h then [CrtcDisable c disable]
  else if ch_dpms h then [CrtcDisable c dpms_off]
  else [].

Definition drm_atomic_helper_commit_crtc_disable : list commit_call :=
  au_crtcs u ≫= fun x =>
    let c := ce_id x in
    if negb (drm_atomic_crtc_needs_modeset (ce_new x)) then []
    else if negb (crtc_needs_disable c (ce_old x) (Some (c, ce_new x))) then []
    else crtc_off c (ce_new x)
         ++ (if cd_has_vblank d then [CheckVblankOff c (st_self_refresh_active (ce_new x))] else []).

Definition disable_outputs : list commit_call :=
  drm_atomic_helper_commit_encoder_bridge_disable
  ++ drm_atomic_helper_commit_encoder_bridge_post_disable
  ++ drm_atomic_helper_commit_crtc_disable.

Definition drm_atomic_helper_calc_timestamping_constants : list commit_call :=
  au_crtcs u ≫= fun x => if st_enable (ce_new x) then [CalcTimestampingConstants (ce_id x)] else [].

Definition encoder_mode_set (e c : nat) : list commit_call :=
  match cd_encoder d e with
  | None => []
  | Some h =>
      if eh_atomic_mode_set h then [EncoderModeSet e c atomic_mode_set]
      else if eh_mode_set h then [EncoderModeSet e c mode_set]
      else []
  end.

Definition drm_atomic_helper_commit_crtc_set_mode : list commit_call :=
  (au_crtcs u ≫= fun x =>
     if negb (st_mode_changed (ce_new x)) then []
     else if st_enable (ce_new x) && ch_mode_set_nofb (cd_crtc d (ce_id x)) then [CrtcModeSet (ce_id x)]
     else [])
  ++ (au_connectors u ≫= fun cn =>
        match cn_new_encoder cn, cn_new_crtc cn with
        | Some e, Some c =>
            match new_crtc_state c with
            | Some st =>
                if negb (st_mode_changed st) && negb (st_connectors_changed st) then []
                else encoder_mode_set e c ++ [BridgeChainModeSet e c]
            | None => []
            end
        | _, _ => []
        end).

Definition drm_atomic_helper_commit_modeset_disables : list commit_call :=
  disable_outputs
  ++ [UpdateLegacyModesetState]
  ++ drm_atomic_helper_calc_timestamping_constants
  ++ drm_atomic_helper_commit_crtc_set_mode.

Definition drm_atomic_helper_commit_writebacks : list commit_call :=
  au_connectors u ≫= fun cn =>
    if negb (cd_writeback_commit d (cn_id cn)) then []
    else if cn_writeback cn then [WritebackCommit (cn_id cn)] else [].

(** The encoder of a connector whose output is to be brought up, with the CRTC. *)
Definition bring_up (cn : conn_entry) : option (nat * nat) :=
  e ← cn_new_encoder cn;
  c ← cn_new_crtc cn;
  if negb (is_active c) || negb (needs_modeset c) then None else Some (e, c).

Definition drm_atomic_helper_commit_encoder_bridge_pre_enable : list commit_call :=
  au_connectors u ≫= fun cn =>
    match bring_up cn with None => [] | Some (e, c) => [BridgeChainPreEnable e c] end.

Definition drm_atomic_helper_commit_crtc_enable : list commit_call :=
  au_crtcs u ≫= fun x =>
    let c := ce_id x in
    if negb (drm_atomic_crtc_needs_modeset (ce_new x)) then []
    else if negb (st_active (ce_new x)) then []
    else if st_enable (ce_new x) then
      if ch_atomic_enable (cd_crtc d c) then [CrtcEnable c atomic_enable]
      else if ch_commit (cd_crtc d c) then [CrtcEnable c commit]
      else []
    else [].

Definition encoder_on (e c : nat) : list commit_call :=
  match cd_encoder d e with
  | None => []
  | Some h =>
      if eh_atomic_enable h then [EncoderEnable e c atomic_enable]
      else if eh_enable h then [EncoderEnable e c enable]
      else if eh_commit h then [EncoderEnable e c commit]
      else []
  end.

Definition drm_atomic_helper_commit_encoder_bridge_enable : list commit_call :=
  au_connectors u ≫= fun cn =>
    match bring_up cn with None => [] | Some (e, c) => encoder_on e c ++ [BridgeChainEnable e c] end.

Definition drm_atomic_helper_commit_modeset_enables : list commit_call :=
  drm_atomic_helper_commit_crtc_enable
  ++ drm_atomic_helper_commit_encoder_bridge_pre_enable
  ++ drm_atomic_helper_commit_encoder_bridge_enable
  ++ drm_atomic_helper_commit_writebacks.

(** [state->crtc && state->crtc->state->active]. *)
Definition plane_crtc_active (c : option nat) : bool :=
  match c with Some c => is_active c | None => false end.

Definition commit_plane (active_only no_disable : bool) (p : plane_entry) : list commit_call :=
  let disabling := drm_atomic_plane_disabling (pe_old_crtc p) (pe_new_crtc p) in
  match cd_plane d (pe_id p) with
  | None => []
  | Some h =>
      if active_only && negb disabling && negb (plane_crtc_active (pe_new_crtc p)) then []
      else if active_only && disabling && negb (plane_crtc_active (pe_old_crtc p)) then []
      else if disabling && ph_atomic_disable h then
        match pe_old_crtc p with
        | Some c => if needs_modeset c && no_disable then [] else [PlaneDisable (pe_id p) c]
        | None => []
        end
      else if bool_decide (is_Some (pe_new_crtc p)) || disabling then
        PlaneUpdate (pe_id p) (pe_old_crtc p) (pe_new_crtc p)
        :: (if negb disabling && ph_atomic_enable h
            then match pe_new_crtc p with
                 | Some c => if drm_atomic_plane_enabling (pe_old_crtc p) (pe_new_crtc p)
                             then [PlaneEnable (pe_id p) c] else []
                 | None => []
                 end
            else [])
      else []
  end.

Definition drm_atomic_helper_commit_planes (active_only no_disable : bool) : list commit_call :=
  (au_crtcs u ≫= fun x =>
     if negb (ch_atomic_begin (cd_crtc d (ce_id x))) then []
     else if active_only && negb (st_active (ce_new x)) then [] else [CrtcBegin (ce_id x)])
  ++ (au_planes u ≫= commit_plane active_only no_disable)
  ++ (au_crtcs u ≫= fun x =>
        if negb (ch_atomic_flush (cd_crtc d (ce_id x))) then []
        else if active_only && negb (st_active (ce_new x)) then [] else [CrtcFlush (ce_id x)])
  ++ (au_planes u ≫= fun p =>
        match cd_plane d (pe_id p) with
        | Some h => if ph_end_fb_access h then [PlaneEndFbAccess (pe_id p)] else []
        | None => []
        end).

(** Those whose state asks for it; an event is sent if there still is one. *)
Definition drm_atomic_helper_fake_vblank : list commit_call :=
  au_crtcs u ≫= fun x => if st_no_vblank (ce_new x) then [SendFakeVblank (ce_id x)] else [].

(** The CRTCs whose vblank is waited for, if the vblank can be had. *)
Definition drm_atomic_helper_wait_for_vblanks : list commit_call :=
  if au_legacy_cursor u then []
  else [WaitForVblanks (ce_id <$> filter (fun x => st_active (ce_new x) = true) (au_crtcs u))].

Definition drm_atomic_helper_cleanup_planes : list commit_call :=
  au_planes u ≫= fun p =>
    match cd_plane d (pe_id p) with
    | Some h => if ph_cleanup_fb h then [PlaneCleanupFb (pe_id p)] else []
    | None => []
    end.

Definition drm_atomic_helper_commit_tail : list commit_call :=
  drm_atomic_helper_commit_modeset_disables
  ++ drm_atomic_helper_commit_planes false false
  ++ drm_atomic_helper_commit_modeset_enables
  ++ drm_atomic_helper_fake_vblank
  ++ [CommitHwDone]
  ++ drm_atomic_helper_wait_for_vblanks
  ++ drm_atomic_helper_cleanup_planes.

Definition drm_atomic_helper_commit_tail_rpm : list commit_call :=
  drm_atomic_helper_commit_modeset_disables
  ++ drm_atomic_helper_commit_modeset_enables
  ++ drm_atomic_helper_commit_planes true false
  ++ drm_atomic_helper_fake_vblank
  ++ [CommitHwDone]
  ++ drm_atomic_helper_wait_for_vblanks
  ++ drm_atomic_helper_cleanup_planes.
End Helpers.

(** ** The protocol of a display pipeline *)

(** How far an encoder, with its bridges, has got. *)
Inductive enc_stage : Set := Stopping | Ready | Running.

#[export] Instance enc_stage_eq_dec : EqDecision enc_stage.
Proof. solve_decision. Defined.

(** The CRTCs that scan out, and the encoders that are not off with the CRTC that
    drives them. *)
Record pipeline := mkpl { pl_on : gset nat; pl_enc : gmap nat (enc_stage * nat) }.

Definition free_of_encoders (P : pipeline) (c : nat) : bool :=
  bool_decide (map_Forall (fun _ x => x.2 <> c) (pl_enc P)).

Definition set_enc (P : pipeline) (e : nat) (x : option (enc_stage * nat)) : pipeline :=
  {| P with pl_enc := partial_alter (fun _ => x) e (pl_enc P) |}.

(** An encoder goes from stage [a] to stage [b], which needs its CRTC to run. *)
Definition enc_step (P : pipeline) (e c : nat) (a b : option (enc_stage * nat)) : option pipeline :=
  if bool_decide (c ∈ pl_on P) && bool_decide (pl_enc P !! e = a) then Some (set_enc P e b) else None.

Definition when (b : bool) (P : pipeline) : option pipeline := if b then Some P else None.

(** What is allowed, and what it does: an encoder is brought up and taken down stage
    by stage while its CRTC runs; a CRTC is only switched on when off, and only
    off when on and with no encoder left on it; modes are set on what is off.  With
    [planes_need_crtc], planes are only touched while their CRTC runs. *)
Definition pipe_step (planes_need_crtc : bool) (P : pipeline) (k : commit_call) : option pipeline :=
  match k with
  | BridgeChainDisable e c => enc_step P e c (Some (Running, c)) (Some (Stopping, c))
  | EncoderDisable e c _ => enc_step P e c (Some (Stopping, c)) (Some (Stopping, c))
  | BridgeChainPostDisable e c => enc_step P e c (Some (Stopping, c)) None
  | CrtcDisable c _ =>
      if bool_decide (c ∈ pl_on P) && free_of_encoders P c
      then Some {| P with pl_on := pl_on P ∖ {[c]} |} else None
  | CheckVblankOff c self_refresh => when (self_refresh || bool_decide (c ∉ pl_on P)) P
  | CrtcModeSet c => when (bool_decide (c ∉ pl_on P)) P
  | EncoderModeSet e c _ | BridgeChainModeSet e c =>
      when (bool_decide (c ∉ pl_on P) && bool_decide (pl_enc P !! e = None)) P
  | CrtcEnable c _ =>
      if bool_decide (c ∉ pl_on P) then Some {| P with pl_on := {[c]} ∪ pl_on P |} else None
  | BridgeChainPreEnable e c => enc_step P e c None (Some (Ready, c))
  | EncoderEnable e c _ => enc_step P e c (Some (Ready, c)) (Some (Ready, c))
  | BridgeChainEnable e c => enc_step P e c (Some (Ready, c)) (Some (Running, c))
  | CrtcBegin c | CrtcFlush c | PlaneDisable _ c | PlaneEnable _ c
  | PlaneUpdate _ _ (Some c) | PlaneUpdate _ (Some c) None =>
      when (negb planes_need_crtc || bool_decide (c ∈ pl_on P)) P
  | PlaneUpdate _ None None => when (negb planes_need_crtc) P
  | UpdateLegacyModesetState | CalcTimestampingConstants _ | PlaneEndFbAccess _ | WritebackCommit _
  | SendFakeVblank _ | CommitHwDone | WaitForVblanks _ | PlaneCleanupFb _ => Some P
  end.

Fixpoint pipe_run (b : bool) (P : pipeline) (l : list commit_call) : option pipeline :=
  match l with
  | [] => Some P
  | k :: l => match pipe_step b P k with Some P => pipe_run b P l | None => None end
  end.

Lemma pipe_run_app b P l l' :
  pipe_run b P (l ++ l') = (P' ← pipe_run b P l; pipe_run b P' l').
Proof.
  revert P. induction l as [|k l IH]; intros P; cbn; [done|].
  destruct (pipe_step b P k); [apply IH|done].
Qed.

(** *** Runs over lists *)

(** One after the other, on encoders that differ. *)
Section RunEncoders.
Context {A : Type} (b : bool) (f : A -> list commit_call) (key : A -> option (nat * nat))
  (from to : nat -> option (enc_stage * nat)).

Definition enc_item (P : pipeline) (x : A) : Prop :=
  match key x with
  | None => pipe_run b P (f x) = Some P
  | Some (e, c) =>
      forall m, m !! e = from c ->
      pipe_run b (mkpl (pl_on P) m) (f x) = Some (mkpl (pl_on P) (partial_alter (fun _ => to c) e m))
  end.

Lemma run_encoders l : forall P,
  (forall x Q, x ∈ l -> pl_on Q = pl_on P -> enc_item Q x) ->
  NoDup ((omap key l).*1) ->
  (forall e c, (e, c) ∈ omap key l -> pl_enc P !! e = from c) ->
  exists P', pipe_run b P (l ≫= f) = Some P' /\ pl_on P' = pl_on P
  /\ (forall e c, (e, c) ∈ omap key l -> pl_enc P' !! e = to c)
  /\ (forall e, e ∉ (omap key l).*1 -> pl_enc P' !! e = pl_enc P !! e).
Proof.
  induction l as [|x l IH]; intros P Hx Hnd Hfrom.
  { exists P. cbn. split_and!; try done. by intros e c ?%not_elem_of_nil. }
  rewrite bind_cons, pipe_run_app. pose proof (Hx x P ltac:(left) eq_refl) as Hi. unfold enc_item in Hi.
  destruct (key x) as [[e c]|] eqn:Ek; cbn in Hnd, Hfrom |- *; rewrite Ek in Hnd, Hfrom |- *.
  - assert (Hm : pl_enc P !! e = from c) by (apply Hfrom; left).
    destruct P as [on m]. cbn in *. rewrite (Hi m Hm). cbn. apply NoDup_cons in Hnd as [Hni Hnd].
    destruct (IH (mkpl on (partial_alter (fun _ => to c) e m))) as (P' & H1 & H2 & H3 & H4); try done.
    + intros z Q Hz HQ. apply Hx; [by right|done].
    + intros e' c' Hin. cbn. rewrite lookup_partial_alter_ne; [by apply Hfrom; right|].
      intros ->. apply Hni, list_elem_of_fmap. by exists (e', c').
    + exists P'. split_and!; try done.
      * intros e' c' [[= -> ->]|Hin]%elem_of_cons; [|by apply H3].
        rewrite H4 by done. cbn. by rewrite lookup_partial_alter_eq.
      * intros e' Hni'. apply not_elem_of_cons in Hni' as [Hne Hni'].
        rewrite H4 by done. cbn. by rewrite lookup_partial_alter_ne.
  - rewrite Hi. cbn. apply IH; try done. intros z Q Hz HQ. apply Hx; [by right|done].
Qed.
End RunEncoders.

(** Calls that change nothing. *)
Lemma run_idle {A} b (f : A -> list commit_call) P l :
  (forall x, x ∈ l -> pipe_run b P (f x) = Some P) -> pipe_run b P (l ≫= f) = Some P.
Proof.
  induction l as [|x l IH]; intros H; [done|]. rewrite bind_cons, pipe_run_app, (H x) by left.
  apply IH. intros z Hz. apply H. by right.
Qed.

(** CRTCs that are switched, each on its own. *)
Lemma run_crtcs {A} b (f : A -> list commit_call) (key : A -> nat) (sel : A -> bool) (up : bool) l : forall P,
  NoDup (key <$> l) ->
  (forall x Q, x ∈ l -> pl_enc Q = pl_enc P -> (key x ∈ pl_on Q <-> key x ∈ pl_on P) ->
     exists on, pipe_run b Q (f x) = Some (mkpl on (pl_enc Q))
     /\ (forall c, c <> key x -> (c ∈ on <-> c ∈ pl_on Q))
     /\ (key x ∈ on <-> if sel x then up = true else key x ∈ pl_on Q)) ->
  exists P', pipe_run b P (l ≫= f) = Some P' /\ pl_enc P' = pl_enc P
  /\ (forall x, x ∈ l -> (key x ∈ pl_on P' <-> if sel x then up = true else key x ∈ pl_on P))
  /\ (forall c, c ∉ key <$> l -> (c ∈ pl_on P' <-> c ∈ pl_on P)).
Proof.
  induction l as [|x l IH]; intros P Hnd Hx.
  { exists P. split_and!; try done. by intros x ?%not_elem_of_nil. }
  rewrite bind_cons, pipe_run_app. cbn in Hnd. apply NoDup_cons in Hnd as [Hni Hnd].
  destruct (Hx x P) as (on & Hr & Hother & Hself); [left|done|done|].
  rewrite Hr. cbn. destruct (IH (mkpl on (pl_enc P))) as (P' & H1 & H2 & H3 & H4); [done| |].
  - intros z Q Hz HQ Hon. apply Hx; [by right|done|]. rewrite Hon. cbn. apply Hother.
    intros E. apply Hni. rewrite <- E. apply list_elem_of_fmap. by exists z.
  - exists P'. split_and!; try done.
    + intros z [->|Hz]%elem_of_cons.
      * rewrite H4 by done. exact Hself.
      * rewrite (H3 z Hz). destruct (sel z); [done|]. cbn. apply Hother.
        intros E. apply Hni. rewrite <- E. apply list_elem_of_fmap. by exists z.
    + intros c Hc. cbn in Hc. apply not_elem_of_cons in Hc as [Hne Hc]. rewrite H4 by done. by apply Hother.
Qed.

(** ** Updates as the check leaves them *)

(** Nothing twice; no self-refresh; what [active] promises; CRTCs and encoders of
    connectors come in pairs, and a connector whose route changes has a full modeset
    on both sides. *)
Record update_ok `{!AtomicInlines} (u : atomic_update) : Prop := {
  uo_crtcs : NoDup (ce_id <$> au_crtcs u);
  uo_old_encoders : NoDup (omap cn_old_encoder (au_connectors u));
  uo_new_encoders : NoDup (omap cn_new_encoder (au_connectors u));
  uo_refresh x : x ∈ au_crtcs u ->
    st_self_refresh_active (ce_old x) = false /\ st_self_refresh_active (ce_new x) = false;
  uo_enable x : x ∈ au_crtcs u -> st_active (ce_new x) = true -> st_enable (ce_new x) = true;
  uo_active x : x ∈ au_crtcs u -> st_active (ce_old x) <> st_active (ce_new x) ->
    drm_atomic_crtc_needs_modeset (ce_new x) = true;
  uo_old cn c : cn ∈ au_connectors u -> cn_old_crtc cn = Some c ->
    is_Some (cn_old_encoder cn) /\ c ∈ ce_id <$> au_crtcs u;
  uo_new cn c : cn ∈ au_connectors u -> cn_new_crtc cn = Some c ->
    is_Some (cn_new_encoder cn) /\ c ∈ ce_id <$> au_crtcs u;
  uo_plane p c : p ∈ au_planes u -> pe_old_crtc p = Some c \/ pe_new_crtc p = Some c ->
    c ∈ ce_id <$> au_crtcs u;
  uo_new_crtc cn : cn ∈ au_connectors u -> is_Some (cn_new_encoder cn) -> is_Some (cn_new_crtc cn);
  uo_old_crtc cn : cn ∈ au_connectors u -> is_Some (cn_old_encoder cn) -> is_Some (cn_old_crtc cn);
  uo_routing cn c : cn ∈ au_connectors u ->
    (cn_old_crtc cn, cn_old_encoder cn) <> (cn_new_crtc cn, cn_new_encoder cn) ->
    cn_old_crtc cn = Some c \/ cn_new_crtc cn = Some c -> needs_modeset u c = true
}.

(** A driver that can switch its CRTCs. *)
Definition hooks_ok (d : commit_driver) (u : atomic_update) : Prop :=
  forall x, x ∈ au_crtcs u ->
    let h := cd_crtc d (ce_id x) in
    ch_atomic_disable h || ch_disable h || ch_dpms h = true /\ ch_atomic_enable h || ch_commit h = true.

(** The pipeline shows the old states, and the update holds every connector it
    concerns: those of a CRTC with a full modeset, and the one an encoder is taken
    from. *)
Record shows_old `{!AtomicInlines} (u : atomic_update) (P : pipeline) : Prop := {
  so_crtc x : x ∈ au_crtcs u -> (ce_id x ∈ pl_on P <-> st_active (ce_old x) = true);
  so_stable e s c : pl_enc P !! e = Some (s, c) -> s = Running /\ c ∈ pl_on P;
  so_conn cn c e : cn ∈ au_connectors u -> cn_old_crtc cn = Some c -> cn_old_encoder cn = Some e ->
    pl_enc P !! e = if decide (c ∈ pl_on P) then Some (Running, c) else None;
  so_all e s c : pl_enc P !! e = Some (s, c) -> needs_modeset u c = true ->
    exists cn, cn ∈ au_connectors u /\ cn_old_crtc cn = Some c /\ cn_old_encoder cn = Some e;
  so_taken cn e : cn ∈ au_connectors u -> cn_new_encoder cn = Some e -> is_Some (pl_enc P !! e) ->
    exists cn', cn' ∈ au_connectors u /\ cn_old_encoder cn' = Some e
}.

(** The pipeline shows the new states; what is not in the update is as in [P]. *)
Record shows_new (u : atomic_update) (P P' : pipeline) : Prop := {
  sn_crtc x : x ∈ au_crtcs u -> (ce_id x ∈ pl_on P' <-> st_active (ce_new x) = true);
  sn_other_crtc c : c ∉ ce_id <$> au_crtcs u -> (c ∈ pl_on P' <-> c ∈ pl_on P);
  sn_conn cn c e : cn ∈ au_connectors u -> cn_new_crtc cn = Some c -> cn_new_encoder cn = Some e ->
    pl_enc P' !! e = if decide (c ∈ pl_on P') then Some (Running, c) else None;
  sn_left e : e ∈ omap cn_old_encoder (au_connectors u) -> e ∉ omap cn_new_encoder (au_connectors u) ->
    pl_enc P' !! e = None;
  sn_other e : e ∉ omap cn_old_encoder (au_connectors u) -> e ∉ omap cn_new_encoder (au_connectors u) ->
    pl_enc P' !! e = pl_enc P !! e
}.

Lemma find_NoDup {A} (key : A -> nat) (l : list A) x :
  NoDup (key <$> l) -> x ∈ l -> find (fun y => Nat.eqb (key y) (key x)) l = Some x.
Proof.
  induction l as [|y l IH]; cbn; [by intros _ ?%not_elem_of_nil|].
  intros [Hn Hd]%NoDup_cons [->|Hx]%elem_of_cons; [by rewrite Nat.eqb_refl|].
  destruct (Nat.eqb_spec (key y) (key x)) as [E|]; [|by apply IH].
  destruct Hn. rewrite E. apply list_elem_of_fmap. by exists x.
Qed.

Lemma NoDup_keys {A} (key : A -> option (nat * nat)) (g : A -> option nat) (l : list A) :
  (forall x e c, x ∈ l -> key x = Some (e, c) -> g x = Some e) ->
  NoDup (omap g l) -> NoDup ((omap key l).*1).
Proof.
  intros H Hd. enough (Hs : (omap key l).*1 `sublist_of` omap g l) by (by eapply sublist_NoDup).
  clear Hd. induction l as [|x l IH]; [done|]. cbn.
  assert (IH' : (omap key l).*1 `sublist_of` omap g l) by (apply IH; intros z e c Hz; apply H; by right).
  destruct (key x) as [[e c]|] eqn:E; cbn.
  - rewrite (H x e c) by (done || left). by apply sublist_skip.
  - destruct (g x); [by apply sublist_cons|done].
Qed.

(** Splits on the condition of an [if] of booleans. *)
Ltac case_match_bool :=
  match goal with |- context [if ?b then _ else _] =>
    lazymatch type of b with bool => let E := fresh "Ecase" in destruct b eqn:E end
  end.

Section Tail.
Context `{!AtomicInlines} `{L : !AtomicInlinesLaws} (d : commit_driver) (u : atomic_update).
Hypothesis (U : update_ok u) (Hd : hooks_ok d u).

Lemma find_crtc_in x : x ∈ au_crtcs u -> find_crtc u (ce_id x) = Some x.
Proof using U. apply (find_NoDup ce_id), (uo_crtcs _ U). Qed.

Lemma needs_modeset_in x : x ∈ au_crtcs u -> needs_modeset u (ce_id x) = drm_atomic_crtc_needs_modeset (ce_new x).
Proof using U. intros Hx. unfold needs_modeset, new_crtc_state. by rewrite find_crtc_in. Qed.

Lemma is_active_in x : x ∈ au_crtcs u -> is_active u (ce_id x) = st_active (ce_new x).
Proof using U. intros Hx. unfold is_active, new_crtc_state. by rewrite find_crtc_in. Qed.

Lemma crtc_of c : c ∈ ce_id <$> au_crtcs u -> exists x, x ∈ au_crtcs u /\ c = ce_id x.
Proof using. intros (x & -> & Hx)%list_elem_of_fmap. by exists x. Qed.

(** Without self-refresh, what runs is what is active. *)
Lemma needs_disable_active x new :
  x ∈ au_crtcs u ->
  (forall c st, new = Some (c, st) -> st_self_refresh_active st = false) ->
  crtc_needs_disable (ce_id x) (ce_old x) new = st_active (ce_old x).
Proof using U L.
  intros Hx Hn. destruct (uo_refresh _ U x Hx) as [R _]. unfold crtc_needs_disable. destruct new as [[c st]|].
  - rewrite R, (Hn c st eq_refl). cbn. by rewrite !orb_false_r.
  - by rewrite effectively_active_spec, R, orb_false_r.
Qed.

Section Run.
Context (P : pipeline) (S : shows_old u P).

Lemma shut_down_spec cn :
  cn ∈ au_connectors u ->
  shut_down u cn = match cn_old_crtc cn, cn_old_encoder cn with
                   | Some c, Some e => if decide (c ∈ pl_on P) then if needs_modeset u c then Some (e, c) else None
                                       else None
                   | _, _ => None
                   end.
Proof using U S L.
  intros Hcn. unfold shut_down. destruct (cn_old_crtc cn) as [c|] eqn:Ec; [|done]. cbn.
  destruct (uo_old _ U cn c Hcn Ec) as [[e Ee] Hc]. apply crtc_of in Hc as (x & Hx & ->).
  unfold old_crtc_state. rewrite (find_crtc_in x Hx), Ee. cbn.
  rewrite (needs_disable_active x _ Hx).
  2: { intros c st. destruct (cn_new_crtc cn) as [c'|]; [|done]. cbn. unfold new_crtc_state.
       destruct (find_crtc u c') as [x'|] eqn:E'; [|done]. cbn. intros [= <- <-].
       apply find_some in E' as [Hx' _]. apply list_elem_of_In in Hx'. by apply (uo_refresh _ U). }
  pose proof (so_crtc _ _ S x Hx). destruct (decide (ce_id x ∈ pl_on P)), (st_active (ce_old x)), (needs_modeset u (ce_id x)); try done;
    exfalso; intuition congruence.
Qed.

Lemma shut_down_in e c :
  (e, c) ∈ omap (shut_down u) (au_connectors u) ->
  pl_enc P !! e = Some (Running, c) /\ c ∈ pl_on P /\ needs_modeset u c = true
  /\ e ∈ omap cn_old_encoder (au_connectors u).
Proof using U S L.
  intros (cn & Hcn & Hk)%list_elem_of_omap. rewrite (shut_down_spec cn Hcn) in Hk.
  destruct (cn_old_crtc cn) as [c'|] eqn:Ec; [|done]. destruct (cn_old_encoder cn) as [e'|] eqn:Ee; [|done].
  destruct (decide _) as [Hon|]; [|done]. destruct (needs_modeset u c') eqn:Em; [|done]. injection Hk as -> ->.
  rewrite (so_conn _ _ S cn c e Hcn Ec Ee), decide_True by done. split_and!; try done.
  apply list_elem_of_omap. by exists cn.
Qed.

Lemma shut_down_all e s c :
  pl_enc P !! e = Some (s, c) -> needs_modeset u c = true -> (e, c) ∈ omap (shut_down u) (au_connectors u).
Proof using U S L.
  intros He Hm. destruct (so_all _ _ S e s c He Hm) as (cn & Hcn & Ec & Ee).
  apply list_elem_of_omap. exists cn. split; [done|]. rewrite (shut_down_spec cn Hcn), Ec, Ee.
  destruct (so_stable _ _ S e s c He) as [_ Hon]. by rewrite decide_True, Hm.
Qed.

Lemma shut_down_NoDup : NoDup ((omap (shut_down u) (au_connectors u)).*1).
Proof using U.
  apply (NoDup_keys _ cn_old_encoder); [|apply (uo_old_encoders _ U)].
  intros cn e c _. unfold shut_down. destruct (cn_old_crtc cn); [|done]. cbn.
  destruct (old_crtc_state u n); [|done]. cbn. case_if; [done|].
  destruct (cn_old_encoder cn); [|done]. cbn. by intros [= -> _].
Qed.

Definition is_shut (e : nat) : Prop := e ∈ (omap (shut_down u) (au_connectors u)).*1.

Lemma is_shut_in e : is_shut e <-> exists c, (e, c) ∈ omap (shut_down u) (au_connectors u).
Proof using.
  unfold is_shut. rewrite list_elem_of_fmap. split; [intros ([? c] & -> & ?); by exists c|].
  intros [c ?]. by exists (e, c).
Qed.

Lemma enc_step_ok on m e c a b :
  c ∈ on -> m !! e = a -> enc_step (mkpl on m) e c a b = Some (mkpl on (partial_alter (fun _ => b) e m)).
Proof using. intros Hc Hm. unfold enc_step. cbn. by rewrite !bool_decide_eq_true_2. Qed.

Lemma alter_same (m : gmap nat (enc_stage * nat)) e a : m !! e = a -> partial_alter (fun _ => a) e m = m.
Proof using.
  intros Hm. apply map_eq. intros i. destruct (decide (i = e)) as [->|];
    rewrite ?lookup_partial_alter_eq, ?lookup_partial_alter_ne by done; done.
Qed.

(** The encoders that are shut down, through the two loops. *)
Lemma run_shut_down b :
  exists P2, pipe_run b P (drm_atomic_helper_commit_encoder_bridge_disable d u
                           ++ drm_atomic_helper_commit_encoder_bridge_post_disable u) = Some P2
  /\ pl_on P2 = pl_on P
  /\ (forall e, pl_enc P2 !! e = if decide (is_shut e) then None else pl_enc P !! e).
Proof using U S L.
  rewrite pipe_run_app. unfold drm_atomic_helper_commit_encoder_bridge_disable.
  destruct (run_encoders b (fun cn => match shut_down u cn with
      | None => [] | Some (e, c) => BridgeChainDisable e c :: encoder_off d e c (bool_decide (is_Some (cn_new_crtc cn)))
      end) (shut_down u) (fun c => Some (Running, c)) (fun c => Some (Stopping, c)) (au_connectors u) P)
    as (P1 & H1 & H2 & H3 & H4).
  { intros cn Q Hcn HQ. unfold enc_item. destruct (shut_down u cn) as [[e c]|] eqn:Es; [|done].
    intros m Hm. assert (Hin : (e, c) ∈ omap (shut_down u) (au_connectors u)) by (apply list_elem_of_omap; by exists cn).
    destruct (shut_down_in e c Hin) as (_ & Hon & _). rewrite <- HQ in Hon.
    cbn [pipe_run pipe_step]. rewrite enc_step_ok by done.
    set (m1 := partial_alter _ e m). assert (Hm1 : m1 !! e = Some (Stopping, c)) by (unfold m1; by rewrite lookup_partial_alter_eq).
    assert (Hoff : forall h, pipe_run b (mkpl (pl_on Q) m1) [EncoderDisable e c h] = Some (mkpl (pl_on Q) m1)).
    { intros h. cbn [pipe_run pipe_step]. rewrite enc_step_ok by done. by rewrite alter_same. }
    unfold encoder_off. destruct (cd_encoder d e); [|done]. repeat case_if; apply Hoff || done. }
  { apply shut_down_NoDup. }
  { intros e c Hin. by apply shut_down_in. }
  rewrite H1. cbn. unfold drm_atomic_helper_commit_encoder_bridge_post_disable.
  destruct (run_encoders b (fun cn => match shut_down u cn with None => [] | Some (e, c) => [BridgeChainPostDisable e c] end)
      (shut_down u) (fun c => Some (Stopping, c)) (fun _ => None) (au_connectors u) P1) as (P2 & G1 & G2 & G3 & G4).
  { intros cn Q Hcn HQ. unfold enc_item. destruct (shut_down u cn) as [[e c]|] eqn:Es; [|done].
    intros m Hm. assert (Hin : (e, c) ∈ omap (shut_down u) (au_connectors u)) by (apply list_elem_of_omap; by exists cn).
    destruct (shut_down_in e c Hin) as (_ & Hon & _).
    cbn [pipe_run pipe_step]. rewrite enc_step_ok; [done|by rewrite HQ, H2|done]. }
  { apply shut_down_NoDup. }
  { done. }
  exists P2. split; [done|]. split; [congruence|]. intros e. case_decide as Hs.
  - apply is_shut_in in Hs as [c Hc]. by apply (G3 e c).
  - rewrite G4 by done. by apply H4.
Qed.

(** *** Switching the CRTCs off *)

Lemma crtc_off_one x : x ∈ au_crtcs u -> exists h, crtc_off d (ce_id x) (ce_new x) = [CrtcDisable (ce_id x) h].
Proof using Hd.
  intros Hx. destruct (Hd x Hx) as [Hoff _]. unfold crtc_off. cbn in Hoff |- *.
  destruct (_ && _); [by eexists|]. destruct (ch_atomic_disable _); [by eexists|].
  destruct (ch_disable _); [by eexists|]. destruct (ch_dpms _); [by eexists|done].
Qed.

(** After the shutdown: the encoders that were not shut down, the CRTCs without a
    full modeset. *)
Record shut (P3 : pipeline) : Prop := {
  sh_enc e : pl_enc P3 !! e = if decide (is_shut e) then None else pl_enc P !! e;
  sh_crtc x : x ∈ au_crtcs u ->
    (ce_id x ∈ pl_on P3 <-> needs_modeset u (ce_id x) = false /\ st_active (ce_old x) = true);
  sh_other c : c ∉ ce_id <$> au_crtcs u -> (c ∈ pl_on P3 <-> c ∈ pl_on P)
}.

Lemma run_disable_outputs b : exists P3, pipe_run b P (disable_outputs d u) = Some P3 /\ shut P3.
Proof using U S L Hd.
  destruct (run_shut_down b) as (P2 & H1 & H2 & H3).
  unfold disable_outputs. rewrite app_assoc, pipe_run_app, H1. cbn.
  unfold drm_atomic_helper_commit_crtc_disable.
  match goal with |- context [au_crtcs u ≫= ?f] =>
    destruct (run_crtcs b f ce_id (fun x => needs_modeset u (ce_id x) && st_active (ce_old x)) false (au_crtcs u) P2)
      as (P3 & G1 & G2 & G3 & G4) end.
  { apply (uo_crtcs _ U). }
  2: { exists P3. split; [exact G1|]. split.
       - intros e. by rewrite G2.
       - intros x Hx. rewrite (G3 x Hx), H2. pose proof (so_crtc _ _ S x Hx).
         destruct (needs_modeset u (ce_id x)), (st_active (ce_old x)); cbn; intuition congruence.
       - intros c Hc. by rewrite (G4 c Hc), H2. }
  intros x Q Hx HQ Hon. rewrite <- (needs_modeset_in x Hx).
  rewrite (needs_disable_active x _ Hx) by (intros c st [= <- <-]; by apply (uo_refresh _ U)).
  destruct (needs_modeset u (ce_id x)) eqn:Em; cbn; [|exists (pl_on Q); by destruct Q].
  destruct (st_active (ce_old x)) eqn:Ea; cbn; [|exists (pl_on Q); by destruct Q].
  destruct (crtc_off_one x Hx) as [h ->]. exists (pl_on Q ∖ {[ce_id x]}).
  split; [|split; [set_solver|split; [set_solver|done]]].
  cbn [app pipe_run pipe_step]. rewrite bool_decide_eq_true_2 by (rewrite Hon, H2; by apply (so_crtc _ _ S x Hx)).
  replace (free_of_encoders Q (ce_id x)) with true; cbn.
  - destruct (cd_has_vblank d); [|done]. cbn. rewrite bool_decide_eq_true_2 by set_solver. by rewrite orb_true_r.
  - symmetry. apply bool_decide_eq_true_2. intros e [s c] He Hc. cbn in Hc. subst c.
    rewrite HQ, H3 in He. case_decide as Hs; [done|]. apply Hs, is_shut_in. exists (ce_id x). by eapply shut_down_all.
Qed.

Lemma omap_inj {A} (g : A -> option nat) l x y e :
  NoDup (omap g l) -> x ∈ l -> y ∈ l -> g x = Some e -> g y = Some e -> x = y.
Proof using.
  induction l as [|z l IH]; [by intros _ ?%not_elem_of_nil|]. intros Hd' Hx Hy Gx Gy.
  assert (Hin : forall w, w ∈ l -> g w = Some e -> e ∈ omap g l) by (intros w Hw Gw; apply list_elem_of_omap; by exists w).
  apply elem_of_cons in Hx, Hy. cbn in Hd'.
  destruct (g z) as [e'|] eqn:Gz; [apply NoDup_cons in Hd' as [Hn Hd']|];
    destruct Hx as [->|Hx], Hy as [->|Hy]; try done; try congruence; auto.
  - exfalso. apply Hn. rewrite Gx in Gz. injection Gz as <-. eauto.
  - exfalso. apply Hn. rewrite Gy in Gz. injection Gz as <-. eauto.
Qed.

(** *** The old and the new route of an encoder *)

Lemma old_route cn e :
  cn ∈ au_connectors u -> cn_old_encoder cn = Some e ->
  exists c, cn_old_crtc cn = Some c
  /\ (is_shut e <-> pl_enc P !! e = Some (Running, c) /\ needs_modeset u c = true)
  /\ (forall s c', pl_enc P !! e = Some (s, c') -> c' = c).
Proof using U S L.
  intros Hcn Ee. destruct (uo_old_crtc _ U cn Hcn) as [c Ec]; [by exists e|]. exists c. split; [done|].
  pose proof (so_conn _ _ S cn c e Hcn Ec Ee) as Hr.
  assert (Hc : forall s c', pl_enc P !! e = Some (s, c') -> c' = c).
  { intros s c' He. rewrite Hr in He. case_decide; by simplify_eq. }
  split; [|done]. rewrite is_shut_in. split.
  - intros [c' Hin]. apply shut_down_in in Hin as (He & _ & Hm & _). by rewrite <- (Hc _ _ He).
  - intros [He Hm]. exists c. by eapply shut_down_all.
Qed.

(** Before its new CRTC is set up an encoder is free. *)
Lemma new_encoder_free P3 cn e c :
  shut P3 -> cn ∈ au_connectors u -> cn_new_encoder cn = Some e -> cn_new_crtc cn = Some c ->
  needs_modeset u c = true -> pl_enc P3 !! e = None.
Proof using U S L.
  intros [Henc _ _] Hcn Ee Ec Hm. rewrite Henc. case_decide as Hs; [done|].
  destruct (pl_enc P !! e) as [[s c0]|] eqn:He; [exfalso|done].
  destruct (so_taken _ _ S cn e Hcn Ee) as (cn' & Hcn' & Ee'); [by rewrite He|].
  destruct (old_route cn' e Hcn' Ee') as (c' & Ec' & Hshut & Hc'). rewrite (Hc' _ _ He) in He.
  destruct (so_stable _ _ S _ _ _ He) as [-> _]. apply Hs, Hshut. split; [done|].
  destruct (decide ((cn_old_crtc cn', cn_old_encoder cn') = (cn_new_crtc cn', cn_new_encoder cn'))) as [E|N].
  - rewrite Ec', Ee' in E. injection E as E1 E2.
    replace cn' with cn in E1; [congruence|]. by apply (omap_inj cn_new_encoder (au_connectors u) cn cn' e (uo_new_encoders _ U)).
  - apply (uo_routing _ U cn' c' Hcn' N). by left.
Qed.

Lemma shut_off P3 c : shut P3 -> c ∈ ce_id <$> au_crtcs u -> needs_modeset u c = true -> c ∉ pl_on P3.
Proof using.
  intros [_ Hc _] (x & Hx & ->)%crtc_of Hm Hon. apply (Hc x Hx) in Hon as [? _]. congruence.
Qed.

(** Modes are set between. *)
Lemma run_set_mode b P3 : shut P3 -> pipe_run b P3 (drm_atomic_helper_commit_crtc_set_mode d u) = Some P3.
Proof using U S L.
  intros Hs. unfold drm_atomic_helper_commit_crtc_set_mode. rewrite pipe_run_app.
  rewrite run_idle; cbn.
  - apply run_idle. intros cn Hcn. destruct (cn_new_encoder cn) as [e|] eqn:Ee; [|done].
    destruct (cn_new_crtc cn) as [c|] eqn:Ec; [|done]. destruct (new_crtc_state u c) as [st|] eqn:Est; [|done].
    destruct (negb (st_mode_changed st) && negb (st_connectors_changed st)) eqn:Eb; [done|].
    assert (Hm : needs_modeset u c = true).
    { unfold needs_modeset. rewrite Est, needs_modeset_spec.
      destruct (st_mode_changed st), (st_connectors_changed st); try done; by rewrite orb_true_r. }
    pose proof (new_encoder_free P3 cn e c Hs Hcn Ee Ec Hm) as Hfree.
    pose proof (shut_off P3 c Hs (proj2 (uo_new _ U cn c Hcn Ec)) Hm) as Hoff.
    assert (Hok : bool_decide (c ∉ pl_on P3) && bool_decide (pl_enc P3 !! e = None) = true)
      by (rewrite !bool_decide_eq_true_2 by done; done).
    rewrite pipe_run_app. unfold encoder_mode_set.
    destruct (cd_encoder d e); [repeat case_if|]; cbn [pipe_run pipe_step mbind option_bind when];
      rewrite ?Hok; cbn; rewrite ?Hok; done.
  - intros x Hx. destruct (st_mode_changed (ce_new x)) eqn:Em; [cbn|done]. case_if; [|done]. cbn.
    rewrite bool_decide_eq_true_2; [done|].
    apply (shut_off P3 _ Hs); [apply list_elem_of_fmap; by exists x|].
    rewrite (needs_modeset_in x Hx), needs_modeset_spec, Em. done.
Qed.

Lemma run_modeset_disables b :
  exists P3, pipe_run b P (drm_atomic_helper_commit_modeset_disables d u) = Some P3 /\ shut P3.
Proof using U S L Hd.
  destruct (run_disable_outputs b) as (P3 & H3 & Hs). exists P3. split; [|done].
  unfold drm_atomic_helper_commit_modeset_disables. rewrite pipe_run_app, H3. cbn.
  unfold drm_atomic_helper_calc_timestamping_constants. rewrite pipe_run_app, run_idle; [by apply run_set_mode|].
  intros x _. by case_if.
Qed.

(** *** Bringing the new outputs up *)

Definition is_up (e : nat) : Prop := e ∈ (omap (bring_up u) (au_connectors u)).*1.

Lemma bring_up_in e c :
  (e, c) ∈ omap (bring_up u) (au_connectors u) <->
  exists cn, cn ∈ au_connectors u /\ cn_new_encoder cn = Some e /\ cn_new_crtc cn = Some c
  /\ is_active u c = true /\ needs_modeset u c = true.
Proof using.
  rewrite list_elem_of_omap. apply exist_proper. intros cn. apply and_iff_compat_l. unfold bring_up.
  destruct (cn_new_encoder cn) as [e'|]; cbn; [|split; [done|intros (? & _); done]].
  destruct (cn_new_crtc cn) as [c'|]; cbn; [|split; [done|intros (_ & ? & _); done]].
  destruct (is_active u c') eqn:Ea, (needs_modeset u c') eqn:Em; cbn; split;
    intros; destruct_and?; simplify_eq; congruence || done.
Qed.

Lemma bring_up_NoDup : NoDup ((omap (bring_up u) (au_connectors u)).*1).
Proof using U.
  apply (NoDup_keys _ cn_new_encoder); [|apply (uo_new_encoders _ U)].
  intros cn e c _. unfold bring_up. destruct (cn_new_encoder cn); [|done]. cbn.
  destruct (cn_new_crtc cn); [|done]. cbn. case_if; [done|]. by intros [= -> _].
Qed.

Lemma is_up_in e : is_up e <-> exists c, (e, c) ∈ omap (bring_up u) (au_connectors u).
Proof using.
  unfold is_up. rewrite list_elem_of_fmap. split; [intros ([? c] & -> & ?); by exists c|].
  intros [c ?]. by exists (e, c).
Qed.

(** What the pipeline comes to. *)
Record brought P3 P6 : Prop := {
  br_crtc x : x ∈ au_crtcs u -> (ce_id x ∈ pl_on P6 <-> st_active (ce_new x) = true);
  br_other c : c ∉ ce_id <$> au_crtcs u -> (c ∈ pl_on P6 <-> c ∈ pl_on P);
  br_up e c : (e, c) ∈ omap (bring_up u) (au_connectors u) -> pl_enc P6 !! e = Some (Running, c);
  br_enc e : ~ is_up e -> pl_enc P6 !! e = pl_enc P3 !! e
}.

Lemma active_on P3 P6 c : brought P3 P6 -> is_active u c = true -> c ∈ pl_on P6.
Proof using.
  intros B Ha. unfold is_active, new_crtc_state in Ha. destruct (find_crtc u c) as [x|] eqn:Ef; [|done].
  apply find_some in Ef as [Hx E]. apply Nat.eqb_eq in E as <-. apply list_elem_of_In in Hx.
  by apply (br_crtc _ _ B x Hx).
Qed.

Lemma crtc_on_one x :
  x ∈ au_crtcs u -> st_active (ce_new x) = true ->
  exists h, (if st_enable (ce_new x) then
               if ch_atomic_enable (cd_crtc d (ce_id x)) then [CrtcEnable (ce_id x) atomic_enable]
               else if ch_commit (cd_crtc d (ce_id x)) then [CrtcEnable (ce_id x) commit] else []
             else []) = [CrtcEnable (ce_id x) h].
Proof using U Hd.
  intros Hx Ha. destruct (Hd x Hx) as [_ Hon]. cbn in Hon. rewrite (uo_enable _ U x Hx Ha).
  destruct (ch_atomic_enable _); [by eexists|]. destruct (ch_commit _); [by eexists|done].
Qed.

Lemma run_crtc_enable b P3 :
  shut P3 ->
  exists P4, pipe_run b P3 (drm_atomic_helper_commit_crtc_enable d u) = Some P4 /\ pl_enc P4 = pl_enc P3
  /\ (forall x, x ∈ au_crtcs u -> (ce_id x ∈ pl_on P4 <-> st_active (ce_new x) = true))
  /\ (forall c, c ∉ ce_id <$> au_crtcs u -> (c ∈ pl_on P4 <-> c ∈ pl_on P)).
Proof using U Hd S L.
  intros Hs. unfold drm_atomic_helper_commit_crtc_enable.
  match goal with |- context [au_crtcs u ≫= ?f] =>
    destruct (run_crtcs b f ce_id (fun x => needs_modeset u (ce_id x) && st_active (ce_new x)) true (au_crtcs u) P3)
      as (P4 & G1 & G2 & G3 & G4) end.
  { apply (uo_crtcs _ U). }
  - intros x Q Hx _ Hon. rewrite <- (needs_modeset_in x Hx).
    destruct (needs_modeset u (ce_id x)) eqn:Em; cbn; [|exists (pl_on Q); by destruct Q].
    destruct (st_active (ce_new x)) eqn:Ea; cbn [negb]; [|exists (pl_on Q); by destruct Q].
    destruct (crtc_on_one x Hx Ea) as [h ->]. exists ({[ce_id x]} ∪ pl_on Q).
    split; [|split; [set_solver|split; [done|set_solver]]].
    cbn [pipe_run pipe_step]. rewrite bool_decide_eq_true_2; [done|].
    rewrite Hon. apply (shut_off P3 _ Hs); [apply list_elem_of_fmap; by exists x|done].
  - exists P4. split_and!; [done..| |].
    + intros x Hx. rewrite (G3 x Hx). pose proof (sh_crtc _ Hs x Hx) as Ho.
      pose proof (uo_active _ U x Hx) as Hch. rewrite <- (needs_modeset_in x Hx) in Hch.
      destruct (needs_modeset u (ce_id x)), (st_active (ce_old x)), (st_active (ce_new x)); cbn;
        intuition congruence.
    + intros c Hc. by rewrite (G4 c Hc), (sh_other _ Hs c Hc).
Qed.

Lemma run_modeset_enables b P3 :
  shut P3 ->
  exists P6, pipe_run b P3 (drm_atomic_helper_commit_modeset_enables d u) = Some P6 /\ brought P3 P6.
Proof using U S L Hd.
  intros Hs. destruct (run_crtc_enable b P3 Hs) as (P4 & H1 & H2 & H3 & H4).
  assert (Hup : forall e c, (e, c) ∈ omap (bring_up u) (au_connectors u) -> pl_enc P4 !! e = None /\ c ∈ pl_on P4).
  { intros e c (cn & Hcn & Ee & Ec & Ha & Hm)%bring_up_in. rewrite H2. split; [by eapply new_encoder_free|].
    destruct (crtc_of c (proj2 (uo_new _ U cn c Hcn Ec))) as (x & Hx & ->).
    apply (H3 x Hx). by rewrite <- (is_active_in x Hx). }
  assert (Hin : forall cn e c, cn ∈ au_connectors u -> bring_up u cn = Some (e, c) -> c ∈ pl_on P4).
  { intros cn e c Hcn Hb. apply (Hup e c). apply list_elem_of_omap. by exists cn. }
  unfold drm_atomic_helper_commit_modeset_enables. rewrite pipe_run_app, H1. cbn. rewrite pipe_run_app.
  destruct (run_encoders b (fun cn => match bring_up u cn with None => [] | Some (e, c) => [BridgeChainPreEnable e c] end)
      (bring_up u) (fun _ => None) (fun c => Some (Ready, c)) (au_connectors u) P4) as (P5 & A1 & A2 & A3 & A4).
  { intros cn Q Hcn HQ. unfold enc_item. destruct (bring_up u cn) as [[e c]|] eqn:Eb; [|done].
    intros m Hm. cbn [pipe_run pipe_step]. rewrite enc_step_ok; [done| |done]. rewrite HQ. by eapply Hin. }
  { apply bring_up_NoDup. }
  { intros e c Hc. by apply (Hup e c). }
  unfold drm_atomic_helper_commit_encoder_bridge_pre_enable. rewrite A1. cbn. rewrite pipe_run_app.
  destruct (run_encoders b (fun cn => match bring_up u cn with
      | None => [] | Some (e, c) => encoder_on d e c ++ [BridgeChainEnable e c] end)
      (bring_up u) (fun c => Some (Ready, c)) (fun c => Some (Running, c)) (au_connectors u) P5) as (P6 & B1 & B2 & B3 & B4).
  { intros cn Q Hcn HQ. unfold enc_item. destruct (bring_up u cn) as [[e c]|] eqn:Eb; [|done].
    intros m Hm. assert (Hon : c ∈ pl_on Q) by (rewrite HQ, A2; by eapply Hin).
    assert (Hen : forall h, pipe_run b (mkpl (pl_on Q) m) [EncoderEnable e c h] = Some (mkpl (pl_on Q) m)).
    { intros h. cbn [pipe_run pipe_step]. rewrite enc_step_ok by done. by rewrite alter_same. }
    assert (Hid : pipe_run b (mkpl (pl_on Q) m) (encoder_on d e c) = Some (mkpl (pl_on Q) m)).
    { unfold encoder_on. destruct (cd_encoder d e); [|done]. repeat case_if; apply Hen || done. }
    rewrite pipe_run_app, Hid. cbn [mbind option_bind pipe_run pipe_step]. by rewrite enc_step_ok. }
  { apply bring_up_NoDup. }
  { done. }
  unfold drm_atomic_helper_commit_encoder_bridge_enable. rewrite B1. cbn.
  unfold drm_atomic_helper_commit_writebacks. rewrite run_idle; [|intros cn _; by repeat case_if].
  exists P6. split; [done|]. split.
  - intros x Hx. by rewrite B2, A2, (H3 x Hx).
  - intros c Hc. by rewrite B2, A2, (H4 c Hc).
  - done.
  - intros e He. by rewrite B4, A4, H2.
Qed.

(** *** The outcome *)

Lemma is_up_new e : is_up e -> e ∈ omap cn_new_encoder (au_connectors u).
Proof using.
  intros [c (cn & Hcn & Ee & _)%bring_up_in]%is_up_in. apply list_elem_of_omap. by exists cn.
Qed.

Lemma up_route cn e c :
  cn ∈ au_connectors u -> cn_new_encoder cn = Some e -> cn_new_crtc cn = Some c ->
  is_up e <-> is_active u c = true /\ needs_modeset u c = true.
Proof using U.
  intros Hcn Ee Ec. rewrite is_up_in. split.
  - intros [c' (cn' & Hcn' & Ee' & Ec' & Hr)%bring_up_in].
    replace cn' with cn in Ec'; [congruence|].
    by apply (omap_inj cn_new_encoder (au_connectors u) cn cn' e (uo_new_encoders _ U)).
  - intros [Ha Hm]. exists c. apply bring_up_in. by exists cn.
Qed.

(** Without a full modeset a route, and what is on it, is as before. *)
Lemma kept_route P3 cn e x :
  shut P3 -> cn ∈ au_connectors u -> x ∈ au_crtcs u ->
  cn_new_encoder cn = Some e -> cn_new_crtc cn = Some (ce_id x) -> needs_modeset u (ce_id x) = false ->
  pl_enc P3 !! e = if is_active u (ce_id x) then Some (Running, ce_id x) else None.
Proof using U S L.
  intros Hs Hcn Hx Ee Ec Em.
  destruct (decide ((cn_old_crtc cn, cn_old_encoder cn) = (cn_new_crtc cn, cn_new_encoder cn))) as [E|N].
  2: { rewrite (uo_routing _ U cn (ce_id x) Hcn N) in Em; [done|by right]. }
  rewrite Ec, Ee in E. injection E as E1 E2. destruct (old_route cn e Hcn E2) as (c' & Ec' & Hsh & _).
  rewrite E1 in Ec'. injection Ec' as <-. rewrite (sh_enc _ Hs), decide_False by (intros [_ ?]%Hsh; congruence).
  rewrite (so_conn _ _ S cn _ e Hcn E1 E2). pose proof (so_crtc _ _ S x Hx) as Ho.
  pose proof (uo_active _ U x Hx) as Hch. rewrite <- (needs_modeset_in x Hx), Em, <- (is_active_in x Hx) in Hch.
  case_decide as Hon; destruct (st_active (ce_old x)), (is_active u (ce_id x)); intuition congruence.
Qed.

Lemma brought_shows_new P3 P6 : shut P3 -> brought P3 P6 -> shows_new u P P6.
Proof using U S L.
  intros Hs B. split; [apply B|apply B| | |].
  - intros cn c e Hcn Ec Ee. pose proof (up_route cn e c Hcn Ee Ec) as Hup.
    destruct (crtc_of c (proj2 (uo_new _ U cn c Hcn Ec))) as (x & Hx & ->).
    pose proof (br_crtc _ _ B x Hx) as Hon. rewrite <- (is_active_in x Hx) in Hon.
    rewrite (decide_ext _ _ _ _ Hon). destruct (needs_modeset u (ce_id x)) eqn:Em.
    + case_decide as Ha; [apply (br_up _ _ B), bring_up_in; by exists cn|].
      rewrite (br_enc _ _ B) by (intros [? _]%Hup; done). by apply (new_encoder_free P3 cn e (ce_id x)).
    + rewrite (br_enc _ _ B) by (intros [_ ?]%Hup; done). rewrite (kept_route P3 cn e x) by done.
      by destruct (is_active u (ce_id x)).
  - intros e (cn & Hcn & Ee)%list_elem_of_omap Hnew.
    rewrite (br_enc _ _ B) by (intros ?%is_up_new; done). rewrite (sh_enc _ Hs). case_decide as Hsh; [done|].
    destruct (old_route cn e Hcn Ee) as (c & Ec & Hsh' & _). pose proof (so_conn _ _ S cn c e Hcn Ec Ee) as He.
    case_decide; [|done]. destruct Hsh. apply Hsh'. split; [done|].
    apply (uo_routing _ U cn c Hcn); [|by left]. intros E. injection E as _ E. apply Hnew, list_elem_of_omap.
    exists cn. split; [done|congruence].
  - intros e Hold Hnew. rewrite (br_enc _ _ B) by (intros ?%is_up_new; done).
    rewrite (sh_enc _ Hs), decide_False; [done|]. rewrite is_shut_in. by intros [c (_ & _ & _ & ?)%shut_down_in].
Qed.

(** *** The planes, and the rest of the commit *)

Lemma run_planes b P6 active_only no_disable :
  (b = true -> active_only = true /\ forall c, is_active u c = true -> c ∈ pl_on P6) ->
  pipe_run b P6 (drm_atomic_helper_commit_planes d u active_only no_disable) = Some P6.
Proof using U L.
  intros Hb. unfold drm_atomic_helper_commit_planes.
  assert (Hok : forall c, b = false \/ is_active u c = true ->
            when (negb b || bool_decide (c ∈ pl_on P6)) P6 = Some P6).
  { intros c [->|Ha]; [done|]. destruct b; [|done]. cbn. rewrite bool_decide_eq_true_2; [done|]. by apply Hb. }
  assert (Hcrtc : forall x, x ∈ au_crtcs u -> active_only && negb (st_active (ce_new x)) = false ->
            b = false \/ is_active u (ce_id x) = true).
  { intros x Hx Ha. rewrite (is_active_in x Hx). destruct b; [right|by left].
    destruct Hb as [-> _]; [done|]. by destruct (st_active _). }
  rewrite pipe_run_app, run_idle; cbn.
  2: { intros x Hx. destruct (ch_atomic_begin _); [cbn|done].
       destruct (active_only && _) eqn:Ea; [done|]. cbn. rewrite Hok; [done|]. by apply Hcrtc. }
  rewrite pipe_run_app, run_idle; cbn.
  2: { intros p _. unfold commit_plane. destruct (cd_plane d (pe_id p)) as [h|]; [|done].
       rewrite plane_disabling_spec, plane_enabling_spec.
       assert (Hok' : forall c, active_only && negb (is_active u c) = false ->
                 when (negb b || bool_decide (c ∈ pl_on P6)) P6 = Some P6).
       { intros c Ha. apply Hok. destruct b; [right|by left]. destruct Hb as [-> _]; [done|]. by destruct (is_active u c). }
       destruct (pe_old_crtc p) as [o|], (pe_new_crtc p) as [n|]; cbn; rewrite ?andb_true_r, ?andb_false_r;
         repeat (case_match_bool; try done); cbn; rewrite ?Hok' by done; try done. }
  rewrite pipe_run_app, run_idle; cbn.
  2: { intros x Hx. destruct (ch_atomic_flush _); [cbn|done].
       destruct (active_only && _) eqn:Ea; [done|]. cbn. rewrite Hok; [done|]. by apply Hcrtc. }
  apply run_idle. intros p _. by repeat case_match.
Qed.

Lemma run_rest b Q :
  pipe_run b Q (drm_atomic_helper_fake_vblank u ++ [CommitHwDone] ++ drm_atomic_helper_wait_for_vblanks u
                ++ drm_atomic_helper_cleanup_planes d u) = Some Q.
Proof using.
  unfold drm_atomic_helper_fake_vblank, drm_atomic_helper_wait_for_vblanks, drm_atomic_helper_cleanup_planes.
  rewrite pipe_run_app, run_idle by (intros x _; by case_if). cbn. rewrite pipe_run_app.
  case_if; cbn; apply run_idle; intros p _; by repeat case_match.
Qed.
End Run.
End Tail.

(** The whole of a commit, with the planes before the outputs come up or after. *)
Lemma commit_tail_run `{!AtomicInlines} `{!AtomicInlinesLaws} d u P :
  update_ok u -> hooks_ok d u -> shows_old u P ->
  exists P', pipe_run false P (drm_atomic_helper_commit_tail d u) = Some P' /\ shows_new u P P'.
Proof.
  intros U Hd So. destruct (run_modeset_disables d u U Hd P So false) as (P3 & H3 & Hs).
  destruct (run_modeset_enables d u U Hd P So false P3 Hs) as (P6 & H6 & B).
  exists P6. split; [|by apply (brought_shows_new u U P So P3)].
  unfold drm_atomic_helper_commit_tail. rewrite pipe_run_app, H3. cbn [mbind option_bind].
  rewrite pipe_run_app, run_planes by done. cbn [mbind option_bind].
  rewrite pipe_run_app, H6. apply run_rest.
Qed.

Lemma commit_tail_rpm_run `{!AtomicInlines} `{!AtomicInlinesLaws} d u P :
  update_ok u -> hooks_ok d u -> shows_old u P ->
  exists P', pipe_run true P (drm_atomic_helper_commit_tail_rpm d u) = Some P' /\ shows_new u P P'.
Proof.
  intros U Hd So. destruct (run_modeset_disables d u U Hd P So true) as (P3 & H3 & Hs).
  destruct (run_modeset_enables d u U Hd P So true P3 Hs) as (P6 & H6 & B).
  exists P6. split; [|by apply (brought_shows_new u U P So P3)].
  unfold drm_atomic_helper_commit_tail_rpm. rewrite pipe_run_app, H3. cbn [mbind option_bind].
  rewrite pipe_run_app, H6. cbn [mbind option_bind].
  rewrite pipe_run_app, run_planes; [apply run_rest|done|].
  intros _. split; [done|]. intros c. by apply (active_on u P P3 P6).
Qed.

(** ** Theorems *)

(** C4: whatever the old and the new states are, so long as they are what the
    check leaves, the calls of [drm_atomic_helper_commit_tail] follow the protocol of
    the pipeline - outputs come down encoder first and up CRTC first, each stage
    once and on a running CRTC, modes are set on what is off - and leave exactly the
    new states: the active CRTCs run with their encoders on them, abandoned
    encoders are off, everything else is untouched. *)
Theorem commit_tail_protocol `{!AtomicInlines} `{!AtomicInlinesLaws} d u P :
  update_ok u -> hooks_ok d u -> shows_old u P ->
  exists P', pipe_run false P (drm_atomic_helper_commit_tail d u) = Some P' /\ shows_new u P P'.
Proof. apply commit_tail_run. Qed.

(** C11: [drm_atomic_helper_commit_tail_rpm] keeps the same protocol and reaches the
    same state, and touches planes and starts or ends their update only while the
    CRTC runs - what a driver with runtime power management needs. *)
Theorem commit_tail_rpm_protocol `{!AtomicInlines} `{!AtomicInlinesLaws} d u P :
  update_ok u -> hooks_ok d u -> shows_old u P ->
  exists P', pipe_run true P (drm_atomic_helper_commit_tail_rpm d u) = Some P' /\ shows_new u P P'.
Proof. apply commit_tail_rpm_run. Qed.

(** ** An update *)

#[local] Open Scope nat_scope.

#[local] Instance documented_inlines : AtomicInlines := {
  drm_atomic_crtc_needs_modeset st := st_mode_changed st || st_active_changed st || st_connectors_changed st;
  drm_atomic_crtc_effectively_active st := st_active st || st_self_refresh_active st;
  drm_atomic_plane_disabling o n := bool_decide (is_Some o) && bool_decide (n = None);
  drm_atomic_plane_enabling o n := bool_decide (o = None) && bool_decide (is_Some n)
}.

#[local] Instance documented_laws : AtomicInlinesLaws.
Proof. split; done. Qed.

(** The monitor on encoder 10 goes from CRTC 0, which is switched off, to CRTC 1,
    which gets its plane 20; plane 21 is taken from CRTC 0. *)
Definition st_of (active changed : bool) : crtc_state := mkst active active false changed changed changed false.
Definition moved : atomic_update :=
  mkau [mkce 0 (st_of true false) (st_of false true); mkce 1 (st_of false false) (st_of true true)]
       [mkcn 30 (Some 0) (Some 1) (Some 10) (Some 10) false]
       [mkpe 20 None (Some 1); mkpe 21 (Some 0) None] false.
Definition plain_driver : commit_driver :=
  mkcd (fun _ => mkch false true false false false true false true true)
       (fun _ => Some (mkeh true false false false true false true false false))
       (fun _ => Some (mkph true true false false)) (fun _ => false) true.
Definition shown : pipeline := mkpl {[0]} {[10 := (Running, 0)]}.

Lemma moved_ok : update_ok moved /\ hooks_ok plain_driver moved /\ shows_old moved shown.
Proof.
  assert (Hc : forall x, x ∈ au_crtcs moved ->
             x = mkce 0 (st_of true false) (st_of false true) \/ x = mkce 1 (st_of false false) (st_of true true)).
  { intros x Hx%list_elem_of_In. cbn in Hx. naive_solver. }
  assert (Hn : forall cn, cn ∈ au_connectors moved -> cn = mkcn 30 (Some 0) (Some 1) (Some 10) (Some 10) false).
  { intros cn Hcn%list_elem_of_In. cbn in Hcn. naive_solver. }
  assert (He : forall e s c, pl_enc shown !! e = Some (s, c) -> e = 10 /\ s = Running /\ c = 0).
  { intros e s c H. unfold shown in H. cbn in H. by apply lookup_singleton_Some in H as [<- [= <- <-]]. }
  split_and!; [split| |split].
  - apply (bool_decide_unpack _). vm_compute. done.
  - apply (bool_decide_unpack _). vm_compute. done.
  - apply (bool_decide_unpack _). vm_compute. done.
  - intros x [-> | ->]%Hc; done.
  - intros x [-> | ->]%Hc; done.
  - intros x [-> | ->]%Hc; done.
  - intros cn c ->%Hn [= <-]. split; [by eexists|]. apply (bool_decide_unpack _). vm_compute. done.
  - intros cn c ->%Hn [= <-]. split; [by eexists|]. apply (bool_decide_unpack _). vm_compute. done.
  - intros p c Hp%list_elem_of_In Hc'. cbn in Hp. apply (bool_decide_unpack _).
    destruct Hp as [<- | [<- | []]], Hc' as [[= <-] | [= <-]]; vm_compute; done.
  - intros cn ->%Hn _. by eexists.
  - intros cn ->%Hn _. by eexists.
  - intros cn c ->%Hn _ [[= <-]|[= <-]]; vm_compute; done.
  - intros x _. done.
  - intros x [-> | ->]%Hc; cbn; set_solver.
  - intros e s c (-> & -> & ->)%He. split; [done|]. cbn. set_solver.
  - intros cn c e ->%Hn [= <-] [= <-]. vm_compute. done.
  - intros e s c (-> & -> & ->)%He _. eexists. split; [left|done].
  - intros cn e ->%Hn [= <-] _. eexists. split; [left|done].
Qed.

Lemma commit_tail_protocol_witness :
  update_ok moved /\ hooks_ok plain_driver moved /\ shows_old moved shown
  /\ exists P', pipe_run false shown (drm_atomic_helper_commit_tail plain_driver moved) = Some P'
  /\ shows_new moved shown P'.
Proof. destruct moved_ok as (U & Hd & So). split_and!; try done. by apply commit_tail_protocol. Defined.

Lemma commit_tail_rpm_protocol_witness :
  update_ok moved /\ hooks_ok plain_driver moved /\ shows_old moved shown
  /\ exists P', pipe_run true shown (drm_atomic_helper_commit_tail_rpm plain_driver moved) = Some P'
  /\ shows_new moved shown P'.
Proof. destruct moved_ok as (U & Hd & So). split_and!; try done. by apply commit_tail_rpm_protocol. Defined.

Example moved_tail :
  (fun P => (elements (pl_on P), map_to_list (pl_enc P)))
    <$> pipe_run false shown (drm_atomic_helper_commit_tail plain_driver moved)
  = Some ([1], [(10, (Running, 1))]).
Proof. vm_compute. reflexivity. Qed.
