(* ===== verification/DrmAtomicState.v ===== *)
(** * DrmAtomicState: atomic states and how they are built
      (src/drm/drm_atomic.c, drm_atomic_uapi.c, drm_atomic_state_helper.c)

    An atomic commit collects copies of the states of the objects it touches, and of
    those they depend on; the routes between objects are kept twice, as pointers
    in connectors and planes and as masks in CRTCs.  Objects are named by their
    index; a state array is walked in the order of the indices, and entries added
    on the way are seen. *)

From S2P Require Export DrmModes DrmCommit.

(** ** The states *)

#[export] Instance drm_display_mode_eq_dec : EqDecision drm_display_mode.
Proof. solve_decision. Defined.

(** A blob of a mode, which never changes: the object and the mode that
    [drm_mode_convert_umode] makes of it, if its length is right and the mode valid. *)
Record mode_blob := mkblob { bl_id : nat; bl_mode : option drm_display_mode }.

#[export] Instance mode_blob_eq_dec : EqDecision mode_blob.
Proof. solve_decision. Defined.

(** [struct drm_crtc_state]: what the commit reads of it (DrmCommit), the mode and its
    blob, the mode after the drivers' fixups, and the masks. *)
Record crtc_full := mkcf {
  cf_st : crtc_state;
  cf_mode : drm_display_mode;
  cf_mode_blob : option mode_blob;
  cf_adjusted_mode : drm_display_mode;
  cf_connector_mask : Z;
  cf_encoder_mask : Z;
  cf_plane_mask : Z;
  cf_planes_changed : bool;
  cf_event : bool
}.

(** [struct drm_connector_state]; a writeback job has a framebuffer or not.
    [cnf_out_fence]: the commit holds an [out_fence_ptr] for the connector, which
    [prepare_signaling] turns into the [out_fence] of the job. *)
Record conn_full := mkcnf {
  cnf_crtc : option nat;
  cnf_encoder : option nat;
  cnf_link_status : Z;
  cnf_max_requested_bpc : Z;
  cnf_job : option bool;
  cnf_out_fence : bool
}.

(** [DRM_MODE_LINK_STATUS_GOOD] of the UAPI. *)
Definition DRM_LINK_STATUS_GOOD : Z := 0.

(** The mode of a CRTC that has none. *)
Definition no_mode : drm_display_mode :=
  mkmode 0 0 0 0 0 0 0 0 0 0 0 0 0 0 0 0 0 0 0 0 0 0 0 0 0 0 0 0.

Definition mode_of (blob : option mode_blob) : drm_display_mode :=
  match blob with Some b => default no_mode (bl_mode b) | None => no_mode end.

(** The current states of all objects, [crtc->state] and its like; of a plane only the
    CRTC. *)
Record mode_config := mkmc {
  mc_num_crtc : nat; mc_num_connector : nat; mc_num_plane : nat;
  mc_crtc : nat -> crtc_full;
  mc_conn : nat -> conn_full;
  mc_plane : nat -> option nat
}.

(** [struct drm_atomic_commit]: the old and new states. *)
Record atomic_state := mkas {
  as_crtcs : gmap nat (crtc_full * crtc_full);
  as_conns : gmap nat (conn_full * conn_full);
  as_planes : gmap nat (option nat * option nat);
  as_legacy_cursor_update : bool;
  as_allow_modeset : bool;
  as_duplicated : bool
}.

(** The locks and allocations that may fail, with 0 or a negative error. *)
Record kms_locks := mklocks { lock_crtc : nat -> Z; lock_conn : nat -> Z; lock_plane : nat -> Z }.

(** ** Fallible steps *)

Definition result (A : Type) : Type := Z + A.

Definition rbind {A B} (r : result A) (k : A -> result B) : result B :=
  match r with inl err => inl err | inr x => k x end.

Notation "'try*' x ':=' r 'in' k" := (rbind r (fun x => k))
  (at level 10, x name, r at level 100, k at level 200).

(** A call that answers 0 or an error. *)
Definition check0 {A} (ret : Z) (x : A) : result A := if truthy ret then inl ret else inr x.

Lemma rbind_inr {A B} (r : result A) (k : A -> result B) y :
  rbind r k = inr y <-> exists x, r = inr x /\ k x = inr y.
Proof.
  destruct r; cbn; [split; [done|by intros (? & ? & _)]|].
  split; [intros H; by eexists|by intros (x & [= ->] & ?)].
Qed.

Lemma check0_inr {A} ret (x y : A) : check0 ret x = inr y <-> ret = 0 /\ y = x.
Proof.
  unfold check0, truthy. destruct (Z.eqb_spec ret 0); cbn; split; try done.
  - by intros [= ->].
  - by intros [_ ->].
  - by intros [? _].
Qed.

(** The loops over the objects [l] of which the commit holds a state. *)
Fixpoint for_each {X} (get : atomic_state -> nat -> option X)
    (body : nat -> X -> atomic_state -> result atomic_state) (l : list nat) (s : atomic_state)
  : result atomic_state :=
  match l with
  | [] => inr s
  | i :: l =>
      match get s i with
      | None => for_each get body l s
      | Some x => try* s := body i x s in for_each get body l s
      end
  end.

(** An invariant of the loop, over what is done and what is left. *)
Lemma for_each_inv {X} (get : atomic_state -> nat -> option X) body (I : list nat -> list nat -> atomic_state -> Prop)
    l : forall pre s s',
  for_each get body l s = inr s' -> I pre l s ->
  (forall pre i l s, I pre (i :: l) s -> get s i = None -> I (pre ++ [i]) l s) ->
  (forall pre i l s x s', I pre (i :: l) s -> get s i = Some x -> body i x s = inr s' -> I (pre ++ [i]) l s') ->
  I (pre ++ l) [] s'.
Proof.
  induction l as [|i l IH]; intros pre s s' H HI Hskip Hbody; cbn in H.
  - injection H as <-. by rewrite app_nil_r.
  - rewrite cons_middle, app_assoc. destruct (get s i) eqn:E.
    + apply rbind_inr in H as (s1 & Hb & H). eapply IH; eauto.
    + eapply IH; eauto.
Qed.

(** ** Collecting states *)

Definition drm_connector_mask (k : nat) : Z := BIT (Z.of_nat k).
Definition drm_encoder_mask (e : nat) : Z := BIT (Z.of_nat e).
Definition drm_plane_mask (p : nat) : Z := BIT (Z.of_nat p).

Section Collect.
Context `{!AtomicInlines} (lk : kms_locks) (D : mode_config).

Definition __drm_atomic_helper_crtc_duplicate_state (x : crtc_full) : crtc_full :=
  let st := cf_st x in
  {| x with cf_st := mkst (st_enable st) (drm_atomic_crtc_effectively_active st) false
                          false false false (st_no_vblank st);
            cf_planes_changed := false; cf_event := false |}.

Definition __drm_atomic_helper_connector_duplicate_state (x : conn_full) : conn_full :=
  {| x with cnf_job := None; cnf_out_fence := false |}.

Definition drm_atomic_get_crtc_state (c : nat) (s : atomic_state) : result atomic_state :=
  match as_crtcs s !! c with
  | Some _ => inr s
  | None =>
      check0 (lock_crtc lk c)
        {| s with as_crtcs := <[c := (mc_crtc D c, __drm_atomic_helper_crtc_duplicate_state (mc_crtc D c))]> (as_crtcs s) |}
  end.

Definition drm_atomic_get_connector_state (k : nat) (s : atomic_state) : result atomic_state :=
  match as_conns s !! k with
  | Some _ => inr s
  | None =>
      let new := __drm_atomic_helper_connector_duplicate_state (mc_conn D k) in
      try* s := check0 (lock_conn lk k) {| s with as_conns := <[k := (mc_conn D k, new)]> (as_conns s) |} in
      match cnf_crtc new with
      | Some c => drm_atomic_get_crtc_state c s
      | None => inr s
      end
  end.

Definition drm_atomic_get_plane_state (p : nat) (s : atomic_state) : result atomic_state :=
  match as_planes s !! p with
  | Some _ => inr s
  | None =>
      try* s := check0 (lock_plane lk p)
                  {| s with as_planes := <[p := (mc_plane D p, mc_plane D p)]> (as_planes s) |} in
      match mc_plane D p with
      | Some c => drm_atomic_get_crtc_state c s
      | None => inr s
      end
  end.

(** Writing the new state of an object of the commit. *)
Definition upd_crtc (c : nat) (f : crtc_full -> crtc_full) (s : atomic_state) : atomic_state :=
  {| s with as_crtcs := alter (fun x => (x.1, f x.2)) c (as_crtcs s) |}.
Definition upd_conn (k : nat) (f : conn_full -> conn_full) (s : atomic_state) : atomic_state :=
  {| s with as_conns := alter (fun x => (x.1, f x.2)) k (as_conns s) |}.
Definition upd_plane (p : nat) (c : option nat) (s : atomic_state) : atomic_state :=
  {| s with as_planes := alter (fun x => (x.1, c)) p (as_planes s) |}.

(** [drm_atomic_get_new_connector_state] and its like. *)
Definition new_conn (s : atomic_state) (k : nat) : option conn_full := snd <$> as_conns s !! k.
Definition new_crtc (s : atomic_state) (c : nat) : option crtc_full := snd <$> as_crtcs s !! c.

Definition set_flags (f : crtc_state -> crtc_state) (x : crtc_full) : crtc_full :=
  {| x with cf_st := f (cf_st x) |}.

Definition drm_atomic_set_crtc_for_connector (k : nat) (crtc : option nat) (s : atomic_state)
  : result atomic_state :=
  match new_conn s k with
  | None => inr s
  | Some conn_state =>
      if bool_decide (cnf_crtc conn_state = crtc) then inr s
      else
        let s := match cnf_crtc conn_state with
                 | None => s
                 | Some c =>
                     let s := upd_crtc c (fun x => {| x with cf_connector_mask :=
                                Z.ldiff (cf_connector_mask x) (drm_connector_mask k) |}) s in
                     upd_conn k (fun x => {| x with cnf_crtc := None |}) s
                 end in
        match crtc with
        | None => inr s
        | Some c =>
            try* s := drm_atomic_get_crtc_state c s in
            let s := upd_crtc c (fun x => {| x with cf_connector_mask :=
                       cf_connector_mask x .| drm_connector_mask k |}) s in
            inr (upd_conn k (fun x => {| x with cnf_crtc := Some c |}) s)
        end
  end.

Definition drm_atomic_set_crtc_for_plane (p : nat) (crtc : option nat) (s : atomic_state)
  : result atomic_state :=
  match as_planes s !! p with
  | None => inr s
  | Some (_, cur) =>
      if bool_decide (cur = crtc) then inr s
      else
        try* s := match cur with
                  | None => inr s
                  | Some c =>
                      try* s := drm_atomic_get_crtc_state c s in
                      inr (upd_crtc c (fun x => {| x with cf_plane_mask :=
                             Z.ldiff (cf_plane_mask x) (drm_plane_mask p) |}) s)
                  end in
        let s := upd_plane p crtc s in
        match crtc with
        | None => inr s
        | Some c =>
            try* s := drm_atomic_get_crtc_state c s in
            inr (upd_crtc c (fun x => {| x with cf_plane_mask :=
                   cf_plane_mask x .| drm_plane_mask p |}) s)
        end
  end.

(** [enable] and the mode follow the blob. *)
Definition drm_atomic_set_mode_prop_for_crtc (c : nat) (blob : option mode_blob) (s : atomic_state)
  : result atomic_state :=
  match new_crtc s c with
  | None => inr s
  | Some state =>
      if bool_decide (blob = cf_mode_blob state) then inr s
      else
        let set b m := upd_crtc c (fun x => set_flags (fun st => {| st with st_enable := b |})
                                     {| x with cf_mode := m; cf_mode_blob := blob |}) s in
        match blob with
        | Some b => match bl_mode b with None => inl (- EINVAL) | Some m => inr (set true m) end
        | None => inr (set false no_mode)
        end
  end.

(** The connectors, and the planes, of a mask. *)
Fixpoint add_connectors (mask : Z) (l : list nat) (s : atomic_state) : result atomic_state :=
  match l with
  | [] => inr s
  | k :: l =>
      if truthy (mask .& drm_connector_mask k)
      then try* s := drm_atomic_get_connector_state k s in add_connectors mask l s
      else add_connectors mask l s
  end.

Fixpoint add_planes (mask : Z) (l : list nat) (s : atomic_state) : result atomic_state :=
  match l with
  | [] => inr s
  | p :: l =>
      if truthy (mask .& drm_plane_mask p)
      then try* s := drm_atomic_get_plane_state p s in add_planes mask l s
      else add_planes mask l s
  end.

(** Of the new state the connectors, of the old one the planes. *)
Definition drm_atomic_add_affected_connectors (c : nat) (s : atomic_state) : result atomic_state :=
  try* s := drm_atomic_get_crtc_state c s in
  let mask := match new_crtc s c with Some x => cf_connector_mask x | None => 0 end in
  add_connectors mask (seq 0 (mc_num_connector D)) s.

Definition drm_atomic_add_affected_planes (c : nat) (s : atomic_state) : result atomic_state :=
  let mask := match as_crtcs s !! c with Some x => cf_plane_mask x.1 | None => 0 end in
  add_planes mask (seq 0 (mc_num_plane D)) s.

(** ** What user space asks for

    The properties of [drm_mode_atomic_ioctl] that route and switch: each first
    collects the state of its object, which must exist.  An event, too, is asked of a
    CRTC ([prepare_signaling]). *)
Inductive request : Type :=
| SetConnectorCrtc (k : nat) (crtc : option nat)
| SetLinkStatus (k : nat) (v : Z)
| SetMaxBpc (k : nat) (v : Z)
| SetWritebackFb (k : nat) (fb : bool)
| SetWritebackOutFence (k : nat)
| SetMode (c : nat) (blob : option mode_blob)
| SetActive (c : nat) (active : bool)
| SetEvent (c : nat)
| SetPlaneCrtc (p : nat) (crtc : option nat).

Definition valid (i n : nat) (s : atomic_state) : result atomic_state :=
  if bool_decide (i < n)%nat then inr s else inl (- ENOENT).

(** The object exists ([drm_mode_atomic_ioctl]). *)
Definition object_valid (r : request) (s : atomic_state) : result atomic_state :=
  match r with
  | SetConnectorCrtc k _ | SetLinkStatus k _ | SetMaxBpc k _ | SetWritebackFb k _ | SetWritebackOutFence k =>
      valid k (mc_num_connector D) s
  | SetMode c _ | SetActive c _ | SetEvent c => valid c (mc_num_crtc D) s
  | SetPlaneCrtc p _ => valid p (mc_num_plane D) s
  end.

(** So does the one it is set to ([drm_property_change_valid_get]). *)
Definition value_valid (r : request) (s : atomic_state) : result atomic_state :=
  match r with
  | SetConnectorCrtc _ (Some c) | SetPlaneCrtc _ (Some c) =>
      if bool_decide (c < mc_num_crtc D)%nat then inr s else inl (- EINVAL)
  | _ => inr s
  end.

Definition drm_atomic_connector_set_property (k : nat) (r : request) (s : atomic_state) : result atomic_state :=
  match r with
  | SetConnectorCrtc _ crtc => drm_atomic_set_crtc_for_connector k crtc s
  | SetLinkStatus _ v =>
      inr (upd_conn k (fun x => if cnf_link_status x =? DRM_LINK_STATUS_GOOD then x
                                else {| x with cnf_link_status := v |}) s)
  | SetMaxBpc _ v => inr (upd_conn k (fun x => {| x with cnf_max_requested_bpc := v |}) s)
  | SetWritebackFb _ fb => inr (upd_conn k (fun x => {| x with cnf_job := Some fb |}) s)
  | SetWritebackOutFence _ => inr (upd_conn k (fun x => {| x with cnf_out_fence := true |}) s)
  | _ => inl (- EINVAL)
  end.

Definition drm_atomic_crtc_set_property (c : nat) (r : request) (s : atomic_state) : result atomic_state :=
  match r with
  | SetMode _ blob => drm_atomic_set_mode_prop_for_crtc c blob s
  | SetActive _ active => inr (upd_crtc c (set_flags (fun st => {| st with st_active := active |})) s)
  | SetEvent _ => inr (upd_crtc c (fun x => {| x with cf_event := true |}) s)
  | _ => inl (- EINVAL)
  end.

Definition drm_atomic_set_property (r : request) (s : atomic_state) : result atomic_state :=
  try* s := object_valid r s in
  try* s := value_valid r s in
  match r with
  | SetConnectorCrtc k _ | SetLinkStatus k _ | SetMaxBpc k _ | SetWritebackFb k _ | SetWritebackOutFence k =>
      try* s := drm_atomic_get_connector_state k s in drm_atomic_connector_set_property k r s
  | SetMode c _ | SetActive c _ | SetEvent c =>
      try* s := drm_atomic_get_crtc_state c s in drm_atomic_crtc_set_property c r s
  | SetPlaneCrtc p crtc =>
      try* s := drm_atomic_get_plane_state p s in drm_atomic_set_crtc_for_plane p crtc s
  end.

Fixpoint build (rs : list request) (s : atomic_state) : result atomic_state :=
  match rs with
  | [] => inr s
  | r :: rs => try* s := drm_atomic_set_property r s in build rs s
  end.

Definition empty_state (legacy_cursor allow_modeset duplicated : bool) : atomic_state :=
  mkas ∅ ∅ ∅ legacy_cursor allow_modeset duplicated.
End Collect.

(** ** Well-formed configurations and commits *)

(** What every configuration satisfies: the routes are real, a connector has an encoder
    exactly when it has a CRTC, an encoder has one connector, the masks are exact,
    a CRTC is enabled exactly when it has connectors and exactly when it has a mode,
    which is that of its blob. *)
Record config_ok (D : mode_config) : Prop := {
  ok_conn_crtc k c : (k < mc_num_connector D)%nat -> cnf_crtc (mc_conn D k) = Some c -> (c < mc_num_crtc D)%nat;
  ok_plane_crtc p c : (p < mc_num_plane D)%nat -> mc_plane D p = Some c -> (c < mc_num_crtc D)%nat;
  ok_paired k : (k < mc_num_connector D)%nat ->
    is_Some (cnf_crtc (mc_conn D k)) <-> is_Some (cnf_encoder (mc_conn D k));
  ok_encoders k k' e : (k < mc_num_connector D)%nat -> (k' < mc_num_connector D)%nat ->
    cnf_encoder (mc_conn D k) = Some e -> cnf_encoder (mc_conn D k') = Some e -> k = k';
  ok_connector_mask c k : (c < mc_num_crtc D)%nat -> (k < mc_num_connector D)%nat ->
    Z.testbit (cf_connector_mask (mc_crtc D c)) (Z.of_nat k) = bool_decide (cnf_crtc (mc_conn D k) = Some c);
  ok_encoder_mask c e : (c < mc_num_crtc D)%nat ->
    Z.testbit (cf_encoder_mask (mc_crtc D c)) (Z.of_nat e) = true
    <-> exists k, (k < mc_num_connector D)%nat /\ cnf_crtc (mc_conn D k) = Some c
                  /\ cnf_encoder (mc_conn D k) = Some e;
  ok_enable c : (c < mc_num_crtc D)%nat ->
    st_enable (cf_st (mc_crtc D c)) = truthy (cf_connector_mask (mc_crtc D c));
  ok_active c : (c < mc_num_crtc D)%nat ->
    st_active (cf_st (mc_crtc D c)) = true -> st_enable (cf_st (mc_crtc D c)) = true;
  ok_refresh c : (c < mc_num_crtc D)%nat -> st_self_refresh_active (cf_st (mc_crtc D c)) = false;
  ok_blob c : (c < mc_num_crtc D)%nat ->
    st_enable (cf_st (mc_crtc D c)) = true <-> is_Some (cf_mode_blob (mc_crtc D c));
  ok_mode c : (c < mc_num_crtc D)%nat -> cf_mode (mc_crtc D c) = mode_of (cf_mode_blob (mc_crtc D c))
}.

(** A connector as the commit leaves it, in the commit or not. *)
Definition cur_conn (D : mode_config) (s : atomic_state) (k : nat) : conn_full :=
  match new_conn s k with Some x => x | None => mc_conn D k end.

(** Of a commit for [D]: it holds the CRTCs of what it holds, and its connector masks
    are exact. *)
Record state_wf (D : mode_config) (s : atomic_state) : Prop := {
  wf_crtc c old new : as_crtcs s !! c = Some (old, new) ->
    (c < mc_num_crtc D)%nat /\ old = mc_crtc D c /\ st_self_refresh_active (cf_st new) = false
    /\ cf_mode new = mode_of (cf_mode_blob new);
  wf_conn k old new : as_conns s !! k = Some (old, new) -> (k < mc_num_connector D)%nat /\ old = mc_conn D k;
  wf_plane p old new : as_planes s !! p = Some (old, new) -> (p < mc_num_plane D)%nat /\ old = mc_plane D p;
  wf_conn_crtcs k old new c : as_conns s !! k = Some (old, new) ->
    cnf_crtc old = Some c \/ cnf_crtc new = Some c -> is_Some (as_crtcs s !! c);
  wf_plane_crtcs p old new c : as_planes s !! p = Some (old, new) ->
    old = Some c \/ new = Some c -> is_Some (as_crtcs s !! c);
  wf_connector_mask c old new k : as_crtcs s !! c = Some (old, new) -> (k < mc_num_connector D)%nat ->
    Z.testbit (cf_connector_mask new) (Z.of_nat k) = bool_decide (cnf_crtc (cur_conn D s k) = Some c)
}.

Lemma alter_is_insert {A} (m : gmap nat A) i (f : A -> A) x : m !! i = Some x -> alter f i m = <[i := f x]> m.
Proof.
  intros H. apply map_eq. intros j. destruct (decide (i = j)) as [<-|Hne].
  - by rewrite lookup_alter_eq, lookup_insert_eq, H.
  - by rewrite lookup_alter_ne, lookup_insert_ne.
Qed.

Lemma lookup_upd_crtc c c' f s :
  as_crtcs (upd_crtc c f s) !! c'
  = if decide (c = c') then (fun x => (x.1, f x.2)) <$> as_crtcs s !! c' else as_crtcs s !! c'.
Proof.
  cbn. case_decide as E; [subst; apply lookup_alter_eq|by apply lookup_alter_ne].
Qed.

Lemma lookup_upd_conn k k' f s :
  as_conns (upd_conn k f s) !! k'
  = if decide (k = k') then (fun x => (x.1, f x.2)) <$> as_conns s !! k' else as_conns s !! k'.
Proof.
  cbn. case_decide as E; [subst; apply lookup_alter_eq|by apply lookup_alter_ne].
Qed.

Lemma lookup_upd_plane p p' c s :
  as_planes (upd_plane p c s) !! p'
  = if decide (p = p') then (fun x => (x.1, c)) <$> as_planes s !! p' else as_planes s !! p'.
Proof.
  cbn. case_decide as E; [subst; apply lookup_alter_eq|by apply lookup_alter_ne].
Qed.

(** An entry after an update is one from before. *)
Lemma upd_crtc_inv c c' f s old new :
  as_crtcs (upd_crtc c f s) !! c' = Some (old, new) ->
  exists new0, as_crtcs s !! c' = Some (old, new0) /\ new = if decide (c = c') then f new0 else new0.
Proof.
  rewrite lookup_upd_crtc. case_decide; [|by eexists].
  destruct (as_crtcs s !! c') as [[o n]|]; [|done]. cbn. intros [= <- <-]. by eexists.
Qed.

Lemma upd_conn_inv k k' f s old new :
  as_conns (upd_conn k f s) !! k' = Some (old, new) ->
  exists new0, as_conns s !! k' = Some (old, new0) /\ new = if decide (k = k') then f new0 else new0.
Proof.
  rewrite lookup_upd_conn. case_decide; [|by eexists].
  destruct (as_conns s !! k') as [[o n]|]; [|done]. cbn. intros [= <- <-]. by eexists.
Qed.

Lemma upd_crtc_dom c c' f s : is_Some (as_crtcs (upd_crtc c f s) !! c') <-> is_Some (as_crtcs s !! c').
Proof. rewrite lookup_upd_crtc. case_decide; [apply fmap_is_Some|done]. Qed.

Lemma new_conn_upd k k' f s :
  new_conn (upd_conn k f s) k' = if decide (k = k') then f <$> new_conn s k' else new_conn s k'.
Proof.
  unfold new_conn. rewrite lookup_upd_conn. case_decide; [|done]. by destruct (as_conns s !! k') as [[]|].
Qed.

Lemma cur_conn_upd_crtc D c f s k : cur_conn D (upd_crtc c f s) k = cur_conn D s k.
Proof. done. Qed.

Lemma cur_conn_upd_conn D k k' f s :
  cur_conn D (upd_conn k f s) k'
  = if decide (k = k' /\ is_Some (new_conn s k')) then f (cur_conn D s k') else cur_conn D s k'.
Proof.
  unfold cur_conn. rewrite new_conn_upd. destruct (decide (k = k')) as [->|].
  - destruct (new_conn s k') eqn:E; cbn.
    + by rewrite decide_True by done.
    + rewrite decide_False; [done|]. intros [_ [? ?]]. done.
  - rewrite decide_False; [done|naive_solver].
Qed.

Lemma is_some_new_conn s k : is_Some (new_conn s k) <-> is_Some (as_conns s !! k).
Proof. apply fmap_is_Some. Qed.

Lemma new_conn_Some s k new : new_conn s k = Some new <-> exists old, as_conns s !! k = Some (old, new).
Proof.
  unfold new_conn. rewrite fmap_Some. split; [intros ([o n] & -> & ->); by eexists|].
  intros [old ->]. by exists (old, new).
Qed.

Lemma new_crtc_Some s c new : new_crtc s c = Some new <-> exists old, as_crtcs s !! c = Some (old, new).
Proof.
  unfold new_crtc. rewrite fmap_Some. split; [intros ([o n] & -> & ->); by eexists|].
  intros [old ->]. by exists (old, new).
Qed.

(** *** Steps that keep the routes *)

Lemma wf_upd_crtc D c f s :
  (forall x, cf_connector_mask (f x) = cf_connector_mask x
             /\ st_self_refresh_active (cf_st (f x)) = st_self_refresh_active (cf_st x)
             /\ (cf_mode x = mode_of (cf_mode_blob x) -> cf_mode (f x) = mode_of (cf_mode_blob (f x)))) ->
  state_wf D s -> state_wf D (upd_crtc c f s).
Proof.
  intros Hf [W1 W2 W3 W4 W5 W6]. split.
  - intros c' old new (n & Hc & ->)%upd_crtc_inv. destruct (W1 _ _ _ Hc) as (? & ? & ? & ?).
    destruct (Hf n) as (_ & Hr & Hm). split_and!; try done; case_decide; auto; congruence.
  - apply W2.
  - apply W3.
  - intros k old new c' Hk Hc. apply upd_crtc_dom. by eapply W4.
  - intros p old new c' Hk Hc. apply upd_crtc_dom. by eapply W5.
  - intros c' old new k (n & Hc & ->)%upd_crtc_inv Hk. rewrite cur_conn_upd_crtc, <- (W6 _ _ _ _ Hc Hk).
    case_decide; [by rewrite (proj1 (Hf n))|done].
Qed.

Lemma wf_upd_conn D k f s :
  (forall x, cnf_crtc (f x) = cnf_crtc x) -> state_wf D s -> state_wf D (upd_conn k f s).
Proof.
  intros Hf [W1 W2 W3 W4 W5 W6]. split; try done.
  - intros k' old new (n & Hk & ->)%upd_conn_inv. by eapply W2.
  - intros k' old new c (n & Hk & ->)%upd_conn_inv Hc. eapply W4; [done|].
    case_decide; [by rewrite Hf in Hc|done].
  - intros c old new k' Hc Hk. rewrite (W6 _ _ _ _ Hc Hk), cur_conn_upd_conn. case_decide; [by rewrite Hf|done].
Qed.

(** *** Steps that only collect states *)

Section Wf.
Context `{AI : !AtomicInlines} `{L : !AtomicInlinesLaws} (lk : kms_locks) (D : mode_config).

Record grows (s s' : atomic_state) : Prop := {
  gr_crtc c x : as_crtcs s !! c = Some x -> as_crtcs s' !! c = Some x;
  gr_crtc_new c x : as_crtcs s !! c = None -> as_crtcs s' !! c = Some x ->
    x = (mc_crtc D c, __drm_atomic_helper_crtc_duplicate_state (mc_crtc D c));
  gr_conn k x : as_conns s !! k = Some x -> as_conns s' !! k = Some x;
  gr_conn_new k x : as_conns s !! k = None -> as_conns s' !! k = Some x ->
    x = (mc_conn D k, __drm_atomic_helper_connector_duplicate_state (mc_conn D k));
  gr_plane p x : as_planes s !! p = Some x -> as_planes s' !! p = Some x;
  gr_plane_new p x : as_planes s !! p = None -> as_planes s' !! p = Some x -> x = (mc_plane D p, mc_plane D p);
  gr_allow : as_allow_modeset s' = as_allow_modeset s
}.

#[export] Instance grows_preorder : PreOrder grows.
Proof using.
  split.
  - intros s. split; intros; congruence || done.
  - intros s1 s2 s3 [A1 A2 A3 A4 A5 A6 A7] [B1 B2 B3 B4 B5 B6 B7]. split; auto.
    + intros c x H1 H3. destruct (as_crtcs s2 !! c) as [y|] eqn:H2; [|by apply B2].
      specialize (A2 _ _ H1 H2). specialize (B1 _ _ H2). congruence.
    + intros k x H1 H3. destruct (as_conns s2 !! k) as [y|] eqn:H2; [|by apply B4].
      specialize (A4 _ _ H1 H2). specialize (B3 _ _ H2). congruence.
    + intros p x H1 H3. destruct (as_planes s2 !! p) as [y|] eqn:H2; [|by apply B6].
      specialize (A6 _ _ H1 H2). specialize (B5 _ _ H2). congruence.
    + congruence.
Qed.

(** What has been collected reads the same, up to what is not copied. *)
Lemma grows_cur_conn s s' k :
  grows s s' -> cnf_crtc (cur_conn D s' k) = cnf_crtc (cur_conn D s k)
                /\ cnf_encoder (cur_conn D s' k) = cnf_encoder (cur_conn D s k).
Proof using.
  intros G. unfold cur_conn, new_conn. destruct (as_conns s !! k) as [x|] eqn:E.
  - by rewrite (gr_conn _ _ G _ _ E).
  - destruct (as_conns s' !! k) as [x|] eqn:E'; [|done]. by rewrite (gr_conn_new _ _ G _ _ E E').
Qed.

Context (C : config_ok D).

Lemma get_crtc_wf c s s' :
  state_wf D s -> (c < mc_num_crtc D)%nat -> drm_atomic_get_crtc_state lk D c s = inr s' ->
  state_wf D s' /\ grows s s' /\ is_Some (as_crtcs s' !! c) /\ as_conns s' = as_conns s /\ as_planes s' = as_planes s.
Proof using C.
  intros W Hc. unfold drm_atomic_get_crtc_state. destruct (as_crtcs s !! c) as [x|] eqn:E.
  { intros [= <-]. by split_and!. }
  intros [_ ->]%check0_inr. destruct W as [W1 W2 W3 W4 W5 W6]. split_and!; try done.
  - split; try done.
    + intros c' old new. cbn. intros [[<- [= <- <-]]|[Hne H]]%lookup_insert_Some; [|by eapply W1].
      split_and!; try done. by apply (ok_mode _ C).
    + intros k old new c' Hk Ho. cbn. destruct (decide (c = c')) as [->|];
        [by rewrite lookup_insert_eq|by rewrite lookup_insert_ne by done; eapply W4].
    + intros p old new c' Hk Ho. cbn. destruct (decide (c = c')) as [->|];
        [by rewrite lookup_insert_eq|by rewrite lookup_insert_ne by done; eapply W5].
    + intros c' old new k. cbn. intros [[<- [= <- <-]]|[Hne H]]%lookup_insert_Some Hk; [|by eapply W6].
      unfold __drm_atomic_helper_crtc_duplicate_state. cbn. rewrite (ok_connector_mask _ C) by done.
      unfold cur_conn, new_conn. cbn. destruct (as_conns s !! k) as [[old new]|] eqn:Ek; [cbn|done].
      destruct (W2 _ _ _ Ek) as [_ ->].
      rewrite !bool_decide_eq_false_2; [done| |]; intros Hx;
        destruct (W4 k _ new c Ek) as [? Hy]; auto; congruence.
  - split; cbn; try done; try congruence.
    + intros c' x H. rewrite lookup_insert_ne; [done|congruence].
    + intros c' x H. intros [[<- <-]|[_ H']]%lookup_insert_Some; [done|congruence].
  - cbn. by rewrite lookup_insert_eq.
Qed.

(** The CRTC of an object may as well be collected before the object. *)
Lemma get_crtc_conns c m s :
  drm_atomic_get_crtc_state lk D c {| s with as_conns := m |}
  = rbind (drm_atomic_get_crtc_state lk D c s) (fun s => inr {| s with as_conns := m |}).
Proof using. unfold drm_atomic_get_crtc_state, check0. cbn. by repeat case_match; simplify_eq. Qed.

Lemma get_crtc_planes c m s :
  drm_atomic_get_crtc_state lk D c {| s with as_planes := m |}
  = rbind (drm_atomic_get_crtc_state lk D c s) (fun s => inr {| s with as_planes := m |}).
Proof using. unfold drm_atomic_get_crtc_state, check0. cbn. by repeat case_match; simplify_eq. Qed.

Lemma wf_insert_conn k s :
  state_wf D s -> (k < mc_num_connector D)%nat -> as_conns s !! k = None ->
  (forall c, cnf_crtc (mc_conn D k) = Some c -> is_Some (as_crtcs s !! c)) ->
  let new := __drm_atomic_helper_connector_duplicate_state (mc_conn D k) in
  let s' := {| s with as_conns := <[k := (mc_conn D k, new)]> (as_conns s) |} in
  state_wf D s' /\ grows s s'.
Proof using.
  intros [W1 W2 W3 W4 W5 W6] Hk E Hc new s'.
  assert (G : grows s s').
  { split; cbn; try done; try congruence.
    - intros k' x Hx. rewrite lookup_insert_ne; [done|congruence].
    - intros k' x Hx. intros [[<- <-]|[_ ?]]%lookup_insert_Some; [done|congruence]. }
  split; [|done]. split; try done.
  - cbn. intros k' old nw [[<- [= <- <-]]|[_ ?]]%lookup_insert_Some; [done|by eapply W2].
  - cbn. intros k' old nw c [[<- [= <- <-]]|[_ Hx]]%lookup_insert_Some Ho; [|by eapply W4].
    apply Hc. by destruct Ho.
  - intros c old nw k' Ho Hk'. rewrite (proj1 (grows_cur_conn _ _ k' G)). by eapply W6.
Qed.

Lemma get_conn_wf k s s' :
  state_wf D s -> (k < mc_num_connector D)%nat -> drm_atomic_get_connector_state lk D k s = inr s' ->
  state_wf D s' /\ grows s s' /\ is_Some (as_conns s' !! k) /\ as_planes s' = as_planes s.
Proof using C.
  intros W Hk. unfold drm_atomic_get_connector_state. destruct (as_conns s !! k) as [x|] eqn:E.
  { intros [= <-]. by split_and!. }
  intros (s1 & [_ ->]%check0_inr & H)%rbind_inr.
  assert (Hs : exists s0, state_wf D s0 /\ grows s s0 /\ as_conns s0 = as_conns s /\ as_planes s0 = as_planes s
    /\ (forall c, cnf_crtc (mc_conn D k) = Some c -> is_Some (as_crtcs s0 !! c))
    /\ s' = {| s0 with as_conns := <[k := (mc_conn D k,
                 __drm_atomic_helper_connector_duplicate_state (mc_conn D k))]> (as_conns s0) |}).
  { cbn in H. destruct (cnf_crtc (mc_conn D k)) as [c|] eqn:Ec.
    - rewrite get_crtc_conns in H. apply rbind_inr in H as (s0 & H & [= <-]).
      destruct (get_crtc_wf c s s0 W) as (W0 & G0 & Hin & Hcn & Hpl); [by eapply (ok_conn_crtc _ C)|done|].
      exists s0. rewrite Hcn. split_and!; try done. by intros c' [= <-].
    - injection H as <-. by exists s. }
  destruct Hs as (s0 & W0 & G0 & Hcn & Hpl & Hc & ->).
  destruct (wf_insert_conn k s0 W0 Hk) as [W' G']; [by rewrite Hcn|done|].
  split_and!; [done|by transitivity s0|cbn; by rewrite lookup_insert_eq|done].
Qed.

Lemma wf_set_plane p old oc s :
  state_wf D s -> (p < mc_num_plane D)%nat -> old = mc_plane D p ->
  (forall c, old = Some c \/ oc = Some c -> is_Some (as_crtcs s !! c)) ->
  state_wf D {| s with as_planes := <[p := (old, oc)]> (as_planes s) |}.
Proof using.
  intros [W1 W2 W3 W4 W5 W6] Hp Ho Hc. split; try done; cbn.
  - intros p' o n [[<- [= <- <-]]|[_ ?]]%lookup_insert_Some; [done|by eapply W3].
  - intros p' o n c [[<- [= <- <-]]|[_ ?]]%lookup_insert_Some Hx; [by apply Hc|by eapply W5].
Qed.

Lemma get_plane_wf p s s' :
  state_wf D s -> (p < mc_num_plane D)%nat -> drm_atomic_get_plane_state lk D p s = inr s' ->
  state_wf D s' /\ grows s s' /\ is_Some (as_planes s' !! p) /\ as_conns s' = as_conns s.
Proof using C.
  intros W Hp. unfold drm_atomic_get_plane_state. destruct (as_planes s !! p) as [x|] eqn:E.
  { intros [= <-]. by split_and!. }
  intros (s1 & [_ ->]%check0_inr & H)%rbind_inr.
  assert (Hs : exists s0, state_wf D s0 /\ grows s s0 /\ as_conns s0 = as_conns s /\ as_planes s0 = as_planes s
    /\ (forall c, mc_plane D p = Some c -> is_Some (as_crtcs s0 !! c))
    /\ s' = {| s0 with as_planes := <[p := (mc_plane D p, mc_plane D p)]> (as_planes s0) |}).
  { destruct (mc_plane D p) as [c|] eqn:Ec.
    - rewrite get_crtc_planes in H. apply rbind_inr in H as (s0 & H & [= <-]).
      destruct (get_crtc_wf c s s0 W) as (W0 & G0 & Hin & Hcn & Hpl); [by eapply (ok_plane_crtc _ C)|done|].
      exists s0. rewrite Hpl. split_and!; try done. by intros c' [= <-].
    - injection H as <-. by exists s. }
  destruct Hs as (s0 & W0 & G0 & Hcn & Hpl & Hc & ->). split_and!.
  - apply wf_set_plane; try done. intros c [?|?]; by apply Hc.
  - transitivity s0; [done|]. split; cbn; try done; try congruence.
    + intros p' x Hx. rewrite lookup_insert_ne; [done|congruence].
    + intros p' x Hx. intros [[<- <-]|[_ ?]]%lookup_insert_Some; [done|congruence].
  - cbn. by rewrite lookup_insert_eq.
  - done.
Qed.
(** *** Building a commit *)

(** Nothing has been routed yet, and no mode adjusted. *)
Record unrouted (s : atomic_state) : Prop := {
  ur_conn k old new : as_conns s !! k = Some (old, new) -> cnf_encoder new = cnf_encoder old;
  ur_crtc c old new : as_crtcs s !! c = Some (old, new) -> cf_encoder_mask new = cf_encoder_mask old;
  ur_adjusted c old new : as_crtcs s !! c = Some (old, new) -> cf_adjusted_mode new = cf_adjusted_mode old
}.

Definition built (s : atomic_state) : Prop := state_wf D s /\ unrouted s.

Lemma unrouted_grows s s' : grows s s' -> unrouted s -> unrouted s'.
Proof using.
  intros G [U1 U2 U3]. split.
  - intros k old new H. destruct (as_conns s !! k) as [[o n]|] eqn:E.
    + rewrite (gr_conn _ _ G _ _ E) in H. injection H as -> ->. by eapply U1.
    + by apply (gr_conn_new _ _ G _ _ E) in H as [= -> ->].
  - intros c old new H. destruct (as_crtcs s !! c) as [[o n]|] eqn:E.
    + rewrite (gr_crtc _ _ G _ _ E) in H. injection H as -> ->. by eapply U2.
    + by apply (gr_crtc_new _ _ G _ _ E) in H as [= -> ->].
  - intros c old new H. destruct (as_crtcs s !! c) as [[o n]|] eqn:E.
    + rewrite (gr_crtc _ _ G _ _ E) in H. injection H as -> ->. by eapply U3.
    + by apply (gr_crtc_new _ _ G _ _ E) in H as [= -> ->].
Qed.

Lemma unrouted_upd_crtc c f s :
  (forall x, cf_encoder_mask (f x) = cf_encoder_mask x /\ cf_adjusted_mode (f x) = cf_adjusted_mode x) ->
  unrouted s -> unrouted (upd_crtc c f s).
Proof using.
  intros Hf [U1 U2 U3]. split; [done|..]; intros c' old new (n & Hc & ->)%upd_crtc_inv; destruct (Hf n) as [E1 E2];
    case_decide; rewrite ?E1, ?E2; eauto.
Qed.

Lemma unrouted_upd_conn k f s :
  (forall x, cnf_encoder (f x) = cnf_encoder x) -> unrouted s -> unrouted (upd_conn k f s).
Proof using.
  intros Hf [U1 U2 U3]. split; [|done..]. intros k' old new (n & Hc & ->)%upd_conn_inv.
  case_decide; [rewrite Hf|]; by eapply U1.
Qed.

Lemma built_upd_crtc c f s :
  (forall x, cf_connector_mask (f x) = cf_connector_mask x
             /\ (cf_encoder_mask (f x) = cf_encoder_mask x /\ cf_adjusted_mode (f x) = cf_adjusted_mode x)
             /\ st_self_refresh_active (cf_st (f x)) = st_self_refresh_active (cf_st x)
             /\ (cf_mode x = mode_of (cf_mode_blob x) -> cf_mode (f x) = mode_of (cf_mode_blob (f x)))) ->
  built s -> built (upd_crtc c f s).
Proof using.
  intros Hf [W U]. split; [apply wf_upd_crtc|apply unrouted_upd_crtc]; try done; intros x;
    by destruct (Hf x) as (? & ? & ? & ?).
Qed.

Lemma built_upd_conn k f s :
  (forall x, cnf_crtc (f x) = cnf_crtc x /\ cnf_encoder (f x) = cnf_encoder x) -> built s -> built (upd_conn k f s).
Proof using.
  intros Hf [W U]. split; [apply wf_upd_conn|apply unrouted_upd_conn]; try done; intros x; by destruct (Hf x).
Qed.

Lemma built_get_crtc c s s' :
  built s -> (c < mc_num_crtc D)%nat -> drm_atomic_get_crtc_state lk D c s = inr s' ->
  built s' /\ is_Some (as_crtcs s' !! c) /\ as_conns s' = as_conns s /\ as_planes s' = as_planes s.
Proof using C.
  intros [W U] Hc H. destruct (get_crtc_wf c s s' W Hc H) as (W' & G & ? & ? & ?).
  split; [split; [done|by eapply unrouted_grows]|done].
Qed.

(** A connector leaves its CRTC, and joins one. *)
Lemma wf_unlink k c x s :
  state_wf D s -> new_conn s k = Some x -> cnf_crtc x = Some c ->
  state_wf D (upd_conn k (fun x => {| x with cnf_crtc := None |})
    (upd_crtc c (fun x => {| x with cf_connector_mask :=
       Z.ldiff (cf_connector_mask x) (drm_connector_mask k) |}) s)).
Proof using.
  intros [W1 W2 W3 W4 W5 W6] Hk Hc. split.
  - intros c' old new (n & H & ->)%upd_crtc_inv. destruct (W1 _ _ _ H) as (? & ? & ? & ?). by case_decide.
  - intros k' old new (n & H & ->)%upd_conn_inv. by eapply W2.
  - apply W3.
  - intros k' old new c' (n & H & ->)%upd_conn_inv Ho. apply upd_crtc_dom. eapply W4; [done|].
    case_decide; [left; by destruct Ho|done].
  - intros p old new c' H Ho. apply upd_crtc_dom. by eapply W5.
  - intros c' old new k' (n & H & ->)%upd_crtc_inv Hk'. specialize (W6 _ _ _ _ H Hk').
    rewrite cur_conn_upd_conn, cur_conn_upd_crtc. unfold cur_conn in *.
    destruct (decide (k = k')) as [<-|Hne].
    + rewrite (decide_True (P := k = k /\ _)) by (split; [done|exists x; exact Hk]). change (new_conn (upd_crtc _ _ s) k) with (new_conn s k).
      rewrite Hk in *. cbn. rewrite Hc in W6. destruct (decide (c = c')) as [<-|E]; cbn [cf_connector_mask cnf_crtc].
      * rewrite Z.ldiff_spec. unfold drm_connector_mask. by rewrite BIT_testbit, Z.eqb_refl, andb_false_r by lia.
      * rewrite W6. apply bool_decide_eq_false_2. congruence.
    + rewrite (decide_False (P := k = k' /\ _)) by naive_solver. rewrite <- W6. destruct (decide (c = c')); [|done]. cbn [cf_connector_mask].
      rewrite Z.ldiff_spec. unfold drm_connector_mask. rewrite BIT_testbit by lia.
      rewrite (proj2 (Z.eqb_neq _ _)) by lia. by rewrite andb_true_r.
Qed.

Lemma wf_link k c x s :
  state_wf D s -> new_conn s k = Some x -> cnf_crtc x = None -> is_Some (as_crtcs s !! c) ->
  state_wf D (upd_conn k (fun x => {| x with cnf_crtc := Some c |})
    (upd_crtc c (fun x => {| x with cf_connector_mask :=
       cf_connector_mask x .| drm_connector_mask k |}) s)).
Proof using.
  intros [W1 W2 W3 W4 W5 W6] Hk Hc Hin. split.
  - intros c' old new (n & H & ->)%upd_crtc_inv. destruct (W1 _ _ _ H) as (? & ? & ? & ?). by case_decide.
  - intros k' old new (n & H & ->)%upd_conn_inv. by eapply W2.
  - apply W3.
  - intros k' old new c' (n & H & ->)%upd_conn_inv Ho. apply upd_crtc_dom.
    case_decide; [destruct Ho as [Ho|[= <-]]|]; [eapply W4; [done|by left]|done|by eapply W4].
  - intros p old new c' H Ho. apply upd_crtc_dom. by eapply W5.
  - intros c' old new k' (n & H & ->)%upd_crtc_inv Hk'. specialize (W6 _ _ _ _ H Hk').
    rewrite cur_conn_upd_conn, cur_conn_upd_crtc. unfold cur_conn in *.
    destruct (decide (k = k')) as [<-|Hne].
    + rewrite (decide_True (P := k = k /\ _)) by (split; [done|exists x; exact Hk]). change (new_conn (upd_crtc _ _ s) k) with (new_conn s k).
      rewrite Hk in *. cbn. destruct (decide (c = c')) as [<-|E]; cbn [cf_connector_mask cnf_crtc].
      * rewrite Z.lor_spec. unfold drm_connector_mask. rewrite BIT_testbit, Z.eqb_refl, orb_true_r by lia.
        by rewrite bool_decide_eq_true_2.
      * rewrite W6, Hc, !bool_decide_eq_false_2; congruence || done.
    + rewrite (decide_False (P := k = k' /\ _)) by naive_solver. rewrite <- W6. destruct (decide (c = c')); [|done]. cbn [cf_connector_mask].
      rewrite Z.lor_spec. unfold drm_connector_mask. rewrite BIT_testbit by lia.
      rewrite (proj2 (Z.eqb_neq _ _)) by lia. by rewrite orb_false_r.
Qed.

Lemma built_set_crtc_for_connector k crtc s s' :
  built s -> (forall c, crtc = Some c -> (c < mc_num_crtc D)%nat) ->
  drm_atomic_set_crtc_for_connector lk D k crtc s = inr s' -> built s'.
Proof using C.
  intros B Hr. unfold drm_atomic_set_crtc_for_connector. destruct (new_conn s k) as [x|] eqn:Ek; [|by intros [= <-]].
  case_bool_decide as Eq; [by intros [= <-]|]. cbv zeta. set (s1 := match cnf_crtc x with Some c => _ | None => s end).
  assert (B1 : built s1 /\ exists x1, new_conn s1 k = Some x1 /\ cnf_crtc x1 = None).
  { unfold s1. destruct (cnf_crtc x) as [c|] eqn:Ec; [|by eauto]. split.
    - split; [by apply (wf_unlink k c x); [apply B| |]|]. by apply unrouted_upd_conn, unrouted_upd_crtc, B.
    - rewrite new_conn_upd, decide_True by done. change (new_conn (upd_crtc _ _ s) k) with (new_conn s k).
      rewrite Ek. by eexists. }
  clearbody s1. destruct B1 as (B1 & x1 & Ek1 & Ec1). destruct crtc as [c|]; [|by intros [= <-]].
  intros (s2 & H2 & [= <-])%rbind_inr.
  destruct (built_get_crtc c s1 s2 B1) as (B2 & Hin & Hcn & _); [by apply Hr|done|].
  split; [|by apply unrouted_upd_conn, unrouted_upd_crtc, B2]. apply (wf_link k c x1); [apply B2| |done|done].
  unfold new_conn in *. by rewrite Hcn.
Qed.

Lemma built_set_crtc_for_plane p crtc s s' :
  built s -> (forall c, crtc = Some c -> (c < mc_num_crtc D)%nat) ->
  drm_atomic_set_crtc_for_plane lk D p crtc s = inr s' -> built s'.
Proof using C.
  intros B Hr. unfold drm_atomic_set_crtc_for_plane. destruct (as_planes s !! p) as [[old cur]|] eqn:Ep;
    [|by intros [= <-]].
  case_bool_decide as Eq; [by intros [= <-]|]. intros (s1 & H1 & H)%rbind_inr.
  assert (B1 : built s1 /\ as_planes s1 = as_planes s).
  { destruct cur as [c|]; [|by injection H1 as <-]. apply rbind_inr in H1 as (s0 & H0 & [= <-]).
    destruct (built_get_crtc c s s0 B) as (B0 & _ & _ & Hpl); [|done|].
    - destruct B as [W _]. destruct (wf_plane_crtcs _ _ W _ _ _ c Ep) as [[o n] Hin]; [by right|].
      by eapply (wf_crtc _ _ W).
    - split; [by apply built_upd_crtc|done]. }
  clear H1. destruct B1 as [B1 Hpl].
  assert (Hupd : forall s2, built s2 -> as_planes s2 = as_planes s ->
            (forall c, crtc = Some c -> is_Some (as_crtcs s2 !! c)) -> built (upd_plane p crtc s2)).
  { intros s2 [W2 U2] Hpl2 Hin. split; [|by destruct U2].
    unfold upd_plane. rewrite (alter_is_insert (as_planes s2) p (fun x => (x.1, crtc)) (old, cur));
      [|by rewrite Hpl2]. cbn.
    destruct (wf_plane _ _ (proj1 B) _ _ _ Ep) as [Hp ->]. apply wf_set_plane; try done.
    intros c [Hc|Hc]; [|by apply Hin]. eapply (wf_plane_crtcs _ _ W2); [by rewrite Hpl2|by left]. }
  destruct crtc as [c|]; [|injection H as <-; by apply Hupd].
  apply rbind_inr in H as (s3 & H & [= <-]). unfold upd_plane in H. rewrite get_crtc_planes in H.
  apply rbind_inr in H as (s2 & H & [= <-]).
  destruct (built_get_crtc c s1 s2 B1) as (B2 & Hin & _ & Hpl2); [by apply Hr|done|].
  apply built_upd_crtc; [done|]. rewrite <- Hpl2. apply Hupd; [done|by rewrite Hpl2|]. by intros c' [= <-].
Qed.

Lemma built_get_conn k s s' :
  built s -> (k < mc_num_connector D)%nat -> drm_atomic_get_connector_state lk D k s = inr s' ->
  built s' /\ is_Some (new_conn s' k).
Proof using C.
  intros [W U] Hk H. destruct (get_conn_wf k s s' W Hk H) as (W' & G & ? & _).
  split; [split; [done|by eapply unrouted_grows]|by apply is_some_new_conn].
Qed.

Lemma object_valid_inr r s s' :
  object_valid D r s = inr s' ->
  s' = s /\ match r with
            | SetConnectorCrtc i _ | SetLinkStatus i _ | SetMaxBpc i _ | SetWritebackFb i _ | SetWritebackOutFence i =>
                (i < mc_num_connector D)%nat
            | SetMode i _ | SetActive i _ | SetEvent i => (i < mc_num_crtc D)%nat
            | SetPlaneCrtc i _ => (i < mc_num_plane D)%nat
            end.
Proof using. destruct r; cbn; unfold valid; case_bool_decide; by intros [= <-]. Qed.

Lemma value_valid_inr r s s' :
  value_valid D r s = inr s' ->
  s' = s /\ match r with
            | SetConnectorCrtc _ crtc | SetPlaneCrtc _ crtc => forall c, crtc = Some c -> (c < mc_num_crtc D)%nat
            | _ => True
            end.
Proof using.
  destruct r; cbn; try by intros [= <-].
  all: destruct crtc as [c|]; [case_bool_decide; [|done]|]; intros [= <-]; (split; [done|]); congruence.
Qed.

Lemma connector_set_property_built k r s s' :
  built s -> (forall crtc c, r = SetConnectorCrtc k crtc -> crtc = Some c -> (c < mc_num_crtc D)%nat) ->
  match r with SetConnectorCrtc i _ => i = k | _ => True end ->
  drm_atomic_connector_set_property lk D k r s = inr s' -> built s'.
Proof using C.
  intros B Hr Hk. destruct r; cbn; try done.
  - subst. intros H. eapply built_set_crtc_for_connector; [done| |done]. intros c. by apply (Hr crtc).
  - intros [= <-]. apply built_upd_conn; [|done]. intros x. by destruct (cnf_link_status x =? _).
  - intros [= <-]. by apply built_upd_conn.
  - intros [= <-]. by apply built_upd_conn.
  - intros [= <-]. by apply built_upd_conn.
Qed.

Lemma crtc_set_property_built c r s s' :
  built s -> drm_atomic_crtc_set_property c r s = inr s' -> built s'.
Proof using.
  intros B. destruct r; cbn; try done.
  - unfold drm_atomic_set_mode_prop_for_crtc. destruct (new_crtc s c); [|by intros [= <-]].
    case_bool_decide; [by intros [= <-]|]. destruct blob as [b|].
    + destruct (bl_mode b) as [m|] eqn:E; [|done]. intros [= <-]. apply built_upd_crtc; [|done].
      intros x. split_and!; try done. intros _. cbn. by rewrite E.
    + intros [= <-]. by apply built_upd_crtc.
  - intros [= <-]. by apply built_upd_crtc.
  - intros [= <-]. by apply built_upd_crtc.
Qed.

Lemma set_property_built r s s' : built s -> drm_atomic_set_property lk D r s = inr s' -> built s'.
Proof using C.
  intros B. unfold drm_atomic_set_property.
  intros (s1 & [-> Ho]%object_valid_inr & (s2 & [-> Hv]%value_valid_inr & H)%rbind_inr)%rbind_inr.
  assert (Hcn : forall k, (k < mc_num_connector D)%nat ->
    (try* s := drm_atomic_get_connector_state lk D k s in drm_atomic_connector_set_property lk D k r s) = inr s' ->
    match r with SetConnectorCrtc i _ => i = k | _ => True end -> built s').
  { intros k Hk (s1 & [B1 _]%built_get_conn & H1)%rbind_inr; [|done..]. intros Hr.
    apply (connector_set_property_built k r s1); try done. intros crtc c -> ->. by apply Hv. }
  assert (Hcr : forall c, (c < mc_num_crtc D)%nat ->
    (try* s := drm_atomic_get_crtc_state lk D c s in drm_atomic_crtc_set_property c r s) = inr s' -> built s').
  { intros c Hc (s1 & (B1 & _)%built_get_crtc & H1)%rbind_inr; [|done..]. by eapply crtc_set_property_built. }
  destruct r; try (by eapply Hcr); try (by eapply Hcn).
  apply rbind_inr in H as (s2 & H2 & H3). destruct (get_plane_wf p s s2 (proj1 B) Ho H2) as (W & G & _).
  eapply built_set_crtc_for_plane; [|done|done]. split; [done|]. eapply unrouted_grows, B. done.
Qed.

Lemma build_built rs : forall s s', built s -> build lk D rs s = inr s' -> built s'.
Proof using C.
  induction rs as [|r rs IH]; cbn; intros s s' B H; [by injection H as <-|].
  apply rbind_inr in H as (s1 & H1 & H). eapply IH; [|done]. by eapply set_property_built.
Qed.

Lemma empty_built a b c : built (empty_state a b c).
Proof using. split; split; cbn; intros; done. Qed.
End Wf.

(** ** What user space sees of a configuration *)

(** The routes, and what the CRTCs show; a request changes one entry. *)
Record view := mkview {
  v_conn : nat -> option nat;
  v_plane : nat -> option nat;
  v_active : nat -> bool;
  v_mode : nat -> drm_display_mode
}.

Definition ask (r : request) (v : view) : view :=
  match r with
  | SetConnectorCrtc k crtc => {| v with v_conn := update k crtc (v_conn v) |}
  | SetPlaneCrtc p crtc => {| v with v_plane := update p crtc (v_plane v) |}
  | SetActive c active => {| v with v_active := update c active (v_active v) |}
  | SetMode c blob => {| v with v_mode := update c (mode_of blob) (v_mode v) |}
  | SetLinkStatus _ _ | SetMaxBpc _ _ | SetWritebackFb _ _ | SetWritebackOutFence _ | SetEvent _ => v
  end.

Record view_eq (v w : view) : Prop := {
  ve_conn k : v_conn v k = v_conn w k;
  ve_plane p : v_plane v p = v_plane w p;
  ve_active c : v_active v c = v_active w c;
  ve_mode c : v_mode v c = v_mode w c
}.

#[export] Instance view_equiv : Equiv view := view_eq.

#[export] Instance view_equivalence : Equivalence (≡@{view}).
Proof.
  split; [by intros v; split| |].
  - intros v w [H1 H2 H3 H4]. by split.
  - intros v w z [] []. split; intros; etransitivity; eauto.
Qed.

Lemma update_proper {A} i (x : A) f g : (forall j, f j = g j) -> forall j, update i x f j = update i x g j.
Proof. intros H j. unfold update. by case_decide. Qed.

#[export] Instance ask_proper r : Proper ((≡) ==> (≡@{view})) (ask r).
Proof. intros v w [H1 H2 H3 H4]. destruct r; split; cbn; try done; by apply update_proper. Qed.

#[export] Instance asks_proper rs : Proper ((≡) ==> (≡@{view})) (fun v => fold_left (fun v r => ask r v) rs v).
Proof.
  induction rs as [|r rs IH]; intros v w H; cbn; [done|]. apply IH. by f_equiv.
Qed.

Definition view_of (D : mode_config) : view :=
  mkview (fun k => cnf_crtc (mc_conn D k)) (mc_plane D)
         (fun c => st_active (cf_st (mc_crtc D c))) (fun c => cf_mode (mc_crtc D c)).

(** Of a commit, as if it were carried out. *)
Definition cur_crtc (D : mode_config) (s : atomic_state) (c : nat) : crtc_full :=
  match new_crtc s c with Some x => x | None => mc_crtc D c end.
Definition cur_plane (D : mode_config) (s : atomic_state) (p : nat) : option nat :=
  match as_planes s !! p with Some x => x.2 | None => mc_plane D p end.
Definition new_view (D : mode_config) (s : atomic_state) : view :=
  mkview (fun k => cnf_crtc (cur_conn D s k)) (cur_plane D s)
         (fun c => st_active (cf_st (cur_crtc D s c))) (fun c => cf_mode (cur_crtc D s c)).

Section View.
Context `{AI : !AtomicInlines} `{L : !AtomicInlinesLaws} (lk : kms_locks) (D : mode_config) (C : config_ok D).

Lemma grows_view s s' : grows D s s' -> state_wf D s' -> new_view D s' ≡ new_view D s.
Proof using C L.
  intros G W.
  assert (Hc : forall c, st_active (cf_st (cur_crtc D s' c)) = st_active (cf_st (cur_crtc D s c))
                         /\ cf_mode (cur_crtc D s' c) = cf_mode (cur_crtc D s c)).
  { intros c. unfold cur_crtc, new_crtc. destruct (as_crtcs s !! c) as [x|] eqn:E.
    - by rewrite (gr_crtc _ _ _ G _ _ E).
    - destruct (as_crtcs s' !! c) as [[o x]|] eqn:E'; [|done]. destruct (wf_crtc _ _ W _ _ _ E') as (Hc & _).
      apply (gr_crtc_new _ _ _ G _ _ E) in E' as [= -> ->]. cbn.
      by rewrite effectively_active_spec, (ok_refresh _ C c Hc), orb_false_r. }
  split; cbn; try (intros c; by apply Hc).
  - intros k. by apply grows_cur_conn.
  - intros p. unfold cur_plane. destruct (as_planes s !! p) as [x|] eqn:E.
    + by rewrite (gr_plane _ _ _ G _ _ E).
    + destruct (as_planes s' !! p) as [x|] eqn:E'; [|done]. by rewrite (gr_plane_new _ _ _ G _ _ E E').
Qed.

Lemma cur_crtc_upd c f s c' :
  cur_crtc D (upd_crtc c f s) c' = if decide (c = c' /\ is_Some (as_crtcs s !! c')) then f (cur_crtc D s c') else cur_crtc D s c'.
Proof using.
  unfold cur_crtc, new_crtc. rewrite lookup_upd_crtc. destruct (decide (c = c')) as [->|].
  - destruct (as_crtcs s !! c') as [[o x]|]; cbn.
    + by rewrite decide_True by done.
    + rewrite decide_False; [done|]. by intros [_ [? ?]].
  - rewrite decide_False; [done|naive_solver].
Qed.

Lemma upd_crtc_view c f s :
  (forall x, st_active (cf_st (f x)) = st_active (cf_st x) /\ cf_mode (f x) = cf_mode x) ->
  new_view D (upd_crtc c f s) ≡ new_view D s.
Proof using.
  intros Hf. split; cbn; try done; intros c'; rewrite cur_crtc_upd; case_decide; try done; apply Hf.
Qed.

Lemma upd_conn_view k f s :
  (forall x, cnf_crtc (f x) = cnf_crtc x) -> new_view D (upd_conn k f s) ≡ new_view D s.
Proof using.
  intros Hf. split; cbn; try done. intros k'. rewrite cur_conn_upd_conn. case_decide; [apply Hf|done].
Qed.

Lemma route_conn_view k crtc s :
  is_Some (new_conn s k) ->
  new_view D (upd_conn k (fun x => {| x with cnf_crtc := crtc |}) s) ≡ ask (SetConnectorCrtc k crtc) (new_view D s).
Proof using.
  intros Hk. split; cbn; try done. intros k'. rewrite cur_conn_upd_conn. unfold update.
  destruct (decide (k' = k)) as [->|]; [by rewrite decide_True|by rewrite decide_False by naive_solver].
Qed.

Lemma route_plane_view p crtc s :
  is_Some (as_planes s !! p) -> new_view D (upd_plane p crtc s) ≡ ask (SetPlaneCrtc p crtc) (new_view D s).
Proof using.
  intros [x Hp]. split; try done. intros p'. unfold new_view, ask, v_plane, cur_plane, update.
  rewrite lookup_upd_plane. destruct (decide (p = p')) as [<-|]; [|by rewrite decide_False].
  by rewrite Hp, decide_True.
Qed.

Lemma get_crtc_view c s s' :
  state_wf D s -> (c < mc_num_crtc D)%nat -> drm_atomic_get_crtc_state lk D c s = inr s' ->
  state_wf D s' /\ as_conns s' = as_conns s /\ as_planes s' = as_planes s /\ is_Some (as_crtcs s' !! c)
  /\ new_view D s' ≡ new_view D s.
Proof using C L.
  intros W Hc H. destruct (get_crtc_wf lk D C c s s' W Hc H) as (W' & G & ? & ? & ?).
  split_and!; try done. by apply grows_view.
Qed.

Lemma set_crtc_for_connector_view k crtc s s' :
  state_wf D s -> is_Some (new_conn s k) -> (forall c, crtc = Some c -> (c < mc_num_crtc D)%nat) ->
  drm_atomic_set_crtc_for_connector lk D k crtc s = inr s' ->
  new_view D s' ≡ ask (SetConnectorCrtc k crtc) (new_view D s).
Proof using C L.
  intros W [x Hx] Hr. unfold drm_atomic_set_crtc_for_connector. rewrite Hx. case_bool_decide as Eq.
  { intros [= <-]. split; cbn; try done. intros k'. unfold update. case_decide as E; [subst k'|done].
    unfold cur_conn. by rewrite Hx. }
  cbv zeta. set (s1 := match cnf_crtc x with Some c => _ | None => s end).
  assert (H1 : state_wf D s1 /\ is_Some (new_conn s1 k) /\ forall k', new_view D (upd_conn k (fun x => {| x with cnf_crtc := k' |}) s1)
            ≡ ask (SetConnectorCrtc k k') (new_view D s)).
  { unfold s1. destruct (cnf_crtc x) as [c|] eqn:Ec.
    - split_and!; [by eapply wf_unlink| |].
      + rewrite new_conn_upd, decide_True by done. change (new_conn (upd_crtc _ _ s) k) with (new_conn s k). by rewrite Hx.
      + intros k'. rewrite route_conn_view.
        2: { rewrite new_conn_upd, decide_True by done. change (new_conn (upd_crtc _ _ s) k) with (new_conn s k). by rewrite Hx. }
        rewrite route_conn_view by (change (new_conn (upd_crtc c ?f s) k) with (new_conn s k); by eexists).
        rewrite upd_crtc_view by done. split; cbn; try done. intros i. unfold update. by case_decide.
    - split_and!; [done|by eexists|]. intros k'. apply route_conn_view. by eexists. }
  destruct H1 as (W1 & Hk1 & Hv). destruct crtc as [c|].
  - intros (s2 & H2 & [= <-])%rbind_inr. destruct (get_crtc_view c s1 s2 W1) as (W2 & Hcn & _ & _ & V2); [by apply Hr|done|].
    rewrite route_conn_view; [|unfold new_conn in *; by rewrite <- Hcn in Hk1].
    rewrite upd_crtc_view by done. rewrite V2, <- route_conn_view by done. apply Hv.
  - intros [= <-]. destruct (cnf_crtc x) as [c|] eqn:Ec; [|by destruct Eq].
    unfold s1. rewrite route_conn_view by (change (new_conn (upd_crtc c ?f s) k) with (new_conn s k); by eexists).
    by rewrite upd_crtc_view.
Qed.

Lemma set_crtc_for_plane_view p crtc s s' :
  state_wf D s -> is_Some (as_planes s !! p) -> (forall c, crtc = Some c -> (c < mc_num_crtc D)%nat) ->
  drm_atomic_set_crtc_for_plane lk D p crtc s = inr s' ->
  new_view D s' ≡ ask (SetPlaneCrtc p crtc) (new_view D s).
Proof using C L.
  intros W [[old cur] Hp] Hr. unfold drm_atomic_set_crtc_for_plane. rewrite Hp. case_bool_decide as Eq.
  { intros [= <-]. split; cbn; try done. intros p'. unfold update. case_decide as E; [subst p'|done].
    unfold cur_plane. by rewrite Hp. }
  intros (s1 & H1 & H)%rbind_inr.
  assert (V1 : state_wf D s1 /\ as_planes s1 = as_planes s /\ new_view D s1 ≡ new_view D s).
  { destruct cur as [c|]; [|by injection H1 as <-]. apply rbind_inr in H1 as (s0 & H0 & [= <-]).
    destruct (wf_plane_crtcs _ _ W _ _ _ c Hp) as [[o n] Hin]; [by right|].
    destruct (get_crtc_view c s s0 W) as (W0 & _ & Hpl & _ & V0); [by eapply (wf_crtc _ _ W)|done|].
    split_and!; [by apply wf_upd_crtc|done|]. by rewrite upd_crtc_view. }
  clear H1. destruct V1 as (W1 & Hpl & V1). destruct crtc as [c|].
  - apply rbind_inr in H as (s3 & H & [= <-]). unfold upd_plane in H. rewrite get_crtc_planes in H.
    apply rbind_inr in H as (s2 & H & [= <-]).
    destruct (get_crtc_view c s1 s2 W1) as (W2 & _ & Hpl2 & _ & V2); [by apply Hr|done|].
    rewrite upd_crtc_view by done. rewrite <- Hpl2. change {| s2 with as_planes := alter _ p (as_planes s2) |} with (upd_plane p (Some c) s2).
    rewrite route_plane_view by (rewrite Hpl2, Hpl; by eexists). by rewrite V2, V1.
  - injection H as <-. rewrite route_plane_view by (rewrite Hpl; by eexists). by rewrite V1.
Qed.

(** A change of one CRTC's flags. *)
Lemma set_crtc_view c f g s :
  is_Some (as_crtcs s !! c) ->
  (forall x, st_active (cf_st (f x)) = (g (st_active (cf_st x), cf_mode x)).1 /\ cf_mode (f x) = (g (st_active (cf_st x), cf_mode x)).2) ->
  let v := new_view D s in
  new_view D (upd_crtc c f s)
  ≡ mkview (v_conn v) (v_plane v) (update c (g (v_active v c, v_mode v c)).1 (v_active v))
           (update c (g (v_active v c, v_mode v c)).2 (v_mode v)).
Proof using.
  intros Hin Hf v. split; try done; intros c'; cbn; rewrite cur_crtc_upd; unfold update;
    (destruct (decide (c' = c)) as [->|]; [rewrite decide_True by done; by apply Hf|by rewrite decide_False by naive_solver]).
Qed.

Lemma connector_set_property_view k r s s' :
  state_wf D s -> is_Some (new_conn s k) ->
  match r with SetConnectorCrtc i crtc => i = k /\ forall c, crtc = Some c -> (c < mc_num_crtc D)%nat | _ => True end ->
  drm_atomic_connector_set_property lk D k r s = inr s' -> new_view D s' ≡ ask r (new_view D s).
Proof using C L.
  intros W Hk Hr. destruct r; cbn; try done.
  - destruct Hr as [-> Hr]. by apply set_crtc_for_connector_view.
  - intros [= <-]. apply upd_conn_view. intros x. by destruct (cnf_link_status x =? _).
  - intros [= <-]. by apply upd_conn_view.
  - intros [= <-]. by apply upd_conn_view.
  - intros [= <-]. by apply upd_conn_view.
Qed.

Lemma crtc_set_property_view c r s s' :
  state_wf D s -> is_Some (as_crtcs s !! c) -> match r with SetMode i _ | SetActive i _ => i = c | _ => True end ->
  drm_atomic_crtc_set_property c r s = inr s' -> new_view D s' ≡ ask r (new_view D s).
Proof using.
  intros W Hin Hr. destruct r; cbn; try done.
  - subst. destruct Hin as [[o x] Hin]. unfold drm_atomic_set_mode_prop_for_crtc, new_crtc. rewrite Hin. cbn.
    assert (Hset : forall f, (forall x, st_active (cf_st (f x)) = st_active (cf_st x) /\ cf_mode (f x) = mode_of blob) ->
      new_view D (upd_crtc c f s) ≡ ask (SetMode c blob) (new_view D s)).
    { intros f Hf. rewrite (set_crtc_view c f (fun am => (am.1, mode_of blob))); [|by eexists|done].
      split; try done. intros c'. cbn. unfold update. by case_decide; subst. }
    case_bool_decide as Em.
    + intros [= <-]. split; cbn; try done. intros c'. unfold update. case_decide as E; [subst c'|done].
      unfold cur_crtc, new_crtc. rewrite Hin. cbn. rewrite Em. by eapply (wf_crtc _ _ W).
    + destruct blob as [b|]; [destruct (bl_mode b) as [m|] eqn:Eb; [|done]|]; intros [= <-]; apply Hset; [|done].
      intros y. cbn. by rewrite Eb.
  - subst. intros [= <-]. rewrite (set_crtc_view c _ (fun am => (active, am.2))); [|done|done].
    split; cbn; try done. intros c'. unfold update. by case_decide; subst.
  - intros [= <-]. by apply upd_crtc_view.
Qed.

Lemma set_property_view r s s' :
  state_wf D s -> drm_atomic_set_property lk D r s = inr s' -> new_view D s' ≡ ask r (new_view D s).
Proof using C L.
  intros W. unfold drm_atomic_set_property.
  intros (s1 & [-> Ho]%object_valid_inr & (s2 & [-> Hv]%value_valid_inr & H)%rbind_inr)%rbind_inr.
  assert (Hcn : forall k, (k < mc_num_connector D)%nat ->
    (try* s := drm_atomic_get_connector_state lk D k s in drm_atomic_connector_set_property lk D k r s) = inr s' ->
    match r with SetConnectorCrtc i _ => i = k | _ => True end -> new_view D s' ≡ ask r (new_view D s)).
  { intros k Hk (s1 & H1 & H2)%rbind_inr Hr. destruct (get_conn_wf lk D C k s s1 W Hk H1) as (W1 & G & Hin & _).
    rewrite (connector_set_property_view k r s1 s'); [f_equiv; by apply grows_view|done|by apply is_some_new_conn| |done].
    by destruct r. }
  assert (Hcr : forall c, (c < mc_num_crtc D)%nat ->
    (try* s := drm_atomic_get_crtc_state lk D c s in drm_atomic_crtc_set_property c r s) = inr s' ->
    match r with SetMode i _ | SetActive i _ => i = c | _ => True end -> new_view D s' ≡ ask r (new_view D s)).
  { intros c Hc (s1 & H1 & H2)%rbind_inr Hr. destruct (get_crtc_view c s s1 W Hc H1) as (W1 & _ & _ & Hin & V).
    rewrite (crtc_set_property_view c r s1 s') by done. by f_equiv. }
  destruct r; try (by eapply Hcr); try (by eapply Hcn).
  apply rbind_inr in H as (s2 & H2 & H3). destruct (get_plane_wf lk D C p s s2 W Ho H2) as (W2 & G & Hin & _).
  rewrite (set_crtc_for_plane_view p crtc s2 s') by done. f_equiv. by apply grows_view.
Qed.

Lemma build_view rs : forall s s',
  built D s -> build lk D rs s = inr s' -> new_view D s' ≡ fold_left (fun v r => ask r v) rs (new_view D s).
Proof using C L.
  induction rs as [|r rs IH]; cbn; intros s s' B H; [by injection H as <-|].
  apply rbind_inr in H as (s1 & H1 & H). rewrite (IH s1 s'); [|by eapply set_property_built|done].
  apply (asks_proper rs). by apply set_property_view; [apply B|].
Qed.
(** The permission to set modes is the commit's own. *)
Lemma get_crtc_allow c s s' :
  drm_atomic_get_crtc_state lk D c s = inr s' -> as_allow_modeset s' = as_allow_modeset s.
Proof using.
  unfold drm_atomic_get_crtc_state. destruct (as_crtcs s !! c); [by intros [= <-]|]. by intros [_ ->]%check0_inr.
Qed.

Lemma get_conn_allow k s s' :
  drm_atomic_get_connector_state lk D k s = inr s' -> as_allow_modeset s' = as_allow_modeset s.
Proof using.
  unfold drm_atomic_get_connector_state. destruct (as_conns s !! k); [by intros [= <-]|].
  intros (s1 & [_ ->]%check0_inr & H)%rbind_inr. cbn in H. destruct (cnf_crtc _); [|by injection H as <-].
  by apply get_crtc_allow in H.
Qed.

Lemma get_plane_allow p s s' :
  drm_atomic_get_plane_state lk D p s = inr s' -> as_allow_modeset s' = as_allow_modeset s.
Proof using.
  unfold drm_atomic_get_plane_state. destruct (as_planes s !! p); [by intros [= <-]|].
  intros (s1 & [_ ->]%check0_inr & H)%rbind_inr. destruct (mc_plane D p); [|by injection H as <-].
  by apply get_crtc_allow in H.
Qed.

(** Runs the steps of [H] backwards. *)
Ltac run_steps H :=
  repeat match type of H with
  | rbind _ _ = inr _ => let s := fresh "s" in let E := fresh "E" in apply rbind_inr in H as (s & E & H); run_steps E
  | inr _ = inr _ => injection H as <-
  | inl _ = inr _ => discriminate H
  | check0 _ _ = inr _ => apply check0_inr in H as [_ ->]
  | drm_atomic_get_crtc_state _ _ _ _ = inr _ => apply get_crtc_allow in H
  | drm_atomic_get_connector_state _ _ _ _ = inr _ => apply get_conn_allow in H
  | drm_atomic_get_plane_state _ _ _ _ = inr _ => apply get_plane_allow in H
  | context [match ?x with _ => _ end] => destruct x
  end.

Lemma set_property_allow r s s' :
  drm_atomic_set_property lk D r s = inr s' -> as_allow_modeset s' = as_allow_modeset s.
Proof using.
  intros H. unfold drm_atomic_set_property in H. destruct r; cbn in H; unfold valid, drm_atomic_set_mode_prop_for_crtc,
    drm_atomic_set_crtc_for_connector, drm_atomic_set_crtc_for_plane in H; cbv zeta in H; run_steps H;
    cbn in *; try congruence; repeat case_match; cbn in *; congruence.
Qed.

Lemma build_allow rs : forall s s', build lk D rs s = inr s' -> as_allow_modeset s' = as_allow_modeset s.
Proof using.
  induction rs as [|r rs IH]; cbn; intros s s' H; [by injection H as <-|].
  apply rbind_inr in H as (s1 & H1 & H). apply set_property_allow in H1. by rewrite (IH _ _ H).
Qed.

(** The planes of a commit are those asked for. *)
Definition plane_asked (rs : list request) (p : nat) : bool :=
  existsb (fun r => match r with SetPlaneCrtc q _ => Nat.eqb q p | _ => false end) rs.

Lemma get_crtc_same_planes c s s' : drm_atomic_get_crtc_state lk D c s = inr s' -> as_planes s' = as_planes s.
Proof using.
  unfold drm_atomic_get_crtc_state. destruct (as_crtcs s !! c); [by intros [= <-]|]. by intros [_ ->]%check0_inr.
Qed.

Lemma get_conn_same_planes k s s' : drm_atomic_get_connector_state lk D k s = inr s' -> as_planes s' = as_planes s.
Proof using.
  unfold drm_atomic_get_connector_state. destruct (as_conns s !! k); [by intros [= <-]|].
  intros (s1 & [_ ->]%check0_inr & H)%rbind_inr. destruct (cnf_crtc _); [|by injection H as <-].
  by apply get_crtc_same_planes in H.
Qed.

Lemma get_plane_planes p s s' :
  drm_atomic_get_plane_state lk D p s = inr s' ->
  is_Some (as_planes s' !! p) /\ forall q, is_Some (as_planes s !! q) -> is_Some (as_planes s' !! q).
Proof using.
  unfold drm_atomic_get_plane_state. destruct (as_planes s !! p) as [x|] eqn:E; [intros [= <-]; split; [by eexists|done]|].
  intros (s1 & [_ ->]%check0_inr & H)%rbind_inr.
  assert (Hp : as_planes s' = <[p := (mc_plane D p, mc_plane D p)]> (as_planes s)).
  { destruct (mc_plane D p); [by apply get_crtc_same_planes in H as ->|by injection H as <-]. }
  rewrite Hp. split; [rewrite lookup_insert_eq; by eexists|].
  intros q Hq. rewrite lookup_insert_is_Some'. by right.
Qed.

Lemma upd_plane_dom p c s q : is_Some (as_planes (upd_plane p c s) !! q) <-> is_Some (as_planes s !! q).
Proof using. rewrite lookup_upd_plane. case_decide; [apply fmap_is_Some|done]. Qed.

Lemma set_crtc_for_plane_dom p crtc s s' q :
  drm_atomic_set_crtc_for_plane lk D p crtc s = inr s' -> is_Some (as_planes s !! q) -> is_Some (as_planes s' !! q).
Proof using.
  unfold drm_atomic_set_crtc_for_plane. destruct (as_planes s !! p) as [[o cur]|]; [|by intros [= <-]].
  case_bool_decide; [by intros [= <-]|]. intros (s1 & H1 & H2)%rbind_inr Hq.
  assert (E1 : as_planes s1 = as_planes s).
  { destruct cur; [|by injection H1 as <-]. apply rbind_inr in H1 as (s0 & H0 & [= <-]).
    by apply get_crtc_same_planes in H0. }
  rewrite <- E1 in Hq. apply (upd_plane_dom p crtc) in Hq. cbv zeta in H2. destruct crtc; [|by injection H2 as <-].
  apply rbind_inr in H2 as (s0 & H0 & [= <-]). apply get_crtc_same_planes in H0. cbn. by rewrite H0.
Qed.

Lemma connector_set_property_planes k r s s' :
  drm_atomic_connector_set_property lk D k r s = inr s' -> as_planes s' = as_planes s.
Proof using.
  destruct r; cbn; try done; try by intros [= <-].
  unfold drm_atomic_set_crtc_for_connector. destruct (new_conn s k) as [x|]; [|by intros [= <-]].
  case_bool_decide; [by intros [= <-]|]. cbv zeta. destruct crtc as [c|].
  - intros (s1 & H1 & [= <-])%rbind_inr. apply get_crtc_same_planes in H1. cbn. rewrite H1. by destruct (cnf_crtc x).
  - intros [= <-]. by destruct (cnf_crtc x).
Qed.

Lemma set_property_planes r s s' p :
  drm_atomic_set_property lk D r s = inr s' ->
  is_Some (as_planes s !! p) \/ plane_asked [r] p = true -> is_Some (as_planes s' !! p).
Proof using.
  unfold drm_atomic_set_property. intros (s1 & [-> _]%object_valid_inr & (s2 & [-> _]%value_valid_inr & H)%rbind_inr)%rbind_inr Hp.
  assert (Hcn : forall k, (try* s := drm_atomic_get_connector_state lk D k s in
                 drm_atomic_connector_set_property lk D k r s) = inr s' -> as_planes s' = as_planes s).
  { intros k (s1 & H1 & H2)%rbind_inr. apply get_conn_same_planes in H1. by apply connector_set_property_planes in H2 as ->. }
  assert (Hcr : forall c, (try* s := drm_atomic_get_crtc_state lk D c s in
                 drm_atomic_crtc_set_property c r s) = inr s' -> as_planes s' = as_planes s).
  { intros c (s1 & H1 & H2)%rbind_inr. apply get_crtc_same_planes in H1. rewrite <- H1. revert H2.
    destruct r; cbn; try done; try by intros [= <-]. unfold drm_atomic_set_mode_prop_for_crtc.
    repeat case_match; by intros [= <-]. }
  destruct r; first [apply Hcn in H as -> | apply Hcr in H as -> | idtac]; try by destruct Hp.
  apply rbind_inr in H as (s2 & H1 & H2). destruct (get_plane_planes _ _ _ H1) as [Hin Hmono].
  eapply set_crtc_for_plane_dom; [done|]. destruct Hp as [Hp|Hp]; [by apply Hmono|].
  cbn in Hp. rewrite orb_false_r in Hp. by apply Nat.eqb_eq in Hp as <-.
Qed.

Lemma build_planes rs p : forall s s',
  build lk D rs s = inr s' -> is_Some (as_planes s !! p) \/ plane_asked rs p = true -> is_Some (as_planes s' !! p).
Proof using.
  induction rs as [|r rs IH]; cbn; intros s s' H Hp; [injection H as <-; by destruct Hp|].
  apply rbind_inr in H as (s1 & H1 & H). eapply IH; [done|].
  destruct Hp as [Hp|[Hp|Hp]%orb_true_iff]; [left..|by right]; (eapply set_property_planes; [done|]); [by left|right].
  cbn. by rewrite Hp.
Qed.

Lemma asks_plane rs p v :
  plane_asked rs p = false -> v_plane (fold_left (fun v r => ask r v) rs v) p = v_plane v p.
Proof using.
  revert v. induction rs as [|r rs IH]; intros v; cbn; [done|]. intros [Hr Hp]%orb_false_iff. rewrite IH by done.
  destruct r; try done. cbn. unfold update. rewrite decide_False; [done|]. intros ->. by rewrite Nat.eqb_refl in Hr.
Qed.
End View.
