(* ===== verification/DrmCheck.v ===== *)
(** * DrmCheck: the check of an atomic commit
      (src/drm/drm_atomic_helper.c, drm_atomic.c)

    The check decides which CRTCs need a full modeset, gives every connector its
    encoder - taking it from another connector of the commit if need be - collects
    what is affected, and asks the drivers.  The drivers' hooks are arguments that
    answer from the commit as it stands; of what they change only the adjusted
    mode is modelled.  Drivers without zpos normalisation and self-refresh;
    asynchronous plane updates are not modelled. *)

From S2P Require Export DrmAtomicState.

(** ** The drivers *)

(** Of connectors ([hk_..._encoder], [hk_connector_check]), encoders with their
    bridges, CRTCs and planes. *)
Record kms_hooks := mkhk {
  hk_atomic_best_encoder : nat -> option (atomic_state -> option nat);
  hk_best_encoder : nat -> option (option nat);
  (** [drm_connector_get_single_encoder] *)
  hk_single_encoder : nat -> option nat;
  hk_unregistered : nat -> bool;
  hk_writeback : nat -> bool;
  hk_connector_check : nat -> option (atomic_state -> Z);
  hk_possible_crtcs : nat -> Z;
  hk_possible_clones : nat -> Z;
  hk_num_encoder : nat;
  (** [drm_atomic_add_encoder_bridges] *)
  hk_add_bridges : nat -> Z;
  hk_encoder_mode_valid : nat -> drm_display_mode -> drm_mode_status;
  hk_bridges_mode_valid : nat -> nat -> drm_display_mode -> drm_mode_status;
  hk_crtc_mode_valid : nat -> drm_display_mode -> drm_mode_status;
  (** of an encoder and a CRTC *)
  hk_bridges_check : nat -> nat -> atomic_state -> Z * drm_display_mode;
  hk_encoder_check : nat -> option (nat -> atomic_state -> Z * drm_display_mode);
  hk_encoder_mode_fixup : nat -> option (drm_display_mode -> drm_display_mode -> bool * drm_display_mode);
  hk_crtc_mode_fixup : nat -> option (drm_display_mode -> drm_display_mode -> bool * drm_display_mode);
  hk_plane_core_check : nat -> atomic_state -> Z;
  hk_plane_check : nat -> option (atomic_state -> Z);
  hk_crtc_check : nat -> option (atomic_state -> Z * drm_display_mode);
  hk_has_vblank : bool
}.

Section Check.
Context `{!AtomicInlines} (lk : kms_locks) (hk : kms_hooks) (D : mode_config).

Definition each_conn : list nat := seq 0 (mc_num_connector D).
Definition each_crtc : list nat := seq 0 (mc_num_crtc D).
Definition each_plane : list nat := seq 0 (mc_num_plane D).
Definition get_conn (s : atomic_state) (k : nat) := as_conns s !! k.
Definition get_crtc (s : atomic_state) (c : nat) := as_crtcs s !! c.
Definition get_plane (s : atomic_state) (p : nat) := as_planes s !! p.

(** The choice both loops make, on the connector [k]. *)
Definition pick_encoder (s : atomic_state) (k : nat) : option nat :=
  match hk_atomic_best_encoder hk k with
  | Some f => f s
  | None => match hk_best_encoder hk k with
            | Some e => e
            | None => hk_single_encoder hk k
            end
  end.

(** The encoders assigned to connectors of the commit; one twice is an error. *)
Fixpoint assigned_encoders (s : atomic_state) (l : list nat) (encoder_mask : Z) : result Z :=
  match l with
  | [] => inr encoder_mask
  | k :: l =>
      match new_conn s k with
      | Some x =>
          if bool_decide (cnf_crtc x = None) then assigned_encoders s l encoder_mask
          else
            match pick_encoder s k with
            | Some e =>
                if truthy (encoder_mask .& drm_encoder_mask e) then inl (- EINVAL)
                else assigned_encoders s l (encoder_mask .| drm_encoder_mask e)
            | None => assigned_encoders s l encoder_mask
            end
      | None => assigned_encoders s l encoder_mask
      end
  end.

(** A connector [k] outside the commit that holds one of them is in the way, or is
    switched off. *)
Definition conflicting_connector (disable_conflicting_encoders : bool) (encoder_mask : Z) (k : nat)
    (s : atomic_state) : result atomic_state :=
  match new_conn s k with
  | Some _ => inr s
  | None =>
      match cnf_encoder (mc_conn D k) with
      | None => inr s
      | Some encoder =>
          if negb (truthy (encoder_mask .& drm_encoder_mask encoder)) then inr s
          else if negb disable_conflicting_encoders then inl (- EINVAL)
          else
            try* s := drm_atomic_get_connector_state lk D k s in
            let crtc := match new_conn s k with Some x => cnf_crtc x | None => None end in
            try* s := drm_atomic_set_crtc_for_connector lk D k None s in
            match crtc with
            | None => inr s
            | Some c =>
                match new_crtc s c with
                | Some x =>
                    if cf_connector_mask x =? 0 then
                      try* s := drm_atomic_set_mode_prop_for_crtc c None s in
                      inr (upd_crtc c (set_flags (fun st => {| st with st_active := false |})) s)
                    else inr s
                | None => inr s
                end
            end
      end
  end.

Fixpoint conflicting_connectors (flag : bool) (encoder_mask : Z) (l : list nat) (s : atomic_state)
  : result atomic_state :=
  match l with
  | [] => inr s
  | k :: l => try* s := conflicting_connector flag encoder_mask k s in
              conflicting_connectors flag encoder_mask l s
  end.

Definition handle_conflicting_encoders (disable_conflicting_encoders : bool) (s : atomic_state)
  : result atomic_state :=
  try* encoder_mask := assigned_encoders s each_conn 0 in
  if encoder_mask =? 0 then inr s
  else conflicting_connectors disable_conflicting_encoders encoder_mask each_conn s.

(** ** Routing *)

Definition connectors_changed (c : nat) (s : atomic_state) : atomic_state :=
  upd_crtc c (set_flags (fun st => {| st with st_connectors_changed := true |})) s.
Definition opt_changed (c : option nat) (s : atomic_state) : atomic_state :=
  match c with Some c => connectors_changed c s | None => s end.

Definition set_best_encoder (k : nat) (encoder : option nat) (s : atomic_state) : atomic_state :=
  match new_conn s k with
  | None => s
  | Some conn_state =>
      let s := match cnf_encoder conn_state, cnf_crtc (mc_conn D k) with
               | Some e, Some c =>
                   upd_crtc c (fun x => {| x with cf_encoder_mask :=
                     Z.ldiff (cf_encoder_mask x) (drm_encoder_mask e) |}) s
               | _, _ => s
               end in
      let s := match encoder, cnf_crtc conn_state with
               | Some e, Some c =>
                   upd_crtc c (fun x => {| x with cf_encoder_mask :=
                     cf_encoder_mask x .| drm_encoder_mask e |}) s
               | _, _ => s
               end in
      upd_conn k (fun x => {| x with cnf_encoder := encoder |}) s
  end.

(** From the first connector of the commit that has it. *)
Fixpoint steal_encoder (encoder : nat) (l : list nat) (s : atomic_state) : atomic_state :=
  match l with
  | [] => s
  | k :: l =>
      match as_conns s !! k with
      | Some (old, new) =>
          if bool_decide (cnf_encoder new = Some encoder)
          then opt_changed (cnf_crtc old) (set_best_encoder k None s)
          else steal_encoder encoder l s
      | None => steal_encoder encoder l s
      end
  end.

Definition update_connector_routing (k : nat) (old new : conn_full) (added_by_user : bool) (s : atomic_state)
  : result atomic_state :=
  let s := if bool_decide (cnf_crtc old = cnf_crtc new) then s
           else opt_changed (cnf_crtc new) (opt_changed (cnf_crtc old) s) in
  match cnf_crtc new with
  | None => inr (set_best_encoder k None s)
  | Some c =>
      let active := match new_crtc s c with Some x => st_active (cf_st x) | None => false end in
      if negb (as_duplicated s) && hk_unregistered hk k && added_by_user && active then inl (- EINVAL)
      else
        match pick_encoder s k with
        | None => inl (- EINVAL)
        | Some new_encoder =>
            if negb (truthy (hk_possible_crtcs hk new_encoder .& BIT (Z.of_nat c))) then inl (- EINVAL)
            else if bool_decide (cnf_encoder new = Some new_encoder)
            then inr (set_best_encoder k (Some new_encoder) s)
            else
              let s := steal_encoder new_encoder each_conn s in
              let s := set_best_encoder k (Some new_encoder) s in
              inr (connectors_changed c s)
        end
  end.

(** ** Mode checks *)

Definition mode_valid_path (k e c : nat) (mode : drm_display_mode) : drm_mode_status :=
  let ret := hk_encoder_mode_valid hk e mode in
  if bool_decide (ret <> MODE_OK) then ret
  else
    let ret := hk_bridges_mode_valid hk e k mode in
    if bool_decide (ret <> MODE_OK) then ret
    else hk_crtc_mode_valid hk c mode.

Definition mode_changing (st : crtc_state) : bool := st_mode_changed st || st_connectors_changed st.

Definition mode_valid (s : atomic_state) : result atomic_state :=
  for_each get_conn (fun k '(_, conn_state) s =>
    match cnf_crtc conn_state, cnf_encoder conn_state with
    | Some c, Some e =>
        match new_crtc s c with
        | Some x =>
            if negb (mode_changing (cf_st x)) then inr s
            else if bool_decide (mode_valid_path k e c (cf_mode x) <> MODE_OK) then inl (- EINVAL)
            else inr s
        | None => inr s
        end
    | _, _ => inr s
    end) each_conn s.

Definition set_adjusted (c : nat) (mode : drm_display_mode) (s : atomic_state) : atomic_state :=
  upd_crtc c (fun x => {| x with cf_adjusted_mode := mode |}) s.

(** The hooks of one output; a fixup answers whether it succeeded. *)
Definition encoder_fixup (e c : nat) (s : atomic_state) : result atomic_state :=
  let '(ret, mode) := hk_bridges_check hk e c s in
  if truthy ret then inl ret
  else
    let s := set_adjusted c mode s in
    match hk_encoder_check hk e, hk_encoder_mode_fixup hk e, new_crtc s c with
    | Some f, _, _ => let '(ret, mode) := f c s in if truthy ret then inl ret else inr (set_adjusted c mode s)
    | None, Some f, Some x =>
        let '(ok, mode) := f (cf_mode x) (cf_adjusted_mode x) in
        if ok then inr (set_adjusted c mode s) else inl (- EINVAL)
    | _, _, _ => inr s
    end.

Definition mode_fixup (s : atomic_state) : result atomic_state :=
  try* s := for_each get_crtc (fun c '(_, x) s =>
    if mode_changing (cf_st x) then inr (set_adjusted c (cf_mode x) s) else inr s) each_crtc s in
  try* s := for_each get_conn (fun k '(_, conn_state) s =>
    match cnf_crtc conn_state, cnf_encoder conn_state with
    | Some c, Some e => encoder_fixup e c s
    | _, _ => inr s
    end) each_conn s in
  for_each get_crtc (fun c '(_, x) s =>
    if negb (st_enable (cf_st x)) then inr s
    else if negb (mode_changing (cf_st x)) then inr s
    else match hk_crtc_mode_fixup hk c with
         | None => inr s
         | Some f => let '(ok, mode) := f (cf_mode x) (cf_adjusted_mode x) in
                     if ok then inr (set_adjusted c mode s) else inl (- EINVAL)
         end) each_crtc s.

(** Every encoder that may be cloned can be with all those of the CRTC. *)
Definition drm_atomic_check_valid_clones (c : nat) (s : atomic_state) : Z :=
  let mask := match new_crtc s c with Some x => cf_encoder_mask x | None => 0 end in
  if forallb (fun e =>
       negb (truthy (mask .& drm_encoder_mask e))
       || (hk_possible_clones hk e =? 0)
       || (mask .& hk_possible_clones hk e =? mask)) (seq 0 (hk_num_encoder hk))
  then 0 else - EINVAL.

(** ** The modeset check *)

(** What of a CRTC changes. *)
Definition crtc_changes (c : nat) (x : crtc_full * crtc_full) (s : atomic_state) : result atomic_state :=
  let '(old, new) := x in
  let mode_changed st := {| st with st_mode_changed := true |} in
  let s := if drm_mode_equal (Some (cf_mode old)) (Some (cf_mode new)) then s
           else upd_crtc c (set_flags mode_changed) s in
  let s := if Bool.eqb (st_enable (cf_st old)) (st_enable (cf_st new)) then s
           else connectors_changed c (upd_crtc c (set_flags mode_changed) s) in
  let s := if Bool.eqb (st_active (cf_st old)) (st_active (cf_st new)) then s
           else upd_crtc c (set_flags (fun st => {| st with st_active_changed := true |})) s in
  if negb (Bool.eqb (st_enable (cf_st new)) (truthy (cf_connector_mask new))) then inl (- EINVAL)
  else inr (upd_crtc c (set_flags (fun st => {| st with st_no_vblank := negb (hk_has_vblank hk) |})) s).

Definition connector_driver_check (k : nat) (s : atomic_state) : result atomic_state :=
  match hk_connector_check hk k with
  | Some f => check0 (f s) s
  | None => inr s
  end.

(** The mask of the connectors of the commit. *)
Definition state_mask (s : atomic_state) : Z :=
  foldr (fun k mask => match get_conn s k with Some _ => mask .| BIT (Z.of_nat k) | None => mask end) 0 each_conn.

Definition route_connector (user_connectors_mask : Z) (k : nat) (x : conn_full * conn_full) (s : atomic_state)
  : result atomic_state :=
  let '(old, new) := x in
  try* s := update_connector_routing k old new (truthy (BIT (Z.of_nat k) .& user_connectors_mask)) s in
  let s := match cnf_crtc old with
           | None => s
           | Some c =>
               let s := if cnf_link_status old =? cnf_link_status new then s else connectors_changed c s in
               if cnf_max_requested_bpc old =? cnf_max_requested_bpc new then s else connectors_changed c s
           end in
  connector_driver_check k s.

Definition affected_by (c : nat) (x : crtc_full * crtc_full) (s : atomic_state) : result atomic_state :=
  if negb (drm_atomic_crtc_needs_modeset (cf_st x.2)) then inr s
  else
    try* s := drm_atomic_add_affected_connectors lk D c s in
    try* s := drm_atomic_add_affected_planes lk D c s in
    check0 (drm_atomic_check_valid_clones c s) s.

Definition add_bridges (e : option nat) (s : atomic_state) : result atomic_state :=
  match e with Some e => check0 (hk_add_bridges hk e) s | None => inr s end.

Definition drm_atomic_helper_check_modeset (s : atomic_state) : result atomic_state :=
  let user_connectors_mask := state_mask s in
  try* s := for_each get_crtc crtc_changes each_crtc s in
  try* s := handle_conflicting_encoders false s in
  let connectors_mask := state_mask s in
  try* s := for_each get_conn (route_connector user_connectors_mask) each_conn s in
  try* s := for_each get_crtc affected_by each_crtc s in
  try* s := for_each get_conn (fun k _ s =>
    if truthy (connectors_mask .& BIT (Z.of_nat k)) then inr s else connector_driver_check k s) each_conn s in
  try* s := for_each get_conn (fun k '(old, new) s =>
    try* s := add_bridges (cnf_encoder old) s in add_bridges (cnf_encoder new) s) each_conn s in
  try* s := mode_valid s in
  mode_fixup s.

(** ** The planes, and the whole check *)

Definition drm_atomic_helper_plane_changed (x : option nat * option nat) (s : atomic_state) : atomic_state :=
  let changed c s := match c with
                     | Some c => upd_crtc c (fun x => {| x with cf_planes_changed := true |}) s
                     | None => s
                     end in
  changed x.2 (changed x.1 s).

Definition drm_atomic_helper_check_planes (s : atomic_state) : result atomic_state :=
  try* s := for_each get_plane (fun p x s =>
    let s := drm_atomic_helper_plane_changed x s in
    match hk_plane_check hk p with Some f => check0 (f s) s | None => inr s end) each_plane s in
  for_each get_crtc (fun c _ s =>
    match hk_crtc_check hk c with
    | Some f => let '(ret, mode) := f s in if truthy ret then inl ret else inr (set_adjusted c mode s)
    | None => inr s
    end) each_crtc s.

Definition drm_atomic_helper_check (s : atomic_state) : result atomic_state :=
  try* s := drm_atomic_helper_check_modeset s in
  drm_atomic_helper_check_planes s.

Definition drm_atomic_crtc_check (x : crtc_full * crtc_full) : Z :=
  let '(old, new) := x in
  if st_active (cf_st new) && negb (st_enable (cf_st new)) then - EINVAL
  else if st_enable (cf_st new) && bool_decide (cf_mode_blob new = None) then - EINVAL
  else if negb (st_enable (cf_st new)) && bool_decide (is_Some (cf_mode_blob new)) then - EINVAL
  else if cf_event new && negb (st_active (cf_st new)) && negb (st_active (cf_st old)) then - EINVAL
  else 0.

(** A writeback job, with its framebuffer and out-fence; without a framebuffer it is
    dropped. *)
Definition drm_atomic_connector_check (k : nat) (new : conn_full) (s : atomic_state) : result atomic_state :=
  if negb (hk_writeback hk k) then inr s
  else
    match cnf_job new with
    | None => inr s
    | Some fb =>
        if fb && bool_decide (cnf_crtc new = None) then inl (- EINVAL)
        else
          let active := match cnf_crtc new ≫= new_crtc s with Some x => st_active (cf_st x) | None => false end in
          if fb && negb active then inl (- EINVAL)
          else if negb fb then
            if cnf_out_fence new then inl (- EINVAL)
            else inr (upd_conn k (fun x => {| x with cnf_job := None |}) s)
          else inr s
    end.

Definition drm_atomic_check_only (s : atomic_state) : result atomic_state :=
  try* s := for_each get_plane (fun p _ s => check0 (hk_plane_core_check hk p s) s) each_plane s in
  try* s := for_each get_crtc (fun c x s => check0 (drm_atomic_crtc_check x) s) each_crtc s in
  try* s := for_each get_conn (fun k '(_, new) s => drm_atomic_connector_check k new s) each_conn s in
  try* s := drm_atomic_helper_check s in
  if as_allow_modeset s then inr s
  else for_each get_crtc (fun c x s =>
         if drm_atomic_crtc_needs_modeset (cf_st x.2) then inl (- EINVAL) else inr s) each_crtc s.
End Check.

(** ** Facts about the loops *)

Section Facts.
Context `{AI : !AtomicInlines} `{L : !AtomicInlinesLaws} (lk : kms_locks) (hk : kms_hooks) (D : mode_config).

Notation n := (mc_num_connector D).

Lemma each_conn_in k : k ∈ each_conn D <-> (k < n)%nat.
Proof using. unfold each_conn. rewrite elem_of_seq. lia. Qed.

Lemma each_crtc_in c : c ∈ each_crtc D <-> (c < mc_num_crtc D)%nat.
Proof using. unfold each_crtc. rewrite elem_of_seq. lia. Qed.

(** *** No encoder is assigned twice *)

(** Of the connector [k] of the commit, if it has a CRTC. *)
Definition wants (s : atomic_state) (k e : nat) : Prop :=
  exists x, new_conn s k = Some x /\ is_Some (cnf_crtc x) /\ pick_encoder hk s k = Some e.

Lemma mask_bit m e : truthy (m .& drm_encoder_mask e) = Z.testbit m (Z.of_nat e).
Proof using. apply truthy_land_BIT. lia. Qed.

Lemma mask_add m e e' :
  Z.testbit (m .| drm_encoder_mask e) (Z.of_nat e') = Z.testbit m (Z.of_nat e') || bool_decide (e' = e).
Proof using.
  rewrite Z.lor_spec. unfold drm_encoder_mask. rewrite BIT_testbit by lia. f_equal.
  destruct (Z.eqb_spec (Z.of_nat e') (Z.of_nat e)); symmetry; [apply bool_decide_eq_true_2|apply bool_decide_eq_false_2]; lia.
Qed.

Lemma mask_del m e e' :
  Z.testbit (Z.ldiff m (drm_encoder_mask e)) (Z.of_nat e') = Z.testbit m (Z.of_nat e') && negb (bool_decide (e' = e)).
Proof using.
  rewrite Z.ldiff_spec. unfold drm_encoder_mask. rewrite BIT_testbit by lia. do 2 f_equal.
  destruct (Z.eqb_spec (Z.of_nat e') (Z.of_nat e)); symmetry; [apply bool_decide_eq_true_2|apply bool_decide_eq_false_2]; lia.
Qed.

Lemma assigned_spec s l : forall m m',
  assigned_encoders hk s l m = inr m' -> NoDup l ->
  (forall e, Z.testbit m' (Z.of_nat e) = true
             <-> Z.testbit m (Z.of_nat e) = true \/ exists k, k ∈ l /\ wants s k e)
  /\ (forall k e, k ∈ l -> wants s k e -> Z.testbit m (Z.of_nat e) = false)
  /\ (forall k k' e, k ∈ l -> k' ∈ l -> wants s k e -> wants s k' e -> k = k').
Proof using.
  induction l as [|k l IH]; cbn; intros m m' H Hnd.
  { injection H as <-. split_and!; [|by intros k e ?%not_elem_of_nil|by intros k k' e ?%not_elem_of_nil].
    intros e. split; [by left|]. intros [?|(k & ?%not_elem_of_nil & _)]; done. }
  apply NoDup_cons in Hnd as [Hk Hnd].
  assert (Hskip : assigned_encoders hk s l m = inr m' -> (forall e, ~ wants s k e) ->
    (forall e, Z.testbit m' (Z.of_nat e) = true
             <-> Z.testbit m (Z.of_nat e) = true \/ exists k', k' ∈ k :: l /\ wants s k' e)
    /\ (forall k' e, k' ∈ k :: l -> wants s k' e -> Z.testbit m (Z.of_nat e) = false)
    /\ (forall k1 k2 e, k1 ∈ k :: l -> k2 ∈ k :: l -> wants s k1 e -> wants s k2 e -> k1 = k2)).
  { intros H1 Hno. destruct (IH _ _ H1 Hnd) as (A & B & E). setoid_rewrite elem_of_cons. split_and!.
    - intros e. rewrite A. apply or_iff_compat_l, exist_proper. intros k'. split; [naive_solver|].
      intros [[->|?] Hw]; [by destruct (Hno e)|done].
    - intros k' e [->|?] Hw; [by destruct (Hno e)|eauto].
    - intros k1 k2 e [->|Hk1] [->|Hk2] Hw1 Hw2; try done; [by destruct (Hno e)..|eauto]. }
  unfold wants in Hskip. destruct (new_conn s k) as [x|] eqn:Ex.
  2: { apply Hskip; [done|]. intros e (? & ? & _). done. }
  case_bool_decide as Ec. { apply Hskip; [done|]. intros e (? & [= <-] & [? ?] & _). congruence. }
  destruct (pick_encoder hk s k) as [e0|] eqn:Ep.
  2: { apply Hskip; [done|]. intros e (? & _ & _ & ?). done. }
  clear Hskip. rewrite mask_bit in H. destruct (Z.testbit m (Z.of_nat e0)) eqn:Eb; [done|].
  destruct (IH _ _ H Hnd) as (A & B & E). setoid_rewrite elem_of_cons.
  assert (Hw : wants s k e0) by (exists x; split_and!; [done| |done]; by destruct (cnf_crtc x); [eexists|]).
  assert (Hu : forall e, wants s k e -> e = e0) by (intros e (? & _ & _ & ?); congruence).
  assert (Hl : forall k' e, k' ∈ l -> wants s k' e -> Z.testbit m (Z.of_nat e) = false /\ e <> e0).
  { intros k' e H1 H2. specialize (B k' e H1 H2). rewrite mask_add in B.
    apply orb_false_iff in B as [? B]. split; [done|]. by case_bool_decide. }
  split_and!.
  - intros e. rewrite A, mask_add, orb_true_iff, bool_decide_eq_true. split.
    + intros [[?| ->]|(k' & ? & ?)]; eauto.
    + intros [?|(k' & [->|?] & ?)]; [by auto|left; right; by apply Hu|eauto].
  - intros k' e [->|Hk'] Hw'; [by rewrite (Hu e Hw')|by eapply Hl].
  - intros k1 k2 e [->|Hk1] [->|Hk2] Hw1 Hw2; [done| | |eauto].
    + apply Hu in Hw1 as ->. by destruct (Hl k2 e0 Hk2 Hw2).
    + apply Hu in Hw2 as ->. by destruct (Hl k1 e0 Hk1 Hw1).
Qed.

(** Nothing outside the commit is in the way, and nothing is changed. *)
Lemma handle_conflicting_spec s s' :
  handle_conflicting_encoders lk hk D false s = inr s' ->
  s' = s
  /\ (forall k k' e, (k < n)%nat -> (k' < n)%nat -> wants s k e -> wants s k' e -> k = k')
  /\ (forall k k' e, (k < n)%nat -> (k' < n)%nat -> wants s k e -> new_conn s k' = None ->
        cnf_encoder (mc_conn D k') <> Some e).
Proof using.
  unfold handle_conflicting_encoders. intros (m & Hm & H)%rbind_inr.
  destruct (assigned_spec s (each_conn D) 0 m Hm) as (A & _ & E); [apply NoDup_seq|].
  assert (Hin : forall k e, (k < n)%nat -> wants s k e -> Z.testbit m (Z.of_nat e) = true).
  { intros k e Hk Hw. apply A. right. exists k. by rewrite each_conn_in. }
  assert (Hfree : s' = s /\ forall k' e, (k' < n)%nat -> new_conn s k' = None ->
            cnf_encoder (mc_conn D k') = Some e -> Z.testbit m (Z.of_nat e) = false).
  { destruct (Z.eqb_spec m 0) as [->|_].
    { injection H as <-. split; [done|]. intros. apply Z.bits_0. }
    setoid_rewrite <- each_conn_in. revert H. generalize (each_conn D) as l.
    induction l as [|k l IH]; cbn; intros H; [injection H as <-; split; [done|by intros ? ? ?%not_elem_of_nil]|].
    apply rbind_inr in H as (s1 & H1 & H). unfold conflicting_connector in H1.
    assert (Hs : s1 = s /\ (new_conn s k = None -> forall e, cnf_encoder (mc_conn D k) = Some e ->
                            Z.testbit m (Z.of_nat e) = false)).
    { destruct (new_conn s k); [by injection H1 as <-|]. destruct (cnf_encoder (mc_conn D k)) as [e|];
        [|by injection H1 as <-]. rewrite mask_bit in H1. destruct (Z.testbit m (Z.of_nat e)) eqn:Eb; cbn in H1; [done|].
      injection H1 as <-. split; [done|]. by intros _ e' [= <-]. }
    destruct Hs as [-> Hk]. destruct (IH H) as [-> Hl]. split; [done|].
    intros k' e [->|?]%elem_of_cons; [intros; by eapply Hk|eauto]. }
  destruct Hfree as [-> Hfree]. split; [done|]. split.
  - intros k k' e Hk Hk' H1 H2. apply (E k k' e); by rewrite ?each_conn_in.
  - intros k k' e Hk Hk' H1 H2 H3. specialize (Hin k e Hk H1). rewrite (Hfree k' e) in Hin; done.
Qed.

(** *** What the check does to states *)

(** Flags are only set; [enable], [active] and the connectors stay. *)
Record crtc_adv (x y : crtc_full) : Prop := {
  ca_enable : st_enable (cf_st y) = st_enable (cf_st x);
  ca_active : st_active (cf_st y) = st_active (cf_st x);
  ca_refresh : st_self_refresh_active (cf_st y) = st_self_refresh_active (cf_st x);
  ca_connectors : cf_connector_mask y = cf_connector_mask x;
  ca_mode : cf_mode y = cf_mode x;
  ca_blob : cf_mode_blob y = cf_mode_blob x;
  ca_mode_changed : st_mode_changed (cf_st x) = true -> st_mode_changed (cf_st y) = true;
  ca_active_changed : st_active_changed (cf_st x) = true -> st_active_changed (cf_st y) = true;
  ca_connectors_changed : st_connectors_changed (cf_st x) = true -> st_connectors_changed (cf_st y) = true
}.

#[export] Instance crtc_adv_preorder : PreOrder crtc_adv.
Proof using.
  split; [by intros x; split|]. intros x y z [] []. split; try congruence; auto.
Qed.

(** The same objects, connectors on the same CRTCs. *)
Record adv (s s' : atomic_state) : Prop := {
  adv_crtc c o x : as_crtcs s !! c = Some (o, x) -> exists y, as_crtcs s' !! c = Some (o, y) /\ crtc_adv x y;
  adv_no_crtc c : as_crtcs s !! c = None -> as_crtcs s' !! c = None;
  adv_conn k o x : as_conns s !! k = Some (o, x) ->
    exists y, as_conns s' !! k = Some (o, y) /\ cnf_crtc y = cnf_crtc x;
  adv_no_conn k : as_conns s !! k = None -> as_conns s' !! k = None;
  adv_plane : as_planes s' = as_planes s;
  adv_allow : as_allow_modeset s' = as_allow_modeset s
}.

#[export] Instance adv_preorder : PreOrder adv.
Proof using.
  split; [intros s; split; try done; intros; eexists; (split; [done|]); reflexivity|].
  intros s1 s2 s3 [A1 A2 A3 A4 A5 A6] [B1 B2 B3 B4 B5 B6]. split; [|by auto| |by auto|congruence..].
  - intros c o x (y & Hy & ?)%A1. destruct (B1 _ _ _ Hy) as (z & ? & ?). exists z. split; [done|by etransitivity].
  - intros k o x (y & Hy & ?)%A3. destruct (B3 _ _ _ Hy) as (z & ? & ?). exists z. split; [done|congruence].
Qed.

Lemma adv_upd_crtc c f s : (forall x, crtc_adv x (f x)) -> adv s (upd_crtc c f s).
Proof using.
  intros Hf. split; try by eauto.
  - intros c' o x H. rewrite lookup_upd_crtc, H. case_decide; cbn; eexists; (split; [done|]); [apply Hf|done].
  - intros c' H. rewrite lookup_upd_crtc, H. by case_decide.
Qed.

Lemma adv_upd_conn k f s : (forall x, cnf_crtc (f x) = cnf_crtc x) -> adv s (upd_conn k f s).
Proof using.
  intros Hf. split; try by eauto.
  - intros c o x H. exists x. split; [exact H|reflexivity].
  - intros k' o x H. rewrite lookup_upd_conn, H. case_decide; cbn; eexists; (split; [done|]); [apply Hf|done].
  - intros k' H. rewrite lookup_upd_conn, H. by case_decide.
Qed.

Lemma adv_new_crtc s s' c x : adv s s' -> new_crtc s c = Some x -> exists y, new_crtc s' c = Some y /\ crtc_adv x y.
Proof using.
  intros H. unfold new_crtc. intros ([o x'] & Hp & ->)%fmap_Some.
  destruct (adv_crtc _ _ H c o x' Hp) as (y & -> & ?). by exists y.
Qed.

Lemma adv_crtc_back s s' c o y : adv s s' -> as_crtcs s' !! c = Some (o, y) ->
  exists x, as_crtcs s !! c = Some (o, x) /\ crtc_adv x y.
Proof using.
  intros H Hy. destruct (as_crtcs s !! c) as [[o' x]|] eqn:E.
  - destruct (adv_crtc _ _ H _ _ _ E) as (y' & Hy' & ?). rewrite Hy in Hy'. injection Hy' as -> ->. by exists x.
  - by rewrite (adv_no_crtc _ _ H _ E) in Hy.
Qed.

Lemma adv_conn_back s s' k o y : adv s s' -> as_conns s' !! k = Some (o, y) ->
  exists x, as_conns s !! k = Some (o, x) /\ cnf_crtc y = cnf_crtc x.
Proof using.
  intros H Hy. destruct (as_conns s !! k) as [[o' x]|] eqn:E.
  - destruct (adv_conn _ _ H _ _ _ E) as (y' & Hy' & ?). rewrite Hy in Hy'. injection Hy' as -> ->. by exists x.
  - by rewrite (adv_no_conn _ _ H _ E) in Hy.
Qed.

Lemma adv_cur_crtc s s' k : adv s s' -> cnf_crtc (cur_conn D s' k) = cnf_crtc (cur_conn D s k).
Proof using.
  intros H. unfold cur_conn, new_conn. destruct (as_conns s !! k) as [[o x]|] eqn:E.
  - by destruct (adv_conn _ _ H _ _ _ E) as (y & -> & ?).
  - by rewrite (adv_no_conn _ _ H _ E).
Qed.

Lemma wf_adv s s' : adv s s' -> state_wf D s -> state_wf D s'.
Proof using.
  intros H [W1 W2 W3 W4 W5 W6]. split.
  - intros c old new (x & Hx & Ha)%(adv_crtc_back _ _ _ _ _ H). rewrite (ca_refresh _ _ Ha), (ca_mode _ _ Ha), (ca_blob _ _ Ha). by eapply W1.
  - intros k old new (x & Hx & _)%(adv_conn_back _ _ _ _ _ H). by eapply W2.
  - rewrite (adv_plane _ _ H). apply W3.
  - intros k old new c (x & Hx & ->)%(adv_conn_back _ _ _ _ _ H) Ho.
    destruct (W4 _ _ _ _ Hx Ho) as [[o y] Hy]. destruct (adv_crtc _ _ H _ _ _ Hy) as (z & -> & _). by eexists.
  - rewrite (adv_plane _ _ H). intros p old new c Hp Ho.
    destruct (W5 _ _ _ _ Hp Ho) as [[o y] Hy]. destruct (adv_crtc _ _ H _ _ _ Hy) as (z & -> & _). by eexists.
  - intros c old new k (x & Hx & Ha)%(adv_crtc_back _ _ _ _ _ H) Hk.
    rewrite (ca_connectors _ _ Ha), (adv_cur_crtc _ _ _ H). by eapply W6.
Qed.

Lemma adv_view s s' : adv s s' -> new_view D s' ≡ new_view D s.
Proof using.
  intros H.
  assert (Hc : forall c, st_active (cf_st (cur_crtc D s' c)) = st_active (cf_st (cur_crtc D s c))
                         /\ cf_mode (cur_crtc D s' c) = cf_mode (cur_crtc D s c)).
  { intros c. unfold cur_crtc, new_crtc. destruct (as_crtcs s !! c) as [[o x]|] eqn:E.
    - destruct (adv_crtc _ _ H _ _ _ E) as (y & -> & []). done.
    - by rewrite (adv_no_crtc _ _ H _ E). }
  split; cbn; try (intros c; by apply Hc); [intros k; by apply adv_cur_crtc|].
  intros p. unfold cur_plane. by rewrite (adv_plane _ _ H).
Qed.

(** A CRTC of the commit gets a full modeset. *)
Definition flagged (s : atomic_state) (c : nat) : Prop :=
  exists x, new_crtc s c = Some x /\ drm_atomic_crtc_needs_modeset (cf_st x) = true.

Lemma crtc_adv_needs x y :
  crtc_adv x y -> drm_atomic_crtc_needs_modeset (cf_st x) = true -> drm_atomic_crtc_needs_modeset (cf_st y) = true.
Proof using L.
  intros []. rewrite !needs_modeset_spec, !orb_true_iff. intuition auto.
Qed.

Lemma flagged_adv s s' c : adv s s' -> flagged s c -> flagged s' c.
Proof using L.
  intros H (x & Hx & Hm). destruct (adv_new_crtc _ _ _ _ H Hx) as (y & Hy & Ha). exists y.
  split; [done|by eapply crtc_adv_needs].
Qed.

(** *** Where the encoders are *)

(** The encoder masks hold the pairs of a CRTC and an encoder in [loc]. *)
Definition masks (loc : nat -> option nat * option nat) (s : atomic_state) : Prop :=
  forall c old new e, as_crtcs s !! c = Some (old, new) ->
    Z.testbit (cf_encoder_mask new) (Z.of_nat e) = true <-> exists k, (k < n)%nat /\ loc k = (Some c, Some e).

Definition apart (loc : nat -> option nat * option nat) : Prop :=
  forall k k' e, (k < n)%nat -> (k' < n)%nat -> (loc k).2 = Some e -> (loc k').2 = Some e -> k = k'.

Lemma masks_ext loc loc' s :
  (forall k c e, (k < n)%nat -> loc k = (Some c, Some e) <-> loc' k = (Some c, Some e)) -> masks loc s -> masks loc' s.
Proof using. intros H M c old new e Hc. rewrite (M c old new e Hc). split; intros (k & Hk & ?); exists k; naive_solver. Qed.

Definition with_loc (loc : nat -> option nat * option nat) (k : nat) (x : option nat * option nat) (k' : nat) :=
  if decide (k' = k) then x else loc k'.

Lemma set_best_adv k e s : adv s (set_best_encoder D k e s).
Proof using.
  unfold set_best_encoder. destruct (new_conn s k); [|done].
  assert (Ha : forall x m, crtc_adv x {| x with cf_encoder_mask := m |}) by (intros x m; by split).
  etransitivity; [|by apply adv_upd_conn]. cbv zeta.
  repeat case_match; repeat (reflexivity || (etransitivity; [|by apply adv_upd_crtc; intros ?; apply Ha])).
Qed.

Lemma set_best_conns k enc x s :
  new_conn s k = Some x ->
  as_conns (set_best_encoder D k enc s) = as_conns (upd_conn k (fun x => {| x with cnf_encoder := enc |}) s).
Proof using. intros Hx. unfold set_best_encoder. rewrite Hx. by repeat case_match. Qed.

Lemma set_best_mask k enc x s c old new :
  new_conn s k = Some x -> as_crtcs (set_best_encoder D k enc s) !! c = Some (old, new) ->
  exists new0, as_crtcs s !! c = Some (old, new0)
  /\ forall e, Z.testbit (cf_encoder_mask new) (Z.of_nat e) = true
       <-> (Z.testbit (cf_encoder_mask new0) (Z.of_nat e) = true
            /\ ~ (cnf_crtc (mc_conn D k) = Some c /\ cnf_encoder x = Some e))
           \/ (cnf_crtc x = Some c /\ enc = Some e).
Proof using.
  intros Hx. unfold set_best_encoder. rewrite Hx. cbv zeta.
  change (as_crtcs (upd_conn k _ ?s0)) with (as_crtcs s0).
  set (s1 := match cnf_encoder x with Some _ => _ | None => s end).
  assert (H1 : forall old new1, as_crtcs s1 !! c = Some (old, new1) ->
    exists new0, as_crtcs s !! c = Some (old, new0)
    /\ forall e, Z.testbit (cf_encoder_mask new1) (Z.of_nat e) = true
         <-> Z.testbit (cf_encoder_mask new0) (Z.of_nat e) = true
             /\ ~ (cnf_crtc (mc_conn D k) = Some c /\ cnf_encoder x = Some e)).
  { unfold s1. destruct (cnf_encoder x) as [e0|], (cnf_crtc (mc_conn D k)) as [c0|]; intros o m.
    2-4: intros Hm; exists m; split; [done|naive_solver].
    intros (m0 & Hm & ->)%upd_crtc_inv. exists m0. split; [done|]. intros e.
    destruct (decide (c0 = c)) as [<-|Hne]; cbn [cf_encoder_mask].
    - rewrite mask_del, andb_true_iff, negb_true_iff, bool_decide_eq_false. naive_solver.
    - naive_solver. }
  clearbody s1. destruct enc as [e0|], (cnf_crtc x) as [c0|]; intros H.
  2-4: destruct (H1 _ _ H) as (m0 & Hm & Hb); exists m0; split; [done|]; intros e; rewrite Hb; naive_solver.
  apply upd_crtc_inv in H as (m & Hm & ->). destruct (H1 _ _ Hm) as (m0 & Hm0 & Hb). exists m0.
  split; [done|]. intros e. destruct (decide (c0 = c)) as [<-|Hne]; cbn [cf_encoder_mask].
  - rewrite mask_add, orb_true_iff, Hb, bool_decide_eq_true. naive_solver.
  - rewrite Hb. naive_solver.
Qed.

Lemma set_best_masks k enc x loc s :
  new_conn s k = Some x -> (k < n)%nat -> masks loc s -> apart loc ->
  loc k = (cnf_crtc (mc_conn D k), cnf_encoder x) ->
  masks (with_loc loc k (cnf_crtc x, enc)) (set_best_encoder D k enc s).
Proof using.
  intros Hx Hk M Hap Hloc c old new e Hc. destruct (set_best_mask _ _ _ _ _ _ _ Hx Hc) as (m & Hm & Hb).
  rewrite Hb, (M c old m e Hm). unfold with_loc. split.
  - intros [[(k' & Hk' & Hl) Hno]|[E1 E2]].
    + exists k'. split; [done|]. rewrite decide_False; [done|]. intros ->. apply Hno. rewrite Hloc in Hl. by injection Hl.
    + exists k. rewrite decide_True by done. by rewrite E1, E2.
  - intros (k' & Hk' & Hl). case_decide as E; [right; by injection Hl|left]. split; [by exists k'|].
    intros [E1 E2]. apply E. apply (Hap k' k e); try done; [by rewrite Hl|by rewrite Hloc].
Qed.

(** *** The routing loop *)

Section Routing.
Context (C : config_ok D).

(** The answer of the encoder hooks depends on the CRTCs of the connectors only. *)
Definition stable_encoders : Prop := forall s s' k,
  (forall k, cnf_crtc <$> new_conn s k = cnf_crtc <$> new_conn s' k) -> pick_encoder hk s k = pick_encoder hk s' k.

Context (Hstable : stable_encoders) (s0 : atomic_state).
Hypothesis (W0 : state_wf D s0).
Hypothesis Hwants : forall k k' e, (k < n)%nat -> (k' < n)%nat -> wants s0 k e -> wants s0 k' e -> k = k'.
Hypothesis Hfree : forall k k' e, (k < n)%nat -> (k' < n)%nat -> wants s0 k e -> new_conn s0 k' = None ->
  cnf_encoder (mc_conn D k') <> Some e.

Lemma pick_adv s k : adv s0 s -> pick_encoder hk s k = pick_encoder hk s0 k.
Proof using Hstable.
  intros H. apply Hstable. intros k'. unfold new_conn. destruct (as_conns s0 !! k') as [[o x]|] eqn:E.
  - destruct (adv_conn _ _ H _ _ _ E) as (y & -> & Hy). cbn. by rewrite Hy.
  - by rewrite (adv_no_conn _ _ H _ E).
Qed.

(** The connectors in [pre] are routed: the encoder bit of a connector moves from its
    old to its new CRTC. *)
Definition loc (pre : list nat) (s : atomic_state) (k : nat) : option nat * option nat :=
  (if decide (k ∈ pre) then cnf_crtc (cur_conn D s k) else cnf_crtc (mc_conn D k), cnf_encoder (cur_conn D s k)).

Definition good_route (k : nat) (crtc enc : option nat) : Prop :=
  match crtc with
  | None => enc = None
  | Some c => exists e, enc = Some e /\ pick_encoder hk s0 k = Some e
                        /\ truthy (hk_possible_crtcs hk e .& BIT (Z.of_nat c)) = true
  end.

Record routing (pre todo : list nat) (s : atomic_state) : Prop := {
  rt_adv : adv s0 s;
  rt_done k x : k ∈ pre -> new_conn s k = Some x -> good_route k (cnf_crtc x) (cnf_encoder x);
  rt_todo k old new : k ∉ pre -> as_conns s !! k = Some (old, new) ->
    cnf_encoder new = cnf_encoder old \/ cnf_encoder new = None;
  rt_apart : apart (loc pre s);
  rt_masks : masks (loc pre s) s;
  rt_flagged k old new c : k ∈ pre -> as_conns s !! k = Some (old, new) ->
    (cnf_crtc old, cnf_encoder old) <> (cnf_crtc new, cnf_encoder new) ->
    cnf_crtc old = Some c \/ cnf_crtc new = Some c -> flagged s c;
  rt_list : NoDup (pre ++ todo)
}.

(** Setting flags. *)
Record flags_only (s s' : atomic_state) : Prop := {
  fo_crtc c o x : as_crtcs s !! c = Some (o, x) ->
    exists y, as_crtcs s' !! c = Some (o, y) /\ crtc_adv x y /\ cf_encoder_mask y = cf_encoder_mask x;
  fo_no_crtc c : as_crtcs s !! c = None -> as_crtcs s' !! c = None;
  fo_conns : as_conns s' = as_conns s;
  fo_planes : as_planes s' = as_planes s;
  fo_allow : as_allow_modeset s' = as_allow_modeset s
}.

#[export] Instance flags_only_preorder : PreOrder flags_only.
Proof using.
  split; [intros s; split; try done; intros c o x ?; exists x; by split_and!|].
  intros s1 s2 s3 [A1 A2 A3 A4 A5] [B1 B2 B3 B4 B5]. split; [|by auto|congruence..].
  intros c o x (y & Hy & ? & ?)%A1. destruct (B1 _ _ _ Hy) as (z & ? & ? & ?). exists z.
  split_and!; [done|by etransitivity|congruence].
Qed.

Lemma flags_only_adv s s' : flags_only s s' -> adv s s'.
Proof using.
  intros [F1 F2 F3 F4 F5]. split; try done; rewrite ?F3; try done.
  - intros c o x (y & ? & ? & _)%F1. by exists y.
  - intros k o x H. exists x. by rewrite H.
Qed.

Lemma flags_only_upd c f s :
  (forall x, crtc_adv x (f x) /\ cf_encoder_mask (f x) = cf_encoder_mask x) -> flags_only s (upd_crtc c f s).
Proof using.
  intros Hf. split; try done.
  - intros c' o x H. rewrite lookup_upd_crtc, H. case_decide; cbn; eexists; (split; [done|]); [apply Hf|by split].
  - intros c' H. rewrite lookup_upd_crtc, H. by case_decide.
Qed.

Lemma opt_changed_flags c s : flags_only s (opt_changed c s).
Proof using. destruct c; [|done]. apply flags_only_upd. intros x. split; [by split|done]. Qed.

Lemma connectors_changed_flags c s : flags_only s (connectors_changed c s).
Proof using. apply (opt_changed_flags (Some c)). Qed.

Lemma connectors_changed_flagged c s : is_Some (as_crtcs s !! c) -> flagged (connectors_changed c s) c.
Proof using L.
  intros [[o x] Hx]. unfold flagged, new_crtc, connectors_changed. rewrite lookup_upd_crtc, Hx, decide_True by done.
  cbn. eexists. split; [done|]. rewrite needs_modeset_spec. cbn. apply orb_true_r.
Qed.

Lemma loc_conns pre s s' : as_conns s' = as_conns s -> loc pre s' = loc pre s.
Proof using. intros H. unfold loc, cur_conn, new_conn. by rewrite H. Qed.

Lemma routing_flags pre todo s s' : flags_only s s' -> routing pre todo s -> routing pre todo s'.
Proof using L.
  intros F [R1 R2 R3 R4 R5 R6 R7]. pose proof (flags_only_adv _ _ F) as A. pose proof (fo_conns _ _ F) as Hc.
  split; try done; rewrite ?(loc_conns _ _ _ Hc); try done.
  - by etransitivity.
  - intros k x. unfold new_conn. rewrite Hc. apply R2.
  - intros k old new. rewrite Hc. apply R3.
  - intros c old new e Hn. destruct (adv_crtc_back _ _ _ _ _ A Hn) as (x & Hx & _).
    destruct (fo_crtc _ _ F _ _ _ Hx) as (y & Hy & _ & Hm). rewrite Hn in Hy. injection Hy as <-. rewrite Hm. by eapply R5.
  - intros k old new c Hk. rewrite Hc. intros Hs Hd Ho. eapply flagged_adv; [done|]. by eapply R6.
Qed.

(** Giving the connector [k] of the commit an encoder that no other has, or none. *)
Lemma set_best_enc k enc x s k' :
  new_conn s k = Some x ->
  cnf_encoder (cur_conn D (set_best_encoder D k enc s) k')
  = if decide (k' = k) then enc else cnf_encoder (cur_conn D s k').
Proof using.
  intros Hx. unfold cur_conn at 1, new_conn. rewrite (set_best_conns k enc x s Hx).
  change (cnf_encoder (cur_conn D (upd_conn k (fun x => {| x with cnf_encoder := enc |}) s) k')
          = if decide (k' = k) then enc else cnf_encoder (cur_conn D s k')).
  rewrite cur_conn_upd_conn. destruct (decide (k' = k)) as [->|Hne].
  - rewrite decide_True by (split; [done|by exists x]). done.
  - rewrite decide_False; [done|naive_solver].
Qed.

Lemma set_best_apart pre pre' k enc x s :
  new_conn s k = Some x -> apart (loc pre s) ->
  (forall k' e, enc = Some e -> (k' < n)%nat -> k' <> k -> cnf_encoder (cur_conn D s k') <> Some e) ->
  apart (loc pre' (set_best_encoder D k enc s)).
Proof using.
  intros Hx Hap He k1 k2 e H1 H2. unfold loc. cbn. rewrite !(set_best_enc k enc x s _ Hx).
  destruct (decide (k1 = k)) as [->|N1], (decide (k2 = k)) as [->|N2]; try done; intros E1 E2.
  - by destruct (He k2 e).
  - by destruct (He k1 e).
  - by apply (Hap k1 k2 e).
Qed.

(** The step of the loop that gives [k] its encoder [enc]. *)
Lemma routing_set_best pre todo k enc old x s :
  routing pre (k :: todo) s -> (k < n)%nat -> as_conns s !! k = Some (old, x) ->
  (forall k' e, enc = Some e -> (k' < n)%nat -> k' <> k -> cnf_encoder (cur_conn D s k') <> Some e) ->
  good_route k (cnf_crtc x) enc ->
  (forall c, (cnf_crtc old, cnf_encoder old) <> (cnf_crtc x, enc) ->
     cnf_crtc old = Some c \/ cnf_crtc x = Some c -> flagged s c) ->
  routing (pre ++ [k]) todo (set_best_encoder D k enc s).
Proof using W0 L.
  intros [R1 R2 R3 R4 R5 R6 R7] Hk Hs Hno Henc Hfl.
  assert (Hx : new_conn s k = Some x) by (apply new_conn_Some; by eexists).
  assert (Hnk : k ∉ pre).
  { intros Hin. rewrite cons_middle, app_assoc in R7. apply NoDup_app in R7 as [R7 _].
    apply NoDup_app in R7 as (_ & R7 & _). apply (R7 k Hin). left. }
  pose proof (set_best_adv k enc s) as A.
  assert (Hback : forall k' o y, as_conns (set_best_encoder D k enc s) !! k' = Some (o, y) ->
    exists y0, as_conns s !! k' = Some (o, y0) /\ y = if decide (k = k') then {| y0 with cnf_encoder := enc |} else y0).
  { intros k' o y. rewrite (set_best_conns k enc x s Hx). apply upd_conn_inv. }
  split.
  - by etransitivity.
  - intros k' y Hin (o & Ho)%new_conn_Some. destruct (Hback _ _ _ Ho) as (y0 & Hy0 & ->).
    case_decide as E; [subst k'; rewrite Hs in Hy0; injection Hy0 as <- <-; done|].
    apply R2; [|by apply new_conn_Some; eexists]. apply elem_of_app in Hin as [?|?%list_elem_of_singleton]; congruence.
  - intros k' o y Hin Ho. destruct (Hback _ _ _ Ho) as (y0 & Hy0 & ->).
    rewrite elem_of_app, list_elem_of_singleton in Hin.
    rewrite decide_False by (intros <-; apply Hin; by right). eapply R3; [|done]. intros ?. apply Hin. by left.
  - by eapply set_best_apart.
  - apply (masks_ext (with_loc (loc pre s) k (cnf_crtc x, enc))).
    + intros k' c e Hk'. unfold with_loc, loc. rewrite (set_best_enc k enc x s _ Hx), (adv_cur_crtc _ _ _ A).
      destruct (decide (k' = k)) as [->|Hne].
      * rewrite decide_True by (apply elem_of_app; right; by apply list_elem_of_singleton).
        unfold cur_conn. by rewrite Hx.
      * replace (if decide (k' ∈ pre ++ [k]) then cnf_crtc (cur_conn D s k') else cnf_crtc (mc_conn D k'))
          with (if decide (k' ∈ pre) then cnf_crtc (cur_conn D s k') else cnf_crtc (mc_conn D k')); [done|].
        apply decide_ext. rewrite elem_of_app, list_elem_of_singleton. naive_solver.
    + apply set_best_masks; try done. unfold loc, cur_conn. by rewrite decide_False, Hx.
  - intros k' o y c Hin Ho Hd Hc. destruct (Hback _ _ _ Ho) as (y0 & Hy0 & ->). eapply flagged_adv; [done|].
    case_decide as E; [subst k'; rewrite Hs in Hy0; injection Hy0 as <- <-; by apply Hfl|].
    eapply R6; try done. apply elem_of_app in Hin as [?|?%list_elem_of_singleton]; congruence.
  - by rewrite <- app_assoc.
Qed.

Lemma steal_spec e l s :
  let s' := steal_encoder D e l s in
  (s' = s /\ forall k x, k ∈ l -> new_conn s k = Some x -> cnf_encoder x <> Some e)
  \/ exists k old x, k ∈ l /\ as_conns s !! k = Some (old, x) /\ cnf_encoder x = Some e
       /\ s' = opt_changed (cnf_crtc old) (set_best_encoder D k None s).
Proof using.
  induction l as [|k l IH]; cbn; [left; split; [done|by intros k x ?%not_elem_of_nil]|].
  destruct (as_conns s !! k) as [[old x]|] eqn:E.
  - case_bool_decide as Ee; [right; exists k, old, x; split_and!; try done; left|].
    destruct IH as [[-> IH]|(k' & o & y & Hin & H)]; [left|right; exists k', o, y; split; [by right|done]].
    split; [done|]. intros k' y [->|?]%elem_of_cons Hy; [|by eapply IH].
    apply new_conn_Some in Hy as [o Hy]. congruence.
  - destruct IH as [[-> IH]|(k' & o & y & Hin & H)]; [left|right; exists k', o, y; split; [by right|done]].
    split; [done|]. intros k' y [->|?]%elem_of_cons Hy; [|by eapply IH].
    apply new_conn_Some in Hy as [o Hy]. congruence.
Qed.

Lemma steal_adv e l s : adv s (steal_encoder D e l s).
Proof using.
  destruct (steal_spec e l s) as [[-> _]|(k & o & x & _ & _ & _ & ->)]; [done|].
  etransitivity; [apply set_best_adv|apply flags_only_adv, opt_changed_flags].
Qed.

Lemma adv_dom s s' c : adv s s' -> is_Some (as_crtcs s !! c) -> is_Some (as_crtcs s' !! c).
Proof using. intros A [[o x] Hx]. destruct (adv_crtc _ _ A _ _ _ Hx) as (y & -> & _). by eexists. Qed.

Lemma routing_steal pre todo k old x s :
  routing pre todo s -> (k < n)%nat -> k ∉ pre -> as_conns s !! k = Some (old, x) ->
  routing pre todo (set_best_encoder D k None s).
Proof using L.
  intros [R1 R2 R3 R4 R5 R6 R7] Hk Hnk Hs.
  assert (Hx : new_conn s k = Some x) by (apply new_conn_Some; by eexists).
  pose proof (set_best_adv k None s) as A.
  assert (Hback : forall k' o y, as_conns (set_best_encoder D k None s) !! k' = Some (o, y) ->
    exists y0, as_conns s !! k' = Some (o, y0) /\ y = if decide (k = k') then {| y0 with cnf_encoder := None |} else y0).
  { intros k' o y. rewrite (set_best_conns k None x s Hx). apply upd_conn_inv. }
  split; try done.
  - by etransitivity.
  - intros k' y Hin (o & Ho)%new_conn_Some. destruct (Hback _ _ _ Ho) as (y0 & Hy0 & ->).
    rewrite decide_False by congruence. apply R2; [done|by apply new_conn_Some; eexists].
  - intros k' o y Hin Ho. destruct (Hback _ _ _ Ho) as (y0 & Hy0 & ->). case_decide; [by right|by eapply R3].
  - by eapply set_best_apart.
  - apply (masks_ext (with_loc (loc pre s) k (cnf_crtc x, None))).
    + intros k' c e Hk'. unfold with_loc, loc. rewrite (set_best_enc k None x s _ Hx), (adv_cur_crtc _ _ _ A).
      destruct (decide (k' = k)) as [->|Hne]; [split; congruence|done].
    + apply set_best_masks; try done. unfold loc, cur_conn. by rewrite decide_False, Hx.
  - intros k' o y c Hin Ho Hd Hc. destruct (Hback _ _ _ Ho) as (y0 & Hy0 & ->). eapply flagged_adv; [done|].
    rewrite decide_False in * by congruence. by eapply R6.
Qed.

Lemma in_s0 s k x : adv s0 s -> new_conn s k = Some x -> exists x0, new_conn s0 k = Some x0 /\ cnf_crtc x0 = cnf_crtc x.
Proof using.
  intros A (o & Ho)%new_conn_Some. destruct (adv_conn_back _ _ _ _ _ A Ho) as (x0 & H0 & E).
  exists x0. split; [by apply new_conn_Some; eexists|done].
Qed.

(** After it has been stolen, nobody has the encoder. *)
Lemma steal_routing pre k l e s c x :
  routing pre (k :: l) s -> (k < n)%nat -> new_conn s k = Some x -> cnf_crtc x = Some c ->
  pick_encoder hk s k = Some e -> cnf_encoder x <> Some e ->
  let s' := steal_encoder D e (each_conn D) s in
  routing pre (k :: l) s' /\ new_conn s' k = Some x
  /\ forall k', (k' < n)%nat -> cnf_encoder (cur_conn D s' k') <> Some e.
Proof using W0 L Hstable Hwants Hfree.
  intros R Hk Hx Hc He Hne. pose proof (rt_adv _ _ _ R) as A.
  assert (Hw : wants s0 k e).
  { destruct (in_s0 _ _ _ A Hx) as (x0 & H0 & E0). exists x0. rewrite E0, Hc, <- (pick_adv s k A).
    split_and!; [done|by eexists|done]. }
  assert (Hout : forall s1 k', adv s0 s1 -> (k' < n)%nat -> new_conn s1 k' = None ->
             cnf_encoder (cur_conn D s1 k') <> Some e).
  { intros s1 k' A1 Hk' Hn. unfold cur_conn. rewrite Hn. eapply Hfree; [|done..|]; [done|].
    unfold new_conn in *. destruct (as_conns s0 !! k') as [[o y]|] eqn:E0; [|done].
    destruct (adv_conn _ _ A1 _ _ _ E0) as (z & Hz & _). by rewrite Hz in Hn. }
  cbv zeta. destruct (steal_spec e (each_conn D) s) as [[-> Hno]|(k' & o & y & Hin & Hs & Ee & ->)].
  - split_and!; [done|done|]. intros k' Hk'. destruct (new_conn s k') as [y|] eqn:E; [|by apply Hout].
    unfold cur_conn. rewrite E. eapply Hno; [by apply each_conn_in|done].
  - apply each_conn_in in Hin.
    assert (Hy : new_conn s k' = Some y) by (apply new_conn_Some; by eexists).
    assert (Hkk : k' <> k) by (intros ->; congruence).
    assert (Hpre : k' ∉ pre).
    { intros Hp. pose proof (rt_done _ _ _ R k' y Hp Hy) as Hd. destruct (cnf_crtc y) as [c'|] eqn:Ec; cbn in Hd; [|congruence].
      destruct Hd as (e' & Hd1 & Hd2 & _). apply Hkk. apply (Hwants k' k e Hin Hk); [|done].
      destruct (in_s0 _ _ _ A Hy) as (y0 & H0 & E0). exists y0. rewrite E0, Ec. split_and!; [done|by eexists|congruence]. }
    pose proof (routing_steal _ _ _ _ _ _ R Hin Hpre Hs) as R1.
    pose proof (opt_changed_flags (cnf_crtc o) (set_best_encoder D k' None s)) as F.
    split_and!.
    + by eapply routing_flags.
    + unfold new_conn. rewrite (fo_conns _ _ F), (set_best_conns k' None y s Hy).
      change (new_conn (upd_conn k' (fun x => {| x with cnf_encoder := None |}) s) k = Some x).
      by rewrite new_conn_upd, decide_False.
    + intros k2 Hk2.
      replace (cur_conn D (opt_changed (cnf_crtc o) (set_best_encoder D k' None s)) k2)
        with (cur_conn D (set_best_encoder D k' None s) k2)
        by (unfold cur_conn, new_conn; by rewrite (fo_conns _ _ F)).
      rewrite (set_best_enc k' None y s _ Hy). case_decide as E2; [done|]. intros E3. apply E2.
      by apply (rt_apart _ _ _ R k2 k' e); [..|cbn; unfold cur_conn; rewrite Hy].
Qed.

Lemma flagged_flags s s' c : flags_only s s' -> flagged s c -> flagged s' c.
Proof using L. intros F. apply flagged_adv, flags_only_adv, F. Qed.

Lemma opt_changed_flagged o c s : o = Some c -> is_Some (as_crtcs s !! c) -> flagged (opt_changed o s) c.
Proof using L. intros ->. apply connectors_changed_flagged. Qed.

Lemma upd_crtc_comm c c' f g s :
  (forall x, f (g x) = g (f x)) -> upd_crtc c f (upd_crtc c' g s) = upd_crtc c' g (upd_crtc c f s).
Proof using.
  intros Hfg. unfold upd_crtc. cbn. f_equal. apply map_eq. intros i.
  destruct (decide (c = i)) as [->|N1], (decide (c' = i)) as [->|N2];
    rewrite ?lookup_alter_eq, ?lookup_alter_ne, ?lookup_alter_eq, ?lookup_alter_ne by done; try done.
  destruct (as_crtcs s !! i) as [[o x]|]; [cbn|done]. by rewrite Hfg.
Qed.

Lemma set_best_changed k enc c s :
  connectors_changed c (set_best_encoder D k enc s) = set_best_encoder D k enc (connectors_changed c s).
Proof using.
  unfold set_best_encoder. change (new_conn (connectors_changed c s) k) with (new_conn s k).
  destruct (new_conn s k) as [x|]; [|done]. cbv zeta.
  change (connectors_changed c (upd_conn k ?f ?s)) with (upd_conn k f (connectors_changed c s)). f_equal.
  unfold connectors_changed. repeat case_match; repeat (done || (rewrite upd_crtc_comm by done; f_equal)).
Qed.

(** The early return of an error. *)
Ltac bail_out := match goal with |- (if ?b then inl _ else _) = _ -> _ => destruct b; [done|] end.

Lemma update_routing_step pre k l old x user s s' :
  routing pre (k :: l) s -> as_conns s !! k = Some (old, x) ->
  update_connector_routing hk D k old x user s = inr s' -> routing (pre ++ [k]) l s'.
Proof using W0 L C Hstable Hwants Hfree.
  intros R Hs. pose proof (wf_adv _ _ (rt_adv _ _ _ R) W0) as W.
  destruct (wf_conn _ _ W _ _ _ Hs) as [Hk Hold].
  assert (Hdom : forall c, cnf_crtc old = Some c \/ cnf_crtc x = Some c -> is_Some (as_crtcs s !! c))
    by (intros c; by eapply (wf_conn_crtcs _ _ W)).
  unfold update_connector_routing. cbv zeta.
  set (s1 := if bool_decide (cnf_crtc old = cnf_crtc x) then s else _).
  assert (F : flags_only s s1).
  { unfold s1. case_match; [done|]. etransitivity; apply opt_changed_flags. }
  assert (Hfl : cnf_crtc old <> cnf_crtc x -> forall c, cnf_crtc old = Some c \/ cnf_crtc x = Some c -> flagged s1 c).
  { intros Hne c Hc. unfold s1. rewrite bool_decide_eq_false_2 by done. destruct Hc as [Hc|Hc].
    - eapply flagged_flags; [apply opt_changed_flags|]. apply opt_changed_flagged; auto.
    - apply opt_changed_flagged; [done|]. destruct (Hdom c (or_intror Hc)) as [[o y] Hy].
      destruct (fo_crtc _ _ (opt_changed_flags (cnf_crtc old) s) _ _ _ Hy) as (z & -> & _). by eexists. }
  clearbody s1. apply (routing_flags _ _ _ _ F) in R. rewrite <- (fo_conns _ _ F) in Hs.
  assert (Hx : new_conn s1 k = Some x) by (apply new_conn_Some; by eexists).
  assert (Hnk : k ∉ pre).
  { intros Hin. pose proof (rt_list _ _ _ R) as Hnd. apply NoDup_app in Hnd as (_ & Hnd & _). apply (Hnd k Hin). left. }
  pose proof (rt_todo _ _ _ R k old x Hnk Hs) as Henc.
  destruct (cnf_crtc x) as [c|] eqn:Ec.
  2: { intros [= <-]. eapply routing_set_best; [done..|by rewrite Ec|]. rewrite Ec. intros c Hd.
       apply Hfl. intros E. apply Hd. rewrite E. f_equal. subst old.
       destruct (cnf_encoder (mc_conn D k)) eqn:Ee; [|done].
       destruct (proj2 (ok_paired _ C k Hk)) as [c' Hc']; [by rewrite Ee|congruence]. }
  bail_out. destruct (pick_encoder hk s1 k) as [e|] eqn:Ep; [|done].
  destruct (truthy (hk_possible_crtcs hk e .& BIT (Z.of_nat c))) eqn:Eposs; cbn [negb]; [|done].
  assert (Hgood : good_route k (Some c) (Some e))
    by (exists e; split_and!; [done|by rewrite <- (pick_adv s1 k (rt_adv _ _ _ R))|done]).
  case_bool_decide as Ee.
  - intros [= <-]. eapply routing_set_best; [done..| | |].
    + intros k' e' [= <-] Hk' Hne E. apply Hne. apply (rt_apart _ _ _ R k' k e); [done..|].
      cbn. unfold cur_conn. by rewrite Hx.
    + by rewrite Ec.
    + intros c' Hd. rewrite Ec in *. apply Hfl. intros E. apply Hd. rewrite E, <- Ee.
      destruct Henc as [->|Henc]; [done|congruence].
  - intros [= <-].
    destruct (steal_routing pre k l e s1 c x R Hk Hx Ec Ep Ee) as (R2 & Hx2 & Hno).
    set (s2 := steal_encoder D e (each_conn D) s1) in *.
    assert (Hs2 : as_conns s2 !! k = Some (old, x)).
    { apply new_conn_Some in Hx2 as [o Ho]. destruct (wf_conn _ _ (wf_adv _ _ (rt_adv _ _ _ R2) W0) _ _ _ Ho) as [_ ->].
      by rewrite Ho, Hold. }
    pose proof (connectors_changed_flags c s2) as F2.
    rewrite set_best_changed. eapply routing_set_best.
    + by eapply routing_flags.
    + done.
    + by rewrite (fo_conns _ _ F2).
    + intros k' e' [= <-] Hk' _. unfold cur_conn, new_conn. rewrite (fo_conns _ _ F2). by apply Hno.
    + by rewrite Ec.
    + intros c' _ Hc'. rewrite Ec in Hc'.
      pose proof (steal_adv e (each_conn D) s1) as A2. fold s2 in A2.
      destruct (decide (c' = c)) as [->|Hne].
      * apply connectors_changed_flagged, (adv_dom _ _ _ A2), (adv_dom _ _ _ (flags_only_adv _ _ F)), Hdom.
        by right.
      * destruct Hc' as [Hc'|[= ?]]; [|done]. eapply flagged_flags; [done|]. eapply flagged_adv; [done|].
        apply Hfl; [congruence|by left].
Qed.

Lemma route_step um pre k l old x s s' :
  routing pre (k :: l) s -> as_conns s !! k = Some (old, x) ->
  route_connector hk D um k (old, x) s = inr s' -> routing (pre ++ [k]) l s'.
Proof using W0 L C Hstable Hwants Hfree.
  intros R Hs. unfold route_connector. intros (s1 & H1 & H)%rbind_inr.
  apply (update_routing_step _ _ _ _ _ _ _ _ R Hs) in H1.
  assert (F : flags_only s1 s').
  { unfold connector_driver_check in H. destruct (hk_connector_check hk k); [apply check0_inr in H as [_ ->]|injection H as <-].
    all: destruct (cnf_crtc old); [|done].
    all: repeat case_match; repeat (reflexivity || (etransitivity; [|apply connectors_changed_flags])). }
  by eapply routing_flags.
Qed.

(** All the connectors of the commit are routed. *)
Lemma routing_all um s :
  (forall k old x, as_conns s0 !! k = Some (old, x) -> cnf_encoder x = cnf_encoder old) ->
  masks (fun k => (cnf_crtc (mc_conn D k), cnf_encoder (mc_conn D k))) s0 ->
  for_each get_conn (route_connector hk D um) (each_conn D) s0 = inr s ->
  routing (each_conn D) [] s.
Proof using W0 L C Hstable Hwants Hfree.
  intros Henc Hm H. assert (Hcur : forall k, cnf_encoder (cur_conn D s0 k) = cnf_encoder (mc_conn D k)).
  { intros k. unfold cur_conn. destruct (new_conn s0 k) as [x|] eqn:E; [|done]. apply new_conn_Some in E as [o Ho].
    rewrite (Henc _ _ _ Ho). by destruct (wf_conn _ _ W0 _ _ _ Ho) as [_ ->]. }
  apply (for_each_inv get_conn _ routing (each_conn D) [] s0 s H).
  - split; try done; try by intros ? ? ?%not_elem_of_nil.
    + intros k old x _ Hs. left. by eapply Henc.
    + intros k k' e Hk Hk'. cbn. rewrite !Hcur. by apply (ok_encoders _ C).
    + eapply masks_ext; [|done]. intros k c e Hk. unfold loc. by rewrite decide_False, Hcur by apply not_elem_of_nil.
    + intros ? ? ? ? ?%not_elem_of_nil. done.
    + apply NoDup_seq.
  - intros pre k l s1 R Hn. destruct R as [R1 R2 R3 R4 R5 R6 R7].
    assert (Hno : new_conn s1 k = None) by (unfold new_conn; unfold get_conn in Hn; by rewrite Hn).
    assert (Hin : forall k', k' ∈ pre ++ [k] -> new_conn s1 k' <> None -> k' ∈ pre).
    { intros k' [?|?%list_elem_of_singleton]%elem_of_app Hk'; [done|subst; done]. }
    assert (Hloc : forall k' c e, loc pre s1 k' = (Some c, Some e) <-> loc (pre ++ [k]) s1 k' = (Some c, Some e)).
    { intros k' c e. unfold loc. destruct (decide (k' = k)) as [->|Hne].
      - unfold cur_conn. rewrite Hno. by repeat case_match.
      - replace (if decide (k' ∈ pre ++ [k]) then cnf_crtc (cur_conn D s1 k') else cnf_crtc (mc_conn D k'))
          with (if decide (k' ∈ pre) then cnf_crtc (cur_conn D s1 k') else cnf_crtc (mc_conn D k')); [done|].
        apply decide_ext. rewrite elem_of_app, list_elem_of_singleton. naive_solver. }
    split; try done.
    + intros k' x Hk' Hx. apply R2; [|done]. apply Hin; congruence.
    + intros k' old x Hk' Hs. eapply R3; [|done]. intros ?. apply Hk', elem_of_app. by left.
    + by eapply masks_ext; [intros; apply Hloc|].
    + intros k' old x c Hk' Hs. eapply R6; [|done]. apply Hin; [done|]. unfold new_conn. by rewrite Hs.
    + by rewrite <- app_assoc.
  - intros pre k l s1 [old x] s2 R Hs Hb. by eapply route_step.
Qed.
End Routing.
End Facts.

(** ** What the check leaves *)

Lemma for_each_rel {X} (get : atomic_state -> nat -> option X) body (R : atomic_state -> atomic_state -> Prop)
    `{!PreOrder R} l : forall s s',
  (forall i x s s', i ∈ l -> get s i = Some x -> body i x s = inr s' -> R s s') -> for_each get body l s = inr s' -> R s s'.
Proof.
  induction l as [|i l IH]; cbn; intros s s' Hb H; [by injection H as <-|].
  assert (Hl : forall i x s s', i ∈ l -> get s i = Some x -> body i x s = inr s' -> R s s')
    by (intros; eapply Hb; [by right|done..]).
  destruct (get s i) as [x|] eqn:E; [|by apply IH]. apply rbind_inr in H as (s1 & H1 & H).
  transitivity s1; [eapply Hb; [left|done..]|by apply IH].
Qed.

(** Loops that only look. *)
Lemma for_each_pure {X} (get : atomic_state -> nat -> option X) body (Q : nat -> X -> Prop) l s s' :
  (forall i x s', i ∈ l -> get s i = Some x -> body i x s = inr s' -> s' = s /\ Q i x) ->
  for_each get body l s = inr s' -> s' = s /\ forall i x, i ∈ l -> get s i = Some x -> Q i x.
Proof.
  intros Hb. induction l as [|i l IH]; cbn; intros H.
  { injection H as <-. split; [done|]. by intros i x ?%not_elem_of_nil. }
  assert (Hl : forall i x s', i ∈ l -> get s i = Some x -> body i x s = inr s' -> s' = s /\ Q i x)
    by (intros; eapply Hb; [by right|done..]).
  specialize (IH Hl). destruct (get s i) as [x|] eqn:E.
  - apply rbind_inr in H as (s1 & H1 & H). destruct (Hb i x s1 ltac:(left) E H1) as [-> HQ].
    destruct (IH H) as [-> HI]. split; [done|]. intros j y [->|Hj]%elem_of_cons Hy; [congruence|by apply HI].
  - destruct (IH H) as [-> HI]. split; [done|]. intros j y [->|Hj]%elem_of_cons Hy; [congruence|by apply HI].
Qed.

Section Checked.
Context `{AI : !AtomicInlines} `{L : !AtomicInlinesLaws} (lk : kms_locks) (hk : kms_hooks) (D : mode_config).
Context (C : config_ok D).

Notation n := (mc_num_connector D).

(** Neither what is asked for changes, nor whether modes may be set. *)
Definition same_wish (s s' : atomic_state) : Prop :=
  new_view D s' ≡ new_view D s /\ as_allow_modeset s' = as_allow_modeset s.

#[local] Instance same_wish_preorder : PreOrder same_wish.
Proof using. split; [by intros s|]. intros s1 s2 s3 [A1 A2] [B1 B2]. split; [by rewrite B1|congruence]. Qed.

Lemma adv_wish s s' : adv s s' -> same_wish s s'.
Proof using. intros A. split; [by apply adv_view|apply A]. Qed.

(** *** The CRTCs *)

(** Alone, and compared with the current state. *)
Definition sound (x : crtc_full) : Prop :=
  (st_active (cf_st x) = true -> st_enable (cf_st x) = true)
  /\ (st_enable (cf_st x) = true <-> is_Some (cf_mode_blob x)).

Definition fine (o x : crtc_full) : Prop :=
  (st_active (cf_st o) <> st_active (cf_st x) -> st_active_changed (cf_st x) = true)
  /\ (~ (mode_eqv (cf_mode o) (cf_mode x) /\ st_enable (cf_st o) = st_enable (cf_st x)) -> st_mode_changed (cf_st x) = true)
  /\ st_enable (cf_st x) = truthy (cf_connector_mask x)
  /\ sound x.

Lemma fine_adv o x y : crtc_adv x y -> fine o x -> fine o y.
Proof using.
  intros [E1 E2 _ E4 E5 E6 E7 E8 _]. unfold fine, sound. rewrite E1, E2, E4, E5, E6. intros (H1 & H2 & H3 & H4).
  split_and!; auto; apply H4.
Qed.

Lemma crtc_changes_spec c o x s s' :
  as_crtcs s !! c = Some (o, x) -> sound x ->
  crtc_changes hk c (o, x) s = inr s' ->
  flags_only s s' /\ exists y, as_crtcs s' !! c = Some (o, y) /\ fine o y.
Proof using.
  intros Hx Hact. unfold crtc_changes. cbv zeta.
  destruct (drm_mode_equal _ _) eqn:Em, (Bool.eqb (st_enable (cf_st o)) _) eqn:Eo, (Bool.eqb (st_active (cf_st o)) _) eqn:Ea;
    destruct (Bool.eqb (st_enable (cf_st x)) _) eqn:Ee; cbn [negb]; try done;
    apply eqb_prop in Ee; intros [= <-]; unfold connectors_changed; (split;
      [repeat (etransitivity; [|apply flags_only_upd; intros ?; split; [by split|done]]); reflexivity|]);
    rewrite !lookup_upd_crtc, !decide_True, Hx by done; eexists; (split; [reflexivity|]); split_and!; try done;
    cbn; intros Hn; first [by apply eqb_prop in Ea | by destruct Hn; split; [apply mode_equal_iff|apply eqb_prop]].
Qed.

Lemma crtc_changes_loop s s' :
  state_wf D s -> (forall c o x, as_crtcs s !! c = Some (o, x) -> sound x) ->
  for_each get_crtc (crtc_changes hk) (each_crtc D) s = inr s' ->
  flags_only s s' /\ forall c o x, as_crtcs s' !! c = Some (o, x) -> fine o x.
Proof using.
  intros W Hact H.
  assert (Hinv : flags_only s s' /\ forall c o x, c ∈ [] ++ each_crtc D -> as_crtcs s' !! c = Some (o, x) -> fine o x).
  { apply (for_each_inv get_crtc _ (fun pre _ s1 => flags_only s s1
             /\ forall c o x, c ∈ pre -> as_crtcs s1 !! c = Some (o, x) -> fine o x) (each_crtc D) [] s s' H).
    - split; [done|]. by intros ? ? ? ?%not_elem_of_nil.
    - intros pre c l s1 [F Hp] Hn. split; [done|]. intros c' o x [?|E%list_elem_of_singleton]%elem_of_app Hx; [by eapply Hp|].
      subst c'. unfold get_crtc in Hn. congruence.
    - intros pre c l s1 [o x] s2 [F Hp] Hx Hb.
      destruct (crtc_changes_spec c o x s1 s2 Hx) as (F2 & y & Hy & Hf); [|done|].
      { destruct (adv_crtc_back _ _ _ _ _ (flags_only_adv _ _ F) Hx) as (z & Hz & [E1 E2 _ _ _ E3]).
        unfold sound. rewrite E1, E2, E3. by eapply Hact. }
      split; [by etransitivity|].
      intros c' o' x' [?|E%list_elem_of_singleton]%elem_of_app Hx'; [|subst c'; congruence].
      destruct (adv_crtc_back _ _ _ _ _ (flags_only_adv _ _ F2) Hx') as (z & Hz & Ha). eapply fine_adv; [done|by eapply Hp]. }
  destruct Hinv as [F Hp]. split; [done|]. intros c o x Hx. eapply Hp; [|done]. cbn. apply each_crtc_in.
  destruct (adv_crtc_back _ _ _ _ _ (flags_only_adv _ _ F) Hx) as (z & Hz & _). by apply (wf_crtc _ _ W) in Hz as [? _].
Qed.

(** *** A routed commit *)

Record routed (s : atomic_state) : Prop := {
  rd_wf : state_wf D s;
  rd_paired k x : new_conn s k = Some x -> is_Some (cnf_crtc x) <-> is_Some (cnf_encoder x);
  rd_apart k k' e : (k < n)%nat -> (k' < n)%nat -> cnf_encoder (cur_conn D s k) = Some e ->
    cnf_encoder (cur_conn D s k') = Some e -> k = k';
  rd_masks c old new e : as_crtcs s !! c = Some (old, new) ->
    Z.testbit (cf_encoder_mask new) (Z.of_nat e) = true
    <-> exists k, (k < n)%nat /\ cnf_crtc (cur_conn D s k) = Some c /\ cnf_encoder (cur_conn D s k) = Some e;
  rd_flagged k old new c : as_conns s !! k = Some (old, new) ->
    (cnf_crtc old, cnf_encoder old) <> (cnf_crtc new, cnf_encoder new) ->
    cnf_crtc old = Some c \/ cnf_crtc new = Some c -> flagged s c;
  rd_possible k old new c e : as_conns s !! k = Some (old, new) ->
    cnf_crtc new = Some c -> cnf_encoder new = Some e ->
    (cnf_crtc old, cnf_encoder old) = (cnf_crtc new, cnf_encoder new)
    \/ truthy (hk_possible_crtcs hk e .& BIT (Z.of_nat c)) = true;
  rd_fine c old new : as_crtcs s !! c = Some (old, new) -> fine old new
}.

Lemma routing_routed s0 s :
  state_wf D s0 -> (forall c o x, as_crtcs s0 !! c = Some (o, x) -> fine o x) ->
  routing hk D s0 (each_conn D) [] s -> routed s.
Proof using.
  intros W0 Hf R. pose proof (rt_adv _ _ _ _ _ _ R) as A. pose proof (wf_adv D _ _ A W0) as W.
  assert (Hdone : forall k x, new_conn s k = Some x -> k ∈ each_conn D /\ good_route hk s0 k (cnf_crtc x) (cnf_encoder x)).
  { intros k x Hx. assert (Hk : k ∈ each_conn D).
    { apply new_conn_Some in Hx as [o Ho]. apply (wf_conn _ _ W) in Ho as [? _]. by apply each_conn_in. }
    split; [done|by apply (rt_done _ _ _ _ _ _ R)]. }
  split; [done|..].
  - intros k x Hx. destruct (Hdone k x Hx) as [_ G]. destruct (cnf_crtc x); cbn in G.
    + destruct G as (e & -> & _). split; by eexists.
    + rewrite G. split; by intros [? ?].
  - intros k k' e Hk Hk' E1 E2. by apply (rt_apart _ _ _ _ _ _ R k k' e).
  - intros c old new e Hx. rewrite (rt_masks _ _ _ _ _ _ R c old new e Hx).
    split; intros (k & Hk & H); exists k; (split; [done|]); revert H; unfold loc;
      rewrite decide_True by (by apply each_conn_in); [by intros [= -> ->]|by intros [-> ->]].
  - intros k old new c Hs. eapply (rt_flagged _ _ _ _ _ _ R); [|done].
    apply (Hdone k new). apply new_conn_Some. by eexists.
  - intros k old new c e Hs Hc He. right. destruct (Hdone k new) as [_ G]; [apply new_conn_Some; by eexists|].
    rewrite Hc, He in G. cbn in G. by destruct G as (e' & [= <-] & _ & ?).
  - intros c old new Hx. destruct (adv_crtc_back _ _ _ _ _ A Hx) as (z & Hz & Ha). eapply fine_adv; [done|by eapply Hf].
Qed.

(** *** Collecting what is affected *)

Lemma flagged_grows s s' c : grows D s s' -> flagged s c -> flagged s' c.
Proof using.
  intros G (x & Hx & Hm). exists x. split; [|done]. unfold new_crtc in *.
  destruct (as_crtcs s !! c) as [y|] eqn:E; [|done]. by rewrite (gr_crtc _ _ _ G _ _ E).
Qed.

Lemma duplicate_unflagged x : drm_atomic_crtc_needs_modeset (cf_st (__drm_atomic_helper_crtc_duplicate_state x)) = false.
Proof using L. rewrite needs_modeset_spec. done. Qed.

Lemma flagged_grows_inv s s' c : grows D s s' -> flagged s' c -> flagged s c.
Proof using L.
  intros G (x & Hx & Hm). unfold flagged, new_crtc in *. destruct (as_crtcs s !! c) as [[o y]|] eqn:E.
  - rewrite (gr_crtc _ _ _ G _ _ E) in Hx. by exists x.
  - destruct (as_crtcs s' !! c) as [[o y]|] eqn:E'; [|done].
    apply (gr_crtc_new _ _ _ G _ _ E) in E' as [= -> ->]. injection Hx as <-. by rewrite duplicate_unflagged in Hm.
Qed.

Lemma routed_grows s s' : grows D s s' -> state_wf D s' -> routed s -> routed s'.
Proof using C L.
  intros G W' R. pose proof (rd_wf _ R) as W.
  assert (Hcc := fun k => proj1 (grows_cur_conn D s s' k G)). assert (Hce := fun k => proj2 (grows_cur_conn D s s' k G)).
  assert (Hconn : forall k o x, as_conns s' !! k = Some (o, x) ->
            as_conns s !! k = Some (o, x) \/ (k < n)%nat /\ o = mc_conn D k
            /\ x = __drm_atomic_helper_connector_duplicate_state (mc_conn D k)).
  { intros k o x Hx. destruct (as_conns s !! k) as [y|] eqn:E.
    - left. rewrite (gr_conn _ _ _ G _ _ E) in Hx. congruence.
    - right. apply (wf_conn _ _ W') in Hx as H. destruct H as [Hk _].
      by apply (gr_conn_new _ _ _ G _ _ E) in Hx as [= -> ->]. }
  assert (Hcrtc : forall c o x, as_crtcs s' !! c = Some (o, x) ->
            as_crtcs s !! c = Some (o, x) \/ (c < mc_num_crtc D)%nat /\ as_crtcs s !! c = None /\ o = mc_crtc D c
            /\ x = __drm_atomic_helper_crtc_duplicate_state (mc_crtc D c)).
  { intros c o x Hx. destruct (as_crtcs s !! c) as [y|] eqn:E.
    - left. rewrite (gr_crtc _ _ _ G _ _ E) in Hx. congruence.
    - right. apply (wf_crtc _ _ W') in Hx as H. destruct H as [Hc _].
      by apply (gr_crtc_new _ _ _ G _ _ E) in Hx as [= -> ->]. }
  split; [done|..].
  - intros k x (o & Ho)%new_conn_Some. destruct (Hconn _ _ _ Ho) as [H|(Hk & -> & ->)].
    + apply (rd_paired _ R k). apply new_conn_Some. by eexists.
    + by apply (ok_paired _ C).
  - intros k k' e. rewrite !Hce. apply (rd_apart _ R).
  - intros c old new e Hx. setoid_rewrite Hcc. setoid_rewrite Hce.
    destruct (Hcrtc _ _ _ Hx) as [H|(Hc & Hno & -> & ->)]; [by eapply (rd_masks _ R)|].
    change (cf_encoder_mask (__drm_atomic_helper_crtc_duplicate_state (mc_crtc D c))) with (cf_encoder_mask (mc_crtc D c)).
    rewrite (ok_encoder_mask _ C c e Hc). split; intros (k & Hk & E1 & E2); exists k; (split; [done|]);
      unfold cur_conn in *; destruct (new_conn s k) as [x|] eqn:E; try done; exfalso;
      apply new_conn_Some in E as [o Ho]; destruct (wf_conn _ _ W _ _ _ Ho) as [_ ->];
      destruct (wf_conn_crtcs _ _ W _ _ _ c Ho) as [? ?]; auto; congruence.
  - intros k old new c Hs Hd Hc. eapply flagged_grows; [done|]. destruct (Hconn _ _ _ Hs) as [H|(_ & -> & ->)].
    + by eapply (rd_flagged _ R).
    + done.
  - intros k old new c e Hs. destruct (Hconn _ _ _ Hs) as [H|(_ & -> & ->)]; [by eapply (rd_possible _ R)|by left].
  - intros c old new Hx. destruct (Hcrtc _ _ _ Hx) as [H|(Hc & _ & -> & ->)]; [by eapply (rd_fine _ R)|].
    unfold fine. cbn. rewrite effectively_active_spec, (ok_refresh _ C c Hc), orb_false_r.
    split_and!; [done| |by apply (ok_enable _ C)|]; [by intros []|]. unfold sound. cbn.
    rewrite effectively_active_spec, (ok_refresh _ C c Hc), orb_false_r. split; [by apply (ok_active _ C)|by apply (ok_blob _ C)].
Qed.

Lemma add_connectors_spec m l : forall s s',
  state_wf D s -> (forall k, k ∈ l -> (k < n)%nat) -> add_connectors lk D m l s = inr s' ->
  state_wf D s' /\ grows D s s'
  /\ forall k, k ∈ l -> truthy (m .& drm_connector_mask k) = true -> is_Some (as_conns s' !! k).
Proof using C.
  induction l as [|k l IH]; cbn; intros s s' W Hlt H.
  { injection H as <-. split_and!; [done|done|by intros k ?%not_elem_of_nil]. }
  assert (Hl : forall k, k ∈ l -> (k < n)%nat) by (intros; apply Hlt; by right).
  destruct (truthy (m .& drm_connector_mask k)) eqn:E.
  - apply rbind_inr in H as (s1 & H1 & H). destruct (get_conn_wf lk D C k s s1 W) as (W1 & G1 & Hk & _); [apply Hlt; left|done|].
    destruct (IH s1 s' W1 Hl H) as (W2 & G2 & Ha). split_and!; [done|by etransitivity|].
    intros k' [->|Hk']%elem_of_cons HQ; [|by apply Ha]. destruct Hk as [y Hy]. rewrite (gr_conn _ _ _ G2 _ _ Hy). by eexists.
  - destruct (IH s s' W Hl H) as (W2 & G2 & Ha). split_and!; [done|done|].
    intros k' [->|Hk']%elem_of_cons HQ; [congruence|by apply Ha].
Qed.

Lemma add_affected_connectors_spec c s s' :
  state_wf D s -> is_Some (as_crtcs s !! c) -> drm_atomic_add_affected_connectors lk D c s = inr s' ->
  state_wf D s' /\ grows D s s'
  /\ forall k, (k < n)%nat -> cnf_crtc (cur_conn D s k) = Some c -> is_Some (as_conns s' !! k).
Proof using C.
  intros W [[o x] Hx]. unfold drm_atomic_add_affected_connectors, drm_atomic_get_crtc_state, new_crtc.
  rewrite Hx. cbn [rbind]. rewrite Hx. cbn. intros H. apply add_connectors_spec in H as (W' & G & Ha); [|done|by intros k ?%each_conn_in].
  split_and!; [done|done|]. intros k Hk Hc. apply Ha; [by apply each_conn_in|].
  unfold drm_connector_mask. rewrite truthy_land_BIT by lia.
  rewrite (wf_connector_mask _ _ W _ _ _ k Hx Hk). by apply bool_decide_eq_true_2.
Qed.

Lemma add_planes_spec m l : forall s s',
  state_wf D s -> (forall p, p ∈ l -> (p < mc_num_plane D)%nat) -> add_planes lk D m l s = inr s' ->
  state_wf D s' /\ grows D s s'.
Proof using C.
  induction l as [|p l IH]; cbn; intros s s' W Hlt H; [by injection H as <-|].
  assert (Hl : forall k, k ∈ l -> (k < mc_num_plane D)%nat) by (intros; apply Hlt; by right).
  destruct (truthy _); [|by apply IH]. apply rbind_inr in H as (s1 & H1 & H).
  destruct (get_plane_wf lk D C p s s1 W) as (W1 & G1 & _); [apply Hlt; left|done|].
  destruct (IH s1 s' W1 Hl H) as [W2 G2]. split; [done|by etransitivity].
Qed.

Lemma affected_by_spec c x s s' :
  state_wf D s -> as_crtcs s !! c = Some x -> affected_by lk hk D c x s = inr s' ->
  state_wf D s' /\ grows D s s'
  /\ (flagged s c -> drm_atomic_check_valid_clones hk c s' = 0
       /\ forall k, (k < n)%nat -> cnf_crtc (cur_conn D s k) = Some c -> is_Some (as_conns s' !! k)).
Proof using C.
  intros W Hx. unfold affected_by. destruct (drm_atomic_crtc_needs_modeset (cf_st x.2)) eqn:E; cbn [negb].
  2: { intros [= <-]. split_and!; [done|done|]. intros (y & Hy & Hm). unfold new_crtc in Hy. rewrite Hx in Hy.
       cbn in Hy. congruence. }
  intros (s1 & H1 & (s2 & H2 & [H3 ->]%check0_inr)%rbind_inr)%rbind_inr.
  apply add_affected_connectors_spec in H1 as (W1 & G1 & Ha); [|done|by eexists].
  apply add_planes_spec in H2 as [W2 G2]; [|done|intros p; rewrite elem_of_seq; lia].
  split_and!; [done|by etransitivity|]. intros _. split; [done|]. intros k Hk Hc.
  destruct (Ha k Hk Hc) as [y Hy]. rewrite (gr_conn _ _ _ G2 _ _ Hy). by eexists.
Qed.

(** A full modeset has all its connectors in the commit, and clones that go
    together. *)
Record affected (s : atomic_state) : Prop := {
  af_conns c k : flagged s c -> (k < n)%nat -> cnf_crtc (cur_conn D s k) = Some c -> is_Some (as_conns s !! k);
  af_clones c : flagged s c -> drm_atomic_check_valid_clones hk c s = 0
}.

Lemma clones_grows c s s' :
  grows D s s' -> flagged s c -> drm_atomic_check_valid_clones hk c s' = drm_atomic_check_valid_clones hk c s.
Proof using.
  intros G (x & Hx & _). unfold drm_atomic_check_valid_clones, new_crtc in *.
  destruct (as_crtcs s !! c) as [y|] eqn:E; [|done]. by rewrite (gr_crtc _ _ _ G _ _ E).
Qed.

Lemma affected_loop s s' :
  routed s -> for_each get_crtc (affected_by lk hk D) (each_crtc D) s = inr s' ->
  routed s' /\ affected s' /\ same_wish s s'.
Proof using C L.
  intros R H.
  assert (Hinv : state_wf D s' /\ grows D s s' /\ forall c, c ∈ [] ++ each_crtc D -> flagged s' c ->
            drm_atomic_check_valid_clones hk c s' = 0
            /\ forall k, (k < n)%nat -> cnf_crtc (cur_conn D s' k) = Some c -> is_Some (as_conns s' !! k)).
  { apply (for_each_inv get_crtc _ (fun pre _ s1 => state_wf D s1 /\ grows D s s1 /\ forall c, c ∈ pre -> flagged s1 c ->
            drm_atomic_check_valid_clones hk c s1 = 0
            /\ forall k, (k < n)%nat -> cnf_crtc (cur_conn D s1 k) = Some c -> is_Some (as_conns s1 !! k))
            (each_crtc D) [] s s' H).
    - split_and!; [apply R|done|]. by intros ? ?%not_elem_of_nil.
    - intros pre c l s1 (W & G & Hp) Hn. split_and!; [done|done|].
      intros c' [?|E%list_elem_of_singleton]%elem_of_app Hf; [by apply Hp|]. subst c'. destruct Hf as (y & Hy & _).
      unfold new_crtc in Hy. unfold get_crtc in Hn. by rewrite Hn in Hy.
    - intros pre c l s1 x s2 (W & G & Hp) Hx Hb.
      destruct (affected_by_spec c x s1 s2 W Hx Hb) as (W2 & G2 & Ha). split_and!; [done|by etransitivity|].
      intros c' Hin Hf%(flagged_grows_inv _ _ _ G2).
      assert (Hc : drm_atomic_check_valid_clones hk c' s2 = 0 /\
        forall k, (k < n)%nat -> cnf_crtc (cur_conn D s1 k) = Some c' -> is_Some (as_conns s2 !! k)).
      { apply elem_of_app in Hin as [Hin|E%list_elem_of_singleton]; [|subst c'; by apply Ha].
        destruct (Hp c' Hin Hf) as [Hcl Hk]. rewrite (clones_grows c' _ _ G2 Hf). split; [done|].
        intros k Hlt E. destruct (Hk k Hlt E) as [y Hy]. rewrite (gr_conn _ _ _ G2 _ _ Hy). by eexists. }
      destruct Hc as [Hcl Hk]. split; [done|]. intros k Hlt. rewrite (proj1 (grows_cur_conn _ _ _ k G2)). by apply Hk. }
  destruct Hinv as (W & G & Hp). split; [by eapply routed_grows|]. split; [|split; [by apply grows_view|apply G]].
  assert (Hin : forall c, flagged s' c -> c ∈ [] ++ each_crtc D).
  { intros c ([o x] & Hx & _). cbn. apply each_crtc_in. unfold new_crtc in Hx.
    destruct (as_crtcs s' !! c) as [[o' x']|] eqn:E; [|done]. by apply (wf_crtc _ _ W) in E as [? _]. }
  split; intros c; [intros k Hf Hk|intros Hf]; by apply (Hp c (Hin c Hf) Hf).
Qed.

(** *** Asking the drivers *)

(** Only adjusted modes and [planes_changed] differ. *)
Record crtc_alike (x y : crtc_full) : Prop := {
  al_st : cf_st y = cf_st x;
  al_connectors : cf_connector_mask y = cf_connector_mask x;
  al_encoders : cf_encoder_mask y = cf_encoder_mask x;
  al_mode : cf_mode y = cf_mode x;
  al_blob : cf_mode_blob y = cf_mode_blob x
}.

#[local] Instance crtc_alike_preorder : PreOrder crtc_alike.
Proof using. split; [by intros x; split|]. intros x y z [] []. split; congruence. Qed.

Record alike (s s' : atomic_state) : Prop := {
  al_crtc c o x : as_crtcs s !! c = Some (o, x) -> exists y, as_crtcs s' !! c = Some (o, y) /\ crtc_alike x y;
  al_no_crtc c : as_crtcs s !! c = None -> as_crtcs s' !! c = None;
  al_conns : as_conns s' = as_conns s;
  al_planes : as_planes s' = as_planes s;
  al_allow : as_allow_modeset s' = as_allow_modeset s
}.

#[local] Instance alike_preorder : PreOrder alike.
Proof using.
  split; [intros s; split; try done; intros c o x ?; by exists x|].
  intros s1 s2 s3 [A1 A2 A3 A4 A5] [B1 B2 B3 B4 B5]. split; [|by auto|congruence..].
  intros c o x (y & Hy & ?)%A1. destruct (B1 _ _ _ Hy) as (z & ? & ?). exists z. split; [done|by etransitivity].
Qed.

Lemma alike_upd c f s : (forall x, crtc_alike x (f x)) -> alike s (upd_crtc c f s).
Proof using.
  intros Hf. split; try done.
  - intros c' o x H. rewrite lookup_upd_crtc, H. case_decide; cbn; eexists; (split; [done|]); [apply Hf|done].
  - intros c' H. rewrite lookup_upd_crtc, H. by case_decide.
Qed.

Lemma alike_flags s s' : alike s s' -> flags_only s s'.
Proof using.
  intros [A1 A2 A3 A4 A5]. split; try done. intros c o x (y & Hy & [E1 E2 E3 E4])%A1. exists y.
  split_and!; [done| |done]. split; by rewrite ?E1.
Qed.

Lemma alike_back s s' c o y : alike s s' -> as_crtcs s' !! c = Some (o, y) ->
  exists x, as_crtcs s !! c = Some (o, x) /\ crtc_alike x y.
Proof using.
  intros A Hy. destruct (as_crtcs s !! c) as [[o' x]|] eqn:E.
  - destruct (al_crtc _ _ A _ _ _ E) as (y' & Hy' & ?). rewrite Hy in Hy'. injection Hy' as -> ->. by exists x.
  - by rewrite (al_no_crtc _ _ A _ E) in Hy.
Qed.

Lemma alike_flagged s s' c : alike s s' -> flagged s' c -> flagged s c.
Proof using.
  intros A (y & Hy & Hm). unfold flagged, new_crtc in *. destruct (as_crtcs s' !! c) as [[o y']|] eqn:E; [|done].
  injection Hy as ->. destruct (alike_back _ _ _ _ _ A E) as (x & -> & [E1 _ _ _]). exists x. by rewrite <- E1.
Qed.

Lemma alike_cur_conn s s' k : alike s s' -> cur_conn D s' k = cur_conn D s k.
Proof using. intros A. unfold cur_conn, new_conn. by rewrite (al_conns _ _ A). Qed.

Lemma routed_flags s s' : flags_only s s' -> routed s -> routed s'.
Proof using L.
  intros F R. pose proof (flags_only_adv _ _ F) as A. pose proof (fo_conns _ _ F) as Hc.
  assert (Hcur : forall k, cur_conn D s' k = cur_conn D s k) by (intros k; unfold cur_conn, new_conn; by rewrite Hc).
  split.
  - eapply wf_adv, R. done.
  - intros k x. unfold new_conn. rewrite Hc. apply (rd_paired _ R).
  - intros k k' e. rewrite !Hcur. apply (rd_apart _ R).
  - intros c old new e Hn. setoid_rewrite Hcur. destruct (adv_crtc_back _ _ _ _ _ A Hn) as (x & Hx & _).
    destruct (fo_crtc _ _ F _ _ _ Hx) as (y & Hy & _ & Hm). rewrite Hn in Hy. injection Hy as <-. rewrite Hm.
    by eapply (rd_masks _ R).
  - intros k old new c. rewrite Hc. intros Hs Hd Ho. eapply flagged_adv; [done|]. by eapply (rd_flagged _ R).
  - intros k old new c e. rewrite Hc. apply (rd_possible _ R).
  - intros c old new Hn. destruct (adv_crtc_back _ _ _ _ _ A Hn) as (x & Hx & Ha). eapply fine_adv; [done|].
    by eapply (rd_fine _ R).
Qed.

Lemma affected_alike s s' : alike s s' -> affected s -> affected s'.
Proof using.
  intros A [A1 A2]. split.
  - intros c k Hf%(alike_flagged _ _ _ A) Hk. rewrite (alike_cur_conn _ _ _ A), (al_conns _ _ A). by apply A1.
  - intros c Hf%(alike_flagged _ _ _ A). rewrite <- (A2 c Hf). unfold drm_atomic_check_valid_clones, new_crtc.
    destruct (as_crtcs s !! c) as [[o x]|] eqn:E; [|by rewrite (al_no_crtc _ _ A _ E)].
    destruct (al_crtc _ _ A _ _ _ E) as (y & -> & [_ _ E3 _]). cbn. by rewrite E3.
Qed.

Lemma set_adjusted_alike c m s : alike s (set_adjusted c m s).
Proof using. apply alike_upd. by split. Qed.

Lemma encoder_fixup_alike e c s s' : encoder_fixup hk e c s = inr s' -> alike s s'.
Proof using.
  unfold encoder_fixup. destruct (hk_bridges_check hk e c s) as [r m]. destruct (truthy r); [done|]. cbv zeta.
  pose proof (set_adjusted_alike c m s) as A. intros H. transitivity (set_adjusted c m s); [done|]. clear A.
  revert H. generalize (set_adjusted c m s) as s1. intros s1.
  destruct (hk_encoder_check hk e) as [f|].
  - destruct (f c s1) as [r' m']. destruct (truthy r'); [done|]. intros [= <-]. apply set_adjusted_alike.
  - destruct (hk_encoder_mode_fixup hk e) as [f|]; [|by intros [= <-]].
    destruct (new_crtc s1 c) as [x|]; [|by intros [= <-]]. destruct (f _ _) as [[] m']; [|done].
    intros [= <-]. apply set_adjusted_alike.
Qed.

Lemma mode_fixup_alike s s' : mode_fixup hk D s = inr s' -> alike s s'.
Proof using.
  unfold mode_fixup. intros (s1 & H1 & (s2 & H2 & H3)%rbind_inr)%rbind_inr.
  transitivity s1; [|transitivity s2].
  - eapply (for_each_rel _ _ alike); [|exact H1]. intros c [o x] t t' _ _. destruct (mode_changing _); intros [= <-];
      [apply set_adjusted_alike|done].
  - eapply (for_each_rel _ _ alike); [|exact H2]. intros k [o x] t t' _ _.
    destruct (cnf_crtc x); [|by intros [= <-]]. destruct (cnf_encoder x); [|by intros [= <-]]. apply encoder_fixup_alike.
  - eapply (for_each_rel _ _ alike); [|exact H3]. intros c [o x] t t' _ _.
    destruct (st_enable _); [cbn|by intros [= <-]]. destruct (mode_changing _); [cbn|by intros [= <-]].
    destruct (hk_crtc_mode_fixup hk c) as [f|]; [|by intros [= <-]]. destruct (f _ _) as [[] m]; [|done].
    intros [= <-]. apply set_adjusted_alike.
Qed.

Lemma check_planes_alike s s' : drm_atomic_helper_check_planes hk D s = inr s' -> alike s s'.
Proof using.
  unfold drm_atomic_helper_check_planes. intros (s1 & H1 & H2)%rbind_inr. transitivity s1.
  - eapply (for_each_rel _ _ alike); [|exact H1]. intros p x t t' _ _. cbv beta zeta.
    assert (A : alike t (drm_atomic_helper_plane_changed x t)).
    { unfold drm_atomic_helper_plane_changed. destruct x as [[] []]; cbn;
        repeat (reflexivity || (etransitivity; [|apply alike_upd; by split])). }
    destruct (hk_plane_check hk p); [intros [_ ->]%check0_inr|intros [= <-]]; done.
  - eapply (for_each_rel _ _ alike); [|exact H2]. intros c x t t' _ _. cbv beta.
    destruct (hk_crtc_check hk c) as [f|]; [|by intros [= <-]]. destruct (f t) as [r m]. destruct (truthy r); [done|].
    intros [= <-]. apply set_adjusted_alike.
Qed.

(** *** The whole check *)

(** Its stages; those in between only look. *)
Lemma modeset_stages s s' :
  drm_atomic_helper_check_modeset lk hk D s = inr s' ->
  exists s1 s3 s4,
    for_each get_crtc (crtc_changes hk) (each_crtc D) s = inr s1
    /\ handle_conflicting_encoders lk hk D false s1 = inr s1
    /\ for_each get_conn (route_connector hk D (state_mask D s)) (each_conn D) s1 = inr s3
    /\ for_each get_crtc (affected_by lk hk D) (each_crtc D) s3 = inr s4
    /\ mode_fixup hk D s4 = inr s'.
Proof using.
  unfold drm_atomic_helper_check_modeset. cbv zeta.
  intros (s1 & H1 & (s2 & H2 & (s3 & H3 & (s4 & H4 & (s5 & H5 & (s6 & H6 & (s7 & H7 & H8)%rbind_inr)%rbind_inr)%rbind_inr)%rbind_inr)%rbind_inr)%rbind_inr)%rbind_inr.
  destruct (handle_conflicting_spec lk hk D _ _ H2) as (-> & _).
  apply (for_each_pure _ _ (fun _ _ => True)) in H5 as [-> _].
  2: { intros k x t _ _. unfold connector_driver_check. destruct (truthy _); [by intros [= <-]|].
       destruct (hk_connector_check hk k); [by intros [_ ->]%check0_inr|by intros [= <-]]. }
  apply (for_each_pure _ _ (fun _ _ => True)) in H6 as [-> _].
  2: { intros k [o x] t _ _ (t1 & E1 & E2)%rbind_inr. unfold add_bridges in *.
       assert (t1 = s4) as -> by (destruct (cnf_encoder o); [by apply check0_inr in E1 as [_ ->]|by injection E1]).
       destruct (cnf_encoder x); [by apply check0_inr in E2 as [_ ->]|by injection E2]. }
  apply (for_each_pure _ _ (fun _ _ => True)) in H7 as [-> _].
  2: { intros k [o x] t _ _. cbv beta. repeat case_match; by intros [= <-]. }
  by exists s1, s3, s4.
Qed.

Lemma modeset_checked s s' :
  stable_encoders hk -> built D s ->
  (forall c o x, as_crtcs s !! c = Some (o, x) -> sound x) ->
  drm_atomic_helper_check_modeset lk hk D s = inr s' ->
  routed s' /\ affected s' /\ same_wish s s'.
Proof using C L.
  intros Hst [W U] Hact (s1 & s3 & s4 & H1 & H2 & H3 & H4 & H8)%modeset_stages.
  destruct (crtc_changes_loop _ _ W Hact H1) as [F1 Hf]. pose proof (wf_adv D _ _ (flags_only_adv _ _ F1) W) as W1.
  destruct (handle_conflicting_spec lk hk D _ _ H2) as (_ & Hw & Hfree).
  apply (routing_all hk D C Hst s1 W1 Hw Hfree) in H3.
  2: { intros k old x. rewrite (fo_conns _ _ F1). apply (ur_conn _ U). }
  2: { intros c o y e Hy. destruct (adv_crtc_back _ _ _ _ _ (flags_only_adv _ _ F1) Hy) as (x & Hx & _).
       destruct (fo_crtc _ _ F1 _ _ _ Hx) as (y' & Hy' & _ & Hm). rewrite Hy in Hy'. injection Hy' as <-.
       rewrite Hm, (ur_crtc _ U _ _ _ Hx). destruct (wf_crtc _ _ W _ _ _ Hx) as (Hc & -> & _).
       rewrite (ok_encoder_mask _ C c e Hc). split; intros (k & Hk & E); exists k; (split; [done|]).
       - by destruct E as [-> ->].
       - by injection E. }
  pose proof (rt_adv _ _ _ _ _ _ H3) as A3.
  apply (routing_routed s1 s3 W1 Hf) in H3. destruct (affected_loop _ _ H3 H4) as (R & A & V).
  apply mode_fixup_alike in H8. pose proof (alike_flags _ _ H8) as F8.
  split_and!; [by eapply routed_flags|by eapply affected_alike|].
  transitivity s1; [apply adv_wish, flags_only_adv, F1|]. transitivity s3; [by apply adv_wish|].
  transitivity s4; [done|apply adv_wish, flags_only_adv, F8].
Qed.

(** The checks before it. *)
Lemma connector_check_built k o x s s' :
  built D s -> as_conns s !! k = Some (o, x) -> drm_atomic_connector_check hk k x s = inr s' ->
  built D s' /\ as_crtcs s' = as_crtcs s /\ same_wish s s'.
Proof using.
  intros B Hx. unfold drm_atomic_connector_check. destruct (hk_writeback hk k); [cbn|by intros [= <-]].
  destruct (cnf_job x) as [fb|]; [|by intros [= <-]]. repeat case_match; intros [= <-]; try done.
  all: split_and!; [by apply built_upd_conn|done|split; [by apply upd_conn_view|done]].
Qed.

Lemma crtc_check_sound o x : drm_atomic_crtc_check (o, x) = 0 -> sound x.
Proof using.
  unfold drm_atomic_crtc_check, sound. destruct (st_active _), (st_enable _), (cf_mode_blob x); cbn; intros H; try done.
Qed.

(** The whole check, in two halves. *)
Lemma check_only_stages s s' :
  built D s -> drm_atomic_check_only lk hk D s = inr s' ->
  exists s3 s5, built D s3 /\ as_crtcs s3 = as_crtcs s /\ same_wish s s3
    /\ (forall p x, as_planes s !! p = Some x -> hk_plane_core_check hk p s = 0)
    /\ (forall c o x, as_crtcs s3 !! c = Some (o, x) -> sound x)
    /\ drm_atomic_helper_check_modeset lk hk D s3 = inr s5 /\ drm_atomic_helper_check_planes hk D s5 = inr s'.
Proof using.
  intros B. unfold drm_atomic_check_only.
  intros (s1 & H1 & (s2 & H2 & (s3 & H3 & (s4 & H4 & H5)%rbind_inr)%rbind_inr)%rbind_inr)%rbind_inr.
  apply (for_each_pure _ _ (fun p _ => hk_plane_core_check hk p s = 0)) in H1 as [-> Hp];
    [|by intros p x t _ _ [? ->]%check0_inr].
  apply (for_each_pure _ _ (fun _ x => drm_atomic_crtc_check x = 0)) in H2 as [-> Hc];
    [|by intros c x t _ _ [? ->]%check0_inr].
  assert (Hact : forall c o x, as_crtcs s !! c = Some (o, x) -> sound x).
  { intros c o x Hx. apply (crtc_check_sound o). apply (Hc c); [|done]. apply each_crtc_in.
    by apply (wf_crtc _ _ (proj1 B)) in Hx as [? _]. }
  assert (B3 : built D s3 /\ as_crtcs s3 = as_crtcs s /\ same_wish s s3).
  { clear Hc Hact. apply (for_each_inv get_conn _ (fun _ _ t => built D t /\ as_crtcs t = as_crtcs s
      /\ same_wish s t) (each_conn D) [] s s3 H3); [done|done|].
    intros pre k l t [o x] t' (Bt & Et & Vt) Hx Hb. destruct (connector_check_built k o x t t' Bt Hx Hb) as (? & E & V).
    split_and!; [done|congruence|by transitivity t]. }
  destruct B3 as (B3 & E3 & V3). apply rbind_inr in H4 as (s5 & H4 & H6).
  assert (s' = s4) as ->.
  { destruct (as_allow_modeset s4); [by injection H5|].
    apply (for_each_pure _ _ (fun _ _ => True)) in H5 as [-> _]; [done|].
    intros c x t _ _. cbv beta. destruct (drm_atomic_crtc_needs_modeset _); by intros [= <-]. }
  exists s3, s5. split_and!; try done; [|by rewrite E3].
  intros p [o x] Hx. apply (Hp p (o, x)); [|done]. unfold each_plane. rewrite elem_of_seq.
  apply (wf_plane _ _ (proj1 B)) in Hx as [? _]. lia.
Qed.

Lemma check_only_checked s s' :
  stable_encoders hk -> built D s -> drm_atomic_check_only lk hk D s = inr s' ->
  routed s' /\ affected s' /\ same_wish s s'.
Proof using C L.
  intros Hst B H. destruct (check_only_stages s s' B H) as (s3 & s5 & B3 & _ & V3 & _ & Hact & H4 & H6).
  destruct (modeset_checked _ _ Hst B3 Hact H4) as (R & A & V).
  apply check_planes_alike in H6. pose proof (alike_flags _ _ H6) as F6.
  split_and!; [by eapply routed_flags|by eapply affected_alike|].
  transitivity s3; [done|]. transitivity s5; [done|apply adv_wish, flags_only_adv, F6].
Qed.

(** A commit that may not set modes has no modeset. *)
Lemma check_only_no_modeset s s' c :
  stable_encoders hk -> built D s -> drm_atomic_check_only lk hk D s = inr s' -> as_allow_modeset s = false ->
  ~ flagged s' c.
Proof using C L.
  intros Hst B H Ha. pose proof (check_only_checked s s' Hst B H) as (R & _ & _ & E). rewrite <- E in Ha. clear E. revert H. unfold drm_atomic_check_only.
  intros (s1 & H1 & (s2 & H2 & (s3 & H3 & (s4 & H4 & H5)%rbind_inr)%rbind_inr)%rbind_inr)%rbind_inr.
  clear H1 H2 H3 H4. destruct (as_allow_modeset s4) eqn:E4; [injection H5 as ->; congruence|].
  apply (for_each_pure _ _ (fun _ x => drm_atomic_crtc_needs_modeset (cf_st x.2) = false)) in H5 as [-> Hn].
  2: { intros i x t _ _. cbv beta. destruct (drm_atomic_crtc_needs_modeset _); by intros [= <-]. }
  intros (x & Hx & Hm). unfold new_crtc in Hx. destruct (as_crtcs s4 !! c) as [[o y]|] eqn:E; [|done]. injection Hx as ->.
  specialize (Hn c (o, x)). cbn [snd] in Hn. rewrite Hn in Hm; [done| |done]. apply each_crtc_in.
  by apply (wf_crtc _ _ (rd_wf _ R)) in E as [? _].
Qed.
End Checked.
