(* ===== verification/DrmDisplay.v ===== *)
(** * DrmDisplay: commits from request to screen

    The composition of the three parts: a commit is built from what user space asks
    for (DrmAtomicState), checked (DrmCheck), swapped in and carried out
    (DrmCommit).  What the check leaves is what the commit needs, and what the
    commit leaves is the configuration the next one starts from. *)

From S2P Require Export DrmCheck.

(** ** A commit *)

(** What the commit helpers see of a checked commit. *)
Definition update_of (D : mode_config) (s : atomic_state) : atomic_update :=
  mkau
    (omap (fun c => x ← as_crtcs s !! c; Some (mkce c (cf_st x.1) (cf_st x.2))) (each_crtc D))
    (omap (fun k => x ← as_conns s !! k;
             Some (mkcn k (cnf_crtc x.1) (cnf_crtc x.2) (cnf_encoder x.1) (cnf_encoder x.2)
                        (default false (cnf_job x.2)))) (each_conn D))
    (omap (fun p => x ← as_planes s !! p; Some (mkpe p x.1 x.2)) (each_plane D))
    (as_legacy_cursor_update s).

(** The new states become the current ones ([drm_atomic_helper_swap_state]). *)
Definition swap (D : mode_config) (s : atomic_state) : mode_config :=
  mkmc (mc_num_crtc D) (mc_num_connector D) (mc_num_plane D)
       (fun c => match as_crtcs s !! c with Some x => x.2 | None => mc_crtc D c end)
       (fun k => match as_conns s !! k with Some x => x.2 | None => mc_conn D k end)
       (fun p => match as_planes s !! p with Some x => x.2 | None => mc_plane D p end).

(** A call of the atomic ioctl, with everything it may meet: [cm_prepare] is the answer of
    the steps between the check and the swap, which may fail too, and [cm_rpm] chooses
    [commit_tail_rpm].  A deadlock of the locks makes the ioctl drop the state and start
    again: such a call is one that is refused, and then another. *)
Record commit_in := mkcm {
  cm_locks : kms_locks; cm_hooks : kms_hooks; cm_requests : list request;
  cm_legacy : bool; cm_allow_modeset : bool; cm_test_only : bool; cm_prepare : Z; cm_rpm : bool
}.

Section Display.
Context `{!AtomicInlines} (d : commit_driver).

Definition checked_commit (m : commit_in) (D : mode_config) : result atomic_state :=
  try* s := build (cm_locks m) D (cm_requests m) (empty_state (cm_legacy m) (cm_allow_modeset m) false) in
  drm_atomic_check_only (cm_locks m) (cm_hooks m) D s.

(** [drm_atomic_helper_commit], of a checked state; an error leaves everything as it was. *)
Definition carry_out (m : commit_in) (D : mode_config) (s : atomic_state) (P : pipeline)
  : option (option Z * mode_config * pipeline) :=
  if truthy (cm_prepare m) then Some (Some (cm_prepare m), D, P)
  else
    let u := update_of D s in
    P' ← pipe_run (cm_rpm m) P
           (if cm_rpm m then drm_atomic_helper_commit_tail_rpm d u else drm_atomic_helper_commit_tail d u);
    Some (None, swap D s, P').

Definition drm_mode_atomic_ioctl (m : commit_in) (D : mode_config) (P : pipeline)
  : option (option Z * mode_config * pipeline) :=
  match checked_commit m D with
  | inl err => Some (Some err, D, P)
  | inr s => if cm_test_only m then Some (None, D, P) else carry_out m D s P
  end.

Fixpoint run_commits (ms : list commit_in) (D : mode_config) (P : pipeline)
  : option (list (option Z) * mode_config * pipeline) :=
  match ms with
  | [] => Some ([], D, P)
  | m :: ms =>
      '(ret, D, P) ← drm_mode_atomic_ioctl m D P;
      '(rets, D, P) ← run_commits ms D P;
      Some (ret :: rets, D, P)
  end.
End Display.

(** The pipeline shows a configuration: the active CRTCs run, with the encoders of their
    connectors on them, and nothing else does. *)
Record shows (D : mode_config) (P : pipeline) : Prop := {
  sh_on c : c ∈ pl_on P <-> (c < mc_num_crtc D)%nat /\ st_active (cf_st (mc_crtc D c)) = true;
  sh_encoders e st c : pl_enc P !! e = Some (st, c)
    <-> st = Running /\ c ∈ pl_on P
        /\ exists k, (k < mc_num_connector D)%nat /\ cnf_crtc (mc_conn D k) = Some c /\ cnf_encoder (mc_conn D k) = Some e
}.

(** What user space has asked for, of the commits that were neither refused nor tests. *)
Fixpoint asked (ms : list commit_in) (rets : list (option Z)) (v : view) : view :=
  match ms, rets with
  | m :: ms, None :: rets =>
      asked ms rets (if cm_test_only m then v else fold_left (fun v r => ask r v) (cm_requests m) v)
  | m :: ms, Some _ :: rets => asked ms rets v
  | _, _ => v
  end.

#[export] Instance asked_proper ms rets : Proper ((≡) ==> (≡@{view})) (asked ms rets).
Proof.
  revert rets. induction ms as [|m ms IH]; intros [|[ret|] rets] v w H; cbn; try done; apply IH; [done|].
  destruct (cm_test_only m); [done|by apply asks_proper].
Qed.

(** ** Checked commits *)

Lemma omap_NoDup {A B} (f : A -> option B) (l : list A) :
  (forall x x' y, x ∈ l -> x' ∈ l -> f x = Some y -> f x' = Some y -> x = x') -> NoDup l -> NoDup (omap f l).
Proof.
  induction l as [|x l IH]; intros Hf Hd; [apply NoDup_nil_2|]. apply NoDup_cons in Hd as [Hn Hd].
  assert (IH' : NoDup (omap f l)) by (apply IH; [intros; eapply Hf; try done; by right|done]).
  cbn. destruct (f x) as [y|] eqn:E; [|done]. apply NoDup_cons. split; [|done].
  intros (x' & Hx' & E')%list_elem_of_omap. apply Hn. by rewrite (Hf x x' y) by (done || left || by right).
Qed.

Lemma omap_omap {A B X} (f : A -> option B) (g : B -> option X) (l : list A) :
  omap g (omap f l) = omap (fun x => f x ≫= g) l.
Proof. induction l as [|x l IH]; [done|]. cbn. destruct (f x); cbn; [|done]. by rewrite IH. Qed.

Section Checked.
Context `{AI : !AtomicInlines} `{L : !AtomicInlinesLaws} (hk : kms_hooks) (D : mode_config).
Context (C : config_ok D) (s : atomic_state) (R : routed hk D s) (F : affected hk D s).

Notation n := (mc_num_connector D).
Notation u := (update_of D s).

Lemma in_crtcs x : x ∈ au_crtcs u <-> exists c o y, as_crtcs s !! c = Some (o, y) /\ x = mkce c (cf_st o) (cf_st y).
Proof using R.
  cbn. rewrite list_elem_of_omap. split.
  - intros (c & _ & Hx). destruct (as_crtcs s !! c) as [[o y]|] eqn:E; [|done]. injection Hx as <-. by exists c, o, y.
  - intros (c & o & y & Hx & ->). exists c. rewrite Hx. split; [|done]. apply each_crtc_in.
    by apply (wf_crtc _ _ (rd_wf _ _ _ R)) in Hx as [? _].
Qed.

Lemma in_connectors cn :
  cn ∈ au_connectors u <->
  exists k o y, as_conns s !! k = Some (o, y)
  /\ cn = mkcn k (cnf_crtc o) (cnf_crtc y) (cnf_encoder o) (cnf_encoder y)
              (default false (cnf_job y)).
Proof using R.
  cbn. rewrite list_elem_of_omap. split.
  - intros (k & _ & Hx). destruct (as_conns s !! k) as [[o y]|] eqn:E; [|done]. injection Hx as <-. by exists k, o, y.
  - intros (k & o & y & Hx & ->). exists k. rewrite Hx. split; [|done]. apply each_conn_in.
    by apply (wf_conn _ _ (rd_wf _ _ _ R)) in Hx as [? _].
Qed.

Lemma in_planes p :
  p ∈ au_planes u -> exists i o y, as_planes s !! i = Some (o, y) /\ p = mkpe i o y.
Proof using.
  cbn. rewrite list_elem_of_omap. intros (i & _ & Hx). destruct (as_planes s !! i) as [[o y]|] eqn:E; [|done].
  injection Hx as <-. by exists i, o, y.
Qed.

Lemma crtc_ids c : c ∈ ce_id <$> au_crtcs u <-> is_Some (as_crtcs s !! c).
Proof using R.
  rewrite list_elem_of_fmap. split.
  - intros (x & -> & (c' & o & y & Hx & ->)%in_crtcs). by eexists.
  - intros [[o y] Hx]. exists (mkce c (cf_st o) (cf_st y)). split; [done|]. apply in_crtcs. by exists c, o, y.
Qed.

Lemma ids_NoDup : NoDup (ce_id <$> au_crtcs u).
Proof using.
  cbn. generalize (each_crtc D) (NoDup_seq 0 (mc_num_crtc D) : NoDup (each_crtc D)). intros l.
  induction l as [|c l IH]; cbn; [intros; apply NoDup_nil_2|]. intros [Hn Hd]%NoDup_cons.
  destruct (as_crtcs s !! c) as [[o y]|]; cbn; [|by apply IH]. apply NoDup_cons. split; [|by apply IH].
  intros (x & -> & (c' & Hc' & Hx)%list_elem_of_omap)%list_elem_of_fmap. apply Hn.
  destruct (as_crtcs s !! c'); [|done]. by injection Hx as <-.
Qed.

Lemma needs_modeset_flagged c : needs_modeset u c = true <-> flagged s c.
Proof using R.
  unfold needs_modeset, new_crtc_state, find_crtc, flagged, new_crtc.
  destruct (as_crtcs s !! c) as [[o y]|] eqn:E.
  - assert (Hx : mkce c (cf_st o) (cf_st y) ∈ au_crtcs u) by (apply in_crtcs; by exists c, o, y).
    pose proof (find_NoDup ce_id (au_crtcs u) _ ids_NoDup Hx) as Hf. cbn [ce_id] in Hf. rewrite Hf. cbn.
    split; [intros H; by exists y|by intros (z & [= <-] & H)].
  - destruct (find _ (au_crtcs u)) as [x|] eqn:Ef.
    + apply find_some in Ef as [Hx%list_elem_of_In Hi%Nat.eqb_eq]. subst c.
      assert (Hs : ce_id x ∈ ce_id <$> au_crtcs u) by (apply list_elem_of_fmap; by exists x).
      apply crtc_ids in Hs as [? Hs]. congruence.
    + split; [done|]. by intros (x & ? & _).
Qed.

Lemma conn_entry_cur k o y : as_conns s !! k = Some (o, y) -> (k < n)%nat /\ o = mc_conn D k /\ cur_conn D s k = y.
Proof using R.
  intros H. destruct (wf_conn _ _ (rd_wf _ _ _ R) _ _ _ H). split_and!; [done|done|]. unfold cur_conn, new_conn. by rewrite H.
Qed.

(** What the commit helpers assume of an update. *)
Lemma checked_update_ok : update_ok u.
Proof using R C L.
  pose proof (rd_wf _ _ _ R) as W. split.
  - apply ids_NoDup.
  - cbn. rewrite omap_omap. apply omap_NoDup; [|apply NoDup_seq]. intros k k' e _ _.
    destruct (as_conns s !! k) as [[o y]|] eqn:E; [|done]. destruct (as_conns s !! k') as [[o' y']|] eqn:E'; [|done].
    cbn. destruct (conn_entry_cur _ _ _ E) as (Hk & -> & _), (conn_entry_cur _ _ _ E') as (Hk' & -> & _).
    by apply (ok_encoders _ C).
  - cbn. rewrite omap_omap. apply omap_NoDup; [|apply NoDup_seq]. intros k k' e _ _.
    destruct (as_conns s !! k) as [[o y]|] eqn:E; [|done]. destruct (as_conns s !! k') as [[o' y']|] eqn:E'; [|done].
    cbn. destruct (conn_entry_cur _ _ _ E) as (Hk & _ & <-), (conn_entry_cur _ _ _ E') as (Hk' & _ & <-).
    by apply (rd_apart _ _ _ R).
  - intros x (c & o & y & Hx & ->)%in_crtcs. destruct (wf_crtc _ _ W _ _ _ Hx) as (Hc & -> & ? & _). split; [|done].
    by apply (ok_refresh _ C).
  - intros x (c & o & y & Hx & ->)%in_crtcs. apply (rd_fine _ _ _ R _ _ _ Hx).
  - intros x (c & o & y & Hx & ->)%in_crtcs. cbn. intros Hn. rewrite needs_modeset_spec.
    rewrite (proj1 (rd_fine _ _ _ R _ _ _ Hx) Hn). by rewrite orb_true_r.
  - intros cn c (k & o & y & Hx & ->)%in_connectors. cbn. intros Ec. destruct (conn_entry_cur _ _ _ Hx) as (Hk & -> & _).
    split; [apply (ok_paired _ C k Hk); by eexists|]. apply crtc_ids. eapply (wf_conn_crtcs _ _ W); [done|by left].
  - intros cn c (k & o & y & Hx & ->)%in_connectors. cbn. intros Ec.
    split; [apply (rd_paired _ _ _ R k y); [apply new_conn_Some; by eexists|by eexists]|].
    apply crtc_ids. eapply (wf_conn_crtcs _ _ W); [done|by right].
  - intros p c (i & o & y & Hx & ->)%in_planes Hc. apply crtc_ids. by eapply (wf_plane_crtcs _ _ W).
  - intros cn (k & o & y & Hx & ->)%in_connectors. cbn. apply (rd_paired _ _ _ R k y). apply new_conn_Some. by eexists.
  - intros cn (k & o & y & Hx & ->)%in_connectors. cbn. destruct (conn_entry_cur _ _ _ Hx) as (Hk & -> & _).
    by apply (ok_paired _ C).
  - intros cn c (k & o & y & Hx & ->)%in_connectors. cbn. intros Hd Hc. apply needs_modeset_flagged.
    by eapply (rd_flagged _ _ _ R).
Qed.

(** The connector an encoder runs for. *)
Lemma route_of P e st c :
  shows D P -> pl_enc P !! e = Some (st, c) ->
  exists k, (k < n)%nat /\ cnf_crtc (mc_conn D k) = Some c /\ cnf_encoder (mc_conn D k) = Some e.
Proof using. intros S H. by apply (sh_encoders _ _ S) in H as (_ & _ & ?). Qed.

Lemma route_known P k c e :
  shows D P -> (k < n)%nat -> cnf_crtc (mc_conn D k) = Some c -> cnf_encoder (mc_conn D k) = Some e ->
  pl_enc P !! e = if decide (c ∈ pl_on P) then Some (Running, c) else None.
Proof using C.
  intros S Hk Ec Ee. case_decide as Hon.
  - apply (sh_encoders _ _ S). split_and!; [done|done|by exists k].
  - destruct (pl_enc P !! e) as [[st c']|] eqn:E; [|done]. apply (sh_encoders _ _ S) in E as (_ & Hon' & k' & Hk' & Ec' & Ee').
    rewrite (ok_encoders _ C k' k e) in Ec' by done. congruence.
Qed.

Lemma checked_shows_old P : shows D P -> shows_old u P.
Proof using R C F L.
  intros S. pose proof (rd_wf _ _ _ R) as W. split.
  - intros x (c & o & y & Hx & ->)%in_crtcs. cbn. destruct (wf_crtc _ _ W _ _ _ Hx) as (Hc & -> & _).
    rewrite (sh_on _ _ S). intuition.
  - intros e st c H. by apply (sh_encoders _ _ S) in H as (? & ? & _).
  - intros cn c e (k & o & y & Hx & ->)%in_connectors. cbn. destruct (conn_entry_cur _ _ _ Hx) as (Hk & -> & _).
    by apply route_known.
  - intros e st c H Hf%needs_modeset_flagged. destruct (route_of _ _ _ _ S H) as (k & Hk & Ec & Ee).
    assert (Hin : is_Some (as_conns s !! k)).
    { destruct (as_conns s !! k) as [x|] eqn:E; [by eexists|]. apply (af_conns _ _ _ F) with (k := k) in Hf; [by rewrite E in Hf|done|].
      unfold cur_conn, new_conn. by rewrite E. }
    destruct Hin as [[o y] Hx]. destruct (conn_entry_cur _ _ _ Hx) as (_ & -> & _). eexists.
    split; [apply in_connectors; by exists k, (mc_conn D k), y|done].
  - intros cn e (k & o & y & Hx & ->)%in_connectors. cbn. intros Ee [[st c] H].
    destruct (route_of _ _ _ _ S H) as (k' & Hk' & Ec' & Ee'). destruct (conn_entry_cur _ _ _ Hx) as (Hk & _ & Hy).
    assert (Hin : is_Some (as_conns s !! k')).
    { destruct (as_conns s !! k') as [x|] eqn:E; [by eexists|]. exfalso. assert (k = k') as <-; [|congruence].
      apply (rd_apart _ _ _ R k k' e Hk Hk'); [by rewrite Hy|]. unfold cur_conn, new_conn. by rewrite E. }
    destruct Hin as [[o' y'] Hx']. destruct (conn_entry_cur _ _ _ Hx') as (_ & -> & _). eexists.
    split; [apply in_connectors; by exists k', (mc_conn D k'), y'|done].
Qed.

(** *** The configuration afterwards *)

Lemma swap_conn k : mc_conn (swap D s) k = cur_conn D s k.
Proof using. cbn. unfold cur_conn, new_conn. by destruct (as_conns s !! k) as [[]|]. Qed.

(** A CRTC outside the commit keeps its connectors. *)
Lemma outside_routes c k : as_crtcs s !! c = None ->
  cnf_crtc (cur_conn D s k) = Some c <-> cnf_crtc (mc_conn D k) = Some c.
Proof using R.
  intros Hn. unfold cur_conn, new_conn. destruct (as_conns s !! k) as [[o y]|] eqn:E; [cbn|done].
  destruct (conn_entry_cur _ _ _ E) as (_ & -> & _).
  split; intros Hc; destruct (wf_conn_crtcs _ _ (rd_wf _ _ _ R) _ _ _ c E) as [? ?]; auto; congruence.
Qed.

Lemma outside_encoders c k e : as_crtcs s !! c = None -> cnf_crtc (mc_conn D k) = Some c ->
  cnf_encoder (cur_conn D s k) = Some e <-> cnf_encoder (mc_conn D k) = Some e.
Proof using R.
  intros Hn Hc. unfold cur_conn, new_conn. destruct (as_conns s !! k) as [[o y]|] eqn:E; [cbn|done].
  destruct (conn_entry_cur _ _ _ E) as (_ & -> & _).
  destruct (wf_conn_crtcs _ _ (rd_wf _ _ _ R) _ _ _ c E) as [? ?]; auto; congruence.
Qed.

Lemma swap_config_ok : config_ok (swap D s).
Proof using R C.
  pose proof (rd_wf _ _ _ R) as W.
  assert (Hcn : forall k, (k < n)%nat -> (forall c, cnf_crtc (cur_conn D s k) = Some c -> (c < mc_num_crtc D)%nat)
            /\ (is_Some (cnf_crtc (cur_conn D s k)) <-> is_Some (cnf_encoder (cur_conn D s k)))).
  { intros k Hk. destruct (as_conns s !! k) as [[o y]|] eqn:E.
    - destruct (conn_entry_cur _ _ _ E) as (_ & -> & ->). split.
      + intros c Hc. destruct (wf_conn_crtcs _ _ W _ _ _ c E) as [[o' y'] Hx]; [by right|]. by eapply (wf_crtc _ _ W).
      + apply (rd_paired _ _ _ R k). apply new_conn_Some. by eexists.
    - unfold cur_conn, new_conn. rewrite E. cbn. split; [intros c; by apply (ok_conn_crtc _ C)|by apply (ok_paired _ C)]. }
  split; intros *; rewrite ?swap_conn; try setoid_rewrite swap_conn; cbn.
  - intros Hk. by apply Hcn.
  - intros Hp. destruct (as_planes s !! p) as [[o y]|] eqn:E; [|by apply (ok_plane_crtc _ C)]. cbn. intros ->.
    destruct (wf_plane_crtcs _ _ W _ _ _ c E) as [[o' y'] Hx]; [by right|]. by eapply (wf_crtc _ _ W).
  - intros Hk. by apply Hcn.
  - intros Hk Hk'. by apply (rd_apart _ _ _ R).
  - intros Hc Hk. destruct (as_crtcs s !! c) as [[o y]|] eqn:E; cbn.
    + by eapply (wf_connector_mask _ _ W).
    + rewrite (ok_connector_mask _ C) by done. apply bool_decide_ext. by rewrite outside_routes.
  - intros Hc. destruct (as_crtcs s !! c) as [[o y]|] eqn:E; cbn.
    + apply (rd_masks _ _ _ R _ _ _ _ E).
    + rewrite (ok_encoder_mask _ C c e Hc). split; intros (k & Hk & E1 & E2); exists k; (split; [done|]);
        rewrite ?swap_conn in *.
      * rewrite outside_routes, outside_encoders by done. done.
      * rewrite (outside_routes _ _ E) in E1. by rewrite outside_encoders in E2.
  - intros Hc. destruct (as_crtcs s !! c) as [[o y]|] eqn:E; cbn; [|by apply (ok_enable _ C)].
    by apply (rd_fine _ _ _ R _ _ _ E).
  - intros Hc. destruct (as_crtcs s !! c) as [[o y]|] eqn:E; cbn; [|by apply (ok_active _ C)].
    by apply (rd_fine _ _ _ R _ _ _ E).
  - intros Hc. destruct (as_crtcs s !! c) as [[o y]|] eqn:E; cbn; [|by apply (ok_refresh _ C)].
    by apply (wf_crtc _ _ W _ _ _ E).
  - intros Hc. destruct (as_crtcs s !! c) as [[o y]|] eqn:E; cbn; [|by apply (ok_blob _ C)].
    by apply (rd_fine _ _ _ R _ _ _ E).
  - intros Hc. destruct (as_crtcs s !! c) as [[o y]|] eqn:E; cbn; [|by apply (ok_mode _ C)].
    by apply (wf_crtc _ _ W _ _ _ E).
Qed.

(** *** The screen afterwards *)

Section Shown.
Context (P P' : pipeline) (S : shows D P) (N : shows_new u P P').

Lemma swap_on c : c ∈ pl_on P' <-> (c < mc_num_crtc D)%nat /\ st_active (cf_st (mc_crtc (swap D s) c)) = true.
Proof using R S N.
  cbn. destruct (as_crtcs s !! c) as [[o y]|] eqn:E; cbn.
  - pose proof (sn_crtc _ _ _ N (mkce c (cf_st o) (cf_st y))) as H. cbn in H. rewrite H.
    + destruct (wf_crtc _ _ (rd_wf _ _ _ R) _ _ _ E) as [? _]. intuition.
    + apply in_crtcs. by exists c, o, y.
  - rewrite (sn_other_crtc _ _ _ N), (sh_on _ _ S); [done|]. rewrite crtc_ids, E. by intros [? ?].
Qed.

Lemma old_encoders_in e :
  e ∈ omap cn_old_encoder (au_connectors u)
  <-> exists k y, as_conns s !! k = Some (mc_conn D k, y) /\ cnf_encoder (mc_conn D k) = Some e.
Proof using R.
  rewrite list_elem_of_omap. split.
  - intros (cn & (k & o & y & Hx & ->)%in_connectors & He). destruct (conn_entry_cur _ _ _ Hx) as (_ & -> & _).
    by exists k, y.
  - intros (k & y & Hx & He). eexists. split; [apply in_connectors; by exists k, (mc_conn D k), y|done].
Qed.

Lemma new_encoders_in e :
  e ∈ omap cn_new_encoder (au_connectors u) <-> exists k o y, as_conns s !! k = Some (o, y) /\ cnf_encoder y = Some e.
Proof using R.
  rewrite list_elem_of_omap. split.
  - intros (cn & (k & o & y & Hx & ->)%in_connectors & He). by exists k, o, y.
  - intros (k & o & y & Hx & He). eexists. split; [apply in_connectors; by exists k, o, y|done].
Qed.

(** A route outside the commit. *)
Lemma untouched_route k c e :
  (k < n)%nat -> as_conns s !! k = None -> cnf_crtc (mc_conn D k) = Some c -> cnf_encoder (mc_conn D k) = Some e ->
  (c ∈ pl_on P' <-> c ∈ pl_on P) /\ pl_enc P' !! e = pl_enc P !! e.
Proof using R F C S N L.
  intros Hk Hn Ec Ee. assert (Hcur : cur_conn D s k = mc_conn D k) by (unfold cur_conn, new_conn; by rewrite Hn). split.
  - destruct (as_crtcs s !! c) as [[o y]|] eqn:E.
    2: { apply (sn_other_crtc _ _ _ N). rewrite crtc_ids, E. by intros [? ?]. }
    destruct (wf_crtc _ _ (rd_wf _ _ _ R) _ _ _ E) as (Hc & -> & _). rewrite swap_on, (sh_on _ _ S). cbn. rewrite E. cbn.
    destruct (decide (st_active (cf_st (mc_crtc D c)) = st_active (cf_st y))) as [->|Ha]; [done|].
    assert (Hf : flagged s c).
    { exists y. split; [unfold new_crtc; by rewrite E|]. rewrite needs_modeset_spec.
      rewrite (proj1 (rd_fine _ _ _ R _ _ _ E) Ha). by rewrite orb_true_r. }
    destruct (af_conns _ _ _ F c k Hf Hk) as [? ?]; [by rewrite Hcur|congruence].
  - apply (sn_other _ _ _ N).
    + rewrite old_encoders_in. intros (k' & y & Hx & Ee'). destruct (conn_entry_cur _ _ _ Hx) as (Hk' & _ & _).
      rewrite (ok_encoders _ C k k' e) in Hn by done. congruence.
    + rewrite new_encoders_in. intros (k' & o & y & Hx & Ee'). destruct (conn_entry_cur _ _ _ Hx) as (Hk' & _ & Hy).
      rewrite (rd_apart _ _ _ R k k' e) in Hn; [congruence|done|done|by rewrite Hcur|by rewrite Hy].
Qed.

(** Where the encoder [e] is afterwards. *)
Lemma route_after k c e :
  (k < n)%nat -> cnf_crtc (cur_conn D s k) = Some c -> cnf_encoder (cur_conn D s k) = Some e ->
  pl_enc P' !! e = if decide (c ∈ pl_on P') then Some (Running, c) else None.
Proof using R F C S N L.
  intros Hk. destruct (as_conns s !! k) as [[o y]|] eqn:E.
  - destruct (conn_entry_cur _ _ _ E) as (_ & _ & ->). intros Ec Ee.
    eapply (sn_conn _ _ _ N); [apply in_connectors; by exists k, o, y|done|done].
  - assert (cur_conn D s k = mc_conn D k) as -> by (unfold cur_conn, new_conn; by rewrite E). intros Ec Ee.
    destruct (untouched_route k c e Hk E Ec Ee) as [Hon ->]. rewrite (route_known P k c e S Hk Ec Ee).
    apply decide_ext. by symmetry.
Qed.

Lemma swap_shows : shows (swap D s) P'.
Proof using R F C S N L.
  split; [exact swap_on|]. intros e st c. setoid_rewrite swap_conn. cbn [mc_num_connector swap]. split.
  - intros He.
    assert (Hk : exists k, (k < n)%nat /\ cnf_encoder (cur_conn D s k) = Some e).
    { destruct (decide (e ∈ omap cn_new_encoder (au_connectors u))) as [Hin|Hnew].
      { apply new_encoders_in in Hin as (k & o & y & Hx & Ee). destruct (conn_entry_cur _ _ _ Hx) as (Hk & _ & Hy).
        exists k. by rewrite Hy. }
      destruct (decide (e ∈ omap cn_old_encoder (au_connectors u))) as [Hin|Hold].
      { by rewrite (sn_left _ _ _ N e Hin Hnew) in He. }
      rewrite (sn_other _ _ _ N e Hold Hnew) in He. destruct (route_of _ _ _ _ S He) as (k & Hk & Ec & Ee).
      exists k. split; [done|]. destruct (as_conns s !! k) as [[o y]|] eqn:E.
      - destruct Hold. apply old_encoders_in. destruct (conn_entry_cur _ _ _ E) as (_ & -> & _). by exists k, y.
      - unfold cur_conn, new_conn. by rewrite E. }
    destruct Hk as (k & Hk & Ee). pose proof (ok_paired _ swap_config_ok k Hk) as Hp. rewrite swap_conn in Hp.
    destruct (proj2 Hp) as [c' Ec]; [by eexists|]. rewrite (route_after k c' e Hk Ec Ee) in He.
    case_decide as Hon; [|done]. injection He as <- <-. split_and!; [done|done|by exists k].
  - intros (-> & Hon & k & Hk & Ec & Ee). rewrite (route_after k c e Hk Ec Ee). by rewrite decide_True.
Qed.
End Shown.
End Checked.

(** *** One commit *)

Section Commit.
Context `{AI : !AtomicInlines} `{L : !AtomicInlinesLaws} (d : commit_driver).

(** A driver that can switch each of its CRTCs on and off. *)
Definition can_switch : Prop := forall c,
  let h := cd_crtc d c in
  ch_atomic_disable h || ch_disable h || ch_dpms h = true /\ ch_atomic_enable h || ch_commit h = true.

Lemma checked_commit_spec m D s :
  config_ok D -> stable_encoders (cm_hooks m) -> checked_commit m D = inr s ->
  routed (cm_hooks m) D s /\ affected (cm_hooks m) D s
  /\ new_view D s ≡ fold_left (fun v r => ask r v) (cm_requests m) (view_of D).
Proof using L.
  intros C Hst (s1 & H1 & H2)%rbind_inr.
  pose proof (empty_built D (cm_legacy m) (cm_allow_modeset m) false) as B0.
  pose proof (build_built (cm_locks m) D C _ _ _ B0 H1) as B1.
  destruct (check_only_checked (cm_locks m) (cm_hooks m) D C s1 s Hst B1 H2) as (R & F & V & _).
  split_and!; [done|done|]. rewrite V, (build_view (cm_locks m) D C _ _ _ B0 H1). by apply asks_proper.
Qed.

Lemma checked_commit_no_modeset m D s c :
  config_ok D -> stable_encoders (cm_hooks m) -> checked_commit m D = inr s -> cm_allow_modeset m = false -> ~ flagged s c.
Proof using L.
  intros C Hst (s1 & H1 & H2)%rbind_inr Ha.
  pose proof (empty_built D (cm_legacy m) (cm_allow_modeset m) false) as B0.
  eapply (check_only_no_modeset (cm_locks m)); [done|done| |done|].
  - by eapply build_built.
  - by rewrite (build_allow _ _ _ _ _ H1).
Qed.

Lemma unflagged_route hk D s k :
  config_ok D -> routed hk D s -> (forall c, ~ flagged s c) -> (k < mc_num_connector D)%nat ->
  (cnf_crtc (mc_conn D k), cnf_encoder (mc_conn D k)) = (cnf_crtc (cur_conn D s k), cnf_encoder (cur_conn D s k)).
Proof using.
  intros C R Hn Hk. unfold cur_conn, new_conn. destruct (as_conns s !! k) as [[o y]|] eqn:E; [cbn|done].
  destruct (conn_entry_cur _ _ _ R _ _ _ E) as (_ & -> & _).
  destruct (decide ((cnf_crtc (mc_conn D k), cnf_encoder (mc_conn D k)) = (cnf_crtc y, cnf_encoder y))) as [|Hd]; [done|].
  assert (Hno : forall c, ~ (cnf_crtc (mc_conn D k) = Some c \/ cnf_crtc y = Some c))
    by (intros c Hc; apply (Hn c); by eapply (rd_flagged _ _ _ R)).
  assert (Hnone : forall a b : option nat, (forall c, a <> Some c) -> is_Some a <-> is_Some b -> a = None /\ b = None).
  { intros [a|] [b|] H1 [H2 H3]; try done; [by destruct (H1 a)..|]. destruct H3 as [? ?]; [by eexists|done]. }
  destruct (Hnone _ _ (fun c Hc => Hno c (or_introl Hc)) (ok_paired _ C k Hk)) as [E1 E2].
  destruct (Hnone (cnf_crtc y) (cnf_encoder y)) as [E3 E4]; [intros c Hc; apply (Hno c); by right| |].
  - apply (rd_paired _ _ _ R k). apply new_conn_Some. by eexists.
  - by rewrite E1, E2, E3, E4.
Qed.

Lemma unflagged_active hk D s c :
  routed hk D s -> (forall c, ~ flagged s c) ->
  st_active (cf_st (mc_crtc (swap D s) c)) = st_active (cf_st (mc_crtc D c)).
Proof using L.
  intros R Hn. cbn. destruct (as_crtcs s !! c) as [[o y]|] eqn:E; [cbn|done].
  destruct (wf_crtc _ _ (rd_wf _ _ _ R) _ _ _ E) as (_ & -> & _).
  destruct (decide (st_active (cf_st (mc_crtc D c)) = st_active (cf_st y))) as [->|Ha]; [done|].
  destruct (Hn c). exists y. split; [apply new_crtc_Some; by eexists|]. rewrite needs_modeset_spec.
  rewrite (proj1 (rd_fine _ _ _ R _ _ _ E) Ha). by rewrite orb_true_r.
Qed.

(** A configuration determines what shows it. *)
Lemma shows_unique D P P' : shows D P -> shows D P' -> P = P'.
Proof using.
  intros [S1 S2] [T1 T2].
  assert (Hon : pl_on P = pl_on P') by (apply set_eq; intros c; by rewrite S1, T1).
  destruct P as [on m], P' as [on' m']. cbn in *. subst on'. f_equal. apply map_eq. intros e.
  apply option_eq. intros [st c]. by rewrite S2, T2.
Qed.

Lemma swap_view D s : view_of (swap D s) ≡ new_view D s.
Proof using.
  split; cbn; try done.
  - intros k. unfold cur_conn, new_conn. by destruct (as_conns s !! k) as [[]|].
  - intros c. unfold cur_crtc, new_crtc. by destruct (as_crtcs s !! c) as [[]|].
  - intros c. unfold cur_crtc, new_crtc. by destruct (as_crtcs s !! c) as [[]|].
Qed.

(** The calls of the commit tail. *)
Definition tail_calls (m : commit_in) (D : mode_config) (s : atomic_state) : list commit_call :=
  let u := update_of D s in
  if cm_rpm m then drm_atomic_helper_commit_tail_rpm d u else drm_atomic_helper_commit_tail d u.

(** A checked commit runs, and is shown. *)
Lemma commit_shown m D P s :
  can_switch -> stable_encoders (cm_hooks m) -> config_ok D -> shows D P -> checked_commit m D = inr s ->
  exists P', pipe_run (cm_rpm m) P (tail_calls m D s) = Some P' /\ config_ok (swap D s) /\ shows (swap D s) P'.
Proof using L.
  intros Hd Hst C S E. destruct (checked_commit_spec m D s C Hst E) as (R & F & _).
  pose proof (checked_update_ok (cm_hooks m) D C s R) as U.
  pose proof (checked_shows_old (cm_hooks m) D C s R F P S) as So.
  assert (Hh : hooks_ok d (update_of D s)) by (intros x _; apply Hd).
  assert (Hrun : exists P', pipe_run (cm_rpm m) P (tail_calls m D s) = Some P' /\ shows_new (update_of D s) P P').
  { unfold tail_calls. destruct (cm_rpm m); [by apply commit_tail_rpm_run|by apply commit_tail_run]. }
  destruct Hrun as (P' & Hr & N). exists P'. split_and!; [done|by eapply swap_config_ok|].
  by eapply (swap_shows (cm_hooks m) D C s R F P P').
Qed.

Lemma ioctl_shown m D P :
  can_switch -> stable_encoders (cm_hooks m) -> config_ok D -> shows D P ->
  exists ret D' P', drm_mode_atomic_ioctl d m D P = Some (ret, D', P') /\ config_ok D' /\ shows D' P'
  /\ view_of D' ≡ asked [m] [ret] (view_of D).
Proof using L.
  intros Hd Hst C S. unfold drm_mode_atomic_ioctl, carry_out. destruct (checked_commit m D) as [err|s] eqn:E.
  { by exists (Some err), D, P. }
  cbn [asked]. destruct (cm_test_only m).
  { by exists None, D, P. }
  destruct (truthy (cm_prepare m)).
  { by exists (Some (cm_prepare m)), D, P. }
  destruct (commit_shown m D P s Hd Hst C S E) as (P' & Hr & C' & S'). unfold tail_calls in Hr. cbv zeta in *. rewrite Hr.
  exists None, (swap D s), P'. split_and!; [done..|]. destruct (checked_commit_spec m D s C Hst E) as (_ & _ & V).
  by rewrite swap_view.
Qed.
End Commit.

(** ** Theorems *)

(** C1: from a configuration that the pipeline shows, every sequence of commits of user
    space - whatever it asks for, whatever the drivers answer, wherever locks and
    allocations fail - runs without ever breaking the protocol of the pipeline.
    Afterwards the configuration is sound again, the pipeline shows exactly it, and
    its routes, modes and active CRTCs are those asked for by the commits that were
    neither refused nor only tests; any other commit has changed nothing. *)
Theorem display_refines `{AI : !AtomicInlines} `{L : !AtomicInlinesLaws} d ms D P :
  can_switch d -> Forall (fun m => stable_encoders (cm_hooks m)) ms -> config_ok D -> shows D P ->
  exists rets D' P', run_commits d ms D P = Some (rets, D', P') /\ length rets = length ms
  /\ config_ok D' /\ shows D' P' /\ view_of D' ≡ asked ms rets (view_of D).
Proof.
  intros Hd. revert D P. induction ms as [|m ms IH]; intros D P Hst C S.
  { by exists [], D, P. }
  apply Forall_cons in Hst as [Hm Hst].
  destruct (ioctl_shown d m D P Hd Hm C S) as (ret & D1 & P1 & H1 & C1 & S1 & V1).
  destruct (IH D1 P1 Hst C1 S1) as (rets & D2 & P2 & H2 & Hl & C2 & S2 & V2).
  exists (ret :: rets), D2, P2. cbn. rewrite H1. cbn. rewrite H2. split_and!; [done|cbn; by rewrite Hl|done|done|].
  rewrite V2, V1. by destruct ret.
Qed.

(** C9: in the configuration a checked commit leads to, no encoder serves two
    connectors; a connector that the commit routes has an encoder that can be fed by
    its CRTC; and the encoders of a CRTC that gets a full modeset may be cloned with
    each other, unless they say nothing of clones. *)
Theorem checked_routes `{AI : !AtomicInlines} `{L : !AtomicInlinesLaws} m D s :
  config_ok D -> stable_encoders (cm_hooks m) -> checked_commit m D = inr s ->
  let D' := swap D s in
  (forall k k' e, (k < mc_num_connector D)%nat -> (k' < mc_num_connector D)%nat ->
     cnf_encoder (mc_conn D' k) = Some e -> cnf_encoder (mc_conn D' k') = Some e -> k = k')
  /\ (forall k c e, (k < mc_num_connector D)%nat -> cnf_crtc (mc_conn D' k) = Some c -> cnf_encoder (mc_conn D' k) = Some e ->
      (cnf_crtc (mc_conn D k), cnf_encoder (mc_conn D k)) = (Some c, Some e)
      \/ Z.testbit (hk_possible_crtcs (cm_hooks m) e) (Z.of_nat c) = true)
  /\ (forall c k k' e e', flagged s c -> (k < mc_num_connector D)%nat -> (k' < mc_num_connector D)%nat ->
      cnf_crtc (mc_conn D' k) = Some c -> cnf_encoder (mc_conn D' k) = Some e ->
      cnf_crtc (mc_conn D' k') = Some c -> cnf_encoder (mc_conn D' k') = Some e' ->
      (e < hk_num_encoder (cm_hooks m))%nat -> hk_possible_clones (cm_hooks m) e <> 0 ->
      Z.testbit (hk_possible_clones (cm_hooks m) e) (Z.of_nat e') = true).
Proof.
  intros C Hst E D'. destruct (checked_commit_spec m D s C Hst E) as (R & F & _). unfold D'.
  setoid_rewrite swap_conn. split_and!.
  - apply (rd_apart _ _ _ R).
  - intros k c e Hk Ec Ee. unfold cur_conn, new_conn in Ec, Ee. destruct (as_conns s !! k) as [[o y]|] eqn:Ex; cbn in *.
    + destruct (conn_entry_cur _ _ _ R _ _ _ Ex) as (_ & -> & _).
      destruct (rd_possible _ _ _ R _ _ _ c e Ex Ec Ee) as [->|H]; [left; by rewrite Ec, Ee|right].
      by rewrite truthy_land_BIT in H by lia.
    + left. by rewrite Ec, Ee.
  - intros c k k' e e' Hf Hk Hk' Ec Ee Ec' Ee' He Hz. pose proof (af_clones _ _ _ F c Hf) as Hcl.
    destruct Hf as (x & Hx & _). unfold drm_atomic_check_valid_clones in Hcl. rewrite Hx in Hcl.
    apply new_crtc_Some in Hx as [o Ho].
    destruct (forallb _ _) eqn:Eall; [|done]. rewrite forallb_forall in Eall.
    specialize (Eall e ltac:(apply in_seq; lia)). rewrite mask_bit in Eall.
    rewrite (proj2 (rd_masks _ _ _ R _ _ _ e Ho)) in Eall by (by exists k). cbn in Eall.
    rewrite (proj2 (Z.eqb_neq _ _) Hz) in Eall. cbn in Eall. apply Z.eqb_eq in Eall.
    assert (Hb : Z.testbit (cf_encoder_mask x) (Z.of_nat e') = true)
      by (apply (proj2 (rd_masks _ _ _ R _ _ _ e' Ho)); by exists k').
    rewrite <- Eall, Z.land_spec in Hb. by apply andb_prop in Hb as [_ ?].
Qed.

(** C10: a commit that may not set modes (no DRM_MODE_ATOMIC_ALLOW_MODESET) and is not
    refused leaves every route, every active CRTC and the whole pipeline as they
    were. *)
Theorem no_modeset_unnoticed `{AI : !AtomicInlines} `{L : !AtomicInlinesLaws} d m D P D' P' :
  can_switch d -> stable_encoders (cm_hooks m) -> config_ok D -> shows D P ->
  drm_mode_atomic_ioctl d m D P = Some (None, D', P') -> cm_allow_modeset m = false ->
  P' = P
  /\ (forall k, (k < mc_num_connector D)%nat -> cnf_crtc (mc_conn D' k) = cnf_crtc (mc_conn D k)
                /\ cnf_encoder (mc_conn D' k) = cnf_encoder (mc_conn D k))
  /\ (forall c, (c < mc_num_crtc D)%nat -> st_active (cf_st (mc_crtc D' c)) = st_active (cf_st (mc_crtc D c))).
Proof.
  intros Hd Hst C S H Ha.
  destruct (ioctl_shown d m D P Hd Hst C S) as (ret & D1 & P1 & H1 & _ & S1 & _).
  rewrite H in H1. injection H1 as <- <- <-. unfold drm_mode_atomic_ioctl, carry_out in H.
  destruct (checked_commit m D) as [err|s] eqn:E; [done|].
  destruct (checked_commit_spec m D s C Hst E) as (R & F & _).
  destruct (cm_test_only m); [by injection H as <- <-|]. destruct (truthy (cm_prepare m)); [done|].
  assert (Hn : forall c, ~ flagged s c) by (intros c; exact (checked_commit_no_modeset m D s c C Hst E Ha)).
  destruct (pipe_run _ P _) as [P1|]; [|done]. injection H as <- <-.
  assert (Hk : forall k, (k < mc_num_connector D)%nat ->
    (cnf_crtc (mc_conn D k), cnf_encoder (mc_conn D k)) = (cnf_crtc (cur_conn D s k), cnf_encoder (cur_conn D s k)))
    by (intros k; by eapply unflagged_route).
  assert (Hc : forall c, st_active (cf_st (mc_crtc (swap D s) c)) = st_active (cf_st (mc_crtc D c)))
    by (intros c; by eapply unflagged_active).
  split_and!; [|intros k Hlt; rewrite swap_conn; by injection (Hk k Hlt)|intros c _; apply Hc].
  apply (shows_unique (swap D s)); [done|]. destruct S as [S2 S3]. split.
  - intros c. by rewrite S2, Hc.
  - intros e st c. rewrite S3. setoid_rewrite swap_conn. cbn [mc_num_connector swap].
    split; intros (-> & Hon & k & Hlt & E1 & E2); (split_and!; [done|done|exists k; split; [done|]]);
      injection (Hk k Hlt) as E3 E4; split; congruence.
Qed.

(** ** A machine with two outputs *)

#[local] Open Scope nat_scope.
#[local] Existing Instance documented_inlines.
#[local] Existing Instance documented_laws.

Definition dark_crtc : crtc_full :=
  mkcf (mkst false false false false false false false) no_mode None no_mode 0 0 0 false false.

(** Nothing is on. *)
Definition boot : mode_config :=
  mkmc 2 2 2 (fun _ => dark_crtc) (fun _ => mkcnf None None 0 0 None false) (fun _ => None).

(** Connector [k] has encoder [k], which can be fed by both CRTCs. *)
Definition two_outputs : kms_hooks :=
  mkhk (fun _ => None) (fun _ => None) (fun k => Some k) (fun _ => false) (fun _ => false) (fun _ => None)
       (fun _ => 3%Z) (fun _ => 3%Z) 2 (fun _ => 0%Z) (fun _ _ => MODE_OK) (fun _ _ _ => MODE_OK) (fun _ _ => MODE_OK)
       (fun _ c s => (0%Z, match new_crtc s c with Some x => cf_adjusted_mode x | None => no_mode end))
       (fun _ => None) (fun _ => None) (fun _ => None) (fun _ _ => 0%Z) (fun _ => None) (fun _ => None) true.

Definition no_failure : kms_locks := mklocks (fun _ => 0%Z) (fun _ => 0%Z) (fun _ => 0%Z).
Definition commit_of (rs : list request) (allow rpm : bool) : commit_in :=
  mkcm no_failure two_outputs rs false allow false 0 rpm.
Definition some_mode : mode_blob := mkblob 7 (Some {| no_mode with hdisplay := 1024; vdisplay := 600 |}).

(** Both outputs show the first CRTC; then the second moves to the other CRTC; then the
    first CRTC would be switched off, but modes may not be set. *)
Definition session : list commit_in := [
  commit_of [SetMode 0 (Some some_mode); SetActive 0 true; SetConnectorCrtc 0 (Some 0); SetConnectorCrtc 1 (Some 0)] true false;
  commit_of [SetMode 1 (Some some_mode); SetActive 1 true; SetConnectorCrtc 1 (Some 1); SetPlaneCrtc 0 (Some 1)] true true;
  commit_of [SetActive 0 false] false false ].

Example session_shown :
  (fun x => (x.1.1, elements (pl_on x.2), map_to_list (pl_enc x.2))) <$> run_commits plain_driver session boot (mkpl ∅ ∅)
  = Some ([None; None; Some (-22)%Z], [1; 0], [(1, (Running, 1)); (0, (Running, 0))]).
Proof. vm_compute. reflexivity. Qed.

Lemma boot_ok : config_ok boot /\ shows boot (mkpl ∅ ∅) /\ can_switch plain_driver /\ stable_encoders two_outputs.
Proof.
  split_and!; [| |done|done].
  - split; cbn; try done.
    + intros c k Hc Hk. apply Z.bits_0.
    + intros c e Hc. rewrite Z.bits_0. split; [done|]. by intros (k & _ & ? & _).
  - split; cbn.
    + intros c. split; [by intros ?%not_elem_of_empty|by intros [_ ?]].
    + intros e st c. rewrite lookup_empty. split; [done|]. by intros (_ & ?%not_elem_of_empty & _).
Qed.

Lemma display_refines_witness :
  can_switch plain_driver /\ Forall (fun m => stable_encoders (cm_hooks m)) session
  /\ config_ok boot /\ shows boot (mkpl ∅ ∅)
  /\ exists rets D' P', run_commits plain_driver session boot (mkpl ∅ ∅) = Some (rets, D', P')
     /\ length rets = length session /\ config_ok D' /\ shows D' P' /\ view_of D' ≡ asked session rets (view_of boot).
Proof.
  destruct boot_ok as (C & S & Hd & Hst).
  assert (Hf : Forall (fun m => stable_encoders (cm_hooks m)) session) by (repeat constructor; exact Hst).
  split_and!; try done. by apply display_refines.
Defined.

Definition outcome (m : commit_in) : atomic_state :=
  match checked_commit m boot with inr s => s | inl _ => empty_state false false false end.
Definition both_on_first : commit_in := nth 0 session (commit_of [] false false).
Definition plane_only : commit_in := commit_of [SetPlaneCrtc 0 (Some 1); SetMaxBpc 0 8] false false.

Lemma checked_routes_witness :
  exists s, checked_commit both_on_first boot = inr s
  /\ (forall k k' e, k < 2 -> k' < 2 -> cnf_encoder (mc_conn (swap boot s) k) = Some e ->
        cnf_encoder (mc_conn (swap boot s) k') = Some e -> k = k')
  /\ cnf_encoder (mc_conn (swap boot s) 0) = Some 0 /\ cnf_encoder (mc_conn (swap boot s) 1) = Some 1.
Proof.
  destruct boot_ok as (C & S & Hd & Hst).
  assert (E : checked_commit both_on_first boot = inr (outcome both_on_first)) by (vm_compute; reflexivity).
  exists (outcome both_on_first). split_and!; [exact E| |vm_compute; reflexivity|vm_compute; reflexivity].
  apply (checked_routes both_on_first boot (outcome both_on_first) C Hst E).
Defined.

Lemma no_modeset_unnoticed_witness :
  exists D' P', drm_mode_atomic_ioctl plain_driver plane_only boot (mkpl ∅ ∅) = Some (None, D', P')
  /\ P' = mkpl ∅ ∅ /\ mc_plane D' 0 = Some 1.
Proof.
  destruct boot_ok as (C & S & Hd & Hst).
  assert (E : exists P', drm_mode_atomic_ioctl plain_driver plane_only boot (mkpl ∅ ∅)
              = Some (None, swap boot (outcome plane_only), P')) by (eexists; vm_compute; reflexivity).
  destruct E as [P' E]. exists (swap boot (outcome plane_only)), P'. split_and!; [exact E| |vm_compute; reflexivity].
  by apply (no_modeset_unnoticed plain_driver plane_only boot _ _ _ Hd Hst C S E).
Defined.
