(* ===== verification/DrmModeset.v ===== *)
(** * DrmModeset: the mode the hardware is given
      (src/drm/drm_atomic_helper.c)

    The hardware is programmed with the adjusted mode of a CRTC, which the check
    resets to the mode that was asked for and passes through the drivers' hooks,
    but only when the CRTC gets a full modeset.  What of a mode the hooks leave
    alone - [T] here - is therefore always that of the mode asked for. *)

From S2P Require Export DrmDisplay.

Section Adjusted.
Context `{AI : !AtomicInlines} `{L : !AtomicInlinesLaws}.
Context {A : Type} (T : drm_display_mode -> A) `{HT : !Proper (mode_eqv ==> (=)) T}.

(** The hooks that may change an adjusted mode leave [T] of it. *)
Record hooks_keep (hk : kms_hooks) : Prop := {
  hk_keep_bridges e c s x m :
    new_crtc s c = Some x -> hk_bridges_check hk e c s = (0, m) -> T m = T (cf_adjusted_mode x);
  hk_keep_encoder e f c s x m :
    hk_encoder_check hk e = Some f -> new_crtc s c = Some x -> f c s = (0, m) -> T m = T (cf_adjusted_mode x);
  hk_keep_encoder_fixup e f m a a' : hk_encoder_mode_fixup hk e = Some f -> f m a = (true, a') -> T a' = T a;
  hk_keep_crtc_fixup c f m a a' : hk_crtc_mode_fixup hk c = Some f -> f m a = (true, a') -> T a' = T a;
  hk_keep_crtc c f s x m :
    hk_crtc_check hk c = Some f -> new_crtc s c = Some x -> f s = (0, m) -> T m = T (cf_adjusted_mode x)
}.

(** Of a configuration, and of a commit. *)
Definition adjusted_ok (D : mode_config) : Prop := forall c,
  (c < mc_num_crtc D)%nat -> T (cf_adjusted_mode (mc_crtc D c)) = T (cf_mode (mc_crtc D c)).
Definition in_step (s : atomic_state) : Prop := forall c x,
  new_crtc s c = Some x -> T (cf_adjusted_mode x) = T (cf_mode x).

(** *** Until the fixups, adjusted modes are the old ones *)

Section Kept.
Context (lk : kms_locks) (hk : kms_hooks) (D : mode_config).

Definition kept (s : atomic_state) : Prop := forall c x,
  new_crtc s c = Some x -> cf_adjusted_mode x = cf_adjusted_mode (mc_crtc D c).

(** Nothing is adjusted from the one to the other. *)
Definition same_adjusted (s s' : atomic_state) : Prop := forall c,
  cf_adjusted_mode <$> new_crtc s' c = cf_adjusted_mode <$> new_crtc s c.

#[export] Instance same_adjusted_preorder : PreOrder same_adjusted.
Proof using. split; [by intros s c|]. intros s1 s2 s3 H1 H2 c. by rewrite H2. Qed.

Lemma kept_same s s' : same_adjusted s s' -> kept s -> kept s'.
Proof using.
  intros H K c x Hx. specialize (H c). rewrite Hx in H. destruct (new_crtc s c) as [y|] eqn:E; [|done].
  injection H as ->. by apply K.
Qed.

Lemma same_upd_crtc c f s :
  (forall x, cf_adjusted_mode (f x) = cf_adjusted_mode x) -> same_adjusted s (upd_crtc c f s).
Proof using.
  intros Hf c'. unfold new_crtc. rewrite lookup_upd_crtc. case_decide; [|done].
  destruct (as_crtcs s !! c') as [[o x]|]; [|done]. cbn. by rewrite Hf.
Qed.

Lemma same_upd_conn k f s : same_adjusted s (upd_conn k f s).
Proof using. by intros c. Qed.

(** Chains of updates. *)
Ltac same := repeat (reflexivity || (etransitivity; [|first [by apply same_upd_crtc | apply same_upd_conn]])).

Lemma same_opt_changed c s : same_adjusted s (opt_changed c s).
Proof using. destruct c; [by apply same_upd_crtc|done]. Qed.

Lemma same_set_best k e s : same_adjusted s (set_best_encoder D k e s).
Proof using.
  unfold set_best_encoder. destruct (new_conn s k); [|done]. cbv zeta. repeat case_match; same.
Qed.

Lemma same_steal e l s : same_adjusted s (steal_encoder D e l s).
Proof using.
  destruct (steal_spec D e l s) as [[-> _]|(k & o & x & _ & _ & _ & ->)]; [done|].
  etransitivity; [apply same_set_best|apply same_opt_changed].
Qed.

Lemma crtc_changes_same c x s s' : crtc_changes hk c x s = inr s' -> same_adjusted s s'.
Proof using.
  unfold crtc_changes, connectors_changed. destruct x as [o x]. cbv zeta.
  destruct (drm_mode_equal _ _), (Bool.eqb (st_enable (cf_st o)) _), (Bool.eqb (st_active (cf_st o)) _);
    (destruct (negb _); [done|]); intros [= <-]; same.
Qed.

Lemma route_connector_same um k x s s' : route_connector hk D um k x s = inr s' -> same_adjusted s s'.
Proof using.
  destruct x as [o x]. unfold route_connector, connector_driver_check. intros (s1 & H1 & H)%rbind_inr.
  transitivity s1.
  - revert H1. unfold update_connector_routing. cbv zeta.
    set (s0 := if bool_decide (cnf_crtc o = cnf_crtc x) then s else _).
    assert (H0 : same_adjusted s s0).
    { unfold s0. case_bool_decide; [done|]. etransitivity; apply same_opt_changed. }
    intros H1. etransitivity; [exact H0|]. clearbody s0. revert H1.
    destruct (cnf_crtc x) as [c|]; [|intros [= <-]; apply same_set_best].
    destruct (_ && _); [done|]. destruct (pick_encoder hk s0 k) as [e|]; [|done].
    destruct (negb _); [done|]. case_bool_decide; intros [= <-]; [apply same_set_best|].
    etransitivity; [apply same_steal|]. etransitivity; [apply same_set_best|by apply same_upd_crtc].
  - assert (Hs : forall t, same_adjusted s1 t ->
      match hk_connector_check hk k with Some f => check0 (f t) t | None => inr t end = inr s' -> same_adjusted s1 s').
    { intros t Ht. destruct (hk_connector_check hk k); [by intros [_ ->]%check0_inr|by intros [= <-]]. }
    eapply Hs; [|exact H]. unfold connectors_changed. destruct (cnf_crtc o); [|done].
    destruct (_ =? _), (_ =? _); same.
Qed.

Lemma get_crtc_kept c s s' : kept s -> drm_atomic_get_crtc_state lk D c s = inr s' -> kept s'.
Proof using.
  intros K. unfold drm_atomic_get_crtc_state. destruct (as_crtcs s !! c); [by intros [= <-]|].
  intros [_ ->]%check0_inr. intros c' x. unfold new_crtc. cbn. intros ([o y] & Hy & ->)%fmap_Some.
  apply lookup_insert_Some in Hy as [[<- [= <- <-]]|[_ Hy]]; [done|]. apply K. unfold new_crtc. by rewrite Hy.
Qed.

Lemma get_conn_kept k s s' : kept s -> drm_atomic_get_connector_state lk D k s = inr s' -> kept s'.
Proof using.
  intros K. unfold drm_atomic_get_connector_state. destruct (as_conns s !! k); [by intros [= <-]|].
  intros (s1 & [_ ->]%check0_inr & H)%rbind_inr. destruct (cnf_crtc _) as [c|]; [|by injection H as <-].
  by eapply get_crtc_kept in H.
Qed.

Lemma get_plane_kept p s s' : kept s -> drm_atomic_get_plane_state lk D p s = inr s' -> kept s'.
Proof using.
  intros K. unfold drm_atomic_get_plane_state. destruct (as_planes s !! p); [by intros [= <-]|].
  intros (s1 & [_ ->]%check0_inr & H)%rbind_inr. destruct (mc_plane D p) as [c|]; [|by injection H as <-].
  by eapply get_crtc_kept in H.
Qed.

Lemma add_connectors_kept m l : forall s s', kept s -> add_connectors lk D m l s = inr s' -> kept s'.
Proof using.
  induction l as [|k l IH]; cbn; intros s s' K H; [by injection H as <-|].
  destruct (truthy _); [|by eapply IH]. apply rbind_inr in H as (s1 & H1 & H).
  eapply IH; [|exact H]. by eapply get_conn_kept.
Qed.

Lemma add_planes_kept m l : forall s s', kept s -> add_planes lk D m l s = inr s' -> kept s'.
Proof using.
  induction l as [|p l IH]; cbn; intros s s' K H; [by injection H as <-|].
  destruct (truthy _); [|by eapply IH]. apply rbind_inr in H as (s1 & H1 & H).
  eapply IH; [|exact H]. by eapply get_plane_kept.
Qed.

Lemma affected_by_kept c x s s' : kept s -> affected_by lk hk D c x s = inr s' -> kept s'.
Proof using.
  intros K. unfold affected_by. destruct (negb _); [by intros [= <-]|].
  intros (s1 & (s0 & H0 & H1)%rbind_inr & (s2 & H2 & [_ ->]%check0_inr)%rbind_inr)%rbind_inr.
  eapply add_planes_kept, H2. eapply add_connectors_kept, H1. by eapply get_crtc_kept.
Qed.
End Kept.

(** *** The fixups keep in step *)

Section Fixups.
Context (hk : kms_hooks) (K : hooks_keep hk) (D : mode_config).

Lemma new_crtc_upd c f s c' :
  new_crtc (upd_crtc c f s) c' = if decide (c = c') then f <$> new_crtc s c' else new_crtc s c'.
Proof using.
  unfold new_crtc. rewrite lookup_upd_crtc. case_decide; [|done]. by destruct (as_crtcs s !! c') as [[]|].
Qed.

Lemma in_step_set c m s :
  in_step s -> (forall x, new_crtc s c = Some x -> T m = T (cf_adjusted_mode x)) -> in_step (set_adjusted c m s).
Proof using.
  intros S Hm c' x. unfold set_adjusted. rewrite new_crtc_upd. case_decide as E; [subst c'|by apply S].
  intros (y & Hy & ->)%fmap_Some. cbn. rewrite (Hm y Hy). by apply (S c y).
Qed.

Lemma encoder_fixup_step e c s s' : in_step s -> encoder_fixup hk e c s = inr s' -> in_step s'.
Proof using K.
  intros S. unfold encoder_fixup. destruct (hk_bridges_check hk e c s) as [r m] eqn:Eb.
  destruct (truthy r) eqn:Er; [done|]. apply not_truthy in Er as ->. cbv zeta.
  assert (S1 : in_step (set_adjusted c m s)) by (apply in_step_set; [done|]; intros x Hx; by eapply (hk_keep_bridges _ K)).
  clear S. revert S1. generalize (set_adjusted c m s). intros s1 S.
  destruct (hk_encoder_check hk e) as [f|] eqn:Ef.
  - destruct (f c s1) as [r' m'] eqn:E. destruct (truthy r') eqn:Er; [done|]. apply not_truthy in Er as ->.
    intros [= <-]. apply in_step_set; [done|]. intros x Hx. by eapply (hk_keep_encoder _ K).
  - destruct (hk_encoder_mode_fixup hk e) as [f|] eqn:Ef'; [|by intros [= <-]].
    destruct (new_crtc s1 c) as [x|] eqn:Ex; [|by intros [= <-]]. destruct (f _ _) as [[] m'] eqn:E; [|done].
    intros [= <-]. apply in_step_set; [done|]. intros y Hy. rewrite Ex in Hy. injection Hy as <-.
    by eapply (hk_keep_encoder_fixup _ K).
Qed.

(** A loop over objects that keeps in step. *)
Lemma for_each_step {X} (get : atomic_state -> nat -> option X) body l s s' :
  (forall i x s s', get s i = Some x -> in_step s -> body i x s = inr s' -> in_step s') ->
  in_step s -> for_each get body l s = inr s' -> in_step s'.
Proof using.
  intros Hb S H. by apply (for_each_inv get body (fun _ _ => in_step) l [] s s' H S); eauto.
Qed.

Lemma reset_step s s' :
  adjusted_ok D -> kept D s ->
  (forall c o x, as_crtcs s !! c = Some (o, x) -> fine o x /\ (c < mc_num_crtc D)%nat /\ o = mc_crtc D c) ->
  for_each get_crtc (fun c '(_, x) s =>
    if mode_changing (cf_st x) then inr (set_adjusted c (cf_mode x) s) else inr s) (each_crtc D) s = inr s' ->
  in_step s'.
Proof using HT.
  intros Ha Hk Hf H.
  assert (Hsame : forall c x, new_crtc s c = Some x -> mode_changing (cf_st x) = false ->
                    T (cf_adjusted_mode x) = T (cf_mode x)).
  { intros c x Hx Hm. rewrite (Hk c x Hx). apply new_crtc_Some in Hx as [o Ho].
    destruct (Hf c o x Ho) as ((_ & Hmode & _) & Hc & ->). rewrite (Ha c Hc).
    apply orb_false_iff in Hm as [Hm _]. apply HT. apply mode_equal_iff.
    destruct (drm_mode_equal _ _) eqn:E; [done|]. rewrite Hmode in Hm; [done|].
    rewrite <- mode_equal_iff, E. by intros []. }
  assert (Hinv : forall c x, new_crtc s' c = Some x -> (c < mc_num_crtc D)%nat
            /\ (c ∈ [] ++ each_crtc D \/ mode_changing (cf_st x) = false -> T (cf_adjusted_mode x) = T (cf_mode x))).
  { apply (for_each_inv get_crtc _ (fun pre _ s1 => forall c x, new_crtc s1 c = Some x -> (c < mc_num_crtc D)%nat
            /\ (c ∈ pre \/ mode_changing (cf_st x) = false -> T (cf_adjusted_mode x) = T (cf_mode x)))
            (each_crtc D) [] s s' H).
    - intros c x Hx. split; [|intros [?%not_elem_of_nil|?]; [done|by eapply Hsame]].
      apply new_crtc_Some in Hx as [o Ho]. by destruct (Hf c o x Ho) as (_ & ? & _).
    - intros pre c l s1 I Hn c' x Hx. destruct (I c' x Hx) as [Hc I']. split; [done|].
      intros [Hc'|?]; [|by auto]. apply elem_of_app in Hc' as [?|E%list_elem_of_singleton]; [by auto|].
      subst c'. unfold new_crtc in Hx. unfold get_crtc in Hn. by rewrite Hn in Hx.
    - intros pre c l s1 [o x] s2 I Hx. assert (Hx' : new_crtc s1 c = Some x) by (apply new_crtc_Some; by exists o).
      destruct (mode_changing (cf_st x)) eqn:Em; intros [= <-] c' y.
      + unfold set_adjusted. rewrite new_crtc_upd. case_decide as E; [subst c'|].
        * rewrite Hx'. cbn. intros [= <-]. split; [by apply (I c x)|done].
        * intros Hy. destruct (I c' y Hy) as [Hc I']. split; [done|]. intros [Hc'|?]; [|by auto].
          apply elem_of_app in Hc' as [?|?%list_elem_of_singleton]; [by auto|congruence].
      + intros Hy. destruct (I c' y Hy) as [Hc I']. split; [done|]. intros [Hc'|?]; [|by auto].
        apply elem_of_app in Hc' as [?|E%list_elem_of_singleton]; [by auto|].
        subst c'. rewrite Hx' in Hy. injection Hy as <-. auto. }
  intros c x Hx. destruct (Hinv c x Hx) as [Hc H']. apply H'. left. by apply each_crtc_in.
Qed.

Lemma mode_fixup_step s s' :
  adjusted_ok D -> kept D s ->
  (forall c o x, as_crtcs s !! c = Some (o, x) -> fine o x /\ (c < mc_num_crtc D)%nat /\ o = mc_crtc D c) ->
  mode_fixup hk D s = inr s' -> in_step s'.
Proof using HT K.
  intros Ha Hk Hf (s1 & H1 & (s2 & H2 & H3)%rbind_inr)%rbind_inr.
  apply (reset_step s s1 Ha Hk Hf) in H1. eapply for_each_step, H3; [|eapply for_each_step, H2; [|done]].
  - intros c [o x] t t' Hx S. cbv beta iota. destruct (negb (st_enable _)); [by intros [= <-]|].
    destruct (negb (mode_changing _)); [by intros [= <-]|].
    destruct (hk_crtc_mode_fixup hk c) as [f|] eqn:Ef; [|by intros [= <-]].
    destruct (f _ _) as [[] m] eqn:E; [|done]. intros [= <-]. apply in_step_set; [done|].
    intros y Hy. assert (y = x) as -> by (unfold new_crtc, get_crtc in *; rewrite Hx in Hy; by injection Hy).
    by eapply (hk_keep_crtc_fixup _ K).
  - intros k [o x] t t' _ S. cbv beta iota. destruct (cnf_crtc x); [|by intros [= <-]].
    destruct (cnf_encoder x); [|by intros [= <-]]. by apply encoder_fixup_step.
Qed.

Lemma check_planes_step s s' : in_step s -> drm_atomic_helper_check_planes hk D s = inr s' -> in_step s'.
Proof using K.
  intros S (s1 & H1 & H2)%rbind_inr. eapply for_each_step, H2; [|eapply for_each_step, H1; [|done]].
  - intros c x t t' _ St. cbv beta iota. destruct (hk_crtc_check hk c) as [f|] eqn:Ef; [|by intros [= <-]].
    destruct (f t) as [r m] eqn:E. destruct (truthy r) eqn:Er; [done|]. apply not_truthy in Er as ->.
    intros [= <-]. apply in_step_set; [done|]. intros y Hy. by eapply (hk_keep_crtc _ K).
  - intros p x t t' _ St. cbv beta zeta.
    assert (Sp : in_step (drm_atomic_helper_plane_changed x t)).
    { assert (Hu : forall c t, in_step t -> in_step (upd_crtc c (fun x => {| x with cf_planes_changed := true |}) t)).
      { intros c t0 S0 c' y. rewrite new_crtc_upd. case_decide; [|apply S0].
        intros (z & Hz & ->)%fmap_Some. by apply (S0 c' z). }
      destruct x as [[] []]; cbn; auto. }
    destruct (hk_plane_check hk p); [by intros [_ ->]%check0_inr|by intros [= <-]].
Qed.
End Fixups.

(** *** The whole check *)

(** Before the fixups. *)
Lemma modeset_kept lk hk D s3 s0 s1 s2 :
  built D s3 -> for_each get_crtc (crtc_changes hk) (each_crtc D) s3 = inr s0 ->
  for_each get_conn (route_connector hk D (state_mask D s3)) (each_conn D) s0 = inr s1 ->
  for_each get_crtc (affected_by lk hk D) (each_crtc D) s1 = inr s2 -> kept D s2.
Proof using.
  intros B3 H0 H1 H2. assert (Hk : kept D s3).
  { intros c x (o & Ho)%new_crtc_Some. rewrite (ur_adjusted _ (proj2 B3) _ _ _ Ho).
    by destruct (wf_crtc _ _ (proj1 B3) _ _ _ Ho) as (_ & -> & _). }
  eapply kept_same in Hk; [|eapply for_each_rel, H0; [apply _|]; intros; by eapply crtc_changes_same].
  eapply kept_same in Hk; [|eapply for_each_rel, H1; [apply _|]; intros; by eapply route_connector_same].
  apply (for_each_inv get_crtc _ (fun _ _ => kept D) (each_crtc D) [] s1 s2 H2 Hk); [done|].
  intros. by eapply affected_by_kept.
Qed.

Lemma check_only_step lk hk D s s' :
  config_ok D -> stable_encoders hk -> hooks_keep hk -> adjusted_ok D -> built D s ->
  drm_atomic_check_only lk hk D s = inr s' -> in_step s'.
Proof using HT L.
  intros C Hst K Ha B H. destruct (check_only_stages lk hk D s s' B H) as (s3 & s5 & B3 & _ & _ & _ & Hsound & H4 & H6).
  destruct (modeset_checked lk hk D C s3 s5 Hst B3 Hsound H4) as (R & _ & _).
  eapply check_planes_step; [done| |exact H6]. clear H6.
  apply modeset_stages in H4 as (s0 & s1 & s2 & H0 & _ & H1 & H2 & H5).
  pose proof (modeset_kept lk hk D s3 s0 s1 s2 B3 H0 H1 H2) as Hk2.
  eapply mode_fixup_step; [done|done|done| |exact H5]. intros c o x Hx.
  destruct (al_crtc _ _ (mode_fixup_alike hk D _ _ H5) _ _ _ Hx) as (y & Hy & [E1 E2 E3 E4 E5]).
  destruct (wf_crtc _ _ (rd_wf _ _ _ R) _ _ _ Hy) as (Hc & -> & _). split_and!; [|done|done].
  pose proof (rd_fine _ _ _ R _ _ _ Hy) as Hf. unfold fine, sound in *. by rewrite E1, E2, E4, E5 in Hf.
Qed.

(** So the configuration a commit leads to is in step again. *)
Lemma commit_step m D s :
  config_ok D -> stable_encoders (cm_hooks m) -> hooks_keep (cm_hooks m) -> adjusted_ok D ->
  checked_commit m D = inr s -> in_step s /\ adjusted_ok (swap D s).
Proof using HT L.
  intros C Hst K Ha (s1 & H1 & H2)%rbind_inr.
  assert (S : in_step s).
  { eapply check_only_step; [done..| |exact H2]. eapply build_built; [done| |exact H1]. apply empty_built. }
  split; [done|]. intros c Hc. cbn. destruct (as_crtcs s !! c) as [[o x]|] eqn:E; [|by apply Ha].
  apply (S c). apply new_crtc_Some. by exists o.
Qed.
End Adjusted.

(** ** What passed *)

Section Passed.
Context (hk : kms_hooks) (D : mode_config).

(** The mode with which the bridges of a CRTC are asked. *)
Definition fixup_mode (x : crtc_full) : drm_display_mode :=
  if mode_changing (cf_st x) then cf_mode x else cf_adjusted_mode x.

Lemma reset_passed s s' c x :
  (c < mc_num_crtc D)%nat -> new_crtc s c = Some x ->
  for_each get_crtc (fun c '(_, x) s =>
    if mode_changing (cf_st x) then inr (set_adjusted c (cf_mode x) s) else inr s) (each_crtc D) s = inr s' ->
  as_conns s' = as_conns s
  /\ new_crtc s' c = Some {| x with cf_adjusted_mode := fixup_mode x |}.
Proof using.
  intros Hc Hx H. set (y := {| x with cf_adjusted_mode := fixup_mode x |}).
  assert (Hy : fixup_mode x = cf_adjusted_mode x -> y = x) by (intros E; unfold y; rewrite E; by destruct x).
  assert (I : as_conns s' = as_conns s /\ (new_crtc s' c = Some x \/ new_crtc s' c = Some y)
              /\ (c ∈ [] ++ each_crtc D -> new_crtc s' c = Some y)).
  { apply (for_each_inv get_crtc _ (fun pre _ t => as_conns t = as_conns s
             /\ (new_crtc t c = Some x \/ new_crtc t c = Some y) /\ (c ∈ pre -> new_crtc t c = Some y))
             (each_crtc D) [] s s' H).
    - split_and!; [done|by left|by intros ?%not_elem_of_nil].
    - intros pre i l t (E & Hor & Hpre) Hn. split_and!; [done|done|]. intros [?|El%list_elem_of_singleton]%elem_of_app; [by auto|subst i].
      unfold new_crtc in Hor. unfold get_crtc in Hn. rewrite Hn in Hor. by destruct Hor.
    - intros pre i l t [o z] t' (E & Hor & Hpre) Hz. cbv beta iota.
      assert (Hz' : new_crtc t i = Some z) by (unfold new_crtc, get_crtc in *; by rewrite Hz).
      destruct (mode_changing (cf_st z)) eqn:Em; intros [= <-].
      + unfold set_adjusted. rewrite new_crtc_upd. case_decide as Ei; [subst i|].
        * assert (Ez : {| z with cf_adjusted_mode := cf_mode z |} = y).
          { rewrite Hz' in Hor. unfold y, fixup_mode. destruct Hor as [[= ->]|[= ->]]; [by rewrite Em|].
            cbn in *. unfold fixup_mode. by rewrite Em. }
          rewrite Hz'. cbn. split_and!; [done|right; by rewrite <- Ez|by rewrite <- Ez].
        * split_and!; [done|done|]. intros [?|?%list_elem_of_singleton]%elem_of_app; [by auto|congruence].
      + split_and!; [done|done|]. intros [?|El%list_elem_of_singleton]%elem_of_app; [by auto|subst i].
        rewrite Hz' in Hor |- *. f_equal. destruct Hor as [[= ->]|[= ->]]; [|done]. symmetry. apply Hy.
        unfold fixup_mode. by rewrite Em. }
  destruct I as (E & _ & Hin). split; [done|]. apply Hin. by apply each_crtc_in.
Qed.

Lemma encoder_fixup_other e c s s' c' :
  c' <> c -> encoder_fixup hk e c s = inr s' -> new_crtc s' c' = new_crtc s c' /\ as_conns s' = as_conns s.
Proof using.
  intros Hne H. pose proof (al_conns _ _ (encoder_fixup_alike hk e c s s' H)) as Hc. split; [|exact Hc]. clear Hc. revert H.
  assert (Hs : forall m t, new_crtc (set_adjusted c m t) c' = new_crtc t c')
    by (intros; unfold set_adjusted; rewrite new_crtc_upd; by rewrite decide_False).
  unfold encoder_fixup. destruct (hk_bridges_check hk e c s) as [r m]. destruct (truthy r); [done|]. cbv zeta.
  rewrite <- (Hs m s). generalize (set_adjusted c m s) as s1. intros s1.
  destruct (hk_encoder_check hk e) as [f|].
  - destruct (f c s1) as [r' m']. destruct (truthy r'); [done|]. intros [= <-]. apply Hs.
  - destruct (hk_encoder_mode_fixup hk e) as [f|]; [|by intros [= <-]].
    destruct (new_crtc s1 c) as [x|]; [|by intros [= <-]]. destruct (f _ _) as [[] m']; [|done]. intros [= <-]. apply Hs.
Qed.

(** What passed the fixups passed the bridges of every route, in the state that the
    reset of the adjusted modes has left. *)
Lemma mode_fixup_passed s s' k o y c e x :
  (forall k' o' y', as_conns s !! k' = Some (o', y') -> cnf_crtc y' = Some c -> k' = k) ->
  mode_fixup hk D s = inr s' -> (k < mc_num_connector D)%nat -> as_conns s !! k = Some (o, y) ->
  cnf_crtc y = Some c -> cnf_encoder y = Some e -> (c < mc_num_crtc D)%nat -> new_crtc s c = Some x ->
  exists t m, new_crtc t c = Some {| x with cf_adjusted_mode := fixup_mode x |} /\ hk_bridges_check hk e c t = (0, m).
Proof using.
  intros Hone (s1 & H1 & (s2 & H2 & _)%rbind_inr)%rbind_inr Hk Hy Ec Ee Hc Hx.
  destruct (reset_passed _ _ _ _ Hc Hx H1) as [Es H1']. clear H1.
  set (z := {| x with cf_adjusted_mode := fixup_mode x |}) in *.
  assert (I : as_conns s2 = as_conns s /\ (k ∉ [] ++ each_conn D -> new_crtc s2 c = Some z)
    /\ (k ∈ [] ++ each_conn D -> exists t m, new_crtc t c = Some z /\ hk_bridges_check hk e c t = (0, m))).
  { apply (for_each_inv get_conn _ (fun pre _ t => as_conns t = as_conns s /\ (k ∉ pre -> new_crtc t c = Some z)
             /\ (k ∈ pre -> exists t m, new_crtc t c = Some z /\ hk_bridges_check hk e c t = (0, m)))
             (each_conn D) [] s1 s2 H2).
    - split_and!; [done|done|by intros ?%not_elem_of_nil].
    - intros pre i l t (E & Hnp & Hp) Hn. split_and!; [done|by intros [? _]%not_elem_of_app; auto|].
      intros [?|El%list_elem_of_singleton]%elem_of_app; [by auto|subst i]. unfold get_conn in Hn. rewrite E in Hn. congruence.
    - intros pre i l t [o' y'] t' (E & Hnp & Hp) Hi. unfold get_conn in Hi. rewrite E in Hi. cbv beta iota.
      destruct (decide (i = k)) as [->|Hne].
      + rewrite Hy in Hi. injection Hi as <- <-. rewrite Ec, Ee. intros Hf.
        pose proof (al_conns _ _ (encoder_fixup_alike hk e c t t' Hf)) as Et.
        split_and!; [congruence|intros [_ Hn]%not_elem_of_app; by destruct Hn; left|]. intros _.
        destruct (decide (k ∈ pre)) as [|Hn]; [by auto|]. specialize (Hnp Hn). clear Hp.
        unfold encoder_fixup in Hf. destruct (hk_bridges_check hk e c t) as [r m] eqn:Eb.
        destruct (truthy r) eqn:Er; [done|]. apply not_truthy in Er as ->. by exists t, m.
      + intros Hf. assert (Ht : new_crtc t' c = new_crtc t c /\ as_conns t' = as_conns t).
        { destruct (cnf_crtc y') as [c'|] eqn:Ec'; [|by injection Hf as <-].
          destruct (cnf_encoder y') as [e'|]; [|by injection Hf as <-]. eapply encoder_fixup_other, Hf.
          intros ->. apply Hne. by eapply Hone. }
        destruct Ht as [-> ->]. split_and!; [done|by intros [? _]%not_elem_of_app; auto|].
        intros [?|?%list_elem_of_singleton]%elem_of_app; [by auto|congruence]. }
  apply I. by apply each_conn_in.
Qed.
End Passed.

(** So did the routes of a checked commit. *)
Lemma commit_passed `{AI : !AtomicInlines} `{L : !AtomicInlinesLaws} m D s k o y c e x :
  config_ok D -> stable_encoders (cm_hooks m) -> checked_commit m D = inr s ->
  as_conns s !! k = Some (o, y) -> cnf_crtc y = Some c -> cnf_encoder y = Some e -> new_crtc s c = Some x ->
  (forall k' o' y', as_conns s !! k' = Some (o', y') -> cnf_crtc y' = Some c -> k' = k) ->
  exists t z a, new_crtc t c = Some z /\ cf_mode z = cf_mode x
  /\ cf_adjusted_mode z = (if mode_changing (cf_st x) then cf_mode x else cf_adjusted_mode (mc_crtc D c))
  /\ hk_bridges_check (cm_hooks m) e c t = (0, a).
Proof.
  intros C Hst (s1 & Hb & H)%rbind_inr Hy Ec Ee Hx Hone.
  assert (B : built D s1) by (eapply build_built; [done|apply empty_built|exact Hb]).
  destruct (check_only_checked _ _ D C s1 s Hst B H) as (R & _ & _).
  destruct (check_only_stages _ _ D s1 s B H) as (s3 & s5 & B3 & _ & _ & _ & _ & H4 & H6).
  apply modeset_stages in H4 as (t0 & t1 & t2 & H0 & _ & H1 & H2 & H5).
  pose proof (modeset_kept _ _ _ _ _ _ _ B3 H0 H1 H2) as Hk.
  pose proof (mode_fixup_alike _ _ _ _ H5) as A5. pose proof (check_planes_alike _ _ _ _ H6) as A6.
  assert (Hco : as_conns s = as_conns t2) by (by rewrite (al_conns _ _ A6), (al_conns _ _ A5)).
  apply new_crtc_Some in Hx as [o1 Hx]. destruct (wf_crtc _ _ (rd_wf _ _ _ R) _ _ _ Hx) as (Hlt & _).
  destruct (wf_conn _ _ (rd_wf _ _ _ R) _ _ _ Hy) as [Hk' _].
  destruct (as_crtcs t2 !! c) as [[o2 w]|] eqn:Ew.
  2: { rewrite (al_no_crtc _ _ A6) in Hx; [done|]. by apply (al_no_crtc _ _ A5). }
  destruct (al_crtc _ _ A5 _ _ _ Ew) as (w5 & Ew5 & [? ? ? ? ?]). destruct (al_crtc _ _ A6 _ _ _ Ew5) as (w6 & Ew6 & [? ? ? ? ?]).
  assert (w6 = x) as -> by congruence. rewrite Hco in Hy. setoid_rewrite Hco in Hone.
  assert (Hw : new_crtc t2 c = Some w) by (apply new_crtc_Some; by eexists).
  destruct (mode_fixup_passed _ D t2 s5 k o y c e w Hone H5 Hk' Hy Ec Ee Hlt Hw) as (t & a & Ht & Ha).
  eexists t, _, a. split_and!; [exact Ht|cbn; congruence| |exact Ha]. cbn. unfold fixup_mode.
  rewrite (Hk c w Hw). assert (E : cf_st x = cf_st w) by congruence. rewrite E. by destruct (mode_changing _); [congruence|].
Qed.

(** *** Drivers that check their planes alike *)

Lemma for_each_agree {X} (get : atomic_state -> nat -> option X) b1 b2 (I : atomic_state -> Prop) l : forall s,
  I s -> (forall i x t, i ∈ l -> I t -> get t i = Some x -> b1 i x t = b2 i x t) ->
  (forall i x t t', I t -> b1 i x t = inr t' -> I t') ->
  for_each get b1 l s = for_each get b2 l s.
Proof.
  induction l as [|i l IH]; intros s Hs H Hi; [done|]. cbn. destruct (get s i) as [x|] eqn:E.
  - rewrite <- (H i x s) by (done || left). destruct (b1 i x s) as [err|t] eqn:Eb; [done|]. cbn.
    apply IH; [by eapply Hi|intros; apply H; by try right|done].
  - apply IH; [done|intros; apply H; by try right|done].
Qed.

Section Agree.
Context `{AI : !AtomicInlines} `{L : !AtomicInlinesLaws} (lk : kms_locks) (hk : kms_hooks) (D : mode_config).
Context (f : nat -> option (atomic_state -> Z)).

#[local] Existing Instance same_wish_preorder.

Definition with_plane_checks : kms_hooks := {| hk with hk_plane_check := f |}.

Definition check_at (h : kms_hooks) (p : nat) (t : atomic_state) : Z :=
  match hk_plane_check h p with Some g => g t | None => 0 end.

(** The states in which the planes of the commit [s] are checked: the core has accepted the
    planes of [s], and the routes are set. *)
Definition planes_checked_in (s t : atomic_state) : Prop :=
  (forall p x, as_planes s !! p = Some x -> hk_plane_core_check hk p s = 0)
  /\ exists s5, routed hk D s5 /\ same_wish D s s5 /\ as_planes t = as_planes s5.

Lemma plane_changed_planes x s : as_planes (drm_atomic_helper_plane_changed x s) = as_planes s.
Proof using. unfold drm_atomic_helper_plane_changed. by destruct x as [[] []]. Qed.

(** Two checks that agree there make no difference. *)
Lemma check_only_agree s :
  config_ok D -> stable_encoders hk -> built D s ->
  (forall t p x, planes_checked_in s t -> as_planes t !! p = Some x -> check_at hk p t = check_at with_plane_checks p t) ->
  drm_atomic_check_only lk hk D s = drm_atomic_check_only lk with_plane_checks D s.
Proof using L.
  intros C Hst B Hag. unfold drm_atomic_check_only.
  change (hk_plane_core_check with_plane_checks) with (hk_plane_core_check hk).
  destruct (for_each get_plane _ _ s) as [err|s1] eqn:H1; [done|]. cbn [rbind].
  apply (for_each_pure _ _ (fun p _ => hk_plane_core_check hk p s = 0)) in H1 as [-> Hp];
    [|by intros p x t _ _ [? ->]%check0_inr].
  destruct (for_each get_crtc _ _ s) as [err|s2] eqn:H2; [done|]. cbn [rbind].
  apply (for_each_pure _ _ (fun _ x => drm_atomic_crtc_check x = 0)) in H2 as [-> Hc];
    [|by intros c x t _ _ [? ->]%check0_inr].
  change (drm_atomic_connector_check with_plane_checks) with (drm_atomic_connector_check hk).
  destruct (for_each get_conn _ _ s) as [err|s3] eqn:H3; [done|]. cbn [rbind].
  assert (Hact : forall c o x, as_crtcs s !! c = Some (o, x) -> sound x).
  { intros c o x Hx. apply (crtc_check_sound o). apply (Hc c); [|done]. apply each_crtc_in.
    by apply (wf_crtc _ _ (proj1 B)) in Hx as [? _]. }
  assert (B3 : built D s3 /\ as_crtcs s3 = as_crtcs s /\ same_wish D s s3).
  { clear Hc Hact Hag. apply (for_each_inv get_conn _ (fun _ _ t => built D t /\ as_crtcs t = as_crtcs s
      /\ same_wish D s t) (each_conn D) [] s s3 H3); [done|done|].
    intros pre k l t [o x] t' (Bt & Et & Vt) Hx Hb. destruct (connector_check_built hk D k o x t t' Bt Hx Hb) as (? & E & V).
    split_and!; [done|congruence|by transitivity t]. }
  destruct B3 as (B3 & E3 & V3). unfold drm_atomic_helper_check.
  change (drm_atomic_helper_check_modeset lk with_plane_checks D s3) with (drm_atomic_helper_check_modeset lk hk D s3).
  destruct (drm_atomic_helper_check_modeset lk hk D s3) as [err|s5] eqn:H5; [done|]. cbn [rbind].
  destruct (modeset_checked lk hk D C s3 s5 Hst B3) as (R5 & _ & V5); [by rewrite E3|done|].
  f_equal. unfold drm_atomic_helper_check_planes.
  rewrite (for_each_agree get_plane _ (fun p x s0 =>
    let s0 := drm_atomic_helper_plane_changed x s0 in
    match hk_plane_check with_plane_checks p with Some g => check0 (g s0) s0 | None => inr s0 end)
    (fun t => as_planes t = as_planes s5)); [done|done| |].
  - intros p x t _ Ht Hx. cbv zeta. pose proof (plane_changed_planes x t) as E.
    set (t' := drm_atomic_helper_plane_changed x t) in *. specialize (Hag t' p x).
    assert (A : check_at hk p t' = check_at with_plane_checks p t').
    { apply Hag; [split|by rewrite E].
      - intros q [o y] Hy. apply (Hp q (o, y)); [|done]. unfold each_plane. rewrite elem_of_seq.
        apply (wf_plane _ _ (proj1 B)) in Hy as [? _]. lia.
      - exists s5. split_and!; [done|by transitivity s3|congruence]. }
    unfold check_at in A. destruct (hk_plane_check hk p), (hk_plane_check with_plane_checks p); rewrite ?A; try done.
    + by rewrite <- A.
  - intros p x t t' Ht. cbv zeta. destruct (hk_plane_check hk p); [intros [_ ->]%check0_inr|intros [= <-]];
      by rewrite plane_changed_planes.
Qed.
End Agree.
