(* ===== verification/Ma35Plane.v ===== *)
(** * Ma35Plane: planes of the MA35 display controller
      (src/drm/nuvoton/ma35_plane.c, ma35_plane.h, ma35_regs.h)

    Handlers run on a register map [D] and on the plane's own state, its
    [fb_base] array.  A handler returns [None] where the C code would
    dereference NULL or use an uninitialised variable.  The atomic state is
    passed as the old and new states of the plane and a lookup of CRTC
    states. *)

From S2P Require Export KernelApi Uapi DrmRect DrmPlaneCheck DrmFramebuffer.

Create HintDb ma35.

(** ** Registers and fields *)

Definition MA35_FRAMEBUFFER_CONFIG : Z := 0x1518.
Definition MA35_FRAMEBUFFER_ADDRESS : Z := 0x1400.
Definition MA35_FRAMEBUFFER_STRIDE : Z := 0x1408.
Definition MA35_FRAMEBUFFER_UPLANAR_ADDRESS : Z := 0x1530.
Definition MA35_FRAMEBUFFER_VPLANAR_ADDRESS : Z := 0x1538.
Definition MA35_FRAMEBUFFER_USTRIDE : Z := 0x1800.
Definition MA35_FRAMEBUFFER_VSTRIDE : Z := 0x1808.
Definition MA35_FRAMEBUFFER_SIZE : Z := 0x1810.
Definition MA35_FRAMEBUFFER_CLEARVALUE : Z := 0x1A18.
Definition MA35_CURSOR_ADDRESS : Z := 0x146C.
Definition MA35_CURSOR_CONFIG : Z := 0x1468.
Definition MA35_CURSOR_LOCATION : Z := 0x1470.
Definition MA35_OVERLAY_CONFIG : Z := 0x1540.
Definition MA35_OVERLAY_STRIDE : Z := 0x1600.
Definition MA35_OVERLAY_USTRIDE : Z := 0x18C0.
Definition MA35_OVERLAY_VSTRIDE : Z := 0x1900.
Definition MA35_OVERLAY_TL : Z := 0x1640.
Definition MA35_OVERLAY_BR : Z := 0x1680.
Definition MA35_OVERLAY_ALPHA_BLEND_CONFIG : Z := 0x1580.
Definition MA35_OVERLAY_CLEAR_VALUE : Z := 0x1940.
Definition MA35_OVERLAY_SIZE : Z := 0x17C0.
Definition MA35_OVERLAY_ADDRESS : Z := 0x15C0.
Definition MA35_OVERLAY_UPLANAR_ADDRESS : Z := 0x1840.
Definition MA35_OVERLAY_VPLANAR_ADDRESS : Z := 0x1880.

Definition MA35_ALPHA_BLEND_DISABLE : Z := BIT 1.
Definition MA35_ALPHA_BLEND_ONE : Z := 1.
Definition MA35_ALPHA_BLEND_INVERSED : Z := 3.
Definition MA35_SRC_BLENDING_MODE : Z := GENMASK 7 5.
Definition MA35_DST_BLENDING_MODE : Z := GENMASK 14 12.
Definition MA35_BLEND_MODE_SRC_OVER : Z :=
  FIELD_PREP MA35_SRC_BLENDING_MODE MA35_ALPHA_BLEND_ONE
  .| FIELD_PREP MA35_DST_BLENDING_MODE MA35_ALPHA_BLEND_INVERSED.
Definition MA35_SRC_ALPHA_FACTOR_EN : Z := BIT 8.

Definition MA35_CURSOR_SIZE : Z := 32.
Definition MA35_CURSOR_FORMAT_DISABLE : Z := 0.
Definition MA35_CURSOR_FORMAT_A8R8G8B8 : Z := 2.
Definition MA35_CURSOR_HOTSPOT_X_MASK : Z := GENMASK 20 16.
Definition MA35_CURSOR_HOTSPOT_Y_MASK : Z := GENMASK 12 8.
Definition MA35_CURSOR_FORMAT_MASK : Z := GENMASK 1 0.
Definition MA35_CURSOR_X_MASK : Z := GENMASK 14 0.
Definition MA35_CURSOR_Y_MASK : Z := GENMASK 30 16.
Definition MA35_PRIMARY_ENABLE : Z := BIT 0.
Definition MA35_PRIMARY_GAMMA : Z := BIT 2.
Definition MA35_PRIMARY_RESET : Z := BIT 4.
Definition MA35_PRIMARY_FORMAT_MASK : Z := GENMASK 31 26.
Definition MA35_OVERLAY_ENABLE : Z := BIT 24.
Definition MA35_OVERLAY_FORMAT_MASK : Z := GENMASK 21 16.
Definition MA35_LAYER_FB_HEIGHT : Z := GENMASK 29 15.
Definition MA35_LAYER_FB_WIDTH : Z := GENMASK 14 0.
Definition MA35_OVERLAY_POSITION_Y_MASK : Z := MA35_LAYER_FB_HEIGHT.
Definition MA35_OVERLAY_POSITION_X_MASK : Z := MA35_LAYER_FB_WIDTH.

#[export] Hint Unfold MA35_SRC_BLENDING_MODE MA35_DST_BLENDING_MODE
  MA35_CURSOR_HOTSPOT_X_MASK MA35_CURSOR_HOTSPOT_Y_MASK MA35_CURSOR_FORMAT_MASK
  MA35_CURSOR_X_MASK MA35_CURSOR_Y_MASK MA35_PRIMARY_ENABLE MA35_PRIMARY_GAMMA
  MA35_PRIMARY_RESET MA35_PRIMARY_FORMAT_MASK MA35_OVERLAY_ENABLE
  MA35_OVERLAY_FORMAT_MASK MA35_OVERLAY_POSITION_X_MASK MA35_OVERLAY_POSITION_Y_MASK
  MA35_LAYER_FB_HEIGHT MA35_LAYER_FB_WIDTH MA35_CURSOR_FORMAT_A8R8G8B8
  MA35_CURSOR_FORMAT_DISABLE MA35_SRC_ALPHA_FACTOR_EN
  MA35_ALPHA_BLEND_DISABLE : ma35.

(** ** Formats *)

(** [enum ma35_format_enum], by value. *)
Definition MA35_FORMAT_X4R4G4B4 : Z := 0.
Definition MA35_FORMAT_A4R4G4B4 : Z := 1.
Definition MA35_FORMAT_X1R5G5B5 : Z := 2.
Definition MA35_FORMAT_A1R5G5B5 : Z := 3.
Definition MA35_FORMAT_R5G6B5 : Z := 4.
Definition MA35_FORMAT_X8R8G8B8 : Z := 5.
Definition MA35_FORMAT_A8R8G8B8 : Z := 6.
Definition MA35_FORMAT_YUY2 : Z := 7.
Definition MA35_FORMAT_UYVY : Z := 8.
Definition MA35_FORMAT_YV12 : Z := 11.
Definition MA35_FORMAT_NV12 : Z := 13.
Definition MA35_FORMAT_NV16 : Z := 14.
Definition MA35_FORMAT_A2R10G10B10 : Z := 18.
Definition MA35_FORMAT_P010 : Z := 23.

Definition ma35_layer_formats : list fourcc := [
  DRM_FORMAT_ARGB8888; DRM_FORMAT_XRGB8888; DRM_FORMAT_ARGB2101010;
  DRM_FORMAT_XRGB4444; DRM_FORMAT_ARGB4444; DRM_FORMAT_XRGB1555;
  DRM_FORMAT_ARGB1555; DRM_FORMAT_RGB565;
  DRM_FORMAT_YUYV; DRM_FORMAT_UYVY; DRM_FORMAT_YVU420; DRM_FORMAT_NV12;
  DRM_FORMAT_NV16; DRM_FORMAT_P010].

Definition ma35_cursor_formats : list fourcc := [DRM_FORMAT_XRGB8888].

(** [Some format] is a return of 0 with the code stored; [None] is -EINVAL,
    the pointed-to variable left as it was. *)
Definition ma35_layer_format_validate (f : fourcc) : option Z :=
  match f with
  | DRM_FORMAT_XRGB4444 => Some MA35_FORMAT_X4R4G4B4
  | DRM_FORMAT_ARGB4444 => Some MA35_FORMAT_A4R4G4B4
  | DRM_FORMAT_XRGB1555 => Some MA35_FORMAT_X1R5G5B5
  | DRM_FORMAT_ARGB1555 => Some MA35_FORMAT_A1R5G5B5
  | DRM_FORMAT_RGB565 => Some MA35_FORMAT_R5G6B5
  | DRM_FORMAT_XRGB8888 => Some MA35_FORMAT_X8R8G8B8
  | DRM_FORMAT_ARGB8888 => Some MA35_FORMAT_A8R8G8B8
  | DRM_FORMAT_ARGB2101010 => Some MA35_FORMAT_A2R10G10B10
  | DRM_FORMAT_YUYV => Some MA35_FORMAT_YUY2
  | DRM_FORMAT_UYVY => Some MA35_FORMAT_UYVY
  | DRM_FORMAT_YVU420 => Some MA35_FORMAT_YV12
  | DRM_FORMAT_NV12 => Some MA35_FORMAT_NV12
  | DRM_FORMAT_NV16 => Some MA35_FORMAT_NV16
  | DRM_FORMAT_P010 => Some MA35_FORMAT_P010
  | _ => None
  end.

(** [ma35_plane_properties], indexed by plane type. *)
Record ma35_plane_property := mkprop { fb_addr : list Z; fb_stride : list Z; alpha : bool }.

Definition ma35_plane_properties (t : drm_plane_type) : ma35_plane_property :=
  match t with
  | DRM_PLANE_TYPE_OVERLAY =>
      mkprop [MA35_OVERLAY_ADDRESS; MA35_OVERLAY_UPLANAR_ADDRESS; MA35_OVERLAY_VPLANAR_ADDRESS]
             [MA35_OVERLAY_STRIDE; MA35_OVERLAY_USTRIDE; MA35_OVERLAY_VSTRIDE] true
  | DRM_PLANE_TYPE_PRIMARY =>
      mkprop [MA35_FRAMEBUFFER_ADDRESS; MA35_FRAMEBUFFER_UPLANAR_ADDRESS;
              MA35_FRAMEBUFFER_VPLANAR_ADDRESS]
             [MA35_FRAMEBUFFER_STRIDE; MA35_FRAMEBUFFER_USTRIDE; MA35_FRAMEBUFFER_VSTRIDE] false
  | DRM_PLANE_TYPE_CURSOR => mkprop [0; 0; 0] [0; 0; 0] false
  end.

(** ** Checks *)

Section Check.
Context `{!RectOps} `{!PlaneRectOps}.
(** [drm_atomic_get_crtc_state]: a state or an error pointer. *)
Variable get_crtc_state : nat -> drm_crtc_state + Z.

Definition ma35_plane_atomic_check (ptype : drm_plane_type) (new_state : drm_plane_state)
  : option (Z * drm_plane_state) :=
  match ps_crtc new_state with
  | None => Some (0, new_state)
  | Some crtc =>
      match get_crtc_state crtc with
      | inr e => Some (e, new_state)
      | inl crtc_state =>
          if (crtc_x new_state <? 0) || (crtc_y new_state <? 0)
          then Some (- EINVAL, new_state)
          else
            match ps_fb new_state with
            | None => None
            | Some fb =>
                match ma35_layer_format_validate (format (fb_format fb)) with
                | None => Some (- EINVAL, new_state)
                | Some _ =>
                    let can_position := negb (bool_decide (ptype = DRM_PLANE_TYPE_PRIMARY)) in
                    Some (drm_atomic_helper_check_plane_state new_state crtc_state
                            DRM_PLANE_NO_SCALING DRM_PLANE_NO_SCALING can_position true)
                end
            end
      end
  end.

Definition ma35_cursor_plane_atomic_check (new_state : drm_plane_state)
  : Z * drm_plane_state :=
  match ps_fb new_state with
  | None => (0, new_state)
  | Some fb =>
      match ps_crtc new_state with
      | None => (- EINVAL, new_state)
      | Some crtc =>
          match get_crtc_state crtc with
          | inr e => (e, new_state)
          | inl crtc_state =>
              if negb (bool_decide (format (fb_format fb) = DRM_FORMAT_XRGB8888))
              then (- EINVAL, new_state)
              else if negb (crtc_w new_state =? MA35_CURSOR_SIZE)
                      || negb (crtc_h new_state =? MA35_CURSOR_SIZE)
              then (- EINVAL, new_state)
              else if (hotspot_x new_state >=? 32) || (hotspot_x new_state <? 0)
                      || (hotspot_y new_state >=? 32) || (hotspot_y new_state <? 0)
              then (- EINVAL, new_state)
              else drm_atomic_helper_check_plane_state new_state crtc_state
                     DRM_PLANE_NO_SCALING DRM_PLANE_NO_SCALING true true
          end
      end
  end.

Definition ma35_cursor_plane_atomic_async_check (new_state : drm_plane_state) (flip : bool)
  : Z * drm_plane_state := ma35_cursor_plane_atomic_check new_state.

End Check.

(** ** Updates *)

Section Update.
Context {D : Type} `{!RegmapOps D}.

(** [struct ma35_layer]; the helper that computes addresses fills [fb_base]. *)
Record ma35_layer := mklayer { layer_type : drm_plane_type; fb_base : list Z }.

(** [x] and [y] are [int], [w] and [h] unsigned: the sums are converted to
    [int]. *)
Definition ma35_overlay_position_update (d : D) (x y w h : Z) : D :=
  let right := s32 (u32 (x + w)) in
  let bottom := s32 (u32 (y + h)) in
  let x := if x <? 0 then 0 else x in
  let y := if y <? 0 then 0 else y in
  let right := if right <? 0 then 0 else right in
  let bottom := if bottom <? 0 then 0 else bottom in
  let reg := FIELD_PREP MA35_OVERLAY_POSITION_X_MASK x
             .| FIELD_PREP MA35_OVERLAY_POSITION_Y_MASK y in
  let d := regmap_write d MA35_OVERLAY_TL reg in
  let reg := FIELD_PREP MA35_OVERLAY_POSITION_X_MASK right
             .| FIELD_PREP MA35_OVERLAY_POSITION_Y_MASK bottom in
  regmap_write d MA35_OVERLAY_BR reg.

(** The primary branch of the update. *)
Definition ma35_primary_update (d : D) (fb : drm_framebuffer) (format : Z) : D :=
  let reg := FIELD_PREP MA35_PRIMARY_FORMAT_MASK format
             .| MA35_PRIMARY_RESET .| MA35_PRIMARY_ENABLE in
  let d := regmap_write d MA35_FRAMEBUFFER_CONFIG reg in
  let reg := FIELD_PREP MA35_LAYER_FB_HEIGHT (fb_height fb)
             .| FIELD_PREP MA35_LAYER_FB_WIDTH (fb_width fb) in
  let d := regmap_write d MA35_FRAMEBUFFER_SIZE reg in
  regmap_write d MA35_FRAMEBUFFER_CLEARVALUE 0.

(** The overlay branch.  [reg] still holds the size word when the blend mode
    selects none of the two assignments. *)
Definition ma35_overlay_update (d : D) (fb : drm_framebuffer) (format : Z)
    (new_state : drm_plane_state) : D :=
  let reg := FIELD_PREP MA35_OVERLAY_FORMAT_MASK format .| MA35_OVERLAY_ENABLE in
  let d := regmap_write d MA35_OVERLAY_CONFIG reg in
  let reg := FIELD_PREP MA35_LAYER_FB_HEIGHT (fb_height fb)
             .| FIELD_PREP MA35_LAYER_FB_WIDTH (fb_width fb) in
  let d := regmap_write d MA35_OVERLAY_SIZE reg in
  let d := ma35_overlay_position_update d (crtc_x new_state) (crtc_y new_state)
             (crtc_w new_state) (crtc_h new_state) in
  let d :=
    if bool_decide (Uapi.format (fb_format fb) = DRM_FORMAT_ARGB8888) then
      let reg :=
        if truthy (pixel_blend_mode new_state
                   .& (DRM_MODE_BLEND_PREMULTI .| DRM_MODE_BLEND_COVERAGE))
        then MA35_BLEND_MODE_SRC_OVER else reg in
      let reg :=
        if truthy (pixel_blend_mode new_state .& DRM_MODE_BLEND_COVERAGE)
        then reg .| MA35_SRC_ALPHA_FACTOR_EN else reg in
      regmap_write d MA35_OVERLAY_ALPHA_BLEND_CONFIG reg
    else
      regmap_update_bits d MA35_OVERLAY_ALPHA_BLEND_CONFIG
        MA35_ALPHA_BLEND_DISABLE MA35_ALPHA_BLEND_DISABLE in
  regmap_write d MA35_OVERLAY_CLEAR_VALUE 0.

(** The address loop, over the remaining planes. *)
Fixpoint ma35_write_planes (t : drm_plane_type) (fb : drm_framebuffer)
    (st : drm_plane_state) (planes : list Z) (base : list Z) (d : D) : list Z * D :=
  match planes with
  | [] => (base, d)
  | i :: planes =>
      let addr := drm_fb_dma_get_gem_addr fb st i in
      let base := <[Z.to_nat i := addr]> base in
      let d := regmap_write d (aget (fb_addr (ma35_plane_properties t)) i) addr in
      let d := regmap_write d (aget (fb_stride (ma35_plane_properties t)) i)
                 (aget (fb_pitches fb) i) in
      ma35_write_planes t fb st planes base d
  end.

Definition ma35_plane_atomic_update (layer : ma35_layer) (d : D)
    (new_state : drm_plane_state) : option (ma35_layer * D) :=
  match ps_fb new_state with
  | None => None
  | Some fb =>
      match ma35_layer_format_validate (format (fb_format fb)) with
      | None => None
      | Some format =>
          let d :=
            match layer_type layer with
            | DRM_PLANE_TYPE_PRIMARY => ma35_primary_update d fb format
            | DRM_PLANE_TYPE_OVERLAY => ma35_overlay_update d fb format new_state
            | DRM_PLANE_TYPE_CURSOR => d
            end in
          let '(base, d) := ma35_write_planes (layer_type layer) fb new_state
                              (seqZ 0 (num_planes (fb_format fb))) (fb_base layer) d in
          Some ({| layer with fb_base := base |}, d)
      end
  end.

Definition ma35_cursor_position_update (d : D) (x y : Z) : D :=
  let x := if x <? 0 then 0 else x in
  let y := if y <? 0 then 0 else y in
  regmap_write d MA35_CURSOR_LOCATION
    (FIELD_PREP MA35_CURSOR_X_MASK x .| FIELD_PREP MA35_CURSOR_Y_MASK y).

(** Comparison of framebuffer pointers. *)
Definition fb_ptr (fb : option drm_framebuffer) : option Z := fb_id <$> fb.

(** [if (!old_fb || old_fb != new_fb)]: the address of [new_fb] is computed,
    an oops when it is NULL. *)
Definition ma35_cursor_set_fb (layer : ma35_layer) (d : D)
    (old_fb new_fb : option drm_framebuffer) (new_state : drm_plane_state)
  : option (ma35_layer * D) :=
  if bool_decide (old_fb = None) || negb (bool_decide (fb_ptr old_fb = fb_ptr new_fb)) then
    match new_fb with
    | None => None
    | Some fb =>
        let addr := drm_fb_dma_get_gem_addr fb new_state 0 in
        let d := regmap_write d MA35_CURSOR_ADDRESS addr in
        let d := regmap_update_bits d MA35_CURSOR_CONFIG
                   MA35_CURSOR_FORMAT_MASK MA35_CURSOR_FORMAT_A8R8G8B8 in
        Some ({| layer with fb_base := <[0%nat := addr]> (fb_base layer) |}, d)
    end
  else Some (layer, d).

Definition cursor_hotspot_reg (st : drm_plane_state) : Z :=
  MA35_CURSOR_FORMAT_A8R8G8B8
  .| FIELD_PREP MA35_CURSOR_HOTSPOT_X_MASK (hotspot_x st)
  .| FIELD_PREP MA35_CURSOR_HOTSPOT_Y_MASK (hotspot_y st).

Definition hotspot_changed (old_state new_state : drm_plane_state) : bool :=
  (negb (hotspot_x old_state =? hotspot_x new_state)
   || negb (hotspot_y old_state =? hotspot_y new_state))%bool.

Definition ma35_cursor_plane_atomic_update (layer : ma35_layer) (d : D)
    (old_state new_state : drm_plane_state) : option (ma35_layer * D) :=
  if negb (visible new_state) then
    Some (layer, regmap_update_bits d MA35_CURSOR_CONFIG
                   MA35_CURSOR_FORMAT_MASK MA35_CURSOR_FORMAT_DISABLE)
  else
    let d := ma35_cursor_position_update d (crtc_x new_state) (crtc_y new_state) in
    match ma35_cursor_set_fb layer d (ps_fb old_state) (ps_fb new_state) new_state with
    | None => None
    | Some (layer, d) =>
        if hotspot_changed old_state new_state
        then Some (layer, regmap_write d MA35_CURSOR_CONFIG (cursor_hotspot_reg new_state))
        else Some (layer, d)
    end.

(** [old_state] is the plane's current state, updated in place; the local
    framebuffer pointers are swapped, the states' are not. *)
Definition ma35_cursor_plane_atomic_async_update (layer : ma35_layer) (d : D)
    (old_state new_state : drm_plane_state) : option (drm_plane_state * ma35_layer * D) :=
  let old_fb := ps_fb old_state in
  let new_fb := ps_fb new_state in
  let old_state := {| old_state with
    crtc_x := crtc_x new_state; crtc_y := crtc_y new_state;
    crtc_h := crtc_h new_state; crtc_w := crtc_w new_state;
    src_x := src_x new_state; src_y := src_y new_state;
    src_h := src_h new_state; src_w := src_w new_state |} in
  let '(old_fb, new_fb) := (new_fb, old_fb) in
  if negb (visible new_state) then
    Some (old_state, layer, regmap_update_bits d MA35_CURSOR_CONFIG
                              MA35_CURSOR_FORMAT_MASK MA35_CURSOR_FORMAT_DISABLE)
  else
    let d := ma35_cursor_position_update d (crtc_x new_state) (crtc_y new_state) in
    match ma35_cursor_set_fb layer d old_fb new_fb new_state with
    | None => None
    | Some (layer, d) =>
        if hotspot_changed old_state new_state then
          let d := regmap_write d MA35_CURSOR_CONFIG (cursor_hotspot_reg new_state) in
          Some ({| old_state with hotspot_x := hotspot_x new_state;
                                  hotspot_y := hotspot_y new_state |}, layer, d)
        else Some (old_state, layer, d)
    end.

Definition ma35_plane_atomic_disable (d : D) : D :=
  regmap_update_bits d MA35_FRAMEBUFFER_CONFIG MA35_PRIMARY_ENABLE 0.

Definition ma35_cursor_plane_atomic_disable (d : D) : D :=
  regmap_update_bits d MA35_CURSOR_CONFIG MA35_CURSOR_FORMAT_MASK MA35_CURSOR_FORMAT_DISABLE.

End Update.

(** ** Properties of the plane object *)

(** The two hotspot properties of a plane, by their ids ([None] when not
    created). *)
Record hotspot_props := mkhp { hotspot_x_property : option Z; hotspot_y_property : option Z }.

(** The value is a [u64]; the fields are 32-bit. *)
Definition ma35_plane_set_property (p : hotspot_props) (state : drm_plane_state)
    (property val : Z) : Z * drm_plane_state :=
  if bool_decide (Some property = hotspot_x_property p)
  then (0, {| state with hotspot_x := s32 val |})
  else if bool_decide (Some property = hotspot_y_property p)
  then (0, {| state with hotspot_y := s32 val |})
  else (- EINVAL, state).

Definition ma35_plane_get_property (p : hotspot_props) (state : drm_plane_state)
    (property : Z) : Z + Z :=
  if bool_decide (Some property = hotspot_x_property p) then inl (u64 (hotspot_x state))
  else if bool_decide (Some property = hotspot_y_property p) then inl (u64 (hotspot_y state))
  else inr (- EINVAL).

(** ** Facts *)

Lemma format_validate_in f :
  is_Some (ma35_layer_format_validate f) <-> f ∈ ma35_layer_formats.
Proof.
  split.
  - intros [c Hc]. apply (bool_decide_unpack _). destruct f; first [discriminate Hc | vm_compute; exact I].
  - intros Hf. unfold ma35_layer_formats in Hf. rewrite !elem_of_cons, elem_of_nil in Hf.
    by repeat destruct Hf as [->|Hf].
Qed.

Lemma format_validate_range f c : ma35_layer_format_validate f = Some c -> 0 <= c < 2 ^ 6.
Proof. destruct f; cbn; intros [= <-]; done. Qed.

Lemma format_validate_inj f g c :
  ma35_layer_format_validate f = Some c -> ma35_layer_format_validate g = Some c -> f = g.
Proof.
  intros Hf Hg.
  assert (Hin : f ∈ ma35_layer_formats) by (apply format_validate_in; by eexists).
  assert (Hin' : g ∈ ma35_layer_formats) by (apply format_validate_in; by eexists).
  unfold ma35_layer_formats in *. rewrite !elem_of_cons, elem_of_nil in Hin, Hin'.
  repeat destruct Hin as [->|Hin]; try done; cbn in Hf; injection Hf as <-;
    repeat destruct Hin' as [->|Hin']; done.
Qed.

Section UpdateFacts.
Context {D : Type} `{Ho : !RegmapOps D} `{Hl : !RegmapLaws D}.

Definition plane_regs (t : drm_plane_type) (i : Z) : Z * Z :=
  (aget (fb_addr (ma35_plane_properties t)) i, aget (fb_stride (ma35_plane_properties t)) i).

(** The address and stride registers of the three colour planes are six
    different registers. *)
Lemma plane_regs_distinct t i j :
  t <> DRM_PLANE_TYPE_CURSOR -> 0 <= i < 3 -> 0 <= j < 3 ->
  fst (plane_regs t i) <> snd (plane_regs t j)
  /\ (i <> j -> fst (plane_regs t i) <> fst (plane_regs t j)
               /\ snd (plane_regs t i) <> snd (plane_regs t j)).
Proof.
  intros Ht Hi Hj.
  assert (i = 0 \/ i = 1 \/ i = 2) as [->|[->| ->]] by lia;
    assert (j = 0 \/ j = 1 \/ j = 2) as [->|[->| ->]] by lia;
    destruct t; try done; (split; [by vm_compute|]); intros Hne; try done; by vm_compute.
Qed.

Lemma write_planes_other t fb st l : forall base (d : D) r,
  (forall i, i ∈ l -> fst (plane_regs t i) <> r /\ snd (plane_regs t i) <> r) ->
  regmap_read (snd (ma35_write_planes t fb st l base d)) r = regmap_read d r.
Proof.
  induction l as [|i l IH]; intros base d r Hr; cbn [ma35_write_planes]; [done|].
  rewrite IH by (intros j Hj; apply Hr; by right).
  destruct (Hr i ltac:(by left)) as [H1 H2].
  rewrite regmap_read_write_ne by exact H2. by rewrite regmap_read_write_ne by exact H1.
Qed.

Lemma write_planes_base_len t fb st l : forall base (d : D),
  length (fst (ma35_write_planes t fb st l base d)) = length base.
Proof.
  induction l as [|i l IH]; intros base d; cbn [ma35_write_planes]; [done|].
  by rewrite IH, length_insert.
Qed.

Lemma write_planes_base_other t fb st l : forall base (d : D) k,
  (forall i, i ∈ l -> Z.to_nat i <> k) ->
  fst (ma35_write_planes t fb st l base d) !! k = base !! k.
Proof.
  induction l as [|i l IH]; intros base d k Hk; cbn [ma35_write_planes]; [done|].
  rewrite IH by (intros j Hj; apply Hk; by right).
  rewrite list_lookup_insert_ne; [done|]. apply Hk. by left.
Qed.

Lemma write_planes_in t fb st l : forall base (d : D) i,
  t <> DRM_PLANE_TYPE_CURSOR -> NoDup l -> Forall (fun i => 0 <= i < 3) l ->
  length base = 3%nat -> i ∈ l ->
  let r := ma35_write_planes t fb st l base d in
  regmap_read (snd r) (fst (plane_regs t i)) = u32 (drm_fb_dma_get_gem_addr fb st i)
  /\ regmap_read (snd r) (snd (plane_regs t i)) = u32 (aget (fb_pitches fb) i)
  /\ fst r !! Z.to_nat i = Some (drm_fb_dma_get_gem_addr fb st i).
Proof.
  induction l as [|j l IH]; intros base d i Ht Hnd Hl3 Hlen Hi; [by apply elem_of_nil in Hi|].
  apply NoDup_cons in Hnd as [Hnj Hnd]. apply Forall_cons in Hl3 as [Hj Hl3].
  rewrite Forall_forall in Hl3. cbn [ma35_write_planes]. cbv zeta.
  apply elem_of_cons in Hi as [->|Hi].
  - rewrite !write_planes_other; cycle 1.
    + intros k Hk. destruct (plane_regs_distinct t k j Ht (Hl3 _ Hk) Hj) as [H1 H2].
      split; [exact H1|]. apply H2. by intros ->.
    + intros k Hk. destruct (plane_regs_distinct t k j Ht (Hl3 _ Hk) Hj) as [_ H2].
      destruct (plane_regs_distinct t j k Ht Hj (Hl3 _ Hk)) as [H1 _].
      split; [apply H2; by intros ->|by apply not_eq_sym].
    + destruct (plane_regs_distinct t j j Ht Hj Hj) as [H1 _]. unfold plane_regs in *; cbn in H1 |- *.
      rewrite regmap_read_write_ne by (by apply not_eq_sym). rewrite !regmap_read_write.
      split; [done|]. split; [done|].
      rewrite write_planes_base_other.
      * apply list_lookup_insert_eq. lia.
      * intros k Hk. specialize (Hl3 _ Hk). assert (k <> j) by (by intros ->). lia.
  - apply IH; [done|done|by rewrite Forall_forall| |done]. by rewrite length_insert.
Qed.

Lemma seqZ_planes n : n <= 3 -> NoDup (seqZ 0 n) /\ Forall (fun i => 0 <= i < 3) (seqZ 0 n).
Proof.
  intros Hn. split; [apply NoDup_seqZ|]. rewrite Forall_forall. intros i Hi.
  apply elem_of_seqZ in Hi. lia.
Qed.

(** Registers outside the address tables keep what the branches wrote. *)
Definition off_planes (t : drm_plane_type) (r : Z) : Prop :=
  r ∉ fb_addr (ma35_plane_properties t) ++ fb_stride (ma35_plane_properties t).

#[local] Instance off_planes_dec t r : Decision (off_planes t r).
Proof. unfold off_planes. apply _. Defined.

Lemma write_planes_off t fb st n base (d : D) r :
  n <= 3 -> off_planes t r ->
  regmap_read (snd (ma35_write_planes t fb st (seqZ 0 n) base d)) r = regmap_read d r.
Proof.
  intros Hn Hr. apply write_planes_other. intros i Hi. apply elem_of_seqZ in Hi.
  unfold off_planes in Hr. unfold plane_regs.
  assert (i = 0 \/ i = 1 \/ i = 2) as [->|[->| ->]] by lia;
    destruct t; cbn in *; split; intros <-; apply Hr;
      rewrite !elem_of_cons; tauto.
Qed.

End UpdateFacts.

(** ** Main theorems *)

(** The formats the MA35 planes advertise are exactly those the driver can
    program: [ma35_layer_format_validate] succeeds on them and on nothing else,
    gives each its own code, and every code fits the six-bit format fields;
    each is in the format table with one to three colour planes, so the
    three-entry register tables are never overrun. *)
Theorem ma35_formats_programmable :
  (forall f, is_Some (ma35_layer_format_validate f) <-> f ∈ ma35_layer_formats)
  /\ (forall f g c, ma35_layer_format_validate f = Some c ->
                    ma35_layer_format_validate g = Some c -> f = g)
  /\ (forall f c, ma35_layer_format_validate f = Some c ->
       FIELD_GET MA35_PRIMARY_FORMAT_MASK (FIELD_PREP MA35_PRIMARY_FORMAT_MASK c) = c
       /\ FIELD_GET MA35_OVERLAY_FORMAT_MASK (FIELD_PREP MA35_OVERLAY_FORMAT_MASK c) = c)
  /\ (forall f, f ∈ ma35_layer_formats ++ ma35_cursor_formats ->
       exists i, __drm_format_info f = Some i /\ 1 <= num_planes i <= 3).
Proof.
  split; [apply format_validate_in|]. split; [apply format_validate_inj|]. split.
  - intros f c Hc. apply format_validate_range in Hc. autounfold with ma35.
    split; apply FIELD_GET_PREP; lia.
  - intros f Hf.
    assert (Hs : exists i, __drm_format_info f = Some i).
    { unfold ma35_layer_formats, ma35_cursor_formats in Hf. cbn [app] in Hf.
      rewrite !elem_of_cons, elem_of_nil in Hf.
      repeat destruct Hf as [->|Hf]; try done; eexists; vm_compute; reflexivity. }
    destruct Hs as [i Hi]. exists i. split; [done|].
    by destruct (fmt_wf_subsampling i (format_info_wf f i Hi)).
Qed.

Section CheckTheorems.
Context `{!RectOps} `{!RectLaws} `{!PlaneRectOps} `{!PlaneRectLaws}.

(** [ma35_plane_atomic_check] and [ma35_cursor_plane_atomic_check] in
    full, for an unrotated plane on a CRTC whose state is available. Primary
    and overlay: -EINVAL for a negative position, then for a format without a
    hardware code; cursor: -EINVAL unless XRGB8888, 32x32 and a hotspot inside
    the image. Then -ERANGE unless unscaled; otherwise success, visible iff
    the plane meets the display, the destination clipped to it - except that a
    visible primary plane that does not cover the display is refused. *)
Theorem ma35_plane_checks_exact get t s crtc cs fb :
  ps_crtc s = Some crtc -> get crtc = inl cs -> ps_fb s = Some fb ->
  dest_ok s -> source_ok s -> rotation s = DRM_MODE_ROTATE_0 -> mode_typed (mode cs) ->
  let common pos (r : Z * drm_plane_state) :=
    let '(ret, s') := r in
    let '(vis, i) := drm_rect_intersect (dest_of s) (crtc_rect cs) in
    if negb (one_to_one s) then ret = - ERANGE
    else visible s' = vis
         /\ ret = (if vis && negb pos && negb (bool_decide (i = crtc_rect cs))
                   then - EINVAL else 0)
         /\ (vis = true -> ps_dst s' = i /\ ps_src s' = src_window (src_of s) (dest_of s) i) in
  (match ma35_plane_atomic_check get t s with
   | None => False
   | Some r =>
       if (crtc_x s <? 0) || (crtc_y s <? 0)
          || bool_decide (format (fb_format fb) ∉ ma35_layer_formats)
       then r = (- EINVAL, s)
       else common (negb (bool_decide (t = DRM_PLANE_TYPE_PRIMARY))) r
   end)
  /\ (if negb (bool_decide (format (fb_format fb) = DRM_FORMAT_XRGB8888))
         || negb ((crtc_w s =? 32) && (crtc_h s =? 32))
         || negb ((0 <=? hotspot_x s) && (hotspot_x s <? 32)
                  && (0 <=? hotspot_y s) && (hotspot_y s <? 32))
      then ma35_cursor_plane_atomic_check get s = (- EINVAL, s)
      else common true (ma35_cursor_plane_atomic_check get s)).
Proof.
  intros Hc Hg Hfb Hd Hs Hr Hm common.
  assert (Hcom : forall pos, common pos (drm_atomic_helper_check_plane_state s cs
                   DRM_PLANE_NO_SCALING DRM_PLANE_NO_SCALING pos true)).
  { intros pos. pose proof (check_plane_state_unscaled s cs pos true fb crtc Hfb Hc Hd Hs Hr Hm) as Hk.
    subst common. cbv beta.
    destruct (drm_atomic_helper_check_plane_state _ _ _ _ _ _) as [ret s'].
    rewrite andb_false_r in Hk. exact Hk. }
  clearbody common. split.
  - unfold ma35_plane_atomic_check. rewrite Hc, Hg, Hfb.
    destruct (_ || (crtc_y s <? 0))%bool; [done|]. cbn [orb].
    pose proof (format_validate_in (format (fb_format fb))) as Hin.
    destruct (ma35_layer_format_validate (format (fb_format fb))) as [c|].
    + rewrite bool_decide_eq_false_2 by (intros Hn; apply Hn, Hin; by eexists). apply Hcom.
    + rewrite bool_decide_eq_true_2; [done|]. intros Hi. apply Hin in Hi. by destruct Hi.
  - unfold ma35_cursor_plane_atomic_check. rewrite Hfb, Hc, Hg. unfold MA35_CURSOR_SIZE.
    destruct (bool_decide (format (fb_format fb) = DRM_FORMAT_XRGB8888)); cbn; [|done].
    rewrite <- (negb_andb (crtc_w s =? 32) (crtc_h s =? 32)).
    destruct ((crtc_w s =? 32) && (crtc_h s =? 32))%bool; cbn; [|done].
    replace ((hotspot_x s >=? 32) || (hotspot_x s <? 0) || (hotspot_y s >=? 32)
             || (hotspot_y s <? 0))%bool
      with (negb ((0 <=? hotspot_x s) && (hotspot_x s <? 32)
                  && (0 <=? hotspot_y s) && (hotspot_y s <? 32)))%bool.
    + destruct (negb _); [done|]. apply Hcom.
    + apply eq_true_iff_eq. rewrite negb_true_iff, !orb_true_iff, !andb_false_iff,
        !Z.ltb_lt, !Z.geb_le, !Z.ltb_ge, !Z.leb_gt. lia.
Qed.
End CheckTheorems.

Section UpdateTheorems.
Context {D : Type} `{Ho : !RegmapOps D} `{Hl : !RegmapLaws D}.

(** Every colour plane has its address and pitch in its registers, and the
    layer remembers the addresses. *)
Definition planes_programmed (t : drm_plane_type) (fb : drm_framebuffer)
    (st : drm_plane_state) (layer : ma35_layer) (d : D) : Prop :=
  forall i, 0 <= i < num_planes (fb_format fb) ->
    let addr := drm_fb_dma_get_gem_addr fb st i in
    regmap_read d (aget (fb_addr (ma35_plane_properties t)) i) = u32 addr
    /\ regmap_read d (aget (fb_stride (ma35_plane_properties t)) i) = u32 (aget (fb_pitches fb) i)
    /\ fb_base layer !! Z.to_nat i = Some addr.

Ltac off_planes := apply (bool_decide_unpack _); vm_compute; exact I.

(** The size word both layers use. *)
Definition size_word (fb : drm_framebuffer) : Z :=
  (fb_height fb mod 2 ^ 15) * 2 ^ 15 + fb_width fb mod 2 ^ 15.

Lemma layer_size_word fb :
  FIELD_PREP MA35_LAYER_FB_HEIGHT (fb_height fb) .| FIELD_PREP MA35_LAYER_FB_WIDTH (fb_width fb)
  = size_word fb.
Proof. apply (FIELD_PREP2_word 29 15 14); lia. Qed.

Lemma position_word x y :
  FIELD_PREP MA35_OVERLAY_POSITION_X_MASK x .| FIELD_PREP MA35_OVERLAY_POSITION_Y_MASK y
  = (y mod 2 ^ 15) * 2 ^ 15 + x mod 2 ^ 15.
Proof. rewrite Z.lor_comm. apply (FIELD_PREP2_word 29 15 14); lia. Qed.

Lemma word15_u32 a b : is_u32 ((a mod 2 ^ 15) * 2 ^ 15 + b mod 2 ^ 15).
Proof.
  pose proof (Z.mod_pos_bound a (2 ^ 15) ltac:(lia)).
  pose proof (Z.mod_pos_bound b (2 ^ 15) ltac:(lia)). unfold is_u32. lia.
Qed.

Lemma size_word_u32 fb : is_u32 (size_word fb).
Proof. apply word15_u32. Qed.

(** What the address loop of an update leaves. *)
Lemma update_planes t fb st layer (d0 : D) :
  t <> DRM_PLANE_TYPE_CURSOR -> length (fb_base layer) = 3%nat ->
  num_planes (fb_format fb) <= 3 ->
  let r := ma35_write_planes t fb st (seqZ 0 (num_planes (fb_format fb))) (fb_base layer) d0 in
  planes_programmed t fb st (mklayer t (fst r)) (snd r)
  /\ forall reg, off_planes t reg -> regmap_read (snd r) reg = regmap_read d0 reg.
Proof.
  intros Ht Hlen Hn r. split.
  - intros i Hi. cbn [fb_base]. destruct (seqZ_planes _ Hn) as [Hnd H3].
    apply (write_planes_in t fb st _ (fb_base layer) d0 i Ht Hnd H3 Hlen).
    apply elem_of_seqZ. lia.
  - intros reg Hreg. by apply write_planes_off.
Qed.


(** The position update, as numbers: the corners as [int]s, clamped to 0. *)
Lemma overlay_position_words (d : D) x y w h :
  let d' := ma35_overlay_position_update d x y w h in
  regmap_read d' MA35_OVERLAY_TL
  = (Z.max 0 y mod 2 ^ 15) * 2 ^ 15 + Z.max 0 x mod 2 ^ 15
  /\ regmap_read d' MA35_OVERLAY_BR
     = (Z.max 0 (s32 (y + h)) mod 2 ^ 15) * 2 ^ 15 + Z.max 0 (s32 (x + w)) mod 2 ^ 15
  /\ (forall r, r <> MA35_OVERLAY_TL -> r <> MA35_OVERLAY_BR ->
       regmap_read d' r = regmap_read d r).
Proof.
  assert (Hmax : forall z, (if z <? 0 then 0 else z) = Z.max 0 z)
    by (intros z; case_if; zb; lia).
  assert (Hs : forall z, s32 (u32 z) = s32 z)
    by (intros z; unfold s32, u32; by rewrite Zplus_mod_idemp_l).
  unfold ma35_overlay_position_update. cbv zeta.
  rewrite !Hs, !Hmax, !position_word. rm_simp.
  split; [apply u32_id, word15_u32|]. split; [apply u32_id, word15_u32|].
  intros r H1 H2. by rewrite !regmap_read_write_ne by (by apply not_eq_sym).
Qed.

(** The blend register of the overlay. *)
Definition blend_word (st : drm_plane_state) (fb : drm_framebuffer) (old : Z) : Z :=
  if bool_decide (format (fb_format fb) = DRM_FORMAT_ARGB8888) then
    if Z.testbit (pixel_blend_mode st) 0 then 0x3120 else size_word fb
  else old .| 2 ^ 1.

(** The overlay branch of the update, register by register. *)
Lemma overlay_update_words (d : D) fb code st :
  0 <= code < 64 ->
  let d' := ma35_overlay_update d fb code st in
  regmap_read d' MA35_OVERLAY_CONFIG = 2 ^ 24 + code * 2 ^ 16
  /\ regmap_read d' MA35_OVERLAY_SIZE = size_word fb
  /\ regmap_read d' MA35_OVERLAY_TL
     = (Z.max 0 (crtc_y st) mod 2 ^ 15) * 2 ^ 15 + Z.max 0 (crtc_x st) mod 2 ^ 15
  /\ regmap_read d' MA35_OVERLAY_BR
     = (Z.max 0 (s32 (crtc_y st + crtc_h st)) mod 2 ^ 15) * 2 ^ 15
       + Z.max 0 (s32 (crtc_x st + crtc_w st)) mod 2 ^ 15
  /\ regmap_read d' MA35_OVERLAY_ALPHA_BLEND_CONFIG
     = blend_word st fb (regmap_read d MA35_OVERLAY_ALPHA_BLEND_CONFIG)
  /\ regmap_read d' MA35_OVERLAY_CLEAR_VALUE = 0
  /\ (forall r, r ∉ [MA35_OVERLAY_CONFIG; MA35_OVERLAY_SIZE; MA35_OVERLAY_TL; MA35_OVERLAY_BR;
            MA35_OVERLAY_ALPHA_BLEND_CONFIG; MA35_OVERLAY_CLEAR_VALUE] ->
       regmap_read d' r = regmap_read d r).
Proof.
  intros Hc d'. subst d'. unfold ma35_overlay_update. cbv zeta. rewrite layer_size_word.
  set (d1 := regmap_write (regmap_write d _ _) _ _).
  destruct (overlay_position_words d1 (crtc_x st) (crtc_y st) (crtc_w st) (crtc_h st))
    as (Htl & Hbr & Hoth).
  set (d2 := ma35_overlay_position_update _ _ _ _ _) in *.
  assert (Hd1 : regmap_read d1 MA35_OVERLAY_CONFIG = 2 ^ 24 + code * 2 ^ 16
    /\ regmap_read d1 MA35_OVERLAY_SIZE = size_word fb).
  { subst d1. rm_simp. split; [|apply u32_id, size_word_u32].
    rewrite u32_id by (autounfold with ma35; solve_u32).
    change MA35_OVERLAY_FORMAT_MASK with (GENMASK 21 16). rewrite FIELD_PREP_word by lia.
    change (2 ^ (21 - 16 + 1)) with 64. rewrite Z.mod_small by lia.
    change MA35_OVERLAY_ENABLE with (1 * 2 ^ 24). rewrite lor_add; lia. }
  destruct Hd1 as [Hd1c Hd1s].
  assert (Hsel : truthy (pixel_blend_mode st .& (DRM_MODE_BLEND_PREMULTI .| DRM_MODE_BLEND_COVERAGE))
                 = Z.testbit (pixel_blend_mode st) 0
    /\ truthy (pixel_blend_mode st .& DRM_MODE_BLEND_COVERAGE) = Z.testbit (pixel_blend_mode st) 0)
    by (split; apply (truthy_land_BIT _ 0); lia).
  destruct Hsel as [Hs1 Hs2]. rewrite Hs1, Hs2. unfold blend_word.
  assert (Hd2 : forall r, r ∉ [MA35_OVERLAY_CONFIG; MA35_OVERLAY_SIZE; MA35_OVERLAY_TL;
      MA35_OVERLAY_BR] -> regmap_read d2 r = regmap_read d r).
  { intros r Hr. rewrite !not_elem_of_cons in Hr. destruct_and!.
    rewrite Hoth by done. subst d1.
    by rewrite !regmap_read_write_ne by (by apply not_eq_sym). }
  destruct (bool_decide (format (fb_format fb) = DRM_FORMAT_ARGB8888)); rm_simp.
  all: rewrite Htl, Hbr, !Hoth, Hd1c, Hd1s by (by vm_compute).
  all: do 4 (split; [done|]); split; [|split; [done|]].
  2,4: intros r Hr; rewrite !not_elem_of_cons in Hr; destruct_and!.
  2: rewrite !regmap_read_write_ne by (by apply not_eq_sym).
  3: rewrite regmap_read_write_ne, regmap_read_update_ne by (by apply not_eq_sym).
  2,3: apply Hd2; rewrite !not_elem_of_cons; split_and!; try done; apply not_elem_of_nil.
  - destruct (Z.testbit _ 0); [by vm_compute|apply u32_id, size_word_u32].
  - subst d1. rm_simp. rewrite u32_id by (split; by vm_compute). apply rmw_set.
Qed.

End UpdateTheorems.

Section CursorTheorems.
Context {D : Type} `{Ho : !RegmapOps D} `{Hl : !RegmapLaws D}.

(** What [ma35_cursor_plane_atomic_check] guarantees of a visible cursor, with
    a position that fits the location fields. *)
Definition cursor_ok (st : drm_plane_state) : Prop :=
  crtc_x st < 2 ^ 15 /\ crtc_y st < 2 ^ 15
  /\ 0 <= hotspot_x st < 32 /\ 0 <= hotspot_y st < 32.

(** Two framebuffer pointers that [set_fb] treats as a change. *)
Definition fb_changed (old_fb new_fb : option drm_framebuffer) : bool :=
  (bool_decide (old_fb = None) || negb (bool_decide (fb_ptr old_fb = fb_ptr new_fb)))%bool.

Lemma cursor_location (d : D) st :
  cursor_ok st ->
  let loc := regmap_read (ma35_cursor_position_update d (crtc_x st) (crtc_y st))
               MA35_CURSOR_LOCATION in
  FIELD_GET MA35_CURSOR_X_MASK loc = Z.max 0 (crtc_x st)
  /\ FIELD_GET MA35_CURSOR_Y_MASK loc = Z.max 0 (crtc_y st).
Proof.
  intros (Hx & Hy & _). unfold ma35_cursor_position_update.
  replace (if crtc_x st <? 0 then 0 else crtc_x st) with (Z.max 0 (crtc_x st))
    by (case_if; zb; lia).
  replace (if crtc_y st <? 0 then 0 else crtc_y st) with (Z.max 0 (crtc_y st))
    by (case_if; zb; lia).
  autounfold with ma35. rm_simp. rewrite u32_id by solve_u32. by field_simp.
Qed.

Lemma cursor_hotspot_fields st :
  cursor_ok st ->
  FIELD_GET MA35_CURSOR_HOTSPOT_X_MASK (u32 (cursor_hotspot_reg st)) = hotspot_x st
  /\ FIELD_GET MA35_CURSOR_HOTSPOT_Y_MASK (u32 (cursor_hotspot_reg st)) = hotspot_y st
  /\ FIELD_GET MA35_CURSOR_FORMAT_MASK (u32 (cursor_hotspot_reg st)) = MA35_CURSOR_FORMAT_A8R8G8B8.
Proof.
  intros (_ & _ & Hx & Hy). unfold cursor_hotspot_reg.
  autounfold with ma35. rewrite u32_id by solve_u32. field_simp. done.
Qed.

(** The framebuffer part: nothing, or address and format. *)
Lemma cursor_set_fb_spec layer (d : D) old_fb fb st :
  length (fb_base layer) = 3%nat ->
  exists layer' d',
  ma35_cursor_set_fb layer d old_fb (Some fb) st = Some (layer', d')
  /\ (forall r, r <> MA35_CURSOR_ADDRESS -> r <> MA35_CURSOR_CONFIG ->
        regmap_read d' r = regmap_read d r)
  /\ if fb_changed old_fb (Some fb) then
       let addr := drm_fb_dma_get_gem_addr fb st 0 in
       regmap_read d' MA35_CURSOR_ADDRESS = u32 addr
       /\ regmap_read d' MA35_CURSOR_CONFIG
          = rmw (regmap_read d MA35_CURSOR_CONFIG) MA35_CURSOR_FORMAT_MASK
              MA35_CURSOR_FORMAT_A8R8G8B8
       /\ fb_base layer' !! 0%nat = Some addr
     else layer' = layer /\ d' = d.
Proof.
  intros Hlen. unfold ma35_cursor_set_fb. fold (fb_changed old_fb (Some fb)).
  destruct (fb_changed old_fb (Some fb)); [|by eexists _, _].
  eexists _, _. split; [done|]. split.
  - intros r H1 H2.
    rewrite regmap_read_update_ne by (by apply not_eq_sym).
    by rewrite regmap_read_write_ne by (by apply not_eq_sym).
  - rm_simp. split; [done|]. split; [done|].
    cbn [fb_base]. apply list_lookup_insert_eq. lia.
Qed.

(** A visible cursor update programs the position (negative coordinates
    clamped to 0), the address of the new framebuffer and the ARGB format when
    the framebuffer pointer changed, and hotspot and format when the hotspot
    changed; otherwise the configuration is left alone. An invisible update
    and a disable clear the format field and touch nothing else. *)
Theorem ma35_cursor_update_programs layer (d : D) old st fb :
  length (fb_base layer) = 3%nat -> ps_fb st = Some fb -> cursor_ok st ->
  (visible st = true ->
   exists layer' d',
   ma35_cursor_plane_atomic_update layer d old st = Some (layer', d')
   /\ FIELD_GET MA35_CURSOR_X_MASK (regmap_read d' MA35_CURSOR_LOCATION) = Z.max 0 (crtc_x st)
   /\ FIELD_GET MA35_CURSOR_Y_MASK (regmap_read d' MA35_CURSOR_LOCATION) = Z.max 0 (crtc_y st)
   /\ regmap_read d' MA35_CURSOR_ADDRESS
      = (if fb_changed (ps_fb old) (Some fb) then u32 (drm_fb_dma_get_gem_addr fb st 0)
         else regmap_read d MA35_CURSOR_ADDRESS)
   /\ (let cfg := regmap_read d' MA35_CURSOR_CONFIG in
       if hotspot_changed old st then
         FIELD_GET MA35_CURSOR_HOTSPOT_X_MASK cfg = hotspot_x st
         /\ FIELD_GET MA35_CURSOR_HOTSPOT_Y_MASK cfg = hotspot_y st
         /\ FIELD_GET MA35_CURSOR_FORMAT_MASK cfg = MA35_CURSOR_FORMAT_A8R8G8B8
       else if fb_changed (ps_fb old) (Some fb) then
         FIELD_GET MA35_CURSOR_FORMAT_MASK cfg = MA35_CURSOR_FORMAT_A8R8G8B8
       else cfg = regmap_read d MA35_CURSOR_CONFIG))
  /\ (visible st = false ->
      ma35_cursor_plane_atomic_update layer d old st
      = Some (layer, ma35_cursor_plane_atomic_disable d))
  /\ FIELD_GET MA35_CURSOR_FORMAT_MASK
       (regmap_read (ma35_cursor_plane_atomic_disable d) MA35_CURSOR_CONFIG)
     = MA35_CURSOR_FORMAT_DISABLE
  /\ (forall r, r <> MA35_CURSOR_CONFIG ->
      regmap_read (ma35_cursor_plane_atomic_disable d) r = regmap_read d r).
Proof.
  intros Hlen Hfb Hok. unfold ma35_cursor_plane_atomic_update. split; [|split; [|split]].
  - intros ->. cbn [negb]. rewrite Hfb.
    set (d1 := ma35_cursor_position_update d (crtc_x st) (crtc_y st)).
    assert (Hd1 : forall r, r <> MA35_CURSOR_LOCATION -> regmap_read d1 r = regmap_read d r)
      by (intros; apply regmap_read_write_ne; by apply not_eq_sym).
    destruct (cursor_location d st Hok) as [Hlx Hly]. fold d1 in Hlx, Hly.
    destruct (cursor_set_fb_spec layer d1 (ps_fb old) fb st Hlen) as (layer' & d2 & -> & Hoth & Hset).
    assert (Hl2 : regmap_read d2 MA35_CURSOR_LOCATION = regmap_read d1 MA35_CURSOR_LOCATION)
      by (by apply Hoth).
    destruct (cursor_hotspot_fields st Hok) as (Hhx & Hhy & Hhf).
    destruct (hotspot_changed old st).
    + eexists _, _. split; [done|]. rm_simp. rewrite Hl2, Hlx, Hly.
      do 2 (split; [done|]). split; [|done].
      destruct (fb_changed _ _); [apply Hset|]. destruct Hset as [_ ->]. by apply Hd1.
    + eexists _, _. split; [done|]. rewrite Hl2, Hlx, Hly. do 2 (split; [done|]).
      destruct (fb_changed _ _).
      * destruct Hset as (Ha & -> & _). split; [done|]. by rewrite FIELD_GET_rmw_same.
      * destruct Hset as [_ ->]. split; by apply Hd1.
  - by intros ->.
  - unfold ma35_cursor_plane_atomic_disable. rm_simp. by rewrite FIELD_GET_rmw_same.
  - intros r Hr. unfold ma35_cursor_plane_atomic_disable.
    apply regmap_read_update_ne. by apply not_eq_sym.
Qed.

(** The asynchronous cursor update swaps its two local framebuffer
    pointers before using them: when the framebuffer changes, the address it
    programs is that of the framebuffer being replaced (at the new source
    position), and replacing no framebuffer at all is a NULL dereference. The
    plane's current state takes over position, size, source and hotspot, but
    keeps its old framebuffer. *)
Theorem ma35_cursor_async_update_exact layer (d : D) old st fb :
  length (fb_base layer) = 3%nat -> ps_fb st = Some fb -> visible st = true ->
  match ps_fb old with
  | None => ma35_cursor_plane_atomic_async_update layer d old st = None
  | Some ofb =>
      exists old' layer' d',
      ma35_cursor_plane_atomic_async_update layer d old st = Some (old', layer', d')
      /\ (fb_id ofb <> fb_id fb ->
          regmap_read d' MA35_CURSOR_ADDRESS = u32 (drm_fb_dma_get_gem_addr ofb st 0))
      /\ (fb_id ofb = fb_id fb ->
          regmap_read d' MA35_CURSOR_ADDRESS = regmap_read d MA35_CURSOR_ADDRESS)
      /\ dest_of old' = dest_of st /\ src_of old' = src_of st
      /\ hotspot_x old' = hotspot_x st /\ hotspot_y old' = hotspot_y st
      /\ ps_fb old' = ps_fb old
  end.
Proof.
  intros Hlen Hfb Hv. unfold ma35_cursor_plane_atomic_async_update.
  rewrite Hv, Hfb. cbn [negb]. destruct (ps_fb old) as [ofb|] eqn:Hof.
  - set (d1 := ma35_cursor_position_update d (crtc_x st) (crtc_y st)).
    destruct (cursor_set_fb_spec layer d1 (Some fb) ofb st Hlen) as (layer' & d2 & -> & _ & Hset).
    assert (Hch : fb_changed (Some fb) (Some ofb) = negb (fb_id fb =? fb_id ofb)).
    { unfold fb_changed, fb_ptr. cbn. f_equal.
      destruct (Z.eqb_spec (fb_id fb) (fb_id ofb)) as [->|Hne].
      - by apply bool_decide_eq_true.
      - apply bool_decide_eq_false. congruence. }
    rewrite Hch in Hset.
    assert (Ha : forall dx, (regmap_read dx MA35_CURSOR_ADDRESS = regmap_read d2 MA35_CURSOR_ADDRESS) ->
      (fb_id ofb <> fb_id fb ->
         regmap_read dx MA35_CURSOR_ADDRESS = u32 (drm_fb_dma_get_gem_addr ofb st 0))
      /\ (fb_id ofb = fb_id fb ->
         regmap_read dx MA35_CURSOR_ADDRESS = regmap_read d MA35_CURSOR_ADDRESS)).
    { intros dx ->. destruct (Z.eqb_spec (fb_id fb) (fb_id ofb)) as [He|He]; cbn in Hset.
      - split; [congruence|]. intros _. destruct Hset as [_ ->].
        apply regmap_read_write_ne. by vm_compute.
      - split; [|congruence]. intros _. apply Hset. }
    destruct (hotspot_changed _ st) eqn:Hh.
    + eexists _, _, _. split; [done|].
      assert (He : regmap_read (regmap_write d2 MA35_CURSOR_CONFIG (cursor_hotspot_reg st))
                     MA35_CURSOR_ADDRESS = regmap_read d2 MA35_CURSOR_ADDRESS)
        by (apply regmap_read_write_ne; by vm_compute).
      destruct (Ha _ He). repeat split; done.
    + unfold hotspot_changed in Hh. cbn in Hh. zb.
      eexists _, _, _. split; [done|]. destruct (Ha d2 eq_refl). repeat split; done.
  - unfold ma35_cursor_set_fb. cbn. done.
Qed.
End CursorTheorems.

(** ** Witnesses *)

Definition argb_info : drm_format_info :=
  mkfmt DRM_FORMAT_ARGB8888 32 1 [4; 0; 0] [0; 0; 0] [0; 0; 0] 1 1 true false false.
Definition xrgb_info : drm_format_info :=
  mkfmt DRM_FORMAT_XRGB8888 24 1 [4; 0; 0] [0; 0; 0] [0; 0; 0] 1 1 false false false.
Definition argb_fb (id w h dma : Z) : drm_framebuffer :=
  mkfb id argb_info w h [4 * w; 0; 0; 0] [0; 0; 0; 0] 0 [Some dma; None; None; None].
Definition xrgb_fb (id w h dma : Z) : drm_framebuffer :=
  mkfb id xrgb_info w h [4 * w; 0; 0; 0] [0; 0; 0; 0] 0 [Some dma; None; None; None].

(** A plane state showing a whole framebuffer at (x, y). *)
Definition at_pos (fb : drm_framebuffer) (x y blend hx hy : Z) (vis : bool) : drm_plane_state :=
  mkps (Some 0%nat) (Some fb) x y (fb_width fb) (fb_height fb) 0 0
    (65536 * fb_width fb) (65536 * fb_height fb) hx hy blend DRM_MODE_ROTATE_0
    (mkrect 0 0 0 0) (mkrect 0 0 0 0) vis.

Lemma ma35_plane_checks_exact_witness :
  let s := at_pos (xrgb_fb 1 800 480 1048576) 0 0 0 0 0 false in
  match ma35_plane_atomic_check (fun _ => inl cs_800x480) DRM_PLANE_TYPE_PRIMARY s with
  | Some (ret, s') => ret = 0 /\ visible s' = true
  | None => False
  end.
Proof.
  pose proof (ma35_plane_checks_exact (fun _ => inl cs_800x480) DRM_PLANE_TYPE_PRIMARY
    (at_pos (xrgb_fb 1 800 480 1048576) 0 0 0 0 0 false) 0%nat cs_800x480
    (xrgb_fb 1 800 480 1048576) eq_refl eq_refl eq_refl
    ltac:(unfold dest_ok; cbn; lia) ltac:(unfold source_ok; cbn; lia) eq_refl
    mode_800x480_typed) as H.
  vm_compute in H. destruct H as [(Hv & Hr & _) _]. vm_compute. split; [exact Hr|exact Hv].
Defined.



(** An overlay placed 2^15 pixels to the right of the display passes the check
    as invisible; the update programs it all the same, and the position field
    drops the top bit: it is shown 100 pixels from the left edge. *)
Lemma overlay_wraps_into_view :
  let s := at_pos (argb_fb 1 200 100 1048576) (2 ^ 15 + 100) 20 DRM_MODE_BLEND_PREMULTI 0 0 false in
  (match ma35_plane_atomic_check (fun _ => inl cs_800x480) DRM_PLANE_TYPE_OVERLAY s with
   | Some (ret, s') => ret = 0 /\ visible s' = false
   | None => False
   end)
  /\ (match ma35_plane_atomic_update (mklayer DRM_PLANE_TYPE_OVERLAY [0; 0; 0]) regfile0 s with
      | Some (_, d') => regmap_read d' MA35_OVERLAY_TL = 20 * 2 ^ 15 + 100
      | None => False
      end).
Proof. vm_compute. repeat split. Qed.

Lemma ma35_cursor_update_programs_witness :
  exists layer' d',
  ma35_cursor_plane_atomic_update (mklayer DRM_PLANE_TYPE_CURSOR [0; 0; 0]) regfile0
    (at_pos (xrgb_fb 1 32 32 1048576) 5 6 0 0 0 true)
    (at_pos (xrgb_fb 2 32 32 2097152) (-7) 6 0 3 4 true) = Some (layer', d')
  /\ FIELD_GET MA35_CURSOR_X_MASK (regmap_read d' MA35_CURSOR_LOCATION) = 0
  /\ regmap_read d' MA35_CURSOR_ADDRESS = 2097152.
Proof.
  destruct (ma35_cursor_update_programs (mklayer DRM_PLANE_TYPE_CURSOR [0; 0; 0]) regfile0
    (at_pos (xrgb_fb 1 32 32 1048576) 5 6 0 0 0 true)
    (at_pos (xrgb_fb 2 32 32 2097152) (-7) 6 0 3 4 true) (xrgb_fb 2 32 32 2097152)
    eq_refl eq_refl ltac:(unfold cursor_ok; cbn; lia)) as [H _].
  destruct (H eq_refl) as (l' & d' & Hu & Hx & _ & Ha & _).
  exists l', d'. split; [exact Hu|]. split; [exact Hx|]. rewrite Ha. vm_compute. reflexivity.
Defined.

Lemma ma35_cursor_async_update_exact_witness :
  exists old' layer' d',
  ma35_cursor_plane_atomic_async_update (mklayer DRM_PLANE_TYPE_CURSOR [0; 0; 0]) regfile0
    (at_pos (xrgb_fb 1 32 32 1048576) 5 6 0 0 0 true)
    (at_pos (xrgb_fb 2 32 32 2097152) 7 6 0 3 4 true) = Some (old', layer', d')
  /\ regmap_read d' MA35_CURSOR_ADDRESS = 1048576.
Proof.
  destruct (ma35_cursor_async_update_exact (mklayer DRM_PLANE_TYPE_CURSOR [0; 0; 0]) regfile0
    (at_pos (xrgb_fb 1 32 32 1048576) 5 6 0 0 0 true)
    (at_pos (xrgb_fb 2 32 32 2097152) 7 6 0 3 4 true) (xrgb_fb 2 32 32 2097152)
    eq_refl eq_refl eq_refl) as (o' & l' & d' & Hu & Ha & _).
  exists o', l', d'. split; [exact Hu|]. rewrite Ha; [|discriminate]. vm_compute. reflexivity.
Defined.
