(* ===== verification/Ma35Crtc.v ===== *)
(** * Ma35Crtc: the CRTC of the MA35 display controller
      (src/drm/nuvoton/ma35_crtc.c, ma35_crtc.h)

    Handlers run on a register map.  The state the CRTC keeps is the record
    [ma35_crtc]; the vblank machinery of the DRM core is reached through
    events. *)

From S2P Require Export KernelApi Uapi DrmModes Ma35Plane.

Definition MA35_HDISPLAY : Z := 0x1430.
Definition MA35_HSYNC : Z := 0x1438.
Definition MA35_VDISPLAY : Z := 0x1440.
Definition MA35_VSYNC : Z := 0x1448.
Definition MA35_PANEL_CONFIG : Z := 0x1418.
Definition MA35_DPI_CONFIG : Z := 0x14B8.
Definition MA35_DISPLAY_INTRENABLE : Z := 0x1480.
Definition MA35_INT_STATE : Z := 0x147C.
Definition MA35_GAMMA_INDEX : Z := 0x1458.
Definition MA35_GAMMA_DATA : Z := 0x1460.
Definition MA35_DISPLAY_DITHER_TABLE_LOW : Z := 0x1420.
Definition MA35_DISPLAY_DITHER_TABLE_HIGH : Z := 0x1428.
Definition MA35_DISPLAY_DITHER_CONFIG : Z := 0x1410.
Definition MA35_DISPLAY_CURRENT_LOCATION : Z := 0x1450.

Definition MA35_DPI_D24 : Z := 5.
Definition MA35_DPI_FORMAT_MASK : Z := GENMASK 2 0.
Definition MA35_MAX_PIXEL_CLK : Z := 150000.
Definition MA35_GAMMA_TABLE_SIZE : Z := 256.
Definition MA35_GAMMA_RED_MASK : Z := GENMASK 29 20.
Definition MA35_GAMMA_GREEN_MASK : Z := GENMASK 19 10.
Definition MA35_GAMMA_BLUE_MASK : Z := GENMASK 9 0.
Definition MA35_DITHER_TABLE_ENTRY : Z := 16.
Definition MA35_DITHER_ENABLE : Z := BIT 31.
Definition MA35_DITHER_TABLE_MASK : Z := GENMASK 3 0.
Definition MA35_CRTC_VBLANK : Z := BIT 0.
Definition MA35_PANEL_DATA_ENABLE_ENABLE : Z := BIT 0.
Definition MA35_PANEL_DATA_ENABLE_POLARITY : Z := BIT 1.
Definition MA35_PANEL_DATA_ENABLE : Z := BIT 4.
Definition MA35_PANEL_DATA_POLARITY : Z := BIT 5.
Definition MA35_PANEL_DATA_CLOCK_ENABLE : Z := BIT 8.
Definition MA35_DISPLAY_TOTAL_MASK : Z := GENMASK 30 16.
Definition MA35_DISPLAY_ACTIVE_MASK : Z := GENMASK 14 0.
Definition MA35_SYNC_POLARITY_BIT : Z := BIT 31.
Definition MA35_SYNC_PULSE_ENABLE : Z := BIT 30.
Definition MA35_SYNC_END_MASK : Z := GENMASK 29 15.
Definition MA35_SYNC_START_MASK : Z := GENMASK 14 0.
Definition MA35_DISPLAY_CURRENT_X : Z := GENMASK 15 0.
Definition MA35_DISPLAY_CURRENT_Y : Z := GENMASK 31 16.

#[export] Hint Unfold MA35_DPI_FORMAT_MASK MA35_GAMMA_RED_MASK MA35_GAMMA_GREEN_MASK
  MA35_GAMMA_BLUE_MASK MA35_DITHER_TABLE_MASK MA35_PANEL_DATA_ENABLE_ENABLE
  MA35_PANEL_DATA_ENABLE_POLARITY MA35_PANEL_DATA_ENABLE MA35_PANEL_DATA_POLARITY
  MA35_PANEL_DATA_CLOCK_ENABLE MA35_DISPLAY_TOTAL_MASK MA35_DISPLAY_ACTIVE_MASK
  MA35_SYNC_POLARITY_BIT MA35_SYNC_PULSE_ENABLE MA35_SYNC_END_MASK MA35_SYNC_START_MASK
  MA35_DISPLAY_CURRENT_X MA35_DISPLAY_CURRENT_Y : ma35.

(** [struct ma35_crtc]; the counter is an [atomic_t], an [int]. *)
Record ma35_crtc := mkcrtc {
  vblank_counter : Z;
  dpi_format : Z;
  dither_depth : Z;
  dither_enable : bool
}.

(** ** Checks *)

Definition ma35_crtc_mode_valid (mode_config : drm_mode_config) (mode : drm_display_mode)
  : drm_mode_status :=
  if truthy (flags mode .& DRM_MODE_FLAG_INTERLACE) then MODE_NO_INTERLACE
  else if (hdisplay mode >? max_width mode_config) || (hdisplay mode <? min_width mode_config)
  then MODE_BAD_HVALUE
  else if (vdisplay mode >? max_height mode_config) || (vdisplay mode <? min_height mode_config)
  then MODE_BAD_VVALUE
  else if clock mode >? MA35_MAX_PIXEL_CLK then MODE_CLOCK_HIGH
  else MODE_OK.

(** [clk_round_rate] of the pixel clock takes an unsigned long and returns a
    long, stored in an [int].  Returns the value the C function returns. *)
Definition ma35_crtc_atomic_check (clk_round_rate : Z -> Z) (crtc_state : drm_crtc_state)
  : Z * drm_crtc_state :=
  let mode := mode crtc_state in
  if clock mode >? MA35_MAX_PIXEL_CLK then (mode_status_value MODE_CLOCK_HIGH, crtc_state)
  else
    let clk_rate := s32 (clk_round_rate (u64 (s32 (clock mode * 1000)))) in
    if clk_rate <=? 0 then (mode_status_value MODE_CLOCK_RANGE, crtc_state)
    else
      let adjusted := adjusted_mode crtc_state in
      (0, {| crtc_state with
             adjusted_mode := {| adjusted with clock := Z.quot (s32 (clk_rate + 1000 - 1)) 1000 |} |}).

(** ** Handlers *)

(** Calls into the vblank code of the DRM core. *)
Inductive vblank_event : Set :=
| VblankOn | VblankOff | HandleVblank | ArmEvent | SendEvent.

Section Crtc.
Context {D : Type} `{!RegmapOps D}.

Definition ma35_sync_reg (start stop : Z) (negative : bool) : Z :=
  let reg := MA35_SYNC_PULSE_ENABLE .| FIELD_PREP MA35_SYNC_START_MASK start
             .| FIELD_PREP MA35_SYNC_END_MASK stop in
  if negative then reg .| MA35_SYNC_POLARITY_BIT else reg.

Definition ma35_crtc_timings (d : D) (mode : drm_display_mode) : D :=
  let reg := FIELD_PREP MA35_DISPLAY_TOTAL_MASK (htotal mode)
             .| FIELD_PREP MA35_DISPLAY_ACTIVE_MASK (hdisplay mode) in
  let d := regmap_write d MA35_HDISPLAY reg in
  let reg := ma35_sync_reg (hsync_start mode) (hsync_end mode)
               (truthy (flags mode .& DRM_MODE_FLAG_NHSYNC)) in
  let d := regmap_write d MA35_HSYNC reg in
  let reg := FIELD_PREP MA35_DISPLAY_TOTAL_MASK (vtotal mode)
             .| FIELD_PREP MA35_DISPLAY_ACTIVE_MASK (vdisplay mode) in
  let d := regmap_write d MA35_VDISPLAY reg in
  let reg := ma35_sync_reg (vsync_start mode) (vsync_end mode)
               (truthy (flags mode .& DRM_MODE_FLAG_NVSYNC)) in
  regmap_write d MA35_VSYNC reg.

Definition ma35_crtc_signals (d : D) (bus_flags : Z) : D :=
  let reg := MA35_PANEL_DATA_ENABLE_ENABLE .| MA35_PANEL_DATA_ENABLE
             .| MA35_PANEL_DATA_CLOCK_ENABLE in
  let reg := if truthy (bus_flags .& DRM_BUS_FLAG_DE_LOW)
             then reg .| MA35_PANEL_DATA_ENABLE_POLARITY else reg in
  let reg := if truthy (bus_flags .& DRM_BUS_FLAG_PIXDATA_DRIVE_NEGEDGE)
             then reg .| MA35_PANEL_DATA_POLARITY else reg in
  regmap_write d MA35_PANEL_CONFIG reg.

Definition gamma_word (r g b : Z) : Z :=
  FIELD_PREP MA35_GAMMA_RED_MASK r .| FIELD_PREP MA35_GAMMA_GREEN_MASK g
  .| FIELD_PREP MA35_GAMMA_BLUE_MASK b.

(** The table loop of the enable path: index, then data, from entry [i]. *)
Fixpoint ma35_gamma_table (d : D) (i : Z) (lut : list drm_color_lut) : D :=
  match lut with
  | [] => d
  | e :: lut =>
      let d := regmap_write d MA35_GAMMA_INDEX i in
      let d := regmap_write d MA35_GAMMA_DATA
                 (gamma_word (red e .>> 6) (green e .>> 6) (blue e .>> 6)) in
      ma35_gamma_table d (i + 1) lut
  end.

Definition ma35_crtc_gamma (d : D) (new_state : drm_crtc_state) : D :=
  match gamma_lut new_state with
  | Some lut =>
      let d := if color_mgmt_changed new_state then ma35_gamma_table d 0 lut else d in
      regmap_update_bits d MA35_FRAMEBUFFER_CONFIG MA35_PRIMARY_GAMMA MA35_PRIMARY_GAMMA
  | None => regmap_update_bits d MA35_FRAMEBUFFER_CONFIG MA35_PRIMARY_GAMMA 0
  end.

(** The loop that assembles half a dither table, eight nibbles. *)
Fixpoint dither_word (depth : Z) (n : nat) : Z :=
  match n with
  | O => 0
  | S k => dither_word depth k
           .| u32 ((depth .& MA35_DITHER_TABLE_MASK) .<< (Z.of_nat k * 4))
  end.

Definition ma35_crtc_dither (d : D) (crtc : ma35_crtc) : D :=
  if dither_enable crtc then
    let reg := dither_word (dither_depth crtc) (Z.to_nat (MA35_DITHER_TABLE_ENTRY / 2)) in
    let d := regmap_write d MA35_DISPLAY_DITHER_TABLE_LOW reg in
    let d := regmap_write d MA35_DISPLAY_DITHER_TABLE_HIGH reg in
    regmap_write d MA35_DISPLAY_DITHER_CONFIG MA35_DITHER_ENABLE
  else regmap_write d MA35_DISPLAY_DITHER_CONFIG 0.

Definition ma35_crtc_atomic_enable (d : D) (crtc : ma35_crtc) (bus_flags : Z)
    (new_state : drm_crtc_state) : D * list vblank_event :=
  let mode := adjusted_mode new_state in
  let d := ma35_crtc_timings d mode in
  let d := ma35_crtc_signals d bus_flags in
  let d := ma35_crtc_gamma d new_state in
  let d := regmap_write d MA35_DPI_CONFIG
             (FIELD_PREP MA35_DPI_FORMAT_MASK (dpi_format crtc)) in
  let d := ma35_crtc_dither d crtc in
  (d, [VblankOn]).

(** [event] and [active] are fields of the CRTC's current state; the new value
    of [event] is returned. *)
Definition ma35_crtc_atomic_disable (d : D) (event active : bool)
  : D * bool * list vblank_event :=
  let d := regmap_update_bits d MA35_PANEL_CONFIG MA35_PANEL_DATA_ENABLE_ENABLE 0 in
  let d := regmap_update_bits d MA35_FRAMEBUFFER_CONFIG MA35_PRIMARY_GAMMA 0 in
  let d := regmap_write d MA35_DISPLAY_DITHER_CONFIG 0 in
  if event && negb active then (d, false, [VblankOff; SendEvent])
  else (d, event, [VblankOff]).

(** [vblank_get] is the result of [drm_crtc_vblank_get]. *)
Definition ma35_crtc_atomic_flush (vblank_get : Z) (event : bool)
  : bool * list vblank_event :=
  if event then
    if vblank_get =? 0 then (false, [ArmEvent]) else (false, [SendEvent])
  else (event, []).

(** Returns [(vpos, hpos)] beside the constant [true]. *)
Definition ma35_crtc_get_scanout_position (d : D) : bool * (Z * Z) :=
  let reg := regmap_read d MA35_DISPLAY_CURRENT_LOCATION in
  (true, (FIELD_GET MA35_DISPLAY_CURRENT_Y reg, FIELD_GET MA35_DISPLAY_CURRENT_X reg)).

Definition ma35_crtc_enable_vblank (d : D) : Z * D :=
  (0, regmap_write d MA35_DISPLAY_INTRENABLE MA35_CRTC_VBLANK).

Definition ma35_crtc_disable_vblank (d : D) : D :=
  regmap_write d MA35_DISPLAY_INTRENABLE 0.

Definition ma35_crtc_get_vblank_counter (crtc : ma35_crtc) : Z := u32 (vblank_counter crtc).

Fixpoint gamma_set_loop (d : D) (rgb : list (Z * Z * Z)) : D :=
  match rgb with
  | [] => d
  | (r, g, b) :: rgb => gamma_set_loop (regmap_write d MA35_GAMMA_DATA (gamma_word r g b)) rgb
  end.

(** [rgb] is the three arrays, zipped; it has [size] entries. *)
Definition ma35_crtc_gamma_set (d : D) (rgb : list (Z * Z * Z)) (size : Z) : Z * D :=
  if negb (size =? MA35_GAMMA_TABLE_SIZE) then (- EINVAL, d)
  else (0, gamma_set_loop (regmap_write d MA35_GAMMA_INDEX 0) rgb).

(** [crtc] is [priv->crtc], NULL until the CRTC is initialised. *)
Definition ma35_crtc_vblank_handler (crtc : option ma35_crtc)
  : option ma35_crtc * list vblank_event :=
  match crtc with
  | None => (None, [])
  | Some crtc =>
      (Some {| crtc with vblank_counter := s32 (vblank_counter crtc + 1) |}, [HandleVblank])
  end.

(** The interrupt handler (ma35_drm.c): [true] is [IRQ_HANDLED]. *)
Definition MA35_INT_STATE_DISP0 : Z := BIT 0.

Definition ma35_drm_irq_handler (d : D) (crtc : option ma35_crtc)
  : bool * option ma35_crtc * list vblank_event :=
  let stat := regmap_read d MA35_INT_STATE in
  if truthy (stat .& MA35_INT_STATE_DISP0) then
    let '(crtc, ev) := ma35_crtc_vblank_handler crtc in (true, crtc, ev)
  else (false, crtc, []).

End Crtc.

(** ** Facts *)

Lemma sync_reg_u32 a b n : is_u32 (ma35_sync_reg a b n).
Proof. unfold ma35_sync_reg. autounfold with ma35. destruct n; solve_u32. Qed.

(** The sync word as a number. *)
Lemma sync_reg_word a b n :
  ma35_sync_reg a b n
  = Z.b2z n * 2 ^ 31 + 2 ^ 30 + (b mod 2 ^ 15) * 2 ^ 15 + a mod 2 ^ 15.
Proof.
  assert (Hfld : FIELD_PREP MA35_SYNC_END_MASK b .| FIELD_PREP MA35_SYNC_START_MASK a
                 = (b mod 2 ^ 15) * 2 ^ 15 + a mod 2 ^ 15)
    by (apply (FIELD_PREP2_word 29 15 14 b a); lia).
  pose proof (Z.mod_pos_bound a (2 ^ 15) ltac:(lia)).
  pose proof (Z.mod_pos_bound b (2 ^ 15) ltac:(lia)).
  assert (Hreg : MA35_SYNC_PULSE_ENABLE .| FIELD_PREP MA35_SYNC_START_MASK a
                 .| FIELD_PREP MA35_SYNC_END_MASK b
                 = 2 ^ 30 + (b mod 2 ^ 15) * 2 ^ 15 + a mod 2 ^ 15).
  { rewrite <- Z.lor_assoc, (Z.lor_comm MA35_SYNC_PULSE_ENABLE),
      (Z.lor_comm (FIELD_PREP MA35_SYNC_START_MASK a)), Hfld.
    change MA35_SYNC_PULSE_ENABLE with (1 * 2 ^ 30).
    rewrite (lor_add 30) by lia. lia. }
  unfold ma35_sync_reg. cbv zeta. rewrite Hreg. destruct n; [|cbn [Z.b2z]; lia].
  change MA35_SYNC_POLARITY_BIT with (1 * 2 ^ 31).
  rewrite (lor_add 31) by lia. cbn [Z.b2z]. lia.
Qed.

(** Half a dither table is the four low bits of the depth, eight times. *)
Lemma dither_word_depth depth : dither_word depth 8 = (depth mod 16) * 0x11111111.
Proof.
  assert (Hall : forall v, 0 <= v < 16 -> dither_word v 8 = v * 0x11111111).
  { intros v Hv.
    assert (Hf : Forall (fun v => dither_word v 8 = v * 0x11111111) (seqZ 0 16))
      by (apply (bool_decide_unpack _); vm_compute; exact I).
    rewrite Forall_forall in Hf. apply Hf, elem_of_seqZ. lia. }
  assert (Hm : depth .& MA35_DITHER_TABLE_MASK
               = (depth mod 16) .& MA35_DITHER_TABLE_MASK).
  { change MA35_DITHER_TABLE_MASK with (Z.ones 4). rewrite !Z.land_ones by lia.
    by rewrite Z.mod_mod. }
  assert (Hd : forall n, dither_word depth n = dither_word (depth mod 16) n)
    by (induction n as [|n IH]; cbn [dither_word]; [done|by rewrite IH, Hm]).
  rewrite Hd. apply Hall, Z.mod_pos_bound. lia.
Qed.

Section Facts.
Context {D : Type} `{Ho : !RegmapOps D} `{Hl : !RegmapLaws D}.

Lemma gamma_table_other lut : forall (d : D) i r,
  r <> MA35_GAMMA_INDEX -> r <> MA35_GAMMA_DATA ->
  regmap_read (ma35_gamma_table d i lut) r = regmap_read d r.
Proof.
  induction lut as [|e lut IH]; intros d i r H1 H2; cbn [ma35_gamma_table]; [done|].
  rewrite IH by done. rewrite regmap_read_write_ne by (by apply not_eq_sym).
  by rewrite regmap_read_write_ne by (by apply not_eq_sym).
Qed.

Lemma crtc_gamma_other (d : D) st r :
  r <> MA35_GAMMA_INDEX -> r <> MA35_GAMMA_DATA -> r <> MA35_FRAMEBUFFER_CONFIG ->
  regmap_read (ma35_crtc_gamma d st) r = regmap_read d r.
Proof.
  intros H1 H2 H3. unfold ma35_crtc_gamma.
  assert (Hne : MA35_FRAMEBUFFER_CONFIG <> r) by (by apply not_eq_sym).
  destruct (gamma_lut st); rewrite regmap_read_update_ne by done; [|done].
  destruct (color_mgmt_changed st); [by apply gamma_table_other|done].
Qed.

Lemma crtc_gamma_config (d : D) st :
  regmap_read (ma35_crtc_gamma d st) MA35_FRAMEBUFFER_CONFIG
  = rmw (regmap_read d MA35_FRAMEBUFFER_CONFIG) MA35_PRIMARY_GAMMA
      (if gamma_lut st is Some _ then MA35_PRIMARY_GAMMA else 0).
Proof.
  unfold ma35_crtc_gamma. destruct (gamma_lut st); rewrite regmap_read_update; [|done].
  destruct (color_mgmt_changed st); [|done].
  by rewrite gamma_table_other.
Qed.

Lemma crtc_dither_other crtc (d : D) r :
  r <> MA35_DISPLAY_DITHER_TABLE_LOW -> r <> MA35_DISPLAY_DITHER_TABLE_HIGH -> r <> MA35_DISPLAY_DITHER_CONFIG ->
  regmap_read (ma35_crtc_dither d crtc) r = regmap_read d r.
Proof.
  intros N1 N2 N3. unfold ma35_crtc_dither. apply not_eq_sym in N1, N2, N3.
  case_if; rewrite ?regmap_read_write_ne by done; done.
Qed.

(** What the table loop puts on the bus. *)
Fixpoint gamma_trace (i : Z) (lut : list drm_color_lut) : list (Z * Z) :=
  match lut with
  | [] => []
  | e :: lut =>
      (MA35_GAMMA_INDEX, u32 i)
      :: (MA35_GAMMA_DATA, gamma_word (red e .>> 6) (green e .>> 6) (blue e .>> 6))
      :: gamma_trace (i + 1) lut
  end.

Lemma gamma_word_u32 r g b : u32 (gamma_word r g b) = gamma_word r g b.
Proof. apply u32_id. unfold gamma_word. autounfold with ma35. solve_u32. Qed.

Lemma gamma_table_log lut : forall (d : D) i,
  regmap_log (ma35_gamma_table d i lut) = regmap_log d ++ gamma_trace i lut.
Proof.
  induction lut as [|e lut IH]; intros d i; cbn [ma35_gamma_table gamma_trace];
    [by rewrite app_nil_r|].
  rewrite IH, !regmap_log_write, gamma_word_u32. by rewrite <- !app_assoc.
Qed.

Lemma gamma_set_log rgb : forall (d : D),
  regmap_log (gamma_set_loop d rgb)
  = regmap_log d ++ ((fun '(r, g, b) => (MA35_GAMMA_DATA, gamma_word r g b)) <$> rgb).
Proof.
  induction rgb as [|[[r g] b] rgb IH]; intros d; cbn; [by rewrite app_nil_r|].
  rewrite IH, regmap_log_write, gamma_word_u32. by rewrite <- app_assoc.
Qed.
End Facts.

Lemma gamma_word_fields r g b :
  FIELD_GET MA35_GAMMA_RED_MASK (gamma_word r g b) = r mod 2 ^ 10
  /\ FIELD_GET MA35_GAMMA_GREEN_MASK (gamma_word r g b) = g mod 2 ^ 10
  /\ FIELD_GET MA35_GAMMA_BLUE_MASK (gamma_word r g b) = b mod 2 ^ 10.
Proof.
  unfold gamma_word. autounfold with ma35. rewrite !FIELD_GET_lor.
  rewrite !FIELD_GET_PREP_trunc by lia.
  repeat rewrite FIELD_GET_PREP_disjoint by reflexivity.
  rewrite ?Z.lor_0_l, ?Z.lor_0_r. done.
Qed.

(** The 16-bit table entries reduced to the ten bits the hardware has. *)
Definition lut_entry_typed (e : drm_color_lut) : Prop :=
  is_u16 (red e) /\ is_u16 (green e) /\ is_u16 (blue e).

(** ** Main theorems *)

(** The registers the enable path writes. *)
Definition crtc_enable_regs : list Z :=
  [MA35_HDISPLAY; MA35_HSYNC; MA35_VDISPLAY; MA35_VSYNC; MA35_PANEL_CONFIG;
   MA35_GAMMA_INDEX; MA35_GAMMA_DATA; MA35_FRAMEBUFFER_CONFIG; MA35_DPI_CONFIG;
   MA35_DISPLAY_DITHER_TABLE_LOW; MA35_DISPLAY_DITHER_TABLE_HIGH;
   MA35_DISPLAY_DITHER_CONFIG].

Section Theorems.
Context {D : Type} `{Ho : !RegmapOps D} `{Hl : !RegmapLaws D}.

(** C22: Enabling the CRTC programs every register it owns, and nothing else, whatever
    the registers held.  The four timing registers hold the words of the mode, each
    value in a field of 15 bits - a mode with a value of 2^15 or more, which mode_valid
    lets through for the totals and the syncs, is cut to its low 15 bits
    ([long_line_truncated]) - with the sync enables set and the polarities of the mode's
    flags; the panel configuration holds the enables and the polarities of the bus
    flags; the output format is the interface's; in the framebuffer configuration only
    the gamma bit changes, and says whether there is a gamma table; the dither tables
    repeat the low 4 bits of the depth when dithering is on and are left alone when it
    is off. *)
Theorem ma35_crtc_enable_programs (d : D) crtc bus st :
  let m := adjusted_mode st in
  let d' := fst (ma35_crtc_atomic_enable d crtc bus st) in
  regmap_read d' MA35_HDISPLAY = (htotal m mod 2 ^ 15) * 2 ^ 16 + hdisplay m mod 2 ^ 15
  /\ regmap_read d' MA35_VDISPLAY = (vtotal m mod 2 ^ 15) * 2 ^ 16 + vdisplay m mod 2 ^ 15
  /\ regmap_read d' MA35_HSYNC
     = Z.b2z (truthy (flags m .& DRM_MODE_FLAG_NHSYNC)) * 2 ^ 31 + 2 ^ 30
       + (hsync_end m mod 2 ^ 15) * 2 ^ 15 + hsync_start m mod 2 ^ 15
  /\ regmap_read d' MA35_VSYNC
     = Z.b2z (truthy (flags m .& DRM_MODE_FLAG_NVSYNC)) * 2 ^ 31 + 2 ^ 30
       + (vsync_end m mod 2 ^ 15) * 2 ^ 15 + vsync_start m mod 2 ^ 15
  /\ regmap_read d' MA35_PANEL_CONFIG
     = 2 ^ 8 + Z.b2z (truthy (bus .& DRM_BUS_FLAG_PIXDATA_DRIVE_NEGEDGE)) * 2 ^ 5 + 2 ^ 4
       + Z.b2z (truthy (bus .& DRM_BUS_FLAG_DE_LOW)) * 2 ^ 1 + 2 ^ 0
  /\ regmap_read d' MA35_FRAMEBUFFER_CONFIG
     = rmw (regmap_read d MA35_FRAMEBUFFER_CONFIG) MA35_PRIMARY_GAMMA
         (if gamma_lut st is Some _ then MA35_PRIMARY_GAMMA else 0)
  /\ regmap_read d' MA35_DPI_CONFIG = dpi_format crtc mod 8
  /\ (if dither_enable crtc then
        regmap_read d' MA35_DISPLAY_DITHER_TABLE_LOW = (dither_depth crtc mod 16) * 0x11111111
        /\ regmap_read d' MA35_DISPLAY_DITHER_TABLE_HIGH = (dither_depth crtc mod 16) * 0x11111111
        /\ regmap_read d' MA35_DISPLAY_DITHER_CONFIG = 2 ^ 31
      else
        regmap_read d' MA35_DISPLAY_DITHER_TABLE_LOW = regmap_read d MA35_DISPLAY_DITHER_TABLE_LOW
        /\ regmap_read d' MA35_DISPLAY_DITHER_TABLE_HIGH
           = regmap_read d MA35_DISPLAY_DITHER_TABLE_HIGH
        /\ regmap_read d' MA35_DISPLAY_DITHER_CONFIG = 0)
  /\ (forall r, r ∉ crtc_enable_regs -> regmap_read d' r = regmap_read d r).
Proof.
  intros m d'. subst d'. unfold ma35_crtc_atomic_enable. cbn [fst]. fold m.
  set (d1 := ma35_crtc_signals (ma35_crtc_timings d m) bus).
  set (d2 := regmap_write (ma35_crtc_gamma d1 st) _ _).
  assert (Hd1 : forall r, r ∉ crtc_enable_regs \/ r = MA35_FRAMEBUFFER_CONFIG
    \/ r = MA35_DISPLAY_DITHER_TABLE_LOW \/ r = MA35_DISPLAY_DITHER_TABLE_HIGH ->
    regmap_read d1 r = regmap_read d r).
  { intros r Hr. subst d1. unfold ma35_crtc_signals, ma35_crtc_timings, crtc_enable_regs in *.
    rewrite !not_elem_of_cons in Hr.
    assert (Hne : MA35_HDISPLAY <> r /\ MA35_HSYNC <> r /\ MA35_VDISPLAY <> r
      /\ MA35_VSYNC <> r /\ MA35_PANEL_CONFIG <> r).
    { destruct Hr as [Hr|[->|[->| ->]]]; [naive_solver|by vm_compute..]. }
    destruct Hne as (? & ? & ? & ? & ?). by rewrite !regmap_read_write_ne by done. }
  split; [|split; [|split; [|split; [|split; [|split; [|split; [|split]]]]]]].
  9: { intros r Hr. pose proof Hr as Hr'. unfold crtc_enable_regs in Hr'.
    rewrite !not_elem_of_cons in Hr'. destruct_and!.
    rewrite crtc_dither_other by done. subst d2.
    rewrite regmap_read_write_ne by (by apply not_eq_sym).
    rewrite crtc_gamma_other by done. apply Hd1. by left. }
  8: { unfold ma35_crtc_dither.
    change (Z.to_nat (MA35_DITHER_TABLE_ENTRY / 2)) with 8%nat. rewrite dither_word_depth.
    pose proof (Z.mod_pos_bound (dither_depth crtc) 16 ltac:(lia)).
    destruct (dither_enable crtc); rm_simp.
    - by rewrite !(u32_id (_ * _)) by (unfold is_u32; lia).
    - subst d2. rm_simp. rewrite !crtc_gamma_other, !Hd1 by (vm_compute; naive_solver).
      done. }
  all: rewrite crtc_dither_other by (vm_compute; discriminate).
  all: subst d2; rm_simp.
  6: { rewrite crtc_gamma_config, Hd1 by (by right; left). done. }
  6: { change MA35_DPI_FORMAT_MASK with (GENMASK 2 0). rewrite FIELD_PREP_word by lia.
    pose proof (Z.mod_pos_bound (dpi_format crtc) 8 ltac:(lia)).
    change (2 ^ (2 - 0 + 1)) with 8. rewrite Z.mul_1_r. apply u32_id. unfold is_u32. lia. }
  all: rewrite crtc_gamma_other by (vm_compute; discriminate).
  all: subst d1; unfold ma35_crtc_signals, ma35_crtc_timings; rm_simp.
  3,4: rewrite u32_id by apply sync_reg_u32; apply sync_reg_word.
  3: by destruct (truthy (bus .& DRM_BUS_FLAG_DE_LOW)),
      (truthy (bus .& DRM_BUS_FLAG_PIXDATA_DRIVE_NEGEDGE)).
  all: rewrite u32_id by (autounfold with ma35; solve_u32).
  all: apply (FIELD_PREP2_word 30 16 14); lia.
Qed.

(** The two gamma paths, by what they put on the bus. Enabling the CRTC
    with a changed table writes, for every entry in order, the entry's index
    and then its colours reduced from 16 to 10 bits. The legacy
    [ma35_crtc_gamma_set] accepts exactly 256 entries, resets the index once
    and writes the entries in order, but with the low 10 bits of each 16-bit
    colour instead of the high ones. *)
Theorem ma35_gamma_paths (d : D) lut rgb size :
  Forall lut_entry_typed lut ->
  (regmap_log (ma35_gamma_table d 0 lut) = regmap_log d ++ gamma_trace 0 lut
   /\ (forall e, e ∈ lut ->
       let w := gamma_word (red e .>> 6) (green e .>> 6) (blue e .>> 6) in
       FIELD_GET MA35_GAMMA_RED_MASK w = red e / 64
       /\ FIELD_GET MA35_GAMMA_GREEN_MASK w = green e / 64
       /\ FIELD_GET MA35_GAMMA_BLUE_MASK w = blue e / 64))
  /\ (let '(ret, d') := ma35_crtc_gamma_set d rgb size in
      if size =? 256 then
        ret = 0
        /\ regmap_log d' = regmap_log d ++ (MA35_GAMMA_INDEX, 0)
             :: ((fun '(r, g, b) => (MA35_GAMMA_DATA, gamma_word r g b)) <$> rgb)
      else ret = - EINVAL /\ d' = d)
  /\ (forall r g b,
       FIELD_GET MA35_GAMMA_RED_MASK (gamma_word r g b) = r mod 1024
       /\ FIELD_GET MA35_GAMMA_GREEN_MASK (gamma_word r g b) = g mod 1024
       /\ FIELD_GET MA35_GAMMA_BLUE_MASK (gamma_word r g b) = b mod 1024).
Proof.
  intros Hlut. split; [|split].
  - split; [apply gamma_table_log|]. intros e He. rewrite Forall_forall in Hlut.
    destruct (Hlut e He) as (Hr & Hg & Hb). unfold is_u16 in *. cbv zeta.
    assert (Hs : forall x, 0 <= x < 2 ^ 16 -> (x .>> 6) mod 2 ^ 10 = x / 64).
    { intros x Hx. rewrite Z.shiftr_div_pow2 by lia. change (2 ^ 6) with 64.
      apply Z.mod_small. split; [apply Z.div_pos; lia|apply Z.div_lt_upper_bound; lia]. }
    destruct (gamma_word_fields (red e .>> 6) (green e .>> 6) (blue e .>> 6)) as (-> & -> & ->).
    by rewrite !Hs.
  - unfold ma35_crtc_gamma_set. change MA35_GAMMA_TABLE_SIZE with 256.
    destruct (size =? 256); cbn [negb]; [|done]. split; [done|].
    rewrite gamma_set_log, regmap_log_write. by rewrite <- app_assoc.
  - intros r g b. apply gamma_word_fields.
Qed.

(** Interrupts and vblank events. The interrupt handler claims the
    interrupt iff the status bit is set, and then counts one frame modulo 2^32
    and reports one vblank, or does nothing else while there is no CRTC yet.
    Enabling and disabling the interrupt program its mask. A pending event is
    handed over exactly once: by the flush (armed or sent), or by the disable of
    an inactive CRTC; without one, nothing is sent. *)
Theorem ma35_vblank_delivery (d : D) crtc get event active :
  (let '(handled, crtc', ev) := ma35_drm_irq_handler d crtc in
   handled = Z.testbit (regmap_read d MA35_INT_STATE) 0
   /\ match crtc with
      | None => crtc' = None /\ ev = []
      | Some c => exists c', crtc' = Some c'
          /\ ma35_crtc_get_vblank_counter c'
             = (ma35_crtc_get_vblank_counter c + Z.b2z handled) mod 2 ^ 32
          /\ ev = if handled then [HandleVblank] else []
      end)
  /\ regmap_read (snd (ma35_crtc_enable_vblank d)) MA35_DISPLAY_INTRENABLE = 1
  /\ regmap_read (ma35_crtc_disable_vblank d) MA35_DISPLAY_INTRENABLE = 0
  /\ (let '(event', ev) := ma35_crtc_atomic_flush get event in
      event' = false /\ ev = if event then [if get =? 0 then ArmEvent else SendEvent] else [])
  /\ (let '(_, event', ev) := ma35_crtc_atomic_disable d event active in
      event' = (event && active)%bool
      /\ ev = VblankOff :: if (event && negb active)%bool then [SendEvent] else []).
Proof.
  split; [|split; [|split; [|split]]].
  - unfold ma35_drm_irq_handler, MA35_INT_STATE_DISP0. rewrite truthy_land_BIT by lia.
    destruct (Z.testbit _ 0), crtc as [c|]; cbn; split; try done.
    + eexists. split; [done|]. split; [|done].
      unfold ma35_crtc_get_vblank_counter. cbn [vblank_counter].
      unfold u32 at 2. rewrite Zplus_mod_idemp_l. apply u32_s32.
    + exists c. split; [done|]. split; [|done].
      rewrite Z.add_0_r. unfold ma35_crtc_get_vblank_counter. symmetry. apply u32_idemp.
  - unfold ma35_crtc_enable_vblank. cbn. by rm_simp.
  - unfold ma35_crtc_disable_vblank. by rm_simp.
  - unfold ma35_crtc_atomic_flush. destruct event; [by case_if|done].
  - unfold ma35_crtc_atomic_disable. by destruct event, active.
Qed.
End Theorems.

(** [ma35_crtc_atomic_check], for a mode clock below 2^21 kHz and a clock
    that answers an [int] rate: it returns 0 iff the pixel clock is at most
    150 MHz and the clock framework offers a positive rate, and then the
    adjusted clock is that rate in kHz rounded up; every rejection returns a
    positive mode status instead of a negative error code. *)
Theorem ma35_crtc_atomic_check_exact rate st :
  0 <= clock (mode st) < 2 ^ 21 -> is_s32 (rate (1000 * clock (mode st)) + 1000) ->
  let r := rate (1000 * clock (mode st)) in
  is_s32 r ->
  let '(ret, st') := ma35_crtc_atomic_check rate st in
  if (clock (mode st) <=? MA35_MAX_PIXEL_CLK) && (0 <? r) then
    ret = 0 /\ mode st' = mode st
    /\ 1000 * (clock (adjusted_mode st') - 1) < r <= 1000 * clock (adjusted_mode st')
  else (ret = 15 \/ ret = 17) /\ st' = st.
Proof.
  intros Hc Hr r Hr'. subst r. unfold ma35_crtc_atomic_check. cbv zeta.
  rewrite (Z.mul_comm (clock (mode st))). rewrite Z.gtb_ltb, (Z.leb_antisym MA35_MAX_PIXEL_CLK).
  destruct (MA35_MAX_PIXEL_CLK <? clock (mode st)); cbn [negb andb]; [split; [by left|done]|].
  rewrite (s32_id (1000 * _)) by (unfold is_s32; lia).
  rewrite (u64_id (1000 * _)) by (unfold is_u64; lia).
  set (r := rate _) in *. rewrite (s32_id r) by done. rewrite (Z.leb_antisym 0 r).
  destruct (Z.ltb_spec 0 r); cbn [negb]; [|split; [by right|done]].
  split; [done|]. split; [done|]. cbn [adjusted_mode clock].
  unfold is_s32 in *. rewrite s32_id by (unfold is_s32; lia).
  rewrite Z.quot_div_nonneg by lia.
  pose proof (Z.div_mod (r + 1000 - 1) 1000 ltac:(lia)).
  pose proof (Z.mod_pos_bound (r + 1000 - 1) 1000 ltac:(lia)). lia.
Qed.

(** ** Witnesses *)

Definition crtc_default : ma35_crtc := mkcrtc 0 MA35_DPI_D24 8 true.

(** The mode check bounds the visible size only: a line of 2^15 pixels or more
    in total is accepted and its top bit is lost in the register. *)
Definition mode_long_line : drm_display_mode :=
  {| mode_800x480 with hsync_start := 33000; hsync_end := 33128; htotal := 33256 |}.

Lemma long_line_truncated :
  ma35_crtc_mode_valid (mkcfg 32 1 1920 1080 32 32 false false) mode_long_line = MODE_OK
  /\ FIELD_GET MA35_DISPLAY_TOTAL_MASK
       (regmap_read (fst (ma35_crtc_atomic_enable regfile0 crtc_default 0
          {| cs_800x480 with adjusted_mode := mode_long_line |})) MA35_HDISPLAY)
     = 33256 - 2 ^ 15.
Proof. split; vm_compute; reflexivity. Qed.

Lemma ma35_crtc_enable_programs_witness :
  let d' := fst (ma35_crtc_atomic_enable regfile0 crtc_default DRM_BUS_FLAG_DE_LOW cs_800x480) in
  regmap_read d' MA35_HDISPLAY = 1056 * 2 ^ 16 + 800
  /\ regmap_read d' MA35_DISPLAY_DITHER_TABLE_LOW = 0x88888888.
Proof.
  pose proof (ma35_crtc_enable_programs regfile0 crtc_default DRM_BUS_FLAG_DE_LOW cs_800x480) as H.
  destruct H as (H & _ & _ & _ & _ & _ & _ & (Hd & _) & _). split; [exact H|exact Hd].
Defined.

Lemma ma35_gamma_paths_witness :
  regmap_log (ma35_gamma_table regfile0 0 [mklut 65535 32768 64; mklut 0 0 0])
  = [(MA35_GAMMA_INDEX, 0); (MA35_GAMMA_DATA, (1023 * 1024 + 512) * 1024 + 1);
     (MA35_GAMMA_INDEX, 1); (MA35_GAMMA_DATA, 0)].
Proof.
  pose proof (ma35_gamma_paths regfile0 [mklut 65535 32768 64; mklut 0 0 0] [] 0
    ltac:(repeat constructor; cbn; lia)) as [[H _] _].
  rewrite H. vm_compute. reflexivity.
Defined.

Lemma ma35_vblank_delivery_witness :
  let '(handled, _, ev) :=
    ma35_drm_irq_handler (regmap_write regfile0 MA35_INT_STATE 1) (Some crtc_default) in
  handled = true /\ ev = [HandleVblank].
Proof.
  pose proof (ma35_vblank_delivery (regmap_write regfile0 MA35_INT_STATE 1)
    (Some crtc_default) 0 true false) as [H _].
  destruct (ma35_drm_irq_handler _ _) as [[handled c'] ev].
  destruct H as (H & c1 & _ & _ & Hev). split; [exact H|]. rewrite Hev, H. reflexivity.
Defined.

Lemma ma35_crtc_atomic_check_exact_witness :
  fst (ma35_crtc_atomic_check (fun _ => 33333333) cs_800x480) = 0
  /\ 1000 * (33334 - 1) < 33333333 <= 1000 * 33334.
Proof.
  pose proof (ma35_crtc_atomic_check_exact (fun _ => 33333333) cs_800x480
    ltac:(split; by vm_compute) ltac:(split; by vm_compute) ltac:(split; by vm_compute)) as H.
  vm_compute in H. destruct H as (Hr & _ & H). vm_compute. split; [exact Hr|exact H].
Defined.
