(* ===== verification/Ma35Drm.v ===== *)
(** * Ma35Drm: the MA35 driver core
      (src/drm/nuvoton/ma35_drm.c, ma35_interface.c, and the registration
      functions of ma35_plane.c and ma35_crtc.c)

    Set-up code is a sequence of kernel calls with an answer each: it runs in
    the oracle monad of KernelApi, with the driver's own state threaded
    through.  A pointer is its address, a non-negative number, 0 for NULL; an
    error pointer is the negative errno it encodes. *)

From S2P Require Export KernelApi Uapi DrmDumb DrmFramebuffer Ma35Plane Ma35Crtc.

Definition MA35_DISPLAY_ALIGN_PIXELS : Z := 32.
Definition MA35_CURSOR_WIDTH : Z := 32.
Definition MA35_CURSOR_HEIGHT : Z := 32.
Definition MA35_DEFAULT_CRTC_ID : Z := 0.
Definition MA35_DEBUG_COUNTER_MASK : Z := GENMASK 31 0.

Definition IS_ERR (p : Z) : bool := p <? 0.

(** ** Dumb buffers *)

Definition ma35_drm_gem_dma_dumb_create (env : gem_env) (mode_config : drm_mode_config)
    (args : drm_mode_create_dumb) (tr : list gem_event)
  : Z * drm_mode_create_dumb * list gem_event :=
  if (d_width args <? min_width mode_config) || (d_height args <? min_height mode_config)
  then (- EINVAL, args, tr)
  else
    let pixel_align := u32 (MA35_DISPLAY_ALIGN_PIXELS * d_bpp args) / 8 in
    let pitch := ALIGN_u32 (u32 (d_width args * d_bpp args) / 8) pixel_align in
    drm_gem_dma_dumb_create_internal env {| args with d_pitch := pitch |} tr.

(** ** State and calls *)

(** A registered layer: the plane, its type and position in the stack. *)
Record ma35_layer_dev := mklayerdev {
  drm_plane_of : drm_plane; plane_type : drm_plane_type; zpos : Z
}.

Record ma35_interface := mkinterface {
  encoder_possible_crtcs : Z; drm_panel : Z; drm_bridge : Z; bus_flags : Z
}.

Record ma35_drm := mkdrm {
  layers_list : list ma35_layer_dev;
  crtc : option ma35_crtc;
  interface : option ma35_interface;
  mode_config : drm_mode_config;
  max_vblank_count : Z
}.

Inductive ma35_call : Set :=
| OfReservedMemDeviceInit | IoremapResource | RegmapInitMmio | PlatformGetIrq
| DrmDevAlloc | ClkGetBus | ClkGetPixel | RequestIrq
| ModeConfigInit | VblankInit
| Kzalloc
| UniversalPlaneInit (possible_crtcs : Z) (formats : list fourcc) (t : drm_plane_type)
| PlaneHelperAdd (t : drm_plane_type)
| CreateAlphaProperty | CreateBlendModeProperty (modes : Z) | CreateZposProperty (z : Z)
| CrtcInitWithPlanes (cursor : bool) | CrtcSetGammaSize (size : Z)
| CrtcEnableColorMgmt (size : Z) | CrtcHelperAdd
| EncoderAlloc | EncoderHelperAdd
| FindPanelOrBridge | FoundPanel | FoundBridge | PanelBridgeAdd (panel : Z)
| BridgeAttach (bridge : Z) | PanelBridgeRemove (bridge : Z)
| ConnectorInit | ConnectorHelperAdd | ConnectorAttachEncoder
| AddModesNoEdid (w h : Z) | SetPreferredMode (w h : Z) | PanelGetModes (panel : Z)
| ClkSetRate (rate : Z) | ClkGetRate
| ModeConfigReset | DrmDevRegister | DrmClientSetup
| AtomicShutdown | DrmDevUnregister | HelperSuspend | HelperResume.

Definition mprog (A : Type) : Type := prog ma35_call A.

(** ** Planes (ma35_plane.c) *)

Definition ma35_layer_create_properties (t : drm_plane_type) : mprog Z :=
  if alpha (ma35_plane_properties t) then
    do* ext CreateAlphaProperty in
    let* ret := ext (CreateBlendModeProperty
                       (BIT DRM_MODE_BLEND_PREMULTI .| BIT DRM_MODE_BLEND_COVERAGE)) in
    if truthy ret then pret ret else pret ret
  else pret 0.

Fixpoint ma35_layer_get_from_type (layers : list ma35_layer_dev) (t : drm_plane_type)
  : option ma35_layer_dev :=
  match layers with
  | [] => None
  | layer :: layers =>
      if decide (plane_type layer = t) then Some layer else ma35_layer_get_from_type layers t
  end.

Definition ma35_layer_create (priv : ma35_drm) (index : Z) (t : drm_plane_type)
  : mprog (Z * ma35_drm) :=
  let* layer := ext Kzalloc in
  if layer =? 0 then pret (- ENOMEM, priv)
  else
    let formats := if decide (t = DRM_PLANE_TYPE_CURSOR) then ma35_cursor_formats
                   else ma35_layer_formats in
    let crtcs := 1 .<< MA35_DEFAULT_CRTC_ID in
    let* ret := ext (UniversalPlaneInit crtcs formats t) in
    bail ret priv (
      do* ext (PlaneHelperAdd t) in
      (* a failure is only a warning *)
      do* ma35_layer_create_properties t in
      do* ext (CreateZposProperty index) in
      pret (0, {| priv with layers_list :=
        layers_list priv ++ [mklayerdev (mkplane crtcs formats None []) t index] |})).

Definition ma35_overlay_attach_crtc (drm_crtc_mask : Z) (priv : ma35_drm) : ma35_drm :=
  {| priv with layers_list :=
    (fun layer =>
       if decide (plane_type layer = DRM_PLANE_TYPE_OVERLAY)
       then {| layer with drm_plane_of :=
                 {| (drm_plane_of layer) with possible_crtcs := drm_crtc_mask |} |}
       else layer) <$> layers_list priv |}.

Definition ma35_plane_init (priv : ma35_drm) : mprog (Z * ma35_drm) :=
  let* r := ma35_layer_create priv 0 DRM_PLANE_TYPE_PRIMARY in
  let '(ret, priv) := r in
  bail ret priv (
    let* r := ma35_layer_create priv 1 DRM_PLANE_TYPE_OVERLAY in
    let '(ret, priv) := r in
    bail ret priv (
      let* r := ma35_layer_create priv 2 DRM_PLANE_TYPE_CURSOR in
      let '(ret, priv) := r in
      bail ret priv (pret (0, priv)))).

(** ** CRTC (ma35_crtc.c) *)

Definition ma35_crtc_create_properties (priv : ma35_drm) (c : ma35_crtc)
  : mprog (Z * ma35_drm) :=
  let c := {| c with dpi_format := MA35_DPI_D24; dither_enable := true; dither_depth := 8 |} in
  let priv := {| priv with crtc := Some c |} in
  let* ret := ext (CrtcSetGammaSize MA35_GAMMA_TABLE_SIZE) in
  bail ret priv (
    do* ext (CrtcEnableColorMgmt MA35_GAMMA_TABLE_SIZE) in
    pret (0, priv)).

Section Init.
(** [drm_crtc_mask] of the one CRTC and [dev_err_probe] of a code. *)
Variable drm_crtc_mask : Z.
Variable dev_err_probe : Z -> Z.

Definition ma35_crtc_init (priv : ma35_drm) : mprog (Z * ma35_drm) :=
  let* p := ext Kzalloc in
  if p =? 0 then pret (- ENOMEM, priv)
  else
    let c := mkcrtc 0 0 0 false in
    let priv := {| priv with crtc := Some c |} in
    match ma35_layer_get_from_type (layers_list priv) DRM_PLANE_TYPE_PRIMARY with
    | None => pret (- EINVAL, priv)
    | Some _ =>
        let cursor :=
          if ma35_layer_get_from_type (layers_list priv) DRM_PLANE_TYPE_CURSOR is Some _
          then true else false in
        let* ret := ext (CrtcInitWithPlanes cursor) in
        bail ret priv (
          let priv := ma35_overlay_attach_crtc drm_crtc_mask priv in
          let* r := ma35_crtc_create_properties priv c in
          let '(ret, priv) := r in
          bail ret priv (
            do* ext CrtcHelperAdd in
            pret (0, priv)))
    end.

(** ** Encoder, bridge and connector (ma35_interface.c) *)

Definition ma35_encoder_mode_set (adjusted_mode : drm_display_mode) : mprog unit :=
  do* ext (ClkSetRate (u64 (s32 (clock adjusted_mode * 1000)))) in
  do* ext ClkGetRate in
  pret tt.

Definition ma35_encoder_atomic_check (i : ma35_interface) (info_bus_flags : Z)
  : Z * ma35_interface :=
  (0, {| i with bus_flags := info_bus_flags |}).

Definition ma35_connector_get_modes (cfg : drm_mode_config) (i : ma35_interface)
  : mprog Z :=
  if drm_panel i =? 0 then
    let* count := ext (AddModesNoEdid (max_width cfg) (max_height cfg)) in
    do* ext (SetPreferredMode (max_width cfg) (max_height cfg)) in
    pret count
  else ext (PanelGetModes (drm_panel i)).

Definition ma35_encoder_attach_crtc (i : ma35_interface) : ma35_interface :=
  {| i with encoder_possible_crtcs := drm_crtc_mask |}.

(** [drm_of_find_panel_or_bridge] answers an error code and stores two
    pointers: three answers. *)
Definition ma35_bridge_try_attach (i : ma35_interface) : mprog (Z * ma35_interface) :=
  let* ret := ext FindPanelOrBridge in
  if truthy ret then pret (ret, i)
  else
    let* panel := ext FoundPanel in
    let* found := ext FoundBridge in
    let* bridge := if truthy panel then ext (PanelBridgeAdd panel) else pret found in
    if truthy panel && IS_ERR bridge then pret (bridge, i)
    else
      let i := {| i with drm_panel := panel; drm_bridge := bridge |} in
      let* ret := ext (BridgeAttach bridge) in
      if truthy ret then
        do* if truthy panel then ext (PanelBridgeRemove bridge) else pret 0 in
        pret (ret, i)
      else pret (0, i).

Definition ma35_interface_init (priv : ma35_drm) : mprog (Z * ma35_drm) :=
  let* p := ext EncoderAlloc in
  if IS_ERR p then pret (p, priv)
  else
    do* ext EncoderHelperAdd in
    let i := ma35_encoder_attach_crtc (mkinterface 0 0 0 0) in
    let* r := ma35_bridge_try_attach i in
    let '(ret, i) := r in
    let priv := {| priv with interface := Some i |} in
    if negb (truthy ret) then pret (0, priv)
    else
      let* ret := ext ConnectorInit in
      bail ret priv (
        do* ext ConnectorHelperAdd in
        let* ret := ext ConnectorAttachEncoder in
        bail ret priv (pret (ret, priv))).

(** ** Probe (ma35_drm.c) *)

Definition ma35_mode_init (priv : ma35_drm) : mprog (Z * ma35_drm) :=
  let* ret := ext ModeConfigInit in
  bail ret priv (
    let priv := {| priv with max_vblank_count := MA35_DEBUG_COUNTER_MASK |} in
    let* ret := ext VblankInit in
    bail ret priv (
      let cfg := mode_config priv in
      pret (0, {| priv with mode_config :=
        {| cfg with min_width := 32; max_width := 1920; min_height := 1; max_height := 1080;
                    cursor_width := MA35_CURSOR_WIDTH; cursor_height := MA35_CURSOR_HEIGHT |} |}))).

(** A step of the probe that may return an error through [dev_err_probe]. *)
Definition probe_step (bad : Z -> bool) (e : ma35_call) (priv : ma35_drm)
    (k : mprog (Z * ma35_drm)) : mprog (Z * ma35_drm) :=
  let* ret := ext e in
  if bad ret then pret (dev_err_probe ret, priv) else k.

Definition probe_init (init : ma35_drm -> mprog (Z * ma35_drm)) (priv : ma35_drm)
    (k : ma35_drm -> mprog (Z * ma35_drm)) : mprog (Z * ma35_drm) :=
  let* r := init priv in
  let '(ret, priv) := r in
  if truthy ret then pret (dev_err_probe ret, priv) else k priv.

Definition ma35_drm_probe (priv : ma35_drm) : mprog (Z * ma35_drm) :=
  probe_step (fun ret => truthy ret && negb (ret =? - ENODEV)) OfReservedMemDeviceInit priv (
  probe_step IS_ERR IoremapResource priv (
  probe_step IS_ERR RegmapInitMmio priv (
  probe_step (fun irq => irq <? 0) PlatformGetIrq priv (
  probe_step IS_ERR DrmDevAlloc priv (
  probe_step IS_ERR ClkGetBus priv (
  probe_step IS_ERR ClkGetPixel priv (
  probe_step truthy RequestIrq priv (
  probe_init ma35_mode_init priv (fun priv =>
  probe_init ma35_plane_init priv (fun priv =>
  probe_init ma35_crtc_init priv (fun priv =>
  probe_init ma35_interface_init priv (fun priv =>
  do* ext ModeConfigReset in
  probe_step truthy DrmDevRegister priv (
  do* ext DrmClientSetup in
  pret (0, priv)))))))))))))).

End Init.

Definition ma35_drm_remove : mprog unit :=
  do* ext AtomicShutdown in do* ext DrmDevUnregister in pret tt.
Definition ma35_drm_shutdown : mprog unit := do* ext AtomicShutdown in pret tt.
Definition ma35_drm_suspend : mprog Z := ext HelperSuspend.
Definition ma35_drm_resume : mprog Z := ext HelperResume.

(** ** Facts: set-up *)

(** The answers that are failures: an errno, an error pointer or NULL.  Every
    other call either returns nothing or is tried without consequence - the
    blend-mode property is only a warning, and without a bridge the driver
    makes its own connector. *)
Definition fatal (e : ma35_call) (v : Z) : Prop :=
  match e with
  | OfReservedMemDeviceInit => v <> 0 /\ v <> - ENODEV
  | IoremapResource | RegmapInitMmio | PlatformGetIrq | DrmDevAlloc
  | ClkGetBus | ClkGetPixel | EncoderAlloc => v < 0
  | RequestIrq | ModeConfigInit | VblankInit | UniversalPlaneInit _ _ _
  | CrtcInitWithPlanes _ | CrtcSetGammaSize _ | ConnectorInit | ConnectorAttachEncoder
  | DrmDevRegister => v <> 0
  | Kzalloc => v = 0
  | _ => False
  end.

(** What is returned for one. *)
Definition errno_of (e : ma35_call) (v : Z) : Z :=
  match e with Kzalloc => - ENOMEM | _ => v end.

(** No call of [new], made after [tr], failed. *)
Fixpoint all_ok (o : list ma35_call -> ma35_call -> Z) (tr new : list ma35_call) : Prop :=
  match new with
  | [] => True
  | e :: new => ~ fatal e (o tr e) /\ all_ok o (tr ++ [e]) new
  end.

(** A set-up that failed with [ret]: its last call is the one that failed. *)
Definition fails (o : list ma35_call -> ma35_call -> Z) (tr new : list ma35_call) (ret : Z) : Prop :=
  exists pre e, new = pre ++ [e] /\ all_ok o tr pre
    /\ fatal e (o (tr ++ pre) e) /\ ret = errno_of e (o (tr ++ pre) e).

Lemma all_ok_app o a : forall tr b, all_ok o tr (a ++ b) <-> all_ok o tr a /\ all_ok o (tr ++ a) b.
Proof.
  induction a as [|e a IH]; intros tr b; cbn [all_ok app].
  - rewrite app_nil_r. tauto.
  - rewrite IH, <- app_assoc. cbn [app]. tauto.
Qed.

Lemma all_ok_fatal o new : forall tr pre e post,
  all_ok o tr new -> new = pre ++ e :: post -> fatal e (o (tr ++ pre) e) -> False.
Proof.
  intros tr pre e post Hok -> Hf. apply all_ok_app in Hok as [_ [Hok _]]. by apply Hok.
Qed.

Lemma fails_app o tr a b ret : all_ok o tr a -> fails o (tr ++ a) b ret -> fails o tr (a ++ b) ret.
Proof.
  intros Ha (pre & e & -> & Hp & Hf & Hr). exists (a ++ pre), e. rewrite !app_assoc.
  split; [done|]. split; [by apply all_ok_app|]. done.
Qed.

(** Nothing is called after the first failure. *)
Lemma fails_first o tr ret pre e post :
  fails o [] tr ret -> tr = pre ++ e :: post -> fatal e (o pre e) ->
  post = [] /\ ret = errno_of e (o pre e).
Proof.
  intros (pre' & e' & Htr & Hok & Hf & Hr) Hd Hfe. cbn [app] in *.
  destruct post as [|p post _] using rev_ind.
  - rewrite Hd in Htr. by apply app_inj_tail in Htr as [-> ->].
  - exfalso. rewrite Hd in Htr.
    change (pre ++ e :: post ++ [p]) with (pre ++ (e :: post) ++ [p]) in Htr.
    rewrite app_assoc in Htr. apply app_inj_tail in Htr as [<- <-].
    by apply (all_ok_fatal o _ [] pre e post Hok eq_refl).
Qed.

(** The calls that make the device visible to user space. *)
Definition publishes (e : ma35_call) : bool :=
  match e with DrmDevRegister | DrmClientSetup => true | _ => false end.

(** What every stage of the set-up guarantees: it only adds calls, none of
    which publishes the device; it ends as [Q] says, all calls answered
    without failure, or with the first call that failed. *)
Definition stage (o : list ma35_call -> ma35_call -> Z) (tr : list ma35_call)
    (Q : ma35_drm -> Prop) : Z * ma35_drm -> list ma35_call -> Prop :=
  fun '(ret, priv') tr' =>
    exists new, tr' = tr ++ new /\ Forall (fun e => publishes e = false) new
      /\ (ret = 0 -> all_ok o tr new /\ Q priv') /\ (ret <> 0 -> fails o tr new ret).

Lemma stage_fail o tr Q ret priv t1 e pre :
  t1 = tr ++ pre -> Forall (fun e => publishes e = false) (pre ++ [e]) -> ret <> 0 ->
  all_ok o tr pre -> fatal e (o t1 e) -> ret = errno_of e (o t1 e) ->
  stage o tr Q (ret, priv) (t1 ++ [e]).
Proof.
  intros -> Hn Hr Hok Hf He. exists (pre ++ [e]). rewrite app_assoc.
  repeat split; try done. intros _. by exists pre, e.
Qed.

Lemma stage_ok o tr (Q : ma35_drm -> Prop) ret priv tr' new :
  tr' = tr ++ new -> Forall (fun e => publishes e = false) new -> ret = 0 ->
  all_ok o tr new -> Q priv -> stage o tr Q (ret, priv) tr'.
Proof. intros -> Hn Hr Hok Hq. exists new. by repeat split. Qed.

(** The rest of a computation after a stage. *)
Lemma wp_stage o tr0 tr (Q1 Q : ma35_drm -> Prop) p k new0 :
  wp p o tr (stage o tr Q1) ->
  tr = tr0 ++ new0 -> Forall (fun e => publishes e = false) new0 -> all_ok o tr0 new0 ->
  (forall priv' new, Forall (fun e => publishes e = false) new -> all_ok o tr0 new ->
     Q1 priv' -> wp (k priv') o (tr0 ++ new) (stage o tr0 Q)) ->
  wp (let* r := p in let '(ret, priv) := r in bail ret priv (k priv)) o tr (stage o tr0 Q).
Proof.
  intros Hp -> Hn Hok Hk. apply wp_bind. eapply wp_mono; [exact Hp|].
  intros [ret priv'] tr' (new & -> & Hnew & H0 & Hf). apply wp_bail; intros Hr.
  - exists (new0 ++ new). rewrite app_assoc. split; [done|]. split; [by apply Forall_app|].
    split; [done|]. intros _. by apply fails_app, Hf.
  - destruct (H0 Hr) as [Hok' Hq]. rewrite <- app_assoc.
    apply Hk; [by apply Forall_app|by apply all_ok_app|done].
Qed.

Lemma snoc_tr {A} (tr t n : list A) e : t = tr ++ n -> t ++ [e] = tr ++ (n ++ [e]).
Proof. intros ->. symmetry. apply app_assoc. Qed.

(** Trace bookkeeping: the new part of a trace is built call by call. *)
Ltac tr_solve := repeat eapply snoc_tr; symmetry; apply app_nil_r.
Ltac quiet := rewrite ?Forall_app; once (repeat first [split | constructor]); try done.
Ltac ok_solve := cbn [all_ok fatal app]; split_and?; first [done | lia | tauto].
Ltac stage_step :=
  first
  [ eapply stage_ok; [tr_solve|quiet|first [reflexivity|assumption]|ok_solve|]
  | eapply stage_fail;
      [tr_solve|quiet|first [done|lia]|ok_solve|cbn [fatal]; lia|reflexivity] ].

Definition layer_of (t : drm_plane_type) (index : Z) : ma35_layer_dev :=
  mklayerdev (mkplane 1 (if decide (t = DRM_PLANE_TYPE_CURSOR) then ma35_cursor_formats
                         else ma35_layer_formats) None []) t index.

Lemma layer_create_spec o tr priv index t :
  wp (ma35_layer_create priv index t) o tr (stage o tr (fun priv' =>
    priv' = {| priv with layers_list := layers_list priv ++ [layer_of t index] |})).
Proof.
  unfold ma35_layer_create, ma35_layer_create_properties. wp_steps; zb; once stage_step.
  all: done.
Qed.

Lemma plane_init_spec o tr priv :
  wp (ma35_plane_init priv) o tr (stage o tr (fun priv' =>
    priv' = {| priv with layers_list := layers_list priv ++
      [layer_of DRM_PLANE_TYPE_PRIMARY 0; layer_of DRM_PLANE_TYPE_OVERLAY 1;
       layer_of DRM_PLANE_TYPE_CURSOR 2] |})).
Proof.
  unfold ma35_plane_init.
  eapply wp_stage; [apply layer_create_spec|symmetry; apply app_nil_r|quiet|done|].
  intros p1 n1 H1 O1 ->. eapply wp_stage; [apply layer_create_spec|done|done|done|].
  intros p2 n2 H2 O2 ->. eapply wp_stage; [apply layer_create_spec|done|done|done|].
  intros p3 n3 H3 O3 ->. eapply stage_ok; [done|done|done|done|]. cbn. by rewrite <- !app_assoc.
Qed.

Section InitFacts.
Variable drm_crtc_mask : Z.
Variable dev_err_probe : Z -> Z.

(** The configured CRTC. *)
Definition crtc_init_state : ma35_crtc := mkcrtc 0 MA35_DPI_D24 8 true.

Lemma crtc_init_spec o tr priv primary :
  ma35_layer_get_from_type (layers_list priv) DRM_PLANE_TYPE_PRIMARY = Some primary ->
  wp (ma35_crtc_init drm_crtc_mask priv) o tr (stage o tr (fun priv' =>
    priv' = {| (ma35_overlay_attach_crtc drm_crtc_mask priv) with crtc := Some crtc_init_state |})).
Proof.
  intros Hp. unfold ma35_crtc_init, ma35_crtc_create_properties. cbn [layers_list]. rewrite Hp.
  wp_steps; zb; try (once stage_step).
  all: try done.
Qed.

Lemma interface_init_spec o tr priv :
  wp (ma35_interface_init drm_crtc_mask priv) o tr (stage o tr (fun priv' =>
    exists i, priv' = {| priv with interface := Some i |}
      /\ encoder_possible_crtcs i = drm_crtc_mask)).
Proof.
  unfold ma35_interface_init, ma35_bridge_try_attach, IS_ERR. wp_steps; zb; try (once stage_step).
  all: eexists; split; reflexivity.
Qed.

Lemma mode_init_spec o tr priv :
  wp (ma35_mode_init priv) o tr (stage o tr (fun priv' =>
    layers_list priv' = layers_list priv /\ max_vblank_count priv' = 2 ^ 32 - 1
    /\ min_width (mode_config priv') = 32 /\ max_width (mode_config priv') = 1920
    /\ min_height (mode_config priv') = 1 /\ max_height (mode_config priv') = 1080)).
Proof.
  unfold ma35_mode_init. wp_steps; zb; try (once stage_step).
  all: done.
Qed.
End InitFacts.

(** ** Main theorems *)

(** The calls before mode setting, in this order. *)
Definition bring_up : list ma35_call :=
  [OfReservedMemDeviceInit; IoremapResource; RegmapInitMmio; PlatformGetIrq; DrmDevAlloc;
   ClkGetBus; ClkGetPixel; RequestIrq].

Definition ma35_drm0 : ma35_drm := mkdrm [] None None (mkcfg 0 0 0 0 0 0 false false) 0.

(** The driver after a successful probe. *)
Definition ma35_ready (mask : Z) (priv : ma35_drm) : Prop :=
  layers_list priv
  = [layer_of DRM_PLANE_TYPE_PRIMARY 0;
     mklayerdev (mkplane mask ma35_layer_formats None []) DRM_PLANE_TYPE_OVERLAY 1;
     layer_of DRM_PLANE_TYPE_CURSOR 2]
  /\ crtc priv = Some crtc_init_state
  /\ (exists i, interface priv = Some i /\ encoder_possible_crtcs i = mask)
  /\ max_vblank_count priv = 2 ^ 32 - 1
  /\ min_width (mode_config priv) = 32 /\ max_width (mode_config priv) = 1920
  /\ min_height (mode_config priv) = 1 /\ max_height (mode_config priv) = 1080.

(** The probe's postcondition. *)
Definition probe_post (mask : Z) (o : list ma35_call -> ma35_call -> Z)
  : Z * ma35_drm -> list ma35_call -> Prop :=
  fun '(ret, priv) tr =>
    take 8 tr `prefix_of` bring_up
    /\ (ret = 0 -> all_ok o [] tr /\ ma35_ready mask priv
        /\ exists mid, tr = bring_up ++ mid ++ [ModeConfigReset; DrmDevRegister; DrmClientSetup]
           /\ Forall (fun e => publishes e = false) mid)
    /\ (ret <> 0 -> fails o [] tr ret /\ DrmClientSetup ∉ tr).

Lemma quiet_no_client (tr : list ma35_call) :
  Forall (fun e => publishes e = false) tr -> DrmClientSetup ∉ tr.
Proof. rewrite Forall_forall. intros H Hin. by apply H in Hin. Qed.

Lemma probe_post_early mask o priv t1 e ret :
  t1 ++ [e] `prefix_of` bring_up -> all_ok o [] t1 -> fatal e (o t1 e) ->
  ret = errno_of e (o t1 e) -> ret <> 0 -> probe_post mask o (ret, priv) (t1 ++ [e]).
Proof.
  intros Hp Hok Hf He Hr. split; [|split; [done|]].
  - etrans; [apply prefix_take|done].
  - intros _. split; [by exists t1, e|]. intros Hin. destruct Hp as [k Hk].
    assert (DrmClientSetup ∈ bring_up) as Hb by (rewrite Hk, elem_of_app; by left).
    by apply (quiet_no_client bring_up) in Hb; [|quiet].
Qed.

(** A stage of the probe, after the bring-up calls. *)
Lemma probe_stage mask o dep new0 (Q1 : ma35_drm -> Prop) p k :
  (forall e, dep e = e) -> Forall (fun e => publishes e = false) new0 ->
  all_ok o [] (bring_up ++ new0) ->
  wp p o (bring_up ++ new0) (stage o (bring_up ++ new0) Q1) ->
  (forall priv new, Forall (fun e => publishes e = false) new ->
     all_ok o [] (bring_up ++ new) -> Q1 priv ->
     wp (k priv) o (bring_up ++ new) (probe_post mask o)) ->
  wp (let* r := p in let '(ret, priv) := r in
      if truthy ret then pret (dep ret, priv) else k priv) o (bring_up ++ new0)
    (probe_post mask o).
Proof.
  intros Hdep Hn0 Hok Hp Hk. apply wp_bind. eapply wp_mono; [exact Hp|].
  intros [ret priv] tr (new & -> & Hn & H0 & Hf).
  assert (Hq : Forall (fun e => publishes e = false) (new0 ++ new)) by (by apply Forall_app).
  apply wp_if; intros Ht; unfold truthy in Ht; zb.
  - apply wp_ret. rewrite Hdep. split; [done|]. split; [done|]. intros Hr. split.
    + apply fails_app; [done|]. by apply Hf.
    + rewrite <- app_assoc. apply quiet_no_client, Forall_app. split; [quiet|done].
  - destruct (H0 Ht) as [Hok' Hq']. rewrite <- app_assoc. apply Hk; [done| |done].
    rewrite app_assoc. by apply all_ok_app.
Qed.

(** The bring-up: eight calls, each failure returned at once. *)
Lemma probe_bring_up mask dep o priv k :
  (forall e, dep e = e) ->
  (all_ok o [] bring_up -> wp k o bring_up (probe_post mask o)) ->
  wp (probe_step dep (fun ret => truthy ret && negb (ret =? - ENODEV)) OfReservedMemDeviceInit priv (
      probe_step dep IS_ERR IoremapResource priv (
      probe_step dep IS_ERR RegmapInitMmio priv (
      probe_step dep (fun irq => irq <? 0) PlatformGetIrq priv (
      probe_step dep IS_ERR DrmDevAlloc priv (
      probe_step dep IS_ERR ClkGetBus priv (
      probe_step dep IS_ERR ClkGetPixel priv (
      probe_step dep truthy RequestIrq priv k)))))))) o [] (probe_post mask o).
Proof.
  intros Hdep Hk. unfold probe_step, IS_ERR.
  do 8 (apply wp_bind, wp_ext, wp_if; intros ?;
    [apply wp_ret; rewrite Hdep; apply probe_post_early;
       [by eexists|unfold truthy in *; zb; cbn [app] in *; ok_solve
       |cbn [fatal]; unfold truthy in *; zb; lia|done|unfold truthy in *; zb; lia]|]).
  apply Hk. unfold truthy in *. zb. cbn [all_ok fatal bring_up app] in *.
  split_and!; first [done | lia].
Qed.

(** C32: Probing the MA35 display.  The set-up starts with its eight bring-up calls, in
    order.  It stops at the first call that fails: nothing is called after it, and its
    errno is what the probe returns, unchanged - [-ENOMEM] for an allocation that gives
    NULL - whichever call it is, from the reserved memory to the registration of the
    device.  It returns an error only then, and then no client was started.  When it
    returns 0 the device is ready, its planes, CRTC and interface set up, and it was
    made visible - reset, registered, client started, in this order - after everything
    else.  (Which answers are failures is what the code tests: [fatal].) *)
Theorem ma35_probe_sound mask dev_err_probe o :
  (forall e, dev_err_probe e = e) ->
  let '((ret, priv), tr) := run (ma35_drm_probe mask dev_err_probe ma35_drm0) o in
  take 8 tr `prefix_of` bring_up
  /\ (forall pre e post, tr = pre ++ e :: post -> fatal e (o pre e) ->
       post = [] /\ ret = errno_of e (o pre e) /\ ret <> 0)
  /\ (ret <> 0 -> (exists pre e, tr = pre ++ [e] /\ fatal e (o pre e)
                     /\ ret = errno_of e (o pre e))
      /\ DrmClientSetup ∉ tr)
  /\ (ret = 0 -> ma35_ready mask priv
      /\ exists mid, tr = bring_up ++ mid ++ [ModeConfigReset; DrmDevRegister; DrmClientSetup]
         /\ Forall (fun e => publishes e = false) mid).
Proof.
  intros Hdep.
  enough (Hwp : wp (ma35_drm_probe mask dev_err_probe ma35_drm0) o [] (probe_post mask o)).
  { unfold wp, run in *. destruct (ma35_drm_probe _ _ _ _ _) as [[ret priv] tr].
    destruct Hwp as (Hp & H0 & Hf). split; [done|]. split; [|split].
    - intros pre e post Htr Hfe. destruct (decide (ret = 0)) as [Hr|Hr].
      + destruct (H0 Hr) as [Hok _]. by destruct (all_ok_fatal o tr [] pre e post Hok Htr Hfe).
      + destruct (Hf Hr) as [Hfl _]. by destruct (fails_first o tr ret pre e post Hfl Htr Hfe) as [-> ->].
    - intros Hr. destruct (Hf Hr) as [(pre & e & -> & _ & Hfe & He) Hn]. split; [|done].
      by exists pre, e.
    - intros Hr. by destruct (H0 Hr) as [_ H]. }
  unfold ma35_drm_probe. apply probe_bring_up; [done|]. intros O0.
  unfold probe_init. change (wp ?p o _ ?Q) with (wp p o (bring_up ++ []) Q).
  eapply probe_stage; [done|constructor|by rewrite app_nil_r|apply mode_init_spec|].
  intros p1 n1 H1 O1 Hm. eapply probe_stage; [done|done|done|apply plane_init_spec|].
  intros p2 n2 H2 O2 ->. eapply probe_stage; [done|done|done|eapply crtc_init_spec; cbn|].
  { by rewrite (proj1 Hm). }
  intros p3 n3 H3 O3 ->. eapply probe_stage; [done|done|done|apply interface_init_spec|].
  intros p4 n4 H4 O4 (i & -> & Hi). apply wp_bind, wp_ext, wp_bind, wp_ext.
  assert (O5 : all_ok o [] ((bring_up ++ n4) ++ [ModeConfigReset])).
  { apply all_ok_app. split; [done|]. cbn [all_ok fatal]. tauto. }
  apply wp_if; intros Hc; unfold truthy in Hc; zb.
  - apply wp_ret. rewrite Hdep. split; [by rewrite <- !app_assoc|]. split; [done|]. intros _. split.
    + exists ((bring_up ++ n4) ++ [ModeConfigReset]), DrmDevRegister.
      split; [done|]. split; [exact O5|]. split; [exact Hc|done].
    + rewrite !elem_of_app, !list_elem_of_singleton. intros [[[Hin|Hin]|Hin]|Hin]; try done;
        [by apply (quiet_no_client bring_up) in Hin; [|quiet]|by apply quiet_no_client in Hin].
  - apply wp_bind, wp_ext, wp_ret. split; [by rewrite <- !app_assoc|]. split; [|done]. intros _.
    split; [|split].
    + apply all_ok_app. split; [apply all_ok_app; split; [exact O5|]|].
      * split; [intros Hx; apply Hx; exact Hc|done].
      * cbn [all_ok fatal]. tauto.
    + destruct Hm as (Hl & Hv & Hcfg). unfold ma35_ready. cbn. rewrite Hl. cbn.
      split; [done|]. split; [done|]. split; [by exists i|]. done.
    + exists n4. split; [|done]. by rewrite <- !app_assoc.
Qed.

(** The driver's dumb-buffer hook, for a bpp that is a power of two of at
    least a byte and a line that does not overflow 32 bits when padded to 32
    pixels. Requests below the minimum size are rejected untouched; otherwise
    the pitch is the line rounded up to 32 pixels, the smallest such pitch, the
    size covers all lines when that fits 32 bits, and on success exactly one
    object with one reference exists, held by the returned handle, and on
    failure none. *)
Theorem ma35_dumb_create_sound env cfg args tr k :
  dumb_typed args -> 3 <= k <= 5 -> d_bpp args = 2 ^ k ->
  d_width args * d_bpp args + 32 * d_bpp args < 2 ^ 32 ->
  let '(ret, args', tr') := ma35_drm_gem_dma_dumb_create env cfg args tr in
  if (d_width args <? min_width cfg) || (d_height args <? min_height cfg)
  then ret = - EINVAL /\ args' = args /\ tr' = tr
  else
    let a := MA35_DISPLAY_ALIGN_PIXELS * d_bpp args in
    (8 * d_pitch args') mod a = 0
    /\ d_width args * d_bpp args <= 8 * d_pitch args' < d_width args * d_bpp args + a
    /\ (d_pitch args' * d_height args < 2 ^ 32 ->
        d_pitch args' * d_height args <= d_size args')
    /\ d_width args' = d_width args /\ d_height args' = d_height args
    /\ d_bpp args' = d_bpp args
    /\ obj_refs tr' = obj_refs tr + (if ret =? 0 then 1 else 0)
    /\ (ret = 0 -> d_handle args' = snd (env_handle_create env)).
Proof.
  intros Ht Hk Hb Hw. unfold ma35_drm_gem_dma_dumb_create.
  destruct (_ || _)%bool; [done|].
  destruct Ht as (Hh & Hwt & _ & _ & Hs). unfold is_u32 in Hh, Hwt.
  change MA35_DISPLAY_ALIGN_PIXELS with 32.
  set (w := d_width args) in *. rewrite Hb in *.
  assert (Hp8 : 2 ^ k = 8 * 2 ^ (k - 3)) by (change 8 with (2 ^ 3); rewrite <- Z.pow_add_r by lia; f_equal; lia).
  assert (Hpk : 1 <= 2 ^ (k - 3) <= 4).
  { split; [pose proof (Z.pow_pos_nonneg 2 (k - 3)); lia|change 4 with (2 ^ 2); apply Z.pow_le_mono_r; lia]. }
  assert (Hal : u32 (32 * 2 ^ k) / 8 = 2 ^ (k + 2)).
  { rewrite u32_id by (unfold is_u32; lia). replace (2 ^ (k + 2)) with (4 * 2 ^ k)
      by (rewrite Z.pow_add_r by lia; change (2 ^ 2) with 4; lia).
    rewrite Hp8. replace (32 * (8 * 2 ^ (k - 3))) with (32 * 2 ^ (k - 3) * 8) by lia.
    rewrite Z.div_mul by lia. lia. }
  assert (Hln : u32 (w * 2 ^ k) / 8 = w * 2 ^ (k - 3)).
  { rewrite u32_id by (unfold is_u32; lia). rewrite Hp8.
    replace (w * (8 * 2 ^ (k - 3))) with (w * 2 ^ (k - 3) * 8) by lia. by rewrite Z.div_mul. }
  rewrite Hal, Hln.
  destruct (ALIGN_u32_pow2 (w * 2 ^ (k - 3)) (k + 2)) as (Hm & Hr & Ha);
    [unfold is_u32; lia|lia|].
  assert (Hak : 2 ^ (k + 2) = 32 * 2 ^ (k - 3)) by
    (rewrite (Z.pow_add_r 2 k 2), Hp8 by lia; change (2 ^ 2) with 4; lia).
  pose proof (ALIGN_u32_pow2_fits (w * 2 ^ (k - 3)) (k + 2) ltac:(unfold is_u32; lia)
    ltac:(lia) ltac:(lia)) as Hf.
  clear Ha Hal Hln. set (p := ALIGN_u32 _ _) in *. clearbody p. unfold is_u32 in Hr.
  pose proof (dumb_internal_spec env
    (mkdumb (d_height args) w (2 ^ k) (d_handle args) p (d_size args)) tr) as Hi.
  destruct (drm_gem_dma_dumb_create_internal _ _ _) as [[ret args'] tr'].
  cbn [d_width d_height d_bpp d_pitch d_size] in Hi.
  destruct Hi as (H2 & _ & _ & H4 & H5 & H6 & H7 & H8 & H9);
    [unfold dumb_typed; cbn; unfold is_u32; repeat split; try lia; apply Hs|].
  assert (Hpp : d_pitch args' = p).
  { rewrite H2. apply Z.max_l. rewrite (u32_id (w * _)), u32_id by (unfold is_u32; lia).
    rewrite Hp8. apply Z.lt_succ_r, Z.div_lt_upper_bound; lia. }
  rewrite Hpp in *. cbv zeta. split.
  { apply Z.mod_divide; [lia|]. apply Z.mod_divide in Hm as [c ->]; [|lia]. exists c. lia. }
  split; [lia|]. split; [exact H4|]. do 4 (split; [done|]). intros Hret. by apply H9.
Qed.

(** ** Witnesses *)

(** A kernel that answers 0 to calls that report an error code and an address
    to calls that return a pointer. *)
Definition kernel_ok (_ : list ma35_call) (e : ma35_call) : Z :=
  match e with Kzalloc | FoundPanel | PanelBridgeAdd _ => 4096 | _ => 0 end.

Lemma ma35_probe_sound_witness :
  let '((ret, priv), tr) := run (ma35_drm_probe 1 (fun e => e) ma35_drm0) kernel_ok in
  ret = 0 /\ ma35_ready 1 priv.
Proof.
  pose proof (ma35_probe_sound 1 (fun e => e) kernel_ok (fun e => eq_refl)) as H.
  assert (Hret : fst (fst (run (ma35_drm_probe 1 (fun e => e) ma35_drm0) kernel_ok)) = 0)
    by reflexivity.
  destruct (run _ _) as [[ret priv] tr]. cbn in Hret. destruct H as (_ & _ & _ & H).
  split; [exact Hret|]. exact (proj1 (H Hret)).
Defined.

Definition dumb_33x10 : drm_mode_create_dumb := mkdumb 10 33 16 0 0 0.

Lemma ma35_dumb_create_sound_witness :
  let a := snd (fst (ma35_drm_gem_dma_dumb_create env_ok plain_cfg dumb_33x10 [])) in
  d_pitch a = 128 /\ 128 * 10 <= d_size a.
Proof.
  pose proof (ma35_dumb_create_sound env_ok plain_cfg dumb_33x10 [] 4
    ltac:(vm_compute; intuition discriminate) ltac:(lia) eq_refl ltac:(vm_compute; reflexivity)) as H.
  vm_compute in H. destruct H as (_ & _ & H & _). vm_compute.
  split; [reflexivity|exact (H eq_refl)].
Defined.
