(* ===== verification/Ma35Display.v ===== *)
(** * Ma35Display: the MA35 display, from request to registers
      (src/drm/nuvoton, the helper tables of all its files)

    The driver behind the atomic core: its hooks answer the checks of DrmCheck, and
    the calls of the commit tail (DrmCommit) run its handlers on the registers.
    One CRTC, one output, three planes - 0 the primary one, 1 the overlay, 2 the
    cursor.  What the panel shows follows what user space asks for.  The clock
    controller and the bridge behind the encoder are other devices. *)

From S2P Require Export Ma35Drm DrmModeset.

#[local] Open Scope Z_scope.

(** ** The tables *)

Definition ma35_plane_type (p : nat) : drm_plane_type :=
  match p with
  | O => DRM_PLANE_TYPE_PRIMARY
  | 1%nat => DRM_PLANE_TYPE_OVERLAY
  | _ => DRM_PLANE_TYPE_CURSOR
  end.

(** As [ma35_plane_init] registers it. *)
Definition ma35_drm_plane (p : nat) : drm_plane := drm_plane_of (layer_of (ma35_plane_type p) (Z.of_nat p)).

Definition ma35_crtc_helper_funcs : crtc_hooks := mkch false true false false false true false false true.
Definition ma35_encoder_helper_funcs : encoder_hooks := mkeh false false false false true false false false false.
Definition ma35_plane_helper_funcs : plane_hooks := mkph true false false false.
Definition ma35_cursor_plane_helper_funcs : plane_hooks := mkph true false false false.

Definition ma35_commit_driver : commit_driver :=
  mkcd (fun _ => ma35_crtc_helper_funcs) (fun _ => Some ma35_encoder_helper_funcs)
       (fun p => Some (if decide (ma35_plane_type p = DRM_PLANE_TYPE_CURSOR)
                       then ma35_cursor_plane_helper_funcs else ma35_plane_helper_funcs))
       (fun _ => false) true.

(** ** A commit *)

(** What user space asks for beyond the routes - the states of the planes it touches,
    the colour tables -, and what the kernel answers. *)
Record ma35_commit := mkmm {
  mm_locks : kms_locks; mm_requests : list request;
  mm_allow_modeset : bool; mm_test_only : bool; mm_prepare : Z;
  mm_planes : nat -> drm_plane_state; mm_damage : nat -> list drm_rect;
  mm_gamma_lut : option (list drm_color_lut); mm_color_mgmt_changed : bool;
  mm_bus_flags : Z; mm_unregistered : bool;
  mm_round_rate : Z -> Z; mm_vblank_get : Z;
  (** the bridge behind the encoder *)
  mm_add_bridges : Z; mm_bridge_mode_valid : drm_display_mode -> drm_mode_status;
  mm_bridge_check : nat -> atomic_state -> Z * drm_display_mode
}.

Section Commit.
Context `{!RectOps} `{!PlaneRectOps} `{!AtomicInlines}.
Context (cfg : drm_mode_config) (oops : Z) (mm : ma35_commit) (cur : nat -> drm_plane_state).

(** The state of a CRTC as the driver reads it. *)
Definition crtc_state_of (x : crtc_full) : drm_crtc_state :=
  mkcs (st_enable (cf_st x)) (cf_mode x) (cf_adjusted_mode x) (mm_gamma_lut mm) (mm_color_mgmt_changed mm).

(** [drm_atomic_get_crtc_state], for a CRTC of a plane of the commit, which is in it. *)
Definition get_crtc_state_of (s : atomic_state) (c : nat) : drm_crtc_state + Z :=
  match new_crtc s c with Some x => inl (crtc_state_of x) | None => inr (- EINVAL) end.

(** The planes that user space sets; the others of a commit are copies of the current
    state. *)
Definition touched (p : nat) : bool := plane_asked (mm_requests mm) p.

Definition asked_plane (s : atomic_state) (p : nat) : drm_plane_state :=
  let st := if touched p then mm_planes mm p else cur p in
  {| st with ps_crtc := match as_planes s !! p with Some x => x.2 | None => ps_crtc (cur p) end |}.

(** The driver's check of a plane, [None] a NULL dereference. *)
Definition ma35_check_plane (s : atomic_state) (p : nat) : option (Z * drm_plane_state) :=
  let st := asked_plane s p in
  if decide (ma35_plane_type p = DRM_PLANE_TYPE_CURSOR)
  then Some (ma35_cursor_plane_atomic_check (get_crtc_state_of s) st)
  else ma35_plane_atomic_check (get_crtc_state_of s) (ma35_plane_type p) st.

(** The state of the plane after it. *)
Definition checked_plane (s : atomic_state) (p : nat) : drm_plane_state :=
  match ma35_check_plane s p with Some x => x.2 | None => asked_plane s p end.

(** The connector, the driver's or the bridge's own, has no choice of encoders and no
    check; the encoder can be cloned with itself only.  A check of a plane that
    dereferences NULL answers [oops]: the theorem at the end is that no commit depends on it. *)
Definition ma35_hooks : kms_hooks :=
  mkhk (fun _ => None) (fun _ => None) (fun _ => Some 0%nat)
       (fun _ => mm_unregistered mm) (fun _ => false) (fun _ => None)
       (fun _ => 1) (fun _ => 1) 1 (fun _ => mm_add_bridges mm)
       (fun _ _ => MODE_OK) (fun _ _ => mm_bridge_mode_valid mm) (fun _ => ma35_crtc_mode_valid cfg)
       (fun _ => mm_bridge_check mm)
       (fun _ => Some (fun c s =>
          (0, match new_crtc s c with Some x => cf_adjusted_mode x | None => no_mode end)))
       (fun _ => None) (fun _ => None)
       (fun p s => drm_atomic_plane_check (ma35_drm_plane p) (mm_damage mm p) (cur p) (asked_plane s p))
       (fun p => Some (fun s => match ma35_check_plane s p with Some x => x.1 | None => oops end))
       (fun c => Some (fun s =>
          match new_crtc s c with
          | Some x => let '(ret, st) := ma35_crtc_atomic_check (mm_round_rate mm) (crtc_state_of x) in
                      (ret, adjusted_mode st)
          | None => (0, no_mode)
          end))
       true.

Definition ma35_commit_in : commit_in :=
  mkcm (mm_locks mm) ma35_hooks (mm_requests mm) false (mm_allow_modeset mm) (mm_test_only mm)
       (mm_prepare mm) false.
End Commit.

(** ** The device *)

Section Device.
Context {R : Type} `{!RegmapOps R} `{!RectOps} `{!PlaneRectOps} `{!AtomicInlines}.

(** The registers, the driver's objects, the current states of the planes, the event of
    the CRTC's current state, and the calls into the vblank code so far. *)
Record ma35_display := mkdisp {
  dp_regs : R; dp_crtc : ma35_crtc; dp_layer : nat -> ma35_layer;
  dp_plane : nat -> drm_plane_state; dp_event : bool; dp_log : list vblank_event
}.

Definition set_layer (p : nat) (r : ma35_layer * R) (d : ma35_display) : ma35_display :=
  {| d with dp_regs := r.2; dp_layer := update p r.1 (dp_layer d) |}.

(** A call of the tail, with the states it has been given: [x] of the CRTC, [new] of the
    planes. *)
Definition ma35_call (mm : ma35_commit) (x : crtc_full) (new : nat -> drm_plane_state) (k : commit_call)
    (d : ma35_display) : option ma35_display :=
  match k with
  | CrtcEnable _ _ =>
      let '(r, ev) := ma35_crtc_atomic_enable (dp_regs d) (dp_crtc d) (mm_bus_flags mm) (crtc_state_of mm x) in
      Some {| d with dp_regs := r; dp_log := dp_log d ++ ev |}
  | CrtcDisable _ _ =>
      let '(r, event, ev) := ma35_crtc_atomic_disable (dp_regs d) (dp_event d) (st_active (cf_st x)) in
      Some {| d with dp_regs := r; dp_event := event; dp_log := dp_log d ++ ev |}
  | CrtcFlush _ =>
      let '(event, ev) := ma35_crtc_atomic_flush (mm_vblank_get mm) (dp_event d) in
      Some {| d with dp_event := event; dp_log := dp_log d ++ ev |}
  | PlaneUpdate p _ _ =>
      (fun r => set_layer p r d) <$>
        (if decide (ma35_plane_type p = DRM_PLANE_TYPE_CURSOR)
         then ma35_cursor_plane_atomic_update (dp_layer d p) (dp_regs d) (dp_plane d p) (new p)
         else ma35_plane_atomic_update (dp_layer d p) (dp_regs d) (new p))
  | PlaneDisable p _ =>
      Some {| d with dp_regs :=
                if decide (ma35_plane_type p = DRM_PLANE_TYPE_CURSOR)
                then ma35_cursor_plane_atomic_disable (dp_regs d) else ma35_plane_atomic_disable (dp_regs d) |}
  | SendFakeVblank _ =>
      Some (if dp_event d then {| d with dp_event := false; dp_log := dp_log d ++ [SendEvent] |} else d)
  | _ => Some d
  end.

Fixpoint ma35_calls (mm : ma35_commit) (x : crtc_full) (new : nat -> drm_plane_state) (l : list commit_call)
    (d : ma35_display) : option ma35_display :=
  match l with
  | [] => Some d
  | k :: l => d ← ma35_call mm x new k d; ma35_calls mm x new l d
  end.

(** The atomic ioctl, as [drm_mode_atomic_ioctl] of DrmDisplay, on this device. *)
Definition ma35_atomic_ioctl (cfg : drm_mode_config) (oops : Z) (mm : ma35_commit) (D : mode_config) (d : ma35_display)
  : option (option Z * mode_config * ma35_display) :=
  match checked_commit (ma35_commit_in cfg oops mm (dp_plane d)) D with
  | inl err => Some (Some err, D, d)
  | inr s =>
      if mm_test_only mm then Some (None, D, d)
      else if truthy (mm_prepare mm) then Some (Some (mm_prepare mm), D, d)
      else
        let D' := swap D s in
        let new p := match as_planes s !! p with
                     | Some _ => checked_plane mm (dp_plane d) s p
                     | None => dp_plane d p
                     end in
        let d := {| d with dp_event := match as_crtcs s !! 0%nat with
                                       | Some x => cf_event x.2
                                       | None => dp_event d
                                       end |} in
        d ← ma35_calls mm (mc_crtc D' 0) new (drm_atomic_helper_commit_tail ma35_commit_driver (update_of D s)) d;
        Some (None, D', {| d with dp_plane := new |})
  end.

Fixpoint ma35_session (cfg : drm_mode_config) (oops : Z) (ms : list ma35_commit) (D : mode_config) (d : ma35_display)
  : option (list (option Z) * mode_config * ma35_display) :=
  match ms with
  | [] => Some ([], D, d)
  | mm :: ms =>
      '(ret, D, d) ← ma35_atomic_ioctl cfg oops mm D d;
      '(rets, D, d) ← ma35_session cfg oops ms D d;
      Some (ret :: rets, D, d)
  end.
End Device.

(** ** What the panel shows *)

(** The words of the four timing registers. *)
Definition timing_words (m : drm_display_mode) : list Z :=
  [FIELD_PREP MA35_DISPLAY_TOTAL_MASK (htotal m) .| FIELD_PREP MA35_DISPLAY_ACTIVE_MASK (hdisplay m);
   ma35_sync_reg (hsync_start m) (hsync_end m) (truthy (flags m .& DRM_MODE_FLAG_NHSYNC));
   FIELD_PREP MA35_DISPLAY_TOTAL_MASK (vtotal m) .| FIELD_PREP MA35_DISPLAY_ACTIVE_MASK (vdisplay m);
   ma35_sync_reg (vsync_start m) (vsync_end m) (truthy (flags m .& DRM_MODE_FLAG_NVSYNC))].

#[export] Instance timing_words_proper : Proper (mode_eqv ==> (=)) timing_words.
Proof.
  intros m1 m2 (Ht & _ & Hf & _). unfold timings in Ht. unfold timing_words. rewrite Hf.
  injection Ht as -> -> -> -> _ -> -> -> -> _. done.
Qed.

(** Data enable and the timings, the primary plane, vblanks, and an event that waits to
    be handed over. *)
Record panel := mkpanel {
  pn_on : bool; pn_timing : list Z; pn_primary : bool; pn_vblank : bool; pn_event : bool
}.

Definition vblanks (log : list vblank_event) : bool :=
  fold_left (fun b e => match e with VblankOn => true | VblankOff => false | _ => b end) log false.

#[local] Arguments vblanks : simpl never.

Definition panel_regs {R} `{!RegmapOps R} (r : R) : bool * list Z * bool :=
  (Z.testbit (regmap_read r MA35_PANEL_CONFIG) 0,
   [regmap_read r MA35_HDISPLAY; regmap_read r MA35_HSYNC; regmap_read r MA35_VDISPLAY; regmap_read r MA35_VSYNC],
   Z.testbit (regmap_read r MA35_FRAMEBUFFER_CONFIG) 0).

#[local] Arguments panel_regs : simpl never.

Definition panel_of {R} `{!RegmapOps R} (d : ma35_display (R := R)) : panel :=
  let '(on, timing, primary) := panel_regs (dp_regs d) in
  mkpanel on timing primary (vblanks (dp_log d)) (dp_event d).

(** What a call does to the panel, given the timings and [active] of the new state. *)
Definition panel_step (w : list Z) (active : bool) (k : commit_call) (P : panel) : panel :=
  match k with
  | CrtcEnable _ _ => {| P with pn_on := true; pn_timing := w; pn_vblank := true |}
  | CrtcDisable _ _ => {| P with pn_on := false; pn_vblank := false; pn_event := pn_event P && active |}
  | CrtcFlush _ | SendFakeVblank _ => {| P with pn_event := false |}
  | PlaneUpdate p _ _ =>
      if decide (ma35_plane_type p = DRM_PLANE_TYPE_PRIMARY) then {| P with pn_primary := true |} else P
  | PlaneDisable p _ =>
      if decide (ma35_plane_type p = DRM_PLANE_TYPE_CURSOR) then P else {| P with pn_primary := false |}
  | _ => P
  end.

Section Refines.
Context {R : Type} `{Ho : !RegmapOps R} `{Hl : !RegmapLaws R} `{!RectOps} `{!PlaneRectOps} `{!AtomicInlines}.

Lemma disp_word_u32 a b :
  is_u32 (FIELD_PREP MA35_DISPLAY_TOTAL_MASK a .| FIELD_PREP MA35_DISPLAY_ACTIVE_MASK b).
Proof using. autounfold with ma35. solve_u32. Qed.

Lemma enable_regs (r : R) crtc bus st :
  panel_regs (ma35_crtc_atomic_enable r crtc bus st).1
  = (true, timing_words (adjusted_mode st), Z.testbit (regmap_read r MA35_FRAMEBUFFER_CONFIG) 0).
Proof using Hl.
  unfold ma35_crtc_atomic_enable. cbn [fst]. unfold panel_regs.
  rewrite !crtc_dither_other by (vm_compute; discriminate).
  rm_simp. rewrite crtc_gamma_config, !crtc_gamma_other by (vm_compute; discriminate).
  unfold ma35_crtc_signals, ma35_crtc_timings. rm_simp.
  rewrite !(u32_id (ma35_sync_reg _ _ _)) by apply sync_reg_u32.
  rewrite !(u32_id (FIELD_PREP MA35_DISPLAY_TOTAL_MASK _ .| _)) by apply disp_word_u32. f_equal; [f_equal|].
  - destruct (truthy (bus .& DRM_BUS_FLAG_DE_LOW)), (truthy (bus .& DRM_BUS_FLAG_PIXDATA_DRIVE_NEGEDGE)); by vm_compute.
  - rewrite rmw_testbit. by destruct (gamma_lut st).
Qed.

Lemma disable_regs (r : R) event active :
  panel_regs (ma35_crtc_atomic_disable r event active).1.1
  = (false, (panel_regs r).1.2, (panel_regs r).2).
Proof using Hl.
  unfold ma35_crtc_atomic_disable, panel_regs. destruct (event && negb active); cbn [fst snd]; rm_simp;
    rewrite !rmw_testbit; repeat f_equal.
Qed.

(** The registers of the panel are not those of the colour planes. *)
Lemma write_planes_panel t fb st l base (r : R) :
  panel_regs (ma35_write_planes t fb st l base r).2 = panel_regs r.
Proof using Hl.
  assert (Hoff : forall a, a ∈ [MA35_PANEL_CONFIG; MA35_HDISPLAY; MA35_HSYNC; MA35_VDISPLAY; MA35_VSYNC; MA35_FRAMEBUFFER_CONFIG] ->
    regmap_read (ma35_write_planes t fb st l base r).2 a = regmap_read r a).
  { intros a Ha. apply write_planes_other. intros i _. unfold plane_regs, aget. cbn [fst snd].
    assert (Hin : forall L : list Z, a ∉ 0 :: L -> nth (Z.to_nat i) L 0 <> a).
    { intros L HL <-. apply HL. destruct (nth_in_or_default (Z.to_nat i) L 0) as [Hin|E].
      - right. by apply list_elem_of_In.
      - rewrite E. left. }
    split; apply Hin; rewrite !elem_of_cons, elem_of_nil in Ha; destruct t; cbn;
      apply (bool_decide_unpack _); repeat destruct Ha as [->|Ha]; try done; vm_compute; exact I. }
  unfold panel_regs. rewrite !Hoff; [done|..]; apply (bool_decide_unpack _); vm_compute; exact I.
Qed.

Lemma primary_regs (r : R) fb code :
  panel_regs (ma35_primary_update r fb code) = ((panel_regs r).1, true).
Proof using Hl.
  unfold panel_regs, ma35_primary_update. rm_simp. repeat f_equal. unfold u32.
  rewrite Z.mod_pow2_bits_low by lia. rewrite !Z.lor_spec. by rewrite orb_true_r.
Qed.

Lemma overlay_regs (r : R) fb code st : panel_regs (ma35_overlay_update r fb code st) = panel_regs r.
Proof using Hl.
  unfold panel_regs, ma35_overlay_update, ma35_overlay_position_update. cbv zeta.
  destruct (bool_decide _); by rm_simp.
Qed.

Lemma cursor_regs layer (r : R) o st layer' r' :
  ma35_cursor_plane_atomic_update layer r o st = Some (layer', r') ->
  panel_regs r' = panel_regs r /\ layer_type layer' = layer_type layer.
Proof using Hl.
  unfold ma35_cursor_plane_atomic_update, ma35_cursor_set_fb, ma35_cursor_position_update.
  destruct (negb (visible st)); [intros [= <- <-]; unfold panel_regs; by rm_simp|]. cbv zeta.
  destruct (_ || _).
  - destruct (ps_fb st); [|done]. destruct (hotspot_changed _ _); intros [= <- <-]; unfold panel_regs; by rm_simp.
  - destruct (hotspot_changed _ _); intros [= <- <-]; unfold panel_regs; by rm_simp.
Qed.

Lemma plane_regs_step layer (r : R) st fb code :
  layer_type layer <> DRM_PLANE_TYPE_CURSOR -> ps_fb st = Some fb ->
  ma35_layer_format_validate (format (fb_format fb)) = Some code ->
  exists layer' r', ma35_plane_atomic_update layer r st = Some (layer', r')
  /\ layer_type layer' = layer_type layer
  /\ panel_regs r' = ((panel_regs r).1,
                      if decide (layer_type layer = DRM_PLANE_TYPE_PRIMARY) then true else (panel_regs r).2).
Proof using Hl.
  intros Ht Hfb Hc. unfold ma35_plane_atomic_update. rewrite Hfb, Hc.
  set (r0 := match layer_type layer with DRM_PLANE_TYPE_PRIMARY => _ | _ => _ end).
  pose proof (write_planes_panel (layer_type layer) fb st (seqZ 0 (num_planes (fb_format fb))) (fb_base layer) r0) as Hw.
  destruct (ma35_write_planes _ _ _ _ _ _) as [base r1]. cbn [snd] in Hw.
  exists {| layer with fb_base := base |}, r1. split_and!; [done|done|]. rewrite Hw. unfold r0.
  destruct (layer_type layer); [|by rewrite primary_regs|done]. rewrite overlay_regs. by destruct (panel_regs r).
Qed.

(** A plane state that can be programmed. *)
Definition ready (p : nat) (st : drm_plane_state) : Prop :=
  exists fb, ps_fb st = Some fb
  /\ (ma35_plane_type p <> DRM_PLANE_TYPE_CURSOR -> is_Some (ma35_layer_format_validate (format (fb_format fb)))).

(** Only updates of planes that can be programmed. *)
Definition good_call (new : nat -> drm_plane_state) (k : commit_call) : Prop :=
  match k with PlaneUpdate p _ _ => ready p (new p) | _ => True end.

Definition layers_ok (d : ma35_display (R := R)) : Prop := forall p, layer_type (dp_layer d p) = ma35_plane_type p.

Lemma panel_of_eq (d : ma35_display (R := R)) :
  panel_of d = mkpanel (panel_regs (dp_regs d)).1.1 (panel_regs (dp_regs d)).1.2 (panel_regs (dp_regs d)).2
                       (vblanks (dp_log d)) (dp_event d).
Proof using. done. Qed.

Lemma vblanks_app l l' : vblanks (l ++ l') = fold_left (fun b e => match e with VblankOn => true | VblankOff => false | _ => b end) l' (vblanks l).
Proof using. apply fold_left_app. Qed.

(** The handlers do what the panel's step says. *)
Lemma call_refines mm x new k (d : ma35_display (R := R)) :
  layers_ok d -> (forall p o n, k = PlaneUpdate p o n -> ready p (new p)) ->
  exists d', ma35_call mm x new k d = Some d' /\ layers_ok d' /\ dp_plane d' = dp_plane d
  /\ panel_of d' = panel_step (timing_words (cf_adjusted_mode x)) (st_active (cf_st x)) k (panel_of d).
Proof using Hl.
  intros Hlay Hr. rewrite !panel_of_eq. destruct k; cbn [ma35_call panel_step]; try by exists d.
  - unfold ma35_crtc_atomic_disable. pose proof (disable_regs (dp_regs d) (dp_event d) (st_active (cf_st x))) as Hd.
    unfold ma35_crtc_atomic_disable in Hd. destruct (dp_event d && negb (st_active (cf_st x))) eqn:E; cbn [fst snd] in Hd;
      eexists; (split_and!; [reflexivity|done|done|]); rewrite panel_of_eq; cbn; rewrite vblanks_app, Hd; cbn; f_equal;
      by destruct (dp_event d), (st_active (cf_st x)).
  - eexists. split_and!; [reflexivity|done|done|]. rewrite panel_of_eq. cbn. case_decide.
    + unfold ma35_cursor_plane_atomic_disable, panel_regs. by rm_simp.
    + unfold ma35_plane_atomic_disable, panel_regs. rm_simp. cbn [fst snd]. f_equal. by rewrite rmw_testbit.
  - destruct (Hr p old new0 eq_refl) as (fb & Hfb & Hc). case_decide as Et.
    + destruct (ma35_cursor_plane_atomic_update (dp_layer d p) (dp_regs d) (dp_plane d p) (new p)) as [[layer' r']|] eqn:E.
      * destruct (cursor_regs _ _ _ _ _ _ E) as [Hp Ht]. eexists. split_and!; [reflexivity| |done|].
        -- intros q. cbn. unfold update. destruct (decide (q = p)) as [->|]; [rewrite Ht|]; apply Hlay.
        -- rewrite panel_of_eq. cbn. rewrite Hp. by rewrite decide_False by (rewrite Et; done).
      * exfalso. revert E. unfold ma35_cursor_plane_atomic_update, ma35_cursor_set_fb. rewrite Hfb.
        repeat case_match; congruence.
    + destruct (Hc Et) as [code Hcode].
      destruct (plane_regs_step (dp_layer d p) (dp_regs d) (new p) fb code) as (layer' & r' & -> & Ht & Hp);
        [by rewrite Hlay|done|done|].
      eexists. split_and!; [reflexivity| |done|].
      * intros q. cbn. unfold update. destruct (decide (q = p)) as [->|]; [rewrite Ht|]; apply Hlay.
      * rewrite panel_of_eq. cbn. rewrite Hp, Hlay. by destruct (decide (ma35_plane_type p = _)).
  - unfold ma35_crtc_atomic_flush. destruct (dp_event d) eqn:E; [destruct (_ =? _)|]; eexists;
      (split_and!; [reflexivity|done|done|]); rewrite panel_of_eq; cbn; rewrite vblanks_app; cbn; by rewrite ?E.
  - pose proof (enable_regs (dp_regs d) (dp_crtc d) (mm_bus_flags mm) (crtc_state_of mm x)) as He.
    assert (Hv : (ma35_crtc_atomic_enable (dp_regs d) (dp_crtc d) (mm_bus_flags mm) (crtc_state_of mm x)).2 = [VblankOn])
      by done.
    destruct (ma35_crtc_atomic_enable _ _ _ _) as [r ev]. cbn [fst snd] in He, Hv. subst ev.
    eexists. split_and!; [reflexivity|done|done|]. rewrite panel_of_eq. cbn. by rewrite vblanks_app, He.
  - destruct (dp_event d) eqn:E; eexists; (split_and!; [reflexivity|done|done|]); rewrite panel_of_eq; cbn; rewrite ?vblanks_app; cbn; by rewrite ?E.
Qed.

Lemma calls_refine mm x new l : forall (d : ma35_display (R := R)),
  layers_ok d -> Forall (good_call new) l ->
  exists d', ma35_calls mm x new l d = Some d' /\ layers_ok d' /\ dp_plane d' = dp_plane d
  /\ panel_of d' = fold_left (fun P k => panel_step (timing_words (cf_adjusted_mode x)) (st_active (cf_st x)) k P) l (panel_of d).
Proof using Hl.
  induction l as [|k l IH]; intros d Hlay Hr; cbn; [by exists d|]. apply Forall_cons in Hr as [Hk Hr].
  destruct (call_refines mm x new k d Hlay) as (d1 & -> & Hl1 & Hp1 & E1); [intros p o n ->; exact Hk|].
  destruct (IH d1 Hl1 Hr) as (d2 & H2 & Hl2 & Hp2 & E2).
  exists d2. cbn. split_and!; [done|done|congruence|]. by rewrite E2, E1.
Qed.
End Refines.

(** ** The panel through a commit *)

Section Tail.
Context `{AI : !AtomicInlines} `{L : !AtomicInlinesLaws} (w : list Z) (a : bool).

Notation dr := ma35_commit_driver.

Definition runs (l : list commit_call) (P : panel) : panel := fold_left (fun Q k => panel_step w a k Q) l P.

Lemma runs_app l l' P : runs (l ++ l') P = runs l' (runs l P).
Proof using. apply fold_left_app. Qed.

Lemma runs_nil P : runs [] P = P.
Proof using. done. Qed.

(** Calls that do not concern the panel. *)
Lemma idle_bind {A} (f : A -> list commit_call) (l : list A) P :
  (forall x Q, runs (f x) Q = Q) -> runs (l ≫= f) P = P.
Proof using.
  intros Hf. revert P. induction l as [|x l IH]; intros P; [done|]. rewrite bind_cons, runs_app, Hf. apply IH.
Qed.

Ltac idle := apply idle_bind; intros; cbn; repeat case_match; done.

Lemma idle_disable u P :
  runs (drm_atomic_helper_commit_encoder_bridge_disable dr u) P = P
  /\ runs (drm_atomic_helper_commit_encoder_bridge_post_disable u) P = P
  /\ runs (drm_atomic_helper_calc_timestamping_constants u) P = P
  /\ runs (drm_atomic_helper_commit_crtc_set_mode dr u) P = P.
Proof using.
  split_and!; [idle|idle|idle|]. unfold drm_atomic_helper_commit_crtc_set_mode. rewrite runs_app.
  rewrite !idle_bind; [done|..]; intros; cbn; repeat case_match; done.
Qed.

Lemma idle_enable u P :
  runs (drm_atomic_helper_commit_encoder_bridge_pre_enable u) P = P
  /\ runs (drm_atomic_helper_commit_encoder_bridge_enable dr u) P = P
  /\ runs (drm_atomic_helper_commit_writebacks dr u) P = P
  /\ runs (drm_atomic_helper_wait_for_vblanks u) P = P
  /\ runs (drm_atomic_helper_cleanup_planes dr u) P = P.
Proof using.
  split_and!; [idle|idle|idle| |idle]. unfold drm_atomic_helper_wait_for_vblanks. by case_if.
Qed.

Lemma runs_disables u x P :
  au_crtcs u = [x] -> st_self_refresh_active (ce_old x) = false -> st_self_refresh_active (ce_new x) = false ->
  runs (drm_atomic_helper_commit_modeset_disables dr u) P
  = if drm_atomic_crtc_needs_modeset (ce_new x) && st_active (ce_old x)
    then {| P with pn_on := false; pn_vblank := false; pn_event := pn_event P && a |} else P.
Proof using.
  intros Hx H1 H2. unfold drm_atomic_helper_commit_modeset_disables, disable_outputs. rewrite !runs_app.
  destruct (idle_disable u P) as (-> & -> & _). rewrite (proj2 (proj2 (proj2 (idle_disable u _)))).
  rewrite (proj1 (proj2 (proj2 (idle_disable u _)))). change (runs [UpdateLegacyModesetState] ?Q) with Q.
  unfold drm_atomic_helper_commit_crtc_disable. rewrite Hx. cbn [mbind list_bind]. rewrite app_nil_r.
  unfold crtc_needs_disable. rewrite H1, H2, Nat.eqb_refl. cbn [negb andb]. rewrite !orb_false_r.
  destruct (drm_atomic_crtc_needs_modeset (ce_new x)), (st_active (ce_old x)); cbn; try done.
  unfold crtc_off. cbn. by rewrite andb_false_r.
Qed.

Lemma runs_enables u x P :
  au_crtcs u = [x] -> (st_active (ce_new x) = true -> st_enable (ce_new x) = true) ->
  runs (drm_atomic_helper_commit_modeset_enables dr u) P
  = if drm_atomic_crtc_needs_modeset (ce_new x) && st_active (ce_new x)
    then {| P with pn_on := true; pn_timing := w; pn_vblank := true |} else P.
Proof using.
  intros Hx He. unfold drm_atomic_helper_commit_modeset_enables. rewrite !runs_app.
  destruct (idle_enable u (runs (drm_atomic_helper_commit_crtc_enable dr u) P)) as (-> & -> & -> & _).
  unfold drm_atomic_helper_commit_crtc_enable. rewrite Hx. cbn [mbind list_bind]. rewrite app_nil_r.
  destruct (drm_atomic_crtc_needs_modeset (ce_new x)), (st_active (ce_new x)); cbn; try done. by rewrite He.
Qed.

(** The planes, one call each. *)
Definition plane_calls (p : plane_entry) : list commit_call :=
  match pe_old_crtc p, pe_new_crtc p with
  | _, Some _ => [PlaneUpdate (pe_id p) (pe_old_crtc p) (pe_new_crtc p)]
  | Some c, None => [PlaneDisable (pe_id p) c]
  | None, None => []
  end.

Lemma commit_plane_calls u p : commit_plane dr u false false p = plane_calls p.
Proof using L.
  unfold commit_plane, plane_calls. cbn [cd_plane dr]. cbn [andb]. rewrite plane_disabling_spec.
  assert (Hh : ph_atomic_disable (if decide (ma35_plane_type (pe_id p) = DRM_PLANE_TYPE_CURSOR)
             then ma35_cursor_plane_helper_funcs else ma35_plane_helper_funcs) = true
           /\ ph_atomic_enable (if decide (ma35_plane_type (pe_id p) = DRM_PLANE_TYPE_CURSOR)
             then ma35_cursor_plane_helper_funcs else ma35_plane_helper_funcs) = false) by (by case_decide).
  destruct Hh as [Hd He]. rewrite Hd, He. destruct (pe_old_crtc p), (pe_new_crtc p); cbn; rewrite ?andb_false_r; done.
Qed.

Definition plane_bit (b : bool) (p : plane_entry) : bool :=
  match pe_old_crtc p, pe_new_crtc p with
  | _, Some _ => if decide (ma35_plane_type (pe_id p) = DRM_PLANE_TYPE_PRIMARY) then true else b
  | Some _, None => if decide (ma35_plane_type (pe_id p) = DRM_PLANE_TYPE_CURSOR) then b else false
  | None, None => b
  end.

Lemma runs_planes u P :
  runs (drm_atomic_helper_commit_planes dr u false false) P
  = let P' := {| P with pn_primary := fold_left plane_bit (au_planes u) (pn_primary P) |} in
    if bool_decide (au_crtcs u = []) then P' else {| P' with pn_event := false |}.
Proof using L.
  unfold drm_atomic_helper_commit_planes. rewrite !runs_app.
  rewrite (idle_bind (fun p => match cd_plane dr (pe_id p) with
                               | Some h => if ph_end_fb_access h then [PlaneEndFbAccess (pe_id p)] else []
                               | None => []
                               end)) by (intros; cbn; repeat case_match; done).
  rewrite (idle_bind (fun x => if negb (ch_atomic_begin (cd_crtc dr (ce_id x))) then []
                               else if false && negb (st_active (ce_new x)) then [] else [CrtcBegin (ce_id x)])) by done.
  assert (Hp : runs (au_planes u ≫= commit_plane dr u false false) P
               = {| P with pn_primary := fold_left plane_bit (au_planes u) (pn_primary P) |}).
  { generalize (au_planes u) as l. intros l. revert P. induction l as [|p l IH]; intros P; [by destruct P|].
    rewrite bind_cons, runs_app, commit_plane_calls, IH. destruct P. cbn. unfold plane_bit at 3, plane_calls.
    destruct (pe_old_crtc p), (pe_new_crtc p); cbn; repeat case_match; done. }
  rewrite Hp. cbv zeta. set (P' := {| P with pn_primary := _ |}). clearbody P'. clear.
  assert (Hf : forall Q l, runs (l ≫= fun x => if negb (ch_atomic_flush (cd_crtc dr (ce_id x))) then []
              else if false && negb (st_active (ce_new x)) then [] else [CrtcFlush (ce_id x)]) Q
            = if bool_decide (l = []) then Q else {| Q with pn_event := false |}).
  { intros Q l. revert Q. induction l as [|x l IH]; intros Q; [done|]. rewrite bind_cons, runs_app, IH. cbn. by case_bool_decide. }
  apply Hf.
Qed.

(** The whole tail, with the CRTC in the commit or without. *)
Lemma runs_tail u x P :
  au_crtcs u = [x] -> st_self_refresh_active (ce_old x) = false -> st_self_refresh_active (ce_new x) = false ->
  (st_active (ce_new x) = true -> st_enable (ce_new x) = true) ->
  let m := drm_atomic_crtc_needs_modeset (ce_new x) in
  runs (drm_atomic_helper_commit_tail dr u) P
  = mkpanel (if m && st_active (ce_new x) then true else if m && st_active (ce_old x) then false else pn_on P)
            (if m && st_active (ce_new x) then w else pn_timing P)
            (fold_left plane_bit (au_planes u) (pn_primary P))
            (if m && st_active (ce_new x) then true else if m && st_active (ce_old x) then false else pn_vblank P)
            false.
Proof using L.
  intros Hx H1 H2 He m. unfold drm_atomic_helper_commit_tail. rewrite !runs_app.
  rewrite (runs_disables u x) by done. rewrite runs_planes, Hx. cbv zeta. rewrite bool_decide_eq_false_2 by done.
  rewrite (runs_enables u x) by done. destruct (idle_enable u P) as (_ & _ & _ & _ & _).
  rewrite (proj2 (proj2 (proj2 (proj2 (idle_enable u _))))), (proj1 (proj2 (proj2 (proj2 (idle_enable u _))))).
  change (runs [CommitHwDone] ?Q) with Q. unfold drm_atomic_helper_fake_vblank. rewrite Hx. cbn [mbind list_bind].
  rewrite app_nil_r. fold m. destruct m, (st_active (ce_new x)), (st_active (ce_old x)), (st_no_vblank (ce_new x)); done.
Qed.

Lemma runs_tail_none u P :
  au_crtcs u = [] -> (forall p, p ∈ au_planes u -> pe_old_crtc p = None /\ pe_new_crtc p = None) ->
  runs (drm_atomic_helper_commit_tail dr u) P = P.
Proof using L.
  intros Hx Hp. unfold drm_atomic_helper_commit_tail, drm_atomic_helper_commit_modeset_disables, disable_outputs,
    drm_atomic_helper_commit_modeset_enables. rewrite !runs_app.
  destruct (idle_disable u P) as (-> & -> & _).
  unfold drm_atomic_helper_commit_crtc_disable, drm_atomic_helper_commit_crtc_enable, drm_atomic_helper_fake_vblank.
  rewrite Hx. cbn [mbind list_bind]. rewrite !runs_nil. change (runs [UpdateLegacyModesetState] ?Q) with Q.
  destruct (idle_disable u P) as (_ & _ & -> & ->). rewrite runs_planes, Hx. cbv zeta. rewrite bool_decide_eq_true_2 by done.
  assert (Hb : forall b, fold_left plane_bit (au_planes u) b = b).
  { revert Hp. generalize (au_planes u) as l. induction l as [|p l IH]; intros Hp b; [done|]. cbn.
    rewrite IH by (intros; apply Hp; by right). unfold plane_bit. by destruct (Hp p ltac:(left)) as [-> ->]. }
  rewrite Hb. replace {| P with pn_primary := pn_primary P |} with P by (by destruct P).
  destruct (idle_enable u P) as (-> & -> & -> & E4 & E5). change (runs [CommitHwDone] ?Q) with Q. by rewrite E4, E5.
Qed.
End Tail.
(** ** The planes of a checked commit *)

(** A state that the core accepts: a framebuffer of a format of the plane exactly if it has
    a CRTC. *)
Definition plane_fits (p : nat) (st : drm_plane_state) : Prop :=
  match ps_crtc st, ps_fb st with
  | None, None => True
  | Some _, Some fb => format (fb_format fb) ∈ format_types (ma35_drm_plane p)
  | _, _ => False
  end.

Section Planes.
Context `{!RectOps} `{!PlaneRectOps} `{AI : !AtomicInlines} `{L : !AtomicInlinesLaws}.
Context (cfg : drm_mode_config) (oops : Z) (mm : ma35_commit) (cur : nat -> drm_plane_state).

Lemma core_check_fits p clips old st :
  drm_atomic_plane_check (ma35_drm_plane p) clips old st = 0 -> plane_fits p st.
Proof using.
  unfold drm_atomic_plane_check, plane_fits. destruct (ps_crtc st), (ps_fb st) as [fb|]; try done.
  destruct (negb _); [done|]. unfold drm_plane_has_format.
  destruct (existsb _ _) eqn:E; [intros _|done].
  apply existsb_exists in E as (f & Hf%list_elem_of_In & <-%bool_decide_eq_true). done.
Qed.

Lemma fits_ready p st : plane_fits p st -> is_Some (ps_crtc st) -> ready p st.
Proof using.
  unfold plane_fits. intros Hf [c Hc]. rewrite Hc in Hf. destruct (ps_fb st) as [fb|] eqn:E; [|done].
  exists fb. split; [done|]. intros Ht. apply format_validate_in.
  unfold ma35_drm_plane, layer_of in Hf. cbn in Hf. by rewrite decide_False in Hf.
Qed.

Ltac by_frame := match goal with Hc : _ |- context [drm_atomic_helper_check_plane_state ?st ?cs _ _ ?pos _] =>
  destruct (Hc st cs pos); split; congruence end.

(** The driver's checks leave the CRTC and the framebuffer. *)
Lemma checked_plane_same s p :
  ps_crtc (checked_plane mm cur s p) = ps_crtc (asked_plane mm cur s p)
  /\ ps_fb (checked_plane mm cur s p) = ps_fb (asked_plane mm cur s p).
Proof using.
  assert (Hc : forall st cs pos, let st' := (drm_atomic_helper_check_plane_state st cs DRM_PLANE_NO_SCALING
      DRM_PLANE_NO_SCALING pos true).2 in ps_crtc st' = ps_crtc st /\ ps_fb st' = ps_fb st).
  { intros st cs pos. pose proof (check_plane_state_frame st cs DRM_PLANE_NO_SCALING DRM_PLANE_NO_SCALING pos true)
      as (_ & _ & _ & _ & ? & ?). done. }
  unfold checked_plane, ma35_check_plane. generalize (asked_plane mm cur s p). intros st. case_decide.
  - unfold ma35_cursor_plane_atomic_check. repeat case_match; try done; by_frame.
  - unfold ma35_plane_atomic_check. repeat (case_match; try done); simplify_eq; try done; by_frame.
Qed.

Context (D : mode_config) (C : config_ok D).
Hypothesis Hcur : forall p, (p < mc_num_plane D)%nat -> plane_fits p (cur p) /\ ps_crtc (cur p) = mc_plane D p.

Lemma stable_ma35 : stable_encoders (ma35_hooks cfg oops mm cur).
Proof using. done. Qed.

(** In the states in which the planes are checked, the core has accepted them. *)
Lemma checked_fit s1 t p o n :
  build (mm_locks mm) D (mm_requests mm) (empty_state false (mm_allow_modeset mm) false) = inr s1 ->
  planes_checked_in (ma35_hooks cfg oops mm cur) D s1 t -> as_planes t !! p = Some (o, n) ->
  (p < mc_num_plane D)%nat /\ plane_fits p (asked_plane mm cur t p) /\ ps_crtc (asked_plane mm cur t p) = n.
Proof using C Hcur L.
  intros H1 (Hcore & s5 & R & V5 & E5) Hp. pose proof (empty_built D false (mm_allow_modeset mm) false) as B0.
  pose proof (build_view (mm_locks mm) D C _ _ _ B0 H1) as V1. rewrite E5 in Hp.
  destruct (wf_plane _ _ (rd_wf _ _ _ R) _ _ _ Hp) as [Hlt ->]. split; [done|].
  assert (Hn : cur_plane D s5 p = n) by (unfold cur_plane; by rewrite Hp).
  pose proof (ve_plane _ _ (proj1 V5) p) as Hv. cbn in Hv. rewrite Hn in Hv.
  split; [|by unfold asked_plane; rewrite E5, Hp].
  destruct (touched mm p) eqn:Et.
  - destruct (build_planes _ D _ p _ _ H1 (or_intror Et)) as [[o1 n1] Hp1].
    pose proof (core_check_fits _ _ _ _ (Hcore p _ Hp1)) as Hf.
    unfold cur_plane in Hv. rewrite Hp1 in Hv. cbn in Hv.
    unfold asked_plane in *. rewrite Hp1 in Hf. rewrite E5, Hp. cbn in *. by rewrite Hv.
  - pose proof (ve_plane _ _ V1 p) as Hw. cbn in Hw. rewrite (asks_plane _ p _ Et) in Hw.
    destruct (Hcur p Hlt) as [Hf Hc]. unfold asked_plane. rewrite Et, E5, Hp. cbn. rewrite Hv, Hw. cbn.
    unfold cur_plane. cbn. by rewrite <- Hc.
Qed.

Lemma planes_fit s p o n :
  checked_commit (ma35_commit_in cfg oops mm cur) D = inr s -> as_planes s !! p = Some (o, n) ->
  (p < mc_num_plane D)%nat /\ plane_fits p (asked_plane mm cur s p) /\ ps_crtc (asked_plane mm cur s p) = n.
Proof using C Hcur L.
  intros (s1 & H1 & H2)%rbind_inr. apply (checked_fit s1); [exact H1|].
  assert (B1 : built D s1) by (eapply build_built; [done|apply empty_built|exact H1]).
  destruct (check_only_stages _ _ D s1 s B1 H2) as (s3 & s5 & _ & _ & _ & Hcore & _).
  destruct (check_only_checked _ _ D C s1 s stable_ma35 B1 H2) as (R & _ & V). split; [exact Hcore|by exists s].
Qed.

(** A plane that the core has accepted can be checked. *)
Lemma ma35_check_plane_total t p : plane_fits p (asked_plane mm cur t p) -> ma35_check_plane mm cur t p <> None.
Proof using.
  unfold ma35_check_plane, plane_fits. generalize (asked_plane mm cur t p). intros st Hf. case_decide; [done|].
  unfold ma35_plane_atomic_check. destruct (ps_crtc st); [|done]. destruct (get_crtc_state_of mm t n); [|done].
  destruct (_ || _); [done|]. destruct (ps_fb st); [|done]. by destruct (ma35_layer_format_validate _).
Qed.
End Planes.

(** No check dereferences NULL: what it would answer then makes no difference. *)
Lemma checked_whatever `{!RectOps} `{!PlaneRectOps} `{AI : !AtomicInlines} `{L : !AtomicInlinesLaws}
    cfg oops oops' mm cur D :
  config_ok D -> (forall p, (p < mc_num_plane D)%nat -> plane_fits p (cur p) /\ ps_crtc (cur p) = mc_plane D p) ->
  checked_commit (ma35_commit_in cfg oops mm cur) D = checked_commit (ma35_commit_in cfg oops' mm cur) D.
Proof.
  intros C Hcur. unfold checked_commit. cbn [cm_locks cm_requests cm_legacy cm_allow_modeset cm_hooks ma35_commit_in].
  destruct (build _ D _ _) as [err|s1] eqn:H1; [done|]. cbn [rbind].
  assert (B1 : built D s1) by (eapply build_built; [done|apply empty_built|exact H1]).
  apply (check_only_agree (mm_locks mm) (ma35_hooks cfg oops mm cur) D (hk_plane_check (ma35_hooks cfg oops' mm cur))
           s1 C (stable_ma35 cfg oops mm cur) B1).
  intros t p [o n] Ht Hp. destruct (checked_fit cfg oops mm cur D C Hcur s1 t p o n H1 Ht Hp) as (_ & Hf & _).
  unfold check_at. cbn. pose proof (ma35_check_plane_total mm cur t p Hf).
  by destruct (ma35_check_plane mm cur t p).
Qed.

Lemma tail_good `{AI : !AtomicInlines} `{L : !AtomicInlinesLaws} new u :
  (forall p, p ∈ au_planes u -> is_Some (pe_new_crtc p) -> ready (pe_id p) (new (pe_id p))) ->
  Forall (good_call new) (drm_atomic_helper_commit_tail ma35_commit_driver u).
Proof.
  intros Hp. unfold drm_atomic_helper_commit_tail, drm_atomic_helper_commit_modeset_disables, disable_outputs,
    drm_atomic_helper_commit_modeset_enables, drm_atomic_helper_commit_planes, drm_atomic_helper_commit_crtc_set_mode,
    drm_atomic_helper_wait_for_vblanks.
  rewrite !Forall_app. split_and!;
    try (apply Forall_mbind; intros; cbn; repeat case_match; repeat constructor; done);
    try (repeat case_match; repeat constructor; done).
  { apply Forall_mbind. intros x _. case_match; [constructor|]. unfold crtc_off. cbn. repeat case_match; repeat constructor; done. }
  apply Forall_mbind. intros p Hin. rewrite commit_plane_calls. unfold plane_calls.
  destruct (pe_old_crtc p), (pe_new_crtc p) eqn:E; repeat constructor; apply (Hp p Hin); by rewrite ?E.
Qed.

(** ** What follows what *)

(** The bridges behind the encoder leave the timings of the adjusted mode. *)
Definition bridges_keep (mm : ma35_commit) : Prop := forall c s x m,
  new_crtc s c = Some x -> mm_bridge_check mm c s = (0, m) -> timing_words m = timing_words (cf_adjusted_mode x).

Lemma hooks_keep_ma35 `{!RectOps} `{!PlaneRectOps} `{!AtomicInlines} cfg oops mm cur :
  bridges_keep mm -> hooks_keep timing_words (ma35_hooks cfg oops mm cur).
Proof.
  intros K. split; cbn; [intros _; exact K| |done|done|].
  - intros _ f c s x m [= <-] Hx. rewrite Hx. by intros [= <-].
  - intros c f s x m [= <-] Hx. rewrite Hx. unfold ma35_crtc_atomic_check. cbn.
    destruct (_ >? _); [by intros [=]|]. destruct (_ <=? _); [by intros [=]|]. by intros [= <-].
Qed.

(** The panel shows a view: data enable and vblanks as the CRTC is active, with the
    timings of its mode; the primary plane only if it has a CRTC, and if [exact] also
    whenever it has one; no event is left behind. *)
Record panel_shows (exact : bool) (v : view) (P : panel) : Prop := {
  sp_on : pn_on P = v_active v 0;
  sp_vblank : pn_vblank P = v_active v 0;
  sp_timing : v_active v 0 = true -> pn_timing P = timing_words (v_mode v 0);
  sp_primary : pn_primary P = true -> is_Some (v_plane v 0);
  sp_exact : exact = true -> is_Some (v_plane v 0) -> pn_primary P = true;
  sp_event : pn_event P = false
}.

#[export] Instance panel_shows_proper exact : Proper ((≡@{view}) ==> (=) ==> iff) (panel_shows exact).
Proof.
  intros v w [_ Hp Ha Hm] P _ <-. split; intros [H1 H2 H3 H4 H5 H6]; split; try done;
    repeat (rewrite ?Ha, ?Hp, ?Hm in *); auto; rewrite <- ?Ha, <- ?Hp, <- ?Hm; auto.
Qed.

(** The overlay stays with a CRTC once it has one. *)
Definition spares_overlay (mm : ma35_commit) : Prop := SetPlaneCrtc 1 None ∉ mm_requests mm.

Lemma asks_keep_plane p rs : forall v,
  SetPlaneCrtc p None ∉ rs -> is_Some (v_plane v p) -> is_Some (v_plane (fold_left (fun v r => ask r v) rs v) p).
Proof.
  induction rs as [|r rs IH]; intros v Hn Hv; [done|]. apply not_elem_of_cons in Hn as [Hr Hn]. apply IH; [done|].
  destruct r as [| | | | | | | |q crtc]; try done. cbn. unfold update. case_decide as E; [|done]. subst q. by destruct crtc.
Qed.

(** What the planes of a commit do to the enable bit. *)
Lemma primary_after D s b :
  mc_num_plane D = 3%nat ->
  fold_left plane_bit (au_planes (update_of D s)) b
  = match as_planes s !! 1%nat with
    | Some (Some _, None) => false
    | _ => match as_planes s !! 0%nat with
           | Some (_, Some _) => true
           | Some (Some _, None) => false
           | _ => b
           end
    end.
Proof.
  intros Hn. cbn. unfold each_plane. rewrite Hn. cbn.
  destruct (as_planes s !! 0%nat) as [[[] []]|], (as_planes s !! 1%nat) as [[[] []]|],
    (as_planes s !! 2%nat) as [[[] []]|]; done.
Qed.

Section Shown.
Context `{AI : !AtomicInlines} `{L : !AtomicInlinesLaws} (exact : bool) (hk : kms_hooks) (D : mode_config) (s : atomic_state).
Context (C : config_ok D) (Hn : mc_num_crtc D = 1%nat) (Hp : mc_num_plane D = 3%nat) (R : routed hk D s).
Hypothesis Hstep : in_step timing_words s.
Hypothesis Hspare : exact = true -> is_Some (mc_plane D 1) -> is_Some (cur_plane D s 1).

Notation u := (update_of D s).

Lemma one_crtc : au_crtcs u = match as_crtcs s !! 0%nat with
                              | Some (o, x) => [mkce 0 (cf_st o) (cf_st x)]
                              | None => []
                              end.
Proof using Hn. cbn. unfold each_crtc. rewrite Hn. cbn. by destruct (as_crtcs s !! 0%nat) as [[]|]. Qed.

Lemma plane_entry_cur p o n : as_planes s !! p = Some (o, n) -> o = mc_plane D p /\ cur_plane D s p = n.
Proof using R.
  intros H. destruct (wf_plane _ _ (rd_wf _ _ _ R) _ _ _ H) as [_ ->]. unfold cur_plane. by rewrite H.
Qed.

(** A commit without the CRTC has no plane of it. *)
Lemma plane_outside p o n : as_crtcs s !! 0%nat = None -> as_planes s !! p = Some (o, n) -> o = None /\ n = None.
Proof using Hn Hp R.
  intros E Hpe.
  assert (Hno : forall c, o = Some c \/ n = Some c -> False).
  { intros c Hc. destruct (wf_plane_crtcs _ _ (rd_wf _ _ _ R) _ _ _ c Hpe Hc) as [[o' x] Hx].
    destruct (wf_crtc _ _ (rd_wf _ _ _ R) _ _ _ Hx) as (Hlt & _). assert (c = 0%nat) by lia. congruence. }
  destruct o as [c|]; [by destruct (Hno c); auto|]. destruct n as [c|]; [by destruct (Hno c); auto|done].
Qed.

(** The enable bit, before and after. *)
Lemma primary_shown b :
  (b = true -> is_Some (mc_plane D 0)) -> (exact = true -> is_Some (mc_plane D 0) -> b = true) ->
  let b' := fold_left plane_bit (au_planes u) b in
  (b' = true -> is_Some (cur_plane D s 0)) /\ (exact = true -> is_Some (cur_plane D s 0) -> b' = true).
Proof using Hp Hspare R.
  intros H1 H2. cbv zeta. rewrite primary_after by done.
  assert (H0 : forall b', b' = match as_planes s !! 0%nat with
                               | Some (_, Some _) => true | Some (Some _, None) => false | _ => b end ->
            (b' = true -> is_Some (cur_plane D s 0)) /\ (exact = true -> is_Some (cur_plane D s 0) -> b' = true)).
  { intros b' ->. destruct (as_planes s !! 0%nat) as [[o n]|] eqn:E.
    - destruct (plane_entry_cur _ _ _ E) as [-> ->]. by destruct (mc_plane D 0), n.
    - unfold cur_plane. by rewrite E. }
  destruct (as_planes s !! 1%nat) as [[[c|] [c'|]]|] eqn:E; try by apply H0. split; [done|].
  intros He _. destruct (plane_entry_cur _ _ _ E) as [Eo En].
  destruct Hspare as [c' Hc']; [done|rewrite <- Eo; by eexists|congruence].
Qed.

(** [event] is the one of the new state. *)
Lemma tail_shows a event P :
  panel_shows exact (view_of D) P -> (as_crtcs s !! 0%nat = None -> event = false) ->
  panel_shows exact (new_view D s)
    (runs (timing_words (cf_adjusted_mode (cur_crtc D s 0))) a (drm_atomic_helper_commit_tail ma35_commit_driver u)
          {| P with pn_event := event |}).
Proof using C L Hn Hp Hspare Hstep R.
  intros [H1 H2 H3 H4 H5 H6] Hev. cbn in H1, H2, H3, H4, H5.
  destruct (primary_shown (pn_primary P) H4 H5) as [Hb Hb'].
  pose proof one_crtc as Hu. destruct (as_crtcs s !! 0%nat) as [[o x]|] eqn:E.
  - destruct (wf_crtc _ _ (rd_wf _ _ _ R) _ _ _ E) as (Hlt & -> & Hs & _).
    destruct (rd_fine _ _ _ R _ _ _ E) as (Ha & Hm & _ & He & _).
    assert (Hx : new_crtc s 0 = Some x) by (unfold new_crtc; by rewrite E).
    rewrite (runs_tail _ _ u _ _ Hu) by (try done; by apply (ok_refresh _ C)). cbn [ce_old ce_new].
    assert (Hc : cur_crtc D s 0 = x) by (unfold cur_crtc; by rewrite Hx).
    assert (Hq : drm_atomic_crtc_needs_modeset (cf_st x) = false ->
                 st_active (cf_st (mc_crtc D 0)) = st_active (cf_st x)
                 /\ timing_words (cf_mode (mc_crtc D 0)) = timing_words (cf_mode x)).
    { rewrite needs_modeset_spec. intros [[Hmc Hac]%orb_false_iff _]%orb_false_iff. split.
      - destruct (decide (st_active (cf_st (mc_crtc D 0)) = st_active (cf_st x))) as [|Hd]; [done|]. by rewrite Ha in Hac.
      - apply timing_words_proper. apply mode_equal_iff. destruct (drm_mode_equal _ _) eqn:Em; [done|].
        rewrite Hm in Hmc; [done|]. rewrite <- mode_equal_iff, Em. by intros []. }
    split; cbn [pn_on pn_vblank pn_timing pn_primary pn_event]; cbn [new_view v_active v_mode v_plane]; rewrite ?Hc; try done.
    + destruct (drm_atomic_crtc_needs_modeset _), (st_active (cf_st x)), (st_active (cf_st (mc_crtc D 0))) eqn:Eo; cbn; try done;
        destruct (Hq eq_refl); congruence.
    + destruct (drm_atomic_crtc_needs_modeset _), (st_active (cf_st x)), (st_active (cf_st (mc_crtc D 0))) eqn:Eo; cbn; try done;
        destruct (Hq eq_refl); congruence.
    + intros Hact. rewrite Hact. destruct (drm_atomic_crtc_needs_modeset _); cbn [andb]; [exact (Hstep 0%nat x Hx)|].
      destruct (Hq eq_refl) as [E1 E2]. rewrite H3 by congruence. done.
  - rewrite Hev, <- H6 by done. replace {| P with pn_event := pn_event P |} with P by (by destruct P).
    rewrite runs_tail_none; [|done|].
    + assert (Hc : cur_crtc D s 0 = mc_crtc D 0) by (unfold cur_crtc, new_crtc; by rewrite E).
      assert (Hpl : forall p, is_Some (cur_plane D s p) <-> is_Some (mc_plane D p)).
      { intros p. unfold cur_plane. destruct (as_planes s !! p) as [[o n]|] eqn:Ep; [cbn|done].
        destruct (plane_entry_cur _ _ _ Ep) as [-> _].
        destruct (plane_outside _ _ _ E Ep) as [Eo ->]. by rewrite Eo. }
      split; cbn [new_view v_active v_mode v_plane]; rewrite ?Hc, ?Hpl; done.
    + intros pe (p & o & n & Hpe & ->)%in_planes. cbn.
      by eapply plane_outside.
Qed.
End Shown.

(** ** The device through commits *)

Section Follows.
Context {R : Type} `{Ho : !RegmapOps R} `{Hl : !RegmapLaws R} `{!RectOps} `{!PlaneRectOps}.
Context `{AI : !AtomicInlines} `{L : !AtomicInlinesLaws} (cfg : drm_mode_config) (oops : Z) (exact : bool).

(** What holds between commits. *)
Record ma35_inv (D : mode_config) (d : ma35_display (R := R)) : Prop := {
  mi_config : config_ok D;
  mi_crtc : mc_num_crtc D = 1%nat;
  mi_planes : mc_num_plane D = 3%nat;
  mi_adjusted : adjusted_ok timing_words D;
  mi_layers : layers_ok d;
  mi_plane p : (p < mc_num_plane D)%nat -> plane_fits p (dp_plane d p) /\ ps_crtc (dp_plane d p) = mc_plane D p;
  mi_panel : panel_shows exact (view_of D) (panel_of d)
}.

(** The states the planes get. *)
Lemma new_planes mm (D : mode_config) (d : ma35_display (R := R)) s p :
  ma35_inv D d -> checked_commit (ma35_commit_in cfg oops mm (dp_plane d)) D = inr s -> (p < mc_num_plane D)%nat ->
  let st := match as_planes s !! p with Some _ => checked_plane mm (dp_plane d) s p | None => dp_plane d p end in
  plane_fits p st /\ ps_crtc st = cur_plane D s p.
Proof using L.
  intros I Hck Hp. cbv zeta. unfold cur_plane. destruct (as_planes s !! p) as [[o n]|] eqn:E; [|by apply (mi_plane _ _ I)].
  destruct (planes_fit cfg oops mm (dp_plane d) D (mi_config _ _ I) (mi_plane _ _ I) s p o n Hck E) as (_ & Hf & Hc).
  destruct (checked_plane_same mm (dp_plane d) s p) as [E1 E2]. unfold plane_fits in *. rewrite E1, E2. by rewrite Hc in *.
Qed.

Lemma ioctl_follows mm D (d : ma35_display (R := R)) :
  bridges_keep mm -> (exact = true -> spares_overlay mm) -> ma35_inv D d ->
  exists ret D' d', ma35_atomic_ioctl cfg oops mm D d = Some (ret, D', d') /\ ma35_inv D' d'
  /\ view_of D' ≡ asked [ma35_commit_in cfg oops mm (dp_plane d)] [ret] (view_of D).
Proof using L Hl.
  intros K Hsp I. unfold ma35_atomic_ioctl. pose proof (mi_config _ _ I) as C.
  destruct (checked_commit _ D) as [err|s] eqn:E; [by exists (Some err), D, d|]. cbn [asked cm_test_only ma35_commit_in].
  destruct (mm_test_only mm); [by exists None, D, d|]. destruct (truthy (mm_prepare mm)); [by exists (Some (mm_prepare mm)), D, d|].
  pose proof (stable_ma35 cfg oops mm (dp_plane d) : stable_encoders (cm_hooks (ma35_commit_in cfg oops mm (dp_plane d)))) as Hst.
  destruct (checked_commit_spec _ D s C Hst E) as (Rt & F & V).
  destruct (commit_step timing_words _ D s C Hst (hooks_keep_ma35 cfg oops mm (dp_plane d) K)
              (mi_adjusted _ _ I) E) as [S Ha].
  cbv zeta. set (new p := match as_planes s !! p with Some _ => _ | None => dp_plane d p end).
  set (d0 := {| d with dp_event := _ |}).
  pose proof (fun p => new_planes mm D d s p I E) as Hnew. cbv zeta in Hnew.
  assert (Hgood : Forall (good_call new) (drm_atomic_helper_commit_tail ma35_commit_driver (update_of D s))).
  { apply tail_good. intros pe (p & o & y & Hpe & ->)%in_planes. cbn. intros Hy.
    destruct (wf_plane _ _ (rd_wf _ _ _ Rt) _ _ _ Hpe) as [Hlt _]. destruct (Hnew p Hlt) as [Hf Hc].
    apply fits_ready; [exact Hf|]. unfold new. rewrite Hc. unfold cur_plane. by rewrite Hpe. }
  destruct (calls_refine mm (mc_crtc (swap D s) 0) new _ d0 (mi_layers _ _ I) Hgood) as (d1 & H1 & Hl1 & _ & Hp1).
  rewrite H1. cbn [mbind option_bind]. exists None, (swap D s). eexists. split_and!; [reflexivity| |by rewrite swap_view].
  split; [by eapply swap_config_ok|apply (mi_crtc _ _ I)|apply (mi_planes _ _ I)|done|done| |].
  - intros p Hp. apply (Hnew p Hp).
  - rewrite swap_view. change (panel_of _) with (panel_of d1). rewrite Hp1.
    assert (Hc : mc_crtc (swap D s) 0 = cur_crtc D s 0)
      by (cbn; unfold cur_crtc, new_crtc; by destruct (as_crtcs s !! 0%nat) as [[]|]).
    rewrite Hc. pose proof (mi_panel _ _ I) as Hpan.
    assert (Ep : panel_of d0 = let P := panel_of d in {| P with pn_event := dp_event d0 |}) by done.
    rewrite Ep. cbv zeta.
    apply (tail_shows exact _ D s C (mi_crtc _ _ I) (mi_planes _ _ I) Rt S).
    + intros He Hv. pose proof (ve_plane _ _ V 1) as Ev. cbn in Ev. rewrite Ev. apply asks_keep_plane; [by apply Hsp|done].
    + done.
    + intros En. unfold d0. cbn. rewrite En. apply (sp_event _ _ _ Hpan).
Qed.

Lemma session_follows ms : forall D (d : ma35_display (R := R)),
  Forall bridges_keep ms -> (exact = true -> Forall spares_overlay ms) -> ma35_inv D d ->
  exists rets D' d', ma35_session cfg oops ms D d = Some (rets, D', d') /\ length rets = length ms /\ ma35_inv D' d'
  /\ view_of D' ≡ asked ((fun mm => ma35_commit_in cfg oops mm (dp_plane d)) <$> ms) rets (view_of D).
Proof using L Hl.
  induction ms as [|mm ms IH]; intros D d Hk Hs I; [by exists [], D, d|]. apply Forall_cons in Hk as [Hk Hks].
  destruct (ioctl_follows mm D d Hk) as (ret & D1 & d1 & H1 & I1 & V1); [intros He; by destruct (Forall_cons_1 _ _ _ (Hs He))|done|].
  destruct (IH D1 d1 Hks) as (rets & D2 & d2 & H2 & Hn & I2 & V2); [intros He; by destruct (Forall_cons_1 _ _ _ (Hs He))|done|].
  exists (ret :: rets), D2, d2. cbn [ma35_session]. rewrite H1. cbn [mbind option_bind]. rewrite H2.
  split_and!; [done|cbn; by rewrite Hn|done|]. rewrite V2.
  assert (Hcur : forall rets v w, v ≡ w ->
    asked ((fun mm => ma35_commit_in cfg oops mm (dp_plane d1)) <$> ms) rets v
    ≡ asked ((fun mm => ma35_commit_in cfg oops mm (dp_plane d)) <$> ms) rets w).
  { clear. induction ms as [|mm ms IH]; intros [|[r|] rets] v w Hv; cbn; try done; apply IH; [done|].
    destruct (mm_test_only mm); [done|by apply asks_proper]. }
  destruct ret; cbn; by apply Hcur.
Qed.
End Follows.

(** The same session whatever a check that dereferences NULL would answer. *)
Lemma session_whatever {R} `{Ho : !RegmapOps R} `{Hl : !RegmapLaws R} `{!RectOps} `{!PlaneRectOps}
    `{AI : !AtomicInlines} `{L : !AtomicInlinesLaws} cfg oops oops' exact ms : forall D (d : ma35_display (R := R)),
  Forall bridges_keep ms -> (exact = true -> Forall spares_overlay ms) -> ma35_inv exact D d ->
  ma35_session cfg oops ms D d = ma35_session cfg oops' ms D d.
Proof.
  induction ms as [|mm ms IH]; intros D d Hk Hs I; [done|]. apply Forall_cons in Hk as [Hk Hks]. cbn [ma35_session].
  assert (E : ma35_atomic_ioctl cfg oops mm D d = ma35_atomic_ioctl cfg oops' mm D d).
  { unfold ma35_atomic_ioctl.
    by rewrite (checked_whatever cfg oops oops' mm (dp_plane d) D (mi_config _ _ _ I) (mi_plane _ _ _ I)). }
  rewrite E.
  destruct (ioctl_follows cfg oops' exact mm D d Hk) as (ret & D1 & d1 & H1 & I1 & _);
    [intros He; by destruct (Forall_cons_1 _ _ _ (Hs He))|done|].
  rewrite H1. cbn [mbind option_bind]. rewrite (IH D1 d1 Hks); [done| |done].
  intros He. by destruct (Forall_cons_1 _ _ _ (Hs He)).
Qed.

(** ** Theorems *)

(** C2: from a state in which the MA35 panel shows the configuration, every sequence of
    atomic commits - whatever user space asks for, whatever is refused or fails - runs
    through the driver's checks and handlers without a NULL dereference.  (A check of a
    plane that dereferences NULL is taken to answer [oops], which would be the result of
    its commit: the outcome is the same for every [oops], so that no check does.)
    Afterwards the registers show what the commits that were neither refused nor only
    tests asked for: data enable and vblanks are on exactly if the CRTC is active, the
    timing registers then hold the words of its mode, the primary plane is enabled only
    if it has a CRTC, and no event is left behind.  The primary plane is also enabled
    whenever it has a CRTC, provided that no commit takes the overlay off ([exact]); the
    configuration is sound again.  The bridges behind the encoder are assumed to leave
    the timings alone. *)
Theorem ma35_display_follows {R} `{Ho : !RegmapOps R} `{Hl : !RegmapLaws R} `{Hr : !RectOps} `{Hp : !PlaneRectOps}
    `{AI : !AtomicInlines} `{L : !AtomicInlinesLaws} cfg exact ms D (d : ma35_display (R := R)) :
  Forall bridges_keep ms -> (exact = true -> Forall spares_overlay ms) -> ma35_inv exact D d ->
  exists rets D' d', (forall oops, ma35_session cfg oops ms D d = Some (rets, D', d')) /\ length rets = length ms
  /\ panel_shows exact (asked ((fun mm => ma35_commit_in cfg 0 mm (dp_plane d)) <$> ms) rets (view_of D)) (panel_of d')
  /\ ma35_inv exact D' d'.
Proof.
  intros Hk Hs I. destruct (session_follows cfg 0 exact ms D d Hk Hs I) as (rets & D' & d' & H & Hn & I' & V).
  exists rets, D', d'. split_and!; [|done| |done].
  - intros oops. rewrite <- H. by eapply session_whatever.
  - rewrite <- V. apply (mi_panel _ _ _ I').
Qed.

(** ** A session *)

#[local] Open Scope nat_scope.
#[local] Existing Instance documented_inlines.
#[local] Existing Instance documented_laws.

(** Nothing is on. *)
Definition ma35_dark : mode_config :=
  mkmc 1 1 3 (fun _ => dark_crtc) (fun _ => mkcnf None None 0 0 None false) (fun _ => None).

Definition no_plane : drm_plane_state :=
  let s := at_pos (xrgb_fb 1 800 480 1048576) 0 0 0 0 0 false in
  {| s with ps_crtc := None; ps_fb := None |}.

Definition ma35_booted : ma35_display (R := regfile) :=
  mkdisp regfile0 crtc_default (fun p => mklayer (ma35_plane_type p) [0; 0; 0]%Z) (fun _ => no_plane) false [].

(** The planes that have a CRTC show a framebuffer; the bridge passes the mode on. *)
Definition ma35_commit_of (rs : list request) (shown : nat -> bool) : ma35_commit :=
  mkmm no_failure rs true false 0
       (fun p => if shown p then at_pos (xrgb_fb 1 800 480 1048576) 0 0 0 0 0 false else no_plane) (fun _ => [])
       None false DRM_BUS_FLAG_DE_LOW false (fun r => r) 0 0 (fun _ => MODE_OK)
       (fun c s => (0%Z, match new_crtc s c with Some x => cf_adjusted_mode x | None => no_mode end)).

(** The screen is switched on; an overlay comes, and the mode changes; the overlay goes. *)
Definition ma35_session_on : list ma35_commit := [
  ma35_commit_of [SetMode 0 (Some (mkblob 7 (Some mode_800x480))); SetActive 0 true; SetConnectorCrtc 0 (Some 0);
                  SetPlaneCrtc 0 (Some 0); SetEvent 0] (fun _ => true);
  ma35_commit_of [SetMode 0 (Some (mkblob 8 (Some {| mode_800x480 with vdisplay := 400 |}))); SetPlaneCrtc 1 (Some 0)] (fun _ => true) ].
Definition ma35_overlay_off : ma35_commit := ma35_commit_of [SetPlaneCrtc 1 None] (fun _ => false).

(** What the panel shows, after two commits and after three: taking the overlay off
    switches the primary plane off, which still has its CRTC. *)
Example ma35_overlay_takes_primary :
  let after ms := (fun x => (x.1.1, mc_plane x.1.2 0, pn_on (panel_of x.2), pn_primary (panel_of x.2)))
                  <$> ma35_session (mkcfg 32 1 1920 1080 32 32 false false) 0 ms ma35_dark ma35_booted in
  after ma35_session_on = Some ([None; None], Some 0, true, true)
  /\ after (ma35_session_on ++ [ma35_overlay_off]) = Some ([None; None; None], Some 0, true, false).
Proof. vm_compute. split; reflexivity. Qed.

Lemma ma35_booted_ok exact : ma35_inv exact ma35_dark ma35_booted.
Proof.
  split; cbn; try done.
  - split; cbn; try done.
    + intros c k Hc Hk. apply Z.bits_0.
    + intros c e Hc. rewrite Z.bits_0. split; [done|]. by intros (k & _ & ? & _).
  - split; try done. by intros _ [].
Qed.

Lemma ma35_display_follows_witness :
  Forall bridges_keep ma35_session_on /\ (true = true -> Forall spares_overlay ma35_session_on)
  /\ ma35_inv true ma35_dark ma35_booted
  /\ exists rets D' d', (forall oops, ma35_session (mkcfg 32 1 1920 1080 32 32 false false) oops ma35_session_on
                                        ma35_dark ma35_booted = Some (rets, D', d'))
     /\ length rets = 2
     /\ panel_shows true (asked ((fun mm => ma35_commit_in (mkcfg 32 1 1920 1080 32 32 false false) 0 mm (dp_plane ma35_booted))
                                 <$> ma35_session_on) rets (view_of ma35_dark)) (panel_of d')
     /\ ma35_inv true D' d'.
Proof.
  assert (Hk : Forall bridges_keep ma35_session_on).
  { repeat constructor; intros c s x m Hx; cbn; rewrite Hx; by intros [= <-]. }
  assert (Hs : true = true -> Forall spares_overlay ma35_session_on).
  { intros _. repeat constructor; unfold spares_overlay; cbn; rewrite !not_elem_of_cons;
      (split_and!; [done..|apply not_elem_of_nil]). }
  split_and!; [exact Hk|exact Hs|apply ma35_booted_ok|].
  apply (ma35_display_follows (mkcfg 32 1 1920 1080 32 32 false false) true ma35_session_on ma35_dark ma35_booted
           Hk Hs (ma35_booted_ok true)).
Defined.
