(* ===== verification/VsDc.v ===== *)
(** * VsDc: chip database and generation-specific operations of the
      Verisilicon display controllers
      (src/drm/verisilicon/vs_hwdb.c, vs_dc8000.c, vs_dc8200.c, and the
      interrupt path of vs_dc.c and vs_drm.c)

    The two generations implement one table of operations, [vs_dc_funcs]; what
    the rest of the driver relies on is the class [VsDcContract], which both
    tables satisfy.  A NULL entry of the C table is [None]. *)

From S2P Require Export KernelApi Uapi.

Definition VSDC_MAX_OUTPUTS : Z := 2.

Definition VSDC_TOP_IRQ_ACK : Z := 0x10.
Definition VSDC_TOP_IRQ_EN : Z := 0x14.
Definition VSDC_TOP_CHIP_MODEL : Z := 0x20.
Definition VSDC_TOP_CHIP_REV : Z := 0x24.
Definition VSDC_TOP_CHIP_CUSTOMER_ID : Z := 0x30.
Definition VSDC_TOP_IRQ_VSYNC (n : Z) : Z := BIT n.
Definition VSDC_DISP_IRQ_STA : Z := 0x147C.
Definition VSDC_DISP_IRQ_EN : Z := 0x1480.
Definition VSDC_DISP_IRQ_VSYNC (n : Z) : Z := BIT n.
Definition VSDC_IRQ_VSYNC (n : Z) : Z := BIT n.

Definition VSDC_FB_CONFIG (n : Z) : Z := 0x1518 + 0x4 * n.
Definition VSDC_FB_CONFIG_ENABLE : Z := BIT 0.
Definition VSDC_FB_CONFIG_VALID : Z := BIT 3.
Definition VSDC_FB_CONFIG_RESET : Z := BIT 4.
Definition VSDC_FB_CONFIG_EX (n : Z) : Z := 0x1CC0 + 0x4 * n.
Definition VSDC_FB_CONFIG_EX_COMMIT : Z := BIT 12.
Definition VSDC_FB_CONFIG_EX_FB_EN : Z := BIT 13.
Definition VSDC_FB_CONFIG_EX_DISPLAY_ID_MASK : Z := GENMASK 19 19.
Definition VSDC_FB_CONFIG_EX_DISPLAY_ID (v : Z) : Z := v .<< 19.
Definition VSDC_FB_TOP_LEFT (n : Z) : Z := 0x24D8 + 0x4 * n.
Definition VSDC_FB_BOTTOM_RIGHT (n : Z) : Z := 0x24E0 + 0x4 * n.
Definition VSDC_FB_BLEND_CONFIG (n : Z) : Z := 0x2510 + 0x4 * n.
Definition VSDC_FB_BLEND_CONFIG_BLEND_DISABLE : Z := BIT 1.
Definition VSDC_DISP_PANEL_CONFIG (n : Z) : Z := 0x1418 + 0x4 * n.
Definition VSDC_DISP_PANEL_CONFIG_RUNNING : Z := BIT 12.
Definition VSDC_DISP_PANEL_START : Z := 0x1CCC.
Definition VSDC_DISP_PANEL_START_RUNNING (n : Z) : Z := BIT n.
Definition VSDC_DISP_PANEL_START_MULTI_DISP_SYNC : Z := BIT 3.
Definition VSDC_DISP_PANEL_CONFIG_EX (n : Z) : Z := 0x2518 + 0x4 * n.
Definition VSDC_DISP_PANEL_CONFIG_EX_COMMIT : Z := BIT 0.

Definition VSDC_MAKE_PLANE_SIZE (w h : Z) : Z := (w .& 0x7fff) .| ((h .& 0x7fff) .<< 15).
Definition VSDC_MAKE_PLANE_POS (x y : Z) : Z := (x .& 0x7fff) .| ((y .& 0x7fff) .<< 15).

(** ** Chip database (vs_hwdb.c) *)

Inductive vs_dc_generation : Set := VSDC_GEN_DC8000 | VSDC_GEN_DC8200.

#[export] Instance vs_dc_generation_eq_dec : EqDecision vs_dc_generation.
Proof. solve_decision. Defined.

Definition vs_formats_array_no_yuv444 : list fourcc := [
  DRM_FORMAT_XRGB4444; DRM_FORMAT_XBGR4444; DRM_FORMAT_RGBX4444; DRM_FORMAT_BGRX4444;
  DRM_FORMAT_ARGB4444; DRM_FORMAT_ABGR4444; DRM_FORMAT_RGBA4444; DRM_FORMAT_BGRA4444;
  DRM_FORMAT_XRGB1555; DRM_FORMAT_XBGR1555; DRM_FORMAT_RGBX5551; DRM_FORMAT_BGRX5551;
  DRM_FORMAT_ARGB1555; DRM_FORMAT_ABGR1555; DRM_FORMAT_RGBA5551; DRM_FORMAT_BGRA5551;
  DRM_FORMAT_RGB565; DRM_FORMAT_BGR565;
  DRM_FORMAT_XRGB8888; DRM_FORMAT_XBGR8888; DRM_FORMAT_RGBX8888; DRM_FORMAT_BGRX8888;
  DRM_FORMAT_ARGB8888; DRM_FORMAT_ABGR8888; DRM_FORMAT_RGBA8888; DRM_FORMAT_BGRA8888;
  DRM_FORMAT_ARGB2101010; DRM_FORMAT_ABGR2101010; DRM_FORMAT_RGBA1010102;
  DRM_FORMAT_BGRA1010102].

Definition vs_formats_array_with_yuv444 : list fourcc := [
  DRM_FORMAT_XRGB4444; DRM_FORMAT_XBGR4444; DRM_FORMAT_RGBX4444; DRM_FORMAT_BGRX4444;
  DRM_FORMAT_ARGB4444; DRM_FORMAT_ABGR4444; DRM_FORMAT_RGBA4444; DRM_FORMAT_BGRA4444;
  DRM_FORMAT_XRGB1555; DRM_FORMAT_XBGR1555; DRM_FORMAT_RGBX5551; DRM_FORMAT_BGRX5551;
  DRM_FORMAT_ARGB1555; DRM_FORMAT_ABGR1555; DRM_FORMAT_RGBA5551; DRM_FORMAT_BGRA5551;
  DRM_FORMAT_RGB565; DRM_FORMAT_BGR565;
  DRM_FORMAT_XRGB8888; DRM_FORMAT_XBGR8888; DRM_FORMAT_RGBX8888; DRM_FORMAT_BGRX8888;
  DRM_FORMAT_ARGB8888; DRM_FORMAT_ABGR8888; DRM_FORMAT_RGBA8888; DRM_FORMAT_BGRA8888;
  DRM_FORMAT_ARGB2101010; DRM_FORMAT_ABGR2101010; DRM_FORMAT_RGBA1010102;
  DRM_FORMAT_BGRA1010102].

Record vs_chip_identity := mkident {
  model : Z; revision : Z; customer_id : Z;
  generation : vs_dc_generation;
  display_count : Z;
  max_cursor_size : Z;
  formats_of : list fourcc
}.

Definition vs_chip_identities : list vs_chip_identity := [
  mkident 0x8200 0x5720 U32_MAX VSDC_GEN_DC8200 2 64 vs_formats_array_no_yuv444;
  mkident 0x8200 0x5721 0x30B VSDC_GEN_DC8200 2 64 vs_formats_array_no_yuv444;
  mkident 0x8200 0x5720 0x310 VSDC_GEN_DC8200 2 64 vs_formats_array_with_yuv444;
  mkident 0x8200 0x5720 0x311 VSDC_GEN_DC8200 2 64 vs_formats_array_no_yuv444;
  mkident 0x0 0x5560 0x305 VSDC_GEN_DC8000 1 32 vs_formats_array_no_yuv444].

(** The loop over the table: the first entry that matches. *)
Fixpoint vs_find_identity (l : list vs_chip_identity) (m r c : Z) : option vs_chip_identity :=
  match l with
  | [] => None
  | i :: l =>
      if (model i =? m) && (revision i =? r)
         && ((customer_id i =? c) || (customer_id i =? U32_MAX))
      then Some {| i with customer_id := c |}
      else vs_find_identity l m r c
  end.

Section Funcs.
Context {D : Type} `{!RegmapOps D}.

Definition vs_fill_chip_identity (d : D) (ident : vs_chip_identity)
  : Z * vs_chip_identity :=
  let m := regmap_read d VSDC_TOP_CHIP_MODEL in
  let r := regmap_read d VSDC_TOP_CHIP_REV in
  let c := regmap_read d VSDC_TOP_CHIP_CUSTOMER_ID in
  match vs_find_identity vs_chip_identities m r c with
  | Some i => (0, i)
  | None => (- EINVAL, ident)
  end.

(** ** Operation tables (vs_dc.h) *)

(** [irq_ack] answers the unified bits, and the unknown hardware bits it
    warned about. *)
Record vs_dc_funcs := mkfuncs {
  panel_enable_ex : D -> Z -> D;
  panel_disable_ex : D -> Z -> D;
  crtc_begin : option (D -> Z -> D);
  crtc_flush : option (D -> Z -> D);
  crtc_enable_ex : option (D -> Z -> D);
  crtc_disable_ex : option (D -> Z -> D);
  enable_vblank : D -> Z -> D;
  disable_vblank : D -> Z -> D;
  primary_plane_enable_ex : option (D -> Z -> D);
  primary_plane_disable_ex : option (D -> Z -> D);
  primary_plane_update_ex : option (D -> Z -> drm_plane_state -> D);
  irq_ack : D -> Z * Z
}.

(** [if (dc->funcs->hook) dc->funcs->hook(dc, output);] *)
Definition call_hook (hook : option (D -> Z -> D)) (d : D) (output : Z) : D :=
  match hook with Some f => f d output | None => d end.

(** The loop of both [irq_ack] functions; [vsync] is the hardware's bit. *)
Definition irq_unify (vsync : Z -> Z) (hw_irqs : Z) : Z * Z :=
  let '(unified, known) :=
    foldl (fun '(unified, known) i =>
             let known := known .| vsync i in
             let unified := if truthy (hw_irqs .& vsync i)
                            then unified .| VSDC_IRQ_VSYNC i else unified in
             (unified, known))
          (0, 0) (seqZ 0 VSDC_MAX_OUTPUTS) in
  (unified, hw_irqs .& Z.lnot known).

(** *** DC8000 *)

Definition vs_dc8000_panel_enable_ex (d : D) (output : Z) : D :=
  regmap_set_bits d (VSDC_FB_CONFIG output) VSDC_FB_CONFIG_RESET.
Definition vs_dc8000_panel_disable_ex (d : D) (output : Z) : D :=
  regmap_clear_bits d (VSDC_FB_CONFIG output) VSDC_FB_CONFIG_RESET.
Definition vs_dc8000_crtc_begin (d : D) (output : Z) : D :=
  regmap_set_bits d (VSDC_FB_CONFIG output) VSDC_FB_CONFIG_VALID.
Definition vs_dc8000_crtc_flush (d : D) (output : Z) : D :=
  regmap_clear_bits d (VSDC_FB_CONFIG output) VSDC_FB_CONFIG_VALID.
Definition vs_dc8000_crtc_enable_ex (d : D) (output : Z) : D :=
  regmap_set_bits d (VSDC_FB_CONFIG output) VSDC_FB_CONFIG_ENABLE.
Definition vs_dc8000_crtc_disable_ex (d : D) (output : Z) : D :=
  regmap_clear_bits d (VSDC_FB_CONFIG output) VSDC_FB_CONFIG_ENABLE.
Definition vs_dc8000_enable_vblank (d : D) (output : Z) : D :=
  regmap_set_bits d VSDC_DISP_IRQ_EN (VSDC_DISP_IRQ_VSYNC output).
Definition vs_dc8000_disable_vblank (d : D) (output : Z) : D :=
  regmap_clear_bits d VSDC_DISP_IRQ_EN (VSDC_DISP_IRQ_VSYNC output).
Definition vs_dc8000_irq_ack (d : D) : Z * Z :=
  irq_unify VSDC_DISP_IRQ_VSYNC (regmap_read d VSDC_DISP_IRQ_STA).

Definition vs_dc8000_funcs : vs_dc_funcs := {|
  panel_enable_ex := vs_dc8000_panel_enable_ex;
  panel_disable_ex := vs_dc8000_panel_disable_ex;
  crtc_begin := Some vs_dc8000_crtc_begin;
  crtc_flush := Some vs_dc8000_crtc_flush;
  crtc_enable_ex := Some vs_dc8000_crtc_enable_ex;
  crtc_disable_ex := Some vs_dc8000_crtc_disable_ex;
  enable_vblank := vs_dc8000_enable_vblank;
  disable_vblank := vs_dc8000_disable_vblank;
  primary_plane_enable_ex := None;
  primary_plane_disable_ex := None;
  primary_plane_update_ex := None;
  irq_ack := vs_dc8000_irq_ack
|}.

(** *** DC8200 *)

Definition vs_dc8200_panel_enable_ex (d : D) (output : Z) : D :=
  let d := regmap_set_bits d (VSDC_DISP_PANEL_CONFIG output) VSDC_DISP_PANEL_CONFIG_RUNNING in
  let d := regmap_clear_bits d VSDC_DISP_PANEL_START VSDC_DISP_PANEL_START_MULTI_DISP_SYNC in
  let d := regmap_set_bits d VSDC_DISP_PANEL_START (VSDC_DISP_PANEL_START_RUNNING output) in
  regmap_set_bits d (VSDC_DISP_PANEL_CONFIG_EX output) VSDC_DISP_PANEL_CONFIG_EX_COMMIT.

Definition vs_dc8200_panel_disable_ex (d : D) (output : Z) : D :=
  let d := regmap_clear_bits d (VSDC_DISP_PANEL_CONFIG output) VSDC_DISP_PANEL_CONFIG_RUNNING in
  let d := regmap_clear_bits d VSDC_DISP_PANEL_START
             (VSDC_DISP_PANEL_START_MULTI_DISP_SYNC .| VSDC_DISP_PANEL_START_RUNNING output) in
  regmap_set_bits d (VSDC_DISP_PANEL_CONFIG_EX output) VSDC_DISP_PANEL_CONFIG_EX_COMMIT.

Definition vs_dc8200_enable_vblank (d : D) (output : Z) : D :=
  regmap_set_bits d VSDC_TOP_IRQ_EN (VSDC_TOP_IRQ_VSYNC output).
Definition vs_dc8200_disable_vblank (d : D) (output : Z) : D :=
  regmap_clear_bits d VSDC_TOP_IRQ_EN (VSDC_TOP_IRQ_VSYNC output).

Definition vs_dc8200_plane_commit (d : D) (output : Z) : D :=
  regmap_set_bits d (VSDC_FB_CONFIG_EX output) VSDC_FB_CONFIG_EX_COMMIT.

Definition vs_dc8200_primary_plane_enable_ex (d : D) (output : Z) : D :=
  let d := regmap_set_bits d (VSDC_FB_CONFIG_EX output) VSDC_FB_CONFIG_EX_FB_EN in
  let d := regmap_update_bits d (VSDC_FB_CONFIG_EX output)
             VSDC_FB_CONFIG_EX_DISPLAY_ID_MASK (VSDC_FB_CONFIG_EX_DISPLAY_ID output) in
  vs_dc8200_plane_commit d output.

Definition vs_dc8200_primary_plane_disable_ex (d : D) (output : Z) : D :=
  let d := regmap_set_bits d (VSDC_FB_CONFIG_EX output) VSDC_FB_CONFIG_EX_FB_EN in
  vs_dc8200_plane_commit d output.

(** [crtc_w] and [crtc_h] are unsigned: the sums are taken modulo 2^32. *)
Definition vs_dc8200_primary_plane_update_ex (d : D) (output : Z)
    (state : drm_plane_state) : D :=
  let d := regmap_write d (VSDC_FB_TOP_LEFT output)
             (u32 (VSDC_MAKE_PLANE_POS (crtc_x state) (crtc_y state))) in
  let d := regmap_write d (VSDC_FB_BOTTOM_RIGHT output)
             (u32 (VSDC_MAKE_PLANE_POS (u32 (crtc_x state + crtc_w state))
                                       (u32 (crtc_y state + crtc_h state)))) in
  let d := regmap_write d (VSDC_FB_BLEND_CONFIG output) VSDC_FB_BLEND_CONFIG_BLEND_DISABLE in
  vs_dc8200_plane_commit d output.

Definition vs_dc8200_irq_ack (d : D) : Z * Z :=
  irq_unify VSDC_TOP_IRQ_VSYNC (regmap_read d VSDC_TOP_IRQ_ACK).

Definition vs_dc8200_funcs : vs_dc_funcs := {|
  panel_enable_ex := vs_dc8200_panel_enable_ex;
  panel_disable_ex := vs_dc8200_panel_disable_ex;
  crtc_begin := None;
  crtc_flush := None;
  crtc_enable_ex := None;
  crtc_disable_ex := None;
  enable_vblank := vs_dc8200_enable_vblank;
  disable_vblank := vs_dc8200_disable_vblank;
  primary_plane_enable_ex := Some vs_dc8200_primary_plane_enable_ex;
  primary_plane_disable_ex := Some vs_dc8200_primary_plane_disable_ex;
  primary_plane_update_ex := Some vs_dc8200_primary_plane_update_ex;
  irq_ack := vs_dc8200_irq_ack
|}.

(** ** Interrupts (vs_dc.c, vs_drm.c) *)

(** The loop of [vs_drm_handle_irq], from output [i].  [crtcs] is
    [dc->drm_dev->crtcs], true where a CRTC is set; [None] is a NULL
    [dc->drm_dev], and a result of [None] its dereference.  Returns the bits
    not handled and the outputs whose vblank was reported. *)
Fixpoint handle_irq_loop (crtcs : option (list bool)) (n : nat) (i irqs : Z)
  : option (Z * list Z) :=
  match n with
  | O => Some (irqs, [])
  | S n =>
      if truthy (irqs .& VSDC_IRQ_VSYNC i) then
        let irqs := irqs .& Z.lnot (VSDC_IRQ_VSYNC i) in
        match crtcs with
        | None => None
        | Some l =>
            let ev := if nth (Z.to_nat i) l false then [i] else [] in
            match handle_irq_loop crtcs n (i + 1) irqs with
            | None => None
            | Some (irqs, evs) => Some (irqs, ev ++ evs)
            end
        end
      else handle_irq_loop crtcs n (i + 1) irqs
  end.

(** The unhandled bits are warned about. *)
Definition vs_drm_handle_irq (count : Z) (crtcs : option (list bool)) (irqs : Z)
  : option (Z * list Z) := handle_irq_loop crtcs (Z.to_nat count) 0 irqs.

Definition vs_dc_irq_handler (funcs : vs_dc_funcs) (count : Z)
    (crtcs : option (list bool)) (d : D) : option (Z * list Z) :=
  let '(irqs, _) := irq_ack funcs d in vs_drm_handle_irq count crtcs irqs.

End Funcs.
Arguments vs_dc_funcs : clear implicits.

(** ** The contract of a generation

    [irq_sta] and [irq_en] are the generation's interrupt registers. *)
Class VsDcContract {D} `{!RegmapOps D} (f : vs_dc_funcs D) (irq_sta irq_en : Z) : Prop := {
  (** the two known bits in the unified positions, the others reported *)
  irq_ack_eq d :
    irq_ack f d = (regmap_read d irq_sta mod 4, Z.ldiff (regmap_read d irq_sta) 3);
  (** vblank interrupts per output, nothing else touched *)
  enable_vblank_eq d n : 0 <= n < VSDC_MAX_OUTPUTS ->
    regmap_read (enable_vblank f d n) irq_en = regmap_read d irq_en .| BIT n;
  disable_vblank_eq d n : 0 <= n < VSDC_MAX_OUTPUTS ->
    regmap_read (disable_vblank f d n) irq_en = Z.ldiff (regmap_read d irq_en) (BIT n);
  vblank_frame d n r : irq_en <> r ->
    regmap_read (enable_vblank f d n) r = regmap_read d r
    /\ regmap_read (disable_vblank f d n) r = regmap_read d r;
  (** the interrupts of an output do not depend on the panel and CRTC state *)
  panel_frame d n : 0 <= n < VSDC_MAX_OUTPUTS ->
    regmap_read (panel_enable_ex f d n) irq_en = regmap_read d irq_en
    /\ regmap_read (panel_disable_ex f d n) irq_en = regmap_read d irq_en;
  crtc_frame d n : 0 <= n < VSDC_MAX_OUTPUTS ->
    Forall (fun hook => regmap_read (call_hook hook d n) irq_en = regmap_read d irq_en)
      [crtc_begin f; crtc_flush f; crtc_enable_ex f; crtc_disable_ex f;
       primary_plane_enable_ex f; primary_plane_disable_ex f]
}.

(** ** Facts *)

Lemma mod4_bits x : x mod 4 = Z.b2z (Z.testbit x 0) + 2 * Z.b2z (Z.testbit x 1).
Proof.
  change 4 with (2 * 2). rewrite Z.rem_mul_r by lia.
  rewrite <- Z.bit0_mod. by rewrite (Z.testbit_spec' x 1) by lia.
Qed.

Lemma irq_unify_eq hw : irq_unify BIT hw = (hw mod 4, Z.ldiff hw 3).
Proof.
  unfold irq_unify, VSDC_IRQ_VSYNC. change (seqZ 0 VSDC_MAX_OUTPUTS) with [0; 1]. cbn [foldl].
  rewrite !truthy_land_BIT by lia. rewrite mod4_bits. f_equal.
  by destruct (Z.testbit hw 0), (Z.testbit hw 1).
Qed.

Lemma find_identity_spec l m r c i :
  vs_find_identity l m r c = Some i ->
  exists e, e ∈ l /\ i = {| e with customer_id := c |} /\ model e = m /\ revision e = r
    /\ (customer_id e = c \/ customer_id e = U32_MAX).
Proof.
  induction l as [|e l IH]; cbn; [done|]. destruct (_ && _)%bool eqn:Em.
  - rewrite !andb_true_iff, orb_true_iff, !Z.eqb_eq in Em. destruct Em as [[Em Er] Ec].
    intros [= <-]. exists e. split; [by left|]. done.
  - intros Hi. destruct (IH Hi) as (e' & He & H'). exists e'. split; [by right|done].
Qed.

Lemma clear_bit_testbit x i j :
  0 <= i -> 0 <= j -> Z.testbit (x .& Z.lnot (BIT i)) j = (Z.testbit x j && negb (j =? i))%bool.
Proof. intros Hi Hj. by rewrite Z.land_spec, Z.lnot_spec, BIT_testbit by done. Qed.

Lemma filter_ext_in {A} (P Q : A -> bool) (l : list A) :
  (forall x, x ∈ l -> P x = Q x) -> filter P l = filter Q l.
Proof.
  induction l as [|x l IH]; intros H; [done|]. rewrite !filter_cons, IH by (intros; apply H; by right).
  by rewrite (H x) by (by left).
Qed.

(** The loop in full. *)
Lemma handle_irq_loop_some l n : forall i irqs, 0 <= i ->
  handle_irq_loop (Some l) n i irqs
  = Some (Z.ldiff irqs (Z.ones (Z.of_nat n) .<< i),
          filter (fun j => Z.testbit irqs j && nth (Z.to_nat j) l false) (seqZ i (Z.of_nat n))).
Proof.
  induction n as [|n IH]; intros i irqs Hi.
  { cbn [handle_irq_loop]. f_equal. change (Z.ones (Z.of_nat 0)) with 0.
    by rewrite Z.shiftl_0_l, Z.ldiff_0_r. }
  cbn [handle_irq_loop]. unfold VSDC_IRQ_VSYNC. rewrite truthy_land_BIT by done.
  rewrite (seqZ_cons i) by lia. replace (Z.pred (Z.of_nat (S n))) with (Z.of_nat n) by lia.
  change (Z.succ i) with (i + 1). rewrite filter_cons.
  assert (Hones : forall x, (Z.testbit irqs i = false -> x = irqs) ->
    (Z.testbit irqs i = true -> x = irqs .& Z.lnot (BIT i)) ->
    Z.ldiff x (Z.ones (Z.of_nat n) .<< (i + 1)) = Z.ldiff irqs (Z.ones (Z.of_nat (S n)) .<< i)).
  { intros x Hf Ht. apply Z.bits_inj'. intros j Hj. rewrite !Z.ldiff_spec, !Z.shiftl_spec by done.
    assert (Hx : Z.testbit x j = (Z.testbit irqs j && negb (j =? i))%bool).
    { destruct (Z.testbit irqs i) eqn:E; [by rewrite Ht, clear_bit_testbit|].
      rewrite Hf by done. destruct (Z.eqb_spec j i) as [->|]; [by rewrite E|by rewrite andb_true_r]. }
    rewrite Hx, !Z.testbit_ones by lia.
    destruct (Z.testbit irqs j); cbn; [|done].
    destruct (Z.eqb_spec j i) as [->|]; cbn.
    - symmetry. apply negb_false_iff, andb_true_iff. rewrite Z.leb_le, Z.ltb_lt. lia.
    - f_equal. apply eq_true_iff_eq. rewrite !andb_true_iff, !Z.leb_le, !Z.ltb_lt. lia. }
  destruct (Z.testbit irqs i) eqn:E; cbn [andb].
  - rewrite IH by lia. rewrite Hones by done. f_equal. f_equal.
    rewrite (filter_ext_in _ (fun j => Z.testbit irqs j && nth (Z.to_nat j) l false)%bool).
    + by destruct (nth (Z.to_nat i) l false).
    + intros j Hj. apply elem_of_seqZ in Hj. rewrite clear_bit_testbit by lia.
      replace (j =? i) with false by (symmetry; apply Z.eqb_neq; lia). by rewrite andb_true_r.
  - rewrite IH by lia. by rewrite Hones.
Qed.

Lemma handle_irq_loop_none n : forall i irqs, 0 <= i ->
  handle_irq_loop None n i irqs = None
  <-> exists j, i <= j < i + Z.of_nat n /\ Z.testbit irqs j = true.
Proof.
  induction n as [|n IH]; intros i irqs Hi; cbn [handle_irq_loop].
  { split; [done|]. intros (j & Hj & _). lia. }
  unfold VSDC_IRQ_VSYNC. rewrite truthy_land_BIT by done.
  destruct (Z.testbit irqs i) eqn:E.
  - split; [|done]. intros _. exists i. split; [lia|done].
  - rewrite IH by lia. split; intros (j & Hj & Hb); exists j; (split; [|done]); [lia|].
    assert (j <> i) by congruence. lia.
Qed.

Section Facts.
Context {D : Type} `{Ho : !RegmapOps D} `{Hl : !RegmapLaws D}.

#[export] Instance vs_dc8000_contract :
  VsDcContract (vs_dc8000_funcs (D:=D)) VSDC_DISP_IRQ_STA VSDC_DISP_IRQ_EN.
Proof.
  split; unfold VSDC_MAX_OUTPUTS; cbn.
  - intros d. apply irq_unify_eq.
  - intros d n Hn. assert (n = 0 \/ n = 1) as [->| ->] by lia;
      unfold vs_dc8000_enable_vblank; rm_simp; apply rmw_set.
  - intros d n Hn. assert (n = 0 \/ n = 1) as [->| ->] by lia;
      unfold vs_dc8000_disable_vblank; rm_simp; apply rmw_clear.
  - intros d n r Hr. unfold vs_dc8000_enable_vblank, vs_dc8000_disable_vblank. rm_unfold_bits.
    by rewrite !regmap_read_update_ne.
  - intros d n Hn. assert (n = 0 \/ n = 1) as [->| ->] by lia;
      unfold vs_dc8000_panel_enable_ex, vs_dc8000_panel_disable_ex; by rm_simp.
  - intros d n Hn. assert (n = 0 \/ n = 1) as [->| ->] by lia;
      repeat (apply Forall_cons; split); try apply Forall_nil;
      unfold vs_dc8000_crtc_begin, vs_dc8000_crtc_flush, vs_dc8000_crtc_enable_ex,
        vs_dc8000_crtc_disable_ex; cbn; by rm_simp.
Qed.

#[export] Instance vs_dc8200_contract :
  VsDcContract (vs_dc8200_funcs (D:=D)) VSDC_TOP_IRQ_ACK VSDC_TOP_IRQ_EN.
Proof.
  split; unfold VSDC_MAX_OUTPUTS; cbn.
  - intros d. apply irq_unify_eq.
  - intros d n Hn. assert (n = 0 \/ n = 1) as [->| ->] by lia;
      unfold vs_dc8200_enable_vblank; rm_simp; apply rmw_set.
  - intros d n Hn. assert (n = 0 \/ n = 1) as [->| ->] by lia;
      unfold vs_dc8200_disable_vblank; rm_simp; apply rmw_clear.
  - intros d n r Hr. unfold vs_dc8200_enable_vblank, vs_dc8200_disable_vblank. rm_unfold_bits.
    by rewrite !regmap_read_update_ne.
  - intros d n Hn. assert (n = 0 \/ n = 1) as [->| ->] by lia;
      unfold vs_dc8200_panel_enable_ex, vs_dc8200_panel_disable_ex; by rm_simp.
  - intros d n Hn. assert (n = 0 \/ n = 1) as [->| ->] by lia;
      repeat (apply Forall_cons; split); try apply Forall_nil;
      unfold vs_dc8200_primary_plane_enable_ex, vs_dc8200_primary_plane_disable_ex,
        vs_dc8200_plane_commit; cbn; by rm_simp.
Qed.
End Facts.

(** ** Main theorems *)

(** What the rest of the driver takes from an identity. *)
Definition identity_wf (i : vs_chip_identity) : Prop :=
  1 <= display_count i <= VSDC_MAX_OUTPUTS
  /\ (max_cursor_size i = 32 \/ max_cursor_size i = 64)
  /\ NoDup (formats_of i) /\ formats_of i = vs_formats_array_no_yuv444.

Section Theorems.
Context {D : Type} `{Ho : !RegmapOps D} `{Hl : !RegmapLaws D}.

(** Chip identification. [vs_fill_chip_identity] succeeds exactly on the
    DC8200 revision 0x5720 with any customer, the DC8200 revision 0x5721 of
    customer 0x30B and the DCUltraLite of customer 0x305; the identity carries
    the values read from the chip, one or two outputs, a cursor size of 32 or
    64 and duplicate-free formats, and a DC8000 has one output; otherwise
    -EINVAL and the old identity. The entries for the customers 0x310 and 0x311
    are never used: an earlier wildcard entry shadows them. *)
Theorem vs_chip_identity_exact (d : D) old :
  let m := regmap_read d VSDC_TOP_CHIP_MODEL in
  let r := regmap_read d VSDC_TOP_CHIP_REV in
  let c := regmap_read d VSDC_TOP_CHIP_CUSTOMER_ID in
  let '(ret, i) := vs_fill_chip_identity d old in
  if ((m =? 0x8200) && (r =? 0x5720)) || ((m =? 0x8200) && (r =? 0x5721) && (c =? 0x30B))
     || ((m =? 0) && (r =? 0x5560) && (c =? 0x305))
  then ret = 0 /\ model i = m /\ revision i = r /\ customer_id i = c /\ identity_wf i
       /\ generation i = (if m =? 0 then VSDC_GEN_DC8000 else VSDC_GEN_DC8200)
       /\ (generation i = VSDC_GEN_DC8000 -> display_count i = 1)
  else ret = - EINVAL /\ i = old.
Proof.
  intros m r c. unfold vs_fill_chip_identity. fold m r c.
  unfold vs_chip_identities. cbn [vs_find_identity model revision customer_id generation
    display_count max_cursor_size formats_of].
  rewrite (Z.eqb_sym 0x8200 m), (Z.eqb_sym 0x0 m), (Z.eqb_sym 0x5720 r), (Z.eqb_sym 0x5721 r),
    (Z.eqb_sym 0x5560 r), (Z.eqb_sym 0x30B c), (Z.eqb_sym 0x305 c), (Z.eqb_sym 0x310 c),
    (Z.eqb_sym 0x311 c).
  rewrite Z.eqb_refl, orb_true_r.
  change (0x30B =? U32_MAX) with false. change (0x310 =? U32_MAX) with false.
  change (0x311 =? U32_MAX) with false. change (0x305 =? U32_MAX) with false.
  rewrite !orb_false_r, !andb_true_r.
  assert (Hwf : forall i, (1 <= display_count i <= 2) -> formats_of i = vs_formats_array_no_yuv444 ->
    (max_cursor_size i = 32 \/ max_cursor_size i = 64) -> identity_wf i).
  { intros i Hd Hf Hm. split; [exact Hd|]. split; [exact Hm|]. split; [|exact Hf].
    rewrite Hf. apply (bool_decide_unpack _). by vm_compute. }
  destruct (Z.eqb_spec m 0x8200) as [Hm|Hm], (Z.eqb_spec r 0x5720) as [Hr|Hr],
    (Z.eqb_spec r 0x5721) as [Hr'|Hr'], (Z.eqb_spec c 0x30B) as [Hc|Hc];
    try lia; cbn [andb orb].
  all: try (rewrite ?Hm, ?Hr, ?Hr', ?Hc; repeat split; first [done | apply Hwf; cbn; (done || lia || by right)]).
  all: destruct (Z.eqb_spec m 0) as [Hm0|Hm0], (Z.eqb_spec r 0x5560) as [Hr0|Hr0],
    (Z.eqb_spec c 0x305) as [Hc0|Hc0]; try done; cbn [andb].
  all: rewrite ?Hm0, ?Hr0; repeat split; first [done | apply Hwf; cbn; (done || lia || by left)].
Qed.

(** The interrupt path, for any generation that meets the contract: with a
    DRM device, the handler reports exactly the vblanks of the outputs whose
    status bit is set and whose CRTC exists, in output order, and leaves over
    exactly the known bits of outputs the chip does not have. Without a DRM
    device it dereferences a NULL pointer iff the bit of an existing output is
    set. Enabling and disabling the vblank of an output changes its enable bit
    and no other. *)
Theorem vs_irq_delivery f sta en `{!VsDcContract (D:=D) f sta en} (d : D) count l n :
  0 <= count <= VSDC_MAX_OUTPUTS -> 0 <= n < VSDC_MAX_OUTPUTS ->
  let st := regmap_read d sta in
  vs_dc_irq_handler f count (Some l) d
  = Some (Z.ldiff (st mod 4) (Z.ones count),
          filter (fun i => Z.testbit st i && nth (Z.to_nat i) l false) (seqZ 0 count))
  /\ (vs_dc_irq_handler f count None d = None
      <-> exists i, 0 <= i < count /\ Z.testbit st i = true)
  /\ (forall i, Z.testbit (regmap_read (enable_vblank f d n) en) i
                = (Z.testbit (regmap_read d en) i || (i =? n))%bool)
  /\ (forall i, Z.testbit (regmap_read (disable_vblank f d n) en) i
                = (Z.testbit (regmap_read d en) i && negb (i =? n))%bool).
Proof.
  intros Hc Hn st. unfold VSDC_MAX_OUTPUTS in Hc, Hn.
  rewrite enable_vblank_eq, disable_vblank_eq by done.
  unfold vs_dc_irq_handler. rewrite irq_ack_eq. fold st. unfold vs_drm_handle_irq.
  split; [|split; [|split]].
  - rewrite handle_irq_loop_some, Z2Nat.id, Z.shiftl_0_r by lia. f_equal. f_equal.
    apply filter_ext_in. intros j Hj. apply elem_of_seqZ in Hj.
    change 4 with (2 ^ 2). by rewrite Z.mod_pow2_bits_low by lia.
  - rewrite handle_irq_loop_none, Z2Nat.id, Z.add_0_l by lia.
    split; intros (j & Hj & Hb); exists j; (split; [done|]); revert Hb;
      change 4 with (2 ^ 2); by rewrite Z.mod_pow2_bits_low by lia.
  - intros i. by rewrite Z.lor_spec, BIT_testbit by lia.
  - intros i. by rewrite Z.ldiff_spec, BIT_testbit by lia.
Qed.
End Theorems.

(** ** Witnesses *)

Definition dc8200_chip : regfile :=
  regmap_write (regmap_write regfile0 VSDC_TOP_CHIP_MODEL 0x8200) VSDC_TOP_CHIP_REV 0x5720.

Lemma vs_chip_identity_exact_witness :
  fst (vs_fill_chip_identity dc8200_chip (mkident 0 0 0 VSDC_GEN_DC8000 0 0 [])) = 0.
Proof.
  pose proof (vs_chip_identity_exact dc8200_chip (mkident 0 0 0 VSDC_GEN_DC8000 0 0 [])) as H.
  destruct (vs_fill_chip_identity _ _) as [ret i]. cbn [fst].
  exact (proj1 H).
Defined.

Lemma vs_irq_delivery_witness :
  vs_dc_irq_handler (vs_dc8200_funcs (D:=regfile)) 2 (Some [true; true])
    (regmap_write regfile0 VSDC_TOP_IRQ_ACK 3) = Some (0, [0; 1]).
Proof.
  pose proof (vs_irq_delivery (vs_dc8200_funcs (D:=regfile)) VSDC_TOP_IRQ_ACK VSDC_TOP_IRQ_EN
    (regmap_write regfile0 VSDC_TOP_IRQ_ACK 3) 2 [true; true] 0
    ltac:(unfold VSDC_MAX_OUTPUTS; lia) ltac:(unfold VSDC_MAX_OUTPUTS; lia)) as [H _].
  rewrite H. vm_compute. reflexivity.
Defined.
