(* ===== verification/VsPlane.v ===== *)
(** * VsPlane: primary and cursor planes of the Verisilicon driver
      (src/drm/verisilicon/vs_plane.c, vs_primary_plane.c, vs_cursor_plane.c)

    Handlers run on a register map, through the operation table of the
    generation (VsDc).  A result of [None] is the dereference of a NULL
    pointer.  A CRTC is its index, which is its output: [vs_drm_initialize]
    creates the CRTCs in output order. *)

From S2P Require Export KernelApi Uapi DrmPlaneCheck DrmFourcc DrmFramebuffer VsDc.

(** ** vs_plane.h, vs_plane.c *)

Definition VSDC_COLOR_FORMAT_X4R4G4B4 : Z := 0.
Definition VSDC_COLOR_FORMAT_A4R4G4B4 : Z := 1.
Definition VSDC_COLOR_FORMAT_X1R5G5B5 : Z := 2.
Definition VSDC_COLOR_FORMAT_A1R5G5B5 : Z := 3.
Definition VSDC_COLOR_FORMAT_R5G6B5 : Z := 4.
Definition VSDC_COLOR_FORMAT_X8R8G8B8 : Z := 5.
Definition VSDC_COLOR_FORMAT_A8R8G8B8 : Z := 6.
Definition VSDC_COLOR_FORMAT_A2R10G10B10 : Z := 22.

Definition VSDC_SWIZZLE_ARGB : Z := 0.
Definition VSDC_SWIZZLE_RGBA : Z := 1.
Definition VSDC_SWIZZLE_ABGR : Z := 2.
Definition VSDC_SWIZZLE_BGRA : Z := 3.

Record vs_format := mkvsfmt { color : Z; swizzle : Z; uv_swizzle : bool }.

(** The two switches of [drm_format_to_vs_format]. *)
Definition vs_color_of (f : fourcc) : option Z :=
  match f with
  | DRM_FORMAT_XRGB4444 | DRM_FORMAT_RGBX4444 | DRM_FORMAT_XBGR4444 | DRM_FORMAT_BGRX4444 =>
      Some VSDC_COLOR_FORMAT_X4R4G4B4
  | DRM_FORMAT_ARGB4444 | DRM_FORMAT_RGBA4444 | DRM_FORMAT_ABGR4444 | DRM_FORMAT_BGRA4444 =>
      Some VSDC_COLOR_FORMAT_A4R4G4B4
  | DRM_FORMAT_XRGB1555 | DRM_FORMAT_RGBX5551 | DRM_FORMAT_XBGR1555 | DRM_FORMAT_BGRX5551 =>
      Some VSDC_COLOR_FORMAT_X1R5G5B5
  | DRM_FORMAT_ARGB1555 | DRM_FORMAT_RGBA5551 | DRM_FORMAT_ABGR1555 | DRM_FORMAT_BGRA5551 =>
      Some VSDC_COLOR_FORMAT_A1R5G5B5
  | DRM_FORMAT_RGB565 | DRM_FORMAT_BGR565 => Some VSDC_COLOR_FORMAT_R5G6B5
  | DRM_FORMAT_XRGB8888 | DRM_FORMAT_RGBX8888 | DRM_FORMAT_XBGR8888 | DRM_FORMAT_BGRX8888 =>
      Some VSDC_COLOR_FORMAT_X8R8G8B8
  | DRM_FORMAT_ARGB8888 | DRM_FORMAT_RGBA8888 | DRM_FORMAT_ABGR8888 | DRM_FORMAT_BGRA8888 =>
      Some VSDC_COLOR_FORMAT_A8R8G8B8
  | DRM_FORMAT_ARGB2101010 | DRM_FORMAT_RGBA1010102 | DRM_FORMAT_ABGR2101010
  | DRM_FORMAT_BGRA1010102 => Some VSDC_COLOR_FORMAT_A2R10G10B10
  | _ => None
  end.

Definition vs_swizzle_of (f : fourcc) : Z :=
  match f with
  | DRM_FORMAT_RGBX4444 | DRM_FORMAT_RGBA4444 | DRM_FORMAT_RGBX5551 | DRM_FORMAT_RGBA5551
  | DRM_FORMAT_RGBX8888 | DRM_FORMAT_RGBA8888 | DRM_FORMAT_RGBA1010102 => VSDC_SWIZZLE_RGBA
  | DRM_FORMAT_XBGR4444 | DRM_FORMAT_ABGR4444 | DRM_FORMAT_XBGR1555 | DRM_FORMAT_ABGR1555
  | DRM_FORMAT_BGR565 | DRM_FORMAT_XBGR8888 | DRM_FORMAT_ABGR8888
  | DRM_FORMAT_ABGR2101010 => VSDC_SWIZZLE_ABGR
  | DRM_FORMAT_BGRX4444 | DRM_FORMAT_BGRA4444 | DRM_FORMAT_BGRX5551 | DRM_FORMAT_BGRA5551
  | DRM_FORMAT_BGRX8888 | DRM_FORMAT_BGRA8888 | DRM_FORMAT_BGRA1010102 => VSDC_SWIZZLE_BGRA
  | _ => VSDC_SWIZZLE_ARGB
  end.

(** [None] is -EINVAL, with the format left as it was. *)
Definition drm_format_to_vs_format (f : fourcc) : option vs_format :=
  match vs_color_of f with
  | None => None
  | Some c => Some (mkvsfmt c (vs_swizzle_of f) false)
  end.

(** The product with the pitch is unsigned 32-bit; the sums are [dma_addr_t]. *)
Definition vs_fb_get_dma_addr (fb : drm_framebuffer) (src_rect : drm_rect) : option Z :=
  match drm_fb_dma_get_gem_obj fb 0 with
  | None => None
  | Some gem =>
      let dma_addr := u64 (gem + aget (fb_offsets fb) 0) in
      let dma_addr := u64 (dma_addr + drm_format_info_min_pitch (Some (fb_format fb)) 0
                                        (u32 (x1 src_rect .>> 16))) in
      Some (u64 (dma_addr + u32 ((y1 src_rect .>> 16) * aget (fb_pitches fb) 0)))
  end.

Record vs_plane_state := mkvsps { base : drm_plane_state; vformat : vs_format }.

(** A copy of the state of the plane, unless there is none or no memory. *)
Definition vs_plane_duplicate_state (kzalloc_ok : bool) (state : option vs_plane_state)
  : option vs_plane_state :=
  match state with
  | None => None
  | Some vs_state_old =>
      if kzalloc_ok then Some (mkvsps (base vs_state_old) (vformat vs_state_old)) else None
  end.

(** ** Register layout of the planes *)

Definition VSDC_FB_ADDRESS (n : Z) : Z := 0x1400 + 0x4 * n.
Definition VSDC_FB_STRIDE (n : Z) : Z := 0x1408 + 0x4 * n.
Definition VSDC_FB_SIZE (n : Z) : Z := 0x1810 + 0x4 * n.
Definition VSDC_FB_CONFIG_SWIZZLE_MASK : Z := GENMASK 24 23.
Definition VSDC_FB_CONFIG_SWIZZLE (v : Z) : Z := v .<< 23.
Definition VSDC_FB_CONFIG_UV_SWIZZLE_EN : Z := BIT 25.
Definition VSDC_FB_CONFIG_FMT_MASK : Z := GENMASK 31 26.
Definition VSDC_FB_CONFIG_FMT (v : Z) : Z := v .<< 26.

Definition VSDC_CURSOR_CONFIG (n : Z) : Z := 0x1468 + 0x1080 * n.
Definition VSDC_CURSOR_CONFIG_FMT_MASK : Z := GENMASK 1 0.
Definition VSDC_CURSOR_CONFIG_FMT_ARGB8888 : Z := 0x2 .<< 0.
Definition VSDC_CURSOR_CONFIG_FMT_OFF : Z := 0x0 .<< 0.
Definition VSDC_CURSOR_CONFIG_IMG_UPDATE : Z := BIT 2.
Definition VSDC_CURSOR_CONFIG_COMMIT : Z := BIT 3.
Definition VSDC_CURSOR_CONFIG_SIZE_MASK : Z := GENMASK 7 5.
Definition VSDC_CURSOR_CONFIG_SIZE_32 : Z := 0x0 .<< 5.
Definition VSDC_CURSOR_CONFIG_SIZE_64 : Z := 0x1 .<< 5.
Definition VSDC_CURSOR_CONFIG_SIZE_128 : Z := 0x2 .<< 5.
Definition VSDC_CURSOR_CONFIG_SIZE_256 : Z := 0x3 .<< 5.
Definition VSDC_CURSOR_CONFIG_Y_OFF_MASK : Z := GENMASK 12 8.
Definition VSDC_CURSOR_CONFIG_X_OFF_MASK : Z := GENMASK 20 16.
Definition VSDC_CURSOR_ADDRESS (n : Z) : Z := 0x146C + 0x1080 * n.
Definition VSDC_CURSOR_LOCATION (n : Z) : Z := 0x1470 + 0x1080 * n.
Definition VSDC_CURSOR_LOCATION_X_MASK : Z := GENMASK 14 0.
Definition VSDC_CURSOR_LOCATION_X (v : Z) : Z := v .<< 0.
Definition VSDC_CURSOR_LOCATION_Y_MASK : Z := GENMASK 30 16.
Definition VSDC_CURSOR_LOCATION_Y (v : Z) : Z := v .<< 16.

Definition VSDC_MIN_CURSOR_SIZE : Z := 32.
Definition VSDC_MAX_CURSOR_SIZE : Z := 256.
(** [BIT_MASK(n)] of the kernel is one bit, of type unsigned long. *)
Definition VSDC_CURSOR_LOCATION_MAX_POSITIVE : Z := 1 .<< 15.
Definition VSDC_CURSOR_LOCATION_MAX_NEGATIVE : Z := 1 .<< 5.

Create HintDb vs.
#[export] Hint Unfold VSDC_FB_CONFIG_SWIZZLE_MASK VSDC_FB_CONFIG_UV_SWIZZLE_EN
  VSDC_FB_CONFIG_FMT_MASK VSDC_CURSOR_CONFIG_FMT_MASK VSDC_CURSOR_CONFIG_FMT_ARGB8888
  VSDC_CURSOR_CONFIG_FMT_OFF VSDC_CURSOR_CONFIG_IMG_UPDATE VSDC_CURSOR_CONFIG_COMMIT
  VSDC_CURSOR_CONFIG_SIZE_MASK VSDC_CURSOR_CONFIG_SIZE_32 VSDC_CURSOR_CONFIG_SIZE_64
  VSDC_CURSOR_CONFIG_SIZE_128 VSDC_CURSOR_CONFIG_SIZE_256 VSDC_CURSOR_CONFIG_Y_OFF_MASK
  VSDC_CURSOR_CONFIG_X_OFF_MASK VSDC_CURSOR_LOCATION_X_MASK VSDC_CURSOR_LOCATION_Y_MASK
  VSDC_FB_CONFIG_FMT VSDC_FB_CONFIG_SWIZZLE VSDC_CURSOR_LOCATION_X VSDC_CURSOR_LOCATION_Y : vs.

(** ** Checks *)

(** [is_power_of_2] of the kernel's log2 header. *)
Class Log2Ops := { is_power_of_2 : Z -> bool }.
Class Log2Laws `{!Log2Ops} : Prop := {
  is_power_of_2_spec n : is_u32 n ->
    is_power_of_2 n = true <-> exists k, 0 <= k /\ n = 2 ^ k
}.

Section Check.
Context `{!RectOps} `{!PlaneRectOps} `{!Log2Ops}.
(** [drm_atomic_get_new_crtc_state]; the state for a NULL CRTC is not looked
    at. *)
Variable get_new_crtc_state : option nat -> drm_crtc_state.

Definition vs_primary_plane_atomic_check (new : vs_plane_state)
  : option (Z * vs_plane_state) :=
  let crtc_state := get_new_crtc_state (ps_crtc (base new)) in
  let '(ret, st) := drm_atomic_helper_check_plane_state (base new) crtc_state
                      DRM_PLANE_NO_SCALING DRM_PLANE_NO_SCALING false true in
  let new := {| new with base := st |} in
  if truthy ret then Some (ret, new)
  else if negb (visible st) then Some (0, new)
  else
    match ps_fb st with
    | None => None
    | Some fb =>
        match drm_format_to_vs_format (format (fb_format fb)) with
        | None => Some (- EINVAL, new)
        | Some f => Some (0, {| new with vformat := f |})
        end
    end.

(** [-coord] is an [int], compared as unsigned long. *)
Definition vs_cursor_plane_check_coord (coord : Z) : bool :=
  if coord >=? 0 then u64 coord <=? VSDC_CURSOR_LOCATION_MAX_POSITIVE
  else u64 (s32 (- coord)) <=? VSDC_CURSOR_LOCATION_MAX_NEGATIVE.

Definition vs_cursor_plane_atomic_check (ident : vs_chip_identity) (new : drm_plane_state)
  : option (Z * drm_plane_state) :=
  let crtc_state := get_new_crtc_state (ps_crtc new) in
  let '(ret, st) := drm_atomic_helper_check_plane_state new crtc_state
                      DRM_PLANE_NO_SCALING DRM_PLANE_NO_SCALING true true in
  if truthy ret then Some (ret, st)
  else if negb (visible st) then Some (0, st)
  else if negb (is_power_of_2 (crtc_w st)) || (crtc_w st <? VSDC_MIN_CURSOR_SIZE)
          || (crtc_w st >? u32 (max_cursor_size ident))
  then Some (- EINVAL, st)
  else if negb (crtc_w st =? crtc_h st) then Some (- EINVAL, st)
  else if negb (vs_cursor_plane_check_coord (crtc_x st))
          || negb (vs_cursor_plane_check_coord (crtc_y st))
  then Some (- EINVAL, st)
  else
    match ps_fb st with
    | None => None
    | Some fb =>
        if negb (aget (fb_pitches fb) 0
                 =? drm_format_info_min_pitch (Some (fb_format fb)) 0 (crtc_w st))
        then Some (- EINVAL, st)
        else Some (0, st)
    end.
End Check.

(** ** Updates *)

Section Update.
Context {D : Type} `{!RegmapOps D}.
Variable funcs : vs_dc_funcs D.

Definition lower_32_bits (a : Z) : Z := u32 a.

Definition vs_output (crtc : nat) : Z := Z.of_nat crtc.

Definition vs_primary_plane_atomic_enable (d : D) (new : drm_plane_state) : option D :=
  match ps_crtc new with
  | None => None
  | Some crtc => Some (call_hook (primary_plane_enable_ex funcs) d (vs_output crtc))
  end.

(** [old] is the old state of the plane. *)
Definition vs_primary_plane_atomic_disable (d : D) (old : drm_plane_state) : option D :=
  match ps_crtc old with
  | None => None
  | Some crtc => Some (call_hook (primary_plane_disable_ex funcs) d (vs_output crtc))
  end.

(** The format and the buffer registers of the update. *)
Definition vs_primary_set_format (d : D) (output : Z) (f : vs_format) : D :=
  let d := regmap_update_bits d (VSDC_FB_CONFIG output) VSDC_FB_CONFIG_FMT_MASK
             (VSDC_FB_CONFIG_FMT (color f)) in
  let d := regmap_update_bits d (VSDC_FB_CONFIG output) VSDC_FB_CONFIG_SWIZZLE_MASK
             (VSDC_FB_CONFIG_SWIZZLE (swizzle f)) in
  regmap_assign_bits d (VSDC_FB_CONFIG output) VSDC_FB_CONFIG_UV_SWIZZLE_EN (uv_swizzle f).

Definition vs_primary_set_buffer (d : D) (output dma_addr pitch w h : Z) : D :=
  let d := regmap_write d (VSDC_FB_ADDRESS output) (lower_32_bits dma_addr) in
  let d := regmap_write d (VSDC_FB_STRIDE output) pitch in
  regmap_write d (VSDC_FB_SIZE output) (VSDC_MAKE_PLANE_SIZE w h).

Definition vs_primary_plane_atomic_update (d : D) (old : drm_plane_state)
    (new : vs_plane_state) : option D :=
  let state := base new in
  if negb (visible state) then vs_primary_plane_atomic_disable d old
  else
    match ps_crtc state, ps_fb state with
    | Some crtc, Some fb =>
        let output := vs_output crtc in
        let d := vs_primary_set_format d output (vformat new) in
        match vs_fb_get_dma_addr fb (ps_src state) with
        | None => None
        | Some dma_addr =>
            let d := vs_primary_set_buffer d output dma_addr (aget (fb_pitches fb) 0)
                       (crtc_w state) (crtc_h state) in
            match primary_plane_update_ex funcs with
            | Some f => Some (f d output state)
            | None => Some d
            end
        end
    | _, _ => None
    end.

Definition vs_cursor_plane_commit (d : D) (output : Z) : D :=
  regmap_set_bits d (VSDC_CURSOR_CONFIG output)
    (VSDC_CURSOR_CONFIG_COMMIT .| VSDC_CURSOR_CONFIG_IMG_UPDATE).

Definition vs_cursor_plane_atomic_enable (d : D) (new : drm_plane_state) : option D :=
  match ps_crtc new with
  | None => None
  | Some crtc =>
      let d := regmap_update_bits d (VSDC_CURSOR_CONFIG (vs_output crtc))
                 VSDC_CURSOR_CONFIG_FMT_MASK VSDC_CURSOR_CONFIG_FMT_ARGB8888 in
      Some (vs_cursor_plane_commit d (vs_output crtc))
  end.

Definition vs_cursor_plane_hw_disable (d : D) (output : Z) : D :=
  let d := regmap_update_bits d (VSDC_CURSOR_CONFIG output)
             VSDC_CURSOR_CONFIG_FMT_MASK VSDC_CURSOR_CONFIG_FMT_OFF in
  vs_cursor_plane_commit d output.

Definition vs_cursor_plane_atomic_disable (d : D) (old : drm_plane_state) : option D :=
  match ps_crtc old with
  | None => None
  | Some crtc => Some (vs_cursor_plane_hw_disable d (vs_output crtc))
  end.

(** The switch on the size; other widths leave the field alone. *)
Definition vs_cursor_set_size (d : D) (output w : Z) : D :=
  let upd v := regmap_update_bits d (VSDC_CURSOR_CONFIG output)
                 VSDC_CURSOR_CONFIG_SIZE_MASK v in
  if w =? 32 then upd VSDC_CURSOR_CONFIG_SIZE_32
  else if w =? 64 then upd VSDC_CURSOR_CONFIG_SIZE_64
  else if w =? 128 then upd VSDC_CURSOR_CONFIG_SIZE_128
  else if w =? 256 then upd VSDC_CURSOR_CONFIG_SIZE_256
  else d.

(** One coordinate: the offset field and the location field. *)
Definition vs_cursor_set_coord (d : D) (output off_mask loc_mask coord loc : Z) : D :=
  if coord >=? 0 then
    let d := regmap_update_bits d (VSDC_CURSOR_CONFIG output) off_mask 0 in
    regmap_update_bits d (VSDC_CURSOR_LOCATION output) loc_mask (u32 loc)
  else
    let d := regmap_update_bits d (VSDC_CURSOR_CONFIG output) off_mask (u32 (- coord)) in
    regmap_update_bits d (VSDC_CURSOR_LOCATION output) loc_mask 0.

Definition vs_cursor_plane_atomic_update (d : D) (state : drm_plane_state) : option D :=
  match ps_crtc state with
  | None => None
  | Some crtc =>
      let output := vs_output crtc in
      if negb (visible state) then Some (vs_cursor_plane_hw_disable d output)
      else
        match ps_fb state with
        | None => None
        | Some fb =>
            let d := vs_cursor_set_size d output (crtc_w state) in
            match vs_fb_get_dma_addr fb (ps_src state) with
            | None => None
            | Some dma_addr =>
                let d := regmap_write d (VSDC_CURSOR_ADDRESS output) (lower_32_bits dma_addr) in
                let d := vs_cursor_set_coord d output VSDC_CURSOR_CONFIG_X_OFF_MASK
                           VSDC_CURSOR_LOCATION_X_MASK (crtc_x state)
                           (VSDC_CURSOR_LOCATION_X (crtc_x state)) in
                let d := vs_cursor_set_coord d output VSDC_CURSOR_CONFIG_Y_OFF_MASK
                           VSDC_CURSOR_LOCATION_Y_MASK (crtc_y state)
                           (VSDC_CURSOR_LOCATION_Y (crtc_y state)) in
                Some (vs_cursor_plane_commit d output)
            end
        end
  end.
End Update.

(** ** Facts *)

Lemma vs_formats_exact f :
  is_Some (drm_format_to_vs_format f) <-> f ∈ vs_formats_array_no_yuv444.
Proof.
  split.
  - intros [c Hc]. apply (bool_decide_unpack _).
    destruct f; first [discriminate Hc | vm_compute; exact I].
  - intros Hf. unfold vs_formats_array_no_yuv444 in Hf. rewrite !elem_of_cons, elem_of_nil in Hf.
    by repeat destruct Hf as [->|Hf].
Qed.

(** The format a code and a swizzle stand for. *)
Lemma vs_format_inj_dec :
  forallb (fun f => forallb (fun g =>
      bool_decide (drm_format_to_vs_format f = None) ||
      negb (bool_decide ((color <$> drm_format_to_vs_format f, swizzle <$> drm_format_to_vs_format f)
                       = (color <$> drm_format_to_vs_format g, swizzle <$> drm_format_to_vs_format g)))
      || bool_decide (f = g)) vs_formats_array_no_yuv444) vs_formats_array_no_yuv444 = true.
Proof. vm_compute. reflexivity. Qed.

Lemma vs_format_inj f g v :
  drm_format_to_vs_format f = Some v -> drm_format_to_vs_format g = Some v -> f = g.
Proof.
  intros Hf Hg. pose proof vs_format_inj_dec as H.
  assert (Hi : f ∈ vs_formats_array_no_yuv444) by (apply vs_formats_exact; by eexists).
  assert (Hj : g ∈ vs_formats_array_no_yuv444) by (apply vs_formats_exact; by eexists).
  rewrite forallb_forall in H. specialize (H f (proj1 (list_elem_of_In _ _) Hi)).
  rewrite forallb_forall in H. specialize (H g (proj1 (list_elem_of_In _ _) Hj)).
  rewrite Hf, Hg in H. rewrite !orb_true_iff in H. destruct H as [[H|H]|H].
  - by apply bool_decide_eq_true in H.
  - apply negb_true_iff, bool_decide_eq_false in H. done.
  - by apply bool_decide_eq_true in H.
Qed.

Lemma vs_format_range f v :
  drm_format_to_vs_format f = Some v ->
  0 <= color v < 2 ^ 6 /\ 0 <= swizzle v < 2 ^ 2 /\ uv_swizzle v = false.
Proof. destruct f; cbn; intros [= <-]; done. Qed.

Lemma FIELD_GET_shiftl h l v :
  0 <= l <= h -> 0 <= v < 2 ^ (h - l + 1) -> FIELD_GET (GENMASK h l) (v .<< l) = v.
Proof.
  intros Hl Hv. rewrite FIELD_GET_GENMASK by done.
  rewrite Z.shiftr_shiftl_l, Z.sub_diag, Z.shiftl_0_r by lia. rewrite Z.land_ones by lia.
  by apply Z.mod_small.
Qed.

Lemma make_plane_size_fields w h :
  FIELD_GET (GENMASK 14 0) (VSDC_MAKE_PLANE_SIZE w h) = w mod 2 ^ 15
  /\ FIELD_GET (GENMASK 29 15) (VSDC_MAKE_PLANE_SIZE w h) = h mod 2 ^ 15
  /\ is_u32 (VSDC_MAKE_PLANE_SIZE w h).
Proof.
  replace (VSDC_MAKE_PLANE_SIZE w h)
    with (FIELD_PREP (GENMASK 14 0) w .| FIELD_PREP (GENMASK 29 15) h).
  2:{ rewrite !FIELD_PREP_GENMASK by lia. by rewrite Z.shiftl_0_r. }
  split; [|split; [|solve_u32]]; rewrite FIELD_GET_lor.
  - rewrite FIELD_GET_PREP_trunc by lia. rewrite FIELD_GET_PREP_disjoint by reflexivity.
    by rewrite Z.lor_0_r.
  - rewrite FIELD_GET_PREP_trunc by lia. rewrite FIELD_GET_PREP_disjoint by reflexivity.
    by rewrite Z.lor_0_l.
Qed.

(** Each supported format is a table entry of one plane with one pixel per
    block. *)
Lemma vs_format_simple f i :
  f ∈ vs_formats_array_no_yuv444 -> __drm_format_info f = Some i ->
  num_planes i = 1 /\ drm_format_info_block_width (Some i) 0 = 1
  /\ drm_format_info_block_height (Some i) 0 = 1 /\ is_yuv i = false
  /\ (aget (char_per_block i) 0 = 2 \/ aget (char_per_block i) 0 = 4).
Proof.
  intros Hf Hi. unfold vs_formats_array_no_yuv444 in Hf. rewrite !elem_of_cons, elem_of_nil in Hf.
  repeat destruct Hf as [->|Hf]; try done;
    vm_compute in Hi; injection Hi as <-; vm_compute; intuition discriminate.
Qed.

(** Pixel (x, y) of a framebuffer below 4 GiB. *)
Definition vs_addr_fits (fb : drm_framebuffer) (gem x y : Z) : Prop :=
  is_u32 gem /\ is_u32 (aget (fb_offsets fb) 0) /\ is_u32 (aget (fb_pitches fb) 0)
  /\ 0 <= x < 2 ^ 15 /\ 0 <= y < 2 ^ 15 /\ y * aget (fb_pitches fb) 0 < 2 ^ 32.

Lemma vs_dma_addr_eq fb gem src x y :
  drm_fb_dma_get_gem_obj fb 0 = Some gem ->
  format (fb_format fb) ∈ vs_formats_array_no_yuv444 ->
  __drm_format_info (format (fb_format fb)) = Some (fb_format fb) ->
  x1 src .>> 16 = x -> y1 src .>> 16 = y -> vs_addr_fits fb gem x y ->
  vs_fb_get_dma_addr fb src
  = Some (gem + aget (fb_offsets fb) 0 + aget (char_per_block (fb_format fb)) 0 * x
          + aget (fb_pitches fb) 0 * y).
Proof.
  intros Hg Hf Hi Hx Hy (Hg32 & Ho & Hp & Hx15 & Hy15 & Hyp). unfold is_u32 in *.
  unfold vs_fb_get_dma_addr. rewrite Hg, Hx, Hy.
  destruct (vs_format_simple _ _ Hf Hi) as (Hn & Hbw & Hbh & _ & Hc).
  apply format_info_wf in Hi.
  destruct (min_pitch_eq (fb_format fb) 0 x Hi ltac:(lia) ltac:(unfold is_u32; lia)) as [_ Hm].
  rewrite Hbw, Hbh in Hm. rewrite (u32_id x) by (unfold is_u32; lia).
  set (mp := drm_format_info_min_pitch _ _ _) in *. clearbody mp.
  set (c := aget (char_per_block (fb_format fb)) 0) in *.
  rewrite (u32_id (y * _)) by (unfold is_u32; nia).
  assert (mp = x * c) as -> by lia.
  assert (Hxc : 0 <= x * c < 2 ^ 18) by (destruct Hc as [-> | ->]; lia).
  assert (Hyp0 : 0 <= y * aget (fb_pitches fb) 0) by nia.
  replace (c * x) with (x * c) by lia.
  replace (aget (fb_pitches fb) 0 * y) with (y * aget (fb_pitches fb) 0) by lia.
  revert Hxc Hyp Hyp0. generalize (x * c), (y * aget (fb_pitches fb) 0). intros.
  rewrite (u64_id (gem + _)) by (unfold is_u64; lia).
  rewrite (u64_id (gem + _ + _)) by (unfold is_u64; lia).
  by rewrite u64_id by (unfold is_u64; lia).
Qed.

(** ** Main theorems *)

(** The formats the Verisilicon planes advertise are exactly those the
    driver can convert, so the warning in the plane check cannot fire; two
    formats never share colour code and swizzle, every code fits its register
    field, and each is a single-plane RGB format of 16 or 32 bits. *)
Theorem vs_formats_programmable :
  (forall f, is_Some (drm_format_to_vs_format f) <-> f ∈ vs_formats_array_no_yuv444)
  /\ (forall f g v, drm_format_to_vs_format f = Some v ->
                    drm_format_to_vs_format g = Some v -> f = g)
  /\ (forall f v, drm_format_to_vs_format f = Some v ->
       FIELD_GET VSDC_FB_CONFIG_FMT_MASK (VSDC_FB_CONFIG_FMT (color v)) = color v
       /\ FIELD_GET VSDC_FB_CONFIG_SWIZZLE_MASK (VSDC_FB_CONFIG_SWIZZLE (swizzle v)) = swizzle v
       /\ uv_swizzle v = false)
  /\ (forall f, f ∈ vs_formats_array_no_yuv444 ->
       exists i, __drm_format_info f = Some i /\ num_planes i = 1 /\ is_yuv i = false
         /\ (aget (char_per_block i) 0 = 2 \/ aget (char_per_block i) 0 = 4)).
Proof.
  split; [apply vs_formats_exact|]. split; [apply vs_format_inj|]. split.
  - intros f v Hv. destruct (vs_format_range f v Hv) as (Hc & Hs & Hu). autounfold with vs.
    split; [|split; [|done]]; by apply FIELD_GET_shiftl.
  - intros f Hf. assert (Hs : exists i, __drm_format_info f = Some i).
    { unfold vs_formats_array_no_yuv444 in Hf. rewrite !elem_of_cons, elem_of_nil in Hf.
      repeat destruct Hf as [->|Hf]; try done; eexists; vm_compute; reflexivity. }
    destruct Hs as [i Hi]. exists i. destruct (vs_format_simple f i Hf Hi) as (?&_&_&?&?). done.
Qed.

(** The table a generation runs on (the choice of [vs_dc_probe]). *)
Definition vs_funcs_of {D} `{!RegmapOps D} (g : vs_dc_generation) : vs_dc_funcs D :=
  if decide (g = VSDC_GEN_DC8200) then vs_dc8200_funcs else vs_dc8000_funcs.

Section PrimaryTheorem.
Context {D : Type} `{Ho : !RegmapOps D} `{Hl : !RegmapLaws D}.

(** The registers shared by both generations. *)
Lemma primary_common (d : D) o f addr pitch w h :
  o = 0 \/ o = 1 -> 0 <= color f < 2 ^ 6 -> 0 <= swizzle f < 2 ^ 2 -> uv_swizzle f = false ->
  let d' := vs_primary_set_buffer (vs_primary_set_format d o f) o addr pitch w h in
  (let cfg := regmap_read d' (VSDC_FB_CONFIG o) in
   FIELD_GET VSDC_FB_CONFIG_FMT_MASK cfg = color f
   /\ FIELD_GET VSDC_FB_CONFIG_SWIZZLE_MASK cfg = swizzle f
   /\ forall i, i < 23 -> Z.testbit cfg i = Z.testbit (regmap_read d (VSDC_FB_CONFIG o)) i)
  /\ regmap_read d' (VSDC_FB_ADDRESS o) = u32 addr
  /\ regmap_read d' (VSDC_FB_STRIDE o) = u32 pitch
  /\ FIELD_GET (GENMASK 14 0) (regmap_read d' (VSDC_FB_SIZE o)) = w mod 2 ^ 15
  /\ FIELD_GET (GENMASK 29 15) (regmap_read d' (VSDC_FB_SIZE o)) = h mod 2 ^ 15.
Proof.
  intros Ho2 Hcol Hsw Huv. unfold vs_primary_set_buffer, vs_primary_set_format. rewrite Huv.
  destruct (make_plane_size_fields w h) as (Hs1 & Hs2 & Hs3).
  assert (Hc32 : is_u32 (color f .<< 26)).
  { unfold is_u32. rewrite Z.shiftl_mul_pow2 by lia. lia. }
  assert (Hs32 : is_u32 (swizzle f .<< 23)).
  { unfold is_u32. rewrite Z.shiftl_mul_pow2 by lia. lia. }
  destruct Ho2 as [->| ->]; rm_simp; rewrite (u32_id (VSDC_MAKE_PLANE_SIZE _ _)) by done;
    unfold lower_32_bits; rewrite u32_idemp; autounfold with vs;
    rewrite !(u32_id (GENMASK _ _)), (u32_id (_ .<< 26)), (u32_id (_ .<< 23)),
      (u32_id (BIT 25)), (u32_id 0) by (done || solve_u32).
  all: split; [|done].
  all: rewrite FIELD_GET_rmw_disjoint, FIELD_GET_rmw_disjoint, FIELD_GET_rmw_same by reflexivity.
  all: rewrite FIELD_GET_rmw_disjoint, FIELD_GET_rmw_same by reflexivity.
  all: rewrite !FIELD_GET_shiftl by lia.
  all: split; [done|]; split; [done|]; intros i Hi23; rewrite !rmw_testbit.
  all: rewrite BIT_testbit, !GENMASK_testbit by lia.
  all: by rewrite (proj2 (Z.eqb_neq i 25)), !(proj2 (Z.leb_gt _ i)) by lia.
Qed.

(** What the DC8200 adds. *)
Lemma dc8200_update_regs (d : D) o st :
  o = 0 \/ o = 1 ->
  let d' := vs_dc8200_primary_plane_update_ex d o st in
  FIELD_GET (GENMASK 14 0) (regmap_read d' (VSDC_FB_TOP_LEFT o)) = crtc_x st mod 2 ^ 15
  /\ FIELD_GET (GENMASK 29 15) (regmap_read d' (VSDC_FB_TOP_LEFT o)) = crtc_y st mod 2 ^ 15
  /\ FIELD_GET (GENMASK 14 0) (regmap_read d' (VSDC_FB_BOTTOM_RIGHT o))
     = (crtc_x st + crtc_w st) mod 2 ^ 15
  /\ FIELD_GET (GENMASK 29 15) (regmap_read d' (VSDC_FB_BOTTOM_RIGHT o))
     = (crtc_y st + crtc_h st) mod 2 ^ 15
  /\ FIELD_GET VSDC_FB_CONFIG_EX_COMMIT (regmap_read d' (VSDC_FB_CONFIG_EX o)) = 1
  /\ Forall (fun r => regmap_read d' r = regmap_read d r)
       [VSDC_FB_CONFIG o; VSDC_FB_ADDRESS o; VSDC_FB_STRIDE o; VSDC_FB_SIZE o].
Proof.
  intros Ho2. cbv zeta. unfold vs_dc8200_primary_plane_update_ex, vs_dc8200_plane_commit.
  change (VSDC_MAKE_PLANE_POS) with (VSDC_MAKE_PLANE_SIZE).
  destruct (make_plane_size_fields (crtc_x st) (crtc_y st)) as (Ht1 & Ht2 & Ht3).
  destruct (make_plane_size_fields (u32 (crtc_x st + crtc_w st)) (u32 (crtc_y st + crtc_h st)))
    as (Hb1 & Hb2 & Hb3).
  assert (Hm : forall v, u32 v mod 2 ^ 15 = v mod 2 ^ 15).
  { intros v. unfold u32. apply Z.mod_mod_divide. by exists (2 ^ 17). }
  rewrite !Hm in *.
  destruct Ho2 as [->| ->]; rm_simp; rewrite !(u32_id (VSDC_MAKE_PLANE_SIZE _ _)) by done;
    (do 4 (split; [done|])); (split; [by rewrite FIELD_GET_rmw_same|]);
    repeat (apply Forall_cons; split); try apply Forall_nil; by rm_simp.
Qed.

(** Updating a visible primary plane on either generation: format and
    swizzle fields of the framebuffer configuration are those of the format and
    no other bit of the register changes, address and pitch are those of the
    first visible pixel, the size is the CRTC size of the plane modulo 2^15;
    the DC8200 also receives the corners - computed from the unclipped
    position, so a negative one wraps - and commits. An invisible plane is
    disabled on the CRTC of its old state, which is a NULL dereference when
    there was none. *)
Theorem vs_primary_update_programs g (d : D) old new crtc fb gem x y :
  let st := base new in
  ps_crtc st = Some crtc -> (crtc < 2)%nat -> ps_fb st = Some fb ->
  drm_fb_dma_get_gem_obj fb 0 = Some gem ->
  __drm_format_info (format (fb_format fb)) = Some (fb_format fb) ->
  drm_format_to_vs_format (format (fb_format fb)) = Some (vformat new) ->
  x1 (ps_src st) .>> 16 = x -> y1 (ps_src st) .>> 16 = y -> vs_addr_fits fb gem x y ->
  let o := vs_output crtc in
  if visible st then
    exists d', vs_primary_plane_atomic_update (vs_funcs_of g) d old new = Some d'
    /\ (let cfg := regmap_read d' (VSDC_FB_CONFIG o) in
        FIELD_GET VSDC_FB_CONFIG_FMT_MASK cfg = color (vformat new)
        /\ FIELD_GET VSDC_FB_CONFIG_SWIZZLE_MASK cfg = swizzle (vformat new)
        /\ forall i, i < 23 -> Z.testbit cfg i = Z.testbit (regmap_read d (VSDC_FB_CONFIG o)) i)
    /\ regmap_read d' (VSDC_FB_ADDRESS o)
       = u32 (gem + aget (fb_offsets fb) 0 + aget (char_per_block (fb_format fb)) 0 * x
              + aget (fb_pitches fb) 0 * y)
    /\ regmap_read d' (VSDC_FB_STRIDE o) = u32 (aget (fb_pitches fb) 0)
    /\ FIELD_GET (GENMASK 14 0) (regmap_read d' (VSDC_FB_SIZE o)) = crtc_w st mod 2 ^ 15
    /\ FIELD_GET (GENMASK 29 15) (regmap_read d' (VSDC_FB_SIZE o)) = crtc_h st mod 2 ^ 15
    /\ (g = VSDC_GEN_DC8200 ->
        FIELD_GET (GENMASK 14 0) (regmap_read d' (VSDC_FB_TOP_LEFT o)) = crtc_x st mod 2 ^ 15
        /\ FIELD_GET (GENMASK 29 15) (regmap_read d' (VSDC_FB_TOP_LEFT o)) = crtc_y st mod 2 ^ 15
        /\ FIELD_GET (GENMASK 14 0) (regmap_read d' (VSDC_FB_BOTTOM_RIGHT o))
           = (crtc_x st + crtc_w st) mod 2 ^ 15
        /\ FIELD_GET (GENMASK 29 15) (regmap_read d' (VSDC_FB_BOTTOM_RIGHT o))
           = (crtc_y st + crtc_h st) mod 2 ^ 15
        /\ FIELD_GET VSDC_FB_CONFIG_EX_COMMIT (regmap_read d' (VSDC_FB_CONFIG_EX o)) = 1)
  else
    vs_primary_plane_atomic_update (vs_funcs_of g) d old new
    = match ps_crtc old with
      | None => None
      | Some c => Some (call_hook (primary_plane_disable_ex (vs_funcs_of g)) d (vs_output c))
      end.
Proof.
  intros st Hc Hc2 Hfb Hgem Hi Hv Hx Hy Hfit o. unfold vs_primary_plane_atomic_update. fold st.
  destruct (visible st); cbn [negb]; [|done].
  rewrite Hc, Hfb. fold o.
  assert (Hf : format (fb_format fb) ∈ vs_formats_array_no_yuv444) by (apply vs_formats_exact; by eexists).
  rewrite (vs_dma_addr_eq fb gem (ps_src st) x y) by done.
  destruct (vs_format_range _ _ Hv) as (Hcol & Hsw & Huv).
  set (addr := gem + _ + _ + _). clearbody addr.
  assert (Ho2 : o = 0 \/ o = 1) by (unfold o, vs_output; lia). clearbody o.
  pose proof (primary_common d o (vformat new) addr (aget (fb_pitches fb) 0) (crtc_w st)
    (crtc_h st) Ho2 Hcol Hsw Huv) as Hcom. cbv zeta in Hcom.
  set (com := vs_primary_set_buffer _ _ _ _ _ _) in *. clearbody com.
  unfold vs_funcs_of. destruct g; cbn.
  - exists com. split; [done|]. intuition done.
  - eexists. split; [done|].
    destruct (dc8200_update_regs com o st Ho2) as (H1 & H2 & H3 & H4 & H5 & Hfr).
    rewrite !Forall_cons in Hfr. destruct Hfr as (-> & -> & -> & -> & _). intuition done.
Qed.
End PrimaryTheorem.

Section CursorCheck.
Context `{!RectOps} `{!RectLaws} `{!PlaneRectOps} `{!PlaneRectLaws} `{!Log2Ops} `{!Log2Laws}.

(** A cursor size of a known chip that passes the three size tests. *)
Lemma cursor_size_ok ident w :
  identity_wf ident -> is_u32 w ->
  negb (negb (is_power_of_2 w) || (w <? VSDC_MIN_CURSOR_SIZE)
        || (w >? u32 (max_cursor_size ident)))
  = ((w =? 32) || ((w =? 64) && (max_cursor_size ident =? 64)))%bool.
Proof.
  intros (_ & Hm & _) Hw.
  assert (Hmu : u32 (max_cursor_size ident) = max_cursor_size ident) by (by destruct Hm as [-> | ->]).
  rewrite Hmu. unfold VSDC_MIN_CURSOR_SIZE.
  assert (Hp : is_power_of_2 w = true -> 32 <= w <= 64 -> w = 32 \/ w = 64).
  { intros (k & Hk & ->)%is_power_of_2_spec Hr; [|done].
    assert (5 <= k). { apply (Z.pow_le_mono_r_iff 2); [lia|lia|]. change (2 ^ 5) with 32. lia. }
    assert (k <= 6). { apply (Z.pow_le_mono_r_iff 2); [lia|lia|]. change (2 ^ 6) with 64. lia. }
    assert (k = 5 \/ k = 6) as [-> | ->] by lia; [by left|by right]. }
  assert (Hq : w = 32 \/ w = 64 -> is_power_of_2 w = true).
  { intros [-> | ->]; (apply is_power_of_2_spec; [unfold is_u32; lia|]); [by exists 5|by exists 6]. }
  apply eq_true_iff_eq. rewrite negb_true_iff, !orb_false_iff, negb_false_iff, orb_true_iff,
    andb_true_iff, !Z.eqb_eq, Z.ltb_ge, Z.gtb_ltb, Z.ltb_ge. split.
  - intros [[Ha Hb] Hcc]. destruct Hm as [Hm|Hm]; rewrite Hm in *; destruct (Hp Ha ltac:(lia)); lia.
  - intros Hor. split; [split|]; [apply Hq; lia|lia|lia].
Qed.

(** The coordinates the check accepts. *)
Definition cursor_coord_ok (c : Z) : bool := (-32 <=? c) && (c <=? 32768).

Lemma cursor_coord_eq c : is_s32 c -> vs_cursor_plane_check_coord c = cursor_coord_ok c.
Proof.
  intros Hc. unfold is_s32 in Hc. unfold vs_cursor_plane_check_coord, cursor_coord_ok.
  change VSDC_CURSOR_LOCATION_MAX_POSITIVE with 32768.
  change VSDC_CURSOR_LOCATION_MAX_NEGATIVE with 32.
  rewrite Z.geb_leb. destruct (Z.leb_spec 0 c).
  - rewrite u64_id by (unfold is_u64; lia). by rewrite (proj2 (Z.leb_le (-32) c)) by lia.
  - rewrite (proj2 (Z.leb_le c 32768)), andb_true_r by lia.
    destruct (Z.eq_dec c (- 2 ^ 31)) as [->|Hne]; [reflexivity|].
    rewrite s32_id, u64_id by (unfold is_s32, is_u64; lia).
    apply eq_true_iff_eq. rewrite !Z.leb_le. lia.
Qed.

(** [vs_cursor_plane_atomic_check] in full, for an unrotated cursor of a
    chip in the database: -ERANGE unless unscaled; success without further
    checks when it does not meet the display; otherwise success iff it is a
    square of 32 pixels, or of 64 where the chip has it, both coordinates are
    within [-32, 32768] and the lines are not padded, else -EINVAL. So a
    visible accepted cursor always has a case in the size switch of the
    update - but 32768 and -32 do not fit the register fields. *)
Theorem vs_cursor_check_exact get ident s crtc fb :
  identity_wf ident ->
  ps_crtc s = Some crtc -> ps_fb s = Some fb -> dest_ok s -> source_ok s ->
  rotation s = DRM_MODE_ROTATE_0 -> mode_typed (mode (get (Some crtc))) ->
  match vs_cursor_plane_atomic_check get ident s with
  | None => False
  | Some (ret, s') =>
      let '(vis, i) := drm_rect_intersect (dest_of s) (crtc_rect (get (Some crtc))) in
      if negb (one_to_one s) then ret = - ERANGE
      else visible s' = vis
           /\ (vis = true -> ps_dst s' = i /\ ps_src s' = src_window (src_of s) (dest_of s) i)
           /\ ret = if negb vis
                       || (((crtc_w s =? 32) || ((crtc_w s =? 64) && (max_cursor_size ident =? 64)))
                           && (crtc_w s =? crtc_h s)
                           && cursor_coord_ok (crtc_x s) && cursor_coord_ok (crtc_y s)
                           && (aget (fb_pitches fb) 0
                               =? drm_format_info_min_pitch (Some (fb_format fb)) 0 (crtc_w s)))
                    then 0 else - EINVAL
  end.
Proof.
  intros Hid Hc Hfb Hd Hs Hr Hm. unfold vs_cursor_plane_atomic_check. rewrite Hc.
  pose proof (check_plane_state_unscaled s (get (Some crtc)) true true fb crtc Hfb Hc Hd Hs Hr Hm) as Hk.
  pose proof (check_plane_state_frame s (get (Some crtc)) DRM_PLANE_NO_SCALING
    DRM_PLANE_NO_SCALING true true) as Hf. cbv zeta in Hf.
  destruct (drm_atomic_helper_check_plane_state _ _ _ _ _ _) as [ret s']. cbn [snd] in Hf.
  destruct (drm_rect_intersect _ _) as [vis i]. rewrite !andb_false_r in Hk.
  destruct (one_to_one s); cbn [negb] in *; [|by rewrite Hk].
  destruct Hk as (Hv & -> & Hw). change (truthy 0) with false. cbn [negb].
  destruct Hf as (Hx & Hy & Hcw & Hch & Hfb' & _). destruct Hd as (Hdx & Hdy & Hdw & Hdh).
  rewrite Hv, Hx, Hy, Hcw, Hch, Hfb', Hfb. destruct vis; cbn [negb orb]; [|done].
  pose proof (cursor_size_ok ident (crtc_w s) Hid ltac:(unfold is_u32; lia)) as Hsz.
  rewrite <- Hsz, !cursor_coord_eq by (unfold is_s32; lia).
  specialize (Hw eq_refl). destruct (_ || (crtc_w s >? _))%bool; cbn [negb andb]; [done|].
  destruct (crtc_w s =? crtc_h s); cbn [negb andb]; [|done].
  destruct (cursor_coord_ok (crtc_x s)), (cursor_coord_ok (crtc_y s)); cbn [negb andb orb]; try done.
  change (truthy 0) with false. by destruct (aget _ _ =? _).
Qed.
End CursorCheck.

Section CursorUpdate.
Context {D : Type} `{Ho : !RegmapOps D} `{Hl : !RegmapLaws D}.

(** What a coordinate becomes: the location field and the offset field. *)
Definition loc_of (c : Z) : Z := if c >=? 0 then c mod 2 ^ 15 else 0.

Lemma land_small_high x h l : 0 <= l <= h -> 0 <= x < 2 ^ l -> x .& GENMASK h l = 0.
Proof.
  intros Hl0 Hx. apply Z.bits_inj'. intros i Hi.
  rewrite Z.land_spec, GENMASK_testbit, Z.bits_0 by done.
  destruct (Z.leb_spec l i); [|by rewrite andb_false_r].
  by rewrite (bits_above x l i).
Qed.

Lemma FIELD_GET_u32_shiftl h l v :
  0 <= l <= h -> h < 32 -> FIELD_GET (GENMASK h l) (u32 (v .<< l)) = v mod 2 ^ (h - l + 1).
Proof.
  intros Hl0 Hh. rewrite FIELD_GET_GENMASK by done. unfold u32.
  apply Z.bits_inj'. intros i Hi. rewrite Z.land_spec, Z.shiftr_spec by done.
  destruct (Z.ltb_spec i (h - l + 1)).
  - rewrite !Z.mod_pow2_bits_low, Z.ones_spec_low, Z.shiftl_spec, andb_true_r by lia.
    f_equal. lia.
  - by rewrite (Z.mod_pow2_bits_high v), Z.ones_spec_high, andb_false_r by lia.
Qed.

(** One coordinate, for masks whose offset field lies above bit 5: the offset
    value never reaches its field. *)
Lemma set_coord_regs (d : D) o om lm c loc :
  o = 0 \/ o = 1 -> u32 om = om -> u32 lm = lm ->
  (forall v, 0 <= v <= 32 -> FIELD_GET om v = 0) ->
  FIELD_GET lm (u32 loc) = c mod 2 ^ 15 -> -32 <= c ->
  let d' := vs_cursor_set_coord d o om lm c loc in
  FIELD_GET om (regmap_read d' (VSDC_CURSOR_CONFIG o)) = 0
  /\ (forall m, om .& m = 0 -> FIELD_GET m (regmap_read d' (VSDC_CURSOR_CONFIG o))
                              = FIELD_GET m (regmap_read d (VSDC_CURSOR_CONFIG o)))
  /\ FIELD_GET lm (regmap_read d' (VSDC_CURSOR_LOCATION o)) = loc_of c
  /\ (forall m, lm .& m = 0 -> FIELD_GET m (regmap_read d' (VSDC_CURSOR_LOCATION o))
                              = FIELD_GET m (regmap_read d (VSDC_CURSOR_LOCATION o)))
  /\ regmap_read d' (VSDC_CURSOR_ADDRESS o) = regmap_read d (VSDC_CURSOR_ADDRESS o).
Proof.
  intros Ho2 Hom Hlm Hoff Hloc Hc. unfold vs_cursor_set_coord, loc_of.
  rewrite Z.geb_leb. destruct (Z.leb_spec 0 c); destruct Ho2 as [->| ->]; rm_simp;
    rewrite ?u32_idemp, Hom, Hlm, !FIELD_GET_rmw_same, ?Hloc.
  all: split; [first [by apply (Hoff 0) | rewrite u32_id by (unfold is_u32; lia); apply Hoff; lia]|].
  all: split; [intros m Hm; by apply FIELD_GET_rmw_disjoint|].
  all: split; [first [done | by rewrite (FIELD_GET_disjoint _ (u32 0))]|].
  all: split; [intros m Hm; by apply FIELD_GET_rmw_disjoint|done].
Qed.

Lemma set_size_regs (d : D) o w addr :
  o = 0 \/ o = 1 -> w ∈ [32; 64; 128; 256] ->
  let d' := regmap_write (vs_cursor_set_size d o w) (VSDC_CURSOR_ADDRESS o) addr in
  32 * 2 ^ FIELD_GET VSDC_CURSOR_CONFIG_SIZE_MASK (regmap_read d' (VSDC_CURSOR_CONFIG o)) = w
  /\ FIELD_GET VSDC_CURSOR_CONFIG_FMT_MASK (regmap_read d' (VSDC_CURSOR_CONFIG o))
     = FIELD_GET VSDC_CURSOR_CONFIG_FMT_MASK (regmap_read d (VSDC_CURSOR_CONFIG o))
  /\ regmap_read d' (VSDC_CURSOR_ADDRESS o) = u32 addr.
Proof.
  intros Ho2 Hw. rewrite !elem_of_cons, elem_of_nil in Hw. unfold vs_cursor_set_size.
  destruct Ho2 as [->| ->]; repeat destruct Hw as [->|Hw]; try done; cbn [Z.eqb Pos.eqb]; rm_simp;
    change (u32 VSDC_CURSOR_CONFIG_SIZE_MASK) with VSDC_CURSOR_CONFIG_SIZE_MASK;
    (split; [rewrite FIELD_GET_rmw_same; reflexivity|split; [by rewrite FIELD_GET_rmw_disjoint|done]]).
Qed.

Lemma commit_regs (d : D) o :
  o = 0 \/ o = 1 ->
  let d' := vs_cursor_plane_commit d o in
  FIELD_GET VSDC_CURSOR_CONFIG_COMMIT (regmap_read d' (VSDC_CURSOR_CONFIG o)) = 1
  /\ FIELD_GET VSDC_CURSOR_CONFIG_IMG_UPDATE (regmap_read d' (VSDC_CURSOR_CONFIG o)) = 1
  /\ (forall m, 12 .& m = 0 -> FIELD_GET m (regmap_read d' (VSDC_CURSOR_CONFIG o))
                               = FIELD_GET m (regmap_read d (VSDC_CURSOR_CONFIG o)))
  /\ regmap_read d' (VSDC_CURSOR_LOCATION o) = regmap_read d (VSDC_CURSOR_LOCATION o)
  /\ regmap_read d' (VSDC_CURSOR_ADDRESS o) = regmap_read d (VSDC_CURSOR_ADDRESS o).
Proof.
  intros Ho2. unfold vs_cursor_plane_commit.
  change (VSDC_CURSOR_CONFIG_COMMIT .| VSDC_CURSOR_CONFIG_IMG_UPDATE) with 12.
  destruct Ho2 as [->| ->]; rm_simp; change (u32 12) with 12;
    rewrite !FIELD_GET_rmw_sub by reflexivity;
    do 2 (split; [reflexivity|]); (split; [|done]); intros m Hm; by apply FIELD_GET_rmw_disjoint.
Qed.

(** Updating a visible cursor of a supported width with coordinates the
    check accepts: the size field is the width's code, the address is that of
    the first visible pixel, the location fields are the coordinates modulo
    2^15 and 0 for negative ones, the commit and image-update bits are set and
    the format field is kept. The offset fields, which should hold the hidden
    part of a negative coordinate, are always 0: the value is not shifted to
    its field. An invisible cursor is switched off. *)
Theorem vs_cursor_update_programs (d : D) st crtc fb gem x y :
  ps_crtc st = Some crtc -> (crtc < 2)%nat -> ps_fb st = Some fb ->
  drm_fb_dma_get_gem_obj fb 0 = Some gem ->
  __drm_format_info (format (fb_format fb)) = Some (fb_format fb) ->
  format (fb_format fb) ∈ vs_formats_array_no_yuv444 ->
  x1 (ps_src st) .>> 16 = x -> y1 (ps_src st) .>> 16 = y -> vs_addr_fits fb gem x y ->
  crtc_w st ∈ [32; 64; 128; 256] -> -32 <= crtc_x st -> -32 <= crtc_y st ->
  let o := vs_output crtc in
  exists d', vs_cursor_plane_atomic_update d st = Some d'
  /\ (let cfg := regmap_read d' (VSDC_CURSOR_CONFIG o) in
      FIELD_GET VSDC_CURSOR_CONFIG_COMMIT cfg = 1
      /\ FIELD_GET VSDC_CURSOR_CONFIG_IMG_UPDATE cfg = 1
      /\ if visible st then
          32 * 2 ^ FIELD_GET VSDC_CURSOR_CONFIG_SIZE_MASK cfg = crtc_w st
          /\ FIELD_GET VSDC_CURSOR_CONFIG_X_OFF_MASK cfg = 0
          /\ FIELD_GET VSDC_CURSOR_CONFIG_Y_OFF_MASK cfg = 0
          /\ FIELD_GET VSDC_CURSOR_CONFIG_FMT_MASK cfg
             = FIELD_GET VSDC_CURSOR_CONFIG_FMT_MASK (regmap_read d (VSDC_CURSOR_CONFIG o))
          /\ FIELD_GET VSDC_CURSOR_LOCATION_X_MASK (regmap_read d' (VSDC_CURSOR_LOCATION o))
             = loc_of (crtc_x st)
          /\ FIELD_GET VSDC_CURSOR_LOCATION_Y_MASK (regmap_read d' (VSDC_CURSOR_LOCATION o))
             = loc_of (crtc_y st)
          /\ regmap_read d' (VSDC_CURSOR_ADDRESS o)
             = u32 (gem + aget (fb_offsets fb) 0 + aget (char_per_block (fb_format fb)) 0 * x
                    + aget (fb_pitches fb) 0 * y)
        else FIELD_GET VSDC_CURSOR_CONFIG_FMT_MASK cfg = VSDC_CURSOR_CONFIG_FMT_OFF).
Proof.
  intros Hc Hc2 Hfb Hgem Hi Hf Hx Hy Hfit Hw Hcx Hcy o. unfold vs_cursor_plane_atomic_update.
  rewrite Hc, Hfb, (vs_dma_addr_eq fb gem (ps_src st) x y) by done.
  set (addr := gem + _ + _ + _). clearbody addr. fold o.
  assert (Ho2 : o = 0 \/ o = 1) by (unfold o, vs_output; lia). clearbody o.
  destruct (visible st); cbn [negb]; eexists; (split; [done|]).
  - destruct (set_size_regs d o (crtc_w st) (lower_32_bits addr) Ho2 Hw) as (S1 & S2 & S3).
    set (d1 := regmap_write _ _ _) in *. clearbody d1.
    destruct (set_coord_regs d1 o VSDC_CURSOR_CONFIG_X_OFF_MASK VSDC_CURSOR_LOCATION_X_MASK
      (crtc_x st) (VSDC_CURSOR_LOCATION_X (crtc_x st)) Ho2 eq_refl eq_refl)
      as (X1 & X2 & X3 & X4 & X5); [|by apply FIELD_GET_u32_shiftl|done|].
    { intros v Hv. apply FIELD_GET_disjoint, land_small_high; lia. }
    set (d2 := vs_cursor_set_coord _ _ _ _ _ _) in *. clearbody d2.
    destruct (set_coord_regs d2 o VSDC_CURSOR_CONFIG_Y_OFF_MASK VSDC_CURSOR_LOCATION_Y_MASK
      (crtc_y st) (VSDC_CURSOR_LOCATION_Y (crtc_y st)) Ho2 eq_refl eq_refl)
      as (Y1 & Y2 & Y3 & Y4 & Y5); [|by apply FIELD_GET_u32_shiftl|done|].
    { intros v Hv. apply FIELD_GET_disjoint, land_small_high; lia. }
    set (d3 := vs_cursor_set_coord _ _ _ _ _ _) in *. clearbody d3.
    destruct (commit_regs d3 o Ho2) as (C1 & C2 & C3 & C4 & C5).
    split; [done|]. split; [done|]. rewrite C4, C5, !C3 by reflexivity.
    rewrite !Y2, !Y4, Y1, Y3, Y5 by reflexivity. rewrite !X2, X1, X3, X5 by reflexivity.
    rewrite (Y2 VSDC_CURSOR_CONFIG_FMT_MASK), (X2 VSDC_CURSOR_CONFIG_FMT_MASK), S1, S2, S3
      by reflexivity. unfold lower_32_bits. by rewrite u32_idemp.
  - unfold vs_cursor_plane_hw_disable. set (d1 := regmap_update_bits _ _ _ _) in *.
    destruct (commit_regs d1 o Ho2) as (C1 & C2 & C3 & _). split; [done|]. split; [done|].
    rewrite C3 by reflexivity. subst d1. rewrite regmap_read_update.
    change (u32 VSDC_CURSOR_CONFIG_FMT_MASK) with VSDC_CURSOR_CONFIG_FMT_MASK.
    by rewrite FIELD_GET_rmw_same.
Qed.
End CursorUpdate.

(** ** Witnesses *)

#[export] Instance log2_ops : Log2Ops | 10 :=
  { is_power_of_2 n := (0 <? n) && (n =? 2 ^ Z.log2 n) }.

#[export] Instance log2_laws : Log2Laws | 10.
Proof.
  split. intros n Hn. cbn. rewrite andb_true_iff, Z.ltb_lt, Z.eqb_eq. split.
  - intros [H1 H2]. exists (Z.log2 n). split; [apply Z.log2_nonneg|done].
  - intros (k & Hk & ->). rewrite Z.log2_pow2 by done. split; [|done]. by apply Z.pow_pos_nonneg.
Qed.

Definition vs_argb_fb (w h : Z) : drm_framebuffer :=
  mkfb 1 (mkfmt DRM_FORMAT_ARGB8888 32 1 [4; 0; 0] [0; 0; 0] [0; 0; 0] 1 1 true false false)
    w h [4 * w; 0; 0; 0] [0; 0; 0; 0] 0 [Some 1048576; None; None; None].

Definition vs_primary_state : vs_plane_state :=
  mkvsps
    (mkps (Some 0%nat) (Some (vs_argb_fb 800 480)) 0 0 800 480 0 0
       (800 * 65536) (480 * 65536) 0 0 0 DRM_MODE_ROTATE_0
       (mkrect 0 0 (800 * 65536) (480 * 65536)) (mkrect 0 0 800 480) true)
    (mkvsfmt VSDC_COLOR_FORMAT_A8R8G8B8 VSDC_SWIZZLE_ARGB false).

Lemma vs_primary_update_programs_witness :
  match vs_primary_plane_atomic_update (vs_funcs_of VSDC_GEN_DC8200) regfile0
          (base vs_primary_state) vs_primary_state with
  | Some d => regmap_read d (VSDC_FB_ADDRESS 0) = 1048576
  | None => False
  end.
Proof.
  pose proof (vs_primary_update_programs VSDC_GEN_DC8200 regfile0 (base vs_primary_state)
    vs_primary_state 0%nat (vs_argb_fb 800 480) 1048576 0 0 eq_refl ltac:(lia) eq_refl
    eq_refl ltac:(vm_compute; reflexivity) eq_refl eq_refl eq_refl
    ltac:(vm_compute; intuition discriminate)) as H.
  change (visible (base vs_primary_state)) with true in H. cbv zeta iota in H.
  destruct H as (d' & Hd & _ & Ha & _). rewrite Hd. exact Ha.
Defined.

(** A 64x64 cursor half off the left edge. *)
Definition vs_cursor_state : drm_plane_state :=
  mkps (Some 0%nat) (Some (vs_argb_fb 64 64)) (-32) 10 64 64 0 0 (64 * 65536) (64 * 65536)
    0 0 0 DRM_MODE_ROTATE_0 (mkrect (32 * 65536) 0 (64 * 65536) (64 * 65536))
    (mkrect 0 10 32 74) true.
Definition vs_ident_8200 : vs_chip_identity :=
  mkident 0x8200 0x5720 7 VSDC_GEN_DC8200 2 64 vs_formats_array_no_yuv444.

Lemma vs_cursor_check_exact_witness :
  match vs_cursor_plane_atomic_check (fun _ => cs_800x480) vs_ident_8200 vs_cursor_state with
  | Some (ret, s') => ret = 0 /\ visible s' = true
  | None => False
  end.
Proof.
  pose proof (vs_cursor_check_exact (fun _ => cs_800x480) vs_ident_8200 vs_cursor_state 0%nat
    (vs_argb_fb 64 64)) as H.
  assert (Hid : identity_wf vs_ident_8200).
  { split; [vm_compute; intuition discriminate|]. split; [by right|]. split; [|done].
    apply (bool_decide_unpack _). by vm_compute. }
  specialize (H Hid eq_refl eq_refl ltac:(unfold dest_ok; cbn; lia)
    ltac:(unfold source_ok; cbn; lia) eq_refl mode_800x480_typed).
  destruct (vs_cursor_plane_atomic_check _ _ _) as [[ret s']|]; [|exact H].
  vm_compute in H. destruct H as (Hv & _ & Hr). split; [exact Hr|exact Hv].
Defined.

Lemma vs_cursor_update_programs_witness :
  match vs_cursor_plane_atomic_update regfile0 vs_cursor_state with
  | Some d => FIELD_GET VSDC_CURSOR_CONFIG_X_OFF_MASK (regmap_read d (VSDC_CURSOR_CONFIG 0)) = 0
              /\ regmap_read d (VSDC_CURSOR_ADDRESS 0) = 1048576 + 4 * 32
  | None => False
  end.
Proof.
  pose proof (vs_cursor_update_programs regfile0 vs_cursor_state 0%nat (vs_argb_fb 64 64)
    1048576 32 0 eq_refl ltac:(lia) eq_refl eq_refl ltac:(vm_compute; reflexivity)
    ltac:(apply (bool_decide_unpack _); vm_compute; exact I) eq_refl eq_refl
    ltac:(vm_compute; intuition discriminate)
    ltac:(apply (bool_decide_unpack _); vm_compute; exact I)
    ltac:(cbn; lia) ltac:(cbn; lia)) as (d' & Hd & H).
  rewrite Hd. destruct H as (_ & _ & H). change (visible vs_cursor_state) with true in H.
  destruct H as (_ & Hx & _ & _ & _ & _ & Ha). split; [exact Hx|exact Ha].
Defined.
