(* ===== verification/VsPipe.v ===== *)
(** * VsPipe: CRTCs and output bridges of the Verisilicon driver
      (src/drm/verisilicon/vs_crtc.c, vs_bridge.c)

    Handlers run on a register map and return the clock and vblank calls they
    make, in order, as events. *)

From S2P Require Export KernelApi Uapi DrmModes DrmPlaneCheck DrmBridge VsDc VsPlane.

(** ** vs_crtc.c *)

Definition VSDC_DISP_HSIZE (n : Z) : Z := 0x1430 + 0x4 * n.
Definition VSDC_DISP_HSIZE_DISP (v : Z) : Z := v .<< 0.
Definition VSDC_DISP_HSIZE_TOTAL (v : Z) : Z := v .<< 16.
Definition VSDC_DISP_HSYNC (n : Z) : Z := 0x1438 + 0x4 * n.
Definition VSDC_DISP_HSYNC_START (v : Z) : Z := v .<< 0.
Definition VSDC_DISP_HSYNC_END (v : Z) : Z := v .<< 15.
Definition VSDC_DISP_HSYNC_EN : Z := BIT 30.
Definition VSDC_DISP_HSYNC_POL : Z := BIT 31.
Definition VSDC_DISP_VSIZE (n : Z) : Z := 0x1440 + 0x4 * n.
Definition VSDC_DISP_VSIZE_DISP (v : Z) : Z := v .<< 0.
Definition VSDC_DISP_VSIZE_TOTAL (v : Z) : Z := v .<< 16.
Definition VSDC_DISP_VSYNC (n : Z) : Z := 0x1448 + 0x4 * n.
Definition VSDC_DISP_VSYNC_START (v : Z) : Z := v .<< 0.
Definition VSDC_DISP_VSYNC_END (v : Z) : Z := v .<< 15.
Definition VSDC_DISP_VSYNC_EN : Z := BIT 30.
Definition VSDC_DISP_VSYNC_POL : Z := BIT 31.
(** The field masks of the size and sync registers, both directions. *)
Definition VSDC_DISP_SIZE_DISP_MASK : Z := GENMASK 14 0.
Definition VSDC_DISP_SIZE_TOTAL_MASK : Z := GENMASK 30 16.
Definition VSDC_DISP_SYNC_START_MASK : Z := GENMASK 14 0.
Definition VSDC_DISP_SYNC_END_MASK : Z := GENMASK 29 15.
(** [BIT_MASK(15)]. *)
Definition VSDC_DISP_TIMING_VALUE_MAX : Z := 1 .<< 15.
Definition HZ_PER_KHZ : Z := 1000.

Inductive vs_event : Set :=
| PixClkEnable (output : Z) | PixClkDisable (output : Z) | PixClkSetRate (output rate : Z)
| CrtcVblankOn | CrtcVblankOff | CrtcVblankFlush.

Section Crtc.
Context {D : Type} `{!RegmapOps D}.
Variable funcs : vs_dc_funcs D.

Definition vs_crtc_atomic_begin (d : D) (output : Z) : D :=
  call_hook (crtc_begin funcs) d output.

Definition vs_crtc_atomic_flush (d : D) (output : Z) : D * list vs_event :=
  (call_hook (crtc_flush funcs) d output, [CrtcVblankFlush]).

Definition vs_crtc_atomic_disable (d : D) (output : Z) : D * list vs_event :=
  (call_hook (crtc_disable_ex funcs) d output, [CrtcVblankOff; PixClkDisable output]).

(** A failure to enable the clock is only a warning. *)
Definition vs_crtc_atomic_enable (d : D) (output : Z) : D * list vs_event :=
  (call_hook (crtc_enable_ex funcs) d output, [PixClkEnable output; CrtcVblankOn]).

Definition vs_crtc_mode_set_nofb (d : D) (output : Z) (mode : drm_display_mode)
  : D * list vs_event :=
  let d := regmap_write d (VSDC_DISP_HSIZE output)
             (u32 (VSDC_DISP_HSIZE_DISP (hdisplay mode) .| VSDC_DISP_HSIZE_TOTAL (htotal mode))) in
  let d := regmap_write d (VSDC_DISP_VSIZE output)
             (u32 (VSDC_DISP_VSIZE_DISP (vdisplay mode) .| VSDC_DISP_VSIZE_TOTAL (vtotal mode))) in
  let d := regmap_write d (VSDC_DISP_HSYNC output)
             (u32 (VSDC_DISP_HSYNC_START (hsync_start mode)
                   .| VSDC_DISP_HSYNC_END (hsync_end mode) .| VSDC_DISP_HSYNC_EN)) in
  let d := if negb (truthy (flags mode .& DRM_MODE_FLAG_PHSYNC))
           then regmap_set_bits d (VSDC_DISP_HSYNC output) VSDC_DISP_HSYNC_POL else d in
  let d := regmap_write d (VSDC_DISP_VSYNC output)
             (u32 (VSDC_DISP_VSYNC_START (vsync_start mode)
                   .| VSDC_DISP_VSYNC_END (vsync_end mode) .| VSDC_DISP_VSYNC_EN)) in
  let d := if negb (truthy (flags mode .& DRM_MODE_FLAG_PVSYNC))
           then regmap_set_bits d (VSDC_DISP_VSYNC output) VSDC_DISP_VSYNC_POL else d in
  (d, [PixClkSetRate output (u64 (s32 (crtc_clock mode * 1000)))]).

Definition vs_crtc_enable_vblank (d : D) (output : Z) : Z * D :=
  (0, enable_vblank funcs d output).
Definition vs_crtc_disable_vblank (d : D) (output : Z) : D :=
  disable_vblank funcs d output.
End Crtc.

(** [clk_round_rate] of the pixel clock: unsigned long to long. *)
Definition vs_crtc_mode_valid (clk_round_rate : Z -> Z) (mode : drm_display_mode)
  : drm_mode_status :=
  if htotal mode >? VSDC_DISP_TIMING_VALUE_MAX then MODE_BAD_HVALUE
  else if vtotal mode >? VSDC_DISP_TIMING_VALUE_MAX then MODE_BAD_VVALUE
  else if clk_round_rate (u64 (clock mode * HZ_PER_KHZ)) <=? 0 then MODE_CLOCK_RANGE
  else MODE_OK.

Definition vs_crtc_mode_fixup (clk_round_rate : Z -> Z) (adjusted_mode : drm_display_mode)
  : bool * drm_display_mode :=
  let adjusted_mode := drm_mode_set_crtcinfo adjusted_mode 0 in
  let clk_rate := clk_round_rate (u64 (crtc_clock adjusted_mode * HZ_PER_KHZ)) in
  if clk_rate <=? 0 then (false, adjusted_mode)
  else (true, {| adjusted_mode with crtc_clock := s32 (clk_rate / HZ_PER_KHZ) |}).

(** ** vs_bridge.c *)

Definition VSDC_DISP_PANEL_CONFIG_DE_EN : Z := BIT 0.
Definition VSDC_DISP_PANEL_CONFIG_DE_POL : Z := BIT 1.
Definition VSDC_DISP_PANEL_CONFIG_DAT_EN : Z := BIT 4.
Definition VSDC_DISP_PANEL_CONFIG_DAT_POL : Z := BIT 5.
Definition VSDC_DISP_PANEL_CONFIG_CLK_EN : Z := BIT 8.
Definition VSDC_DISP_PANEL_CONFIG_CLK_POL : Z := BIT 9.
Definition VSDC_DISP_PANEL_CONFIG_YUV : Z := BIT 16.
Definition VSDC_DISP_DPI_CONFIG (n : Z) : Z := 0x14B8 + 0x4 * n.
Definition VSDC_DISP_DPI_CONFIG_FMT_RGB888 : Z := 5.
Definition VSDC_DISP_DP_CONFIG (n : Z) : Z := 0x1CD0 + 0x4 * n.
Definition VSDC_DISP_DP_CONFIG_DP_EN : Z := BIT 3.
Definition VSDC_DISP_DP_CONFIG_FMT_MASK : Z := GENMASK 2 0.
Definition VSDC_DISP_DP_CONFIG_FMT_RGB565 : Z := 0.
Definition VSDC_DISP_DP_CONFIG_FMT_RGB666 : Z := 1.
Definition VSDC_DISP_DP_CONFIG_FMT_RGB888 : Z := 2.
Definition VSDC_DISP_DP_CONFIG_FMT_RGB101010 : Z := 3.
Definition VSDC_DISP_DP_CONFIG_YUV_FMT_MASK : Z := GENMASK 7 4.
Definition VSDC_DISP_DP_CONFIG_YUV_FMT_UYVY8 : Z := 2 .<< 4.
Definition VSDC_DISP_DP_CONFIG_YUV_FMT_YUV8 : Z := 4 .<< 4.
Definition VSDC_DISP_DP_CONFIG_YUV_FMT_UYVY10 : Z := 8 .<< 4.
Definition VSDC_DISP_DP_CONFIG_YUV_FMT_YUV10 : Z := 10 .<< 4.
Definition VSDC_DISP_DP_CONFIG_YUV_FMT_UYYVYY8 : Z := 12 .<< 4.
Definition VSDC_DISP_DP_CONFIG_YUV_FMT_UYYVYY10 : Z := 13 .<< 4.

Record vsdc_dp_format := mkdpf { linux_fmt : media_bus_fmt; dp_is_yuv : bool; vsdc_fmt : Z }.

Definition vsdc_dp_supported_fmts : list vsdc_dp_format := [
  mkdpf MEDIA_BUS_FMT_FIXED false VSDC_DISP_DP_CONFIG_FMT_RGB888;
  mkdpf MEDIA_BUS_FMT_RGB888_1X24 false VSDC_DISP_DP_CONFIG_FMT_RGB888;
  mkdpf MEDIA_BUS_FMT_RGB565_1X16 false VSDC_DISP_DP_CONFIG_FMT_RGB565;
  mkdpf MEDIA_BUS_FMT_RGB666_1X18 false VSDC_DISP_DP_CONFIG_FMT_RGB666;
  mkdpf MEDIA_BUS_FMT_RGB101010_1X30 false VSDC_DISP_DP_CONFIG_FMT_RGB101010;
  mkdpf MEDIA_BUS_FMT_UYVY8_1X16 true VSDC_DISP_DP_CONFIG_YUV_FMT_UYVY8;
  mkdpf MEDIA_BUS_FMT_UYVY10_1X20 true VSDC_DISP_DP_CONFIG_YUV_FMT_UYVY10;
  mkdpf MEDIA_BUS_FMT_YUV8_1X24 true VSDC_DISP_DP_CONFIG_YUV_FMT_YUV8;
  mkdpf MEDIA_BUS_FMT_YUV10_1X30 true VSDC_DISP_DP_CONFIG_YUV_FMT_YUV10;
  mkdpf MEDIA_BUS_FMT_UYYVYY8_0_5X24 true VSDC_DISP_DP_CONFIG_YUV_FMT_UYYVYY8;
  mkdpf MEDIA_BUS_FMT_UYYVYY10_0_5X30 true VSDC_DISP_DP_CONFIG_YUV_FMT_UYYVYY10].

(** The next bridge, [None] a NULL, with its own hook. *)
Definition vs_bridge_attach (next_attach : option (bridge_world -> Z * bridge_world)) (bridge : nat)
    (next_bridge encoder : option nat) (w : bridge_world) : Z * bridge_world :=
  drm_bridge_attach next_attach encoder next_bridge (Some bridge) w.

Definition vs_bridge_atomic_get_output_bus_fmts_dpi (kcalloc_ok : bool) : bus_fmts :=
  if kcalloc_ok then Fmts MEDIA_BUS_FMT_RGB888_1X24 [MEDIA_BUS_FMT_FIXED] else NullFmts.

Definition vs_bridge_atomic_get_output_bus_fmts_dp (kcalloc_ok : bool) : bus_fmts :=
  if kcalloc_ok then fmts_of (linux_fmt <$> vsdc_dp_supported_fmts) else NullFmts.

Definition vs_bridge_out_dp_fmt_supported (out_fmt : media_bus_fmt) : bool :=
  existsb (fun f => bool_decide (linux_fmt f = out_fmt)) vsdc_dp_supported_fmts.

Definition vs_bridge_atomic_get_input_bus_fmts_dp (kzalloc_ok : bool)
    (output_fmt : media_bus_fmt) : bus_fmts :=
  if negb (vs_bridge_out_dp_fmt_supported output_fmt) then NoFmts
  else drm_atomic_helper_bridge_propagate_bus_fmt kzalloc_ok output_fmt.

Definition vs_bridge_atomic_check_dp (format : media_bus_fmt) : Z :=
  if negb (vs_bridge_out_dp_fmt_supported format) then - EINVAL else 0.

Section Bridge.
Context {D : Type} `{!RegmapOps D}.
Variable funcs : vs_dc_funcs D.

(** [bus_flags] is [br_state->output_bus_cfg.flags]. *)
Definition vs_bridge_enable_common (d : D) (output bus_flags : Z) : D :=
  let reg := VSDC_DISP_PANEL_CONFIG output in
  let d := regmap_clear_bits d reg VSDC_DISP_PANEL_CONFIG_DAT_POL in
  let d := regmap_assign_bits d reg VSDC_DISP_PANEL_CONFIG_DE_POL
             (truthy (bus_flags .& DRM_BUS_FLAG_DE_LOW)) in
  let d := regmap_assign_bits d reg VSDC_DISP_PANEL_CONFIG_CLK_POL
             (truthy (bus_flags .& DRM_BUS_FLAG_PIXDATA_DRIVE_NEGEDGE)) in
  let d := regmap_set_bits d reg
             (VSDC_DISP_PANEL_CONFIG_DE_EN .| VSDC_DISP_PANEL_CONFIG_DAT_EN
              .| VSDC_DISP_PANEL_CONFIG_CLK_EN) in
  panel_enable_ex funcs d output.

Definition vs_bridge_atomic_enable_dpi (d : D) (output bus_flags : Z) : D :=
  let d := regmap_clear_bits d (VSDC_DISP_DP_CONFIG output) VSDC_DISP_DP_CONFIG_DP_EN in
  let d := regmap_write d (VSDC_DISP_DPI_CONFIG output) VSDC_DISP_DPI_CONFIG_FMT_RGB888 in
  vs_bridge_enable_common d output bus_flags.

(** An unsupported format warns and leaves the hardware alone. *)
Definition vs_bridge_atomic_enable_dp (d : D) (output : Z) (format : media_bus_fmt)
    (bus_flags : Z) : D :=
  match List.find (fun f => bool_decide (linux_fmt f = format)) vsdc_dp_supported_fmts with
  | None => d
  | Some f =>
      let dp_fmt := vsdc_fmt f .| VSDC_DISP_DP_CONFIG_DP_EN in
      let d := regmap_write d (VSDC_DISP_DP_CONFIG output) dp_fmt in
      let d := regmap_assign_bits d (VSDC_DISP_PANEL_CONFIG output)
                 VSDC_DISP_PANEL_CONFIG_YUV (dp_is_yuv f) in
      vs_bridge_enable_common d output bus_flags
  end.

Definition vs_bridge_atomic_disable (d : D) (output : Z) : D := panel_disable_ex funcs d output.
End Bridge.

(** ** Facts *)

Lemma shiftl_FIELD_PREP h l v :
  0 <= l <= h -> 0 <= v < 2 ^ (h - l + 1) -> v .<< l = FIELD_PREP (GENMASK h l) v.
Proof.
  intros Hl Hv. rewrite FIELD_PREP_GENMASK, Z.land_ones, Z.mod_small by lia. done.
Qed.

Lemma size_reg_fields a t :
  0 <= a < 2 ^ 15 -> 0 <= t < 2 ^ 15 ->
  let r := u32 (u32 (a .<< 0 .| t .<< 16)) in
  FIELD_GET VSDC_DISP_SIZE_DISP_MASK r = a /\ FIELD_GET VSDC_DISP_SIZE_TOTAL_MASK r = t.
Proof.
  intros Ha Ht. unfold VSDC_DISP_SIZE_DISP_MASK, VSDC_DISP_SIZE_TOTAL_MASK.
  rewrite (shiftl_FIELD_PREP 14 0 a), (shiftl_FIELD_PREP 30 16 t) by lia.
  rewrite u32_idemp, u32_id by solve_u32. by field_simp.
Qed.

(** A total of exactly 2^15 leaves its field. *)
Lemma size_reg_overflow a :
  0 <= a < 2 ^ 16 -> FIELD_GET VSDC_DISP_SIZE_TOTAL_MASK (u32 (u32 (a .<< 0 .| 2 ^ 15 .<< 16))) = 0.
Proof.
  intros Ha. unfold VSDC_DISP_SIZE_TOTAL_MASK. change (2 ^ 15 .<< 16) with (2 ^ 31).
  rewrite Z.shiftl_0_r, u32_idemp, u32_id.
  2:{ apply lor_u32; unfold is_u32; lia. }
  rewrite FIELD_GET_lor, (FIELD_GET_disjoint _ a), (FIELD_GET_disjoint _ (2 ^ 31)); [done|reflexivity|].
  apply land_small_high; lia.
Qed.

Section CrtcFacts.
Context {D : Type} `{Ho : !RegmapOps D} `{Hl : !RegmapLaws D}.

(** One direction of the mode: what the two registers decode to. *)
Definition direction_ok (size sync disp ss se tot : Z) (neg : bool) : Prop :=
  FIELD_GET VSDC_DISP_SIZE_DISP_MASK size = disp
  /\ FIELD_GET VSDC_DISP_SIZE_TOTAL_MASK size = tot
  /\ FIELD_GET VSDC_DISP_SYNC_START_MASK sync = ss
  /\ FIELD_GET VSDC_DISP_SYNC_END_MASK sync = se
  /\ FIELD_GET VSDC_DISP_HSYNC_EN sync = 1
  /\ FIELD_GET VSDC_DISP_HSYNC_POL sync = Z.b2z neg.

Lemma sync_fields a b (neg : bool) :
  0 <= a < 2 ^ 15 -> 0 <= b < 2 ^ 15 ->
  let r := u32 (u32 (a .<< 0 .| b .<< 15 .| BIT 30)) in
  let r := if neg then rmw r (u32 (BIT 31)) (u32 (BIT 31)) else r in
  FIELD_GET VSDC_DISP_SYNC_START_MASK r = a /\ FIELD_GET VSDC_DISP_SYNC_END_MASK r = b
  /\ FIELD_GET VSDC_DISP_HSYNC_EN r = 1 /\ FIELD_GET VSDC_DISP_HSYNC_POL r = Z.b2z neg.
Proof.
  intros Ha Hb. unfold VSDC_DISP_SYNC_START_MASK, VSDC_DISP_SYNC_END_MASK,
    VSDC_DISP_HSYNC_EN, VSDC_DISP_HSYNC_POL.
  rewrite (shiftl_FIELD_PREP 14 0 a), (shiftl_FIELD_PREP 29 15 b) by lia.
  rewrite u32_idemp, u32_id by solve_u32. change (u32 (BIT 31)) with (BIT 31).
  destruct neg; cbv zeta iota; rewrite ?rmw_set; field_simp; repeat split; reflexivity.
Qed.

Lemma mode_set_nofb_regs (d : D) o m :
  o = 0 \/ o = 1 ->
  let d' := fst (vs_crtc_mode_set_nofb d o m) in
  regmap_read d' (VSDC_DISP_HSIZE o) = u32 (u32 (hdisplay m .<< 0 .| htotal m .<< 16))
  /\ regmap_read d' (VSDC_DISP_VSIZE o) = u32 (u32 (vdisplay m .<< 0 .| vtotal m .<< 16))
  /\ regmap_read d' (VSDC_DISP_HSYNC o)
     = (let r := u32 (u32 (hsync_start m .<< 0 .| hsync_end m .<< 15 .| BIT 30)) in
        if negb (truthy (flags m .& DRM_MODE_FLAG_PHSYNC))
        then rmw r (u32 (BIT 31)) (u32 (BIT 31)) else r)
  /\ regmap_read d' (VSDC_DISP_VSYNC o)
     = (let r := u32 (u32 (vsync_start m .<< 0 .| vsync_end m .<< 15 .| BIT 30)) in
        if negb (truthy (flags m .& DRM_MODE_FLAG_PVSYNC))
        then rmw r (u32 (BIT 31)) (u32 (BIT 31)) else r).
Proof.
  intros Ho2. unfold vs_crtc_mode_set_nofb. cbn [fst].
  destruct (negb (truthy (flags m .& DRM_MODE_FLAG_PHSYNC))),
    (negb (truthy (flags m .& DRM_MODE_FLAG_PVSYNC)));
    destruct Ho2 as [->| ->]; rm_simp; done.
Qed.
End CrtcFacts.

(** ** Main theorems *)

Section Theorems.
Context {D : Type} `{Ho : !RegmapOps D} `{Hl : !RegmapLaws D}.

(** C34: From validation to registers. A typed mode that passes
    [drm_mode_validate_basic] and [vs_crtc_mode_valid] has totals of at most
    2^15; programmed by [vs_crtc_mode_set_nofb], each direction whose total is
    below 2^15 decodes to exactly its display, sync and total values with the
    sync enabled and its polarity inverted from the mode flag - and a total of
    exactly 2^15, which the check admits, decodes to 0. [vs_crtc_mode_fixup]
    succeeds iff the clock offers a positive rate, and the rate requested after
    it is that rate cut down to whole kilohertz as long as it is below 2^31 Hz; from
    there on the product of the kilohertz with 1000 wraps as an [int], and what is
    requested is the wrapped value ([fast_clock_wraps]). *)
Theorem vs_mode_programmed (d : D) o m rate :
  o = 0 \/ o = 1 -> mode_typed m -> drm_mode_validate_basic m = MODE_OK ->
  vs_crtc_mode_valid rate m = MODE_OK ->
  let d' := fst (vs_crtc_mode_set_nofb d o m) in
  htotal m <= 2 ^ 15 /\ vtotal m <= 2 ^ 15
  /\ (if htotal m =? 2 ^ 15
      then FIELD_GET VSDC_DISP_SIZE_TOTAL_MASK (regmap_read d' (VSDC_DISP_HSIZE o)) = 0
      else direction_ok (regmap_read d' (VSDC_DISP_HSIZE o)) (regmap_read d' (VSDC_DISP_HSYNC o))
             (hdisplay m) (hsync_start m) (hsync_end m) (htotal m)
             (negb (truthy (flags m .& DRM_MODE_FLAG_PHSYNC))))
  /\ (if vtotal m =? 2 ^ 15
      then FIELD_GET VSDC_DISP_SIZE_TOTAL_MASK (regmap_read d' (VSDC_DISP_VSIZE o)) = 0
      else direction_ok (regmap_read d' (VSDC_DISP_VSIZE o)) (regmap_read d' (VSDC_DISP_VSYNC o))
             (vdisplay m) (vsync_start m) (vsync_end m) (vtotal m)
             (negb (truthy (flags m .& DRM_MODE_FLAG_PVSYNC))))
  /\ (let r := rate (u64 (crtc_clock (drm_mode_set_crtcinfo m 0) * HZ_PER_KHZ)) in
      let '(ok, m') := vs_crtc_mode_fixup rate m in
      ok = (0 <? r)
      /\ (0 < r -> snd (vs_crtc_mode_set_nofb d o m')
                   = [PixClkSetRate o (u64 (s32 (s32 (r / 1000) * 1000)))])
      /\ (0 < r < 2 ^ 31 -> snd (vs_crtc_mode_set_nofb d o m')
                            = [PixClkSetRate o (1000 * (r / 1000))])).
Proof.
  intros Ho2 [Hty _] Hb Hv d'. apply validate_basic_ok in Hb.
  unfold is_u16 in Hty. rewrite !Forall_cons in Hty. destruct_and!.
  unfold vs_crtc_mode_valid in Hv. change VSDC_DISP_TIMING_VALUE_MAX with (2 ^ 15) in Hv.
  destruct (htotal m >? 2 ^ 15) eqn:Eh; [done|]. destruct (vtotal m >? 2 ^ 15) eqn:Ev; [done|]. zb.
  destruct (mode_set_nofb_regs d o m Ho2) as (R1 & R2 & R3 & R4). fold d' in R1, R2, R3, R4.
  cbv zeta in R3, R4.
  split; [done|]. split; [done|]. split; [|split].
  - destruct (Z.eqb_spec (htotal m) (2 ^ 15)) as [Et|Et].
    + rewrite R1, Et. apply size_reg_overflow. lia.
    + unfold direction_ok. rewrite R1, R3.
      destruct (size_reg_fields (hdisplay m) (htotal m)) as [-> ->]; [lia..|].
      destruct (sync_fields (hsync_start m) (hsync_end m)
        (negb (truthy (flags m .& DRM_MODE_FLAG_PHSYNC)))) as (-> & -> & -> & ->); [lia..|done].
  - destruct (Z.eqb_spec (vtotal m) (2 ^ 15)) as [Et|Et].
    + rewrite R2, Et. apply size_reg_overflow. lia.
    + unfold direction_ok. rewrite R2, R4.
      destruct (size_reg_fields (vdisplay m) (vtotal m)) as [-> ->]; [lia..|].
      destruct (sync_fields (vsync_start m) (vsync_end m)
        (negb (truthy (flags m .& DRM_MODE_FLAG_PVSYNC)))) as (-> & -> & -> & ->); [lia..|done].
  - unfold vs_crtc_mode_fixup. cbv zeta. set (r := rate _). rewrite Z.leb_antisym.
    destruct (0 <? r) eqn:Er; cbn [negb]; [|split; [done|split; intros Hr; zb; lia]].
    split; [done|]. split; [done|]. intros Hr. unfold vs_crtc_mode_set_nofb. cbn [snd crtc_clock].
    change HZ_PER_KHZ with 1000.
    pose proof (Z.div_mod r 1000 ltac:(lia)). pose proof (Z.mod_pos_bound r 1000 ltac:(lia)).
    assert (0 <= r / 1000) by (apply Z.div_pos; lia).
    rewrite (s32_id (r / 1000)), s32_id, u64_id by (unfold is_s32, is_u64; lia).
    do 2 f_equal. lia.
Qed.
End Theorems.

(** Fields of a register after a chain of masked updates. *)
Ltac rmw_simp :=
  repeat match goal with
  | |- context [FIELD_GET ?m (rmw ?o ?mk ?v)] =>
      first [ rewrite (FIELD_GET_rmw_disjoint m mk o v) by (vm_compute; reflexivity)
            | rewrite (FIELD_GET_rmw_sub m mk o v) by (vm_compute; reflexivity) ]
  end.

Section BridgeTheorem.
Context {D : Type} `{Ho : !RegmapOps D} `{Hl : !RegmapLaws D}.

(** An output that runs: the panel signals with the polarities of the bus
    flags, and the generation's own start bits. *)
Definition panel_running (g : vs_dc_generation) (d : D) (o bus_flags : Z) : Prop :=
  let pc := regmap_read d (VSDC_DISP_PANEL_CONFIG o) in
  FIELD_GET VSDC_DISP_PANEL_CONFIG_DE_EN pc = 1
  /\ FIELD_GET VSDC_DISP_PANEL_CONFIG_DAT_EN pc = 1
  /\ FIELD_GET VSDC_DISP_PANEL_CONFIG_CLK_EN pc = 1
  /\ FIELD_GET VSDC_DISP_PANEL_CONFIG_DAT_POL pc = 0
  /\ FIELD_GET VSDC_DISP_PANEL_CONFIG_DE_POL pc
     = Z.b2z (truthy (bus_flags .& DRM_BUS_FLAG_DE_LOW))
  /\ FIELD_GET VSDC_DISP_PANEL_CONFIG_CLK_POL pc
     = Z.b2z (truthy (bus_flags .& DRM_BUS_FLAG_PIXDATA_DRIVE_NEGEDGE))
  /\ match g with
     | VSDC_GEN_DC8000 => FIELD_GET VSDC_FB_CONFIG_RESET (regmap_read d (VSDC_FB_CONFIG o)) = 1
     | VSDC_GEN_DC8200 =>
         FIELD_GET VSDC_DISP_PANEL_CONFIG_RUNNING pc = 1
         /\ FIELD_GET (VSDC_DISP_PANEL_START_RUNNING o) (regmap_read d VSDC_DISP_PANEL_START) = 1
         /\ FIELD_GET VSDC_DISP_PANEL_START_MULTI_DISP_SYNC
              (regmap_read d VSDC_DISP_PANEL_START) = 0
         /\ FIELD_GET VSDC_DISP_PANEL_CONFIG_EX_COMMIT
              (regmap_read d (VSDC_DISP_PANEL_CONFIG_EX o)) = 1
     end.

Lemma enable_common_regs g (d : D) o bus_flags :
  o = 0 \/ o = 1 ->
  let d' := vs_bridge_enable_common (vs_funcs_of g) d o bus_flags in
  panel_running g d' o bus_flags
  /\ FIELD_GET VSDC_DISP_PANEL_CONFIG_YUV (regmap_read d' (VSDC_DISP_PANEL_CONFIG o))
     = FIELD_GET VSDC_DISP_PANEL_CONFIG_YUV (regmap_read d (VSDC_DISP_PANEL_CONFIG o))
  /\ regmap_read d' (VSDC_DISP_DP_CONFIG o) = regmap_read d (VSDC_DISP_DP_CONFIG o)
  /\ regmap_read d' (VSDC_DISP_DPI_CONFIG o) = regmap_read d (VSDC_DISP_DPI_CONFIG o).
Proof.
  intros Ho2. cbv zeta. unfold panel_running, vs_bridge_enable_common.
  generalize (truthy (bus_flags .& DRM_BUS_FLAG_DE_LOW)),
    (truthy (bus_flags .& DRM_BUS_FLAG_PIXDATA_DRIVE_NEGEDGE)). intros de ck.
  destruct g;
    [change (panel_enable_ex (vs_funcs_of VSDC_GEN_DC8000)) with (vs_dc8000_panel_enable_ex (D:=D))
    |change (panel_enable_ex (vs_funcs_of VSDC_GEN_DC8200)) with (vs_dc8200_panel_enable_ex (D:=D))];
    unfold vs_dc8000_panel_enable_ex, vs_dc8200_panel_enable_ex;
    destruct Ho2 as [->| ->], de, ck; rm_simp; rmw_simp; repeat split; reflexivity.
Qed.

(** DisplayPort and parallel outputs. Format negotiation is consistent: a
    format is offered as output format iff it is accepted as output of the
    input negotiation and by the state check, so the warning in the enable path
    is unreachable for a checked state. Enabling a DisplayPort output programs
    the format's own code, in the RGB or the YUV field, with the enable bit, and
    the YUV flag of the panel; an unsupported format leaves the hardware alone.
    Enabling a parallel output switches DisplayPort off and selects RGB888.
    Either way the panel runs with the polarities of the bus flags, on both
    generations. *)
Theorem vs_bridge_enable_programs g (d : D) o fmt bus_flags :
  o = 0 \/ o = 1 ->
  let supported := vs_bridge_out_dp_fmt_supported fmt in
  (vs_bridge_atomic_check_dp fmt = (if supported then 0 else - EINVAL)
   /\ vs_bridge_atomic_get_input_bus_fmts_dp true fmt = (if supported then Fmts fmt [] else NoFmts)
   /\ (fmt ∈ fmts_list (vs_bridge_atomic_get_output_bus_fmts_dp true) <-> supported = true))
  /\ (let d' := vs_bridge_atomic_enable_dp (vs_funcs_of g) d o fmt bus_flags in
      if supported then
        panel_running g d' o bus_flags
        /\ exists f, f ∈ vsdc_dp_supported_fmts /\ linux_fmt f = fmt
           /\ let dp := regmap_read d' (VSDC_DISP_DP_CONFIG o) in
              FIELD_GET VSDC_DISP_DP_CONFIG_DP_EN dp = 1
              /\ (if dp_is_yuv f
                  then FIELD_GET VSDC_DISP_DP_CONFIG_YUV_FMT_MASK dp = vsdc_fmt f / 16
                       /\ FIELD_GET VSDC_DISP_DP_CONFIG_FMT_MASK dp = 0
                  else FIELD_GET VSDC_DISP_DP_CONFIG_FMT_MASK dp = vsdc_fmt f
                       /\ FIELD_GET VSDC_DISP_DP_CONFIG_YUV_FMT_MASK dp = 0)
              /\ FIELD_GET VSDC_DISP_PANEL_CONFIG_YUV (regmap_read d' (VSDC_DISP_PANEL_CONFIG o))
                 = Z.b2z (dp_is_yuv f)
      else d' = d)
  /\ (let d' := vs_bridge_atomic_enable_dpi (vs_funcs_of g) d o bus_flags in
      panel_running g d' o bus_flags
      /\ FIELD_GET VSDC_DISP_DP_CONFIG_DP_EN (regmap_read d' (VSDC_DISP_DP_CONFIG o)) = 0
      /\ regmap_read d' (VSDC_DISP_DPI_CONFIG o) = VSDC_DISP_DPI_CONFIG_FMT_RGB888).
Proof.
  intros Ho2 supported. split; [|split].
  - unfold vs_bridge_atomic_check_dp, vs_bridge_atomic_get_input_bus_fmts_dp. fold supported.
    split; [by destruct supported|]. split; [by destruct supported|].
    change (fmts_list _) with (linux_fmt <$> vsdc_dp_supported_fmts). unfold supported, vs_bridge_out_dp_fmt_supported.
    rewrite existsb_exists, list_elem_of_fmap. split.
    + intros (f & -> & Hf). exists f. split; [by apply list_elem_of_In|by apply bool_decide_eq_true].
    + intros (f & Hf & Heq). exists f. apply bool_decide_eq_true in Heq.
      split; [done|by apply list_elem_of_In].
  - cbv zeta. unfold vs_bridge_atomic_enable_dp.
    destruct (List.find _ vsdc_dp_supported_fmts) as [f|] eqn:E.
    + apply List.find_some in E as [Hf Heq].
      replace supported with true.
      2:{ symmetry. apply existsb_exists. by exists f. }
      apply bool_decide_eq_true in Heq.
      set (d1 := regmap_assign_bits _ _ _ _).
      destruct (enable_common_regs g d1 o bus_flags Ho2) as (Hp & Hyuv & Hdp & _).
      split; [done|]. exists f. apply list_elem_of_In in Hf. split; [done|]. split; [done|].
      rewrite Hyuv, Hdp. subst d1.
      assert (Hrow : forall f, f ∈ vsdc_dp_supported_fmts ->
        let w := u32 (vsdc_fmt f .| VSDC_DISP_DP_CONFIG_DP_EN) in
        FIELD_GET VSDC_DISP_DP_CONFIG_DP_EN w = 1
        /\ (if dp_is_yuv f
            then FIELD_GET VSDC_DISP_DP_CONFIG_YUV_FMT_MASK w = vsdc_fmt f / 16
                 /\ FIELD_GET VSDC_DISP_DP_CONFIG_FMT_MASK w = 0
            else FIELD_GET VSDC_DISP_DP_CONFIG_FMT_MASK w = vsdc_fmt f
                 /\ FIELD_GET VSDC_DISP_DP_CONFIG_YUV_FMT_MASK w = 0)).
      { intros e He. unfold vsdc_dp_supported_fmts in He. rewrite !elem_of_cons, elem_of_nil in He.
        repeat destruct He as [->|He]; try done; by vm_compute. }
      destruct (dp_is_yuv f) eqn:Ey; destruct Ho2 as [->| ->]; rm_simp; rmw_simp;
        specialize (Hrow f Hf); cbv zeta in Hrow; rewrite Ey in Hrow;
        (split; [apply Hrow|]); (split; [apply Hrow|reflexivity]).
    + replace supported with false; [done|]. symmetry. apply not_true_is_false.
      unfold supported, vs_bridge_out_dp_fmt_supported. rewrite existsb_exists.
      intros (f & Hf & Heq). by rewrite (List.find_none _ _ E f Hf) in Heq.
  - cbv zeta. unfold vs_bridge_atomic_enable_dpi. set (d1 := regmap_write _ _ _).
    destruct (enable_common_regs g d1 o bus_flags Ho2) as (Hp & _ & Hdp & Hdpi).
    split; [done|]. rewrite Hdp, Hdpi. subst d1.
    destruct Ho2 as [->| ->]; rm_simp; rmw_simp; done.
Qed.
End BridgeTheorem.

(** ** Witnesses *)

Lemma vs_mode_programmed_witness :
  FIELD_GET VSDC_DISP_SIZE_TOTAL_MASK
    (regmap_read (fst (vs_crtc_mode_set_nofb regfile0 0 mode_800x480)) (VSDC_DISP_HSIZE 0)) = 1056.
Proof.
  pose proof (vs_mode_programmed regfile0 0 mode_800x480 (fun r => r) (or_introl eq_refl)
    mode_800x480_typed ltac:(vm_compute; reflexivity) ltac:(vm_compute; reflexivity)) as H.
  destruct H as (_ & _ & H & _). destruct H as (_ & H & _). exact H.
Defined.

(** From 2^31 Hz on, the product of the kilohertz with 1000 is not an [int]. *)
Lemma fast_clock_wraps :
  let rate := fun _ => 3000000000 in
  vs_crtc_mode_valid rate mode_800x480 = MODE_OK
  /\ snd (vs_crtc_mode_set_nofb regfile0 0 (snd (vs_crtc_mode_fixup rate mode_800x480)))
     = [PixClkSetRate 0 (2 ^ 64 - 1294967296)].
Proof. vm_compute. repeat split. Qed.

Lemma vs_bridge_enable_programs_witness :
  regmap_read (vs_bridge_atomic_enable_dpi (vs_funcs_of VSDC_GEN_DC8000) regfile0 0 0)
    (VSDC_DISP_DPI_CONFIG 0) = 5.
Proof.
  pose proof (vs_bridge_enable_programs VSDC_GEN_DC8000 regfile0 0 MEDIA_BUS_FMT_FIXED 0
    (or_introl eq_refl)) as (_ & _ & _ & _ & H). exact H.
Defined.
