(* ===== verification/VsDrm.v ===== *)
(** * VsDrm: set-up and dumb buffers of the Verisilicon driver
      (src/drm/verisilicon/vs_drm.c, vs_dc.c, and the init functions of
      vs_primary_plane.c, vs_cursor_plane.c, vs_crtc.c and vs_bridge.c)

    Set-up code runs in the oracle monad of KernelApi.  A pointer is its
    address, 0 for NULL; an error pointer is the negative errno it encodes. *)

From S2P Require Export KernelApi Uapi DrmDumb VsDc VsPlane VsPipe.

(** ** Dumb buffers *)

Definition vs_gem_dumb_create (env : gem_env) (cfg : drm_mode_config)
    (args : drm_mode_create_dumb) (tr : list gem_event)
  : Z * drm_mode_create_dumb * list gem_event :=
  let '(ret, args) := drm_mode_size_dumb cfg args 128 0 in
  if truthy ret then (ret, args, tr)
  else drm_gem_dma_dumb_create_internal env args tr.

(** ** Calls *)

Inductive vs_call : Set :=
| VOfNode | VPortCount | VDmaSetMask | VKzalloc | VResetGetBulk
| VClkGetEnabled (n : Z) | VGetIrq | VResetDeassert | VIoremap | VRegmapInit
| VPixClkGet (i : Z) | VRequestIrq | VDevAlloc | VModeConfigInit | VApertureRemove
| VPrimaryPlaneAlloc (formats : list fourcc) | VCursorPlaneAlloc (formats : list fourcc)
| VPlaneHelperAdd | VCrtcInitWithPlanes | VCrtcHelperAdd
| VGetRemoteNode (output endpoint : Z) | VOfNodePut
| VGetBridge (output endpoint : Z) | VBridgeAlloc (endpoint : Z) | VEncoderAlloc (endpoint : Z)
| VBridgeAdd | VBridgeAttach | VBridgeConnectorInit
| VVblankInit (n : Z) | VPollInit | VPollFini | VModeConfigReset | VDevRegister
| VClientSetup | VResetAssert | VDevUnregister | VAtomicShutdown.

Definition vprog (A : Type) : Type := prog vs_call A.

Definition is_err (p : Z) : bool := p <? 0.

(** ** Planes and CRTCs *)

Definition vs_primary_plane_init (ident : vs_chip_identity) : vprog Z :=
  let* plane := ext (VPrimaryPlaneAlloc (formats_of ident)) in
  if is_err plane then pret plane
  else do* ext VPlaneHelperAdd in pret plane.

Definition vs_cursor_plane_formats : list fourcc := [DRM_FORMAT_ARGB8888].

Definition vs_cursor_plane_init (ident : vs_chip_identity) : vprog Z :=
  if (max_cursor_size ident <? VSDC_MIN_CURSOR_SIZE)
     || (max_cursor_size ident >? VSDC_MAX_CURSOR_SIZE)
  then pret (- EINVAL)
  else
    let* plane := ext (VCursorPlaneAlloc vs_cursor_plane_formats) in
    if is_err plane then pret plane
    else do* ext VPlaneHelperAdd in pret plane.

Definition vs_crtc_init (ident : vs_chip_identity) : vprog Z :=
  let* vcrtc := ext VKzalloc in
  if vcrtc =? 0 then pret (- ENOMEM)
  else
    let* primary := vs_primary_plane_init ident in
    if is_err primary then pret primary
    else
      let* cursor := vs_cursor_plane_init ident in
      if is_err cursor then pret cursor
      else
        let* ret := ext VCrtcInitWithPlanes in
        if truthy ret then pret ret
        else do* ext VCrtcHelperAdd in pret vcrtc.

(** ** Bridges *)

Definition VSDC_OUTPUT_INTERFACE_DPI : Z := 0.
Definition VSDC_OUTPUT_INTERFACE_DP : Z := 1.

Definition vs_bridge_detect_output_interface (output : Z) : vprog Z :=
  let* remote := ext (VGetRemoteNode output VSDC_OUTPUT_INTERFACE_DPI) in
  if truthy remote then do* ext VOfNodePut in pret VSDC_OUTPUT_INTERFACE_DPI
  else
    let* remote := ext (VGetRemoteNode output VSDC_OUTPUT_INTERFACE_DP) in
    if truthy remote then do* ext VOfNodePut in pret VSDC_OUTPUT_INTERFACE_DP
    else pret (- ENODEV).

(** The checks of one call that returns an error pointer. *)
Definition try_ptr (e : vs_call) (k : Z -> vprog Z) : vprog Z :=
  let* p := ext e in if is_err p then pret p else k p.

Definition vs_bridge_init (output : Z) : vprog Z :=
  let* intf := vs_bridge_detect_output_interface output in
  if intf =? - ENODEV then pret 0
  else
    try_ptr (VGetBridge output intf) (fun _ =>
    try_ptr (VBridgeAlloc intf) (fun bridge =>
    try_ptr (VEncoderAlloc intf) (fun _ =>
    try VBridgeAdd (
    try VBridgeAttach (
    try_ptr VBridgeConnectorInit (fun _ => pret bridge)))))).

(** ** vs_drm.c *)

(** [crtcs] is [vdrm->crtcs], true where set. *)
Fixpoint vs_init_outputs (ident : vs_chip_identity) (n : nat) (i : Z) (crtcs : list bool)
  : vprog (Z * list bool) :=
  match n with
  | O => pret (0, crtcs)
  | S n =>
      let* crtc := vs_crtc_init ident in
      if is_err crtc then pret (crtc, crtcs)
      else
        let* bridge := vs_bridge_init i in
        if is_err bridge then pret (bridge, crtcs)
        else vs_init_outputs ident n (i + 1) (<[Z.to_nat i := true]> crtcs)
  end.

Definition vs_mode_config_init (ident : vs_chip_identity) (cfg : drm_mode_config)
  : drm_mode_config :=
  {| cfg with min_width := 0; min_height := 0; max_width := 8192; max_height := 8192;
              cursor_width := max_cursor_size ident; cursor_height := max_cursor_size ident |}.

(** [dc->drm_dev]: NULL, or the CRTC table. *)
Definition vs_drm_initialize (ident : vs_chip_identity) (drm_dev : option (list bool))
  : vprog (Z * option (list bool)) :=
  let* vdrm := ext VDevAlloc in
  if is_err vdrm then pret (vdrm, drm_dev)
  else
    let crtcs := [false; false] in
    let* ret := ext VModeConfigInit in
    bail ret (Some crtcs) (
    let* ret := ext VApertureRemove in
    bail ret (Some crtcs) (
    let* r := vs_init_outputs ident (Z.to_nat (display_count ident)) 0 crtcs in
    let '(ret, crtcs) := r in
    bail ret (Some crtcs) (
    let* ret := ext (VVblankInit (display_count ident)) in
    bail ret (Some crtcs) (
    do* ext VPollInit in
    do* ext VModeConfigReset in
    let* ret := ext VDevRegister in
    if truthy ret then do* ext VPollFini in pret (ret, Some crtcs)
    else do* ext VClientSetup in pret (0, Some crtcs))))).

Definition vs_drm_finalize : vprog (option (list bool)) :=
  do* ext VDevUnregister in do* ext VPollFini in do* ext VAtomicShutdown in pret None.

Definition vs_drm_shutdown_handler : vprog unit := do* ext VAtomicShutdown in pret tt.

(** ** vs_dc.c *)

(** What the probe leaves in [struct vs_dc]. *)
Record vs_dc := mkdc { identity : option vs_chip_identity; drm_dev : option (list bool) }.

Fixpoint vs_get_pix_clks (n : nat) (i : Z) : vprog Z :=
  match n with
  | O => pret 0
  | S n => let* c := ext (VPixClkGet i) in if is_err c then pret c else vs_get_pix_clks n (i + 1)
  end.

Section Probe.
Context {D : Type} `{!RegmapOps D}.
(** The register map of the powered controller. *)
Variable regs : D.

(** The part of the probe with the resets deasserted: every error of it goes
    through [err_rst_assert]. *)
Definition vs_dc_probe_powered (port_count : Z) : vprog (Z * vs_dc) :=
  let dc := mkdc None None in
  let* p := ext VIoremap in
  if is_err p then pret (p, dc)
  else
    let* p := ext VRegmapInit in
    if is_err p then pret (p, dc)
    else
      let '(ret, ident) := vs_fill_chip_identity regs (mkident 0 0 0 VSDC_GEN_DC8000 0 0 []) in
      if truthy ret then pret (ret, dc)
      else
        let dc := mkdc (Some ident) None in
        if port_count >? display_count ident then pret (- EINVAL, dc)
        else
          let* ret := vs_get_pix_clks (Z.to_nat (display_count ident)) 0 in
          bail ret dc (
          let* ret := ext VRequestIrq in
          bail ret dc (
          let* r := vs_drm_initialize ident None in
          let '(ret, dd) := r in
          pret (ret, mkdc (Some ident) dd))).

Definition vs_dc_probe : vprog (Z * vs_dc) :=
  let dc := mkdc None None in
  let* of_node := ext VOfNode in
  if of_node =? 0 then pret (- ENODEV, dc)
  else
    let* port_count := ext VPortCount in
    if port_count =? 0 then pret (- ENODEV, dc)
    else if port_count >? VSDC_MAX_OUTPUTS then pret (- EINVAL, dc)
    else
      let* ret := ext VDmaSetMask in
      bail ret dc (
      let* p := ext VKzalloc in
      if p =? 0 then pret (- ENOMEM, dc)
      else
        let* ret := ext VResetGetBulk in
        bail ret dc (
        let* c := ext (VClkGetEnabled 0) in
        if is_err c then pret (c, dc) else
        let* c := ext (VClkGetEnabled 1) in
        if is_err c then pret (c, dc) else
        let* c := ext (VClkGetEnabled 2) in
        if is_err c then pret (c, dc) else
        let* irq := ext VGetIrq in
        if irq <? 0 then pret (irq, dc) else
        let* ret := ext VResetDeassert in
        bail ret dc (
        let* r := vs_dc_probe_powered port_count in
        let '(ret, dc) := r in
        if truthy ret then do* ext VResetAssert in pret (ret, dc)
        else pret (0, dc)))).

Definition vs_dc_remove : vprog unit :=
  do* vs_drm_finalize in do* ext VResetAssert in pret tt.
Definition vs_dc_shutdown : vprog unit := vs_drm_shutdown_handler.
End Probe.

(** ** Facts *)

(** Calls that are neither resets, polling nor registration. *)
Definition quiet (e : vs_call) : Prop :=
  match e with
  | VResetDeassert | VResetAssert | VPollInit | VPollFini | VModeConfigReset
  | VDevRegister | VClientSetup => False
  | _ => True
  end.

Definition quietly {A} (tr : list vs_call) (Q : A -> Prop) : A -> list vs_call -> Prop :=
  fun x tr' => exists new, tr' = tr ++ new /\ Forall quiet new /\ Q x.

Lemma quietly_intro {A} tr (Q : A -> Prop) x tr' new :
  tr' = tr ++ new -> Forall quiet new -> Q x -> quietly tr Q x tr'.
Proof. intros -> Hn Hq. by exists new. Qed.

(** A quiet sub-computation. *)
Lemma wp_quietly {A} (p : vprog A) o tr (Q1 : A -> Prop) (Q : A -> list vs_call -> Prop) :
  wp p o tr (quietly tr Q1) ->
  (forall x new, Forall quiet new -> Q1 x -> Q x (tr ++ new)) -> wp p o tr Q.
Proof.
  intros Hp Hk. eapply wp_mono; [exact Hp|]. intros x tr' (new & -> & Hn & Hq). by apply Hk.
Qed.

Ltac quiet_tr := rewrite <- ?app_assoc; cbn [app]; reflexivity.
Ltac quiet_list :=
  repeat lazymatch goal with
  | |- Forall _ (_ ++ _) => apply Forall_app; split
  | |- Forall _ (_ :: _) => apply Forall_cons; split
  | |- Forall _ [] => apply Forall_nil; exact I
  | |- Forall _ _ => assumption
  | |- quiet _ => exact I
  end.
Ltac quiet_done := eapply quietly_intro; [quiet_tr|quiet_list|try done].

Lemma primary_plane_init_quiet ident o tr :
  wp (vs_primary_plane_init ident) o tr (quietly tr (fun _ => True)).
Proof. unfold vs_primary_plane_init. wp_steps; quiet_done. Qed.

Lemma cursor_plane_init_quiet ident o tr :
  wp (vs_cursor_plane_init ident) o tr (quietly tr (fun _ => True)).
Proof.
  unfold vs_cursor_plane_init. wp_steps;
    first [eapply quietly_intro; [symmetry; apply app_nil_r|quiet_list|done] | quiet_done].
Qed.

Lemma crtc_init_quiet ident o tr :
  wp (vs_crtc_init ident) o tr (quietly tr (fun _ => True)).
Proof.
  unfold vs_crtc_init. wp_steps; [quiet_done|].
  eapply wp_quietly; [apply primary_plane_init_quiet|]. intros pr n1 Hn1 _. cbv beta.
  wp_steps; [quiet_done|].
  eapply wp_quietly; [apply cursor_plane_init_quiet|]. intros cu n2 Hn2 _. cbv beta.
  wp_steps; quiet_done.
Qed.

Lemma bridge_init_quiet output o tr :
  wp (vs_bridge_init output) o tr (quietly tr (fun _ => True)).
Proof.
  unfold vs_bridge_init, vs_bridge_detect_output_interface, try_ptr, try. wp_steps; quiet_done.
Qed.

(** The table after [n] outputs from [i]. *)
Fixpoint mark (n : nat) (i : Z) (l : list bool) : list bool :=
  match n with O => l | S n => mark n (i + 1) (<[Z.to_nat i := true]> l) end.

Lemma init_outputs_quiet ident o n : forall i crtcs tr,
  wp (vs_init_outputs ident n i crtcs) o tr
    (quietly tr (fun '(ret, crtcs') => ret = 0 -> crtcs' = mark n i crtcs)).
Proof.
  induction n as [|n IH]; intros i crtcs tr; cbn [vs_init_outputs mark].
  { apply wp_ret. eapply quietly_intro; [symmetry; apply app_nil_r|quiet_list|done]. }
  apply wp_bind. eapply wp_quietly; [apply crtc_init_quiet|]. intros c n1 Hn1 _. cbv beta.
  wp_steps.
  { eapply quietly_intro; [quiet_tr|quiet_list|]. unfold is_err in *. zb. intros. lia. }
  eapply wp_quietly; [apply bridge_init_quiet|]. intros b n2 Hn2 _. cbv beta. wp_steps.
  { eapply quietly_intro; [quiet_tr|quiet_list|]. unfold is_err in *. zb. intros. lia. }
  eapply wp_mono; [apply IH|]. intros [ret crtcs'] tr' (n3 & -> & Hn3 & Hq).
  eapply quietly_intro; [quiet_tr|quiet_list|done].
Qed.

Lemma get_pix_clks_quiet o n : forall i tr,
  wp (vs_get_pix_clks n i) o tr (quietly tr (fun _ => True)).
Proof.
  induction n as [|n IH]; intros i tr; cbn [vs_get_pix_clks].
  { apply wp_ret. eapply quietly_intro; [symmetry; apply app_nil_r|quiet_list|done]. }
  wp_steps; [quiet_done|]. eapply wp_mono; [apply IH|].
  intros ret tr' (n3 & -> & Hn3 & _). quiet_done.
Qed.

(** How the set-up of the DRM device can end. *)
Definition publish : list vs_call := [VPollInit; VModeConfigReset; VDevRegister].

(** The answer of the registration made after [before]. *)
Definition registered (o : list vs_call -> vs_call -> Z) (before : list vs_call) : Z :=
  o (before ++ [VPollInit; VModeConfigReset]) VDevRegister.

Definition init_outcome (o : list vs_call -> vs_call -> Z) (tr : list vs_call)
    (ret : Z) (new : list vs_call) : Prop :=
  (ret = 0 /\ exists q, Forall quiet q /\ new = q ++ publish ++ [VClientSetup]
     /\ registered o (tr ++ q) = 0)
  \/ (ret <> 0 /\ exists q tail, Forall quiet q /\ new = q ++ tail
      /\ (tail = [] \/ tail = publish ++ [VPollFini] /\ registered o (tr ++ q) = ret)).

Lemma init_failed o tr ret new : Forall quiet new -> ret <> 0 -> init_outcome o tr ret new.
Proof.
  intros Hq Hr. right. split; [done|]. exists new, []. rewrite app_nil_r.
  split; [done|]. split; [done|by left].
Qed.

Lemma init_outcome_app o tr ret q new :
  Forall quiet q -> init_outcome o (tr ++ q) ret new -> init_outcome o tr ret (q ++ new).
Proof.
  intros Hq [(Hr & q' & Hq' & -> & Ho)|(Hr & q' & tail & Hq' & -> & Ht)].
  - left. split; [done|]. exists (q ++ q'). rewrite !app_assoc in *. split; [quiet_list|done].
  - right. split; [done|]. exists (q ++ q'), tail. rewrite !app_assoc in *. split; [quiet_list|done].
Qed.

Lemma drm_initialize_spec ident dd o tr :
  wp (vs_drm_initialize ident dd) o tr (fun '(ret, dd') tr' =>
    exists new, tr' = tr ++ new /\ init_outcome o tr ret new
      /\ (ret = 0 -> dd' = Some (mark (Z.to_nat (display_count ident)) 0 [false; false]))).
Proof.
  unfold vs_drm_initialize, is_err.
  wp_steps; zb; try (eexists; split; [quiet_tr|]; split; [apply init_failed; [quiet_list|lia]|lia]).
  eapply wp_quietly; [apply init_outputs_quiet|]. intros [ret crtcs] n1 Hn1 Hc. cbv beta.
  wp_steps; zb; try (eexists; split; [quiet_tr|]; split; [apply init_failed; [quiet_list|lia]|lia]).
  all: set (q := [VDevAlloc; VModeConfigInit; VApertureRemove] ++ n1
                   ++ [VVblankInit (display_count ident)]).
  all: assert (Hq : Forall quiet q) by (unfold q; quiet_list).
  all: match goal with H : truthy (?f ?t VDevRegister) = _ |- _ =>
    assert (Ho : f t VDevRegister = registered f (tr ++ q))
      by (unfold registered, q; rewrite <- !app_assoc; reflexivity);
    rewrite ?Ho in *; unfold truthy in H; zb end.
  - exists (q ++ publish ++ [VPollFini]). split; [unfold q; by rewrite <- !app_assoc|].
    split; [|done]. right. split; [done|].
    exists q, (publish ++ [VPollFini]). split; [done|]. split; [done|by right].
  - exists (q ++ publish ++ [VClientSetup]). split; [unfold q; by rewrite <- !app_assoc|].
    split; [|intros _; by rewrite Hc]. left. split; [done|]. by exists q.
Qed.

(** What a successful probe knows of the chip. *)
Definition probed {D} `{!RegmapOps D} (regs : D) (ports : Z) (dc : vs_dc) : Prop :=
  exists ident, vs_fill_chip_identity regs (mkident 0 0 0 VSDC_GEN_DC8000 0 0 []) = (0, ident)
    /\ identity dc = Some ident /\ ports <= display_count ident
    /\ drm_dev dc = Some (mark (Z.to_nat (display_count ident)) 0 [false; false]).

Section ProbeFacts.
Context {D : Type} `{!RegmapOps D}.
Variable regs : D.

Lemma probe_powered_spec ports o tr :
  wp (vs_dc_probe_powered regs ports) o tr (fun '(ret, dc) tr' =>
    exists new, tr' = tr ++ new /\ init_outcome o tr ret new /\ (ret = 0 -> probed regs ports dc)).
Proof.
  unfold vs_dc_probe_powered, is_err.
  destruct (vs_fill_chip_identity regs _) as [r0 ident] eqn:Ei.
  wp_steps; zb;
    try (eexists; split; [quiet_tr|]; split; [apply init_failed; [quiet_list|]|]);
    unfold truthy in *; zb; try lia; try done.
  eapply wp_quietly; [apply get_pix_clks_quiet|]. intros ret n1 Hn1 _. cbv beta.
  wp_steps; zb;
    try (eexists; split; [quiet_tr|]; split; [apply init_failed; [quiet_list|]|]); try done.
  eapply wp_mono; [apply drm_initialize_spec|]. intros [r2 dd] tr' (new & -> & Hout & Hdd).
  apply wp_ret. exists (([VIoremap; VRegmapInit] ++ n1 ++ [VRequestIrq]) ++ new).
  split; [by rewrite <- !app_assoc|].
  split; [apply init_outcome_app; [quiet_list|]|].
  { match type of Hout with init_outcome _ ?t _ _ =>
      replace (tr ++ [VIoremap; VRegmapInit] ++ n1 ++ [VRequestIrq]) with t
        by (by rewrite <- !app_assoc) end. exact Hout. }
  intros Hr. exists ident. subst r0. split; [done|]. split; [done|]. split; [lia|]. by apply Hdd.
Qed.
End ProbeFacts.

(** ** Main theorems *)

(** The calls before the resets, in this order. *)
Definition bring_up : list vs_call :=
  [VOfNode; VPortCount; VDmaSetMask; VKzalloc; VResetGetBulk; VClkGetEnabled 0;
   VClkGetEnabled 1; VClkGetEnabled 2; VGetIrq].

(** How a probe can end: successfully; before the resets are deasserted, or by
    their deassertion; after it. *)
Definition probe_outcome {D} `{!RegmapOps D} (regs : D)
    (o : list vs_call -> vs_call -> Z) (ret : Z) (dc : vs_dc) (tr : list vs_call) : Prop :=
  let powered := bring_up ++ [VResetDeassert] in
  (ret = 0 /\ o bring_up VResetDeassert = 0
     /\ (let ports := o [VOfNode] VPortCount in
         ports <> 0 /\ ports <= VSDC_MAX_OUTPUTS /\ probed regs ports dc)
     /\ exists q, Forall quiet q /\ registered o (powered ++ q) = 0
        /\ tr = powered ++ q ++ publish ++ [VClientSetup])
  \/ (ret <> 0 /\ (tr `prefix_of` bring_up \/ (tr = powered /\ o bring_up VResetDeassert = ret)))
  \/ (ret <> 0 /\ o bring_up VResetDeassert = 0
      /\ exists q tail, Forall quiet q /\ tr = powered ++ q ++ tail ++ [VResetAssert]
         /\ (tail = [] \/ tail = publish ++ [VPollFini] /\ registered o (powered ++ q) = ret)).


(** [vs_gem_dumb_create] on any request the core lets through whose bits per
    line fit 32 bits: on success the pitch is a multiple of 128 bytes that
    covers the line, the buffer and its memory cover all lines, and one object
    with one reference exists, held by the handle; on every failure none is left
    behind. *)
Theorem vs_dumb_create_sound env cfg args :
  dumb_typed args -> dumb_request_ok args = true ->
  d_width args * d_bpp args + 7 < 2 ^ 32 ->
  let '(ret, args', tr') := vs_gem_dumb_create env cfg args [] in
  obj_refs tr' = (if ret =? 0 then 1 else 0)
  /\ (ret = 0 -> d_width args * d_bpp args <= 8 * d_pitch args'
      /\ d_pitch args' mod 128 = 0
      /\ d_pitch args' * d_height args <= d_size args'
      /\ d_handle args' = snd (env_handle_create env)
      /\ In (DmaAlloc (u64 (ALIGN (d_size args') PAGE_SIZE))) tr').
Proof.
  intros Ht Hok Hw. unfold vs_gem_dumb_create.
  unfold dumb_request_ok in Hok. rewrite !andb_true_iff in Hok.
  destruct Hok as ((((Hw0 & Hh0) & Hb0) & Hb8) & Hsz). zb. unfold U32_MAX in *.
  destruct Ht as (Hht & Hwt & Hbt & Hpt & Hst).
  assert (Hc0 : 0 <= (d_bpp args + 7) / 8) by (apply Z.div_pos; lia).
  pose proof (size_dumb_spec cfg args 128 0 ltac:(done) align_ok_128 (or_introl eq_refl)
    ltac:(done) ltac:(unfold U32_MAX; nia)) as Hs.
  destruct (drm_mode_size_dumb cfg args 128 0) as [ret a]. destruct Hs as [Hr Hs].
  destruct Hr as [->|Hr]; [|subst ret; done].
  change (truthy 0) with false. cbv iota.
  destruct (Hs eq_refl) as (Ha & Hcov & Hp & Hal & Hsz1 & Hlines & _ & _).
  assert (Hf : d_width a = d_width args /\ d_bpp a = d_bpp args /\ d_height a = d_height args)
    by (by rewrite Ha).
  destruct Hf as (Hwa & Hba & Hha).
  pose proof (dumb_internal_spec env a []) as Hi.
  destruct (drm_gem_dma_dumb_create_internal env a []) as [[ret a'] tr'].
  rewrite Hwa, Hba, Hha in Hi.
  destruct Hi as (H2 & H3 & H1 & _ & _ & _ & _ & H8 & H9);
    [unfold dumb_typed; rewrite Hwa, Hba, Hha; unfold is_u32, is_u64 in *; lia|].
  assert (Hpp : d_pitch a' = d_pitch a).
  { rewrite H2, (u32_id (d_width args * _)), u32_id by (unfold is_u32; nia).
    apply Z.max_l, Z.lt_succ_r, Z.div_lt_upper_bound; lia. }
  split; [done|]. intros ->. destruct (H9 eq_refl) as [Hh ->].
  split; [by apply H1|]. rewrite Hpp. split; [by destruct Hal|]. split; [nia|]. split; [done|].
  right; left; done.
Qed.

(** ** Witnesses *)

(** A kernel where everything works, with one port and a panel on output 0. *)
Definition vs_kernel_ok (_ : list vs_call) (e : vs_call) : Z :=
  match e with
  | VOfNode | VKzalloc | VPrimaryPlaneAlloc _ | VCursorPlaneAlloc _ | VGetBridge _ _
  | VBridgeAlloc _ | VEncoderAlloc _ => 4096
  | VPortCount => 1
  | VGetRemoteNode 0 0 => 4096
  | _ => 0
  end.


Lemma vs_dumb_create_sound_witness :
  let a := snd (fst (vs_gem_dumb_create env_ok plain_cfg dumb_100x50 [])) in
  d_pitch a mod 128 = 0 /\ d_pitch a * 50 <= d_size a.
Proof.
  pose proof (vs_dumb_create_sound env_ok plain_cfg dumb_100x50 dumb_100x50_typed
    ltac:(vm_compute; reflexivity) ltac:(vm_compute; reflexivity)) as H.
  vm_compute in H. destruct H as [_ H]. destruct (H eq_refl) as (_ & Hp & Hs & _).
  vm_compute. split; [exact Hp|exact Hs].
Defined.
