(* ===== verification/VsBoard.v ===== *)
(** * VsBoard: the Verisilicon display as a device
      (src/drm/verisilicon, the helper tables of all its files)

    What an output shows in the registers, and what each handler does to it; the tables
    with which the driver stands behind the atomic core: its hooks answer the checks of
    DrmCheck, the calls of the commit tail (DrmCommit) run its handlers on the registers
    of either generation.  One CRTC, a primary and a cursor plane for each output of the
    chip; an encoder with a chain of bridges, the driver's first, for each output that
    the board uses. *)

From S2P Require Export VsDrm DrmModeset.

#[local] Open Scope Z_scope.

(** ** The outputs *)

Section Outputs.
Context {R : Type} `{Ho : !RegmapOps R} `{Hl : !RegmapLaws R} (g : vs_dc_generation).

Abbreviation funcs := (vs_funcs_of g).

(** The panel of an output runs: by the generation's own bits. *)
Definition panel_runs (r : R) (m : Z) : bool :=
  match g with
  | VSDC_GEN_DC8000 => Z.testbit (regmap_read r (VSDC_FB_CONFIG m)) 4
  | VSDC_GEN_DC8200 => Z.testbit (regmap_read r (VSDC_DISP_PANEL_CONFIG m)) 12
                       && Z.testbit (regmap_read r VSDC_DISP_PANEL_START) m
  end.

(** The switch of the CRTC, on the generation that has one. *)
Definition scan_on (r : R) (m : Z) : option bool :=
  match g with
  | VSDC_GEN_DC8000 => Some (Z.testbit (regmap_read r (VSDC_FB_CONFIG m)) 0)
  | VSDC_GEN_DC8200 => None
  end.

Definition switch (b : bool) (o : option bool) : option bool := (fun _ => b) <$> o.

Definition timing_regs (r : R) (m : Z) : list Z :=
  [regmap_read r (VSDC_DISP_HSIZE m); regmap_read r (VSDC_DISP_VSIZE m);
   regmap_read r (VSDC_DISP_HSYNC m); regmap_read r (VSDC_DISP_VSYNC m)].

Definition out_regs (r : R) (m : Z) : bool * option bool * list Z := (panel_runs r m, scan_on r m, timing_regs r m).

(** One of the two outputs. *)
Definition output_ok (o : Z) : Prop := o = 0 \/ o = 1.

(** By cases on the outputs and the generation, bit by bit. *)
Ltac open_table := cbv beta iota zeta delta
  [vs_dc8000_funcs vs_dc8200_funcs call_hook
   panel_enable_ex panel_disable_ex crtc_begin crtc_flush crtc_enable_ex crtc_disable_ex
   primary_plane_enable_ex primary_plane_disable_ex primary_plane_update_ex fst snd
   vs_dc8000_panel_enable_ex vs_dc8000_panel_disable_ex vs_dc8000_crtc_begin vs_dc8000_crtc_flush
   vs_dc8000_crtc_enable_ex vs_dc8000_crtc_disable_ex vs_dc8200_panel_enable_ex vs_dc8200_panel_disable_ex
   vs_dc8200_plane_commit vs_dc8200_primary_plane_enable_ex vs_dc8200_primary_plane_disable_ex
   vs_dc8200_primary_plane_update_ex].
Ltac by_outputs :=
  intros; unfold output_ok in *;
  repeat match goal with H : _ = 0 \/ _ = 1 |- _ => destruct H as [-> | ->] end;
  unfold out_regs, panel_runs, scan_on, timing_regs; destruct g;
  try change (vs_funcs_of VSDC_GEN_DC8000) with (vs_dc8000_funcs (D := R));
  try change (vs_funcs_of VSDC_GEN_DC8200) with (vs_dc8200_funcs (D := R)); open_table; rm_simp; rewrite ?rmw_testbit;
  try reflexivity.

Lemma begin_regs r o m : output_ok o -> output_ok m -> out_regs (vs_crtc_atomic_begin funcs r o) m = out_regs r m.
Proof using Hl. unfold vs_crtc_atomic_begin. by_outputs. Qed.

Lemma flush_regs r o m : output_ok o -> output_ok m -> out_regs (vs_crtc_atomic_flush funcs r o).1 m = out_regs r m.
Proof using Hl. unfold vs_crtc_atomic_flush. by_outputs. Qed.

Lemma crtc_disable_regs r o m : output_ok o -> output_ok m ->
  out_regs (vs_crtc_atomic_disable funcs r o).1 m
  = if decide (o = m) then (panel_runs r m, switch false (scan_on r m), timing_regs r m) else out_regs r m.
Proof using Hl. unfold vs_crtc_atomic_disable. by_outputs. Qed.

Lemma crtc_enable_regs r o m : output_ok o -> output_ok m ->
  out_regs (vs_crtc_atomic_enable funcs r o).1 m
  = if decide (o = m) then (panel_runs r m, switch true (scan_on r m), timing_regs r m) else out_regs r m.
Proof using Hl. unfold vs_crtc_atomic_enable. by_outputs. Qed.

Lemma bridge_disable_regs r o m : output_ok o -> output_ok m ->
  out_regs (vs_bridge_atomic_disable funcs r o) m
  = if decide (o = m) then (false, scan_on r m, timing_regs r m) else out_regs r m.
Proof using Hl. unfold vs_bridge_atomic_disable. by_outputs. Qed.

Lemma panel_enable_regs r o m : output_ok o -> output_ok m ->
  out_regs (panel_enable_ex funcs r o) m
  = if decide (o = m) then (true, scan_on r m, timing_regs r m) else out_regs r m.
Proof using Hl. by_outputs. Qed.

Lemma enable_common_regs_of r o flags m : output_ok o -> output_ok m ->
  out_regs (vs_bridge_enable_common funcs r o flags) m
  = if decide (o = m) then (true, scan_on r m, timing_regs r m) else out_regs r m.
Proof using Hl.
  intros. unfold vs_bridge_enable_common.
  generalize (truthy (flags .& DRM_BUS_FLAG_DE_LOW)), (truthy (flags .& DRM_BUS_FLAG_PIXDATA_DRIVE_NEGEDGE)).
  intros [] []; by_outputs.
Qed.

Lemma enable_dpi_regs r o flags m : output_ok o -> output_ok m ->
  out_regs (vs_bridge_atomic_enable_dpi funcs r o flags) m
  = if decide (o = m) then (true, scan_on r m, timing_regs r m) else out_regs r m.
Proof using Hl.
  intros Ho2 Hm. unfold vs_bridge_atomic_enable_dpi. rewrite enable_common_regs_of by done. by_outputs.
Qed.

(** A format that the driver knows. *)
Lemma enable_dp_regs r o fmt flags m : output_ok o -> output_ok m -> vs_bridge_out_dp_fmt_supported fmt = true ->
  out_regs (vs_bridge_atomic_enable_dp funcs r o fmt flags) m
  = if decide (o = m) then (true, scan_on r m, timing_regs r m) else out_regs r m.
Proof using Hl.
  intros Ho2 Hm Hs. unfold vs_bridge_atomic_enable_dp. destruct (List.find _ _) as [f|] eqn:E.
  - rewrite enable_common_regs_of by done. destruct (dp_is_yuv f); by_outputs.
  - exfalso. unfold vs_bridge_out_dp_fmt_supported in Hs. apply existsb_exists in Hs as (f & Hf & Heq).
    by rewrite (List.find_none _ _ E f Hf) in Heq.
Qed.

(** The words of the four timing registers. *)
Definition timing_words (mode : drm_display_mode) : list Z :=
  [u32 (u32 (hdisplay mode .<< 0 .| htotal mode .<< 16)); u32 (u32 (vdisplay mode .<< 0 .| vtotal mode .<< 16));
   (let r := u32 (u32 (hsync_start mode .<< 0 .| hsync_end mode .<< 15 .| BIT 30)) in
    if negb (truthy (flags mode .& DRM_MODE_FLAG_PHSYNC)) then rmw r (u32 (BIT 31)) (u32 (BIT 31)) else r);
   (let r := u32 (u32 (vsync_start mode .<< 0 .| vsync_end mode .<< 15 .| BIT 30)) in
    if negb (truthy (flags mode .& DRM_MODE_FLAG_PVSYNC)) then rmw r (u32 (BIT 31)) (u32 (BIT 31)) else r)].

#[export] Instance vs_timing_words_proper : Proper (mode_eqv ==> (=)) timing_words.
Proof using.
  intros m1 m2 (Ht & _ & Hf & _). unfold timings in Ht. unfold timing_words. rewrite Hf.
  injection Ht as -> -> -> -> _ -> -> -> -> _. done.
Qed.

Lemma mode_set_regs r o mode m : output_ok o -> output_ok m ->
  out_regs (vs_crtc_mode_set_nofb r o mode).1 m
  = if decide (o = m) then (panel_runs r m, scan_on r m, timing_words mode) else out_regs r m.
Proof using Hl.
  intros Ho2 Hm. case_decide as E.
  - subst m. destruct (mode_set_nofb_regs r o mode Ho2) as (E1 & E2 & E3 & E4). cbv zeta in E1, E2, E3, E4.
    unfold out_regs, timing_regs. rewrite E1, E2, E3, E4. change [_; _; _; _] with (timing_words mode). clear E1 E2 E3 E4.
    f_equal. f_equal; unfold vs_crtc_mode_set_nofb; cbn [fst];
      destruct (negb (truthy (flags mode .& DRM_MODE_FLAG_PHSYNC))), (negb (truthy (flags mode .& DRM_MODE_FLAG_PVSYNC)));
      by_outputs.
  - unfold vs_crtc_mode_set_nofb. cbn [fst].
    destruct (negb (truthy (flags mode .& DRM_MODE_FLAG_PHSYNC))), (negb (truthy (flags mode .& DRM_MODE_FLAG_PVSYNC)));
      revert E; by_outputs; done.
Qed.

(** The planes leave all of it alone. *)
Lemma primary_enable_regs r st m r' c : ps_crtc st = Some c -> output_ok (vs_output c) -> output_ok m ->
  vs_primary_plane_atomic_enable funcs r st = Some r' -> out_regs r' m = out_regs r m.
Proof using Hl.
  intros Hc Ho2 Hm. unfold vs_primary_plane_atomic_enable. rewrite Hc. intros [= <-]. generalize dependent (vs_output c). by_outputs.
Qed.

Lemma primary_disable_regs r st m r' c : ps_crtc st = Some c -> output_ok (vs_output c) -> output_ok m ->
  vs_primary_plane_atomic_disable funcs r st = Some r' -> out_regs r' m = out_regs r m.
Proof using Hl.
  intros Hc Ho2 Hm. unfold vs_primary_plane_atomic_disable. rewrite Hc. intros [= <-]. generalize dependent (vs_output c). by_outputs.
Qed.

Lemma set_format_regs r o f m : output_ok o -> output_ok m -> out_regs (vs_primary_set_format r o f) m = out_regs r m.
Proof using Hl.
  intros Ho2 Hm. unfold vs_primary_set_format.
  generalize (VSDC_FB_CONFIG_FMT (color f)), (VSDC_FB_CONFIG_SWIZZLE (swizzle f)). intros v w.
  destruct (uv_swizzle f); by_outputs.
Qed.

Lemma set_buffer_regs r o a p w h m : output_ok o -> output_ok m -> out_regs (vs_primary_set_buffer r o a p w h) m = out_regs r m.
Proof using Hl. intros Ho2 Hm. unfold vs_primary_set_buffer. generalize (VSDC_MAKE_PLANE_SIZE w h). by_outputs. Qed.

Lemma update_ex_regs r o st m f : output_ok o -> output_ok m ->
  primary_plane_update_ex funcs = Some f -> out_regs (f r o st) m = out_regs r m.
Proof using Hl.
  intros Ho2 Hm. destruct g; [done|].
  change (primary_plane_update_ex _) with (Some (vs_dc8200_primary_plane_update_ex (D := R))). intros [= <-].
  unfold vs_dc8200_primary_plane_update_ex, vs_dc8200_plane_commit. cbv zeta.
  generalize (VSDC_MAKE_PLANE_POS (crtc_x st) (crtc_y st)),
    (VSDC_MAKE_PLANE_POS (u32 (crtc_x st + crtc_w st)) (u32 (crtc_y st + crtc_h st))). intros v w.
  destruct Ho2 as [->| ->], Hm as [->| ->]; unfold out_regs, panel_runs, scan_on, timing_regs; by rm_simp.
Qed.

Lemma primary_update_regs r old st m c fb : ps_crtc (VsPlane.base st) = Some c -> output_ok (vs_output c) -> output_ok m ->
  visible (VsPlane.base st) = true -> ps_fb (VsPlane.base st) = Some fb -> is_Some (drm_fb_dma_get_gem_obj fb 0) ->
  exists r', vs_primary_plane_atomic_update funcs r old st = Some r' /\ forall m, output_ok m -> out_regs r' m = out_regs r m.
Proof using Hl.
  intros Hc Ho2 _ Hv Hfb [gem Hg]. unfold vs_primary_plane_atomic_update. rewrite Hv, Hc, Hfb. cbn [negb].
  unfold vs_fb_get_dma_addr. rewrite Hg. destruct (primary_plane_update_ex funcs) as [f|] eqn:E; (eexists; split; [reflexivity|]); intros m' Hm.
  - erewrite update_ex_regs by done. by rewrite set_buffer_regs, set_format_regs.
  - by rewrite set_buffer_regs, set_format_regs.
Qed.

Lemma cursor_commit_regs r o m : output_ok o -> output_ok m -> out_regs (vs_cursor_plane_commit r o) m = out_regs r m.
Proof using Hl. unfold vs_cursor_plane_commit. by_outputs. Qed.

Lemma cursor_hw_disable_regs r o m : output_ok o -> output_ok m -> out_regs (vs_cursor_plane_hw_disable r o) m = out_regs r m.
Proof using Hl. intros Ho2 Hm. unfold vs_cursor_plane_hw_disable. rewrite cursor_commit_regs by done. by_outputs. Qed.

Lemma cursor_size_regs r o w m : output_ok o -> output_ok m -> out_regs (vs_cursor_set_size r o w) m = out_regs r m.
Proof using Hl. intros Ho2 Hm. unfold vs_cursor_set_size. repeat case_if; by_outputs. Qed.

Lemma cursor_coord_regs r o om lm x v m : output_ok o -> output_ok m -> out_regs (vs_cursor_set_coord r o om lm x v) m = out_regs r m.
Proof using Hl. intros Ho2 Hm. unfold vs_cursor_set_coord. case_if; by_outputs. Qed.
End Outputs.

(** ** The board and its tables *)

(** What [vs_drm_initialize] finds: the chip, and of each encoder - one for every output
    that the device tree uses - its CRTC and its interface.  Connectors and encoders have
    the same numbers; the planes are, CRTC by CRTC, the primary and the cursor plane. *)
Record vs_board := mkboard { bd_ident : vs_chip_identity; bd_outs : list (nat * Z) }.

Definition vs_crtc_helper_funcs : crtc_hooks := mkch false true false false true true false true true.
Definition vs_primary_plane_helper_funcs : plane_hooks := mkph true true false false.
Definition vs_cursor_plane_helper_funcs : plane_hooks := mkph true true false false.

Definition vs_commit_driver : commit_driver :=
  mkcd (fun _ => vs_crtc_helper_funcs) (fun _ => None)
       (fun p => Some (if Nat.odd p then vs_cursor_plane_helper_funcs else vs_primary_plane_helper_funcs))
       (fun _ => false) true.

Definition vs_dpi_bridge_funcs (kcalloc_ok : bool) : drm_bridge :=
  mkbridge false true None false true false false false false false true false
    (Some (fun _ => vs_bridge_atomic_get_output_bus_fmts_dpi kcalloc_ok))
    (Some (fun _ => drm_atomic_helper_bridge_propagate_bus_fmt kcalloc_ok)) None None.

Definition vs_dp_bridge_funcs (kcalloc_ok : bool) : drm_bridge :=
  mkbridge false true None false true false false false false false true false
    (Some (fun _ => vs_bridge_atomic_get_output_bus_fmts_dp kcalloc_ok))
    (Some (fun _ => vs_bridge_atomic_get_input_bus_fmts_dp kcalloc_ok))
    (Some (fun s m => (vs_bridge_atomic_check_dp (bc_format (output_bus_cfg s)), s, m))) None.

(** The choice of [vs_bridge_init]. *)
Definition vs_bridge_funcs (intf : Z) : bool -> drm_bridge :=
  if intf =? VSDC_OUTPUT_INTERFACE_DPI then vs_dpi_bridge_funcs else vs_dp_bridge_funcs.

(** ** A commit *)

(** What user space asks for beyond the routes - the states of the planes it touches -,
    what the kernel answers, and of each encoder: whether allocations succeed, the bridges
    behind the driver's, and the formats and flags of the connector. *)
Record vs_commit := mkvm {
  vm_locks : kms_locks; vm_requests : list request;
  vm_allow_modeset : bool; vm_test_only : bool; vm_prepare : Z;
  vm_planes : nat -> drm_plane_state; vm_damage : nat -> list drm_rect;
  vm_unregistered : nat -> bool; vm_connector_check : nat -> option (atomic_state -> Z);
  vm_round_rate : nat -> Z -> Z;
  vm_alloc : nat -> bool; vm_add_bridges : nat -> Z; vm_bridges : nat -> list drm_bridge;
  vm_bus_format : nat -> option media_bus_fmt; vm_bus_flags : nat -> Z
}.

Section Commit.
Context `{!RectOps} `{!PlaneRectOps} `{!Log2Ops} `{!AtomicInlines}.
Context (bd : vs_board) (mm : vs_commit) (cur : nat -> vs_plane_state) (brs : nat -> bridge_states).

(** The chain of an encoder, and its first bridge. *)
Definition vs_chain (e : nat) : list drm_bridge :=
  match bd_outs bd !! e with
  | Some (_, intf) => vs_bridge_funcs intf (vm_alloc mm e) :: vm_bridges mm e
  | None => []
  end.
Definition vs_first (e : nat) : option nat := match vs_chain e with [] => None | _ => Some 0%nat end.

Definition vs_chain_check (e : nat) (mode adjusted : drm_display_mode)
  : option (Z * bridge_states * drm_display_mode) :=
  drm_atomic_bridge_chain_check (vs_chain e) (vm_alloc mm e) (vm_bus_format mm e) (vm_bus_flags mm e)
    mode (vs_first e) (brs e) adjusted.

(** [drm_atomic_get_new_crtc_state]. *)
Definition vs_new_crtc_state (s : atomic_state) (c : option nat) : drm_crtc_state :=
  match c ≫= new_crtc s with
  | Some x => mkcs (st_enable (cf_st x)) (cf_mode x) (cf_adjusted_mode x) None false
  | None => mkcs false no_mode no_mode None false
  end.

(** The planes that user space sets; the others of a commit are copies of the current
    state. *)
Definition vs_asked_plane (s : atomic_state) (p : nat) : vs_plane_state :=
  let st := if plane_asked (vm_requests mm) p then vm_planes mm p else base (cur p) in
  let crtc := match as_planes s !! p with Some x => x.2 | None => ps_crtc (base (cur p)) end in
  mkvsps {| st with ps_crtc := crtc |} (vformat (cur p)).

(** The check of a plane, [None] a NULL dereference, and its state afterwards. *)
Definition vs_check_plane (s : atomic_state) (p : nat) : option (Z * vs_plane_state) :=
  let st := vs_asked_plane s p in
  if Nat.odd p
  then '(ret, b) ← vs_cursor_plane_atomic_check (vs_new_crtc_state s) (bd_ident bd) (base st);
       Some (ret, mkvsps b (vformat st))
  else vs_primary_plane_atomic_check (vs_new_crtc_state s) st.

Definition vs_checked_plane (s : atomic_state) (p : nat) : vs_plane_state :=
  match vs_check_plane s p with Some x => x.2 | None => vs_asked_plane s p end.

(** As the planes are registered. *)
Definition vs_drm_plane (p : nat) : drm_plane :=
  mkplane (BIT (Z.of_nat (Nat.div2 p)))
    (if Nat.odd p then [DRM_FORMAT_ARGB8888] else formats_of (bd_ident bd)) None [0].

(** The encoders are plain ones, the connectors those of the bridge chains. *)
Definition vs_hooks : kms_hooks :=
  mkhk (fun _ => None) (fun _ => None) (fun k => Some k)
       (vm_unregistered mm) (fun _ => false) (vm_connector_check mm)
       (fun e => match bd_outs bd !! e with Some (c, _) => BIT (Z.of_nat c) | None => 0 end)
       (fun e => BIT (Z.of_nat e)) (length (bd_outs bd)) (vm_add_bridges mm)
       (fun _ _ => MODE_OK) (fun e _ => drm_bridge_chain_mode_valid (vs_chain e) (vs_first e))
       (fun c => vs_crtc_mode_valid (vm_round_rate mm c))
       (fun e c s =>
          match new_crtc s c with
          | Some x =>
              match vs_chain_check e (cf_mode x) (cf_adjusted_mode x) with
              | Some (ret, _, m) => (ret, m)
              | None => (0, cf_adjusted_mode x)
              end
          | None => (0, no_mode)
          end)
       (fun _ => None) (fun _ => None)
       (fun c => Some (fun _ => vs_crtc_mode_fixup (vm_round_rate mm c)))
       (fun p s => drm_atomic_plane_check (vs_drm_plane p) (vm_damage mm p) (base (cur p)) (base (vs_asked_plane s p)))
       (fun p => Some (fun s => match vs_check_plane s p with Some x => x.1 | None => 0 end))
       (fun _ => None) true.

Definition vs_commit_in : commit_in :=
  mkcm (vm_locks mm) vs_hooks (vm_requests mm) false (vm_allow_modeset mm) (vm_test_only mm) (vm_prepare mm) false.

(** The states of the bridges after the check of a commit: those of a route have been
    through the check, with the mode the reset of the adjusted modes has left. *)
Definition vs_new_bridges (D : mode_config) (s : atomic_state) (e : nat) : bridge_states :=
  let serves k := match new_conn s k with Some y => bool_decide (cnf_encoder y = Some e) | None => false end in
  match find serves (each_conn D) with
  | Some k =>
      default (brs e)
        (y ← new_conn s k; c ← cnf_crtc y; x ← new_crtc s c;
         r ← vs_chain_check e (cf_mode x)
               (if mode_changing (cf_st x) then cf_mode x else cf_adjusted_mode (mc_crtc D c));
         Some r.1.2)
  | None => brs e
  end.
End Commit.

(** ** The device *)

Section Device.
Context {R : Type} `{!RegmapOps R} `{!RectOps} `{!PlaneRectOps} `{!Log2Ops} `{!AtomicInlines} (bd : vs_board).

Abbreviation table := (vs_funcs_of (generation (bd_ident bd))).

(** The registers, the clock and vblank calls of each CRTC so far, the current states of
    the planes and, by encoder, of the bridges. *)
Record vs_display := mkvd {
  vd_regs : R; vd_log : nat -> list vs_event; vd_plane : nat -> vs_plane_state; vd_bridges : nat -> bridge_states
}.

Definition vs_crtc_done (c : nat) (x : R * list vs_event) (d : vs_display) : vs_display :=
  {| d with vd_regs := x.1; vd_log := update c (vd_log d c ++ x.2) (vd_log d) |}.

(** A call of a bridge; the others are other devices. *)
Definition vs_bridge_call (nb : nat -> bridge_states) (e : nat) (x : bridge_call) (r : R) : option R :=
  match bd_outs bd !! e, x with
  | Some (c, _), (O, BridgeAtomicDisable) => Some (vs_bridge_atomic_disable table r (vs_output c))
  | Some (c, intf), (O, BridgeAtomicEnable) =>
      br_state ← nb e !! 0%nat;
      let cfg := output_bus_cfg br_state in
      Some (if intf =? VSDC_OUTPUT_INTERFACE_DPI
            then vs_bridge_atomic_enable_dpi table r (vs_output c) (bc_flags cfg)
            else vs_bridge_atomic_enable_dp table r (vs_output c) (bc_format cfg) (bc_flags cfg))
  | _, _ => Some r
  end.

Fixpoint vs_bridge_calls (nb : nat -> bridge_states) (e : nat) (l : list bridge_call) (r : R) : option R :=
  match l with
  | [] => Some r
  | x :: l => r ← vs_bridge_call nb e x r; vs_bridge_calls nb e l r
  end.

(** A call of the tail, with the new states: the adjusted modes, the planes, the bridges. *)
Definition vs_tail_call (mm : vs_commit) (adj : nat -> drm_display_mode) (new : nat -> vs_plane_state)
    (nb : nat -> bridge_states) (k : commit_call) (d : vs_display) : option vs_display :=
  let set r := {| d with vd_regs := r |} in
  let bridges walk e := set <$> vs_bridge_calls nb e (walk (vs_chain bd mm e) (vs_first bd mm e)) (vd_regs d) in
  match k with
  | BridgeChainDisable e _ => bridges drm_atomic_bridge_chain_disable e
  | BridgeChainPostDisable e _ => bridges drm_atomic_bridge_chain_post_disable e
  | BridgeChainModeSet e _ => bridges drm_bridge_chain_mode_set e
  | BridgeChainPreEnable e _ => bridges drm_atomic_bridge_chain_pre_enable e
  | BridgeChainEnable e _ => bridges drm_atomic_bridge_chain_enable e
  | CrtcDisable c _ => Some (vs_crtc_done c (vs_crtc_atomic_disable table (vd_regs d) (vs_output c)) d)
  | CrtcModeSet c => Some (vs_crtc_done c (vs_crtc_mode_set_nofb (vd_regs d) (vs_output c) (adj c)) d)
  | CrtcBegin c => Some (set (vs_crtc_atomic_begin table (vd_regs d) (vs_output c)))
  | CrtcFlush c => Some (vs_crtc_done c (vs_crtc_atomic_flush table (vd_regs d) (vs_output c)) d)
  | CrtcEnable c _ => Some (vs_crtc_done c (vs_crtc_atomic_enable table (vd_regs d) (vs_output c)) d)
  | PlaneUpdate p _ _ =>
      set <$> (if Nat.odd p then vs_cursor_plane_atomic_update (vd_regs d) (base (new p))
               else vs_primary_plane_atomic_update table (vd_regs d) (base (vd_plane d p)) (new p))
  | PlaneDisable p _ =>
      set <$> (if Nat.odd p then vs_cursor_plane_atomic_disable (vd_regs d) (base (vd_plane d p))
               else vs_primary_plane_atomic_disable table (vd_regs d) (base (vd_plane d p)))
  | PlaneEnable p _ =>
      set <$> (if Nat.odd p then vs_cursor_plane_atomic_enable (vd_regs d) (base (new p))
               else vs_primary_plane_atomic_enable table (vd_regs d) (base (new p)))
  | _ => Some d
  end.

Fixpoint vs_tail_calls (mm : vs_commit) (adj : nat -> drm_display_mode) (new : nat -> vs_plane_state)
    (nb : nat -> bridge_states) (l : list commit_call) (d : vs_display) : option vs_display :=
  match l with
  | [] => Some d
  | k :: l => d ← vs_tail_call mm adj new nb k d; vs_tail_calls mm adj new nb l d
  end.

Definition vs_in (mm : vs_commit) (d : vs_display) : commit_in := vs_commit_in bd mm (vd_plane d) (vd_bridges d).

(** The states of the planes after a checked commit. *)
Definition vs_new_plane (mm : vs_commit) (s : atomic_state) (d : vs_display) (p : nat) : vs_plane_state :=
  match as_planes s !! p with
  | Some _ => vs_checked_plane bd mm (vd_plane d) s p
  | None => vd_plane d p
  end.

(** The atomic ioctl, as [drm_mode_atomic_ioctl] of DrmDisplay, on this device. *)
Definition vs_atomic_ioctl (mm : vs_commit) (D : mode_config) (d : vs_display)
  : option (option Z * mode_config * vs_display) :=
  match checked_commit (vs_in mm d) D with
  | inl err => Some (Some err, D, d)
  | inr s =>
      if vm_test_only mm then Some (None, D, d)
      else if truthy (vm_prepare mm) then Some (Some (vm_prepare mm), D, d)
      else
        let D' := swap D s in
        let nb := vs_new_bridges bd mm (vd_bridges d) D s in
        d' ← vs_tail_calls mm (fun c => cf_adjusted_mode (mc_crtc D' c)) (vs_new_plane mm s d) nb
               (drm_atomic_helper_commit_tail vs_commit_driver (update_of D s)) d;
        Some (None, D', {| d' with vd_plane := vs_new_plane mm s d; vd_bridges := nb |})
  end.

Fixpoint vs_session (ms : list vs_commit) (D : mode_config) (d : vs_display)
  : option (list (option Z) * mode_config * vs_display) :=
  match ms with
  | [] => Some ([], D, d)
  | mm :: ms =>
      '(ret, D, d) ← vs_atomic_ioctl mm D d;
      '(rets, D, d) ← vs_session ms D d;
      Some (ret :: rets, D, d)
  end.
End Device.
