(* ===== verification/VsDisplay.v ===== *)
(** * VsDisplay: the Verisilicon display, from request to registers
      (src/drm/verisilicon)

    The device of VsBoard through sessions of atomic commits: what its outputs do follows
    what user space asks for.  The handlers refine a step on what the outputs show; the
    steps follow the pipeline of DrmCommit; and the check has left bridges and planes
    that the handlers can program. *)

From S2P Require Export VsBoard.

#[local] Open Scope Z_scope.

(** ** What the outputs show *)

(** The panel runs, the switch of the CRTC if there is one, the timings; how often the
    pixel clock has been enabled more than disabled; vblanks. *)
Record out := mkout { o_run : bool; o_scan : option bool; o_timing : list Z; o_clock : Z; o_vblank : bool }.

Definition clock_count (log : list vs_event) : Z :=
  fold_left (fun n e => match e with PixClkEnable _ => n + 1 | PixClkDisable _ => n - 1 | _ => n end) log 0.
Definition vblanks (log : list vs_event) : bool :=
  fold_left (fun b e => match e with CrtcVblankOn => true | CrtcVblankOff => false | _ => b end) log false.

(** What a call does to the outputs; [w] are the words of the adjusted modes. *)
Definition out_step (w : nat -> list Z) (k : commit_call) (O : nat -> out) : nat -> out :=
  let at_crtc c f := update c (f (O c)) O in
  match k with
  | BridgeChainDisable _ c => at_crtc c (fun o => {| o with o_run := false |})
  | BridgeChainEnable _ c => at_crtc c (fun o => {| o with o_run := true |})
  | CrtcDisable c _ =>
      at_crtc c (fun o => {| o with o_scan := switch false (o_scan o); o_clock := o_clock o - 1; o_vblank := false |})
  | CrtcEnable c _ =>
      at_crtc c (fun o => {| o with o_scan := switch true (o_scan o); o_clock := o_clock o + 1; o_vblank := true |})
  | CrtcModeSet c => at_crtc c (fun o => {| o with o_timing := w c |})
  | _ => O
  end.

Section Calls.
Context {R : Type} `{Ho : !RegmapOps R} `{Hl : !RegmapLaws R} `{HR : !RectOps} `{HP : !PlaneRectOps} `{HL : !Log2Ops} `{AI : !AtomicInlines}.
Context (bd : vs_board).

Abbreviation g := (generation (bd_ident bd)).
Abbreviation table := (vs_funcs_of g).

Definition out_of (d : vs_display (R := R)) (c : nat) : out :=
  let x := out_regs g (vd_regs d) (vs_output c) in
  mkout x.1.1 x.1.2 x.2 (clock_count (vd_log d c)) (vblanks (vd_log d c)).

(** Registers for which all outputs are as they were. *)
Definition same_outs (r r' : R) : Prop := forall o, output_ok o -> out_regs g r' o = out_regs g r o.

#[local] Instance same_outs_preorder : PreOrder same_outs.
Proof using. split; [by intros r o|]. intros r1 r2 r3 H1 H2 o Ho2. by rewrite H2, H1. Qed.

Lemma output_nat c : (c < 2)%nat -> output_ok (vs_output c).
Proof using. unfold output_ok, vs_output. lia. Qed.

(** *** Planes *)

(** A state with a CRTC of the chip and a framebuffer with memory. *)
Definition shows_fb (st : drm_plane_state) : Prop :=
  exists c fb, ps_crtc st = Some c /\ (c < 2)%nat /\ ps_fb st = Some fb /\ is_Some (drm_fb_dma_get_gem_obj fb 0).

Definition on_crtc (st : drm_plane_state) : Prop := exists c, ps_crtc st = Some c /\ (c < 2)%nat.

Lemma shows_on st : shows_fb st -> on_crtc st.
Proof using. intros (c & fb & ? & ? & _). by exists c. Qed.

Lemma cursor_enable_runs (r : R) st : on_crtc st -> exists r', vs_cursor_plane_atomic_enable r st = Some r' /\ same_outs r r'.
Proof using Hl.
  intros (c & Hc & Hlt). unfold vs_cursor_plane_atomic_enable. rewrite Hc. eexists. split; [reflexivity|].
  pose proof (output_nat c Hlt) as Hok. intros m Hm. rewrite (cursor_commit_regs g) by done.
  generalize dependent (vs_output c). intros o. destruct g; intros [->| ->]; destruct Hm as [->| ->];
    unfold out_regs, panel_runs, scan_on, timing_regs; by rm_simp.
Qed.

Lemma cursor_disable_runs (r : R) st : on_crtc st -> exists r', vs_cursor_plane_atomic_disable r st = Some r' /\ same_outs r r'.
Proof using Hl.
  intros (c & Hc & Hlt). unfold vs_cursor_plane_atomic_disable. rewrite Hc. eexists. split; [reflexivity|].
  intros m Hm. apply cursor_hw_disable_regs; [by apply output_nat|done].
Qed.

Lemma cursor_update_runs (r : R) st : shows_fb st -> exists r', vs_cursor_plane_atomic_update r st = Some r' /\ same_outs r r'.
Proof using Hl.
  intros (c & fb & Hc & Hlt & Hfb & gem & Hg). pose proof (output_nat c Hlt) as Hok.
  unfold vs_cursor_plane_atomic_update. rewrite Hc, Hfb. destruct (visible st); cbn [negb].
  2: { eexists. split; [reflexivity|]. intros m Hm. by apply cursor_hw_disable_regs. }
  unfold vs_fb_get_dma_addr. rewrite Hg. eexists. split; [reflexivity|]. intros m Hm.
  rewrite (cursor_commit_regs g), !cursor_coord_regs by done.
  match goal with |- out_regs _ (regmap_write ?x _ ?v) _ = _ => generalize v; intros a end.
  rewrite <- (cursor_size_regs g r (vs_output c) (crtc_w st) m Hok Hm). generalize (vs_cursor_set_size r (vs_output c) (crtc_w st)).
  intros r'. generalize dependent (vs_output c). intros o. destruct g; intros [->| ->]; destruct Hm as [->| ->];
    unfold out_regs, panel_runs, scan_on, timing_regs; by rm_simp.
Qed.

Lemma primary_enable_runs (r : R) st : on_crtc st ->
  exists r', vs_primary_plane_atomic_enable table r st = Some r' /\ same_outs r r'.
Proof using Hl.
  intros (c & Hc & Hlt). destruct (vs_primary_plane_atomic_enable table r st) as [r'|] eqn:E.
  - exists r'. split; [done|]. intros m Hm. eapply primary_enable_regs; [exact Hc|by apply output_nat|done|exact E].
  - unfold vs_primary_plane_atomic_enable in E. by rewrite Hc in E.
Qed.

Lemma primary_disable_runs (r : R) st : on_crtc st ->
  exists r', vs_primary_plane_atomic_disable table r st = Some r' /\ same_outs r r'.
Proof using Hl.
  intros (c & Hc & Hlt). destruct (vs_primary_plane_atomic_disable table r st) as [r'|] eqn:E.
  - exists r'. split; [done|]. intros m Hm. eapply primary_disable_regs; [exact Hc|by apply output_nat|done|exact E].
  - unfold vs_primary_plane_atomic_disable in E. by rewrite Hc in E.
Qed.

Lemma primary_update_runs (r : R) old st :
  shows_fb (base st) -> (visible (base st) = false -> on_crtc old) ->
  exists r', vs_primary_plane_atomic_update table r old st = Some r' /\ same_outs r r'.
Proof using Hl.
  intros (c & fb & Hc & Hlt & Hfb & Hg) Hold. destruct (visible (base st)) eqn:Ev.
  - destruct (primary_update_regs g r old st 0 c fb) as (r' & E & H); [done|by apply output_nat|by left|done..|]. by exists r'.
  - unfold vs_primary_plane_atomic_update. rewrite Ev. apply primary_disable_runs. by apply Hold.
Qed.

(** *** Bridges *)

(** Whether the panel runs after calls of bridges. *)
Definition run_bit (l : list bridge_call) (b : bool) : bool :=
  fold_left (fun b x => match x with
                        | (O, BridgeAtomicDisable) => false
                        | (O, BridgeAtomicEnable) => true
                        | _ => b
                        end) l b.

Lemma run_bit_off l b :
  Forall (fun x => x.2 <> BridgeAtomicEnable) l -> (0%nat, BridgeAtomicDisable) ∈ l -> run_bit l b = false.
Proof using.
  intros Hf. assert (H : forall b, (b = false \/ (0%nat, BridgeAtomicDisable) ∈ l) -> run_bit l b = false); [|by auto].
  clear b. induction Hf as [|[i h] l Hx _ IH]; intros b; cbn.
  - by intros [->|?%not_elem_of_nil].
  - intros Hb. apply IH. destruct (decide ((i, h) = (0%nat, BridgeAtomicDisable))) as [[= -> ->]|Hne]; [by left|].
    destruct Hb as [->|[?|?]%elem_of_cons]; [|congruence|by right]. left. by destruct i, h.
Qed.

Lemma run_bit_on l b :
  Forall (fun x => x.2 <> BridgeAtomicDisable) l -> (0%nat, BridgeAtomicEnable) ∈ l -> run_bit l b = true.
Proof using.
  intros Hf. assert (H : forall b, (b = true \/ (0%nat, BridgeAtomicEnable) ∈ l) -> run_bit l b = true); [|by auto].
  clear b. induction Hf as [|[i h] l Hx _ IH]; intros b; cbn.
  - by intros [->|?%not_elem_of_nil].
  - intros Hb. apply IH. destruct (decide ((i, h) = (0%nat, BridgeAtomicEnable))) as [[= -> ->]|Hne]; [by left|].
    destruct Hb as [->|[?|?]%elem_of_cons]; [|congruence|by right]. left. by destruct i, h.
Qed.

Lemma run_bit_same l b :
  Forall (fun x => x.2 <> BridgeAtomicDisable /\ x.2 <> BridgeAtomicEnable) l -> run_bit l b = b.
Proof using. intros Hf. induction Hf as [|[i h] l [H1 H2] _ IH]; [done|]. cbn. by destruct i, h. Qed.

(** The driver's bridge of an encoder can be enabled. *)
Definition bridge_ready (nb : nat -> bridge_states) (e : nat) : Prop := forall c intf, bd_outs bd !! e = Some (c, intf) ->
  exists s, nb e !! 0%nat = Some s
  /\ (intf <> VSDC_OUTPUT_INTERFACE_DPI -> vs_bridge_out_dp_fmt_supported (bc_format (output_bus_cfg s)) = true).

Lemma bridge_calls_run nb e c intf l : forall r : R,
  bd_outs bd !! e = Some (c, intf) -> (c < 2)%nat -> ((0%nat, BridgeAtomicEnable) ∈ l -> bridge_ready nb e) ->
  exists r', vs_bridge_calls bd nb e l r = Some r'
  /\ forall o, output_ok o ->
     out_regs g r' o = if decide (vs_output c = o) then (run_bit l (panel_runs g r o), scan_on g r o, timing_regs r o)
                       else out_regs g r o.
Proof using Hl.
  intros r He Hlt. pose proof (output_nat c Hlt) as Hok. revert r.
  assert (Hno : forall (P : Prop) (l : list bridge_call) x, ((0%nat, BridgeAtomicEnable) ∈ x :: l -> P) ->
            ((0%nat, BridgeAtomicEnable) ∈ l -> P)) by (intros P l0 x H Hx; apply H; by right).
  induction l as [|[i h] l IH]; intros r Hr.
  { exists r. split; [done|]. intros o _. by case_decide. }
  cbn [vs_bridge_calls]. specialize (fun r' => IH r' (Hno _ _ _ Hr)).
  assert (Hstep : exists r1, vs_bridge_call bd nb e (i, h) r = Some r1
    /\ forall o, output_ok o ->
       out_regs g r1 o = if decide (vs_output c = o) then (run_bit [(i, h)] (panel_runs g r o), scan_on g r o, timing_regs r o)
                         else out_regs g r o).
  { assert (Hsame : vs_bridge_call bd nb e (i, h) r = Some r -> (forall b, run_bit [(i, h)] b = b) ->
      exists r1, vs_bridge_call bd nb e (i, h) r = Some r1 /\ forall o, output_ok o ->
       out_regs g r1 o = if decide (vs_output c = o) then (run_bit [(i, h)] (panel_runs g r o), scan_on g r o, timing_regs r o)
                         else out_regs g r o).
    { intros E Eb. exists r. split; [done|]. intros o _. rewrite Eb. by case_decide. }
    unfold vs_bridge_call in *. rewrite He in *. destruct i as [|i]; [|by apply Hsame; [destruct h|]].
    destruct h; try (apply Hsame; done); clear Hsame.
    - eexists. split; [reflexivity|]. intros o Ho2. by apply bridge_disable_regs.
    - destruct (Hr ltac:(left) c intf He) as (s & Hs & Hf). rewrite Hs. cbn [mbind option_bind]. cbv zeta.
      destruct (Z.eqb_spec intf VSDC_OUTPUT_INTERFACE_DPI) as [_|Hne]; (eexists; split; [reflexivity|]); intros o Ho2;
        [by apply enable_dpi_regs|by apply enable_dp_regs; [..|apply Hf]]. }
  destruct Hstep as (r1 & E1 & H1). destruct (IH r1) as (r2 & E2 & H2).
  exists r2. rewrite E1. cbn [mbind option_bind]. split; [done|]. intros o Ho2. specialize (H1 o Ho2). rewrite (H2 o Ho2).
  case_decide; [|done]. pose proof (f_equal (fun x => x.1.1) H1) as Er. pose proof (f_equal (fun x => x.1.2) H1) as Es.
  pose proof (f_equal snd H1) as Et. unfold out_regs in Er, Es, Et. cbn [fst snd] in Er, Es, Et. by rewrite Er, Es, Et.
Qed.

End Calls.

Section Refines.
Context {R : Type} `{Ho : !RegmapOps R} `{Hl : !RegmapLaws R} `{HR : !RectOps} `{HP : !PlaneRectOps} `{HL : !Log2Ops} `{AI : !AtomicInlines}.
Context (bd : vs_board).

Abbreviation g := (generation (bd_ident bd)).
Abbreviation table := (vs_funcs_of g).

(** *** All calls *)

(** A call that the handlers can serve: of an encoder with its own CRTC, of CRTCs of the
    chip, of planes whose states are complete. *)
Definition good_call (new cur : nat -> vs_plane_state) (nb : nat -> bridge_states) (k : commit_call) : Prop :=
  match k with
  | BridgeChainEnable e c => (exists intf, bd_outs bd !! e = Some (c, intf)) /\ (c < 2)%nat /\ bridge_ready bd nb e
  | BridgeChainDisable e c | BridgeChainPostDisable e c | BridgeChainModeSet e c | BridgeChainPreEnable e c =>
      (exists intf, bd_outs bd !! e = Some (c, intf)) /\ (c < 2)%nat
  | CrtcDisable c _ | CrtcModeSet c | CrtcBegin c | CrtcFlush c | CrtcEnable c _ => (c < 2)%nat
  | PlaneUpdate p _ _ =>
      shows_fb (base (new p))
      /\ (Nat.odd p = false -> visible (base (new p)) = false -> on_crtc (base (cur p)))
  | PlaneDisable p _ => on_crtc (base (cur p))
  | PlaneEnable p _ => on_crtc (base (new p))
  | EncoderDisable _ _ _ | EncoderEnable _ _ _ => False
  | _ => True
  end.

(** The handlers do what the step of the outputs says. *)
Definition refined (w : nat -> list Z) (k : commit_call) (d : vs_display (R := R)) (r : option (vs_display (R := R))) : Prop :=
  exists d', r = Some d' /\ vd_plane d' = vd_plane d
  /\ forall c, (c < 2)%nat -> out_of bd d' c = out_step w k (out_of bd d) c.

Lemma refined_same w k (d : vs_display (R := R)) r r' :
  out_step w k = id -> r = Some r' -> same_outs bd (vd_regs d) r' ->
  refined w k d ((fun r => {| d with vd_regs := r |}) <$> r).
Proof using.
  intros Hk -> Hs. eexists. split_and!; [reflexivity|done|]. intros c Hc. rewrite Hk. unfold out_of. cbn [vd_regs vd_log id].
  by rewrite (Hs _ (output_nat c Hc)).
Qed.

Lemma vs_output_inj c c' : vs_output c = vs_output c' -> c = c'.
Proof using. unfold vs_output. lia. Qed.

(** A handler of a CRTC. *)
Lemma refined_crtc w k (d : vs_display (R := R)) c x f :
  (c < 2)%nat -> out_step w k (out_of bd d) = update c (f (out_of bd d c)) (out_of bd d) ->
  (forall m, output_ok m -> m <> vs_output c -> out_regs g x.1 m = out_regs g (vd_regs d) m) ->
  out_of bd (vs_crtc_done c x d) c = f (out_of bd d c) ->
  refined w k d (Some (vs_crtc_done c x d)).
Proof using.
  intros Hc Hk Hother Hthis. eexists. split_and!; [reflexivity|done|]. intros m Hm. rewrite Hk.
  destruct (decide (m = c)) as [->|Hne]; [by rewrite update_same|]. rewrite update_other by done.
  unfold out_of, vs_crtc_done. cbn [vd_regs vd_log]. rewrite update_other by done.
  rewrite Hother; [done|by apply output_nat|]. by intros ?%vs_output_inj.
Qed.

Lemma clock_app l l' : clock_count (l ++ l')
  = fold_left (fun n e => match e with PixClkEnable _ => n + 1 | PixClkDisable _ => n - 1 | _ => n end) l' (clock_count l).
Proof using. apply fold_left_app. Qed.
Lemma vs_vblanks_app l l' : vblanks (l ++ l')
  = fold_left (fun b e => match e with CrtcVblankOn => true | CrtcVblankOff => false | _ => b end) l' (vblanks l).
Proof using. apply fold_left_app. Qed.

(** A walk along the bridges. *)
Lemma refined_bridges w k (d : vs_display (R := R)) nb e c intf l f :
  bd_outs bd !! e = Some (c, intf) -> (c < 2)%nat -> ((0%nat, BridgeAtomicEnable) ∈ l -> bridge_ready bd nb e) ->
  out_step w k (out_of bd d) = update c (let o := out_of bd d c in {| o with o_run := f (o_run o) |}) (out_of bd d) ->
  (forall b, run_bit l b = f b) ->
  refined w k d ((fun r => {| d with vd_regs := r |}) <$> vs_bridge_calls bd nb e l (vd_regs d)).
Proof using Hl.
  intros He Hlt Hr Hk Hf. destruct (bridge_calls_run bd nb e c intf l (vd_regs d) He Hlt Hr) as (r' & -> & H).
  eexists. split_and!; [reflexivity|done|]. intros m Hm. rewrite Hk. unfold out_of at 1. cbn [vd_regs vd_log].
  rewrite (H _ (output_nat m Hm)). destruct (decide (m = c)) as [->|Hne].
  - rewrite decide_True, update_same by done. cbn [fst snd]. by rewrite Hf.
  - rewrite decide_False, update_other; [done|done|]. intros ?%vs_output_inj. congruence.
Qed.

Lemma update_self {A} c (O : nat -> A) m : update c (O c) O m = O m.
Proof using. destruct (decide (m = c)) as [->|]; [apply update_same|by apply update_other]. Qed.

(** Walks that do not concern the driver's bridge. *)
Lemma refined_walk w k (d : vs_display (R := R)) nb e c intf l :
  bd_outs bd !! e = Some (c, intf) -> (c < 2)%nat -> out_step w k = id ->
  Forall (fun x => x.2 <> BridgeAtomicDisable /\ x.2 <> BridgeAtomicEnable) l ->
  refined w k d ((fun r => {| d with vd_regs := r |}) <$> vs_bridge_calls bd nb e l (vd_regs d)).
Proof using Hl.
  intros He Hlt Hk Hf. destruct (bridge_calls_run bd nb e c intf l (vd_regs d) He Hlt) as (r' & E & H).
  { intros Hin. rewrite Forall_forall in Hf. by destruct (Hf _ Hin). }
  eapply refined_same; [done|exact E|]. intros o Ho2. rewrite (H o Ho2), run_bit_same by done. by case_decide.
Qed.

Lemma chain_first mm e c intf : bd_outs bd !! e = Some (c, intf) ->
  vs_first bd mm e = Some 0%nat /\ vs_chain bd mm e !! 0%nat = Some (vs_bridge_funcs intf (vm_alloc mm e)).
Proof using. intros He. unfold vs_first, vs_chain. by rewrite He. Qed.

Lemma bridge_funcs_hooks intf b :
  br_atomic_enable (vs_bridge_funcs intf b) = true /\ br_atomic_disable (vs_bridge_funcs intf b) = true.
Proof using. unfold vs_bridge_funcs. by destruct (_ =? _). Qed.

Lemma Forall_in {A} (P Q : A -> Prop) (l : list A) : (forall x, x ∈ l -> P x) -> (forall x, P x -> Q x) -> Forall Q l.
Proof using. intros H1 H2. apply Forall_forall. auto. Qed.

Lemma crtc_others (r : R) mode c m : (c < 2)%nat -> output_ok m -> m <> vs_output c ->
  out_regs g (vs_crtc_atomic_disable table r (vs_output c)).1 m = out_regs g r m
  /\ out_regs g (vs_crtc_atomic_enable table r (vs_output c)).1 m = out_regs g r m
  /\ out_regs g (vs_crtc_mode_set_nofb r (vs_output c) mode).1 m = out_regs g r m.
Proof using Hl.
  intros Hc Hm Hne. pose proof (output_nat c Hc). rewrite crtc_disable_regs, crtc_enable_regs, mode_set_regs by done.
  by rewrite !decide_False by congruence.
Qed.

(** The three kinds of calls: of the bridges, ... *)
Lemma bridges_refine mm adj new nb k (d : vs_display (R := R)) :
  match k with
  | BridgeChainDisable _ _ | BridgeChainPostDisable _ _ | BridgeChainModeSet _ _
  | BridgeChainPreEnable _ _ | BridgeChainEnable _ _ => good_call new (vd_plane d) nb k
  | _ => False
  end -> refined (fun c => timing_words (adj c)) k d (vs_tail_call bd mm adj new nb k d).
Proof using Hl.
  assert (Hwalk : forall walk (P : bridge_hook -> Prop) k e c w, (exists intf, bd_outs bd !! e = Some (c, intf)) /\ (c < 2)%nat ->
    out_step w k = id -> (forall x, x ∈ walk (vs_chain bd mm e) (vs_first bd mm e) -> P x.2) ->
    (forall h, P h -> h <> BridgeAtomicDisable /\ h <> BridgeAtomicEnable) ->
    refined w k d ((fun r => {| d with vd_regs := r |}) <$>
      vs_bridge_calls bd nb e (walk (vs_chain bd mm e) (vs_first bd mm e)) (vd_regs d))).
  { intros walk P k0 e c w [[intf He] Hc] Hk Hw HP2. eapply refined_walk; [exact He|exact Hc|exact Hk|].
    apply (Forall_in (fun x => P x.2)); [exact Hw|]. intros x. apply HP2. }
  destruct k; try done; cbn [good_call vs_tail_call]; cbv zeta.
  - intros [[intf He] Hc]. destruct (chain_first mm e c intf He) as [Hf Hb]. rewrite Hf.
    apply (refined_bridges _ _ d nb e c intf _ (fun _ => false)); [done|done| |done|].
    + intros Hin%disable_loop_calls. by destruct Hin.
    + intros b. apply run_bit_off; [|eapply disable_loop_first; [exact Hb|apply bridge_funcs_hooks]].
      apply (Forall_in _ _ _ (disable_loop_calls _ _ _)). intros x [-> | ->]; done.
  - intros H. eapply (Hwalk _ (fun h => h = BridgeAtomicPostDisable \/ h = BridgePostDisable)); [exact H|done| |].
    + intros x. apply post_disable_calls.
    + by intros h [-> | ->].
  - intros H. eapply (Hwalk _ (fun h => h = BridgeModeSet)); [exact H|done| |by intros h ->].
    intros x. unfold drm_bridge_chain_mode_set. destruct (vs_first bd mm e); [|by intros ?%not_elem_of_nil].
    intros (i & Hx & _)%list_elem_of_bind. destruct (_ !! i) as [b|]; [|by apply not_elem_of_nil in Hx].
    destruct (br_mode_set b); [by apply list_elem_of_singleton in Hx as ->|by apply not_elem_of_nil in Hx].
  - intros H. eapply (Hwalk _ (fun h => h = BridgeAtomicPreEnable \/ h = BridgePreEnable)); [exact H|done| |].
    + intros x. apply pre_enable_calls.
    + by intros h [-> | ->].
  - intros ([intf He] & Hc & Hr). destruct (chain_first mm e c intf He) as [Hf Hb]. rewrite Hf.
    apply (refined_bridges _ _ d nb e c intf _ (fun _ => true)); [done|done|done|done|].
    intros b. apply run_bit_on; [|eapply enable_first; [exact Hb|apply bridge_funcs_hooks]].
    apply (Forall_in _ _ _ (enable_calls _)). intros x [-> | ->]; done.
Qed.

(** ... of a CRTC, ... *)
Lemma crtcs_refine mm adj new nb k (d : vs_display (R := R)) :
  match k with
  | CrtcDisable c _ | CrtcModeSet c | CrtcBegin c | CrtcFlush c | CrtcEnable c _ => (c < 2)%nat
  | _ => False
  end -> refined (fun c => timing_words (adj c)) k d (vs_tail_call bd mm adj new nb k d).
Proof using Hl.
  assert (Hout : forall c x, out_of bd (vs_crtc_done c x d) c
    = let y := out_regs g x.1 (vs_output c) in mkout y.1.1 y.1.2 y.2 (clock_count (vd_log d c ++ x.2)) (vblanks (vd_log d c ++ x.2))).
  { intros c x. unfold out_of, vs_crtc_done. cbn [vd_regs vd_log]. by rewrite update_same. }
  destruct k; try done; cbn [vs_tail_call]; cbv zeta; intros Hc.
  - apply (refined_crtc _ _ d c _ (fun o => {| o with o_scan := switch false (o_scan o); o_clock := o_clock o - 1; o_vblank := false |}));
      [done|done|intros m Hm Hne; by apply crtc_others|].
    rewrite Hout, clock_app, vs_vblanks_app, crtc_disable_regs by by apply output_nat. by rewrite decide_True.
  - apply (refined_crtc _ _ d c _ (fun o => {| o with o_timing := timing_words (adj c) |}));
      [done|done|intros m Hm Hne; by apply crtc_others|].
    rewrite Hout, clock_app, vs_vblanks_app, mode_set_regs by by apply output_nat. by rewrite decide_True.
  - eapply (refined_same _ _ d (Some _)); [done|reflexivity|]. intros o Ho2. apply begin_regs; [by apply output_nat|done].
  - eexists. split_and!; [reflexivity|done|]. intros m Hm. cbn [out_step].
    destruct (decide (m = c)) as [->|Hne].
    + rewrite Hout, clock_app, vs_vblanks_app, flush_regs by by apply output_nat. done.
    + unfold out_of, vs_crtc_done. cbn [vd_regs vd_log]. rewrite flush_regs by by apply output_nat. by rewrite update_other.
  - apply (refined_crtc _ _ d c _ (fun o => {| o with o_scan := switch true (o_scan o); o_clock := o_clock o + 1; o_vblank := true |}));
      [done|done|intros m Hm Hne; by apply crtc_others|].
    rewrite Hout, clock_app, vs_vblanks_app, crtc_enable_regs by by apply output_nat. by rewrite decide_True.
Qed.

(** ... and of a plane. *)
Lemma vs_call_refines mm adj new nb k (d : vs_display (R := R)) :
  good_call new (vd_plane d) nb k ->
  refined (fun c => timing_words (adj c)) k d (vs_tail_call bd mm adj new nb k d).
Proof using Hl.
  assert (Hsame : forall w k (d : vs_display (R := R)), out_step w k = id -> refined w k d (Some d)).
  { intros w k0 d0 E. exists d0. split_and!; [done|done|]. intros c _. by rewrite E. }
  pose proof (bridges_refine mm adj new nb k d) as Hb. pose proof (crtcs_refine mm adj new nb k d) as Hc.
  destruct k; try exact Hb; try exact Hc; clear Hb Hc; cbn [good_call vs_tail_call]; cbv zeta;
    try (intros _; by apply Hsame).
  - intros Hp. destruct (Nat.odd p); [destruct (cursor_disable_runs bd (vd_regs d) _ Hp) as (r' & E & H)
      |destruct (primary_disable_runs bd (vd_regs d) _ Hp) as (r' & E & H)]; by eapply refined_same.
  - intros [Hs Hv]. destruct (Nat.odd p); [destruct (cursor_update_runs bd (vd_regs d) _ Hs) as (r' & E & H)
      |destruct (primary_update_runs bd (vd_regs d) (base (vd_plane d p)) _ Hs (Hv eq_refl)) as (r' & E & H)]; by eapply refined_same.
  - intros Hp. destruct (Nat.odd p); [destruct (cursor_enable_runs bd (vd_regs d) _ Hp) as (r' & E & H)
      |destruct (primary_enable_runs bd (vd_regs d) _ Hp) as (r' & E & H)]; by eapply refined_same.
Qed.

Lemma vs_calls_refine mm adj new nb l : forall (d : vs_display (R := R)),
  Forall (good_call new (vd_plane d) nb) l ->
  exists d', vs_tail_calls bd mm adj new nb l d = Some d' /\ vd_plane d' = vd_plane d
  /\ forall c, (c < 2)%nat ->
     out_of bd d' c = fold_left (fun O k => out_step (fun c => timing_words (adj c)) k O) l (out_of bd d) c.
Proof using Hl.
  induction l as [|k l IH]; intros d Hg; cbn; [by exists d|]. apply Forall_cons in Hg as [Hk Hg].
  destruct (vs_call_refines mm adj new nb k d Hk) as (d1 & -> & Hp1 & H1). cbn [mbind option_bind].
  destruct (IH d1) as (d2 & -> & Hp2 & H2); [by rewrite Hp1|]. exists d2. split_and!; [done|congruence|].
  intros c Hc. rewrite (H2 c Hc).
  assert (Hext : forall l O O', (forall c, (c < 2)%nat -> O c = O' c) -> forall c, (c < 2)%nat ->
    fold_left (fun O k => out_step (fun c => timing_words (adj c)) k O) l O c
    = fold_left (fun O k => out_step (fun c => timing_words (adj c)) k O) l O' c).
  { clear. induction l as [|k l IH]; intros O O' HO; [done|]. cbn. apply IH. intros c Hc.
    destruct k; cbn; unfold update; try (case_decide; [subst|]); try rewrite HO by done; by auto. }
  by apply Hext.
Qed.

End Refines.

(** ** The outputs and the pipeline *)

Section Pipeline.
Context (bd : vs_board).
Hypothesis Hapart : NoDup (bd_outs bd).*1.

Lemma outs_apart e e' c intf intf' :
  bd_outs bd !! e = Some (c, intf) -> bd_outs bd !! e' = Some (c, intf') -> e = e'.
Proof using Hapart.
  intros H H'. eapply (NoDup_lookup _ _ _ c Hapart); rewrite list_lookup_fmap; [by rewrite H|by rewrite H'].
Qed.

(** The outputs show the pipeline: a CRTC that runs scans out, with its clock on and
    vblanks; a panel runs if an encoder of its CRTC does. *)
Record sim (P : pipeline) (O : nat -> out) : Prop := {
  sim_scan c : (c < 2)%nat -> o_scan (O c) = switch (bool_decide (c ∈ pl_on P)) (o_scan (O c));
  sim_vblank c : (c < 2)%nat -> o_vblank (O c) = bool_decide (c ∈ pl_on P);
  sim_clock c : (c < 2)%nat -> o_clock (O c) = Z.b2z (bool_decide (c ∈ pl_on P));
  sim_run c : (c < 2)%nat -> o_run (O c) = true <-> exists e, pl_enc P !! e = Some (Running, c);
  sim_enc e st c : pl_enc P !! e = Some (st, c) -> exists intf, bd_outs bd !! e = Some (c, intf)
}.

Lemma run_at P O e c intf : sim P O -> bd_outs bd !! e = Some (c, intf) -> (c < 2)%nat ->
  o_run (O c) = true <-> pl_enc P !! e = Some (Running, c).
Proof using Hapart.
  intros S He Hc. rewrite (sim_run _ _ S c Hc). split; [|by exists e]. intros [e' Hr].
  destruct (sim_enc _ _ S _ _ _ Hr) as [intf' He']. by rewrite (outs_apart _ _ _ _ _ He He').
Qed.

(** A stage of an encoder. *)
Lemma sim_stage P O O' e c intf x :
  sim P O -> bd_outs bd !! e = Some (c, intf) -> (c < 2)%nat ->
  (forall c', o_scan (O' c') = o_scan (O c') /\ o_vblank (O' c') = o_vblank (O c') /\ o_clock (O' c') = o_clock (O c')
              /\ (c' <> c -> o_run (O' c') = o_run (O c'))) ->
  (o_run (O' c) = true <-> x = Some Running) ->
  sim (set_enc P e ((fun st => (st, c)) <$> x)) O'.
Proof using Hapart.
  intros S He Hc HO Hx. split; cbn [set_enc pl_on pl_enc].
  - intros c' Hc'. destruct (HO c') as (-> & _). by apply (sim_scan _ _ S).
  - intros c' Hc'. destruct (HO c') as (_ & -> & _). by apply (sim_vblank _ _ S).
  - intros c' Hc'. destruct (HO c') as (_ & _ & -> & _). by apply (sim_clock _ _ S).
  - intros c' Hc'. destruct (decide (c' = c)) as [->|Hne].
    + rewrite Hx. split.
      * intros ->. exists e. by rewrite lookup_partial_alter_eq.
      * intros [e' He']. destruct (decide (e' = e)) as [->|Hne]; [rewrite lookup_partial_alter_eq in He'; by destruct x as [[]|]|].
        rewrite lookup_partial_alter_ne in He' by done. destruct (sim_enc _ _ S _ _ _ He') as [intf' Ho'].
        by destruct Hne; eapply outs_apart.
    + destruct (HO c') as (_ & _ & _ & Hr). rewrite (Hr Hne), (sim_run _ _ S c' Hc').
      split; intros [e' He']; exists e'; destruct (decide (e' = e)) as [->|Hne'];
        rewrite ?lookup_partial_alter_eq, ?lookup_partial_alter_ne in * by done; try done.
      * destruct (sim_enc _ _ S _ _ _ He') as [intf' Ho']. congruence.
      * destruct x; [injection He'; congruence|done].
  - intros e' st c'. destruct (decide (e' = e)) as [->|Hne].
    + rewrite lookup_partial_alter_eq. destruct x; [|done]. intros [= _ <-]. by exists intf.
    + rewrite lookup_partial_alter_ne by done. apply (sim_enc _ _ S).
Qed.

(** The CRTC of a call about an encoder. *)
Definition of_board (k : commit_call) : Prop :=
  match k with
  | BridgeChainDisable e c | EncoderDisable e c _ | BridgeChainPostDisable e c
  | BridgeChainPreEnable e c | EncoderEnable e c _ | BridgeChainEnable e c =>
      (exists intf, bd_outs bd !! e = Some (c, intf)) /\ (c < 2)%nat
  | _ => True
  end.

Lemma sim_switch P O c (b : bool) f :
  sim P O -> (forall o, o_run (f o) = o_run o /\ o_scan (f o) = switch b (o_scan o) /\ o_vblank (f o) = b) ->
  o_clock (f (O c)) = Z.b2z b \/ (2 <= c)%nat ->
  sim {| P with pl_on := if b then {[c]} ∪ pl_on P else pl_on P ∖ {[c]} |} (update c (f (O c)) O).
Proof using Hapart.
  intros S Hf Hclk. assert (Hon : bool_decide (c ∈ (if b then {[c]} ∪ pl_on P else pl_on P ∖ {[c]})) = b).
  { destruct b; [apply bool_decide_eq_true|apply bool_decide_eq_false]; rewrite ?elem_of_union, ?elem_of_difference, elem_of_singleton; tauto. }
  assert (Hon' : forall c', c' <> c -> bool_decide (c' ∈ (if b then {[c]} ∪ pl_on P else pl_on P ∖ {[c]})) = bool_decide (c' ∈ pl_on P)).
  { intros c' Hne. apply bool_decide_ext. destruct b; rewrite ?elem_of_union, ?elem_of_difference, elem_of_singleton; tauto. }
  destruct (Hf (O c)) as (H1 & H2 & H3).
  split; cbn [pl_on pl_enc]; [..|apply (sim_enc _ _ S)]; intros c' Hc'; (destruct (decide (c' = c)) as [->|Hne];
    [rewrite ?update_same|rewrite ?update_other by done]).
  - rewrite H2, Hon. by destruct (o_scan (O c)).
  - rewrite Hon' by done. by apply (sim_scan _ _ S).
  - by rewrite H3, Hon.
  - rewrite Hon' by done. by apply (sim_vblank _ _ S).
  - rewrite Hon. destruct Hclk; [done|lia].
  - rewrite Hon' by done. by apply (sim_clock _ _ S).
  - rewrite H1. by apply (sim_run _ _ S).
  - by apply (sim_run _ _ S).
Qed.

(** A step of an encoder, ... *)
Lemma stage_step P P' O O' e c a x :
  sim P O -> enc_step P e c a ((fun st => (st, c)) <$> x) = Some P' ->
  (exists intf, bd_outs bd !! e = Some (c, intf)) /\ (c < 2)%nat ->
  (forall c', o_scan (O' c') = o_scan (O c') /\ o_vblank (O' c') = o_vblank (O c') /\ o_clock (O' c') = o_clock (O c')
              /\ (c' <> c -> o_run (O' c') = o_run (O c'))) ->
  (pl_enc P !! e = a -> o_run (O' c) = true <-> x = Some Running) -> sim P' O'.
Proof using Hapart.
  intros S He [[intf Ho] Hc] HO Hr. unfold enc_step in He. destruct (bool_decide (c ∈ _)); [|done].
  case_bool_decide as Ea; [|done]. injection He as <-. eapply sim_stage; [exact S|exact Ho|exact Hc|exact HO|auto].
Qed.

(** ... which the output sees ... *)
Lemma stage_seen P P' O e c a x :
  sim P O -> enc_step P e c a (Some (x, c)) = Some P' ->
  (exists intf, bd_outs bd !! e = Some (c, intf)) /\ (c < 2)%nat ->
  sim P' (update c {| (O c) with o_run := bool_decide (x = Running) |} O).
Proof using Hapart.
  intros S He Ho. eapply (stage_step P P' O _ e c a (Some x)); [done|exact He|done| |].
  - intros c'. destruct (decide (c' = c)) as [->|Hne]; [by rewrite update_same|by rewrite update_other].
  - intros _. rewrite update_same. cbn. rewrite bool_decide_eq_true. by split; [intros ->|intros [=]].
Qed.

(** ... or not. *)
Lemma stage_same P P' O e c a x :
  sim P O -> enc_step P e c a ((fun st => (st, c)) <$> x) = Some P' ->
  (exists intf, bd_outs bd !! e = Some (c, intf)) /\ (c < 2)%nat ->
  a <> Some (Running, c) -> x <> Some Running -> sim P' O.
Proof using Hapart.
  intros S He Ho Ha Hx. eapply stage_step; [exact S|exact He|exact Ho|done|]. intros Ea. destruct Ho as [[intf Ho] Hc].
  rewrite (run_at P O e c intf S Ho Hc), Ea. done.
Qed.

Lemma sim_timing P O c w : sim P O -> sim P (update c {| (O c) with o_timing := w |} O).
Proof using.
  intros S. assert (H : forall c', let O' := update c {| (O c) with o_timing := w |} O in
    o_scan (O' c') = o_scan (O c') /\ o_vblank (O' c') = o_vblank (O c') /\ o_clock (O' c') = o_clock (O c')
            /\ o_run (O' c') = o_run (O c')).
  { intros c' O'. unfold O'. destruct (decide (c' = c)) as [->|]; [by rewrite update_same|by rewrite update_other]. }
  split; [..|apply (sim_enc _ _ S)]; intros c' Hc'; destruct (H c') as (E1 & E2 & E3 & E4); rewrite ?E1, ?E2, ?E3, ?E4;
    by apply S.
Qed.

Lemma sim_step b w k P P' O : pipe_step b P k = Some P' -> of_board k -> sim P O -> sim P' (out_step w k O).
Proof using Hapart.
  intros Hp Hb S.
  assert (Hw : forall x : bool, when x P = Some P' -> P' = P) by (intros []; [by intros [= <-]|done]).
  assert (Hclk : forall c (b' : bool) n, bool_decide (c ∈ pl_on P) = negb b' -> n = Z.b2z b' - Z.b2z (negb b') ->
            o_clock (O c) + n = Z.b2z b' \/ (2 <= c)%nat).
  { intros c b' n Hon ->. destruct (decide (c < 2)%nat) as [Hc|]; [left|right; lia]. rewrite (sim_clock _ _ S c Hc), Hon. lia. }
  destruct k; cbn [pipe_step of_board out_step] in *; cbv zeta; try (by injection Hp as <-); try (by rewrite (Hw _ Hp)).
  - by apply (stage_seen P P' O e c _ Stopping S Hp Hb).
  - by apply (stage_same P P' O e c _ (Some Stopping) S Hp Hb).
  - by apply (stage_same P P' O e c _ None S Hp Hb).
  - case_bool_decide as Hon; [|done]. destruct (free_of_encoders P c); [|done]. injection Hp as <-.
    apply (sim_switch P O c false (fun o => {| o with o_scan := switch false (o_scan o); o_clock := o_clock o - 1; o_vblank := false |}) S);
      [done|]. apply (Hclk c false (-1)); [by apply bool_decide_eq_true|done].
  - rewrite (Hw _ Hp). by apply sim_timing.
  - destruct old, new; by rewrite (Hw _ Hp).
  - case_bool_decide as Hon; [|done]. injection Hp as <-.
    apply (sim_switch P O c true (fun o => {| o with o_scan := switch true (o_scan o); o_clock := o_clock o + 1; o_vblank := true |}) S);
      [done|]. apply (Hclk c true 1); [by apply bool_decide_eq_false|done].
  - by apply (stage_same P P' O e c _ (Some Ready) S Hp Hb).
  - by apply (stage_same P P' O e c _ (Some Ready) S Hp Hb).
  - by apply (stage_seen P P' O e c _ Running S Hp Hb).
Qed.

Lemma sim_run_calls b w l : forall P P' O, pipe_run b P l = Some P' -> Forall of_board l -> sim P O ->
  sim P' (fold_left (fun O k => out_step w k O) l O).
Proof using Hapart.
  induction l as [|k l IH]; intros P P' O; cbn; [by intros [= <-]|].
  destruct (pipe_step b P k) as [P1|] eqn:E; [|done]. intros Hr [Hk Hl]%Forall_cons S.
  eapply IH; [exact Hr|done|]. by eapply sim_step.
Qed.

(** The timings are those of the last change of mode. *)
Lemma timing_after w l c : forall O,
  o_timing (fold_left (fun O k => out_step w k O) l O c) = if decide (CrtcModeSet c ∈ l) then w c else o_timing (O c).
Proof using.
  assert (Hk : forall k O, o_timing (out_step w k O c) = if decide (k = CrtcModeSet c) then w c else o_timing (O c)).
  { intros k O. destruct k; cbn; try (by rewrite decide_False);
      (destruct (decide (c = c0)) as [->|Hne]; [rewrite update_same|rewrite update_other by done]);
      rewrite ?decide_False by congruence; try done. by rewrite decide_True. }
  induction l as [|k l IH]; intros O; cbn [fold_left].
  - rewrite decide_False; [done|]. apply not_elem_of_nil.
  - rewrite IH, Hk. destruct (decide (CrtcModeSet c ∈ l)) as [Hin|Hn].
    + rewrite decide_True; [done|]. by right.
    + destruct (decide (k = CrtcModeSet c)) as [->|Hne]; [by rewrite decide_True by left|].
      rewrite decide_False; [done|]. intros [?|?]%elem_of_cons; congruence.
Qed.
End Pipeline.

(** ** The calls of a commit *)

Section Tail.
Context `{AI : !AtomicInlines} `{L : !AtomicInlinesLaws} (bd : vs_board) (u : atomic_update).

Abbreviation tail := (drm_atomic_helper_commit_tail vs_commit_driver u).

Definition old_link (e c : nat) : Prop :=
  exists cn, cn ∈ au_connectors u /\ cn_old_crtc cn = Some c /\ cn_old_encoder cn = Some e.
Definition new_link (e c : nat) : Prop :=
  exists cn, cn ∈ au_connectors u /\ cn_new_crtc cn = Some c /\ cn_new_encoder cn = Some e.

Lemma shut_down_route cn e c : cn ∈ au_connectors u -> shut_down u cn = Some (e, c) -> old_link e c.
Proof using.
  intros Hcn. unfold shut_down. destruct (cn_old_crtc cn) as [c'|] eqn:Ec; cbn [mbind option_bind]; [|done].
  destruct (old_crtc_state u c'); cbn [mbind option_bind]; [|done]. cbv zeta. destruct (_ || _); [done|].
  destruct (cn_old_encoder cn) as [e'|] eqn:Ee; cbn [mbind option_bind]; [|done]. intros [= <- <-]. by exists cn.
Qed.

Lemma bring_up_route cn e c : cn ∈ au_connectors u -> bring_up u cn = Some (e, c) -> new_link e c.
Proof using.
  intros Hcn. unfold bring_up. destruct (cn_new_encoder cn) as [e'|] eqn:Ee; cbn [mbind option_bind]; [|done].
  destruct (cn_new_crtc cn) as [c'|] eqn:Ec; cbn [mbind option_bind]; [|done]. destruct (_ || _); [done|].
  intros [= <- <-]. by exists cn.
Qed.

(** What has to hold of the calls for it to hold of all calls of the tail. *)
Record every_call (Q : commit_call -> Prop) : Prop := {
  ec_old e c : old_link e c -> Q (BridgeChainDisable e c) /\ Q (BridgeChainPostDisable e c);
  ec_new e c : new_link e c -> Q (BridgeChainModeSet e c) /\ Q (BridgeChainPreEnable e c) /\ Q (BridgeChainEnable e c);
  ec_crtc x : x ∈ au_crtcs u ->
    Q (CrtcDisable (ce_id x) atomic_disable) /\ Q (CrtcEnable (ce_id x) atomic_enable)
    /\ Q (CrtcBegin (ce_id x)) /\ Q (CrtcFlush (ce_id x));
  ec_mode x : x ∈ au_crtcs u -> st_mode_changed (ce_new x) = true -> st_enable (ce_new x) = true -> Q (CrtcModeSet (ce_id x));
  ec_update p c : p ∈ au_planes u -> pe_new_crtc p = Some c -> Q (PlaneUpdate (pe_id p) (pe_old_crtc p) (Some c));
  ec_enable p c : p ∈ au_planes u -> pe_new_crtc p = Some c -> Q (PlaneEnable (pe_id p) c);
  ec_disable p c : p ∈ au_planes u -> pe_old_crtc p = Some c -> Q (PlaneDisable (pe_id p) c);
  ec_other c b l : Q (CheckVblankOff c b) /\ Q UpdateLegacyModesetState /\ Q (CalcTimestampingConstants c)
    /\ Q (SendFakeVblank c) /\ Q CommitHwDone /\ Q (WaitForVblanks l)
}.

Lemma disables_forall Q : every_call Q -> Forall Q (drm_atomic_helper_commit_modeset_disables vs_commit_driver u).
Proof using.
  intros E. assert (Ho : forall c b l, _) by exact (ec_other _ E).
  unfold drm_atomic_helper_commit_modeset_disables, disable_outputs, drm_atomic_helper_commit_crtc_set_mode.
  rewrite !Forall_app. split_and!.
  - apply Forall_mbind. intros cn Hcn. destruct (shut_down u cn) as [[e c]|] eqn:Es; [|constructor].
    apply shut_down_route in Es; [|done]. repeat constructor. by apply (ec_old _ E).
  - apply Forall_mbind. intros cn Hcn. destruct (shut_down u cn) as [[e c]|] eqn:Es; [|constructor].
    apply shut_down_route in Es; [|done]. repeat constructor. by apply (ec_old _ E).
  - apply Forall_mbind. intros x Hx. cbv zeta. destruct (negb _); [constructor|]. destruct (negb _); [constructor|].
    unfold crtc_off. cbn. rewrite andb_false_r. repeat constructor; [by apply (ec_crtc _ E)|by apply (Ho _ _ [])].
  - repeat constructor. apply (Ho 0%nat false []).
  - apply Forall_mbind. intros x Hx. case_if; repeat constructor. apply (Ho _ false []).
  - apply Forall_mbind. intros x Hx. destruct (st_mode_changed _) eqn:Em; [cbn|constructor].
    destruct (st_enable _) eqn:Ee; repeat constructor. by apply (ec_mode _ E).
  - apply Forall_mbind. intros cn Hcn. destruct (cn_new_encoder cn) as [e|] eqn:Ee; [|constructor].
    destruct (cn_new_crtc cn) as [c|] eqn:Ec; [|constructor]. destruct (new_crtc_state u c); [|constructor].
    destruct (_ && _); [constructor|]. cbn. repeat constructor. apply (ec_new _ E). by exists cn.
Qed.

Lemma planes_forall Q : every_call Q -> Forall Q (drm_atomic_helper_commit_planes vs_commit_driver u false false).
Proof using L.
  intros E. unfold drm_atomic_helper_commit_planes. rewrite !Forall_app. split_and!.
  - apply Forall_mbind. intros x Hx. cbn. repeat constructor. by apply (ec_crtc _ E).
  - apply Forall_mbind. intros p Hp. unfold commit_plane. cbn [cd_plane vs_commit_driver andb]. rewrite plane_disabling_spec, plane_enabling_spec.
    assert (Hh : ph_atomic_disable (if Nat.odd (pe_id p) then vs_cursor_plane_helper_funcs else vs_primary_plane_helper_funcs) = true
                 /\ ph_atomic_enable (if Nat.odd (pe_id p) then vs_cursor_plane_helper_funcs else vs_primary_plane_helper_funcs) = true)
      by (by destruct (Nat.odd _)). destruct Hh as [-> ->]. rewrite !andb_true_r.
    destruct (pe_old_crtc p) as [c|] eqn:Eo, (pe_new_crtc p) as [c'|] eqn:En; cbn; rewrite ?andb_false_r; repeat constructor.
    + rewrite <- Eo. by eapply (ec_update _ E).
    + by eapply (ec_disable _ E).
    + rewrite <- Eo. by eapply (ec_update _ E).
    + by eapply (ec_enable _ E).
  - apply Forall_mbind. intros x Hx. cbn. repeat constructor. by apply (ec_crtc _ E).
  - apply Forall_mbind. intros p Hp. cbn. destruct (Nat.odd _); constructor.
Qed.

Lemma enables_forall Q : every_call Q -> Forall Q (drm_atomic_helper_commit_modeset_enables vs_commit_driver u).
Proof using.
  intros E. unfold drm_atomic_helper_commit_modeset_enables. rewrite !Forall_app. split_and!.
  - apply Forall_mbind. intros x Hx. cbv zeta. repeat (case_if; [by constructor|]). cbn. case_if; repeat constructor.
    by apply (ec_crtc _ E).
  - apply Forall_mbind. intros cn Hcn. destruct (bring_up u cn) as [[e c]|] eqn:Es; [|constructor].
    apply bring_up_route in Es; [|done]. repeat constructor. by apply (ec_new _ E).
  - apply Forall_mbind. intros cn Hcn. destruct (bring_up u cn) as [[e c]|] eqn:Es; [|constructor].
    apply bring_up_route in Es; [|done]. cbn. repeat constructor. by apply (ec_new _ E).
  - apply Forall_mbind. intros cn Hcn. constructor.
Qed.

Lemma tail_forall Q : every_call Q -> Forall Q tail.
Proof using L.
  intros E. assert (Ho : forall c b l, _) by exact (ec_other _ E).
  unfold drm_atomic_helper_commit_tail. rewrite !Forall_app. split_and!.
  - by apply disables_forall.
  - by apply planes_forall.
  - by apply enables_forall.
  - apply Forall_mbind. intros x Hx. case_if; repeat constructor. apply (Ho _ false []).
  - repeat constructor. apply (Ho 0%nat false []).
  - unfold drm_atomic_helper_wait_for_vblanks. case_if; repeat constructor. apply (Ho 0%nat false).
  - apply Forall_mbind. intros p Hp. cbn. destruct (Nat.odd _); constructor.
Qed.

(** Modes are set on the CRTCs that change theirs and have one. *)
Lemma mode_set_in c :
  CrtcModeSet c ∈ tail
  <-> exists x, x ∈ au_crtcs u /\ ce_id x = c /\ st_mode_changed (ce_new x) = true /\ st_enable (ce_new x) = true.
Proof using L.
  split.
  - assert (H : Forall (fun k => forall c, k = CrtcModeSet c -> exists x, x ∈ au_crtcs u /\ ce_id x = c
                 /\ st_mode_changed (ce_new x) = true /\ st_enable (ce_new x) = true) tail).
    { apply tail_forall. split; try (intros; split_and!; done); try done. intros x Hx Hm He c' [= <-]. by exists x. }
    rewrite Forall_forall in H. intros Hin. by apply (H _ Hin).
  - intros (x & Hx & <- & Hm & He). unfold drm_atomic_helper_commit_tail, drm_atomic_helper_commit_modeset_disables,
      drm_atomic_helper_commit_crtc_set_mode. rewrite !elem_of_app. left. right. right. right. left.
    apply list_elem_of_bind. exists x. split; [|done]. rewrite Hm, He. left.
Qed.
End Tail.

(** ** What a checked commit is *)

(** The planes' framebuffers have memory. *)
Definition has_memory (st : drm_plane_state) : Prop :=
  forall fb, ps_fb st = Some fb -> is_Some (drm_fb_dma_get_gem_obj fb 0).
Definition mem_ok (mm : vs_commit) : Prop := forall p, has_memory (vm_planes mm p).

(** A framebuffer exactly if there is a CRTC. *)
Definition plane_fits (st : drm_plane_state) : Prop := (is_Some (ps_crtc st) <-> is_Some (ps_fb st)) /\ has_memory st.

(** Every route is one of the board. *)
Definition routes_known (bd : vs_board) (n : nat) (conn : nat -> conn_full) : Prop := forall k c e,
  (k < n)%nat -> cnf_crtc (conn k) = Some c -> cnf_encoder (conn k) = Some e -> exists intf, bd_outs bd !! e = Some (c, intf).

(** The bridges behind the driver's leave the timings of the adjusted mode. *)
Definition bridges_keep (mm : vs_commit) : Prop := forall e, checks_keep (vm_bridges mm e) timing_words.

Lemma crtcinfo_timing a : timing_words (drm_mode_set_crtcinfo a 0) = timing_words a.
Proof.
  assert (H1 : forall b, timing_words (adjust_interlace 0 b) = timing_words b)
    by (intros; unfold adjust_interlace; repeat case_if; reflexivity).
  assert (H2 : forall b, timing_words (adjust_dblscan 0 b) = timing_words b)
    by (intros; unfold adjust_dblscan; repeat case_if; reflexivity).
  assert (H3 : forall b, timing_words (adjust_vscan 0 b) = timing_words b)
    by (intros; unfold adjust_vscan; repeat case_if; reflexivity).
  assert (H4 : forall b, timing_words (adjust_stereo 0 b) = timing_words b)
    by (intros; unfold adjust_stereo; cbv zeta; repeat case_if; reflexivity).
  unfold drm_mode_set_crtcinfo. cbv zeta.
  match goal with |- timing_words (crtc_blank ?x) = _ => change (timing_words x = timing_words a) end.
  by rewrite H4, H3, H2, H1.
Qed.

Section Checks.
Context `{HR : !RectOps} `{HP : !PlaneRectOps} `{HL : !Log2Ops} `{AI : !AtomicInlines} `{L : !AtomicInlinesLaws}.
Context (bd : vs_board) (mm : vs_commit) (cur : nat -> vs_plane_state) (brs : nat -> bridge_states).

Abbreviation cm := (vs_commit_in bd mm cur brs).

Lemma stable_vs : stable_encoders (cm_hooks cm).
Proof using. done. Qed.

Lemma vs_core_check_fits plane clips old st : drm_atomic_plane_check plane clips old st = 0 -> is_Some (ps_crtc st) <-> is_Some (ps_fb st).
Proof using.
  unfold drm_atomic_plane_check. intros H. destruct (ps_crtc st), (ps_fb st); [split; intros _; by eexists|done|done|done].
Qed.

(** The driver's checks leave the CRTC and the framebuffer. *)
Lemma vs_checked_plane_same s p :
  ps_crtc (base (vs_checked_plane bd mm cur s p)) = ps_crtc (base (vs_asked_plane mm cur s p))
  /\ ps_fb (base (vs_checked_plane bd mm cur s p)) = ps_fb (base (vs_asked_plane mm cur s p)).
Proof using.
  assert (Hc : forall st cs pos, let st' := (drm_atomic_helper_check_plane_state st cs DRM_PLANE_NO_SCALING
      DRM_PLANE_NO_SCALING pos true).2 in ps_crtc st' = ps_crtc st /\ ps_fb st' = ps_fb st).
  { intros st cs pos. pose proof (check_plane_state_frame st cs DRM_PLANE_NO_SCALING DRM_PLANE_NO_SCALING pos true)
      as (_ & _ & _ & _ & ? & ?). done. }
  assert (Hcur : forall st r st', vs_cursor_plane_atomic_check (vs_new_crtc_state s) (bd_ident bd) st = Some (r, st') ->
            ps_crtc st' = ps_crtc st /\ ps_fb st' = ps_fb st).
  { intros st r st'. unfold vs_cursor_plane_atomic_check. specialize (Hc st (vs_new_crtc_state s (ps_crtc st)) true).
    destruct (drm_atomic_helper_check_plane_state _ _ _ _ _ _) as [ret st1]. cbn in Hc.
    repeat (case_match; try done); intros [= _ <-]; cbn; destruct Hc; split; congruence. }
  assert (Hprim : forall st r st', vs_primary_plane_atomic_check (vs_new_crtc_state s) st = Some (r, st') ->
            ps_crtc (base st') = ps_crtc (base st) /\ ps_fb (base st') = ps_fb (base st)).
  { intros st r st'. unfold vs_primary_plane_atomic_check. specialize (Hc (base st) (vs_new_crtc_state s (ps_crtc (base st))) false).
    destruct (drm_atomic_helper_check_plane_state _ _ _ _ _ _) as [ret st1]. cbn in Hc. cbv zeta.
    repeat (case_match; try done); intros [= _ <-]; cbn; destruct Hc; split; congruence. }
  unfold vs_checked_plane, vs_check_plane. generalize (vs_asked_plane mm cur s p). intros st. destruct (Nat.odd p).
  - destruct (vs_cursor_plane_atomic_check _ _ _) as [[r b]|] eqn:E; [|done]. by apply (Hcur _ _ _ E).
  - destruct (vs_primary_plane_atomic_check _ _) as [[r b]|] eqn:E; [|done]. by apply (Hprim _ _ _ E).
Qed.

(** No check dereferences NULL: without a framebuffer a plane is not visible. *)
Lemma check_plane_total s p : vs_check_plane bd mm cur s p <> None.
Proof using.
  assert (Hv : forall st cs a b c d, visible (drm_atomic_helper_check_plane_state st cs a b c d).2 = true ->
            (drm_atomic_helper_check_plane_state st cs a b c d).1 = 0 ->
            is_Some (ps_fb (drm_atomic_helper_check_plane_state st cs a b c d).2)).
  { intros st cs a b c0 d0. pose proof (check_plane_state_frame st cs a b c0 d0) as (_ & _ & _ & _ & -> & _).
    unfold drm_atomic_helper_check_plane_state. destruct (ps_fb _) eqn:E; [by eexists|]. cbn. done. }
  unfold vs_check_plane. generalize (vs_asked_plane mm cur s p). intros st. destruct (Nat.odd p).
  - unfold vs_cursor_plane_atomic_check.
    match goal with |- context [drm_atomic_helper_check_plane_state ?a ?b ?c ?d ?e ?f] => specialize (Hv a b c d e f) end.
    destruct (drm_atomic_helper_check_plane_state _ _ _ _ _ _) as [ret st1]. cbn in Hv.
    destruct (truthy ret) eqn:Er; [done|]. apply not_truthy in Er. destruct (visible st1); [|done].
    destruct Hv as [fb ->]; [done|done|]. repeat case_match; done.
  - unfold vs_primary_plane_atomic_check.
    match goal with |- context [drm_atomic_helper_check_plane_state ?a ?b ?c ?d ?e ?f] => specialize (Hv a b c d e f) end.
    destruct (drm_atomic_helper_check_plane_state _ _ _ _ _ _) as [ret st1]. cbn in Hv. cbv zeta.
    destruct (truthy ret) eqn:Er; [done|]. apply not_truthy in Er. destruct (visible st1); [|done].
    destruct Hv as [fb ->]; [done|done|]. cbn [negb]. repeat case_match; done.
Qed.

Section Planes.
Context (D : mode_config) (C : config_ok D) (Hmem : mem_ok mm).
Hypothesis Hcur : forall p, (p < mc_num_plane D)%nat -> plane_fits (base (cur p)) /\ ps_crtc (base (cur p)) = mc_plane D p.

Lemma vs_planes_fit s p o n :
  checked_commit cm D = inr s -> as_planes s !! p = Some (o, n) ->
  (p < mc_num_plane D)%nat /\ plane_fits (base (vs_checked_plane bd mm cur s p))
  /\ ps_crtc (base (vs_checked_plane bd mm cur s p)) = n.
Proof using C Hcur Hmem L.
  intros Hck Hp. destruct (checked_commit_spec _ D s C stable_vs Hck) as (Rt & _ & V).
  destruct (wf_plane _ _ (rd_wf _ _ _ Rt) _ _ _ Hp) as [Hlt ->]. split; [done|].
  destruct (vs_checked_plane_same s p) as [E1 E2]. unfold plane_fits, has_memory. rewrite E1, E2. clear E1 E2.
  assert (Hn : cur_plane D s p = n) by (unfold cur_plane; by rewrite Hp).
  split; [|by unfold vs_asked_plane; rewrite Hp].
  destruct (plane_asked (vm_requests mm) p) eqn:Et.
  - apply rbind_inr in Hck as (s1 & H1 & H2).
    destruct (build_planes _ D _ p _ _ H1 (or_intror Et)) as [[o1 n1] Hp1].
    assert (B1 : built D s1) by (eapply build_built; [done|apply empty_built|exact H1]).
    destruct (check_only_stages _ _ D s1 s B1 H2) as (s3 & s5 & _ & _ & _ & Hcore & _).
    pose proof (vs_core_check_fits _ _ _ _ (Hcore p _ Hp1)) as Hf.
    destruct (check_only_checked _ _ D C s1 s stable_vs B1 H2) as (_ & _ & V1 & _).
    pose proof (ve_plane _ _ V1 p) as Hv. cbn in Hv. rewrite Hn in Hv. unfold cur_plane in Hv. rewrite Hp1 in Hv. cbn in Hv. subst n1.
    unfold vs_asked_plane in *. rewrite Et, Hp1 in Hf. rewrite Et, Hp. split; [exact Hf|]. apply (Hmem p).
  - pose proof (ve_plane _ _ V p) as Hv. cbn in Hv. rewrite (asks_plane _ p _ Et), Hn in Hv. cbn in Hv.
    destruct (Hcur p Hlt) as [[Hf Hm] Hc]. unfold vs_asked_plane. rewrite Et, Hp. cbn. rewrite Hv, <- Hc. by split.
Qed.
End Planes.

Lemma hooks_keep_vs : bridges_keep mm -> hooks_keep timing_words (vs_hooks bd mm cur brs).
Proof using.
  intros K. split; try done.
  - intros e c s x m Hx. cbn [hk_bridges_check vs_hooks]. rewrite Hx.
    destruct (vs_chain_check bd mm brs e (cf_mode x) (cf_adjusted_mode x)) as [[[ret st] m']|] eqn:E; [|by intros [= <-]].
    intros [= -> ->]. eapply chain_check_keep; [|exact E]. intros i b. unfold vs_chain.
    destruct (bd_outs bd !! e) as [[c' intf]|]; [|by rewrite lookup_nil]. destruct i as [|i]; [|apply K].
    intros [= <-]. unfold vs_bridge_funcs. destruct (_ =? _); split; try done. by intros f s0 m0 s' m' [= <-] [= _ _ ->].
  - intros c f m a a' [= <-]. unfold vs_crtc_mode_fixup. cbv zeta.
    pose proof (crtcinfo_timing a) as E.
    destruct (_ <=? _); [done|]. intros [= <-]. exact E.
Qed.

Section Routes.
Context (D : mode_config) (s : atomic_state) (C : config_ok D) (Hapart : NoDup (bd_outs bd).*1).
Context (Hk : routes_known bd (mc_num_connector D) (mc_conn D)) (Hck : checked_commit cm D = inr s).

Lemma new_routes_known : routes_known bd (mc_num_connector D) (cur_conn D s).
Proof using C Hk Hck L.
  destruct (checked_commit_spec _ D s C stable_vs Hck) as (R & _ & _).
  intros k c e Hlt Ec Ee. unfold cur_conn, new_conn in Ec, Ee. destruct (as_conns s !! k) as [[o y]|] eqn:Ex; cbn in *.
  - destruct (conn_entry_cur _ _ _ R _ _ _ Ex) as (_ & -> & _).
    destruct (rd_possible _ _ _ R _ _ _ c e Ex Ec Ee) as [[= E1 E2]|H].
    + apply (Hk k); congruence.
    + cbn in H. destruct (bd_outs bd !! e) as [[c' intf]|] eqn:Eo; [|by rewrite Z.land_0_l in H].
      rewrite truthy_land_BIT in H by lia. unfold BIT in H. rewrite Z.shiftl_1_l, Z.pow2_bits_eqb in H by lia.
      apply Z.eqb_eq in H. exists intf. by replace c with c' by lia.
  - by apply (Hk k).
Qed.

(** No connector of the commit but one has the encoder of a route, or its CRTC. *)
Lemma route_once k o y c e :
  as_conns s !! k = Some (o, y) -> cnf_crtc y = Some c -> cnf_encoder y = Some e ->
  (forall k' o' y', as_conns s !! k' = Some (o', y') -> cnf_encoder y' = Some e -> k' = k)
  /\ (forall k' o' y', as_conns s !! k' = Some (o', y') -> cnf_crtc y' = Some c -> k' = k).
Proof using C Hk Hck L Hapart.
  intros Hy Ec Ee. destruct (checked_commit_spec _ D s C stable_vs Hck) as (R & _ & _).
  assert (Hcur : forall k o y, as_conns s !! k = Some (o, y) -> (k < mc_num_connector D)%nat /\ cur_conn D s k = y).
  { intros k' o' y' H. by destruct (conn_entry_cur _ _ _ R _ _ _ H) as (? & _ & ?). }
  destruct (Hcur _ _ _ Hy) as [Hlt Hcy].
  assert (Hone : forall k' o' y', as_conns s !! k' = Some (o', y') -> cnf_encoder y' = Some e -> k' = k).
  { intros k' o' y' Hy' Ee'. destruct (Hcur _ _ _ Hy') as [Hlt' Hcy'].
    apply (rd_apart _ _ _ R k' k e Hlt' Hlt); [by rewrite Hcy'|by rewrite Hcy]. }
  split; [exact Hone|]. intros k' o' y' Hy' Ec'. destruct (Hcur _ _ _ Hy') as [Hlt' Hcy'].
  destruct (proj1 (rd_paired _ _ _ R k' y' ltac:(apply new_conn_Some; by eexists)) ltac:(by eexists)) as [e' Ee'].
  destruct (new_routes_known k' c e') as [i1 Ho1]; [done|by rewrite Hcy'..|].
  destruct (new_routes_known k c e) as [i2 Ho2]; [done|by rewrite Hcy..|].
  assert (e' = e) as -> by (by eapply outs_apart). by eapply Hone.
Qed.

(** What the chain of an encoder accepts, its first bridge can be enabled with. *)
Lemma chain_check_ready e c intf mode m :
  bd_outs bd !! e = Some (c, intf) ->
  exists ret st m', vs_chain_check bd mm brs e mode m = Some (ret, st, m')
  /\ (ret = 0 -> exists b, st !! 0%nat = Some b
      /\ (intf <> VSDC_OUTPUT_INTERFACE_DPI -> vs_bridge_out_dp_fmt_supported (bc_format (output_bus_cfg b)) = true)).
Proof using.
  intros Ho. destruct (chain_first bd mm e c intf Ho) as [Hf Hb0]. unfold vs_chain_check. rewrite Hf.
  assert (Hin : is_Some (br_get_input_bus_fmts (vs_bridge_funcs intf (vm_alloc mm e))))
    by (unfold vs_bridge_funcs; destruct (_ =? _); by eexists).
  destruct (chain_check_first _ _ Hb0 Hin (vm_bus_format mm e) (vm_bus_flags mm e) mode (vm_alloc mm e) (brs e) m)
    as (ret & st & m' & E & Hst). exists ret, st, m'. split; [exact E|]. intros ->. destruct (Hst eq_refl) as [b Hb].
  exists b. split; [done|]. intros Hne. unfold drm_atomic_bridge_chain_check in E.
  destruct (drm_atomic_bridge_chain_select_bus_fmts _ _ _ _ _) as [[r1 st1]|]; [|done]. cbn in E.
  destruct (truthy r1) eqn:Er; [injection E as -> _ _; done|]. injection E as E.
  unfold vs_bridge_funcs in Hb0. rewrite (proj2 (Z.eqb_neq _ _) Hne) in Hb0.
  destruct (check_loop_accepted (vs_chain bd mm e) (vm_bus_flags mm e) mode 0 _
    (fun s m => (vs_bridge_atomic_check_dp (bc_format (output_bus_cfg s)), s, m)) Hb0 eq_refl (fun _ _ => eq_refl) _ _ _ _ _
    (Nat.le_0_l _) E) as (b' & m0 & Hb' & Hok). rewrite Hb in Hb'. injection Hb' as <-.
  change (vs_bridge_atomic_check_dp (bc_format (output_bus_cfg b)) = 0) in Hok.
  unfold vs_bridge_atomic_check_dp in Hok.
  destruct (vs_bridge_out_dp_fmt_supported _) eqn:Es in Hok; [exact Es|discriminate Hok].
Qed.

(** An accepted route's bridge has a state that can be programmed. *)
Lemma new_bridges_ready k o y c e :
  as_conns s !! k = Some (o, y) -> cnf_crtc y = Some c -> cnf_encoder y = Some e ->
  bridge_ready bd (vs_new_bridges bd mm brs D s) e.
Proof using C Hk Hck L Hapart.
  intros Hy Ec Ee c0 intf Ho. destruct (checked_commit_spec _ D s C stable_vs Hck) as (R & _ & _).
  destruct (route_once k o y c e Hy Ec Ee) as [Hone Hone'].
  destruct (conn_entry_cur _ _ _ R _ _ _ Hy) as (Hlt & _ & _).
  destruct (wf_conn_crtcs _ _ (rd_wf _ _ _ R) _ _ _ c Hy (or_intror Ec)) as [[o1 x] Hx].
  assert (Hnx : new_crtc s c = Some x) by (apply new_crtc_Some; by eexists).
  assert (Hny : new_conn s k = Some y) by (apply new_conn_Some; by eexists).
  destruct (commit_passed cm D s k o y c e x C stable_vs Hck Hy Ec Ee Hnx Hone') as (t & z & a & Ht & Em & Ea & Hb).
  cbn [cm_hooks vs_commit_in hk_bridges_check vs_hooks] in Hb. rewrite Ht, Em, Ea in Hb.
  unfold vs_new_bridges. set (serves k := match new_conn s k with Some y => _ | None => false end).
  destruct (find serves (each_conn D)) as [k'|] eqn:Ef.
  2: { assert (Hs : serves k = true) by (unfold serves; rewrite Hny; apply bool_decide_eq_true; exact Ee).
       pose proof (find_none _ _ Ef k) as Hnone. rewrite Hs in Hnone. discriminate Hnone. apply list_elem_of_In. by apply each_conn_in. }
  assert (k' = k) as ->.
  { apply find_some in Ef as [_ Hs]. unfold serves in Hs. destruct (new_conn s k') as [y'|] eqn:Ey'; [|done].
    apply bool_decide_eq_true in Hs. apply new_conn_Some in Ey' as [o' Hy']. by eapply Hone. }
  rewrite Hny. cbn [mbind option_bind]. rewrite Ec. cbn [mbind option_bind]. rewrite Hnx. cbn [mbind option_bind].
  destruct (chain_check_ready e c0 intf (cf_mode x)
    (if mode_changing (cf_st x) then cf_mode x else cf_adjusted_mode (mc_crtc D c)) Ho) as (ret & st & m' & E & Hst).
  rewrite E in Hb |- *. injection Hb as -> _. by apply Hst.
Qed.
End Routes.
End Checks.

(** ** The display through commits *)

(** The outputs show a view: of an active CRTC the panel runs - if a connector is routed to
    it -, the CRTC scans out, the pixel clock is enabled once, vblanks are on, and the
    timing registers hold the words of its mode; of any other all of it is off. *)
Record outputs_show (n : nat) (v : view) (c : nat) (o : out) : Prop := {
  os_run : o_run o = true <-> v_active v c = true /\ exists k, (k < n)%nat /\ v_conn v k = Some c;
  os_scan : o_scan o = switch (v_active v c) (o_scan o);
  os_vblank : o_vblank o = v_active v c;
  os_clock : o_clock o = Z.b2z (v_active v c);
  os_timing : v_active v c = true -> o_timing o = timing_words (v_mode v c)
}.

#[export] Instance outputs_show_proper n : Proper ((≡@{view}) ==> (=) ==> (=) ==> iff) (outputs_show n).
Proof.
  assert (H : forall v w c o, v ≡ w -> outputs_show n v c o -> outputs_show n w c o).
  { intros v w c o [Hc _ Ha Hm] [H1 H2 H3 H4 H5]. split; rewrite <- ?Ha, <- ?Hm; [|done..].
    rewrite H1. by setoid_rewrite Hc. }
  intros v w E c _ <- o _ <-. split; by apply H.
Qed.

(** The board of a chip: an encoder for an output at most. *)
Definition board_ok (bd : vs_board) : Prop := NoDup (bd_outs bd).*1.

Section Follows.
Context {R : Type} `{Ho : !RegmapOps R} `{Hl : !RegmapLaws R} `{HR : !RectOps} `{HP : !PlaneRectOps} `{HL : !Log2Ops}.
Context `{AI : !AtomicInlines} `{L : !AtomicInlinesLaws} (bd : vs_board) (Hbd : board_ok bd).

(** The one commit the driver cannot carry out: a primary plane gets a CRTC, and is
    nowhere visible on it.  Its update then disables the plane of the CRTC that it had. *)
Definition hides_new_primary (mm : vs_commit) (s : atomic_state) (d : vs_display (R := R)) : bool :=
  existsb (fun '(p, x) => match x with
                          | (None, Some _) => negb (Nat.odd p) && negb (visible (base (vs_new_plane bd mm s d p)))
                          | _ => false
                          end) (map_to_list (as_planes s)).

Definition crashes (mm : vs_commit) (D : mode_config) (d : vs_display (R := R)) : Prop :=
  exists s, checked_commit (vs_in bd mm d) D = inr s /\ vm_test_only mm = false /\ vm_prepare mm = 0
  /\ hides_new_primary mm s d = true.

(** What holds between commits. *)
Record vs_inv (D : mode_config) (d : vs_display (R := R)) : Prop := {
  vi_config : config_ok D;
  vi_crtcs : (mc_num_crtc D <= 2)%nat;
  vi_routes : routes_known bd (mc_num_connector D) (mc_conn D);
  vi_adjusted : adjusted_ok timing_words D;
  vi_plane p : (p < mc_num_plane D)%nat -> plane_fits (base (vd_plane d p)) /\ ps_crtc (base (vd_plane d p)) = mc_plane D p;
  vi_timing c : (c < mc_num_crtc D)%nat -> st_enable (cf_st (mc_crtc D c)) = true ->
    o_timing (out_of bd d c) = timing_words (cf_mode (mc_crtc D c));
  vi_pipe : exists P, shows D P /\ sim bd P (out_of bd d)
}.

Lemma inv_shows D d c : vs_inv D d -> (c < mc_num_crtc D)%nat ->
  outputs_show (mc_num_connector D) (view_of D) c (out_of bd d c).
Proof using.
  intros I Hc. pose proof (vi_crtcs _ _ I) as Hn. assert (Hc2 : (c < 2)%nat) by lia.
  destruct (vi_pipe _ _ I) as (P & S & M).
  assert (Hon : bool_decide (c ∈ pl_on P) = st_active (cf_st (mc_crtc D c))).
  { destruct (st_active _) eqn:E; [apply bool_decide_eq_true|apply bool_decide_eq_false]; rewrite (sh_on _ _ S); [done|].
    intros [_ ?]. congruence. }
  split; cbn.
  - rewrite (sim_run _ _ _ M c Hc2). split.
    + intros [e He]. apply (sh_encoders _ _ S) in He as (_ & Hin & k & Hk & Ec & _).
      apply (sh_on _ _ S) in Hin as [_ Hin]. split; [done|]. by exists k.
    + intros [Ha (k & Hk & Ec)]. destruct (proj1 (ok_paired _ (vi_config _ _ I) k Hk) ltac:(by eexists)) as [e Ee].
      exists e. apply (sh_encoders _ _ S). split_and!; [done|by apply (sh_on _ _ S)|by exists k].
  - rewrite <- Hon. by apply (sim_scan _ _ _ M).
  - rewrite <- Hon. by apply (sim_vblank _ _ _ M).
  - rewrite <- Hon. by apply (sim_clock _ _ _ M).
  - intros Ha. apply (vi_timing _ _ I); [done|]. by apply (ok_active _ (vi_config _ _ I)).
Qed.

Section Step.
Context (mm : vs_commit) (D : mode_config) (d : vs_display (R := R)) (s : atomic_state).
Context (Hkeep : bridges_keep mm) (Hmem : mem_ok mm) (I : vs_inv D d).
Context (Hck : checked_commit (vs_in bd mm d) D = inr s).

Abbreviation u := (update_of D s).
Abbreviation new := (vs_new_plane bd mm s d).
Abbreviation nb := (vs_new_bridges bd mm (vd_bridges d) D s).
Abbreviation adj := (fun c => cf_adjusted_mode (mc_crtc (swap D s) c)).
Abbreviation tail := (drm_atomic_helper_commit_tail vs_commit_driver u).

Lemma checked_routed : routed (cm_hooks (vs_in bd mm d)) D s.
Proof using Hck I L. by destruct (checked_commit_spec _ D s (vi_config _ _ I) (stable_vs bd mm _ _) Hck) as (? & _). Qed.

Lemma vs_new_planes p : (p < mc_num_plane D)%nat -> plane_fits (base (new p)) /\ ps_crtc (base (new p)) = cur_plane D s p.
Proof using Hck I L Hmem.
  intros Hp. unfold vs_new_plane, cur_plane. destruct (as_planes s !! p) as [[o n]|] eqn:E; [|by apply (vi_plane _ _ I)].
  destruct (vs_planes_fit bd mm (vd_plane d) (vd_bridges d) D (vi_config _ _ I) Hmem (vi_plane _ _ I) s p o n Hck E) as (_ & ? & ?).
  done.
Qed.

Lemma crtc_two c : (c < mc_num_crtc D)%nat -> (c < 2)%nat.
Proof using I. pose proof (vi_crtcs _ _ I). lia. Qed.

Lemma fits_shows st c : plane_fits st -> ps_crtc st = Some c -> (c < 2)%nat -> shows_fb st.
Proof using.
  intros [Hf Hm] Hc Hlt. destruct (proj1 Hf ltac:(by eexists)) as [fb Hfb]. exists c, fb. split_and!; [done..|by apply Hm].
Qed.

(** The CRTCs of a plane of the commit. *)
Lemma plane_crtcs p o n : as_planes s !! p = Some (o, n) ->
  (p < mc_num_plane D)%nat /\ ps_crtc (base (vd_plane d p)) = o /\ ps_crtc (base (new p)) = n
  /\ (forall c, o = Some c \/ n = Some c -> (c < 2)%nat).
Proof using Hck I L Hmem.
  intros E. pose proof checked_routed as Rt. destruct (wf_plane _ _ (rd_wf _ _ _ Rt) _ _ _ E) as [Hp ->].
  destruct (vs_new_planes p Hp) as [_ Hn]. unfold cur_plane in Hn. rewrite E in Hn. split_and!; [done|by apply (vi_plane _ _ I)|done|].
  intros c Hc. destruct (wf_plane_crtcs _ _ (rd_wf _ _ _ Rt) _ _ _ c E Hc) as [[o' x] Hx]. apply crtc_two.
  by apply (wf_crtc _ _ (rd_wf _ _ _ Rt)) in Hx as [? _].
Qed.

(** The calls of the tail are good, unless a new primary plane is hidden. *)
Lemma vs_tail_good : hides_new_primary mm s d = false -> Forall (good_call bd new (vd_plane d) nb) tail.
Proof using Hbd Hck I L Hmem.
  intros Hh. pose proof checked_routed as Rt. pose proof (vi_config _ _ I) as C.
  assert (Hcr : forall x, x ∈ au_crtcs u -> (ce_id x < 2)%nat).
  { intros x (c & o & y & Hx & ->)%(in_crtcs _ _ _ Rt). apply crtc_two. by apply (wf_crtc _ _ (rd_wf _ _ _ Rt)) in Hx as [? _]. }
  assert (Hnew : forall e c, new_link u e c -> exists k o y, as_conns s !! k = Some (o, y) /\ cnf_crtc y = Some c
            /\ cnf_encoder y = Some e /\ (exists intf, bd_outs bd !! e = Some (c, intf)) /\ (c < 2)%nat).
  { intros e c (cn & (k & o & y & Hx & ->)%(in_connectors _ _ _ Rt) & Ec & Ee). cbn in Ec, Ee. exists k, o, y.
    destruct (conn_entry_cur _ _ _ Rt _ _ _ Hx) as (Hk & _ & Hy). split_and!; [done..| |].
    - apply (new_routes_known bd mm (vd_plane d) (vd_bridges d) D s C (vi_routes _ _ I) Hck k); [done|by rewrite Hy..].
    - destruct (wf_conn_crtcs _ _ (rd_wf _ _ _ Rt) _ _ _ c Hx (or_intror Ec)) as [[o' x] Hx']. apply crtc_two.
      by apply (wf_crtc _ _ (rd_wf _ _ _ Rt)) in Hx' as [? _]. }
  apply tail_forall. split.
  - intros e c (cn & (k & o & y & Hx & ->)%(in_connectors _ _ _ Rt) & Ec & Ee). cbn in Ec, Ee.
    destruct (conn_entry_cur _ _ _ Rt _ _ _ Hx) as (Hk & -> & _).
    assert (H : (exists intf, bd_outs bd !! e = Some (c, intf)) /\ (c < 2)%nat).
    { split; [by apply (vi_routes _ _ I k)|]. apply crtc_two. by apply (ok_conn_crtc _ C k). }
    by split.
  - intros e c (k & o & y & Hy & Ec & Ee & Hb & Hc)%Hnew. cbn. split_and!; try done.
    by apply (new_bridges_ready bd mm (vd_plane d) (vd_bridges d) D s C Hbd (vi_routes _ _ I) Hck k o y c).
  - intros x Hx%Hcr. by repeat split.
  - intros x Hx%Hcr _ _. done.
  - intros p c (i & o & y & Hp & ->)%in_planes. cbn. intros ->.
    destruct (plane_crtcs _ _ _ Hp) as (Hlt & Eo & En & Hc). split.
    + destruct (vs_new_planes i Hlt) as [Hf _]. eapply fits_shows; [done|exact En|apply Hc; by right].
    + intros Hodd Hvis. destruct o as [c'|]; [exists c'; split; [done|apply Hc; by left]|]. exfalso.
      assert (Hex : hides_new_primary mm s d = true); [|congruence]. apply existsb_exists.
      exists (i, (None, Some c)). split; [by apply list_elem_of_In, elem_of_map_to_list|]. by rewrite Hodd, Hvis.
  - intros p c (i & o & y & Hp & ->)%in_planes. cbn. intros ->.
    destruct (plane_crtcs _ _ _ Hp) as (Hlt & Eo & En & Hc). exists c. split; [done|apply Hc; by right].
  - intros p c (i & o & y & Hp & ->)%in_planes. cbn. intros ->.
    destruct (plane_crtcs _ _ _ Hp) as (Hlt & Eo & En & Hc). exists c. split; [done|apply Hc; by left].
  - intros c b l. by repeat split.
Qed.

Lemma good_of_board k : good_call bd new (vd_plane d) nb k -> of_board bd k.
Proof using. destruct k; cbn; try done. by intros (? & ? & _). Qed.

(** The timings of the CRTCs that are enabled are those of their modes. *)
Lemma timing_follows c (T0 : list Z) :
  (c < mc_num_crtc D)%nat -> st_enable (cf_st (mc_crtc (swap D s) c)) = true ->
  (st_enable (cf_st (mc_crtc D c)) = true -> T0 = timing_words (cf_mode (mc_crtc D c))) ->
  (if decide (CrtcModeSet c ∈ tail) then timing_words (adj c) else T0) = timing_words (cf_mode (mc_crtc (swap D s) c)).
Proof using Hck I L Hkeep.
  intros Hc He HT. pose proof checked_routed as Rt.
  destruct (commit_step timing_words _ D s (vi_config _ _ I) (stable_vs bd mm _ _)
              (hooks_keep_vs bd mm (vd_plane d) (vd_bridges d) Hkeep) (vi_adjusted _ _ I) Hck) as [Hst _].
  cbn [swap mc_crtc] in *. destruct (as_crtcs s !! c) as [[o x]|] eqn:E; cbn in *.
  - destruct (wf_crtc _ _ (rd_wf _ _ _ Rt) _ _ _ E) as (_ & -> & _).
    assert (Hx : mkce c (cf_st (mc_crtc D c)) (cf_st x) ∈ au_crtcs u) by (apply (in_crtcs _ _ _ Rt); by eexists _, _, _).
    case_decide as Hin.
    + apply (Hst c x). apply new_crtc_Some. by eexists.
    + destruct (st_mode_changed (cf_st x)) eqn:Em.
      { destruct Hin. apply mode_set_in. by eexists. }
      destruct (rd_fine _ _ _ Rt _ _ _ E) as (_ & Hfine & _).
      destruct (drm_mode_equal (Some (cf_mode (mc_crtc D c))) (Some (cf_mode x))) eqn:Eq.
      * apply mode_equal_iff in Eq. destruct (st_enable (cf_st (mc_crtc D c))) eqn:Eo.
        -- rewrite HT by done. by apply vs_timing_words_proper.
        -- rewrite Hfine in Em; [done|]. intros [_ ?]. congruence.
      * rewrite Hfine in Em; [done|]. rewrite <- mode_equal_iff, Eq. by intros [? _].
  - rewrite decide_False; [by apply HT|]. intros (x & (c' & o & y & Hx & ->)%(in_crtcs _ _ _ Rt) & <- & _)%mode_set_in.
    cbn in E. congruence.
Qed.

(** A commit that is carried out. *)
Lemma commit_follows : hides_new_primary mm s d = false ->
  exists d', vs_tail_calls bd mm adj new nb tail d = Some d'
  /\ vs_inv (swap D s) {| d' with vd_plane := new; vd_bridges := nb |}.
Proof using Hbd Hck I L Hl Hkeep Hmem.
  intros Hh. pose proof (vs_tail_good Hh) as Hg. pose proof checked_routed as Rt. pose proof (vi_config _ _ I) as C.
  destruct (vs_calls_refine bd mm adj new nb tail d Hg) as (d' & E & Hp & Hout). exists d'. split; [exact E|].
  destruct (vi_pipe _ _ I) as (P & S & M).
  destruct (commit_shown vs_commit_driver (vs_in bd mm d) D P s) as (P' & Hrun & C' & S');
    [by intros c|apply stable_vs|done|done|done|].
  assert (Hb : Forall (of_board bd) tail) by (eapply Forall_impl; [exact Hg|]; intros k; apply good_of_board).
  pose proof (sim_run_calls bd Hbd _ (fun c => timing_words (adj c)) _ _ _ _ Hrun Hb M) as M'.
  destruct (commit_step timing_words _ D s C (stable_vs bd mm _ _)
              (hooks_keep_vs bd mm (vd_plane d) (vd_bridges d) Hkeep) (vi_adjusted _ _ I) Hck) as [_ Ha].
  assert (Eo : forall c, out_of bd {| d' with vd_plane := new; vd_bridges := nb |} c = out_of bd d' c) by done.
  split; [done|apply (vi_crtcs _ _ I)| |done| | |].
  - intros k c e Hk. rewrite !swap_conn. by apply (new_routes_known bd mm (vd_plane d) (vd_bridges d) D s C (vi_routes _ _ I) Hck).
  - intros p Hp'. destruct (vs_new_planes p Hp') as [H1 H2]. split; [exact H1|]. cbn [vd_plane]. rewrite H2.
    unfold cur_plane. cbn. by destruct (as_planes s !! p) as [[]|].
  - intros c Hc He. rewrite Eo, (Hout c (crtc_two c Hc)), timing_after. apply timing_follows; [done|done|].
    by apply (vi_timing _ _ I).
  - exists P'. split; [done|]. destruct M' as [M1 M2 M3 M4 M5].
    split; [..|exact M5]; intros c Hc; rewrite Eo, (Hout c Hc); by auto.
Qed.

(** And one that is not. *)
Lemma call_planes (a : nat -> drm_display_mode) (n : nat -> vs_plane_state) (b : nat -> bridge_states) k d1 d2 :
  vs_tail_call bd mm a n b k d1 = Some d2 -> vd_plane d2 = vd_plane d1.
Proof using.
  destruct k; cbn; cbv zeta; try (by intros [= <-]); intros (r & _ & ->)%fmap_Some; done.
Qed.

Lemma calls_stop k l : forall (d1 : vs_display (R := R)), k ∈ l ->
  (forall d2, vd_plane d2 = vd_plane d1 -> vs_tail_call bd mm adj new nb k d2 = None) -> vs_tail_calls bd mm adj new nb l d1 = None.
Proof using.
  induction l as [|k' l IH]; intros d1; [by intros ?%not_elem_of_nil|]. intros Hin Hk. cbn [vs_tail_calls].
  destruct (vs_tail_call bd mm adj new nb k' d1) as [d2|] eqn:E; cbn [mbind option_bind]; [|done]. pose proof (call_planes _ _ _ _ _ _ E) as Ep.
  apply elem_of_cons in Hin as [->|Hin]; [by rewrite Hk in E|]. apply IH; [done|]. intros d3 E3. apply Hk. by rewrite E3.
Qed.

Lemma commit_stops : hides_new_primary mm s d = true -> vs_tail_calls bd mm adj new nb tail d = None.
Proof using Hck I L Hmem.
  intros [[p [o n]] [Hin Hx]]%existsb_exists. apply list_elem_of_In, elem_of_map_to_list in Hin.
  destruct o as [|], n as [c|]; try done.
  apply andb_true_iff in Hx as [Hodd%negb_true_iff Hvis%negb_true_iff].
  destruct (plane_crtcs _ _ _ Hin) as (Hlt & Eo & _).
  apply (calls_stop (PlaneUpdate p None (Some c))).
  - unfold drm_atomic_helper_commit_tail, drm_atomic_helper_commit_planes. rewrite !elem_of_app. right. left. right. left.
    apply list_elem_of_bind. exists (mkpe p None (Some c)). split.
    + unfold commit_plane. cbn. rewrite plane_disabling_spec. cbn. left.
    + cbn. apply list_elem_of_omap. exists p. split; [by apply elem_of_seq; lia|]. by rewrite Hin.
  - intros d2 E2. cbn [vs_tail_call]. rewrite Hodd. unfold vs_primary_plane_atomic_update. rewrite Hvis. cbn [negb].
    unfold vs_primary_plane_atomic_disable. by rewrite E2, Eo.
Qed.
End Step.

Lemma vs_ioctl_follows mm D (d : vs_display (R := R)) : bridges_keep mm -> mem_ok mm -> vs_inv D d ->
  (vs_atomic_ioctl bd mm D d = None <-> crashes mm D d)
  /\ (forall ret D' d', vs_atomic_ioctl bd mm D d = Some (ret, D', d') ->
      vs_inv D' d' /\ mc_num_connector D' = mc_num_connector D /\ mc_num_crtc D' = mc_num_crtc D
      /\ view_of D' ≡ asked [vs_in bd mm d] [ret] (view_of D)).
Proof using Hbd L Hl.
  intros Hk Hm I. unfold vs_atomic_ioctl, crashes. destruct (checked_commit (vs_in bd mm d) D) as [err|s] eqn:E.
  { split; [split; [done|by intros (s & ? & _)]|]. by intros ret D' d' [= <- <- <-]. }
  cbn [asked cm_test_only vs_in vs_commit_in]. destruct (vm_test_only mm) eqn:Et.
  { split; [split; [done|by intros (s' & _ & ? & _)]|]. by intros ret D' d' [= <- <- <-]. }
  destruct (truthy (vm_prepare mm)) eqn:Ep.
  { split; [split; [done|intros (s' & _ & _ & H & _); by rewrite H in Ep]|]. by intros ret D' d' [= <- <- <-]. }
  apply not_truthy in Ep. cbv zeta. destruct (hides_new_primary mm s d) eqn:Eh.
  - rewrite (commit_stops mm D d s Hm I E Eh). cbn [mbind option_bind].
    split; [|done]. split; [intros _; by exists s|done].
  - destruct (commit_follows mm D d s Hk Hm I E Eh) as (d1 & -> & I1). cbn [mbind option_bind].
    split; [split; [done|intros (s' & [= <-] & _ & _ & H); congruence]|].
    intros ret D' d' [= <- <- <-]. split_and!; [done..|].
    destruct (checked_commit_spec _ D s (vi_config _ _ I) (stable_vs bd mm _ _) E) as (_ & _ & V). by rewrite swap_view.
Qed.

(** What is asked does not depend on the device. *)
Lemma asked_vs ms (d1 d2 : vs_display (R := R)) : forall rets v w, v ≡ w ->
  asked ((fun mm => vs_in bd mm d1) <$> ms) rets v ≡ asked ((fun mm => vs_in bd mm d2) <$> ms) rets w.
Proof using.
  induction ms as [|mm ms IH]; intros [|[r|] rets] v w Hv; cbn; try done; apply IH; [done|].
  destruct (vm_test_only mm); [done|by apply asks_proper].
Qed.
End Follows.

(** ** The theorem *)

(** C3: from a state in which the outputs of a Verisilicon display show the configuration,
    every sequence of atomic commits - whatever user space asks for, whatever is refused
    or fails, on either generation, over DPI or DP, with any bridges behind - runs through
    the driver's handlers without a NULL dereference, unless it comes to a commit that
    gives a primary plane a CRTC on which it is nowhere visible: exactly those crash.
    Afterwards each CRTC shows what the commits that were neither refused nor only tests
    asked for: its scan-out, its pixel clock and its vblanks are on exactly if it is
    active, its panel runs exactly if a connector is routed to it besides, and the
    timing registers then hold the words of its mode; and the state is such again.  The
    bridges behind the driver's are assumed to leave the timings alone, and the
    framebuffers to have memory.  (A pixel clock is on when its enabling has been called
    for: the code only warns when that fails.) *)
Theorem vs_display_follows {R} `{Ho : !RegmapOps R} `{Hl : !RegmapLaws R} `{HR : !RectOps} `{HP : !PlaneRectOps}
    `{HL : !Log2Ops} `{AI : !AtomicInlines} `{L : !AtomicInlinesLaws} bd ms D (d : vs_display (R := R)) :
  board_ok bd -> Forall bridges_keep ms -> Forall mem_ok ms -> vs_inv bd D d ->
  (vs_session bd ms D d = None
   <-> exists ms1 mm ms2 rets D1 d1, ms = ms1 ++ mm :: ms2 /\ vs_session bd ms1 D d = Some (rets, D1, d1) /\ crashes bd mm D1 d1)
  /\ (forall rets D' d', vs_session bd ms D d = Some (rets, D', d') ->
      length rets = length ms /\ vs_inv bd D' d'
      /\ forall c, (c < mc_num_crtc D)%nat ->
         outputs_show (mc_num_connector D) (asked ((fun mm => vs_in bd mm d) <$> ms) rets (view_of D)) c (out_of bd d' c)).
Proof.
  intros Hbd. revert D d. induction ms as [|mm ms IH]; intros D d Hk Hm I.
  { split; [split; [done|by intros ([] & ? & ? & ? & ? & ? & ? & _)]|]. intros rets D' d' [= <- <- <-].
    split_and!; [done|done|]. intros c Hc. by apply inv_shows. }
  apply Forall_cons in Hk as [Hk Hks]. apply Forall_cons in Hm as [Hm Hms].
  destruct (vs_ioctl_follows bd Hbd mm D d Hk Hm I) as [Hnone Hsome]. cbn [vs_session].
  destruct (vs_atomic_ioctl bd mm D d) as [[[ret D1] d1]|] eqn:E; cbn [mbind option_bind].
  2: { split; [|done]. split; [intros _|done]. exists [], mm, ms, [], D, d. split_and!; [done..|by apply Hnone]. }
  destruct (Hsome _ _ _ eq_refl) as (I1 & En & Ec & V). destruct (IH D1 d1 Hks Hms I1) as [IHn IHs].
  split.
  - transitivity (vs_session bd ms D1 d1 = None); [by destruct (vs_session bd ms D1 d1) as [[[? ?] ?]|]|]. rewrite IHn. split.
    + intros (ms1 & m & ms2 & rets & D2 & d2 & -> & Hs & Hc). exists (mm :: ms1), m, ms2, (ret :: rets), D2, d2.
      split_and!; [done| |done]. cbn [vs_session]. rewrite E. cbn [mbind option_bind]. by rewrite Hs.
    + intros ([|m' ms1] & m & ms2 & rets & D2 & d2 & [= -> ->] & Hs & Hc).
      * cbn in Hs. injection Hs as <- <- <-. by apply Hnone in Hc.
      * cbn [vs_session] in Hs. rewrite E in Hs. cbn [mbind option_bind] in Hs.
        destruct (vs_session bd ms1 D1 d1) as [[[rets' D3] d3]|] eqn:E3; [|done]. injection Hs as <- <- <-.
        by exists ms1, m, ms2, rets', D3, d3.
  - intros rets D' d' H. destruct (vs_session bd ms D1 d1) as [[[rets1 D2] d2]|]; [|done]. injection H as <- <- <-.
    destruct (IHs _ _ _ eq_refl) as (Hn & I2 & Hshow). split_and!; [cbn; by rewrite Hn|done|].
    intros c Hc. rewrite <- Ec in Hc. specialize (Hshow c Hc). rewrite En in Hshow. eapply outputs_show_proper, Hshow; [|done..].
    rewrite (asked_vs bd ms d1 d rets1 _ _ V). by destruct ret.
Qed.

(** ** A session *)

#[local] Open Scope nat_scope.
#[local] Existing Instance documented_inlines.
#[local] Existing Instance documented_laws.

(** Nothing is on. *)
Definition vs_dark : mode_config :=
  mkmc 2 2 4 (fun _ => dark_crtc) (fun _ => mkcnf None None 0 0 None false) (fun _ => None).

(** A chip of two outputs: a panel over DPI, and a bridge over DP. *)
Definition vs_two_outputs : vs_board :=
  mkboard vs_ident_8200 [(0, VSDC_OUTPUT_INTERFACE_DPI); (1, VSDC_OUTPUT_INTERFACE_DP)].

(** The whole of a framebuffer at a place, and a plane that is off. *)
Definition fb_at (x : Z) : drm_plane_state :=
  mkps (Some 0) (Some (vs_argb_fb 800 480)) x 0 800 480 0 0 (800 * 65536) (480 * 65536) 0 0 0 DRM_MODE_ROTATE_0
    (mkrect 0 0 0 0) (mkrect 0 0 0 0) false.
Definition vs_off : vs_plane_state :=
  let s := fb_at 0 in mkvsps {| s with ps_crtc := None; ps_fb := None |} (mkvsfmt 0 0 false).

Definition vs_booted : vs_display (R := regfile) :=
  mkvd regfile0 (fun _ => []) (fun _ => vs_off)
       (fun _ => {[ 0 := fmt_state MEDIA_BUS_FMT_FIXED; 1 := fmt_state MEDIA_BUS_FMT_FIXED ]}).

(** Behind the second output sits a bridge that takes anything. *)
Definition vs_commit_of (x : Z) (rs : list request) : vs_commit :=
  mkvm no_failure rs true false 0 (fun _ => fb_at x) (fun _ => []) (fun _ => false) (fun _ => None) (fun _ r => r)
       (fun _ => true) (fun _ => 0%Z) (fun e => if Nat.eqb e 1 then [plain_bridge false] else [])
       (fun _ => None) (fun _ => DRM_BUS_FLAG_DE_LOW).

Definition vs_both_on (x : Z) : vs_commit :=
  let on c p := [SetMode c (Some (mkblob 7 (Some mode_800x480))); SetActive c true;
                 SetConnectorCrtc c (Some c); SetPlaneCrtc p (Some c)] in
  vs_commit_of x (on 0 0 ++ on 1 2).

(** Both outputs are switched on; the second CRTC is switched off again. *)
Definition vs_session_on : list vs_commit := [vs_both_on 0; vs_commit_of 0 [SetActive 1 false]].

(** What they show after one commit and after two; and a commit whose planes lie beside
    the screen. *)
Example vs_outputs_shown :
  let after ms := (fun x => (x.1.1, (fun c => let o := out_of vs_two_outputs x.2 c in (o_run o, o_clock o, o_vblank o)) <$> [0; 1]))
                  <$> vs_session vs_two_outputs ms vs_dark vs_booted in
  after [vs_both_on 0] = Some ([None], [(true, 1%Z, true); (true, 1%Z, true)])
  /\ after vs_session_on = Some ([None; None], [(true, 1%Z, true); (false, 0%Z, false)])
  /\ after [vs_both_on 1000] = None.
Proof. vm_compute. split_and!; reflexivity. Qed.

Lemma vs_booted_ok : vs_inv vs_two_outputs vs_dark vs_booted.
Proof.
  split; try done.
  - split; cbn; try done.
    + intros c k Hc Hk. apply Z.bits_0.
    + intros c e Hc. rewrite Z.bits_0. split; [done|]. by intros (k & _ & ? & _).
  - intros p _. split; [|done]. split; [|done]. by split; intros [? ?].
  - exists (mkpl ∅ ∅). split.
    + split; cbn.
      * intros c. split; [by intros ?%not_elem_of_empty|by intros [_ ?]].
      * intros e st c. rewrite lookup_empty. split; [done|]. by intros (_ & ?%not_elem_of_empty & _).
    + split; cbn; try done. intros c Hc. split; [|by intros [e He]]. by destruct c as [|[|c]]; [| |lia].
Qed.

Lemma vs_display_follows_witness :
  board_ok vs_two_outputs /\ Forall bridges_keep vs_session_on /\ Forall mem_ok vs_session_on
  /\ vs_inv vs_two_outputs vs_dark vs_booted
  /\ exists rets D' d', vs_session vs_two_outputs vs_session_on vs_dark vs_booted = Some (rets, D', d')
     /\ forall c, c < 2 -> outputs_show 2 (asked ((fun mm => vs_in vs_two_outputs mm vs_booted) <$> vs_session_on) rets (view_of vs_dark))
                             c (out_of vs_two_outputs d' c).
Proof.
  assert (Hb : board_ok vs_two_outputs) by (apply (bool_decide_unpack _); vm_compute; exact I).
  assert (Hk : Forall bridges_keep vs_session_on).
  { assert (H : forall x rs, bridges_keep (vs_commit_of x rs)); [|exact (Forall_cons_2 _ _ _ (H _ _) (Forall_cons_2 _ _ _ (H _ _) (Forall_nil_2 _)))].
    intros x rs e i b. cbn. destruct (Nat.eqb e 1), i; cbn; [|done..]. by intros [= <-]. }
  assert (Hm : Forall mem_ok vs_session_on).
  { assert (H : forall x rs, mem_ok (vs_commit_of x rs)); [|exact (Forall_cons_2 _ _ _ (H _ _) (Forall_cons_2 _ _ _ (H _ _) (Forall_nil_2 _)))].
    intros x rs p fb. cbn. intros [= <-]. by eexists. }
  destruct (vs_display_follows vs_two_outputs vs_session_on vs_dark vs_booted Hb Hk Hm vs_booted_ok) as [_ H].
  split_and!; [exact Hb|exact Hk|exact Hm|exact vs_booted_ok|].
  assert (Hs : match vs_session vs_two_outputs vs_session_on vs_dark vs_booted with Some _ => true | None => false end = true)
    by (vm_compute; reflexivity).
  destruct (vs_session vs_two_outputs vs_session_on vs_dark vs_booted) as [[[rets D'] d']|].
  - exists rets, D', d'. split; [reflexivity|]. by apply (H rets D' d' eq_refl).
  - discriminate Hs.
Defined.
