(* ===== verification/PhyMa35.v ===== *)
(** * PhyMa35: the USB PHY drivers of the MA35D1
      (src/phy/nuvoton/phy-ma35d1-otg.c, phy-ma35d1-usb2.c)

    The PHY registers have bits the hardware drives, the clock-stable bits;
    everything is stated for registers with those bits volatile (KernelApi). *)

From S2P Require Export KernelApi.

(** ** phy-ma35d1-otg.c *)

Definition MA35_SYS_PWRONOTP : Z := 0x04.
Definition MA35_SYS_USBPMISCR : Z := 0x60.
Definition MA35_SYS_MISCFCR0 : Z := 0x70.
Definition PWRONOTP_USBP0ID : Z := BIT 16.
Definition USBPMISCR_PHY_POR (n : Z) : Z := BIT (0 + n * 16).
Definition USBPMISCR_PHY_SUSPEND (n : Z) : Z := BIT (1 + n * 16).
Definition USBPMISCR_PHY_COMN (n : Z) : Z := BIT (2 + n * 16).
Definition USBPMISCR_PHY_HSTCKSTB (n : Z) : Z := BIT (8 + n * 16).
Definition USBPMISCR_PHY_CK12MSTB (n : Z) : Z := BIT (9 + n * 16).
Definition USBPMISCR_PHY_DEVCKSTB (n : Z) : Z := BIT (10 + n * 16).
Definition USBPMISCR_PHY_CTL_MASK (n : Z) : Z := 0x7 .<< (n * 16).
Definition USBPMISCR_PHY_HOST_READY (n : Z) : Z :=
  USBPMISCR_PHY_SUSPEND n .| USBPMISCR_PHY_HSTCKSTB n .| USBPMISCR_PHY_CK12MSTB n.
Definition USBPMISCR_RCAL_SHIFT (n : Z) : Z := 12 + n * 16.
Definition USBPMISCR_RCAL_MASK (n : Z) : Z :=
  GENMASK (USBPMISCR_RCAL_SHIFT n + 3) (USBPMISCR_RCAL_SHIFT n).
Definition MISCFCR0_UHOVRCURH : Z := BIT 12.

Inductive usb_role : Set := USB_ROLE_NONE | USB_ROLE_HOST | USB_ROLE_DEVICE.

(** [struct ma35_otg_phy]; the role switch is a pointer, 0 for NULL. *)
Record ma35_otg_phy := mkotg { phy_idx : Z; role_sw : Z; cur_role : usb_role }.

Inductive phy_call : Set :=
| PKzalloc | PSysconLookup | PSysArg | PClkGet
| PReadRcal | PRcalValue | PReadOcHigh
| PPhyCreate | PProviderRegister | PRoleSwitchRegister | PRoleSwitchUnregister
| PClkEnable | PClkDisable.

Definition pprog (A : Type) : Type := prog phy_call A.

Section Otg.
Context {D : Type} `{!RegmapOps D} `{!PollOps D}.

Definition ma35_otg_phy_init (p : ma35_otg_phy) (d : D) : Z * D :=
  let n := phy_idx p in
  let ready_mask := USBPMISCR_PHY_HOST_READY n in
  let val := regmap_read d MA35_SYS_USBPMISCR in
  if val .& ready_mask =? ready_mask then (0, d)
  else
    let d := regmap_update_bits d MA35_SYS_USBPMISCR (USBPMISCR_PHY_CTL_MASK n)
               (USBPMISCR_PHY_POR n .| USBPMISCR_PHY_SUSPEND n) in
    let d := msleep d 20 in
    let d := regmap_update_bits d MA35_SYS_USBPMISCR (USBPMISCR_PHY_CTL_MASK n)
               (USBPMISCR_PHY_SUSPEND n) in
    let '(ret, val, d) :=
      regmap_read_poll_timeout d MA35_SYS_USBPMISCR
        (fun val => val .& ready_mask =? ready_mask) 20000 500000 in
    if truthy ret then (ret, d) else (0, d).

Definition ma35_otg_phy_power_on : pprog Z := ext PClkEnable.
Definition ma35_otg_phy_power_off : pprog Z := do* ext PClkDisable in pret 0.

Definition ma35_otg_read_id (d : D) : usb_role :=
  let val := regmap_read d MA35_SYS_PWRONOTP in
  if truthy (val .& PWRONOTP_USBP0ID) then USB_ROLE_HOST else USB_ROLE_DEVICE.

Definition ma35_otg_role_sw_set (p : ma35_otg_phy) (role : usb_role) : Z * ma35_otg_phy :=
  (0, {| p with cur_role := role |}).

Definition ma35_otg_role_sw_get (d : D) : usb_role := ma35_otg_read_id d.

Variable dev_err_probe : Z -> Z.
Definition ptr_err (p : Z) : bool := p <? 0.

Definition ma35_otg_role_switch_init (p : ma35_otg_phy) (d : D) : pprog (Z * ma35_otg_phy) :=
  let p := {| p with cur_role := ma35_otg_read_id d |} in
  let* sw := ext PRoleSwitchRegister in
  let p := {| p with role_sw := sw |} in
  if ptr_err sw then pret (dev_err_probe sw, p) else pret (0, p).

Definition ma35_otg_role_switch_exit (p : ma35_otg_phy) : pprog ma35_otg_phy :=
  if role_sw p =? 0 then pret p
  else do* ext PRoleSwitchUnregister in pret {| p with role_sw := 0 |}.

(** [syscon_regmap_lookup_by_phandle_args] answers a pointer and stores the
    argument cell; [of_property_read_u32] answers an error code and stores the
    value: two answers each. *)
Definition ma35_otg_phy_probe (d : D) : pprog (Z * ma35_otg_phy * D) :=
  let p := mkotg 0 0 USB_ROLE_NONE in
  let* m := ext PKzalloc in
  if m =? 0 then pret (- ENOMEM, p, d)
  else
    let* sysreg := ext PSysconLookup in
    let* arg := ext PSysArg in
    if ptr_err sysreg then pret (dev_err_probe sysreg, p, d)
    else
      let p := {| p with phy_idx := u32 arg |} in
      if phy_idx p >? 1 then pret (- EINVAL, p, d)
      else
        let* clk := ext PClkGet in
        if ptr_err clk then pret (dev_err_probe clk, p, d)
        else
          let* ret := ext PReadRcal in
          let* rcalcode := ext PRcalValue in
          let rcalcode := u32 rcalcode in
          if negb (truthy ret) && (rcalcode >? 15) then pret (- EINVAL, p, d)
          else
            let d := if truthy ret then d
                     else regmap_update_bits d MA35_SYS_USBPMISCR (USBPMISCR_RCAL_MASK (phy_idx p))
                            (u32 (rcalcode .<< USBPMISCR_RCAL_SHIFT (phy_idx p))) in
            let* oc := ext PReadOcHigh in
            let d := if truthy oc
                     then regmap_update_bits d MA35_SYS_MISCFCR0 MISCFCR0_UHOVRCURH MISCFCR0_UHOVRCURH
                     else d in
            let* phy := ext PPhyCreate in
            if ptr_err phy then pret (dev_err_probe phy, p, d)
            else
              let* provider := ext PProviderRegister in
              if ptr_err provider then pret (dev_err_probe provider, p, d)
              else if phy_idx p =? 0 then
                let* r := ma35_otg_role_switch_init p d in
                let '(ret, p) := r in
                if truthy ret then pret (ret, p, d) else pret (0, p, d)
              else pret (0, p, d).

Definition ma35_otg_phy_remove (p : ma35_otg_phy) : pprog ma35_otg_phy :=
  ma35_otg_role_switch_exit p.

(** ** phy-ma35d1-usb2.c *)

Definition MA35_SYS_REG_USBPMISCR : Z := 0x60.
Definition PHY0POR : Z := BIT 0.
Definition PHY0SUSPEND : Z := BIT 1.
Definition PHY0COMN : Z := BIT 2.
Definition PHY0DEVCKSTB : Z := BIT 10.

(** The reset of the PHY and the wait for its clock. *)
Definition ma35_usb_phy_reset (d : D) : Z * D :=
  let d := regmap_update_bits d MA35_SYS_REG_USBPMISCR 0x7 (PHY0POR .| PHY0SUSPEND) in
  let d := udelay d 20 in
  let d := regmap_update_bits d MA35_SYS_REG_USBPMISCR 0x7 PHY0SUSPEND in
  let '(ret, _, d) :=
    regmap_read_poll_timeout d MA35_SYS_REG_USBPMISCR
      (fun val => truthy (val .& PHY0DEVCKSTB)) 10 1000 in
  (ret, d).

(** A PHY already operational only has to have its clock. *)
Definition ma35_usb_phy_running (d : D) : bool * D :=
  let val := regmap_read d MA35_SYS_REG_USBPMISCR in
  if truthy (val .& PHY0SUSPEND) then
    let '(ret, _, d) :=
      regmap_read_poll_timeout d MA35_SYS_REG_USBPMISCR
        (fun val => truthy (val .& PHY0DEVCKSTB)) 10 1000 in
    (ret =? 0, d)
  else (false, d).

Definition ma35_usb_phy_power_on (d : D) : pprog (Z * D) :=
  let* ret := ext PClkEnable in
  if ret <? 0 then pret (ret, d)
  else
    let '(running, d) := ma35_usb_phy_running d in
    if running then pret (0, d)
    else
      let '(ret, d) := ma35_usb_phy_reset d in
      if ret =? - ETIMEDOUT then do* ext PClkDisable in pret (ret, d)
      else pret (0, d).

Definition ma35_usb_phy_power_off : pprog Z := do* ext PClkDisable in pret 0.

Definition ma35_usb_phy_probe : pprog Z :=
  let* m := ext PKzalloc in
  if m =? 0 then pret (- ENOMEM)
  else
    let* sysreg := ext PSysconLookup in
    if ptr_err sysreg then pret (dev_err_probe sysreg)
    else
      let* clk := ext PClkGet in
      if ptr_err clk then pret (dev_err_probe clk)
      else
        let* phy := ext PPhyCreate in
        if ptr_err phy then pret (dev_err_probe phy)
        else
          let* provider := ext PProviderRegister in
          if ptr_err provider then pret (dev_err_probe provider) else pret 0.
End Otg.

(** ** Facts *)

(** The bits the hardware drives: the clock-stable bits of both PHYs and the
    state of the ID pin. *)
Definition phy_volatile (r : Z) : Z :=
  if r =? MA35_SYS_USBPMISCR then
    USBPMISCR_PHY_HSTCKSTB 0 .| USBPMISCR_PHY_CK12MSTB 0 .| USBPMISCR_PHY_DEVCKSTB 0
    .| USBPMISCR_PHY_HSTCKSTB 1 .| USBPMISCR_PHY_CK12MSTB 1
  else if r =? MA35_SYS_PWRONOTP then PWRONOTP_USBP0ID
  else 0.

Lemma ldiff_testbit a b m i :
  Z.ldiff a m = Z.ldiff b m -> Z.testbit m i = false -> Z.testbit a i = Z.testbit b i.
Proof.
  intros H Hm. apply (f_equal (fun x => Z.testbit x i)) in H.
  rewrite !Z.ldiff_spec, Hm in H. by rewrite !andb_true_r in H.
Qed.

Section Facts.
Context {D : Type} `{Ho : !RegmapOps D} `{Hp : !PollOps D} `{Hl : !MmioLaws D phy_volatile}.

Lemma stable_update (d : D) r m v i :
  Z.testbit (phy_volatile r) i = false ->
  Z.testbit (regmap_read (regmap_update_bits d r m v) r) i
  = if Z.testbit (u32 m) i then Z.testbit (u32 v) i else Z.testbit (regmap_read d r) i.
Proof.
  intros Hi. rewrite (ldiff_testbit _ _ _ _ (mmio_read_update d r m v) Hi). apply rmw_testbit.
Qed.

Lemma stable_update_ne (d : D) r r' m v i :
  r <> r' -> Z.testbit (phy_volatile r') i = false ->
  Z.testbit (regmap_read (regmap_update_bits d r m v) r') i = Z.testbit (regmap_read d r') i.
Proof. intros Hr. apply ldiff_testbit. by apply mmio_read_update_ne. Qed.

Lemma stable_msleep (d : D) t r i :
  Z.testbit (phy_volatile r) i = false ->
  Z.testbit (regmap_read (msleep d t) r) i = Z.testbit (regmap_read d r) i.
Proof. apply ldiff_testbit, mmio_msleep. Qed.

Lemma stable_udelay (d : D) t r i :
  Z.testbit (phy_volatile r) i = false ->
  Z.testbit (regmap_read (udelay d t) r) i = Z.testbit (regmap_read d r) i.
Proof. apply ldiff_testbit, mmio_udelay. Qed.

Lemma stable_write (d : D) r v i :
  Z.testbit (phy_volatile r) i = false ->
  Z.testbit (regmap_read (regmap_write d r v) r) i = Z.testbit (u32 v) i.
Proof. apply ldiff_testbit, mmio_read_write. Qed.

Lemma stable_write_ne (d : D) r r' v i :
  r <> r' -> Z.testbit (phy_volatile r') i = false ->
  Z.testbit (regmap_read (regmap_write d r v) r') i = Z.testbit (regmap_read d r') i.
Proof. intros Hr. apply ldiff_testbit. by apply mmio_read_write_ne. Qed.

(** The reset of a PHY: the control bits of the mask are set to one value, then to
    another, and the register is polled. *)
Lemma reset_sequence (d : D) m a b t c s t' :
  let d1 := regmap_update_bits d MA35_SYS_USBPMISCR m a in
  let d3 := regmap_update_bits (msleep d1 t) MA35_SYS_USBPMISCR m b in
  let '(ret, _, d') := regmap_read_poll_timeout d3 MA35_SYS_USBPMISCR c s t' in
  ret <= 0 /\ (ret = 0 -> c (regmap_read d' MA35_SYS_USBPMISCR) = true)
  /\ forall r i, Z.testbit (phy_volatile r) i = false ->
       Z.testbit (regmap_read d' r) i
       = if decide (r = MA35_SYS_USBPMISCR /\ Z.testbit (u32 m) i = true) then Z.testbit (u32 b) i
         else Z.testbit (regmap_read d r) i.
Proof.
  cbv zeta. set (d3 := regmap_update_bits (msleep _ _) _ _ _).
  pose proof (mmio_poll d3 MA35_SYS_USBPMISCR c s t') as Hpoll.
  destruct (regmap_read_poll_timeout d3 _ _ _ _) as [[ret val] d']. destruct Hpoll as (Hst & Hok & _ & Hle).
  split; [done|]. split; [intros E; destruct (Hok E) as [? ->]; done|].
  intros r i Hi. rewrite (ldiff_testbit _ _ _ _ (Hst r) Hi). unfold d3.
  destruct (Z.eq_dec r MA35_SYS_USBPMISCR) as [->|Hne].
  - rewrite stable_update, stable_msleep, stable_update by done.
    destruct (Z.testbit (u32 m) i) eqn:E; [by rewrite decide_True|]. rewrite decide_False; [done|naive_solver].
  - rewrite stable_update_ne, stable_msleep, stable_update_ne by auto. rewrite decide_False; [done|naive_solver].
Qed.

(** A test of a mask is a test of its bits. *)
Lemma land_mask_eqb v m :
  (v .& m =? m) = true <-> (forall i, 0 <= i -> Z.testbit m i = true -> Z.testbit v i = true).
Proof.
  rewrite Z.eqb_eq. split.
  - intros H i Hi Hm. apply (f_equal (fun x => Z.testbit x i)) in H.
    rewrite Z.land_spec, Hm in H. by rewrite andb_true_r in H.
  - intros H. apply Z.bits_inj'. intros i Hi. rewrite Z.land_spec.
    destruct (Z.testbit m i) eqn:E; [by rewrite H|by rewrite andb_false_r].
Qed.
End Facts.

(** ** Main theorems *)

Section Theorems.
Context {D : Type} `{Ho : !RegmapOps D} `{Hp : !PollOps D} `{Hl : !MmioLaws D phy_volatile}.

(** The control bits of PHY [n]: POR, SUSPEND and COMN. *)
Definition ctl_bit (n i : Z) : bool := (16 * n <=? i) && (i <=? 16 * n + 2).

Lemma ctl_mask_testbit n i :
  n = 0 \/ n = 1 -> Z.testbit (u32 (USBPMISCR_PHY_CTL_MASK n)) i = ctl_bit n i.
Proof.
  intros Hn. unfold ctl_bit.
  replace (u32 (USBPMISCR_PHY_CTL_MASK n)) with (GENMASK (16 * n + 2) (16 * n))
    by (destruct Hn as [-> | ->]; reflexivity).
  apply GENMASK_testbit. lia.
Qed.

(** Initialising a USB PHY. One that is operational with stable host
    clocks is left alone. Any other is reset: it ends with the power-on reset
    and the common-block power-down released and the operational bit set, every
    other bit the hardware does not drive unchanged in all registers - the
    other PHY included - and 0 is returned only if its host clocks are
    stable. *)
Theorem ma35_otg_init_sound p (d : D) :
  phy_idx p = 0 \/ phy_idx p = 1 ->
  let n := phy_idx p in
  let ready v := v .& USBPMISCR_PHY_HOST_READY n =? USBPMISCR_PHY_HOST_READY n in
  let v := regmap_read d MA35_SYS_USBPMISCR in
  let '(ret, d') := ma35_otg_phy_init p d in
  let v' := regmap_read d' MA35_SYS_USBPMISCR in
  if ready v then ret = 0 /\ d' = d
  else
    ret <= 0 /\ (ret = 0 -> ready v' = true)
    /\ Z.testbit v' (16 * n) = false /\ Z.testbit v' (16 * n + 1) = true
    /\ Z.testbit v' (16 * n + 2) = false
    /\ forall r i, Z.testbit (phy_volatile r) i = false ->
         r <> MA35_SYS_USBPMISCR \/ ctl_bit n i = false ->
         Z.testbit (regmap_read d' r) i = Z.testbit (regmap_read d r) i.
Proof.
  intros Hn n ready v. unfold ma35_otg_phy_init. fold n. fold v.
  change (v .& USBPMISCR_PHY_HOST_READY n =? USBPMISCR_PHY_HOST_READY n) with (ready v).
  destruct (ready v); [done|].
  pose proof (reset_sequence d (USBPMISCR_PHY_CTL_MASK n) (USBPMISCR_PHY_POR n .| USBPMISCR_PHY_SUSPEND n)
    (USBPMISCR_PHY_SUSPEND n) 20
    (fun val => val .& USBPMISCR_PHY_HOST_READY n =? USBPMISCR_PHY_HOST_READY n) 20000 500000) as Hr.
  cbv zeta in Hr. destruct (regmap_read_poll_timeout _ _ _ _ _) as [[ret val] d'].
  destruct Hr as (Hle & Hok & Hbit).
  replace (if truthy ret then (ret, d') else (0, d')) with (ret, d')
    by (unfold truthy; by destruct (Z.eqb_spec ret 0) as [->|]).
  split; [exact Hle|]. split; [exact Hok|].
  assert (Hn' : n = 0 \/ n = 1) by done.
  split; [|split; [|split]]; [destruct Hn' as [E|E]; rewrite E in *; by rewrite Hbit ..|].
  intros r i Hi Hc. rewrite Hbit, ctl_mask_testbit by done. rewrite decide_False; [done|].
  intros [-> Hb]. destruct Hc; congruence.
Qed.

(** The writes of the probe, for PHY [n]: the resistor calibration field and
    the over-current polarity. *)
Definition probe_regs (n rr code oc : Z) (d : D) : D :=
  let d := if truthy rr then d
           else regmap_update_bits d MA35_SYS_USBPMISCR (USBPMISCR_RCAL_MASK n)
                  (u32 (code .<< USBPMISCR_RCAL_SHIFT n)) in
  if truthy oc then regmap_update_bits d MA35_SYS_MISCFCR0 MISCFCR0_UHOVRCURH MISCFCR0_UHOVRCURH
  else d.

Definition rcal_bit (n i : Z) : bool := (12 + n * 16 <=? i) && (i <=? 12 + n * 16 + 3).

Lemma rcal_mask_testbit n i :
  n = 0 \/ n = 1 -> Z.testbit (u32 (USBPMISCR_RCAL_MASK n)) i = rcal_bit n i.
Proof.
  intros Hn. unfold rcal_bit.
  replace (u32 (USBPMISCR_RCAL_MASK n)) with (GENMASK (12 + n * 16 + 3) (12 + n * 16))
    by (destruct Hn as [-> | ->]; reflexivity).
  apply GENMASK_testbit. lia.
Qed.

Lemma rcal_not_volatile n i :
  n = 0 \/ n = 1 -> rcal_bit n i = true -> Z.testbit (phy_volatile MA35_SYS_USBPMISCR) i = false.
Proof.
  unfold rcal_bit. intros Hn Hi. zb.
  assert (Hc : i = 12 \/ i = 13 \/ i = 14 \/ i = 15 \/ i = 28 \/ i = 29 \/ i = 30 \/ i = 31) by lia.
  by repeat destruct Hc as [-> | Hc]; [..|subst i].
Qed.

(** What the register writes of the probe change: nothing but the calibration
    field of this PHY, which holds the code, and the over-current polarity. *)
Lemma probe_regs_frame n rr code oc (d : D) r i :
  n = 0 \/ n = 1 -> Z.testbit (phy_volatile r) i = false ->
  r <> MA35_SYS_USBPMISCR \/ rcal_bit n i = false -> r <> MA35_SYS_MISCFCR0 \/ i <> 12 ->
  Z.testbit (regmap_read (probe_regs n rr code oc d) r) i = Z.testbit (regmap_read d r) i.
Proof.
  intros Hn Hv H1 H2. unfold probe_regs. cbv zeta.
  set (d1 := if truthy rr then d else _).
  assert (E1 : Z.testbit (regmap_read d1 r) i = Z.testbit (regmap_read d r) i).
  { unfold d1. case_if; [done|]. destruct (Z.eq_dec r MA35_SYS_USBPMISCR) as [->|Hne].
    - destruct H1 as [?|Hc]; [done|]. by rewrite stable_update, rcal_mask_testbit, Hc.
    - by rewrite stable_update_ne by auto. }
  case_if; [|done]. rewrite <- E1. destruct (Z.eq_dec r MA35_SYS_MISCFCR0) as [->|Hne].
  - destruct H2 as [?|Hi]; [done|]. rewrite stable_update by done.
    change (u32 MISCFCR0_UHOVRCURH) with (2 ^ 12). by rewrite Z.pow2_bits_false by lia.
  - by rewrite stable_update_ne by auto.
Qed.

Lemma probe_regs_rcal n code oc (d : D) k :
  n = 0 \/ n = 1 -> 0 <= code <= 15 -> 0 <= k < 4 ->
  Z.testbit (regmap_read (probe_regs n 0 code oc d) MA35_SYS_USBPMISCR) (12 + n * 16 + k)
  = Z.testbit code k.
Proof.
  intros Hn Hc Hk. unfold probe_regs. cbn [truthy Z.eqb negb]. cbv zeta.
  assert (Hb : rcal_bit n (12 + n * 16 + k) = true) by (unfold rcal_bit; apply andb_true_iff; lia).
  pose proof (rcal_not_volatile _ _ Hn Hb) as Hv.
  set (d1 := regmap_update_bits d _ _ _).
  transitivity (Z.testbit (regmap_read d1 MA35_SYS_USBPMISCR) (12 + n * 16 + k)).
  { case_if; [|done]. by rewrite stable_update_ne by done. }
  unfold d1. rewrite stable_update, rcal_mask_testbit, Hb, u32_idemp by done.
  unfold USBPMISCR_RCAL_SHIFT. rewrite u32_id.
  - rewrite Z.shiftl_spec by lia. f_equal. lia.
  - rewrite Z.shiftl_mul_pow2 by lia. unfold is_u32.
    destruct Hn as [-> | ->]; cbn; lia.
Qed.

Variable dev_err_probe : Z -> Z.
Hypothesis dev_err_probe_id : forall e, dev_err_probe e = e.

(** What the device tree answers in the course of a probe: the PHY index, and
    the error code and value of the calibration property. *)
Definition dt_arg (o : list phy_call -> phy_call -> Z) : Z :=
  u32 (o [PKzalloc; PSysconLookup] PSysArg).
Definition dt_rcal_ret (o : list phy_call -> phy_call -> Z) : Z :=
  o [PKzalloc; PSysconLookup; PSysArg; PClkGet] PReadRcal.
Definition dt_rcal (o : list phy_call -> phy_call -> Z) : Z :=
  u32 (o [PKzalloc; PSysconLookup; PSysArg; PClkGet; PReadRcal] PRcalValue).

Definition otg_probe_outcome (o : list phy_call -> phy_call -> Z) (d : D)
    (ret : Z) (p : ma35_otg_phy) (d' : D) (tr : list phy_call) : Prop :=
  (dt_arg o > 1 \/ (dt_rcal_ret o = 0 /\ dt_rcal o > 15) ->
     ret <> 0 /\ d' = d /\ PPhyCreate ∉ tr)
  /\ (ret = 0 ->
        dt_arg o <= 1 /\ phy_idx p = dt_arg o /\ PProviderRegister ∈ tr
        /\ (PRoleSwitchRegister ∈ tr <-> dt_arg o = 0)
        /\ (dt_rcal_ret o = 0 -> forall k, 0 <= k < 4 ->
              Z.testbit (regmap_read d' MA35_SYS_USBPMISCR) (12 + dt_arg o * 16 + k)
              = Z.testbit (dt_rcal o) k))
  /\ (forall r i, Z.testbit (phy_volatile r) i = false ->
        r <> MA35_SYS_USBPMISCR \/ rcal_bit (dt_arg o) i = false ->
        r <> MA35_SYS_MISCFCR0 \/ i <> 12 ->
        Z.testbit (regmap_read d' r) i = Z.testbit (regmap_read d r) i).

(** A probe that fails before it writes. *)
Lemma otg_probe_early o d ret p tr :
  ret <> 0 -> PPhyCreate ∉ tr -> otg_probe_outcome o d ret p d tr.
Proof. intros Hr Ht. split; [done|]. by split. Qed.

(** A probe that got as far as the register writes. *)
Lemma otg_probe_late o (d : D) oc ret p tr :
  (dt_arg o >? 1) = false -> negb (truthy (dt_rcal_ret o)) && (dt_rcal o >? 15) = false ->
  (ret = 0 -> phy_idx p = dt_arg o /\ PProviderRegister ∈ tr
              /\ (PRoleSwitchRegister ∈ tr <-> dt_arg o = 0)) ->
  otg_probe_outcome o d ret p (probe_regs (dt_arg o) (dt_rcal_ret o) (dt_rcal o) oc d) tr.
Proof.
  intros Ha Hc Hs. zb.
  assert (Hn : dt_arg o = 0 \/ dt_arg o = 1).
  { pose proof (u32_range (o [PKzalloc; PSysconLookup] PSysArg)) as Hr.
    unfold dt_arg, is_u32 in *. lia. }
  assert (Hg : dt_rcal_ret o = 0 -> dt_rcal o <= 15).
  { intros E. rewrite E in Hc. change (truthy 0) with false in Hc. cbn [negb andb] in Hc. zb. lia. }
  split; [|split].
  - intros [?|[E ?]]; [lia|]. specialize (Hg E). lia.
  - intros Hr. destruct (Hs Hr) as (H1 & H2 & H3). split_and!; [lia|done|done|done|].
    intros E k Hk. rewrite E. apply probe_regs_rcal; [done| |done].
    split; [apply u32_range|auto].
  - intros r i. by apply probe_regs_frame.
Qed.

(** Probing an OTG PHY. A PHY index above 1 or a calibration code above 15
    in the device tree fails the probe before any register is written and any
    PHY is created. Success registers the PHY provider of the index the device
    tree names, with the given calibration code in its field, and a role switch
    exactly for PHY 0; and in every case no other register bit the hardware
    does not drive is changed, except the over-current polarity. *)
Theorem ma35_otg_probe_sound o (d : D) :
  let '((ret, p, d'), tr) := run (ma35_otg_phy_probe dev_err_probe d) o in
  otg_probe_outcome o d ret p d' tr.
Proof.
  enough (Hwp : wp (ma35_otg_phy_probe dev_err_probe d) o []
                  (fun '(ret, p, d') tr => otg_probe_outcome o d ret p d' tr)).
  { unfold wp, run in *. by destruct (ma35_otg_phy_probe dev_err_probe d o []) as [[[ret p] d'] tr]. }
  unfold ma35_otg_phy_probe, ma35_otg_role_switch_init. wp_steps.
  all: cbn [phy_idx app] in *; rewrite ?dev_err_probe_id; unfold ptr_err in *.
  all: try (apply otg_probe_early; [zb; unfold ENOMEM, EINVAL; lia|set_solver]).
  all: refine (otg_probe_late o d (o [PKzalloc; PSysconLookup; PSysArg; PClkGet; PReadRcal; PRcalValue]
                                     PReadOcHigh) _ _ _ _ _ _); [eassumption..|].
  all: intros Hret; unfold truthy in *; zb; try lia.
  all: split; [done|]; split; [set_solver|]; unfold dt_arg in *.
  all: first [by split; [done|set_solver] | split; [set_solver|done]].
Qed.

(** A poll answers success or a timeout, not an error of the register access. *)
Definition poll_times_out_only : Prop :=
  forall (d : D) r c s t,
    let '(ret, _, _) := regmap_read_poll_timeout d r c s t in ret = 0 \/ ret = - ETIMEDOUT.

(** The PHY is operational and its device clock stable. *)
Definition usb2_ready (d : D) : Prop :=
  Z.testbit (regmap_read d MA35_SYS_REG_USBPMISCR) 1 = true
  /\ Z.testbit (regmap_read d MA35_SYS_REG_USBPMISCR) 10 = true.

(** The bits outside the control bits of PHY 0 that the hardware does not
    drive are as they were. *)
Definition usb2_frame (d d' : D) : Prop :=
  forall r i, Z.testbit (phy_volatile r) i = false ->
    r <> MA35_SYS_REG_USBPMISCR \/ ctl_bit 0 i = false ->
    Z.testbit (regmap_read d' r) i = Z.testbit (regmap_read d r) i.

(** Waiting for the device clock. *)
Lemma devckstb_poll (d : D) :
  let '(ret, _, d') := regmap_read_poll_timeout d MA35_SYS_REG_USBPMISCR
                         (fun val => truthy (val .& PHY0DEVCKSTB)) 10 1000 in
  usb2_frame d d'
  /\ Z.testbit (regmap_read d' MA35_SYS_REG_USBPMISCR) 1
     = Z.testbit (regmap_read d MA35_SYS_REG_USBPMISCR) 1
  /\ (ret = 0 -> Z.testbit (regmap_read d' MA35_SYS_REG_USBPMISCR) 10 = true).
Proof.
  pose proof (mmio_poll d MA35_SYS_REG_USBPMISCR (fun val => truthy (val .& PHY0DEVCKSTB)) 10 1000) as Hp'.
  destruct (regmap_read_poll_timeout _ _ _ _ _) as [[ret val] d'].
  destruct Hp' as (Hst & Hok & _ & _). split; [|split].
  - intros r i Hi _. exact (ldiff_testbit _ _ _ _ (Hst r) Hi).
  - exact (ldiff_testbit _ _ _ 1 (Hst MA35_SYS_REG_USBPMISCR) eq_refl).
  - intros Hr. destruct (Hok Hr) as [Hc ->]. rewrite <- Hc. symmetry. by apply truthy_land_BIT.
Qed.

Lemma usb2_frame_trans (d d1 d2 : D) : usb2_frame d d1 -> usb2_frame d1 d2 -> usb2_frame d d2.
Proof. intros H1 H2 r i Hi Hr. by rewrite (H2 r i Hi Hr), (H1 r i Hi Hr). Qed.

Lemma usb2_running_spec (d : D) :
  let '(running, d') := ma35_usb_phy_running d in
  usb2_frame d d' /\ (running = true -> usb2_ready d').
Proof.
  unfold ma35_usb_phy_running, PHY0SUSPEND. rewrite truthy_land_BIT by done.
  destruct (Z.testbit _ 1) eqn:E; [|done].
  pose proof (devckstb_poll d) as Hp'.
  destruct (regmap_read_poll_timeout _ _ _ _ _) as [[ret val] d'].
  destruct Hp' as (Hfr & H1 & H10). split; [done|]. intros Hr. zb.
  split; [by rewrite H1|auto].
Qed.

Lemma usb2_reset_spec (d : D) :
  let '(ret, d') := ma35_usb_phy_reset d in
  usb2_frame d d'
  /\ Z.testbit (regmap_read d' MA35_SYS_REG_USBPMISCR) 1 = true
  /\ (ret = 0 -> usb2_ready d').
Proof.
  unfold ma35_usb_phy_reset. cbv zeta.
  set (d1 := regmap_update_bits d _ _ _). set (d2 := regmap_update_bits (udelay d1 20) _ _ _).
  pose proof (devckstb_poll d2) as Hp'.
  destruct (regmap_read_poll_timeout _ _ _ _ _) as [[ret val] d'].
  destruct Hp' as (Hfr & H1 & H10).
  assert (E1 : Z.testbit (regmap_read d2 MA35_SYS_REG_USBPMISCR) 1 = true)
    by (unfold d2; by rewrite stable_update).
  split; [|split].
  - intros r i Hi Hr. rewrite (Hfr r i Hi Hr). unfold d2, d1.
    destruct (Z.eq_dec r MA35_SYS_REG_USBPMISCR) as [->|Hne].
    + destruct Hr as [?|Hc]; [done|].
      rewrite stable_update, stable_udelay, stable_update by done.
      change (u32 7) with (u32 (USBPMISCR_PHY_CTL_MASK 0)).
      rewrite ctl_mask_testbit, Hc by auto. done.
    + by rewrite stable_update_ne, stable_udelay, stable_update_ne by auto.
  - by rewrite H1.
  - intros Hr. split; [by rewrite H1|auto].
Qed.

(** C40: Powering on the device PHY. The clock stays enabled exactly when the
    call succeeds: it is not enabled when enabling it failed, and is disabled
    again when the device clock did not become stable. Unless a register access
    itself fails, success means the PHY is operational with a stable device
    clock. Nothing but its control bits is changed. *)
Theorem ma35_usb_power_on_sound o (d : D) :
  let e := o [] PClkEnable in
  let '((ret, d'), tr) := run (ma35_usb_phy_power_on d) o in
  usb2_frame d d'
  /\ (e < 0 -> ret = e /\ d' = d /\ tr = [PClkEnable])
  /\ (0 <= e -> ret = 0 /\ tr = [PClkEnable]
               \/ ret = - ETIMEDOUT /\ tr = [PClkEnable; PClkDisable])
  /\ (0 <= e -> poll_times_out_only -> ret = 0 -> usb2_ready d').
Proof.
  unfold run, ma35_usb_phy_power_on, pbind, ext. cbn [app]. cbv zeta.
  destruct (Z.ltb_spec (o [] PClkEnable) 0) as [He|He].
  { split_and!; try done; lia. }
  pose proof (usb2_running_spec d) as Hrun. destruct (ma35_usb_phy_running d) as [running d1].
  destruct Hrun as [Hf1 Hr1]. destruct running; cbn.
  { split_and!; [done|lia|by left|auto]. }
  pose proof (usb2_reset_spec d1) as Hres. destruct (ma35_usb_phy_reset d1) as [ret d2] eqn:Er.
  destruct Hres as (Hf2 & _ & Hr2). pose proof (usb2_frame_trans _ _ _ Hf1 Hf2) as Hf.
  case_if; zb; cbn; split_and!; try done; try lia; [by right|by left|].
  intros _ Hpoll _. apply Hr2.
  unfold ma35_usb_phy_reset in Er. cbv zeta in Er.
  match type of Er with context [regmap_read_poll_timeout ?a ?b ?c ?s ?t] =>
    pose proof (Hpoll a b c s t) as Hq; destruct (regmap_read_poll_timeout a b c s t) as [[r0 v0] d0] end.
  injection Er as -> ->. by destruct Hq.
Qed.
End Theorems.

(** ** A concrete PHY: hardware whose clocks become stable while time passes *)

Definition all_stable : Z :=
  USBPMISCR_PHY_HSTCKSTB 0 .| USBPMISCR_PHY_CK12MSTB 0 .| USBPMISCR_PHY_DEVCKSTB 0
  .| USBPMISCR_PHY_HSTCKSTB 1 .| USBPMISCR_PHY_CK12MSTB 1.

Definition clocks_up (d : regfile) : regfile :=
  RegFile (<[MA35_SYS_USBPMISCR := rf_get d MA35_SYS_USBPMISCR .| all_stable]> (rf_regs d))
    (rf_writes d).

#[export] Instance regfile_poll : PollOps regfile := {
  msleep d _ := clocks_up d;
  udelay d _ := clocks_up d;
  regmap_read_poll_timeout d r c _ _ :=
    let d := clocks_up d in
    let val := rf_get d r in
    (if c val then 0 else - ETIMEDOUT, val, d)
}.

Lemma clocks_up_stable d r :
  Z.ldiff (rf_get (clocks_up d) r) (phy_volatile r) = Z.ldiff (rf_get d r) (phy_volatile r).
Proof.
  destruct (Z.eq_dec r MA35_SYS_USBPMISCR) as [->|Hne].
  - unfold clocks_up, rf_get at 1; cbn [rf_regs]. rewrite lookup_insert_eq. cbn [default].
    rewrite u32_id by (apply (lor_range _ _ 32); [lia|apply u32_range|done]).
    unfold id. change (phy_volatile MA35_SYS_USBPMISCR) with all_stable.
    generalize all_stable as st. intros st. generalize (rf_get d MA35_SYS_USBPMISCR) as v. intros v.
    apply Z.bits_inj'. intros i Hi. rewrite !Z.ldiff_spec, Z.lor_spec.
    by destruct (Z.testbit v i), (Z.testbit st i).
  - unfold clocks_up, rf_get; cbn [rf_regs]. by rewrite lookup_insert_ne by auto.
Qed.

#[export] Instance regfile_mmio : MmioLaws regfile phy_volatile.
Proof.
  split; cbn.
  - apply (@regmap_read_range _ _ regfile_laws).
  - intros. f_equal. apply (@regmap_read_update _ _ regfile_laws).
  - intros. f_equal. by apply (@regmap_read_update_ne _ _ regfile_laws).
  - intros. f_equal. apply (@regmap_read_write _ _ regfile_laws).
  - intros. f_equal. by apply (@regmap_read_write_ne _ _ regfile_laws).
  - intros. apply clocks_up_stable.
  - intros. apply clocks_up_stable.
  - intros d r c s t. split; [intros; apply clocks_up_stable|].
    case_if; unfold ETIMEDOUT; split_and!; try done; lia.
Qed.

Lemma ma35_otg_init_sound_witness :
  let p := mkotg 1 0 USB_ROLE_NONE in
  (phy_idx p = 0 \/ phy_idx p = 1)
  /\ (let '(ret, d') := ma35_otg_phy_init p regfile0 in
      ret <= 0 /\ Z.testbit (regmap_read d' MA35_SYS_USBPMISCR) 17 = true)
  /\ fst (ma35_otg_phy_init p regfile0) = 0.
Proof.
  intros p. assert (Hp : phy_idx p = 0 \/ phy_idx p = 1) by (right; reflexivity).
  split; [exact Hp|]. split; [|vm_compute; reflexivity].
  pose proof (ma35_otg_init_sound p regfile0 Hp) as H. cbv zeta in H.
  change (regmap_read regfile0 MA35_SYS_USBPMISCR .& USBPMISCR_PHY_HOST_READY (phy_idx p)
          =? USBPMISCR_PHY_HOST_READY (phy_idx p)) with false in H.
  destruct (ma35_otg_phy_init p regfile0) as [ret d']. cbv iota in H.
  destruct H as (H1 & _ & _ & H2 & _). split; [exact H1|exact H2].
Defined.

(** A kernel in which every call succeeds, a device tree with PHY 0 and
    calibration code 9. *)
Definition phy_kernel_ok (tr : list phy_call) (e : phy_call) : Z :=
  match e with PRcalValue => 9 | PSysArg | PReadRcal | PClkEnable => 0 | _ => 1 end.

Lemma ma35_otg_probe_sound_witness :
  (forall e : Z, (fun x => x) e = e)
  /\ let '((ret, p, d'), tr) := run (ma35_otg_phy_probe (fun e => e) regfile0) phy_kernel_ok in
     ret = 0 /\ phy_idx p = 0 /\ PRoleSwitchRegister ∈ tr
     /\ Z.testbit (regmap_read d' MA35_SYS_USBPMISCR) 12 = true.
Proof.
  split; [reflexivity|].
  pose proof (ma35_otg_probe_sound (fun e => e) ltac:(reflexivity) phy_kernel_ok regfile0) as H.
  assert (Hret : fst (fst (fst (run (ma35_otg_phy_probe (fun e => e) regfile0) phy_kernel_ok))) = 0)
    by (vm_compute; reflexivity).
  destruct (run _ _) as [[[ret p] d'] tr]. cbn in Hret. subst ret.
  destruct H as (_ & H & _). destruct (H eq_refl) as (_ & H1 & _ & H2 & H3).
  split; [reflexivity|]. split; [exact H1|]. split; [by apply H2|].
  exact (H3 eq_refl 0 ltac:(lia)).
Defined.

Lemma ma35_usb_power_on_sound_witness :
  poll_times_out_only (D := regfile)
  /\ let '((ret, d'), tr) := run (ma35_usb_phy_power_on regfile0) phy_kernel_ok in
     ret = 0 /\ usb2_ready d' /\ tr = [PClkEnable].
Proof.
  assert (Hpoll : poll_times_out_only (D := regfile)).
  { intros d r c s t. cbn. destruct (c _); [by left|by right]. }
  split; [exact Hpoll|].
  pose proof (ma35_usb_power_on_sound phy_kernel_ok regfile0) as H. cbv zeta in H.
  assert (Hret : fst (fst (run (ma35_usb_phy_power_on regfile0) phy_kernel_ok)) = 0)
    by (vm_compute; reflexivity).
  destruct (run _ _) as [[ret d'] tr]. cbn in Hret. subst ret.
  destruct H as (_ & _ & H1 & H2). split; [reflexivity|].
  split; [exact (H2 ltac:(done) Hpoll eq_refl)|].
  destruct (H1 ltac:(done)) as [[_ E]|[E _]]; [exact E|discriminate].
Defined.
