(* ===== verification/UsbMa35.v ===== *)
(** * UsbMa35: the MA35 glue of the EHCI and OHCI host controllers
      (src/usb/host/ehci-ma35.c, ohci-ma35.c)

    The EHCI driver owns one PHY of the shared system registers: its probe trims and
    starts it before the controller is added.  The registers are those of PhyMa35,
    under the same names in the source; the controller cores are calls. *)

From S2P Require Export PhyMa35.

(** [struct ma35_ehci_priv] without its clock and regmap. *)
Record ma35_ehci_priv := mkehci { oc_active_level : Z; ehci_phy_idx : Z }.

Inductive hcd_call : Set :=
| HUsbDisabled | HGetIrq | HDmaMask | HCreateHcd | HClkGet | HClkEnable | HClkDisable
| HParsePhandle | HPhandleArg | HSyscon | HReadOcLevel | HOcLevel | HReadRcal | HRcalValue
| HIoremap | HAddHcd | HWakeupEnable | HRemoveHcd | HPutHcd
| HMayWakeup | HSuspend (do_wakeup : bool) | HResume.

#[export] Instance hcd_call_eq_dec : EqDecision hcd_call.
Proof. solve_decision. Defined.

Definition hprog (A : Type) : Type := prog hcd_call A.

(** ** ehci-ma35.c *)

Section Ehci.
Context {D : Type} `{!RegmapOps D} `{!PollOps D}.

Definition configure_oc (p : ma35_ehci_priv) (d : D) : D :=
  regmap_update_bits d MA35_SYS_MISCFCR0 MISCFCR0_UHOVRCURH
    (if truthy (oc_active_level p) then MISCFCR0_UHOVRCURH else 0).

Definition ma35_ehci_phy_init (p : ma35_ehci_priv) (d : D) : Z * D :=
  let n := ehci_phy_idx p in
  let ready := USBPMISCR_PHY_HOST_READY n in
  let reg := regmap_read d MA35_SYS_USBPMISCR in
  if reg .& ready =? ready then (0, configure_oc p d)
  else
    let d := regmap_update_bits d MA35_SYS_USBPMISCR
               (USBPMISCR_PHY_POR n .| USBPMISCR_PHY_SUSPEND n)
               (USBPMISCR_PHY_POR n .| USBPMISCR_PHY_SUSPEND n) in
    let d := msleep d 20 in
    let d := regmap_update_bits d MA35_SYS_USBPMISCR
               (USBPMISCR_PHY_POR n .| USBPMISCR_PHY_SUSPEND n) (USBPMISCR_PHY_SUSPEND n) in
    let '(err, reg, d) :=
      regmap_read_poll_timeout d MA35_SYS_USBPMISCR (fun reg => reg .& ready =? ready) 20000 500000 in
    if truthy err then (err, d) else (0, configure_oc p d).

(** The resistor trim of PHY [n]. *)
Definition ehci_rcal (n rcalcode : Z) (d : D) : D :=
  let reg := regmap_read d MA35_SYS_USBPMISCR in
  let reg := reg .& USBPMISCR_RCAL_MASK n .| u32 ((rcalcode .& 0xf) .<< USBPMISCR_RCAL_SHIFT n) in
  regmap_write d MA35_SYS_USBPMISCR reg.

Definition err_put_hcd {A} (err : Z) (s : A) : hprog (Z * A) := do* ext HPutHcd in pret (err, s).
Definition err_clk {A} (err : Z) (s : A) : hprog (Z * A) := do* ext HClkDisable in err_put_hcd err s.

(** The register window and the controller itself, last in both probes. *)
Definition add_hcd {A} (s : A) : hprog (Z * A) :=
  let* regs := ext HIoremap in
  if ptr_err regs then err_clk regs s
  else
    let* err := ext HAddHcd in
    if truthy err then err_clk err s
    else do* ext HWakeupEnable in pret (0, s).

(** Properties of the device tree have two answers, as in PhyMa35. *)
Definition ma35_ehci_probe (d : D) : hprog (Z * (ma35_ehci_priv * D)) :=
  let p := mkehci 0 0 in
  let* disabled := ext HUsbDisabled in
  if truthy disabled then pret (- ENODEV, (p, d))
  else
    let* irq := ext HGetIrq in
    if irq <? 0 then pret (irq, (p, d))
    else
      let* err := ext HDmaMask in
      if truthy err then pret (err, (p, d))
      else
        let* hcd := ext HCreateHcd in
        if hcd =? 0 then pret (- ENOMEM, (p, d))
        else
          let* clk := ext HClkGet in
          if ptr_err clk then err_put_hcd clk (p, d)
          else
            let* err := ext HClkEnable in
            if truthy err then err_put_hcd err (p, d)
            else
              let* err := ext HParsePhandle in
              if truthy err then err_clk err (p, d)
              else
                let* arg := ext HPhandleArg in
                let p := {| p with ehci_phy_idx := u32 arg |} in
                let* sysreg := ext HSyscon in
                if ptr_err sysreg then err_clk sysreg (p, d)
                else if ehci_phy_idx p >? 1 then err_clk (- EINVAL) (p, d)
                else
                  let* ret := ext HReadOcLevel in
                  let* level := ext HOcLevel in
                  let p := {| p with oc_active_level := if truthy ret then 0 else s32 level |} in
                  let* ret := ext HReadRcal in
                  let* rcalcode := ext HRcalValue in
                  let d := if truthy ret then d else ehci_rcal (ehci_phy_idx p) (u32 rcalcode) d in
                  let '(err, d) := ma35_ehci_phy_init p d in
                  if truthy err then err_clk err (p, d)
                  else add_hcd (p, d).

Definition ma35_ehci_remove : hprog unit :=
  do* ext HRemoveHcd in do* ext HClkDisable in do* ext HPutHcd in pret tt.

Definition ma35_ehci_suspend : hprog Z :=
  let* ret := ext (HSuspend false) in
  if truthy ret then pret ret else do* ext HClkDisable in pret 0.

Definition ma35_ehci_resume : hprog Z :=
  let* err := ext HClkEnable in
  if truthy err then pret err else do* ext HResume in pret 0.

(** ** ohci-ma35.c *)

Definition ma35_ohci_probe : hprog Z :=
  let* disabled := ext HUsbDisabled in
  if truthy disabled then pret (- ENODEV)
  else
    let* irq := ext HGetIrq in
    if irq <? 0 then pret irq
    else
      let* err := ext HDmaMask in
      if truthy err then pret err
      else
        let* hcd := ext HCreateHcd in
        if hcd =? 0 then pret (- ENOMEM)
        else
          let* clk := ext HClkGet in
          if ptr_err clk then let* r := err_put_hcd clk tt in pret (fst r)
          else
            let* err := ext HClkEnable in
            if truthy err then let* r := err_put_hcd err tt in pret (fst r)
            else let* r := add_hcd tt in pret (fst r).

Definition ma35_ohci_remove : hprog unit :=
  do* ext HRemoveHcd in do* ext HClkDisable in do* ext HPutHcd in pret tt.

Definition ma35_ohci_suspend : hprog Z :=
  let* do_wakeup := ext HMayWakeup in
  let* ret := ext (HSuspend (truthy do_wakeup)) in
  if truthy ret then pret ret else do* ext HClkDisable in pret 0.

Definition ma35_ohci_resume : hprog Z :=
  let* err := ext HClkEnable in
  if truthy err then pret err else do* ext HResume in pret 0.
End Ehci.

(** ** The start of the PHY *)

Section Facts.
Context {D : Type} `{Ho : !RegmapOps D} `{Hp : !PollOps D} `{Hl : !MmioLaws D phy_volatile}.

(** POR and SUSPEND of PHY [n]. *)
Definition ehci_ctl (n i : Z) : bool := (16 * n =? i) || (16 * n + 1 =? i).

Lemma ehci_ctl_testbit n i :
  n = 0 \/ n = 1 -> Z.testbit (u32 (USBPMISCR_PHY_POR n .| USBPMISCR_PHY_SUSPEND n)) i = ehci_ctl n i.
Proof.
  intros Hn. unfold ehci_ctl.
  replace (u32 _) with (2 ^ (16 * n) .| 2 ^ (16 * n + 1)) by (destruct Hn as [-> | ->]; reflexivity).
  rewrite Z.lor_spec, !Z.pow2_bits_eqb by lia. done.
Qed.

Lemma ehci_suspend_testbit n : n = 0 \/ n = 1 -> Z.testbit (u32 (USBPMISCR_PHY_SUSPEND n)) (16 * n + 1) = true.
Proof. by intros [-> | ->]. Qed.

Lemma configure_oc_bit p (d : D) r i :
  Z.testbit (phy_volatile r) i = false ->
  Z.testbit (regmap_read (configure_oc p d) r) i
  = if decide (r = MA35_SYS_MISCFCR0 /\ i = 12) then truthy (oc_active_level p)
    else Z.testbit (regmap_read d r) i.
Proof.
  intros Hi. unfold configure_oc. destruct (Z.eq_dec r MA35_SYS_MISCFCR0) as [->|Hne].
  - rewrite stable_update by done. change (u32 MISCFCR0_UHOVRCURH) with (2 ^ 12).
    rewrite Z.pow2_bits_eqb by done. case_decide as Hd; [destruct Hd as [_ ->]|].
    + cbn. by case_if.
    + rewrite (proj2 (Z.eqb_neq 12 i)); [done|]. naive_solver.
  - rewrite stable_update_ne by auto. rewrite decide_False; [done|naive_solver].
Qed.

(** What the start of the PHY comes to, for registers [d]. *)
Record phy_started (p : ma35_ehci_priv) (d : D) (err : Z) (d' : D) : Prop := {
  ps_running : err = 0 ->
    Z.testbit (regmap_read d' MA35_SYS_USBPMISCR) (16 * ehci_phy_idx p + 1) = true
    /\ Z.testbit (regmap_read d' MA35_SYS_MISCFCR0) 12 = truthy (oc_active_level p);
  ps_frame r i : Z.testbit (phy_volatile r) i = false ->
    r <> MA35_SYS_USBPMISCR \/ ehci_ctl (ehci_phy_idx p) i = false ->
    r <> MA35_SYS_MISCFCR0 \/ i <> 12 ->
    Z.testbit (regmap_read d' r) i = Z.testbit (regmap_read d r) i
}.

Lemma suspend_not_volatile n : n = 0 \/ n = 1 -> Z.testbit (phy_volatile MA35_SYS_USBPMISCR) (16 * n + 1) = false.
Proof. by intros [-> | ->]. Qed.

Lemma ehci_phy_init_started p (d : D) :
  ehci_phy_idx p = 0 \/ ehci_phy_idx p = 1 ->
  let '(err, d') := ma35_ehci_phy_init p d in phy_started p d err d'.
Proof.
  intros Hn. unfold ma35_ehci_phy_init. set (n := ehci_phy_idx p) in *.
  destruct (regmap_read d MA35_SYS_USBPMISCR .& _ =? _) eqn:Er.
  { split; fold n.
    - intros _. rewrite !configure_oc_bit by (done || by apply suspend_not_volatile).
      rewrite decide_False, decide_True by naive_solver. split; [|done].
      eapply land_mask_eqb in Er; [exact Er|lia|]. by destruct Hn as [-> | ->].
    - intros r i Hi _ Hm. rewrite configure_oc_bit by done. rewrite decide_False; [done|naive_solver]. }
  pose proof (reset_sequence d (USBPMISCR_PHY_POR n .| USBPMISCR_PHY_SUSPEND n)
    (USBPMISCR_PHY_POR n .| USBPMISCR_PHY_SUSPEND n) (USBPMISCR_PHY_SUSPEND n) 20
    (fun reg => reg .& USBPMISCR_PHY_HOST_READY n =? USBPMISCR_PHY_HOST_READY n) 20000 500000) as Hr.
  cbv zeta in Hr. destruct (regmap_read_poll_timeout _ _ _ _ _) as [[err reg] d'].
  destruct Hr as (_ & _ & Hbit). unfold truthy. destruct (Z.eqb_spec err 0) as [->|Herr]; cbn; split; fold n.
  - intros _. rewrite !configure_oc_bit by (done || by apply suspend_not_volatile).
    rewrite decide_False, decide_True by naive_solver. split; [|done].
    rewrite Hbit by (by apply suspend_not_volatile). rewrite ehci_ctl_testbit by done.
    rewrite decide_True; [by apply ehci_suspend_testbit|]. unfold ehci_ctl. by rewrite Z.eqb_refl, orb_true_r.
  - intros r i Hi Hc Hm. rewrite configure_oc_bit by done. rewrite decide_False by naive_solver.
    rewrite Hbit, ehci_ctl_testbit by done. rewrite decide_False; [done|]. intros [-> ?]. destruct Hc; congruence.
  - done.
  - intros r i Hi Hc _. rewrite Hbit, ehci_ctl_testbit by done. rewrite decide_False; [done|].
    intros [-> ?]. destruct Hc; congruence.
Qed.

(** The trim keeps nothing of the register but the trim field, which it adds to. *)
Lemma ehci_rcal_bit n code (d : D) r i :
  n = 0 \/ n = 1 -> Z.testbit (phy_volatile r) i = false -> 0 <= i ->
  Z.testbit (regmap_read (ehci_rcal n code d) r) i
  = if decide (r = MA35_SYS_USBPMISCR) then
      rcal_bit n i && (Z.testbit (regmap_read d r) i || Z.testbit code (i - (12 + n * 16)))
    else Z.testbit (regmap_read d r) i.
Proof.
  intros Hn Hi Hpos. unfold ehci_rcal. cbv zeta. case_decide as Hr.
  2: { by rewrite stable_write_ne by auto. }
  subst r. rewrite stable_write by done.
  assert (Hw : is_u32 ((code .& 0xf) .<< USBPMISCR_RCAL_SHIFT n)).
  { assert (Hc : 0 <= code .& 0xf < 16).
    { change 0xf with (Z.ones 4). rewrite Z.land_ones by lia. apply Z.mod_pos_bound. lia. }
    unfold is_u32, USBPMISCR_RCAL_SHIFT. rewrite Z.shiftl_mul_pow2 by lia. destruct Hn as [-> | ->]; cbn; lia. }
  rewrite (u32_id _ Hw). unfold u32.
  destruct (Z.ltb_spec i 32) as [Hlt|Hge].
  - rewrite Z.mod_pow2_bits_low by done. rewrite Z.lor_spec, Z.land_spec.
    rewrite <- (rcal_mask_testbit n i Hn). rewrite u32_id by (destruct Hn as [-> | ->]; done).
    assert (Hs : Z.testbit ((code .& 0xf) .<< USBPMISCR_RCAL_SHIFT n) i
                 = rcal_bit n i && Z.testbit code (i - (12 + n * 16))).
    { unfold USBPMISCR_RCAL_SHIFT, rcal_bit. rewrite Z.shiftl_spec, Z.land_spec by done.
      change 0xf with (Z.ones 4). destruct (Z.leb_spec (12 + n * 16) i) as [H1|H1]; cbn.
      - rewrite andb_comm, Z.testbit_ones_nonneg by lia. f_equal. lia.
      - by rewrite Z.testbit_neg_r by lia. }
    rewrite Hs, <- (rcal_mask_testbit n i Hn), u32_id by (destruct Hn as [-> | ->]; done).
    by destruct (Z.testbit (USBPMISCR_RCAL_MASK n) i), (Z.testbit (regmap_read d MA35_SYS_USBPMISCR) i).
  - rewrite Z.mod_pow2_bits_high by lia. unfold rcal_bit.
    replace (i <=? 12 + n * 16 + 3) with false by (symmetry; apply Z.leb_gt; lia). by rewrite andb_false_r.
Qed.
End Facts.

(** ** The probes *)

(** The calls of a successful probe, in order: what is answered to one of them is
    answered after those before it. *)
Definition ehci_calls : list hcd_call :=
  [HUsbDisabled; HGetIrq; HDmaMask; HCreateHcd; HClkGet; HClkEnable; HParsePhandle; HPhandleArg; HSyscon;
   HReadOcLevel; HOcLevel; HReadRcal; HRcalValue; HIoremap; HAddHcd; HWakeupEnable].
Definition ohci_calls : list hcd_call :=
  [HUsbDisabled; HGetIrq; HDmaMask; HCreateHcd; HClkGet; HClkEnable; HIoremap; HAddHcd; HWakeupEnable].

Definition dt_rcal_present (o : list hcd_call -> hcd_call -> Z) : bool :=
  negb (truthy (o (take 11 ehci_calls) HReadRcal)).
Definition dt_rcalcode (o : list hcd_call -> hcd_call -> Z) : Z := u32 (o (take 12 ehci_calls) HRcalValue).

(** What the device tree answers: the PHY, and the over-current polarity, which is
    0 when the property is missing. *)
Definition dt_phy (o : list hcd_call -> hcd_call -> Z) : Z := u32 (o (take 7 ehci_calls) HPhandleArg).
Definition dt_oc (o : list hcd_call -> hcd_call -> Z) : Z :=
  if truthy (o (take 9 ehci_calls) HReadOcLevel) then 0 else s32 (o (take 10 ehci_calls) HOcLevel).
Definition dt_priv (o : list hcd_call -> hcd_call -> Z) : ma35_ehci_priv := mkehci (dt_oc o) (dt_phy o).

(** What was taken is held exactly by a probe that succeeds. *)
Record probe_balanced (ret : Z) (tr : list hcd_call) : Prop := {
  pb_once : NoDup tr;
  pb_hcd : HPutHcd ∈ tr <-> ret <> 0 /\ HClkGet ∈ tr;
  pb_added : HWakeupEnable ∈ tr <-> ret = 0
}.

(** As a computation on the trace; [first] is the first call made with the clock on. *)
Definition trace_ok (first : hcd_call) (ok : bool) (tr : list hcd_call) : bool :=
  bool_decide (NoDup tr)
  && Bool.eqb (bool_decide (HPutHcd ∈ tr)) (negb ok && bool_decide (HClkGet ∈ tr))
  && Bool.eqb (bool_decide (HWakeupEnable ∈ tr)) ok
  && Bool.eqb (bool_decide (HClkDisable ∈ tr)) (negb ok && bool_decide (first ∈ tr)).

Lemma trace_ok_spec first ret tr :
  trace_ok first (ret =? 0) tr = true ->
  probe_balanced ret tr /\ (HClkDisable ∈ tr <-> ret <> 0 /\ first ∈ tr).
Proof.
  intros [[[H1 H2]%andb_true_iff H3]%andb_true_iff H4]%andb_true_iff.
  apply bool_decide_eq_true in H1. apply eqb_prop in H2, H3, H4.
  assert (He : forall x y, bool_decide (x ∈ tr) = negb (ret =? 0) && bool_decide (y ∈ tr) ->
            x ∈ tr <-> ret <> 0 /\ y ∈ tr).
  { intros x y E. rewrite <- (bool_decide_eq_true (x ∈ tr)), E, andb_true_iff, bool_decide_eq_true.
    by rewrite negb_true_iff, Z.eqb_neq. }
  split; [|by apply He]. split; [done|by apply He|].
  by rewrite <- (bool_decide_eq_true (HWakeupEnable ∈ tr)), H3, Z.eqb_eq.
Qed.

(** Decides whether the result of a branch is 0. *)
Ltac result_sign :=
  lazymatch goal with |- trace_ok _ (?ret =? 0) _ = true =>
    let Hz := fresh in
    first [ assert (Hz : (ret =? 0) = true) by reflexivity
          | assert (Hz : (ret =? 0) = false)
              by (apply Z.eqb_neq; unfold ptr_err, truthy, ENODEV, ENOMEM, EINVAL in *; zb; lia) ];
    rewrite Hz
  end.

Section Probes.
Context {D : Type} `{Ho : !RegmapOps D} `{Hp : !PollOps D} `{Hl : !MmioLaws D phy_volatile}.

Definition ehci_probe_outcome (o : list hcd_call -> hcd_call -> Z) (d : D)
    (ret : Z) (p : ma35_ehci_priv) (d' : D) (tr : list hcd_call) : Prop :=
  let n := dt_phy o in
  probe_balanced ret tr
  /\ (HClkDisable ∈ tr <-> ret <> 0 /\ HParsePhandle ∈ tr)
  /\ (HAddHcd ∈ tr ->
        p = dt_priv o /\ (n = 0 \/ n = 1)
        /\ Z.testbit (regmap_read d' MA35_SYS_USBPMISCR) (16 * n + 1) = true
        /\ Z.testbit (regmap_read d' MA35_SYS_MISCFCR0) 12 = truthy (dt_oc o))
  /\ forall r i, Z.testbit (phy_volatile r) i = false -> 0 <= i ->
       r <> MA35_SYS_USBPMISCR \/ ehci_ctl n i = false -> r <> MA35_SYS_MISCFCR0 \/ i <> 12 ->
       Z.testbit (regmap_read d' r) i
       = if decide (r = MA35_SYS_USBPMISCR) then
           if bool_decide (HReadRcal ∈ tr) && dt_rcal_present o then
             rcal_bit n i && (Z.testbit (regmap_read d r) i || Z.testbit (dt_rcalcode o) (i - (12 + n * 16)))
           else Z.testbit (regmap_read d r) i
         else Z.testbit (regmap_read d r) i.

(** A probe that fails before it writes. *)
Lemma ehci_probe_early o d ret p tr :
  probe_balanced ret tr -> (HClkDisable ∈ tr <-> ret <> 0 /\ HParsePhandle ∈ tr) ->
  HAddHcd ∉ tr -> HReadRcal ∉ tr -> ehci_probe_outcome o d ret p d tr.
Proof.
  intros H1 H2 H3 H4. split; [done|]. split; [done|]. split; [done|]. intros r i _ _ _ _.
  rewrite (bool_decide_eq_false_2 (HReadRcal ∈ tr)) by done. cbn. by case_decide.
Qed.

(** One that gets as far as the registers. *)
Lemma ehci_probe_late o (d : D) err d' ret tr :
  (dt_phy o >? 1) = false ->
  ma35_ehci_phy_init (dt_priv o) (if truthy (o (take 11 ehci_calls) HReadRcal) then d
                        else ehci_rcal (dt_phy o) (dt_rcalcode o) d) = (err, d') ->
  probe_balanced ret tr -> (HClkDisable ∈ tr <-> ret <> 0 /\ HParsePhandle ∈ tr) ->
  HReadRcal ∈ tr -> (HAddHcd ∈ tr -> err = 0) -> ehci_probe_outcome o d ret (dt_priv o) d' tr.
Proof.
  intros Hn Hi H1 H2 H3 H4.
  assert (Hpos : 0 <= dt_phy o) by apply u32_range.
  assert (Hn' : dt_phy o = 0 \/ dt_phy o = 1) by (zb; lia).
  match type of Hi with ma35_ehci_phy_init (dt_priv o) ?x = _ =>
    pose proof (ehci_phy_init_started (dt_priv o) x Hn') as Hs end.
  rewrite Hi in Hs. destruct Hs as [Hrun Hfr]. split; [done|]. split; [done|]. split.
  { intros Ha. split; [done|]. split; [done|]. by apply Hrun, H4. }
  intros r i Hv Hi0 Hc Hm. rewrite (Hfr r i Hv Hc Hm). rewrite (bool_decide_eq_true_2 (HReadRcal ∈ tr)) by done.
  unfold dt_rcal_present. destruct (truthy (o (take 11 ehci_calls) HReadRcal)); cbn; [by case_decide|].
  by rewrite ehci_rcal_bit.
Qed.

(** C39: probing an EHCI controller takes every resource once and gives back exactly
    what it took when it fails. The controller is only added once the PHY that
    the device tree names is out of suspend, with the over-current polarity it asks
    for. No register bit the hardware does not drive changes but POR and SUSPEND of
    that PHY and the polarity - unless the device tree holds a calibration code:
    then every other bit of the PHY register is cleared, those of the other
    PHY included, and the code is or-ed into the old one. *)
Theorem ma35_ehci_probe_sound o (d : D) :
  let '((ret, (p, d')), tr) := run (ma35_ehci_probe d) o in
  ehci_probe_outcome o d ret p d' tr.
Proof.
  enough (Hwp : wp (ma35_ehci_probe d) o [] (fun '(ret, (p, d')) tr => ehci_probe_outcome o d ret p d' tr)).
  { unfold wp, run in *. by destruct (ma35_ehci_probe d o []) as [[ret [p d']] tr]. }
  unfold ma35_ehci_probe, add_hcd, err_clk, err_put_hcd. 
  repeat first [ match goal with |- wp (let '(_, _) := ma35_ehci_phy_init ?p ?d in _) _ _ _ =>
                   destruct (ma35_ehci_phy_init p d) eqn:? end | wp_step ].
  all: cbn [app] in *.
  all: lazymatch goal with |- ehci_probe_outcome _ _ ?ret _ _ ?tr =>
         destruct (trace_ok_spec HParsePhandle ret tr) as [Hb Hc]; [result_sign; vm_compute; reflexivity|] end.
  all: try (apply ehci_probe_early; [exact Hb|exact Hc|by apply (bool_decide_unpack _)..]).
  all: match goal with H : ma35_ehci_phy_init _ _ = _ |- _ =>
         refine (ehci_probe_late o d _ _ _ _ _ H Hb Hc _ _); [eassumption| |] end.
  all: first [by apply (bool_decide_unpack _)|intros Ha; unfold truthy in *; zb; lia].
Qed.
End Probes.

(** probing an OHCI controller takes every resource once, and gives back exactly what
    it took when it fails. *)
Theorem ma35_ohci_probe_sound o :
  let '(ret, tr) := run ma35_ohci_probe o in
  probe_balanced ret tr /\ (HClkDisable ∈ tr <-> ret <> 0 /\ HIoremap ∈ tr).
Proof.
  enough (Hwp : wp ma35_ohci_probe o []
            (fun ret tr => probe_balanced ret tr /\ (HClkDisable ∈ tr <-> ret <> 0 /\ HIoremap ∈ tr))).
  { unfold wp, run in *. by destruct (ma35_ohci_probe o []) as [ret tr]. }
  unfold ma35_ohci_probe, add_hcd, err_clk, err_put_hcd. wp_steps. all: cbn [app fst] in *.
  all: apply trace_ok_spec.
  all: result_sign.
  all: vm_compute; reflexivity.
Qed.

(** ** The clock over a controller's life *)

(** How many times the clock is held after the calls [tr], the latest call first in the
    recursion; a call to enable it counts when it is answered 0. *)
Fixpoint clk_held_rev (o : list hcd_call -> hcd_call -> Z) (rtr : list hcd_call) : Z :=
  match rtr with
  | [] => 0
  | HClkEnable :: rtr => clk_held_rev o rtr + (if o (reverse rtr) HClkEnable =? 0 then 1 else 0)
  | HClkDisable :: rtr => clk_held_rev o rtr - 1
  | _ :: rtr => clk_held_rev o rtr
  end.
Definition clk_held o (tr : list hcd_call) : Z := clk_held_rev o (reverse tr).

Lemma clk_held_snoc o tr e :
  clk_held o (tr ++ [e])
  = clk_held o tr + match e with
                    | HClkEnable => if o tr HClkEnable =? 0 then 1 else 0
                    | HClkDisable => -1
                    | _ => 0
                    end.
Proof.
  unfold clk_held. rewrite reverse_snoc. destruct e; cbn [clk_held_rev]; rewrite ?reverse_involutive; lia.
Qed.

(** A controller is suspended while it runs and resumed while it does not.  A call
    that fails leaves it as it is. *)
Inductive host_life (o : list hcd_call -> hcd_call -> Z) (probed : list hcd_call -> Prop) (suspend : hprog Z)
    (resume : hprog Z) : bool -> list hcd_call -> Prop :=
| life_probed tr : probed tr -> host_life o probed suspend resume true tr
| life_suspend tr ret tr' :
    host_life o probed suspend resume true tr -> suspend o tr = (ret, tr') ->
    host_life o probed suspend resume (negb (ret =? 0)) tr'
| life_resume tr ret tr' :
    host_life o probed suspend resume false tr -> resume o tr = (ret, tr') ->
    host_life o probed suspend resume (ret =? 0) tr'.

Definition ehci_probed {D} `{!RegmapOps D} `{!PollOps D} (d : D) o (tr : list hcd_call) : Prop :=
  exists s, run (ma35_ehci_probe d) o = ((0, s), tr).
Definition ohci_probed o (tr : list hcd_call) : Prop := run ma35_ohci_probe o = (0, tr).

Ltac clk_count := rewrite ?clk_held_snoc; try lia.

Lemma life_clock o probed suspend resume running tr :
  (forall tr, probed tr -> clk_held o tr = 1) ->
  (forall tr, wp suspend o tr (fun ret tr' => clk_held o tr' = clk_held o tr - (if ret =? 0 then 1 else 0))) ->
  (forall tr, wp resume o tr (fun ret tr' => clk_held o tr' = clk_held o tr + (if ret =? 0 then 1 else 0))) ->
  host_life o probed suspend resume running tr -> clk_held o tr = if running then 1 else 0.
Proof.
  intros Hp Hs Hr. induction 1 as [tr H|tr ret tr' _ IH E|tr ret tr' _ IH E].
  - by apply Hp.
  - specialize (Hs tr). unfold wp in Hs. rewrite E, IH in Hs. rewrite Hs. by case_if.
  - specialize (Hr tr). unfold wp in Hr. rewrite E, IH in Hr. by rewrite Hr.
Qed.

Lemma ehci_probe_calls {D} `{!RegmapOps D} `{!PollOps D} (d : D) o tr :
  ehci_probed d o tr -> tr = ehci_calls /\ o (take 5 ehci_calls) HClkEnable = 0.
Proof.
  intros [s Hr].
  assert (Hwp : wp (ma35_ehci_probe d) o []
            (fun r tr => fst r = 0 -> tr = ehci_calls /\ o (take 5 ehci_calls) HClkEnable = 0)).
  { unfold ma35_ehci_probe, add_hcd, err_clk, err_put_hcd. wp_steps. all: cbn [app fst] in *.
    all: intros Hz; unfold ptr_err, truthy, ENODEV, ENOMEM, EINVAL in *; zb; first [lia | by split]. }
  unfold wp, run in *. rewrite Hr in Hwp. by apply Hwp.
Qed.

Lemma ohci_probe_calls o tr :
  ohci_probed o tr -> tr = ohci_calls /\ o (take 5 ohci_calls) HClkEnable = 0.
Proof.
  unfold ohci_probed. intros Hr.
  assert (Hwp : wp ma35_ohci_probe o []
            (fun ret tr => ret = 0 -> tr = ohci_calls /\ o (take 5 ohci_calls) HClkEnable = 0)).
  { unfold ma35_ohci_probe, add_hcd, err_clk, err_put_hcd. wp_steps. all: cbn [app fst] in *.
    all: intros Hz; unfold ptr_err, truthy, ENODEV, ENOMEM, EINVAL in *; zb; first [lia | by split]. }
  unfold wp, run in *. rewrite Hr in Hwp. by apply Hwp.
Qed.

Lemma probed_clock o calls :
  calls = ehci_calls \/ calls = ohci_calls -> o (take 5 calls) HClkEnable = 0 -> clk_held o calls = 1.
Proof. intros [-> | ->] H; cbn in H; unfold clk_held; cbn; by rewrite H. Qed.

(** What a power-management call does to the clock. *)
Ltac pm_clock := wp_steps; unfold truthy in *; zb; rewrite ?clk_held_snoc; repeat case_if; zb; lia.

(** over the life of a controller - the probe, then suspends and resumes in any
    order, each possibly failing - its clock is held exactly once while the
    controller runs and not at all while it is suspended; removing it while it
    runs gives the clock back. *)
Theorem ma35_hosts_clock_balanced {D} `{!RegmapOps D} `{!PollOps D} (d : D) o running tr :
  host_life o (ehci_probed d o) ma35_ehci_suspend ma35_ehci_resume running tr
  \/ host_life o (ohci_probed o) ma35_ohci_suspend ma35_ohci_resume running tr ->
  clk_held o tr = (if running then 1 else 0)
  /\ (running = true -> wp ma35_ehci_remove o tr (fun _ tr' => clk_held o tr' = 0))
  /\ (running = true -> wp ma35_ohci_remove o tr (fun _ tr' => clk_held o tr' = 0)).
Proof.
  intros Hlife. assert (Hc : clk_held o tr = if running then 1 else 0).
  { destruct Hlife as [Hl|Hl]; eapply life_clock in Hl; try done.
    - intros tr' [-> ?]%ehci_probe_calls. apply probed_clock; [by left|done].
    - intros tr'. unfold ma35_ehci_suspend. pm_clock.
    - intros tr'. unfold ma35_ehci_resume. pm_clock.
    - intros tr' [-> ?]%ohci_probe_calls. apply probed_clock; [by right|done].
    - intros tr'. unfold ma35_ohci_suspend. pm_clock.
    - intros tr'. unfold ma35_ohci_resume. pm_clock. }
  split; [done|]. split; intros ->; unfold ma35_ehci_remove, ma35_ohci_remove; wp_steps;
    rewrite ?clk_held_snoc; lia.
Qed.

(** ** A kernel in which every call succeeds *)

(** The device tree names PHY 1, with calibration code 9. *)
Definition hcd_kernel_ok (tr : list hcd_call) (e : hcd_call) : Z :=
  match e with
  | HCreateHcd | HClkGet | HSyscon | HIoremap | HPhandleArg | HMayWakeup => 1
  | HRcalValue => 9
  | _ => 0
  end.

(** PHY 0 works when PHY 1 is probed, and does not any more afterwards. *)
Example ehci_calibration_stops_other_phy :
  let d := regmap_write regfile0 MA35_SYS_USBPMISCR (USBPMISCR_PHY_SUSPEND 0) in
  let '((ret, (p, d')), _) := run (ma35_ehci_probe d) hcd_kernel_ok in
  ret = 0 /\ ehci_phy_idx p = 1
  /\ Z.testbit (regmap_read d MA35_SYS_USBPMISCR) 1 = true
  /\ Z.testbit (regmap_read d' MA35_SYS_USBPMISCR) 1 = false.
Proof. vm_compute. done. Qed.

Lemma ma35_hosts_clock_balanced_witness :
  let '(_, tr) := run (ma35_ehci_probe regfile0) hcd_kernel_ok in
  host_life hcd_kernel_ok (ehci_probed regfile0 hcd_kernel_ok) ma35_ehci_suspend ma35_ehci_resume true tr
  /\ clk_held hcd_kernel_ok tr = 1.
Proof.
  destruct (run (ma35_ehci_probe regfile0) hcd_kernel_ok) as [r tr] eqn:E.
  assert (Hl : host_life hcd_kernel_ok (ehci_probed regfile0 hcd_kernel_ok)
                 ma35_ehci_suspend ma35_ehci_resume true tr).
  { apply life_probed. exists (snd r).
    replace (0, snd r) with r; [exact E|]. replace r with (fst (r, tr)) by reflexivity.
    rewrite <- E. vm_compute. reflexivity. }
  split; [exact Hl|]. exact (proj1 (ma35_hosts_clock_balanced regfile0 _ _ _ (or_introl Hl))).
Defined.

Lemma ma35_ehci_probe_sound_witness :
  let d := regmap_write regfile0 MA35_SYS_USBPMISCR (USBPMISCR_PHY_SUSPEND 0) in
  let '((ret, (p, d')), tr) := run (ma35_ehci_probe d) hcd_kernel_ok in
  ret = 0 /\ HWakeupEnable ∈ tr /\ Z.testbit (regmap_read d' MA35_SYS_USBPMISCR) 17 = true
  /\ Z.testbit (regmap_read d' MA35_SYS_USBPMISCR) 1 = false.
Proof.
  set (d := regmap_write _ _ _). cbv zeta. pose proof (ma35_ehci_probe_sound hcd_kernel_ok d) as H.
  assert (Hc : (fun '((ret, (p, _)), tr) => (ret, ehci_phy_idx p, tr)) (run (ma35_ehci_probe d) hcd_kernel_ok)
               = (0, 1, ehci_calls)) by (vm_compute; reflexivity).
  destruct (run (ma35_ehci_probe d) hcd_kernel_ok) as [[ret [p d']] tr]. injection Hc as -> Hp ->.
  destruct H as ([_ _ Hw] & _ & Ha & Hf). change (dt_phy hcd_kernel_ok) with 1 in Ha, Hf.
  split; [reflexivity|]. split; [by apply Hw|]. split.
  - destruct Ha as (_ & _ & Ha & _); [by apply (bool_decide_unpack _)|exact Ha].
  - assert (Hv : Z.testbit (phy_volatile MA35_SYS_USBPMISCR) 1 = false) by (vm_compute; reflexivity).
    assert (Hc : MA35_SYS_USBPMISCR <> MA35_SYS_USBPMISCR \/ ehci_ctl 1 1 = false) by (right; reflexivity).
    assert (Hm : MA35_SYS_USBPMISCR <> MA35_SYS_MISCFCR0 \/ 1 <> 12) by (right; lia).
    specialize (Hf MA35_SYS_USBPMISCR 1 Hv ltac:(lia) Hc Hm). etransitivity; [exact Hf|].
    vm_compute. reflexivity.
Defined.
