(* ===== verification/UsbPmap.v ===== *)
(** * UsbPmap: the periodic schedule bitmaps of the USB host controller
      (src/usb/dwc2/hcd_queue.c, pmap_schedule and pmap_unschedule)

    A schedule is a bitmap of [periods_in_map] periods of [bits_per_period]
    bits.  A reservation takes [num_bits] bits of every [interval]-th period.
    The kernel's bitmap library and [gcd] are outside the modelled sources:
    [BitmapOps] is their interface and [BitmapLaws] their documented
    behaviour. *)

From S2P Require Export Prelude.

(** ** The kernel's bitmap library *)

Class BitmapOps (M : Type) := {
  test_bit : M -> Z -> bool;
  (** [bitmap_set map start nr] and [bitmap_clear map start nr] *)
  bitmap_set : M -> Z -> Z -> M;
  bitmap_clear : M -> Z -> Z -> M;
  (** [bitmap_find_next_zero_area map size start nr 0] *)
  bitmap_find_next_zero_area : M -> Z -> Z -> Z -> Z;
  gcd : Z -> Z -> Z
}.

Definition in_area (s n b : Z) : bool := (s <=? b) && (b <? s + n).

Section Areas.
Context {M : Type} `{!BitmapOps M}.
(** The [n] bits from [s] on are clear. *)
Definition area_free (m : M) (s n : Z) : Prop :=
  forall b, s <= b < s + n -> test_bit m b = false.

(** Two bitmaps with the same bits. *)
#[export] Instance bitmap_equiv : Equiv M := fun m m' => forall b, test_bit m b = test_bit m' b.
End Areas.

(** The search answers the first clear area inside the size, and a number not
    below the size when there is none. *)
Class BitmapLaws (M : Type) `{!BitmapOps M} : Prop := {
  test_bitmap_set m s n b : 0 <= s -> 0 <= n ->
    test_bit (bitmap_set m s n) b = test_bit m b || in_area s n b;
  test_bitmap_clear m s n b : 0 <= s -> 0 <= n ->
    test_bit (bitmap_clear m s n) b = test_bit m b && negb (in_area s n b);
  find_zero_area m size s n : 0 <= s -> 1 <= n ->
    let r := bitmap_find_next_zero_area m size s n in
    (s <= r /\ r + n <= size /\ area_free m r n
     /\ forall x, s <= x < r -> ~ area_free m x n)
    \/ (size <= r /\ forall x, s <= x -> x + n <= size -> ~ area_free m x n);
  gcd_spec a b : 0 <= a -> 0 <= b -> gcd a b = Z.gcd a b
}.

(** ** The scheduler *)

Section Pmap.
Context {M : Type} `{!BitmapOps M}.

Definition period_end (bits_per_period start : Z) : Z :=
  (start / bits_per_period + 1) * bits_per_period.

(** The inner loop, from repetition [i] on: [None] if every repetition is
    free, else where to go on searching. *)
Fixpoint pmap_check (map : M) (num_bits interval_bits start pend : Z) (n : nat) (i : Z)
  : option Z :=
  match n with
  | O => None
  | S n =>
      let ith_start := start + interval_bits * i in
      let ith_end := pend + interval_bits * i in
      let ret := bitmap_find_next_zero_area map (ith_start + num_bits) ith_start num_bits in
      if ret =? ith_start then pmap_check map num_bits interval_bits start pend n (i + 1)
      else
        let ith_start := bitmap_find_next_zero_area map ith_end ith_start num_bits in
        if ith_start >=? ith_end then Some pend else Some (ith_start - interval_bits * i)
  end.

(** The outer loop; [None] when the fuel runs out. *)
Fixpoint pmap_search (fuel : nat) (map : M)
    (bits_per_period num_bits interval_bits to_reserve first_end start : Z) : option Z :=
  if start + num_bits <=? first_end then
    match fuel with
    | O => None
    | S fuel =>
        let search := pmap_search fuel map bits_per_period num_bits interval_bits
                        to_reserve first_end in
        let pend := period_end bits_per_period start in
        let start := bitmap_find_next_zero_area map pend start num_bits in
        if start >=? pend then search pend
        else
          match pmap_check map num_bits interval_bits start pend (Z.to_nat (to_reserve - 1)) 1 with
          | Some start => search start
          | None => Some start
          end
    end
  else Some start.

Fixpoint pmap_set (map : M) (num_bits interval_bits start : Z) (n : nat) (i : Z) : M :=
  match n with
  | O => map
  | S n =>
      pmap_set (bitmap_set map (start + interval_bits * i) num_bits)
        num_bits interval_bits start n (i + 1)
  end.

Fixpoint pmap_clear (map : M) (num_bits interval_bits start : Z) (n : nat) (i : Z) : M :=
  match n with
  | O => map
  | S n =>
      pmap_clear (bitmap_clear map (start + interval_bits * i) num_bits)
        num_bits interval_bits start n (i + 1)
  end.

Definition pmap_schedule (map : M)
    (bits_per_period periods_in_map num_bits interval start : Z) (only_one_period : bool)
  : option (Z * M) :=
  if num_bits >? bits_per_period then Some (- ENOSPC, map)
  else
    let interval := gcd interval periods_in_map in
    let interval_bits := bits_per_period * interval in
    let to_reserve := periods_in_map / interval in
    if start >=? interval_bits then Some (- ENOSPC, map)
    else
      let first_end :=
        if only_one_period then period_end bits_per_period start else interval_bits in
      match pmap_search (Z.to_nat (first_end - start)) map bits_per_period num_bits
              interval_bits to_reserve first_end start with
      | None => None
      | Some start =>
          if start + num_bits >? first_end then Some (- ENOSPC, map)
          else Some (start, pmap_set map num_bits interval_bits start (Z.to_nat to_reserve) 0)
      end.

Definition pmap_unschedule (map : M)
    (bits_per_period periods_in_map num_bits interval start : Z) : M :=
  let interval := gcd interval periods_in_map in
  let interval_bits := bits_per_period * interval in
  let to_release := periods_in_map / interval in
  pmap_clear map num_bits interval_bits start (Z.to_nat to_release) 0.
End Pmap.

(** ** The reference: what a reservation occupies, and which start is right *)

Section Reference.
Context {M : Type} `{!BitmapOps M}.

(** The bits of [reps] repetitions, [interval_bits] apart. *)
Definition slot_bits (num interval_bits reps start b : Z) : bool :=
  existsb (fun i => in_area (start + interval_bits * i) num b) (seqZ 0 reps).

Definition slots_free (m : M) (num interval_bits reps start : Z) : Prop :=
  forall i, 0 <= i < reps -> area_free m (start + interval_bits * i) num.

(** A start at which [num] bits fit in one period and are free in every
    repetition. *)
Definition fits (m : M) (bpp num interval_bits reps s : Z) : Prop :=
  s + num <= period_end bpp s /\ slots_free m num interval_bits reps s.

(** The request of [pmap_schedule]: where it may start. *)
Definition pmap_valid (m : M) (bpp periods num interval start : Z) (only_one_period : bool)
    (s : Z) : Prop :=
  let iv := Z.gcd interval periods in
  start < bpp * iv /\ start <= s
  /\ s + num <= (if only_one_period then period_end bpp start else bpp * iv)
  /\ fits m bpp num (bpp * iv) (periods / iv) s.

(** The bits a reservation at [s] takes. *)
Definition pmap_bits (bpp periods num interval s b : Z) : bool :=
  let iv := Z.gcd interval periods in slot_bits num (bpp * iv) (periods / iv) s b.
End Reference.

(** ** Facts *)

Lemma in_area_true s n b : in_area s n b = true <-> s <= b < s + n.
Proof. unfold in_area. rewrite andb_true_iff. lia. Qed.

Lemma in_area_false s n b : in_area s n b = false <-> ~ s <= b < s + n.
Proof. rewrite <- in_area_true. by destruct (in_area s n b). Qed.

Lemma slot_bits_true num ib reps s b :
  slot_bits num ib reps s b = true
  <-> exists i, 0 <= i < reps /\ s + ib * i <= b < s + ib * i + num.
Proof.
  unfold slot_bits. rewrite existsb_exists. split.
  - intros (i & Hi & H). apply list_elem_of_In, elem_of_seqZ in Hi.
    apply in_area_true in H. exists i. lia.
  - intros (i & Hi & H). exists i. rewrite <- list_elem_of_In, elem_of_seqZ, in_area_true. lia.
Qed.

Lemma period_end_gt bpp s : 0 < bpp -> s < period_end bpp s.
Proof. intros. unfold period_end. pose proof (Z.div_mod s bpp). pose proof (Z.mod_pos_bound s bpp). nia. Qed.

Lemma period_end_same bpp s x :
  0 < bpp -> s <= x < period_end bpp s -> period_end bpp x = period_end bpp s.
Proof.
  intros Hb. unfold period_end. intros Hx. f_equal. f_equal.
  pose proof (Z.div_mod s bpp). pose proof (Z.mod_pos_bound s bpp).
  symmetry. apply (Z.div_unique x bpp _ (x - bpp * (s / bpp))); [left|]; nia.
Qed.

Lemma period_end_mult bpp k : 0 < bpp -> period_end bpp (k * bpp) = (k + 1) * bpp.
Proof. intros. unfold period_end. by rewrite Z.div_mul by lia. Qed.

Section Facts.
Context {M : Type} `{Ho : !BitmapOps M} `{Hl : !BitmapLaws M}.

Lemma not_free_shift (m : M) x ib i num reps :
  0 <= i < reps -> ~ area_free m (x + ib * i) num -> ~ slots_free m num ib reps x.
Proof. intros Hi Hn Hs. apply Hn, Hs, Hi. Qed.

(** The first search also decides whether one area is free. *)
Lemma find_exact (m : M) s n :
  0 <= s -> 1 <= n ->
  (bitmap_find_next_zero_area m (s + n) s n = s <-> area_free m s n).
Proof.
  intros Hs Hn. destruct (find_zero_area m (s + n) s n Hs Hn) as [(H1 & H2 & H3 & _)|[H1 H2]].
  - assert (E : bitmap_find_next_zero_area m (s + n) s n = s) by lia.
    rewrite E in *. done.
  - split; [lia|]. intros Hf. exfalso. by apply (H2 s); [lia..|].
Qed.

Lemma pmap_check_spec (m : M) bpp num ib s n i :
  0 < bpp -> 1 <= num -> 0 <= ib -> 0 <= s -> 0 <= i ->
  s + num <= period_end bpp s ->
  match pmap_check m num ib s (period_end bpp s) n i with
  | None => forall j, i <= j < i + Z.of_nat n -> area_free m (s + ib * j) num
  | Some s' => s < s' /\ forall x reps, s <= x < s' -> x + num <= period_end bpp x ->
                 i + Z.of_nat n <= reps -> ~ slots_free m num ib reps x
  end.
Proof.
  intros Hb Hn Hib Hs Hi Hp. revert i Hi. induction n as [|n IH]; intros i Hi; cbn [pmap_check].
  { lia. }
  cbv zeta. set (q := s + ib * i). assert (His : 0 <= q) by (unfold q; nia).
  destruct (Z.eqb_spec (bitmap_find_next_zero_area m (q + num) q num) q) as [E|E].
  - apply find_exact in E; [|done..]. specialize (IH (i + 1) ltac:(lia)).
    case_match.
    + destruct IH as [H1 H2]. split; [done|]. intros x reps Hx Hxp Hr. apply (H2 x reps); [done..|lia].
    + intros j Hj. destruct (Z.eq_dec j i) as [->|]; [done|apply IH; lia].
  - assert (Hnf : ~ area_free m q num) by (by rewrite <- find_exact).
    pose proof (find_zero_area m (period_end bpp s + ib * i) q num His Hn) as Hf.
    set (r := bitmap_find_next_zero_area m (period_end bpp s + ib * i) q num) in *.
    cbv zeta in Hf. destruct (Z.geb_spec r (period_end bpp s + ib * i)) as [Hge|Hlt].
    + destruct Hf as [(H1 & H2 & _)|[_ Hf]]; [lia|].
      split; [lia|]. intros x reps Hx Hxp Hr. rewrite (period_end_same bpp s x) in Hxp by lia.
      apply (not_free_shift m x ib i); [lia|]. apply Hf; unfold q; lia.
    + destruct Hf as [(H1 & H2 & Hfr & Hf)|[H1 _]]; [|lia].
      assert (r <> q) by (intros Er; rewrite Er in Hfr; done).
      unfold q in *. split; [lia|]. intros x reps Hx Hxp Hr.
      apply (not_free_shift m x ib i); [lia|]. apply Hf; lia.
Qed.

(** The search answers the first start that fits, within its fuel. *)
Lemma pmap_search_spec (m : M) bpp num ib reps k fuel s :
  let fe := k * bpp in
  0 < bpp -> 1 <= num -> 0 <= ib -> 1 <= reps -> 0 <= s -> fe - s <= Z.of_nat fuel ->
  exists r, pmap_search fuel m bpp num ib reps fe s = Some r
  /\ ((s <= r /\ r + num <= fe /\ fits m bpp num ib reps r
       /\ forall x, s <= x < r -> ~ fits m bpp num ib reps x)
      \/ (fe < r + num /\ forall x, s <= x -> x + num <= fe -> ~ fits m bpp num ib reps x)).
Proof.
  intros fe Hb Hn Hib Hre. revert s. induction fuel as [|fuel IH]; intros s Hs Hfu;
    cbn [pmap_search].
  { destruct (Z.leb_spec (s + num) fe); [lia|]. exists s. split; [done|]. right. split; lia. }
  destruct (Z.leb_spec (s + num) fe) as [Hle|Hgt].
  2: { exists s. split; [done|]. right. split; lia. }
  cbv zeta. pose proof (period_end_gt bpp s Hb) as Hpe.
  assert (Hpf : period_end bpp s <= fe).
  { unfold period_end, fe. pose proof (Z.div_lt_upper_bound s bpp k Hb). unfold fe in *. nia. }
  pose proof (find_zero_area m (period_end bpp s) s num Hs Hn) as Hf. cbv zeta in Hf.
  set (r0 := bitmap_find_next_zero_area m (period_end bpp s) s num) in *.
  destruct (Z.geb_spec r0 (period_end bpp s)) as [Hge|Hlt].
  - destruct Hf as [(H1 & H2 & _)|[_ Hf]]; [lia|].
    assert (Hno : forall x, s <= x < period_end bpp s -> ~ fits m bpp num ib reps x).
    { intros x Hx [Hxp Hxs]. rewrite (period_end_same bpp s x) in Hxp by lia.
      apply (Hf x); [lia..|]. specialize (Hxs 0 ltac:(lia)). by rewrite Z.mul_0_r, Z.add_0_r in Hxs. }
    destruct (IH (period_end bpp s)) as (r & Hr & Hc); [lia..|]. exists r. split; [done|].
    destruct Hc as [(H1 & H2 & H3 & H4)|[H1 H2]]; [left|right].
    + split; [lia|]. split; [done|]. split; [done|]. intros x Hx.
      destruct (Z.lt_ge_cases x (period_end bpp s)); [apply Hno|apply H4]; lia.
    + split; [done|]. intros x Hx Hxe.
      destruct (Z.lt_ge_cases x (period_end bpp s)); [apply Hno|apply H2]; lia.
  - destruct Hf as [(H1 & H2 & Hfr & Hf)|[H1 _]]; [|lia].
    assert (Hpr : period_end bpp r0 = period_end bpp s) by (apply period_end_same; lia).
    assert (Hno : forall x, s <= x < r0 -> ~ fits m bpp num ib reps x).
    { intros x Hx [_ Hxs]. apply (Hf x Hx). specialize (Hxs 0 ltac:(lia)).
      by rewrite Z.mul_0_r, Z.add_0_r in Hxs. }
    pose proof (pmap_check_spec m bpp num ib r0 (Z.to_nat (reps - 1)) 1 Hb Hn Hib
                  ltac:(lia) ltac:(lia) ltac:(lia)) as Hc.
    rewrite Hpr in Hc. destruct (pmap_check _ _ _ _ _ _ _) as [s'|].
    + destruct Hc as [Hs' Hc]. destruct (IH s') as (r & Hr & Hcr); [lia..|].
      exists r. split; [done|].
      assert (Hno' : forall x, s <= x < s' -> ~ fits m bpp num ib reps x).
      { intros x Hx. destruct (Z.lt_ge_cases x r0); [apply Hno; lia|].
        intros [Hxp Hxs]. apply (Hc x reps); [lia|done|lia|done]. }
      destruct Hcr as [(E1 & E2 & E3 & E4)|[E1 E2]]; [left|right].
      * split; [lia|]. split; [done|]. split; [done|]. intros x Hx.
        destruct (Z.lt_ge_cases x s'); [apply Hno'|apply E4]; lia.
      * split; [done|]. intros x Hx Hxe.
        destruct (Z.lt_ge_cases x s'); [apply Hno'|apply E2]; lia.
    + exists r0. split; [done|]. left. split; [lia|]. split; [lia|]. split; [|done].
      split; [lia|]. intros i Hi. destruct (Z.eq_dec i 0) as [->|]; [|apply Hc; lia].
      by rewrite Z.mul_0_r, Z.add_0_r.
Qed.

Lemma slot_bits_succ num ib s n i b :
  existsb (fun j => in_area (s + ib * j) num b) (seqZ i (Z.of_nat (S n)))
  = in_area (s + ib * i) num b
    || existsb (fun j => in_area (s + ib * j) num b) (seqZ (i + 1) (Z.of_nat n)).
Proof. rewrite seqZ_cons by lia. cbn [existsb]. do 2 f_equal; f_equal; lia. Qed.

Lemma test_pmap_set (m : M) num ib s n i b :
  0 <= num -> 0 <= ib -> 0 <= s -> 0 <= i ->
  test_bit (pmap_set m num ib s n i) b
  = test_bit m b || existsb (fun j => in_area (s + ib * j) num b) (seqZ i (Z.of_nat n)).
Proof.
  intros Hn Hib Hs. revert m i. induction n as [|n IH]; intros m i Hi; cbn [pmap_set].
  { by rewrite orb_false_r. }
  rewrite slot_bits_succ, IH, test_bitmap_set by nia. by rewrite orb_assoc.
Qed.

Lemma test_pmap_clear (m : M) num ib s n i b :
  0 <= num -> 0 <= ib -> 0 <= s -> 0 <= i ->
  test_bit (pmap_clear m num ib s n i) b
  = test_bit m b && negb (existsb (fun j => in_area (s + ib * j) num b) (seqZ i (Z.of_nat n))).
Proof.
  intros Hn Hib Hs. revert m i. induction n as [|n IH]; intros m i Hi; cbn [pmap_clear].
  { by rewrite andb_true_r. }
  rewrite slot_bits_succ, IH, test_bitmap_clear by nia. by rewrite negb_orb, andb_assoc.
Qed.

(** The bits of a start that fits are free. *)
Lemma slots_free_bits (m : M) num ib reps s b :
  slots_free m num ib reps s -> slot_bits num ib reps s b = true -> test_bit m b = false.
Proof. intros Hf Hb. apply slot_bits_true in Hb as (i & Hi & Hb). by apply (Hf i Hi). Qed.
End Facts.

(** ** Main theorems *)

Section Theorems.
Context {M : Type} `{Ho : !BitmapOps M} `{Hl : !BitmapLaws M}.

(** The parameters of a request: a map of at least one period of at least one
    bit, at least one bit to reserve. *)
Definition pmap_request (bpp periods num interval start : Z) : Prop :=
  1 <= bpp /\ 1 <= periods /\ 1 <= num /\ 0 <= interval /\ 0 <= start.

Lemma gcd_periods interval periods :
  0 <= interval -> 1 <= periods ->
  1 <= Z.gcd interval periods /\ 1 <= periods / Z.gcd interval periods
  /\ Z.gcd interval periods * (periods / Z.gcd interval periods) = periods.
Proof.
  intros Hi Hp. pose proof (Z.gcd_nonneg interval periods) as H0.
  destruct (Z.gcd_divide_r interval periods) as [q Hq].
  set (g := Z.gcd interval periods) in *.
  assert (H1 : g <> 0) by (intros ->; lia).
  assert (Hd : periods / g = q) by (rewrite Hq at 1; by apply Z.div_mul).
  rewrite Hd. assert (1 <= q) by nia. lia.
Qed.

(** The search ends, with the right answer. *)
Lemma pmap_schedule_total (m : M) bpp periods num interval start only :
  pmap_request bpp periods num interval start ->
  exists ret m', pmap_schedule m bpp periods num interval start only = Some (ret, m')
  /\ ((pmap_valid m bpp periods num interval start only ret
       /\ (forall s, pmap_valid m bpp periods num interval start only s -> ret <= s)
       /\ forall b, test_bit m' b = test_bit m b || pmap_bits bpp periods num interval ret b)
      \/ (ret = - ENOSPC /\ m' = m
          /\ forall s, ~ pmap_valid m bpp periods num interval start only s)).
Proof.
  intros (Hb & Hp & Hn & Hi & Hs). unfold pmap_schedule, pmap_valid, pmap_bits.
  rewrite gcd_spec by lia. destruct (gcd_periods interval periods Hi Hp) as (Hg & Hr & Hgr).
  set (iv := Z.gcd interval periods) in *. set (reps := periods / iv) in *. cbv zeta.
  destruct (Z.gtb_spec num bpp) as [Hnb|Hnb].
  { exists (- ENOSPC), m. split; [done|]. right. split; [done|]. split; [done|].
    intros s (_ & H1 & _ & H2 & _). unfold period_end in H2.
    pose proof (Z.mod_pos_bound s bpp). pose proof (Z.div_mod s bpp). nia. }
  destruct (Z.geb_spec start (bpp * iv)) as [Hge|Hlt].
  { exists (- ENOSPC), m. split; [done|]. right. split; [done|]. split; [done|]. lia. }
  set (fe := if only then _ else _).
  assert (Hk : exists k, fe = k * bpp) by (unfold fe; destruct only; [by eexists|exists iv; lia]).
  destruct Hk as [k Hk]. rewrite Hk.
  destruct (pmap_search_spec m bpp num (bpp * iv) reps k (Z.to_nat (k * bpp - start)) start)
    as (r & -> & Hr'); [lia|done|nia|done|done|lia|].
  destruct Hr' as [(H1 & H2 & H3 & H4)|[H1 H2]].
  - destruct (Z.gtb_spec (r + num) (k * bpp)); [lia|].
    exists r. eexists. split; [done|]. left. split; [done|]. split.
    + intros s (_ & Hs1 & _ & Hs2). destruct (Z.le_gt_cases r s); [done|].
      exfalso. apply (H4 s); [lia|done].
    + intros b. rewrite test_pmap_set by nia. unfold slot_bits.
      by rewrite Z2Nat.id by lia.
  - destruct (Z.gtb_spec (r + num) (k * bpp)); [|lia].
    exists (- ENOSPC), m. split; [done|]. right. split; [done|]. split; [done|].
    intros s (_ & Hs1 & Hs2 & Hs3). by apply (H2 s).
Qed.

Lemma test_pmap_unschedule (m : M) bpp periods num interval s b :
  1 <= bpp -> 1 <= periods -> 0 <= num -> 0 <= interval -> 0 <= s ->
  test_bit (pmap_unschedule m bpp periods num interval s) b
  = test_bit m b && negb (pmap_bits bpp periods num interval s b).
Proof.
  intros Hb Hp Hn Hi Hs. unfold pmap_unschedule, pmap_bits, slot_bits.
  rewrite gcd_spec by lia. destruct (gcd_periods interval periods Hi Hp) as (Hg & Hr & Hgr).
  cbv zeta. rewrite test_pmap_clear by nia. by rewrite Z2Nat.id by lia.
Qed.

(** What a successful reservation tells. *)
Lemma pmap_schedule_ok (m : M) bpp periods num interval start only ret m' :
  pmap_request bpp periods num interval start ->
  pmap_schedule m bpp periods num interval start only = Some (ret, m') -> 0 <= ret ->
  pmap_valid m bpp periods num interval start only ret
  /\ forall b, test_bit m' b = test_bit m b || pmap_bits bpp periods num interval ret b.
Proof.
  intros Hreq E Hret.
  destruct (pmap_schedule_total m bpp periods num interval start only Hreq) as (r & m1 & E' & Hc).
  rewrite E in E'. injection E' as <- <-.
  destruct Hc as [(H1 & _ & H2)|(-> & _)]; [done|]. unfold ENOSPC in Hret. lia.
Qed.

Lemma pmap_schedule_fail (m : M) bpp periods num interval start only ret m' :
  pmap_request bpp periods num interval start ->
  pmap_schedule m bpp periods num interval start only = Some (ret, m') -> ret < 0 ->
  ret = - ENOSPC /\ m' = m.
Proof.
  intros Hreq E Hret.
  destruct (pmap_schedule_total m bpp periods num interval start only Hreq) as (r & m1 & E' & Hc).
  rewrite E in E'. injection E' as <- <-.
  destruct Hc as [((_ & Hs & _) & _)|(-> & -> & _)]; [|done]. destruct Hreq; lia.
Qed.

(** The bits of a valid start: free before, and inside the map. *)
Lemma pmap_valid_bits (m : M) bpp periods num interval start only s b :
  pmap_request bpp periods num interval start ->
  pmap_valid m bpp periods num interval start only s ->
  pmap_bits bpp periods num interval s b = true ->
  test_bit m b = false /\ 0 <= b < bpp * periods.
Proof.
  intros (Hb & Hp & Hn & Hi & Hs) (Hlt & Hge & Hle & Hpe & Hfr) Hbit. unfold pmap_bits in Hbit.
  split; [by eapply slots_free_bits|].
  destruct (gcd_periods interval periods Hi Hp) as (Hg & Hr & Hgr).
  apply slot_bits_true in Hbit as (i & Hi' & Hbi).
  set (iv := Z.gcd interval periods) in *. set (reps := periods / iv) in *.
  assert (Hend : s + num <= bpp * iv).
  { destruct only; [|done]. unfold period_end in Hle.
    pose proof (Z.div_lt_upper_bound start bpp iv ltac:(lia) ltac:(lia)). nia. }
  assert (Hbp : bpp * periods = bpp * iv * reps) by nia. nia.
Qed.

(** C17: [pmap_schedule] always answers, and answers right: it reserves at the
    first start at or after the requested one at which the bits fit inside one
    period - the period of the requested start, with [only_one_period] - and
    are free in every repetition, and then sets exactly the bits of the
    reservation; it answers [-ENOSPC], leaving the map alone, only when there
    is no such start. *)
Theorem pmap_schedule_exact (m : M) bpp periods num interval start only :
  pmap_request bpp periods num interval start ->
  exists ret m', pmap_schedule m bpp periods num interval start only = Some (ret, m')
  /\ ((pmap_valid m bpp periods num interval start only ret
       /\ (forall s, pmap_valid m bpp periods num interval start only s -> ret <= s)
       /\ forall b, test_bit m' b = test_bit m b || pmap_bits bpp periods num interval ret b)
      \/ (ret = - ENOSPC /\ m' = m
          /\ forall s, ~ pmap_valid m bpp periods num interval start only s)).
Proof. apply pmap_schedule_total. Qed.

(** Releasing what was just reserved restores the map. *)
Theorem pmap_unschedule_schedule (m : M) bpp periods num interval start only ret m' :
  pmap_request bpp periods num interval start ->
  pmap_schedule m bpp periods num interval start only = Some (ret, m') -> 0 <= ret ->
  pmap_unschedule m' bpp periods num interval ret ≡ m.
Proof.
  intros Hreq E Hret b. destruct (pmap_schedule_ok _ _ _ _ _ _ _ _ _ Hreq E Hret) as [Hv Hb].
  pose proof Hreq as (H1 & H2 & H3 & H4 & H5).
  rewrite test_pmap_unschedule, Hb by lia.
  pose proof (pmap_valid_bits _ _ _ _ _ _ _ _ b Hreq Hv) as Hfree.
  destruct (pmap_bits _ _ _ _ _ b); [by rewrite (proj1 (Hfree eq_refl))|].
  by rewrite orb_false_r, andb_true_r.
Qed.

(** *** A map in use: the ledger of its reservations *)

Record resv := mkresv { r_num : Z; r_interval : Z; r_start : Z }.

Section Ledger.
Variables bpp periods : Z.

Definition resv_bits (b : Z) (r : resv) : bool :=
  pmap_bits bpp periods (r_num r) (r_interval r) (r_start r) b.

(** How many reservations hold bit [b]. *)
Definition holders (L : list resv) (b : Z) : Z := Z.of_nat (length (List.filter (resv_bits b) L)).

(** Reserving, failing to, and releasing one of the reservations held. *)
Inductive pmap_step : M * list resv -> M * list resv -> Prop :=
| step_schedule m L num interval start only ret m' :
    pmap_request bpp periods num interval start ->
    pmap_schedule m bpp periods num interval start only = Some (ret, m') -> 0 <= ret ->
    pmap_step (m, L) (m', mkresv num interval ret :: L)
| step_full m L num interval start only ret m' :
    pmap_request bpp periods num interval start ->
    pmap_schedule m bpp periods num interval start only = Some (ret, m') -> ret < 0 ->
    pmap_step (m, L) (m', L)
| step_release m L1 r L2 :
    pmap_step (m, L1 ++ r :: L2)
      (pmap_unschedule m bpp periods (r_num r) (r_interval r) (r_start r), L1 ++ L2).

(** Every bit is set exactly if one reservation holds it, and none is held
    twice. *)
Definition ledger_inv (st : M * list resv) : Prop :=
  let '(m, L) := st in
  (forall b, holders L b = Z.b2z (test_bit m b))
  /\ Forall (fun r => 1 <= bpp /\ 1 <= periods /\ 1 <= r_num r /\ 0 <= r_interval r /\ 0 <= r_start r
                      /\ forall b, resv_bits b r = true -> 0 <= b < bpp * periods) L.

Lemma holders_cons r L b : holders (r :: L) b = Z.b2z (resv_bits b r) + holders L b.
Proof. unfold holders. cbn [List.filter]. destruct (resv_bits b r); cbn [length Z.b2z]; lia. Qed.

Lemma holders_app L1 L2 b : holders (L1 ++ L2) b = holders L1 b + holders L2 b.
Proof. unfold holders. rewrite List.filter_app, length_app. lia. Qed.

Lemma holders_nonneg L b : 0 <= holders L b.
Proof. unfold holders. lia. Qed.

Lemma pmap_step_inv st st' : pmap_step st st' -> ledger_inv st -> ledger_inv st'.
Proof.
  intros [m L num interval start only ret m' Hreq E Hret
         |m L num interval start only ret m' Hreq E Hret|m L1 r L2] [Hh Hf]; cbn.
  - destruct (pmap_schedule_ok _ _ _ _ _ _ _ _ _ Hreq E Hret) as [Hv Hb].
    split.
    + intros b. rewrite holders_cons, Hh, Hb. unfold resv_bits; cbn [r_num r_interval r_start].
      pose proof (pmap_valid_bits _ _ _ _ _ _ _ _ b Hreq Hv) as Hfree.
      destruct (pmap_bits _ _ _ _ _ b); [by rewrite (proj1 (Hfree eq_refl))|].
      by rewrite orb_false_r.
    + constructor; [|done]. destruct Hreq as (H1 & H2 & H3 & H4 & H5).
      split_and!; cbn; try lia. intros b Hbit.
      by eapply (pmap_valid_bits m bpp periods num interval start only ret b).
  - destruct (pmap_schedule_fail _ _ _ _ _ _ _ _ _ Hreq E Hret) as [_ ->]. done.
  - apply Forall_app in Hf as [Hf1 Hf2]. inversion Hf2 as [|? ? Hr Hf2']; subst.
    destruct Hr as (H1 & H2 & H3 & H4 & H5 & _). split; [|by apply Forall_app].
    intros b. rewrite test_pmap_unschedule by lia.
    specialize (Hh b). rewrite holders_app, holders_cons in Hh. rewrite holders_app.
    fold (resv_bits b r).
    pose proof (holders_nonneg L1 b). pose proof (holders_nonneg L2 b).
    destruct (resv_bits b r), (test_bit m b); cbn in *; lia.
Qed.

(** C18: A map in use is exactly its reservations: however reservations are made
    and released, starting from an empty map, a bit is set if and only if a
    reservation that is held covers it, no bit is covered by two of them, and
    none lies outside the map. *)
Theorem pmap_ledger_exact m0 m L :
  (forall b, test_bit m0 b = false) ->
  rtc pmap_step (m0, []) (m, L) ->
  forall b, holders L b = Z.b2z (test_bit m b) /\ (test_bit m b = true -> 0 <= b < bpp * periods).
Proof.
  intros H0 Hr.
  assert (Hinv : ledger_inv (m, L)).
  { eapply (rtc_ind_l (fun st => ledger_inv st -> ledger_inv (m, L))); [done| |exact Hr|].
    - intros x y Hxy _ IH Hx. by apply IH, (pmap_step_inv x y).
    - split; [|done]. intros b. by rewrite H0. }
  destruct Hinv as [Hh Hf]. intros b. split; [done|]. intros Hb.
  specialize (Hh b). rewrite Hb in Hh. cbn in Hh.
  destruct (List.filter (resv_bits b) L) as [|r l] eqn:E; [unfold holders in Hh; by rewrite E in Hh|].
  assert (Hin : In r (List.filter (resv_bits b) L)) by (rewrite E; by left).
  apply filter_In in Hin as [Hin Hbit]. rewrite Forall_forall in Hf.
  by apply (Hf r); [apply list_elem_of_In|].
Qed.
End Ledger.
End Theorems.

(** ** A concrete bitmap: a word of any width *)

Fixpoint zfind (fuel : nat) (m size s n : Z) : Z :=
  match fuel with
  | O => s + n
  | S fuel =>
      if s + n >? size then s + n
      else if m .& (Z.ones n .<< s) =? 0 then s
      else zfind fuel m size (s + 1) n
  end.

#[export] Instance word_bitmap : BitmapOps Z := {
  test_bit := Z.testbit;
  bitmap_set m s n := m .| (Z.ones n .<< s);
  bitmap_clear m s n := Z.ldiff m (Z.ones n .<< s);
  bitmap_find_next_zero_area m size s n := zfind (Z.to_nat (size - s)) m size s n;
  gcd := Z.gcd
}.

Lemma ones_area s n b : 0 <= s -> 0 <= n -> Z.testbit (Z.ones n .<< s) b = in_area s n b.
Proof.
  intros Hs Hn. destruct (Z.ltb_spec b 0) as [H|H].
  { rewrite Z.testbit_neg_r by done. symmetry. apply in_area_false. lia. }
  rewrite Z.shiftl_spec by done. destruct (in_area s n b) eqn:E.
  - apply in_area_true in E. apply Z.ones_spec_low. lia.
  - apply in_area_false in E. destruct (Z.lt_ge_cases b s).
    + apply Z.testbit_neg_r. lia.
    + apply Z.ones_spec_high. lia.
Qed.

Lemma area_free_word m s n : 0 <= s -> 0 <= n -> area_free m s n <-> (m .& (Z.ones n .<< s) =? 0) = true.
Proof.
  intros Hs Hn. rewrite Z.eqb_eq. unfold area_free. cbn. split.
  - intros H. apply Z.bits_inj'. intros i Hi. rewrite Z.land_spec, ones_area, Z.bits_0 by done.
    destruct (in_area s n i) eqn:E; [|by rewrite andb_false_r].
    apply in_area_true in E. by rewrite H.
  - intros H b Hb. apply (f_equal (fun z => Z.testbit z b)) in H.
    rewrite Z.land_spec, ones_area, Z.bits_0 in H by done.
    apply in_area_true in Hb. by rewrite Hb, andb_true_r in H.
Qed.

Lemma zfind_spec fuel m size s n :
  0 <= s -> 1 <= n -> size - s <= Z.of_nat fuel ->
  let r := zfind fuel m size s n in
  (s <= r /\ r + n <= size /\ area_free m r n /\ forall x, s <= x < r -> ~ area_free m x n)
  \/ (size <= r /\ forall x, s <= x -> x + n <= size -> ~ area_free m x n).
Proof.
  intros Hs Hn. revert s Hs. induction fuel as [|fuel IH]; intros s Hs Hf; cbn [zfind].
  { right. split; lia. }
  destruct (Z.gtb_spec (s + n) size); [right; split; lia|].
  destruct (m .& (Z.ones n .<< s) =? 0) eqn:E.
  - apply area_free_word in E; [|lia..]. left. split_and!; [lia..|done|lia].
  - assert (Hnf : ~ area_free m s n) by (rewrite area_free_word by lia; by rewrite E).
    destruct (IH (s + 1)) as [(H1 & H2 & H3 & H4)|[H1 H2]]; [lia..|left|right].
    + split; [lia|]. split; [done|]. split; [done|]. intros x Hx.
      destruct (Z.eq_dec x s) as [->|]; [done|]. apply H4. lia.
    + split; [done|]. intros x Hx Hxs. destruct (Z.eq_dec x s) as [->|]; [done|]. apply H2; lia.
Qed.

#[export] Instance word_bitmap_laws : BitmapLaws Z.
Proof.
  split; cbn.
  - intros. by rewrite Z.lor_spec, ones_area.
  - intros. by rewrite Z.ldiff_spec, ones_area.
  - intros. apply zfind_spec; lia.
  - done.
Qed.

(** The map of the source's comment, 8 periods of 5 bits: reservations of 2 bits
    every 2 periods, 3 every 3 and 1 every 4 start at bits 0, 2 and 5. *)
Example pmap_comment :
  exists m1 m2 m3,
    pmap_schedule 0 5 8 2 2 0 false = Some (0, m1)
    /\ pmap_schedule m1 5 8 3 3 0 false = Some (2, m2)
    /\ pmap_schedule m2 5 8 1 4 0 false = Some (5, m3)
    /\ pmap_schedule (pmap_unschedule m3 5 8 3 3 2) 5 8 1 6 0 false
       = Some (2, pmap_set (pmap_unschedule m3 5 8 3 3 2) 1 10 2 4 0).
Proof. do 3 eexists. repeat split; vm_compute; reflexivity. Qed.

Lemma pmap_schedule_exact_witness :
  pmap_request 100 8 30 2 0
  /\ exists ret m', pmap_schedule (M := Z) 0xff 100 8 30 2 0 false = Some (ret, m') /\ ret = 8.
Proof.
  assert (H : pmap_request 100 8 30 2 0) by (unfold pmap_request; lia).
  split; [exact H|].
  destruct (pmap_schedule_exact (M := Z) 0xff 100 8 30 2 0 false H) as (ret & m' & E & _).
  exists ret, m'. split; [exact E|].
  assert (E8 : (fst <$> pmap_schedule (M := Z) 0xff 100 8 30 2 0 false) = Some 8)
    by (vm_compute; reflexivity).
  rewrite E in E8. by injection E8.
Defined.

Definition demo_map : Z := Eval vm_compute in
  match pmap_schedule (M := Z) 0xff 100 8 30 2 0 false with Some (_, m) => m | None => 0 end.

Definition demo_map2 : Z := Eval vm_compute in
  match pmap_schedule (M := Z) 0 100 8 30 2 0 false with Some (_, m) => m | None => 0 end.

Lemma pmap_unschedule_schedule_witness :
  pmap_schedule (M := Z) 0xff 100 8 30 2 0 false = Some (8, demo_map)
  /\ pmap_unschedule demo_map 100 8 30 2 8 ≡ (0xff : Z).
Proof.
  assert (E : pmap_schedule (M := Z) 0xff 100 8 30 2 0 false = Some (8, demo_map))
    by (vm_compute; reflexivity).
  split; [exact E|].
  apply (pmap_unschedule_schedule (M := Z) 0xff 100 8 30 2 0 false 8 demo_map);
    [unfold pmap_request; lia|exact E|lia].
Defined.

Lemma pmap_ledger_exact_witness :
  let st := (demo_map2, [mkresv 30 2 0]) in
  (forall b, test_bit (0 : Z) b = false)
  /\ rtc (pmap_step (M := Z) 100 8) (0, []) st
  /\ holders 100 8 [mkresv 30 2 0] 205 = 1.
Proof.
  intros st.
  assert (H0 : forall b, test_bit (0 : Z) b = false) by (intros b; apply Z.testbit_0_l).
  assert (Hr : rtc (pmap_step (M := Z) 100 8) (0, []) st).
  { apply rtc_once, (step_schedule 100 8 0 [] 30 2 0 false 0 demo_map2);
      [unfold pmap_request; lia|vm_compute; reflexivity|lia]. }
  split; [exact H0|]. split; [exact Hr|].
  destruct (pmap_ledger_exact (M := Z) 100 8 0 demo_map2 _ H0 Hr 205) as [E _]. rewrite E.
  vm_compute. reflexivity.
Defined.
