(* ===== verification/Dwc2Sched.v ===== *)
(** * Dwc2Sched: placing periodic transfers in the schedules of the USB host
      controller (src/usb/dwc2/hcd_queue.c)

    A queue head (QH) is scheduled on the high-speed map of the controller, on
    the low-speed map of its transaction translator, or, for a split transfer, on
    both.  The duration macros and the bus-time calculation belong to the USB
    core and are parameters. *)

From S2P Require Export UsbPmap.
From stdpp Require Export functions.
#[global] Open Scope Z_scope.

(** ** Constants of core.h *)
Definition DWC2_HS_PERIODIC_US_PER_UFRAME : Z := 100.
Definition DWC2_HS_SCHEDULE_UFRAMES : Z := 8.
Definition DWC2_US_PER_SLICE : Z := 25.
Definition DWC2_SLICES_PER_UFRAME : Z := 125 / DWC2_US_PER_SLICE.
Definition DWC2_LS_PERIODIC_SLICES_PER_FRAME : Z := 900 / DWC2_US_PER_SLICE.
Definition DWC2_LS_SCHEDULE_FRAMES : Z := 1.
Definition DWC2_LS_SCHEDULE_SLICES : Z :=
  DWC2_LS_SCHEDULE_FRAMES * DWC2_LS_PERIODIC_SLICES_PER_FRAME.

Inductive usb_speed : Set := USB_SPEED_LOW | USB_SPEED_FULL | USB_SPEED_HIGH.
Inductive usb_xfer : Set := XFER_CONTROL | XFER_ISOC | XFER_BULK | XFER_INT.
#[export] Instance usb_speed_eq : EqDecision usb_speed. Proof. solve_decision. Defined.
#[export] Instance usb_xfer_eq : EqDecision usb_xfer. Proof. solve_decision. Defined.

Definition s16 (x : Z) : Z := (x + 2 ^ 15) mod 2 ^ 16 - 2 ^ 15.
Lemma s16_id x : - 2 ^ 15 <= x < 2 ^ 15 -> s16 x = x.
Proof. intros. unfold s16. rewrite Z.mod_small; lia. Qed.

(** ** Data *)

(** [struct dwc2_hs_transfer_time] *)
Record dwc2_hs_transfer_time := mktime { start_schedule_us : Z; duration_us : Z }.

(** [struct dwc2_tt], by the address of its bitmaps, with the flag of the hub. *)
Record dwc2_tt := mktt { tt_id : Z; tt_multi : bool }.

(** [struct dwc2_qh]: what the periodic schedule uses of it. *)
Record dwc2_qh := mkqh {
  ep_type : usb_xfer; ep_is_in : bool; maxp : Z; maxp_mult : Z;
  dev_speed : usb_speed; do_split : bool;
  host_us : Z; device_us : Z; host_interval : Z; device_interval : Z;
  next_active_frame : Z; start_active_frame : Z;
  num_hs_transfers : Z;
  (** [DWC2_HS_SCHEDULE_UFRAMES] entries *)
  hs_transfers : list dwc2_hs_transfer_time;
  ls_start_schedule_slice : Z;
  dwc_tt : option dwc2_tt; ttport : Z;
  unreserve_pending : bool; schedule_low_speed : bool
}.

(** The schedules of [struct dwc2_hsotg]: the high-speed map and the low-speed
    maps, by translator and port. *)
Record dwc2_maps (M : Type) := mkmaps {
  hs_periodic_bitmap : M;
  ls_bitmaps : Z * Z -> M
}.
Arguments mkmaps {M}.
Arguments hs_periodic_bitmap {M}.
Arguments ls_bitmaps {M}.

Section Sched.
Context {M : Type} `{!BitmapOps M}.
(** [HS_USECS_ISO(bytes)] *)
Variable HS_USECS_ISO : Z -> Z.

Definition dwc2_get_ls_map (qh : dwc2_qh) : option (Z * Z) :=
  match dwc_tt qh with
  | None => None
  | Some t => Some (tt_id t, if tt_multi t then ttport qh - 1 else 0)
  end.

(** ** One reservation on one map *)

Definition dwc2_ls_pmap_schedule (h : dwc2_maps M) (qh : dwc2_qh) (search_slice : Z)
  : option (Z * dwc2_maps M * dwc2_qh) :=
  let slices := DIV_ROUND_UP (device_us qh) DWC2_US_PER_SLICE in
  match dwc2_get_ls_map qh with
  | None => Some (- EINVAL, h, qh)
  | Some k =>
      match pmap_schedule (ls_bitmaps h k) DWC2_LS_PERIODIC_SLICES_PER_FRAME
              DWC2_LS_SCHEDULE_FRAMES slices (device_interval qh) search_slice false with
      | None => None
      | Some (slice, m) =>
          let h := {| h with ls_bitmaps := <[k := m]> (ls_bitmaps h) |} in
          if slice <? 0 then Some (slice, h, qh)
          else Some (0, h, {| qh with ls_start_schedule_slice := u32 slice |})
      end
  end.

Definition dwc2_ls_pmap_unschedule (h : dwc2_maps M) (qh : dwc2_qh) : dwc2_maps M :=
  let slices := DIV_ROUND_UP (device_us qh) DWC2_US_PER_SLICE in
  match dwc2_get_ls_map qh with
  | None => h
  | Some k =>
      let m := pmap_unschedule (ls_bitmaps h k) DWC2_LS_PERIODIC_SLICES_PER_FRAME
                 DWC2_LS_SCHEDULE_FRAMES slices (device_interval qh)
                 (ls_start_schedule_slice qh) in
      {| h with ls_bitmaps := <[k := m]> (ls_bitmaps h) |}
  end.

Definition transfer (qh : dwc2_qh) (index : Z) : dwc2_hs_transfer_time :=
  default (mktime 0 0) (hs_transfers qh !! Z.to_nat index).

Definition dwc2_hs_pmap_schedule (h : dwc2_maps M) (qh : dwc2_qh) (only_one_period : bool)
    (index : Z) : option (Z * dwc2_maps M * dwc2_qh) :=
  let trans_time := transfer qh index in
  match pmap_schedule (hs_periodic_bitmap h) DWC2_HS_PERIODIC_US_PER_UFRAME
          DWC2_HS_SCHEDULE_UFRAMES (duration_us trans_time) (host_interval qh)
          (start_schedule_us trans_time) only_one_period with
  | None => None
  | Some (us, m) =>
      let h := {| h with hs_periodic_bitmap := m |} in
      if us <? 0 then Some (us, h, qh)
      else
        let t := {| trans_time with start_schedule_us := u32 us |} in
        Some (0, h, {| qh with hs_transfers := <[Z.to_nat index := t]> (hs_transfers qh) |})
  end.

Definition dwc2_hs_pmap_unschedule (h : dwc2_maps M) (qh : dwc2_qh) (index : Z) : dwc2_maps M :=
  let trans_time := transfer qh index in
  {| h with hs_periodic_bitmap :=
       pmap_unschedule (hs_periodic_bitmap h) DWC2_HS_PERIODIC_US_PER_UFRAME
         DWC2_HS_SCHEDULE_UFRAMES (duration_us trans_time) (host_interval qh)
         (start_schedule_us trans_time) |}.

(** ** Split transfers *)

(** How many transfers, and the bytes of the first, of the ones between and of
    the last one. *)
Definition split_counts (qh : dwc2_qh) (bytecount rel_uframe first_data_bytes other_data_bytes : Z)
  : Z * Z * Z * Z :=
  let num := s16 (1 + DIV_ROUND_UP other_data_bytes 188) in
  if decide (ep_type qh = XFER_INT) then
    let num := s16 (num + if rel_uframe =? 6 then 2 else 3) in
    if ep_is_in qh then (num, 4, bytecount, bytecount)
    else (num, first_data_bytes, Z.max 4 other_data_bytes, 4)
  else if ep_is_in qh then
    let num := s16 (num + 1) in
    let last := rel_uframe + num + 1 in
    let num := if last <=? 6 then s16 (num + 2) else s16 (num + 1) in
    let num := if (last >=? 6) && (rel_uframe =? 0) then s16 (num - 1) else num in
    (num, 4, Z.min 188 bytecount, Z.min 188 bytecount)
  else (num, first_data_bytes, Z.min 188 other_data_bytes, Z.rem other_data_bytes 188).

Definition set_duration (l : list dwc2_hs_transfer_time) (i d : Z) : list dwc2_hs_transfer_time :=
  alter (fun t => {| t with duration_us := u16 d |}) (Z.to_nat i) l.
Definition set_start (l : list dwc2_hs_transfer_time) (i s : Z) : list dwc2_hs_transfer_time :=
  alter (fun t => {| t with start_schedule_us := u32 s |}) (Z.to_nat i) l.

(** The assignments of durations and of start times. *)
Definition split_durations (l : list dwc2_hs_transfer_time)
    (num first_count middle_count end_count : Z) : list dwc2_hs_transfer_time :=
  let l := set_duration l 0 (HS_USECS_ISO first_count) in
  let l := foldl (fun l i => set_duration l i (HS_USECS_ISO middle_count)) l (seqZ 1 (num - 2)) in
  if num >? 1 then set_duration l (num - 1) (HS_USECS_ISO end_count) else l.

Definition split_starts (l : list dwc2_hs_transfer_time)
    (num ssplit_s_uframe second_s_uframe : Z) : list dwc2_hs_transfer_time :=
  let l := set_start l 0 (ssplit_s_uframe * DWC2_HS_PERIODIC_US_PER_UFRAME) in
  foldl (fun l i =>
    set_start l i (Z.rem (second_s_uframe + i - 1) DWC2_HS_SCHEDULE_UFRAMES
                   * DWC2_HS_PERIODIC_US_PER_UFRAME)) l (seqZ 1 (num - 1)).

(** The loop over the transfers: the error and the index it stopped at. *)
Fixpoint hs_schedule_all (h : dwc2_maps M) (qh : dwc2_qh) (n : nat) (i : Z)
  : option (Z * Z * dwc2_maps M * dwc2_qh) :=
  match n with
  | O => Some (0, i, h, qh)
  | S n =>
      match dwc2_hs_pmap_schedule h qh true i with
      | None => None
      | Some (err, h, qh) =>
          if truthy err then Some (err, i, h, qh) else hs_schedule_all h qh n (i + 1)
      end
  end.

(** [for (; i >= 0; i--) dwc2_hs_pmap_unschedule(hsotg, qh, i);] with [n = i + 1]. *)
Fixpoint hs_unschedule_down (h : dwc2_maps M) (qh : dwc2_qh) (n : nat) : dwc2_maps M :=
  match n with
  | O => h
  | S n => hs_unschedule_down (dwc2_hs_pmap_unschedule h qh (Z.of_nat n)) qh n
  end.

Definition ls_undo (h : dwc2_maps M) (qh : dwc2_qh) : dwc2_maps M :=
  if schedule_low_speed qh then dwc2_ls_pmap_unschedule h qh else h.

Inductive split_outcome : Type :=
| SplitReturn (err : Z) (h : dwc2_maps M) (qh : dwc2_qh)
| SplitDone (h : dwc2_maps M) (qh : dwc2_qh)
| SplitAgain (ls_search_slice : Z) (h : dwc2_maps M) (qh : dwc2_qh).

(** The first part of a round, for the low-speed slice the QH has: its transfers, or the
    slice to search from if it cannot start there. *)
Definition split_setup (qh : dwc2_qh) (bytecount host_interval_in_sched : Z) : Z + dwc2_qh :=
  let start_s_uframe := ls_start_schedule_slice qh / DWC2_SLICES_PER_UFRAME in
  let rel_uframe := start_s_uframe mod 8 in
  if rel_uframe =? 7 then
    inl ((ls_start_schedule_slice qh / DWC2_LS_PERIODIC_SLICES_PER_FRAME + 1)
         * DWC2_LS_PERIODIC_SLICES_PER_FRAME)
  else
    let ssplit_s_uframe :=
      Z.rem (start_s_uframe + host_interval_in_sched - 1) host_interval_in_sched in
    let second_s_uframe :=
      if bool_decide (ep_type qh = XFER_ISOC) && negb (ep_is_in qh) then start_s_uframe
      else start_s_uframe + 1 in
    let first_data_bytes :=
      188 - DIV_ROUND_UP (188 * (ls_start_schedule_slice qh mod DWC2_SLICES_PER_UFRAME))
              DWC2_SLICES_PER_UFRAME in
    let first_data_bytes :=
      if first_data_bytes >? bytecount then bytecount else first_data_bytes in
    let other_data_bytes := bytecount - first_data_bytes in
    if negb (ep_is_in qh) && negb (first_data_bytes =? Z.min 188 bytecount) then
      inl ((start_s_uframe + 1) * DWC2_SLICES_PER_UFRAME)
    else
      let '(num, first_count, middle_count, end_count) :=
        split_counts qh bytecount rel_uframe first_data_bytes other_data_bytes in
      let l := split_durations (hs_transfers qh) num first_count middle_count end_count in
      let l := split_starts l num ssplit_s_uframe second_s_uframe in
      inr {| qh with num_hs_transfers := num; hs_transfers := l |}.

(** The high-speed side of one round. *)
Definition split_hs_round (h : dwc2_maps M) (qh : dwc2_qh) (bytecount host_interval_in_sched : Z)
  : option split_outcome :=
  match split_setup qh bytecount host_interval_in_sched with
  | inl ls_search_slice => Some (SplitAgain ls_search_slice (ls_undo h qh) qh)
  | inr qh =>
      match hs_schedule_all h qh (Z.to_nat (num_hs_transfers qh)) 0 with
      | None => None
      | Some (_, i, h, qh) =>
          if i =? num_hs_transfers qh then Some (SplitDone h qh)
          else
            let h := hs_unschedule_down h qh (Z.to_nat (i + 1)) in
            Some (SplitAgain ((ls_start_schedule_slice qh / DWC2_SLICES_PER_UFRAME + 1)
                              * DWC2_SLICES_PER_UFRAME) (ls_undo h qh) qh)
      end
  end.

Definition split_round (h : dwc2_maps M) (qh : dwc2_qh) (ls_search_slice : Z)
  : option split_outcome :=
  let bytecount := maxp_mult qh * maxp qh in
  let host_interval_in_sched := gcd (host_interval qh) DWC2_HS_SCHEDULE_UFRAMES in
  if schedule_low_speed qh then
    match dwc2_ls_pmap_schedule h qh ls_search_slice with
    | None => None
    | Some (err, h, qh) =>
        if truthy err then Some (SplitReturn err h qh)
        else split_hs_round h qh bytecount host_interval_in_sched
    end
  else split_hs_round h qh bytecount host_interval_in_sched.

Fixpoint split_loop (fuel : nat) (h : dwc2_maps M) (qh : dwc2_qh) (ls_search_slice : Z)
  : option (Z * dwc2_maps M * dwc2_qh) :=
  if ls_search_slice <? DWC2_LS_SCHEDULE_SLICES then
    match fuel with
    | O => None
    | S fuel =>
        match split_round h qh ls_search_slice with
        | None => None
        | Some (SplitReturn err h qh) => Some (err, h, qh)
        | Some (SplitDone h qh) => Some (0, h, qh)
        | Some (SplitAgain s h qh) => split_loop fuel h qh s
        end
    end
  else Some (- ENOSPC, h, qh).

Definition dwc2_uframe_schedule_split (h : dwc2_maps M) (qh : dwc2_qh)
  : option (Z * dwc2_maps M * dwc2_qh) :=
  split_loop (Z.to_nat DWC2_LS_SCHEDULE_SLICES) h qh 0.

(** ** The three kinds of QH *)

Definition dwc2_uframe_schedule_hs (h : dwc2_maps M) (qh : dwc2_qh)
  : option (Z * dwc2_maps M * dwc2_qh) :=
  let l := set_duration (set_start (hs_transfers qh) 0 0) 0 (host_us qh) in
  dwc2_hs_pmap_schedule h {| qh with hs_transfers := l |} false 0.

Definition dwc2_uframe_schedule_ls (h : dwc2_maps M) (qh : dwc2_qh)
  : option (Z * dwc2_maps M * dwc2_qh) :=
  dwc2_ls_pmap_schedule h qh 0.

Definition dwc2_uframe_schedule (h : dwc2_maps M) (qh : dwc2_qh)
  : option (Z * dwc2_maps M * dwc2_qh) :=
  if decide (dev_speed qh = USB_SPEED_HIGH) then dwc2_uframe_schedule_hs h qh
  else if negb (do_split qh) then dwc2_uframe_schedule_ls h qh
  else dwc2_uframe_schedule_split h qh.

(** [for (i = 0; i < num_hs_transfers; i++)], from [i] on. *)
Fixpoint hs_unschedule_up (h : dwc2_maps M) (qh : dwc2_qh) (n : nat) (i : Z) : dwc2_maps M :=
  match n with
  | O => h
  | S n => hs_unschedule_up (dwc2_hs_pmap_unschedule h qh i) qh n (i + 1)
  end.

Definition dwc2_uframe_unschedule (h : dwc2_maps M) (qh : dwc2_qh) : dwc2_maps M :=
  ls_undo (hs_unschedule_up h qh (Z.to_nat (num_hs_transfers qh)) 0) qh.
End Sched.

(** ** Facts: what one reservation does to a map *)

Section MapFacts.
Context {M : Type} `{Ho : !BitmapOps M} `{Hl : !BitmapLaws M}.

(** The bits of [m'] are those of [m] and, disjoint from them and from each
    other, those of the reservations [L]. *)
Definition adds (bpp periods : Z) (m m' : M) (L : list resv) : Prop :=
  forall b, Z.b2z (test_bit m' b) = Z.b2z (test_bit m b) + holders bpp periods L b.

Lemma adds_nil bpp periods m : adds bpp periods m m [].
Proof. intros b. unfold holders; cbn. lia. Qed.

Lemma adds_app bpp periods m0 m1 m2 L1 L2 :
  adds bpp periods m0 m1 L1 -> adds bpp periods m1 m2 L2 -> adds bpp periods m0 m2 (L1 ++ L2).
Proof. intros H1 H2 b. rewrite holders_app, H2, H1. lia. Qed.

Lemma holders_single bpp periods r b :
  holders bpp periods [r] b = Z.b2z (resv_bits bpp periods b r).
Proof. rewrite holders_cons. unfold holders; cbn. lia. Qed.

Lemma holders_zero bpp periods L b :
  holders bpp periods L b = 0 <-> existsb (resv_bits bpp periods b) L = false.
Proof.
  induction L as [|r L IH]; [done|]. rewrite holders_cons. cbn [existsb].
  pose proof (holders_nonneg bpp periods L b).
  destruct (resv_bits bpp periods b r); cbn; [split; [lia|done]|]. rewrite <- IH. lia.
Qed.

(** Clearing all the reservations that were added restores the map. *)
Lemma adds_clear bpp periods m m' L b :
  adds bpp periods m m' L ->
  test_bit m' b && negb (existsb (resv_bits bpp periods b) L) = test_bit m b.
Proof.
  intros H. specialize (H b). pose proof (holders_nonneg bpp periods L b).
  destruct (existsb _ L) eqn:E.
  - assert (holders bpp periods L b <> 0) by (rewrite holders_zero; by rewrite E).
    rewrite andb_false_r. destruct (test_bit m b), (test_bit m' b); cbn in *; try done; lia.
  - apply holders_zero in E. rewrite andb_true_r.
    destruct (test_bit m b), (test_bit m' b); cbn in *; try done; lia.
Qed.

(** A schedule in one of the two maps, as a step of the ledger. *)
Lemma schedule_adds bpp periods m num interval start only :
  pmap_request bpp periods num interval start ->
  exists ret m', pmap_schedule m bpp periods num interval start only = Some (ret, m')
  /\ ((pmap_valid m bpp periods num interval start only ret
       /\ adds bpp periods m m' [mkresv num interval ret])
      \/ (ret = - ENOSPC /\ m' = m)).
Proof.
  intros Hreq. destruct (pmap_schedule_total m bpp periods num interval start only Hreq)
    as (ret & m' & E & Hc).
  exists ret, m'. split; [done|]. destruct Hc as [(Hv & _ & Hb)|(-> & -> & _)]; [left|by right].
  split; [done|]. intros b. rewrite holders_single, Hb. unfold resv_bits; cbn.
  pose proof (pmap_valid_bits _ _ _ _ _ _ _ _ b Hreq Hv) as Hfree.
  destruct (pmap_bits _ _ _ _ _ b); [by rewrite (proj1 (Hfree eq_refl))|].
  by rewrite orb_false_r, Z.add_0_r.
Qed.

(** A start that was found lies in the map. *)
Lemma pmap_valid_range (m : M) bpp periods num interval start only s :
  pmap_request bpp periods num interval start ->
  pmap_valid m bpp periods num interval start only s ->
  start <= s /\ s + num <= bpp * Z.gcd interval periods <= bpp * periods.
Proof.
  intros (Hb & Hp & Hn & Hi & Hs) (Hlt & Hge & Hle & _).
  destruct (gcd_periods interval periods Hi Hp) as (Hg & Hr & Hgr).
  set (iv := Z.gcd interval periods) in *. split; [done|].
  assert (Hend : s + num <= bpp * iv).
  { destruct only; [|done]. unfold period_end in Hle.
    pose proof (Z.div_lt_upper_bound start bpp iv ltac:(lia) ltac:(lia)). nia. }
  split; [done|]. nia.
Qed.
End MapFacts.

(** ** Facts: the transfer times of a QH *)

Lemma foldl_alter_lookup {A} (f : Z -> A -> A) (l : list A) i n k :
  0 <= i -> 0 <= k ->
  foldl (fun l j => alter (f j) (Z.to_nat j) l) l (seqZ i n) !! Z.to_nat k
  = if (i <=? k) && (k <? i + n) then f k <$> (l !! Z.to_nat k) else l !! Z.to_nat k.
Proof.
  intros Hi Hk. destruct (Z.le_gt_cases n 0) as [Hn|Hn].
  { rewrite seqZ_nil by lia. cbn. case_match; [|done]. zb. lia. }
  rewrite <- (Z2Nat.id n) by lia. generalize (Z.to_nat n) as m. clear n Hn. intros m.
  revert l i Hi. induction m as [|m IH]; intros l i Hi.
  { rewrite seqZ_nil by lia. cbn. case_match; [|done]. zb. lia. }
  rewrite seqZ_cons by lia. cbn [foldl].
  replace (Z.pred (Z.of_nat (S m))) with (Z.of_nat m) by lia.
  rewrite IH by lia. destruct (Z.eq_dec i k) as [->|Hne].
  - rewrite list_lookup_alter_eq.
    rewrite (proj2 (Z.leb_gt (Z.succ k) k)), (proj2 (Z.leb_le k k)) by lia.
    by rewrite (proj2 (Z.ltb_lt k (k + Z.of_nat (S m)))) by lia.
  - assert (Hni : Z.to_nat i <> Z.to_nat k) by lia. rewrite list_lookup_alter_ne by done.
    replace ((Z.succ i <=? k) && (k <? Z.succ i + Z.of_nat m))
      with ((i <=? k) && (k <? i + Z.of_nat (S m))); [done|].
    apply eq_true_iff_eq. rewrite !andb_true_iff, !Z.leb_le, !Z.ltb_lt. lia.
Qed.

Section Transfers.
Variable HS_USECS_ISO : Z -> Z.

Lemma length_foldl_alter {A} (f : Z -> A -> A) (l : list A) L :
  length (foldl (fun l j => alter (f j) (Z.to_nat j) l) l L) = length l.
Proof.
  revert l. induction L as [|i L IH]; intros l; cbn [foldl]; [done|].
  by rewrite IH, length_alter.
Qed.

Lemma split_durations_length l num a b c :
  length (split_durations HS_USECS_ISO l num a b c) = length l.
Proof.
  unfold split_durations, set_duration. cbv zeta.
  case_if; by rewrite ?length_alter, length_foldl_alter, length_alter.
Qed.

Lemma split_starts_length l num a b : length (split_starts l num a b) = length l.
Proof. unfold split_starts, set_start. by rewrite length_foldl_alter, length_alter. Qed.

(** Each transfer below [num] gets the duration its place says. *)
Lemma split_durations_lookup l num a b c k t :
  1 <= num -> 0 <= k < num -> l !! Z.to_nat k = Some t ->
  split_durations HS_USECS_ISO l num a b c !! Z.to_nat k
  = Some {| t with duration_us :=
      u16 (HS_USECS_ISO (if k =? 0 then a else if k =? num - 1 then c else b)) |}.
Proof.
  intros Hn Hk Hl. unfold split_durations, set_duration. cbv zeta.
  set (l1 := alter _ (Z.to_nat 0) l).
  assert (H1 : l1 !! Z.to_nat k
    = Some (if k =? 0 then {| t with duration_us := u16 (HS_USECS_ISO a) |} else t)).
  { unfold l1. destruct (Z.eqb_spec k 0) as [->|].
    - by rewrite list_lookup_alter_eq, Hl.
    - by rewrite list_lookup_alter_ne by lia. }
  set (l2 := foldl _ _ _).
  assert (H2 : l2 !! Z.to_nat k
    = Some (if k =? 0 then {| t with duration_us := u16 (HS_USECS_ISO a) |}
            else if k <? num - 1 then {| t with duration_us := u16 (HS_USECS_ISO b) |} else t)).
  { unfold l2. rewrite (foldl_alter_lookup (fun _ t => {| t with duration_us := u16 (HS_USECS_ISO b) |}))
      by lia.
    rewrite H1. destruct (Z.eqb_spec k 0) as [->|Hk0]; [done|].
    destruct (Z.ltb_spec k (num - 1)).
    - replace ((1 <=? k) && (k <? 1 + (num - 2))) with true; [done|].
      symmetry. apply andb_true_iff. lia.
    - replace ((1 <=? k) && (k <? 1 + (num - 2))) with false; [done|].
      symmetry. apply andb_false_iff. lia. }
  destruct (Z.gtb_spec num 1) as [Hn1|Hn1].
  - destruct (Z.eqb_spec k (num - 1)) as [->|Hkl].
    + rewrite list_lookup_alter_eq, H2. cbn [fmap option_fmap option_map].
      destruct (Z.eqb_spec (num - 1) 0); [lia|]. by rewrite Z.ltb_irrefl.
    + rewrite list_lookup_alter_ne, H2 by lia.
      destruct (Z.eqb_spec k 0); [done|]. destruct (Z.ltb_spec k (num - 1)); [done|lia].
  - rewrite H2. assert (k = 0) as -> by lia. done.
Qed.

Lemma split_starts_lookup l num a b k t :
  0 <= k < num -> l !! Z.to_nat k = Some t ->
  split_starts l num a b !! Z.to_nat k
  = Some {| t with start_schedule_us :=
      u32 (if k =? 0 then a * 100 else Z.rem (b + k - 1) 8 * 100) |}.
Proof.
  intros Hk Hl. unfold split_starts, set_start. cbv zeta.
  rewrite (foldl_alter_lookup (fun i t => {| t with start_schedule_us :=
    u32 (Z.rem (b + i - 1) DWC2_HS_SCHEDULE_UFRAMES * DWC2_HS_PERIODIC_US_PER_UFRAME) |})) by lia.
  destruct (Z.eqb_spec k 0) as [->|Hk0].
  - cbn [andb Z.leb Z.compare]. by rewrite list_lookup_alter_eq, Hl.
  - rewrite list_lookup_alter_ne, Hl by lia.
    by replace ((1 <=? k) && (k <? 1 + (num - 1))) with true
      by (symmetry; apply andb_true_iff; lia).
Qed.
End Transfers.

(** ** Facts: reservations of a QH *)

Definition times_ok (l : list dwc2_hs_transfer_time) : Prop :=
  Forall (fun t => 0 <= start_schedule_us t /\ 0 <= duration_us t) l.

(** The reservation of transfer [i], and those of the first [n]. *)
Definition transfer_resv (qh : dwc2_qh) (i : Z) : resv :=
  mkresv (duration_us (transfer qh i)) (host_interval qh) (start_schedule_us (transfer qh i)).
Definition hs_resvs (qh : dwc2_qh) (n : Z) : list resv := map (transfer_resv qh) (seqZ 0 n).
Definition ls_resv (qh : dwc2_qh) : resv :=
  mkresv (DIV_ROUND_UP (device_us qh) DWC2_US_PER_SLICE) (device_interval qh)
    (ls_start_schedule_slice qh).

(** A transfer that can be scheduled. *)
Definition ready (l : list dwc2_hs_transfer_time) (k : Z) : Prop :=
  exists t, l !! Z.to_nat k = Some t /\ 1 <= duration_us t /\ 0 <= start_schedule_us t.

Section SchedFacts.
Context {M : Type} `{Ho : !BitmapOps M} `{Hl : !BitmapLaws M}.
Implicit Types (h : dwc2_maps M) (qh : dwc2_qh).

Definition hs_adds (m m' : M) (L : list resv) : Prop := adds 100 8 m m' L.

Lemma transfer_ok qh i :
  times_ok (hs_transfers qh) ->
  0 <= start_schedule_us (transfer qh i) /\ 0 <= duration_us (transfer qh i).
Proof.
  intros Ht. unfold transfer. destruct (hs_transfers qh !! Z.to_nat i) eqn:E; cbn; [|lia].
  by apply (Forall_lookup_1 _ _ _ _ Ht E).
Qed.

Lemma hs_schedule_spec h qh only i t :
  0 <= i -> hs_transfers qh !! Z.to_nat i = Some t -> 1 <= duration_us t ->
  0 <= start_schedule_us t -> 0 <= host_interval qh ->
  exists ret h' qh', dwc2_hs_pmap_schedule h qh only i = Some (ret, h', qh')
  /\ ls_bitmaps h' = ls_bitmaps h
  /\ ((ret = 0 /\ exists us, 0 <= us /\ us + duration_us t <= 100 * Z.gcd (host_interval qh) 8
        /\ us + duration_us t <= period_end 100 us
        /\ qh' = {| qh with hs_transfers :=
                     <[Z.to_nat i := {| t with start_schedule_us := us |}]> (hs_transfers qh) |}
        /\ hs_adds (hs_periodic_bitmap h) (hs_periodic_bitmap h')
             [mkresv (duration_us t) (host_interval qh) us])
      \/ (ret = - ENOSPC /\ hs_periodic_bitmap h' = hs_periodic_bitmap h /\ qh' = qh)).
Proof.
  intros Hi Ht Hd Hs Hint. unfold dwc2_hs_pmap_schedule, transfer. rewrite Ht. cbn [default from_option]. unfold id.
  assert (Hreq : pmap_request 100 8 (duration_us t) (host_interval qh) (start_schedule_us t))
    by (unfold pmap_request; lia).
  destruct (schedule_adds 100 8 (hs_periodic_bitmap h) (duration_us t) (host_interval qh)
              (start_schedule_us t) only Hreq) as (ret & m' & E & Hc).
  unfold DWC2_HS_PERIODIC_US_PER_UFRAME, DWC2_HS_SCHEDULE_UFRAMES. rewrite E.
  destruct Hc as [[Hv Ha]|[-> ->]].
  - destruct (pmap_valid_range _ _ _ _ _ _ _ _ Hreq Hv) as (H1 & H2 & H3).
    destruct (Z.ltb_spec ret 0); [lia|]. do 3 eexists. split; [done|]. split; [done|].
    left. split; [done|]. exists ret. rewrite (u32_id ret) by (unfold is_u32; lia).
    destruct Hv as (_ & _ & _ & Hpe & _). by split_and!; [lia|lia|lia| |].
  - do 3 eexists. split; [done|]. split; [done|]. by right.
Qed.

Lemma hs_schedule_all_spec h qh n i :
  0 <= i -> 0 <= host_interval qh ->
  (forall k, i <= k < i + Z.of_nat n -> ready (hs_transfers qh) k) ->
  exists err j h' l', hs_schedule_all h qh n i = Some (err, j, h', {| qh with hs_transfers := l' |})
  /\ ls_bitmaps h' = ls_bitmaps h /\ i <= j <= i + Z.of_nat n
  /\ length l' = length (hs_transfers qh)
  /\ (forall k, 0 <= k -> ~ i <= k < j -> l' !! Z.to_nat k = hs_transfers qh !! Z.to_nat k)
  /\ (forall k t, i <= k < j -> hs_transfers qh !! Z.to_nat k = Some t ->
        exists us, l' !! Z.to_nat k = Some {| t with start_schedule_us := us |}
                   /\ 0 <= us /\ us + duration_us t <= 100 * Z.gcd (host_interval qh) 8)
  /\ hs_adds (hs_periodic_bitmap h) (hs_periodic_bitmap h')
       (map (transfer_resv {| qh with hs_transfers := l' |}) (seqZ i (j - i))).
Proof.
  intros Hi Hint. revert h qh i Hi Hint. induction n as [|n IH]; intros h qh i Hi Hint Hr;
    cbn [hs_schedule_all].
  { exists 0, i, h, (hs_transfers qh). split_and!; try done; try lia.
    - by destruct qh.
    - rewrite Z.sub_diag, seqZ_nil by lia. apply adds_nil. }
  destruct (Hr i ltac:(lia)) as (t & Ht & Hd & Hs).
  destruct (hs_schedule_spec h qh true i t Hi Ht Hd Hs Hint) as (ret & h1 & qh1 & -> & Hls & Hc).
  destruct Hc as [(-> & us & Hus & Hue & _ & Hq & Ha)|(-> & Hm & Hq)]; subst qh1.
  2: { cbn. exists (- ENOSPC), i, h1, (hs_transfers qh). split_and!; try done; try lia.
       - by destruct qh.
       - rewrite Z.sub_diag, seqZ_nil, Hm by lia. apply adds_nil. }
  change (truthy 0) with false. cbv iota.
  set (l1 := <[Z.to_nat i := _]> (hs_transfers qh)) in *.
  assert (Hl1 : forall k, i + 1 <= k -> l1 !! Z.to_nat k = hs_transfers qh !! Z.to_nat k).
  { intros k Hk. unfold l1. rewrite list_lookup_insert_ne by lia. done. }
  assert (Hl1i : l1 !! Z.to_nat i = Some {| t with start_schedule_us := us |}).
  { unfold l1. rewrite list_lookup_insert_eq; [done|]. by apply lookup_lt_Some in Ht. }
  destruct (IH h1 {| qh with hs_transfers := l1 |} (i + 1) ltac:(lia) Hint)
    as (err & j & h' & l' & E & Hls' & Hj & Hlen & Hout & Hin & Ha').
  { intros k Hk. unfold ready. cbn [hs_transfers]. rewrite Hl1 by lia. apply Hr. lia. }
  cbn [hs_transfers] in *. exists err, j, h', l'. split; [exact E|].
  assert (Hl'i : l' !! Z.to_nat i = Some {| t with start_schedule_us := us |}).
  { rewrite Hout by lia. exact Hl1i. }
  split; [congruence|]. split; [lia|]. split; [rewrite Hlen; apply length_insert|].
  split; [|split].
  - intros k Hk0 Hk. rewrite Hout by lia. unfold l1. by rewrite list_lookup_insert_ne by lia.
  - intros k t' Hk Hkt. destruct (Z.eq_dec k i) as [->|Hne].
    + rewrite Hkt in Ht. injection Ht as ->. exists us. by rewrite Hl'i.
    + apply (Hin k t'); [lia|]. by rewrite Hl1 by lia.
  - rewrite seqZ_cons by lia. cbn [map].
    replace (Z.succ i) with (i + 1) by lia. replace (Z.pred (j - i)) with (j - (i + 1)) by lia.
    apply (adds_app 100 8 _ (hs_periodic_bitmap h1) _ [_]); [|exact Ha'].
    unfold transfer_resv, transfer. cbn [hs_transfers host_interval]. by rewrite Hl'i.
Qed.

Lemma test_hs_unschedule h qh i b :
  times_ok (hs_transfers qh) -> 0 <= host_interval qh ->
  test_bit (hs_periodic_bitmap (dwc2_hs_pmap_unschedule h qh i)) b
  = test_bit (hs_periodic_bitmap h) b && negb (resv_bits 100 8 b (transfer_resv qh i)).
Proof.
  intros Ht Hi. destruct (transfer_ok qh i Ht) as [Hs Hd]. unfold dwc2_hs_pmap_unschedule.
  cbn [hs_periodic_bitmap]. by apply test_pmap_unschedule.
Qed.

Lemma test_hs_unschedule_down h qh n b :
  times_ok (hs_transfers qh) -> 0 <= host_interval qh ->
  test_bit (hs_periodic_bitmap (hs_unschedule_down h qh n)) b
  = test_bit (hs_periodic_bitmap h) b
    && negb (existsb (resv_bits 100 8 b) (hs_resvs qh (Z.of_nat n))).
Proof.
  intros Ht Hi. revert h. induction n as [|n IH]; intros h; cbn [hs_unschedule_down].
  { unfold hs_resvs. cbn. by rewrite andb_true_r. }
  rewrite IH, test_hs_unschedule by done. unfold hs_resvs.
  rewrite seqZ_S, map_app, existsb_app. cbn [map existsb].
  rewrite Z.add_0_l, orb_false_r, negb_orb.
  by destruct (test_bit _ b), (resv_bits _ _ _ _), (existsb _ _).
Qed.

Lemma test_hs_unschedule_up h qh n i b :
  times_ok (hs_transfers qh) -> 0 <= host_interval qh ->
  test_bit (hs_periodic_bitmap (hs_unschedule_up h qh n i)) b
  = test_bit (hs_periodic_bitmap h) b
    && negb (existsb (resv_bits 100 8 b) (map (transfer_resv qh) (seqZ i (Z.of_nat n)))).
Proof.
  intros Ht Hi. revert h i. induction n as [|n IH]; intros h i; cbn [hs_unschedule_up].
  { cbn. by rewrite andb_true_r. }
  rewrite IH, test_hs_unschedule by done. rewrite (seqZ_cons i (Z.of_nat (S n))) by lia. cbn [map existsb].
  replace (Z.pred (Z.of_nat (S n))) with (Z.of_nat n) by lia.
  replace (Z.succ i) with (i + 1) by lia. by rewrite negb_orb, andb_assoc.
Qed.

Lemma hs_unschedule_down_ls h qh n : ls_bitmaps (hs_unschedule_down h qh n) = ls_bitmaps h.
Proof. revert h. induction n as [|n IH]; intros h; cbn [hs_unschedule_down]; [done|by rewrite IH]. Qed.

Lemma hs_unschedule_up_ls h qh n i : ls_bitmaps (hs_unschedule_up h qh n i) = ls_bitmaps h.
Proof. revert h i. induction n as [|n IH]; intros h i; cbn [hs_unschedule_up]; [done|by rewrite IH]. Qed.

Lemma ls_undo_hs h qh : hs_periodic_bitmap (ls_undo h qh) = hs_periodic_bitmap h.
Proof. unfold ls_undo, dwc2_ls_pmap_unschedule. by destruct (schedule_low_speed qh), (dwc2_get_ls_map qh). Qed.

(** Releasing on the low-speed map depends on that map alone. *)
Lemma ls_undo_ls h h' qh :
  ls_bitmaps h = ls_bitmaps h' -> ls_bitmaps (ls_undo h qh) = ls_bitmaps (ls_undo h' qh).
Proof.
  intros E. unfold ls_undo, dwc2_ls_pmap_unschedule.
  destruct (schedule_low_speed qh); [|done]. destruct (dwc2_get_ls_map qh); [|done].
  cbn. by rewrite E.
Qed.
End SchedFacts.

(** ** Facts: split transfers *)

Definition bytecount (qh : dwc2_qh) : Z := maxp_mult qh * maxp qh.
Definition ls_slices (qh : dwc2_qh) : Z := DIV_ROUND_UP (device_us qh) DWC2_US_PER_SLICE.

(** A full-speed periodic QH behind a translator, as [dwc2_qh_init] sets it up:
    packets within the limits of full speed, and a bus time of at least 779 ns a
    byte for isochronous IN transfers (8 bits of 83.5 ns, with bit stuffing). *)
Record split_qh (qh : dwc2_qh) (k : Z * Z) : Prop := {
  sq_map : dwc2_get_ls_map qh = Some k;
  sq_low : schedule_low_speed qh = true;
  sq_type : ep_type qh = XFER_ISOC \/ ep_type qh = XFER_INT;
  sq_bytes : 0 <= bytecount qh <= if decide (ep_type qh = XFER_INT) then 64 else 1023;
  sq_time : ep_type qh = XFER_ISOC -> ep_is_in qh = true ->
            779 * bytecount qh <= 1000 * device_us qh;
  sq_us : 1 <= device_us qh;
  sq_dev : 0 <= device_interval qh;
  sq_host : 0 <= host_interval qh;
  sq_len : length (hs_transfers qh) = 8%nat;
  sq_times : times_ok (hs_transfers qh)
}.

(** What the scheduler changes of a QH. *)
Definition rescheduled (qh qh' : dwc2_qh) : Prop :=
  exists n l s, qh' = {| qh with num_hs_transfers := n; hs_transfers := l;
                                 ls_start_schedule_slice := s |}
  /\ length l = 8%nat /\ times_ok l.

Lemma rescheduled_refl qh : length (hs_transfers qh) = 8%nat -> times_ok (hs_transfers qh) ->
  rescheduled qh qh.
Proof. intros. exists (num_hs_transfers qh), (hs_transfers qh), (ls_start_schedule_slice qh). by destruct qh. Qed.

Lemma rescheduled_trans q1 q2 q3 : rescheduled q1 q2 -> rescheduled q2 q3 -> rescheduled q1 q3.
Proof. intros (n & l & s & -> & _) (n' & l' & s' & -> & H). by exists n', l', s'. Qed.

Lemma split_qh_rescheduled qh qh' k : split_qh qh k -> rescheduled qh qh' -> split_qh qh' k.
Proof. intros [] (n & l & s & -> & Hl & Ht). by split. Qed.

(** The bytes of the first transfer, for a start at slice [s]. *)
Definition first_bytes (s b : Z) : Z :=
  let f := 188 - DIV_ROUND_UP (188 * (s mod 5)) 5 in if f >? b then b else f.

Lemma first_bytes_range s b : 0 <= b -> 0 <= first_bytes s b <= b /\ first_bytes s b <= 188.
Proof.
  intros Hb. unfold first_bytes, DIV_ROUND_UP.
  pose proof (Z.mod_pos_bound s 5 ltac:(lia)).
  assert (0 <= (188 * (s mod 5) + 5 - 1) / 5 <= 151).
  { split; [apply Z.div_pos; lia|]. apply Z.lt_succ_r, Z.div_lt_upper_bound; lia. }
  cbv zeta. case_if; zb; lia.
Qed.

(** The transfers of an isochronous IN that fits the frame fit the array: for
    each slice it can start at. *)
Lemma isoc_in_fits s b us :
  0 <= s -> s + DIV_ROUND_UP us 25 <= 36 -> 0 <= b <= 1023 -> 779 * b <= 1000 * us ->
  let rel := (s / 5) mod 8 in
  let num := 2 + DIV_ROUND_UP (b - first_bytes s b) 188 in
  let last := rel + num + 1 in
  1 <= num /\ (if last <=? 6 then num + 2 else num + 1)
              - (if (last >=? 6) && (rel =? 0) then 1 else 0) <= 8.
Proof.
  intros Hs Hfit Hb Hus. unfold DIV_ROUND_UP in *.
  assert (Hs36 : 0 <= us) by lia.
  assert (Hu : 0 <= (us + 25 - 1) / 25) by (apply Z.div_pos; lia).
  assert (Hcases : In s (seqZ 0 37)) by (apply list_elem_of_In, elem_of_seqZ; lia).
  vm_compute in Hcases.
  pose proof (first_bytes_range s b ltac:(lia)) as Hf.
  pose proof (Z.div_mod (us + 25 - 1) 25 ltac:(lia)).
  pose proof (Z.mod_pos_bound (us + 25 - 1) 25 ltac:(lia)).
  cbv zeta.
  repeat (destruct Hcases as [<-|Hcases]; [
    unfold first_bytes, DIV_ROUND_UP in *; cbn -[Z.mul Z.add Z.sub] in *;
    repeat case_if; zb; Z.to_euclidean_division_equations; lia|]).
  done.
Qed.

Lemma div188 x : 0 <= x <= 1023 -> 0 <= DIV_ROUND_UP x 188 <= 6 /\ (x <= 940 -> DIV_ROUND_UP x 188 <= 5).
Proof. intros. unfold DIV_ROUND_UP. Z.to_euclidean_division_equations. lia. Qed.

(** The number of transfers fits [hs_transfers] and the byte counts are those
    of one packet. *)
Lemma split_counts_range qh k s :
  split_qh qh k -> 0 <= s -> s + ls_slices qh <= 36 -> (s / 5) mod 8 <> 7 ->
  let b := bytecount qh in
  (ep_is_in qh = false -> first_bytes s b = Z.min 188 b) ->
  let '(num, c1, c2, c3) :=
    split_counts qh b ((s / 5) mod 8) (first_bytes s b) (b - first_bytes s b) in
  1 <= num <= 8 /\ 0 <= c1 <= 1023 /\ 0 <= c2 <= 1023 /\ 0 <= c3 <= 1023.
Proof.
  intros Hq Hs Hfit Hrel b Hout. destruct Hq as [_ _ Hty Hb Htime Hus _ _ _ _].
  fold b in Hb, Htime. unfold ls_slices, DWC2_US_PER_SLICE in Hfit.
  pose proof (Z.mod_pos_bound (s / 5) 8 ltac:(lia)) as Hr8.
  set (rel := (s / 5) mod 8) in *. unfold split_counts.
  destruct (decide (ep_type qh = XFER_INT)) as [Hi|Hi].
  - pose proof (first_bytes_range s b ltac:(lia)) as [Hf Hf'].
    set (o := b - first_bytes s b). assert (Ho : 0 <= o <= 64) by lia.
    assert (Hd : 0 <= DIV_ROUND_UP o 188 <= 1)
      by (unfold DIV_ROUND_UP; Z.to_euclidean_division_equations; lia).
    rewrite (s16_id (1 + _)) by lia. rewrite s16_id by (case_if; lia).
    destruct (ep_is_in qh); case_if; lia.
  - assert (Hiso : ep_type qh = XFER_ISOC) by (by destruct Hty).
    pose proof (first_bytes_range s b ltac:(lia)) as [Hf Hf'].
    set (o := b - first_bytes s b). assert (Ho : 0 <= o <= 1023) by lia.
    pose proof (div188 o Ho) as [Hd _].
    rewrite (s16_id (1 + _)) by lia. destruct (ep_is_in qh) eqn:Ein.
    + specialize (Htime Hiso eq_refl).
      pose proof (isoc_in_fits s b (device_us qh) Hs Hfit Hb Htime) as Hn. cbv zeta in Hn.
      fold o in Hn. fold rel in Hn. rewrite (s16_id (1 + _ + 1)) by lia.
      replace (1 + DIV_ROUND_UP o 188 + 1) with (2 + DIV_ROUND_UP o 188) by lia.
      set (num := 2 + DIV_ROUND_UP o 188) in *. destruct Hn as [Hn1 Hn2].
      rewrite (s16_id (num + 2)), (s16_id (num + 1)) by lia. rewrite s16_id by (case_if; lia).
      assert (Hge : (rel + num + 1 >=? 6) && (rel =? 0) = true -> 5 <= num)
        by (intros Hx; zb; lia).
      destruct (rel + num + 1 <=? 6), ((rel + num + 1 >=? 6) && (rel =? 0)) eqn:E2; lia.
    + specialize (Hout eq_refl). assert (Ho' : o <= 940) by (unfold o; lia).
      pose proof (div188 o Ho) as [_ Hd5]. specialize (Hd5 Ho').
      pose proof (Z.rem_bound_pos o 188 ltac:(lia) ltac:(lia)). lia.
Qed.

Section SplitFacts.
Context {M : Type} `{Ho : !BitmapOps M} `{Hl : !BitmapLaws M}.
Implicit Types (h : dwc2_maps M) (qh : dwc2_qh).
Variable HS_USECS_ISO : Z -> Z.
Hypothesis HS_USECS_ISO_range : forall c, 0 <= c <= 1023 -> 1 <= HS_USECS_ISO c < 2 ^ 16.

(** *** What the failed rounds lose

    Undoing a round clears, with what it reserved, the bits that its failed transfer
    asked for; some may be another QH's.  These are the requests of the failed
    transfers, round by round. *)
Definition hs_round_loss h qh : list resv :=
  match split_setup HS_USECS_ISO qh (bytecount qh) (gcd (host_interval qh) DWC2_HS_SCHEDULE_UFRAMES) with
  | inl _ => []
  | inr qh =>
      match hs_schedule_all h qh (Z.to_nat (num_hs_transfers qh)) 0 with
      | Some (_, i, _, qh') => if i =? num_hs_transfers qh then [] else [transfer_resv qh i]
      | None => []
      end
  end.

Definition round_loss h qh (search : Z) : list resv :=
  match dwc2_ls_pmap_schedule h qh search with
  | Some (err, h, qh) => if truthy err then [] else hs_round_loss h qh
  | None => []
  end.

Fixpoint split_losses (fuel : nat) h qh (search : Z) : list resv :=
  if search <? DWC2_LS_SCHEDULE_SLICES then
    match fuel with
    | O => []
    | S fuel =>
        round_loss h qh search
        ++ match split_round HS_USECS_ISO h qh search with
           | Some (SplitAgain s h' qh') => split_losses fuel h' qh' s
           | _ => []
           end
    end
  else [].

(** The low-speed maps are the same, and the high-speed map is without the bits of the
    requests [F]. *)
Definition loses (F : list resv) h h' : Prop :=
  (forall k, ls_bitmaps h' k ≡ ls_bitmaps h k)
  /\ forall b, test_bit (hs_periodic_bitmap h') b
              = test_bit (hs_periodic_bitmap h) b && negb (existsb (resv_bits 100 8 b) F).

Lemma loses_nil h h' :
  (forall k, ls_bitmaps h' k ≡ ls_bitmaps h k) -> hs_periodic_bitmap h' = hs_periodic_bitmap h -> loses [] h h'.
Proof. intros Hk E. split; [done|]. intros b. by rewrite E, andb_true_r. Qed.

Lemma loses_app F G h1 h2 h3 : loses F h1 h2 -> loses G h2 h3 -> loses (F ++ G) h1 h3.
Proof.
  intros [L1 H1] [L2 H2]. split; [intros k b; by rewrite (L2 k b), (L1 k b)|].
  intros b. by rewrite H2, H1, existsb_app, negb_orb, andb_assoc.
Qed.

(** Finding a slot on the low-speed map. *)
Lemma ls_schedule_spec h qh k search :
  split_qh qh k -> 0 <= search ->
  exists ret h' qh', dwc2_ls_pmap_schedule h qh search = Some (ret, h', qh')
  /\ hs_periodic_bitmap h' = hs_periodic_bitmap h
  /\ ((ret = 0 /\ exists s, qh' = {| qh with ls_start_schedule_slice := s |}
        /\ search <= s /\ s + ls_slices qh <= 36
        /\ adds 36 1 (ls_bitmaps h k) (ls_bitmaps h' k) [ls_resv qh']
        /\ (forall j, j <> k -> ls_bitmaps h' j = ls_bitmaps h j)
        /\ forall j, ls_bitmaps (ls_undo h' qh') j ≡ ls_bitmaps h j)
      \/ (ret = - ENOSPC /\ qh' = qh /\ loses [] h h')).
Proof.
  intros Hq Hs. pose proof Hq as [Hk Hlow _ _ _ Hus Hdev _ _ _].
  assert (Hsl : 1 <= ls_slices qh).
  { unfold ls_slices, DIV_ROUND_UP, DWC2_US_PER_SLICE. apply Z.div_le_lower_bound; lia. }
  assert (Hreq : pmap_request 36 1 (ls_slices qh) (device_interval qh) search)
    by (unfold pmap_request; lia).
  destruct (schedule_adds 36 1 (ls_bitmaps h k) _ _ _ false Hreq) as (ret & m' & E & Hc).
  unfold dwc2_ls_pmap_schedule. fold (ls_slices qh). rewrite Hk.
  change DWC2_LS_PERIODIC_SLICES_PER_FRAME with 36. change DWC2_LS_SCHEDULE_FRAMES with 1.
  rewrite E. destruct Hc as [[Hv Ha]|[-> ->]].
  - destruct (pmap_valid_range _ _ _ _ _ _ _ _ Hreq Hv) as (H1 & H2 & H3).
    destruct (Z.ltb_spec ret 0); [lia|]. do 3 eexists. split; [done|]. split; [done|].
    left. split; [done|]. exists ret. rewrite (u32_id ret) by (unfold is_u32; lia).
    cbn [ls_bitmaps]. split; [done|]. split; [done|]. split; [lia|].
    rewrite fn_lookup_insert. split; [exact Ha|]. split.
    { intros j Hj. by rewrite fn_lookup_insert_ne. }
    intros j. unfold ls_undo, dwc2_ls_pmap_unschedule. cbn [schedule_low_speed].
    rewrite Hlow. unfold dwc2_get_ls_map in *. cbn [dwc_tt ttport]. rewrite Hk.
    cbn [ls_bitmaps]. destruct (decide (j = k)) as [->|Hj].
    + rewrite !fn_lookup_insert. intros b. cbn [device_us device_interval ls_start_schedule_slice].
      change DWC2_LS_PERIODIC_SLICES_PER_FRAME with 36. change DWC2_LS_SCHEDULE_FRAMES with 1.
      fold (ls_slices qh). rewrite test_pmap_unschedule by lia.
      rewrite <- (adds_clear 36 1 _ _ _ b Ha). cbn [existsb]. by rewrite orb_false_r.
    + by rewrite !fn_lookup_insert_ne by done.
  - do 3 eexists. split; [done|]. split; [done|]. right. split; [done|]. split; [done|].
    apply loses_nil; [|done]. intros j. cbn [ls_bitmaps].
    destruct (decide (j = k)) as [->|]; [by rewrite fn_lookup_insert|by rewrite fn_lookup_insert_ne].
Qed.

Lemma times_ok_alter f i l :
  times_ok l ->
  (forall t, 0 <= start_schedule_us t -> 0 <= duration_us t ->
     0 <= start_schedule_us (f t) /\ 0 <= duration_us (f t)) ->
  times_ok (alter f i l).
Proof. intros Hl' Hf. apply Forall_alter; [done|]. intros t _ [H1 H2]. by apply Hf. Qed.

Lemma times_ok_foldl (f : list dwc2_hs_transfer_time -> Z -> list dwc2_hs_transfer_time) l L :
  times_ok l -> (forall l i, times_ok l -> times_ok (f l i)) -> times_ok (foldl f l L).
Proof. intros H Hf. revert l H. induction L as [|i L IH]; cbn; auto. Qed.

Lemma set_duration_ok l i d : times_ok l -> times_ok (set_duration l i d).
Proof.
  intros H. apply times_ok_alter; [done|]. intros t H1 H2. cbn. split; [done|].
  apply Z.mod_pos_bound. lia.
Qed.

Lemma set_start_ok l i s : times_ok l -> times_ok (set_start l i s).
Proof.
  intros H. apply times_ok_alter; [done|]. intros t H1 H2. cbn. split; [|done].
  apply u32_range.
Qed.

(** The transfers of a round before they are scheduled. *)
Definition split_times (l : list dwc2_hs_transfer_time) (num c1 c2 c3 a b : Z)
  : list dwc2_hs_transfer_time :=
  split_starts (split_durations HS_USECS_ISO l num c1 c2 c3) num a b.

Lemma split_times_ok l num c1 c2 c3 a b : times_ok l -> times_ok (split_times l num c1 c2 c3 a b).
Proof.
  intros H. unfold split_times, split_starts, split_durations. cbv zeta.
  apply times_ok_foldl; [|intros; by apply set_start_ok]. apply set_start_ok.
  case_if; [apply set_duration_ok|];
    (apply times_ok_foldl; [by apply set_duration_ok|intros; by apply set_duration_ok]).
Qed.

Lemma split_times_ready l num c1 c2 c3 a b k :
  length l = 8%nat -> 1 <= num <= 8 -> 0 <= k < num ->
  0 <= c1 <= 1023 -> 0 <= c2 <= 1023 -> 0 <= c3 <= 1023 ->
  ready (split_times l num c1 c2 c3 a b) k.
Proof.
  intros Hlen Hn Hk H1 H2 H3.
  destruct (lookup_lt_is_Some_2 l (Z.to_nat k)) as [t Ht]; [lia|].
  eexists. split.
  { apply split_starts_lookup; [done|]. apply split_durations_lookup; [lia|done|exact Ht]. }
  cbn [duration_us start_schedule_us]. split; [|apply u32_range].
  set (c := if k =? 0 then c1 else _).
  assert (Hc : 0 <= c <= 1023) by (unfold c; repeat case_if; lia).
  pose proof (HS_USECS_ISO_range c Hc). rewrite u16_id; [lia|]. unfold is_u16. lia.
Qed.

Lemma split_times_length l num c1 c2 c3 a b :
  length (split_times l num c1 c2 c3 a b) = length l.
Proof. unfold split_times. by rewrite split_starts_length, split_durations_length. Qed.

(** Undoing a round that failed at transfer [i] takes back what it reserved, and
    with it the bits the failed transfer asked for. *)
Lemma hs_unschedule_failed m0 h qh i b :
  times_ok (hs_transfers qh) -> 0 <= host_interval qh -> 0 <= i ->
  hs_adds m0 (hs_periodic_bitmap h) (hs_resvs qh i) ->
  test_bit (hs_periodic_bitmap (hs_unschedule_down h qh (Z.to_nat (i + 1)))) b
  = test_bit m0 b && negb (resv_bits 100 8 b (transfer_resv qh i)).
Proof.
  intros Ht Hint Hi Ha. rewrite test_hs_unschedule_down by done.
  replace (Z.of_nat (Z.to_nat (i + 1))) with (Z.of_nat (S (Z.to_nat i))) by lia.
  unfold hs_resvs. rewrite seqZ_S, map_app, existsb_app. cbn [map existsb].
  rewrite Z.add_0_l, Z2Nat.id, orb_false_r, negb_orb, andb_assoc by lia. f_equal.
  by apply adds_clear.
Qed.

(** Scheduling some transfers keeps the times well-formed. *)
Lemma times_ok_stable qh j l' :
  times_ok (hs_transfers qh) ->
  (forall k, 0 <= k -> ~ 0 <= k < j -> l' !! Z.to_nat k = hs_transfers qh !! Z.to_nat k) ->
  (forall k t, 0 <= k < j -> hs_transfers qh !! Z.to_nat k = Some t ->
     exists us, l' !! Z.to_nat k = Some {| t with start_schedule_us := us |} /\ 0 <= us) ->
  length l' = length (hs_transfers qh) ->
  times_ok l'.
Proof.
  intros Ht Hsame Hin Hlen. apply Forall_lookup_2. intros n x Hx.
  pose proof (lookup_lt_Some _ _ _ Hx) as Hn.
  assert (En : n = Z.to_nat (Z.of_nat n)) by lia. rewrite En in Hx.
  destruct (lookup_lt_is_Some_2 (hs_transfers qh) n) as [t Et]; [lia|].
  pose proof (Forall_lookup_1 _ _ _ _ Ht Et) as Hok. rewrite En in Et.
  destruct (Z.lt_ge_cases (Z.of_nat n) j).
  - destruct (Hin (Z.of_nat n) t ltac:(lia) Et) as (us & Eu & Hus). rewrite Hx in Eu.
    injection Eu as ->. cbn. split; [done|apply Hok].
  - rewrite Hsame in Hx by lia. rewrite Et in Hx. by injection Hx as <-.
Qed.

(** The outcomes of the high-speed side of a round, for a slot at slice [s]. *)
Definition hs_round_post h qh (s : Z) (out : split_outcome) : Prop :=
  match out with
  | SplitReturn _ _ _ => False
  | SplitDone h' qh' =>
      rescheduled qh qh' /\ ls_start_schedule_slice qh' = s /\ 1 <= num_hs_transfers qh' <= 8
      /\ hs_round_loss h qh = []
      /\ ls_bitmaps h' = ls_bitmaps h
      /\ hs_adds (hs_periodic_bitmap h) (hs_periodic_bitmap h') (hs_resvs qh' (num_hs_transfers qh'))
  | SplitAgain s' h' qh' =>
      rescheduled qh qh' /\ s < s' /\ ls_start_schedule_slice qh' = s
      /\ ls_bitmaps h' = ls_bitmaps (ls_undo h qh')
      /\ forall b, test_bit (hs_periodic_bitmap h') b
                   = test_bit (hs_periodic_bitmap h) b && negb (existsb (resv_bits 100 8 b) (hs_round_loss h qh))
  end.

Lemma split_setup_spec qh k s :
  split_qh qh k -> ls_start_schedule_slice qh = s -> 0 <= s -> s + ls_slices qh <= 36 ->
  let r := split_setup HS_USECS_ISO qh (bytecount qh) (gcd (host_interval qh) DWC2_HS_SCHEDULE_UFRAMES) in
  (exists s', r = inl s' /\ s < s')
  \/ exists num c1 c2 c3 a b,
       r = inr {| qh with num_hs_transfers := num;
                          hs_transfers := split_times (hs_transfers qh) num c1 c2 c3 a b |}
       /\ 1 <= num <= 8 /\ 0 <= c1 <= 1023 /\ 0 <= c2 <= 1023 /\ 0 <= c3 <= 1023.
Proof.
  intros Hq Es Hs Hfit r. unfold r, split_setup. rewrite Es. clear r.
  change DWC2_SLICES_PER_UFRAME with 5. change DWC2_LS_PERIODIC_SLICES_PER_FRAME with 36.
  cbv zeta. destruct (Z.eqb_spec ((s / 5) mod 8) 7) as [E7|E7].
  { left. eexists. split; [done|]. Z.to_euclidean_division_equations; lia. }
  assert (Hs5 : s < (s / 5 + 1) * 5) by (Z.to_euclidean_division_equations; lia).
  set (fb := if _ >? bytecount qh then _ else _).
  change fb with (first_bytes s (bytecount qh)). clear fb.
  destruct (negb (ep_is_in qh) && _) eqn:Eout; [left; by eexists|right].
  pose proof (split_counts_range qh k s Hq Hs Hfit E7) as Hcnt. cbv zeta in Hcnt.
  destruct (split_counts qh _ _ _ _) as [[[num c1] c2] c3].
  destruct Hcnt as (Hnum & H1 & H2 & H3).
  { intros Ein. rewrite Ein in Eout. cbn in Eout. by zb. }
  exists num, c1, c2, c3. do 2 eexists. split; [reflexivity|]. done.
Qed.

Lemma split_hs_round_spec h qh k s :
  split_qh qh k -> ls_start_schedule_slice qh = s -> 0 <= s -> s + ls_slices qh <= 36 ->
  exists out, split_hs_round HS_USECS_ISO h qh (bytecount qh)
                (gcd (host_interval qh) DWC2_HS_SCHEDULE_UFRAMES) = Some out
              /\ hs_round_post h qh s out.
Proof.
  intros Hq Es Hs Hfit. pose proof Hq as [Hk Hlow Hty Hb Htime Hus Hdev Hhost Hlen Htimes].
  unfold split_hs_round, hs_round_post, hs_round_loss.
  destruct (split_setup_spec qh k s Hq Es Hs Hfit) as [(s' & -> & Hs')|(num & c1 & c2 & c3 & a & b & -> & Hnum & H1 & H2 & H3)].
  { eexists. split; [done|]. cbn. split_and!; [by apply rescheduled_refl|done|done|done|].
    intros b. by rewrite ls_undo_hs, andb_true_r. }
  set (qh1 := {| qh with num_hs_transfers := num; hs_transfers := split_times (hs_transfers qh) num c1 c2 c3 a b |}).
  destruct (hs_schedule_all_spec h qh1 (Z.to_nat (num_hs_transfers qh1)) 0)
    as (err & j & h' & l' & -> & Hls & Hj & Hlen' & Hsame & Hin & Ha); [lia|done| |].
  { intros k' Hk'. cbn in Hk'. apply split_times_ready; [done..|lia|done|done|done]. }
  assert (Htl : times_ok l').
  { apply (times_ok_stable qh1 j l'); [|done| |done].
    - by apply split_times_ok.
    - intros k' t Hk' Ht. destruct (Hin k' t Hk' Ht) as (us & H4 & H5 & _). by exists us. }
  assert (Hres : rescheduled qh {| qh1 with hs_transfers := l' |}).
  { exists num, l', s. rewrite <- Es. split; [done|]. split; [|done].
    rewrite Hlen'. cbn. by rewrite split_times_length. }
  rewrite Z.sub_0_r in Ha. cbn [num_hs_transfers]. change (num_hs_transfers qh1) with num.
  destruct (Z.eqb_spec j num) as [Ej|Ej].
  - eexists. split; [done|]. split; [done|]. split; [done|]. split; [done|]. split; [done|]. split; [done|].
    cbn [num_hs_transfers]. by rewrite Ej in Ha.
  - eexists. split; [done|]. split; [done|]. cbn [ls_start_schedule_slice].
    change (ls_start_schedule_slice qh1) with (ls_start_schedule_slice qh). rewrite Es.
    change DWC2_SLICES_PER_UFRAME with 5. split; [Z.to_euclidean_division_equations; lia|]. split; [done|]. split.
    + apply ls_undo_ls. by rewrite hs_unschedule_down_ls.
    + intros b'. rewrite ls_undo_hs.
      rewrite (hs_unschedule_failed (hs_periodic_bitmap h)); [|done|done|lia|exact Ha]. cbn [existsb]. rewrite orb_false_r.
      f_equal. f_equal. f_equal. unfold transfer_resv, transfer. cbn [hs_transfers]. by rewrite Hsame by lia.
Qed.

(** One round, from the slice the search starts at. *)
Definition round_post h qh (k : Z * Z) (search : Z) (out : split_outcome) : Prop :=
  match out with
  | SplitReturn err h' qh' => err = - ENOSPC /\ rescheduled qh qh' /\ loses (round_loss h qh search) h h'
  | SplitDone h' qh' =>
      rescheduled qh qh' /\ round_loss h qh search = [] /\ 1 <= num_hs_transfers qh' <= 8 /\ 0 <= ls_start_schedule_slice qh'
      /\ adds 36 1 (ls_bitmaps h k) (ls_bitmaps h' k) [ls_resv qh']
      /\ (forall j, j <> k -> ls_bitmaps h' j = ls_bitmaps h j)
      /\ hs_adds (hs_periodic_bitmap h) (hs_periodic_bitmap h') (hs_resvs qh' (num_hs_transfers qh'))
  | SplitAgain s' h' qh' => rescheduled qh qh' /\ search < s' /\ loses (round_loss h qh search) h h'
  end.

Lemma split_round_spec h qh k search :
  split_qh qh k -> 0 <= search ->
  exists out, split_round HS_USECS_ISO h qh search = Some out /\ round_post h qh k search out.
Proof.
  intros Hq Hs. unfold split_round, round_post, round_loss. fold (bytecount qh). rewrite (sq_low _ _ Hq).
  destruct (ls_schedule_spec h qh k search Hq Hs) as (ret & h1 & qh1 & -> & Hhs & Hc).
  destruct Hc as [(-> & s & -> & H1 & H2 & H3 & H4 & H5)|(-> & -> & Hnm)].
  2: { eexists. split; [done|]. split; [done|]. split; [|done].
       by apply rescheduled_refl; [apply Hq|apply Hq]. }
  change (truthy 0) with false. cbv iota.
  set (qh1 := {| qh with ls_start_schedule_slice := s |}) in *.
  assert (Hr1 : rescheduled qh qh1).
  { exists (num_hs_transfers qh), (hs_transfers qh), s. split; [done|]. split; apply Hq. }
  pose proof (split_qh_rescheduled _ _ _ Hq Hr1) as Hq1.
  destruct (split_hs_round_spec h1 qh1 k s Hq1 eq_refl ltac:(lia) H2) as (out & Eo & Hp).
  change (bytecount qh1) with (bytecount qh) in Eo. change (host_interval qh1) with (host_interval qh) in Eo.
  rewrite Eo. exists out. split; [done|].
  destruct out as [|h' qh'|s' h' qh']; cbn in *; [done| |].
  - destruct Hp as (Hr & Es & Hn & Hlo & Hls & Ha). split; [exact (rescheduled_trans _ _ _ Hr1 Hr)|].
    split; [done|]. split; [done|]. split; [lia|]. rewrite Hls, <- Hhs. split; [|by split].
    destruct Hr as (n & l & s1 & -> & _). cbn in Es. by subst s1.
  - destruct Hp as (Hr & Es & Hst & Hls & Hlost). split; [exact (rescheduled_trans _ _ _ Hr1 Hr)|].
    split; [lia|]. split.
    + intros k'. rewrite Hls. destruct Hr as (n & l & s1 & -> & _). cbn in Hst. subst s1. apply H5.
    + intros b. by rewrite Hlost, Hhs.
Qed.

Lemma split_loop_spec k fuel : forall h qh search,
  split_qh qh k -> 0 <= search -> 36 - search <= Z.of_nat fuel ->
  exists ret h' qh', split_loop HS_USECS_ISO fuel h qh search = Some (ret, h', qh')
  /\ rescheduled qh qh'
  /\ ((ret = - ENOSPC /\ loses (split_losses fuel h qh search) h h')
      \/ (ret = 0 /\ exists h0, loses (split_losses fuel h qh search) h h0
          /\ 1 <= num_hs_transfers qh' <= 8 /\ 0 <= ls_start_schedule_slice qh'
          /\ adds 36 1 (ls_bitmaps h0 k) (ls_bitmaps h' k) [ls_resv qh']
          /\ (forall j, j <> k -> ls_bitmaps h' j = ls_bitmaps h0 j)
          /\ hs_adds (hs_periodic_bitmap h0) (hs_periodic_bitmap h')
               (hs_resvs qh' (num_hs_transfers qh')))).
Proof.
  induction fuel as [|fuel IH]; intros h qh search Hq Hs Hf; cbn [split_loop split_losses];
    change DWC2_LS_SCHEDULE_SLICES with 36; destruct (Z.ltb_spec search 36); [lia| | |].
  1,3: do 3 eexists; split; [done|]; split; [apply rescheduled_refl; apply Hq|]; left;
    split; [done|by apply loses_nil].
  destruct (split_round_spec h qh k search Hq Hs) as (out & -> & Hp).
  destruct out as [err h' qh'|h' qh'|s' h' qh']; cbn in Hp.
  - destruct Hp as (-> & Hr & Hn). do 3 eexists. split; [done|]. split; [done|]. left. by rewrite app_nil_r.
  - destruct Hp as (Hr & Hlo & Hp). do 3 eexists. split; [done|]. split; [done|]. right.
    split; [done|]. exists h. rewrite Hlo. split; [by apply loses_nil|]. exact Hp.
  - destruct Hp as (Hr & Hs' & Hn).
    destruct (IH h' qh' s') as (ret & h2 & qh2 & E & Hr2 & Hc); [|lia|lia|].
    { by eapply split_qh_rescheduled. }
    do 3 eexists. split; [exact E|]. split; [by eapply rescheduled_trans|].
    destruct Hc as [[-> Hn2]|(-> & h0 & Hn2 & Hrest)]; [left|right]; (split; [done|]).
    + by eapply loses_app.
    + exists h0. split; [by eapply loses_app|done].
Qed.

(** Releasing a QH that holds what it was given restores the maps. *)
Lemma unschedule_restores h0 h' qh k :
  dwc2_get_ls_map qh = Some k -> schedule_low_speed qh = true ->
  0 <= device_us qh -> 0 <= device_interval qh -> 0 <= ls_start_schedule_slice qh ->
  times_ok (hs_transfers qh) -> 0 <= host_interval qh -> 0 <= num_hs_transfers qh ->
  adds 36 1 (ls_bitmaps h0 k) (ls_bitmaps h' k) [ls_resv qh] ->
  (forall j, j <> k -> ls_bitmaps h' j = ls_bitmaps h0 j) ->
  hs_adds (hs_periodic_bitmap h0) (hs_periodic_bitmap h') (hs_resvs qh (num_hs_transfers qh)) ->
  (forall j, ls_bitmaps (dwc2_uframe_unschedule h' qh) j ≡ ls_bitmaps h0 j)
  /\ hs_periodic_bitmap (dwc2_uframe_unschedule h' qh) ≡ hs_periodic_bitmap h0.
Proof.
  intros Hk Hlow Hus Hdev Hst Ht Hhost Hn Hls Hother Hhs. unfold dwc2_uframe_unschedule. split.
  - intros j. unfold ls_undo, dwc2_ls_pmap_unschedule. rewrite Hlow, Hk. cbn [ls_bitmaps].
    rewrite hs_unschedule_up_ls. destruct (decide (j = k)) as [->|Hj].
    + rewrite fn_lookup_insert. intros b.
      assert (0 <= DIV_ROUND_UP (device_us qh) 25) by (apply Z.div_pos; lia).
      rewrite test_pmap_unschedule by done.
      rewrite <- (adds_clear 36 1 _ _ _ b Hls). cbn [existsb]. by rewrite orb_false_r.
    + rewrite fn_lookup_insert_ne by done. by rewrite Hother.
  - intros b. rewrite ls_undo_hs, test_hs_unschedule_up by done. rewrite Z2Nat.id by done.
    by apply adds_clear.
Qed.

(** C15: Scheduling a split transfer always comes to an end.  Let [F] be the requests of
    the transfers that could not be placed, one for each round that failed: undoing such
    a round clears the bits of its request, whoever holds them, and that is all that
    changes of what was on the maps.  When the scheduling succeeds, the transfers fit the
    array of the QH, the low-speed map of the translator holds exactly one reservation
    more, at the slice chosen, and the other low-speed maps are as they were; the
    high-speed map holds what was there, without the bits of [F], and exactly those of
    the transfers, none overlapping another or what was left; releasing the QH takes all
    of them back.  When it fails the answer is [-ENOSPC] and nothing has been added to
    any map. *)
Theorem split_schedule_sound h qh k :
  split_qh qh k ->
  let F := split_losses (Z.to_nat DWC2_LS_SCHEDULE_SLICES) h qh 0 in
  exists ret h' qh', dwc2_uframe_schedule_split HS_USECS_ISO h qh = Some (ret, h', qh')
  /\ ((ret = - ENOSPC /\ loses F h h')
      \/ (ret = 0 /\ 1 <= num_hs_transfers qh' <= Z.of_nat (length (hs_transfers qh'))
          /\ adds 36 1 (ls_bitmaps h k) (ls_bitmaps h' k) [ls_resv qh']
          /\ (forall j, j <> k -> ls_bitmaps h' j ≡ ls_bitmaps h j)
          /\ (forall b, Z.b2z (test_bit (hs_periodic_bitmap h') b)
                       = Z.b2z (test_bit (hs_periodic_bitmap h) b && negb (existsb (resv_bits 100 8 b) F))
                         + holders 100 8 (hs_resvs qh' (num_hs_transfers qh')) b)
          /\ loses F h (dwc2_uframe_unschedule h' qh'))).
Proof.
  intros Hq F.
  destruct (split_loop_spec k (Z.to_nat DWC2_LS_SCHEDULE_SLICES) h qh 0 Hq ltac:(lia) ltac:(done))
    as (ret & h' & qh' & E & Hr & Hc). fold F in Hc.
  exists ret, h', qh'. split; [exact E|].
  destruct Hc as [Hc|(-> & h0 & [L0 B0] & Hn & Hst & Hls & Hother & Hhs)]; [by left|right].
  pose proof (split_qh_rescheduled _ _ _ Hq Hr) as Hq'.
  split; [done|]. split; [by rewrite (sq_len _ _ Hq')|].
  split; [intros b; by rewrite Hls, (L0 k b)|]. split; [intros j Hj b; by rewrite Hother, (L0 j b)|].
  split; [intros b; by rewrite Hhs, B0|].
  destruct Hq'. destruct (unschedule_restores h0 h' qh' k) as [U1 U2]; try done; try lia.
  split; [intros j b; by rewrite (U1 j b), (L0 j b)|intros b; by rewrite (U2 b), B0].
Qed.

(** How a round of split scheduling that fails at transfer [j] is undone: what
    it reserved is taken back, and the bits that transfer [j] asked for are
    cleared with it, although another QH holds some of them. *)
Theorem split_unwind_exact h qh n err j h' qh' b :
  times_ok (hs_transfers qh) -> 0 <= host_interval qh ->
  (forall k, 0 <= k < Z.of_nat n -> ready (hs_transfers qh) k) ->
  hs_schedule_all h qh n 0 = Some (err, j, h', qh') -> j <> Z.of_nat n ->
  transfer qh' j = transfer qh j
  /\ test_bit (hs_periodic_bitmap (hs_unschedule_down h' qh' (Z.to_nat (j + 1)))) b
     = test_bit (hs_periodic_bitmap h) b && negb (resv_bits 100 8 b (transfer_resv qh j)).
Proof.
  intros Ht Hint Hready E Hj.
  destruct (hs_schedule_all_spec h qh n 0 ltac:(lia) Hint Hready)
    as (err' & j' & h2 & l' & E' & _ & Hj' & Hlen & Hsame & Hin & Ha).
  rewrite E in E'. injection E' as <- <- <- ->.
  assert (Ht' : times_ok l').
  { apply (times_ok_stable qh j l'); [done|done| |done]. intros k t Hk Et.
    destruct (Hin k t Hk Et) as (us & H1 & H2 & _). by exists us. }
  assert (Etr : transfer {| qh with hs_transfers := l' |} j = transfer qh j).
  { unfold transfer. cbn [hs_transfers]. by rewrite Hsame by lia. }
  split; [exact Etr|]. rewrite Z.sub_0_r in Ha.
  rewrite (hs_unschedule_failed (hs_periodic_bitmap h)) by (done || lia).
  unfold transfer_resv. by rewrite Etr.
Qed.

(** A periodic QH that needs no split, as [dwc2_qh_init] sets it up: a
    high-speed device, or a low- or full-speed one on a port of that speed. *)
Record direct_qh (qh : dwc2_qh) : Prop := {
  dq_host : 0 <= host_interval qh;
  dq_dev : 0 <= device_interval qh;
  dq_us : 1 <= device_us qh;
  dq_hus : 1 <= host_us qh < 2 ^ 16;
  dq_len : length (hs_transfers qh) = 8%nat;
  dq_times : times_ok (hs_transfers qh);
  dq_kind : (dev_speed qh = USB_SPEED_HIGH /\ num_hs_transfers qh = 1 /\ schedule_low_speed qh = false)
            \/ (dev_speed qh <> USB_SPEED_HIGH /\ do_split qh = false /\ num_hs_transfers qh = 0
                /\ schedule_low_speed qh = true /\ dwc2_get_ls_map qh <> None)
}.

Definition same_maps h h' : Prop :=
  (forall k, ls_bitmaps h' k ≡ ls_bitmaps h k) /\ hs_periodic_bitmap h' ≡ hs_periodic_bitmap h.

Lemma ls_schedule_direct h qh k :
  direct_qh qh -> dwc2_get_ls_map qh = Some k -> schedule_low_speed qh = true ->
  num_hs_transfers qh = 0 ->
  exists ret h' qh', dwc2_ls_pmap_schedule h qh 0 = Some (ret, h', qh')
  /\ ((ret = 0 /\ adds 36 1 (ls_bitmaps h k) (ls_bitmaps h' k) [ls_resv qh']
       /\ hs_periodic_bitmap h' = hs_periodic_bitmap h
       /\ same_maps h (dwc2_uframe_unschedule h' qh'))
      \/ (ret = - ENOSPC /\ same_maps h h')).
Proof.
  intros [Hhost Hdev Hus _ _ Htimes _] Hk Hlow Hnum.
  assert (Hsl : 1 <= ls_slices qh).
  { unfold ls_slices, DIV_ROUND_UP, DWC2_US_PER_SLICE. apply Z.div_le_lower_bound; lia. }
  assert (Hreq : pmap_request 36 1 (ls_slices qh) (device_interval qh) 0)
    by (unfold pmap_request; lia).
  destruct (schedule_adds 36 1 (ls_bitmaps h k) _ _ _ false Hreq) as (ret & m' & E & Hc).
  unfold dwc2_ls_pmap_schedule. fold (ls_slices qh). rewrite Hk.
  change DWC2_LS_PERIODIC_SLICES_PER_FRAME with 36. change DWC2_LS_SCHEDULE_FRAMES with 1.
  rewrite E. destruct Hc as [[Hv Ha]|[-> ->]].
  - destruct (pmap_valid_range _ _ _ _ _ _ _ _ Hreq Hv) as (H1 & H2 & H3).
    destruct (Z.ltb_spec ret 0); [lia|]. do 3 eexists. split; [done|]. left. split; [done|].
    rewrite (u32_id ret) by (unfold is_u32; lia). set (qh' := {| qh with ls_start_schedule_slice := ret |}).
    set (h' := {| h with ls_bitmaps := _ |}).
    assert (Ha' : adds 36 1 (ls_bitmaps h k) (ls_bitmaps h' k) [ls_resv qh']).
    { unfold h'. cbn [ls_bitmaps]. by rewrite fn_lookup_insert. }
    split; [exact Ha'|]. split; [done|].
    apply (unschedule_restores h h' qh' k); unfold qh'; cbn; try done; try lia.
    + intros j Hj. by rewrite fn_lookup_insert_ne.
    + rewrite Hnum. apply adds_nil.
  - do 3 eexists. split; [done|]. right. split; [done|]. split; [|done]. intros j. cbn [ls_bitmaps].
    destruct (decide (j = k)) as [->|]; [by rewrite fn_lookup_insert|by rewrite fn_lookup_insert_ne].
Qed.

(** The schedule of a high-speed QH: where it is placed, and what that adds. *)
Lemma hs_schedule_direct h qh :
  direct_qh qh ->
  exists ret h' qh', dwc2_uframe_schedule_hs h qh = Some (ret, h', qh')
  /\ host_interval qh' = host_interval qh /\ num_hs_transfers qh' = num_hs_transfers qh
  /\ schedule_low_speed qh' = schedule_low_speed qh /\ times_ok (hs_transfers qh')
  /\ ls_bitmaps h' = ls_bitmaps h
  /\ ((ret = 0 /\ duration_us (transfer qh' 0) = host_us qh
       /\ 0 <= start_schedule_us (transfer qh' 0)
       /\ start_schedule_us (transfer qh' 0) + host_us qh <= 100 * Z.gcd (host_interval qh) 8
       /\ start_schedule_us (transfer qh' 0) + host_us qh
          <= period_end 100 (start_schedule_us (transfer qh' 0))
       /\ hs_adds (hs_periodic_bitmap h) (hs_periodic_bitmap h') (hs_resvs qh' 1))
      \/ (ret = - ENOSPC /\ hs_periodic_bitmap h' = hs_periodic_bitmap h)).
Proof.
  intros [Hhost _ _ Hhus Hlen Htimes _]. unfold dwc2_uframe_schedule_hs.
  set (l := set_duration _ 0 _). set (qh1 := {| qh with hs_transfers := l |}).
  destruct (lookup_lt_is_Some_2 (hs_transfers qh) (Z.to_nat 0)) as [t Ht]; [lia|].
  assert (Hl0 : l !! Z.to_nat 0 = Some (mktime (u32 0) (u16 (host_us qh)))).
  { unfold l, set_duration, set_start. by rewrite !list_lookup_alter_eq, Ht. }
  assert (Hlt : times_ok l) by (by apply set_duration_ok, set_start_ok).
  rewrite (u16_id (host_us qh)) in Hl0 by (unfold is_u16; lia).
  destruct (hs_schedule_spec h qh1 false 0 _ ltac:(lia) Hl0 ltac:(cbn; lia) ltac:(done) Hhost)
    as (ret & h' & qh' & E & Hls & Hc).
  exists ret, h', qh'. split; [exact E|].
  destruct Hc as [(-> & us & Hus & Hue & Hpe & -> & Ha)|(-> & Hm & ->)].
  2: { repeat split; try done. by right. }
  cbn [duration_us] in Hue, Hpe, Ha.
  set (l' := <[Z.to_nat 0 := mktime us (host_us qh)]> l).
  assert (Hl' : l' !! Z.to_nat 0 = Some (mktime us (host_us qh))).
  { unfold l'. rewrite list_lookup_insert_eq; [done|]. by apply lookup_lt_Some in Hl0. }
  match goal with |- context [transfer ?q 0] => set (qh2 := q) end.
  assert (Htr : transfer qh2 0 = mktime us (host_us qh)).
  { unfold transfer. change (hs_transfers qh2) with l'. by rewrite Hl'. }
  split; [done|]. split; [done|]. split; [done|]. split.
  { apply Forall_insert; [done|]. cbn. lia. }
  split; [done|]. left. split; [done|]. rewrite Htr. split; [done|].
  split; [done|]. split; [done|]. split; [done|].
  unfold hs_resvs. change (seqZ 0 1) with [0]. cbn [map]. unfold transfer_resv. by rewrite Htr.
Qed.

(** A QH that needs no split is scheduled if and only if there is room on its
    map; success adds exactly its one reservation, failure - [-ENOSPC] - adds
    nothing, and unscheduling restores every map. *)
Theorem direct_schedule_roundtrip h qh :
  direct_qh qh ->
  exists ret h' qh', dwc2_uframe_schedule HS_USECS_ISO h qh = Some (ret, h', qh')
  /\ ((ret = - ENOSPC /\ same_maps h h')
      \/ (ret = 0 /\ same_maps h (dwc2_uframe_unschedule h' qh')
          /\ if decide (dev_speed qh = USB_SPEED_HIGH)
             then hs_adds (hs_periodic_bitmap h) (hs_periodic_bitmap h') (hs_resvs qh' 1)
             else forall k, dwc2_get_ls_map qh = Some k ->
                    adds 36 1 (ls_bitmaps h k) (ls_bitmaps h' k) [ls_resv qh'])).
Proof.
  intros Hq. pose proof Hq as [Hhost _ _ _ _ _ Hkind]. unfold dwc2_uframe_schedule.
  destruct (decide (dev_speed qh = USB_SPEED_HIGH)) as [Hsp|Hsp].
  - destruct Hkind as [(_ & Hn & Hlow)|(? & _)]; [|done].
    destruct (hs_schedule_direct h qh Hq) as (ret & h' & qh' & E & Hh & Hn' & Hlow' & Ht & Hls & Hc).
    exists ret, h', qh'. split; [exact E|].
    destruct Hc as [(-> & _ & _ & _ & _ & Ha)|(-> & Hm)]; [right|left]; (split; [done|]).
    + split; [|done]. unfold dwc2_uframe_unschedule. split.
      * intros j. unfold ls_undo. by rewrite Hlow', Hlow, hs_unschedule_up_ls, Hls.
      * intros b. rewrite ls_undo_hs, test_hs_unschedule_up by (done || by rewrite Hh).
        rewrite Hn', Hn. by apply adds_clear.
    + split; [intros j; by rewrite Hls|by rewrite Hm].
  - destruct Hkind as [(? & _)|(_ & Hsplit & Hn & Hlow & Hmap)]; [done|].
    rewrite Hsplit. cbn [negb]. destruct (dwc2_get_ls_map qh) as [k|] eqn:Hk; [|done].
    destruct (ls_schedule_direct h qh k Hq Hk Hlow Hn) as (ret & h' & qh' & E & Hc).
    exists ret, h', qh'. split; [exact E|].
    destruct Hc as [(-> & Ha & _ & Hm)|(-> & Hm)]; [right|left]; (split; [done|]); [|done].
    split; [done|]. intros k' Ek. by injection Ek as <-.
Qed.
End SplitFacts.

(** ** Concrete runs *)

Definition demo_usecs (bytes : Z) : Z := 10 + bytes / 12.

Lemma demo_usecs_range c : 0 <= c <= 1023 -> 1 <= demo_usecs c < 2 ^ 16.
Proof. intros. unfold demo_usecs. Z.to_euclidean_division_equations. lia. Qed.

(** An interrupt IN endpoint of a full-speed device behind translator 1. *)
Definition demo_qh : dwc2_qh := {|
  ep_type := XFER_INT; ep_is_in := true; maxp := 64; maxp_mult := 1;
  dev_speed := USB_SPEED_FULL; do_split := true;
  host_us := 13; device_us := 60; host_interval := 64; device_interval := 8;
  next_active_frame := 0; start_active_frame := 0; num_hs_transfers := -1;
  hs_transfers := replicate 8 (mktime 0 0); ls_start_schedule_slice := 0;
  dwc_tt := Some (mktt 1 false); ttport := 1;
  unreserve_pending := false; schedule_low_speed := true
|}.

Definition empty_maps : dwc2_maps Z := mkmaps 0 (fun _ => 0).

Lemma demo_split_qh : split_qh demo_qh (1, 0).
Proof.
  split; try done; try (cbn; lia).
  - by right.
  - repeat constructor; cbn; lia.
Defined.

(** Another QH holds the whole of microframe 2 - bits 200 to 299 - of the
    high-speed map. *)
Definition busy_maps : dwc2_maps Z := mkmaps (Z.ones 100 .<< 200) (fun _ => 0).

(** The transfers of the first round for [demo_qh], at slice 0. *)
Definition demo_round_qh : dwc2_qh :=
  {| demo_qh with num_hs_transfers := 4;
       hs_transfers := split_times demo_usecs (hs_transfers demo_qh) 4 4 64 64 7 1 |}.

(** The third transfer does not fit, and undoing the round frees bit 205. *)
Lemma split_unwind_exact_witness :
  exists err h' qh',
    hs_schedule_all busy_maps demo_round_qh 4 0 = Some (err, 2, h', qh')
    /\ test_bit (hs_periodic_bitmap busy_maps) 205 = true
    /\ test_bit (hs_periodic_bitmap (hs_unschedule_down h' qh' (Z.to_nat (2 + 1)))) 205 = false.
Proof.
  assert (E0 : (fun x => snd (fst (fst x))) <$> hs_schedule_all busy_maps demo_round_qh 4 0 = Some 2)
    by (vm_compute; reflexivity).
  destruct (hs_schedule_all busy_maps demo_round_qh 4 0) as [[[[err j] h'] qh']|] eqn:E;
    [|discriminate E0].
  injection E0 as ->. exists err, h', qh'. split; [reflexivity|].
  split; [vm_compute; reflexivity|].
  assert (Ht : times_ok (hs_transfers demo_round_qh)).
  { vm_compute. repeat constructor; discriminate. }
  assert (Hr : forall k, 0 <= k < Z.of_nat 4 -> ready (hs_transfers demo_round_qh) k).
  { intros k Hk. assert (Hc : k = 0 \/ k = 1 \/ k = 2 \/ k = 3) by lia.
    destruct Hc as [-> | [-> | [-> | ->]]];
      (eexists; split; [vm_compute; reflexivity|cbn; lia]). }
  destruct (split_unwind_exact busy_maps demo_round_qh 4 err 2 h' qh' 205 Ht ltac:(cbn; lia) Hr E
              ltac:(vm_compute; discriminate)) as [_ Eb].
  rewrite Eb. vm_compute. reflexivity.
Defined.

(** On empty maps nothing is lost; on these the bits of the third transfer are. *)
Lemma split_schedule_sound_witness :
  split_qh demo_qh (1, 0)
  /\ split_losses demo_usecs 36 empty_maps demo_qh 0 = []
  /\ split_losses demo_usecs 36 busy_maps demo_qh 0 = [mkresv 15 64 200]
  /\ exists ret h' qh', dwc2_uframe_schedule_split demo_usecs empty_maps demo_qh = Some (ret, h', qh')
     /\ ret = 0 /\ 1 <= num_hs_transfers qh' <= 8
     /\ hs_periodic_bitmap (dwc2_uframe_unschedule h' qh') ≡ (0 : Z).
Proof.
  split; [exact demo_split_qh|].
  assert (EF : split_losses demo_usecs 36 empty_maps demo_qh 0 = []) by (vm_compute; reflexivity).
  split; [exact EF|]. split; [vm_compute; reflexivity|].
  destruct (split_schedule_sound demo_usecs demo_usecs_range empty_maps demo_qh (1, 0) demo_split_qh)
    as (ret & h' & qh' & E & Hc).
  exists ret, h', qh'. split; [exact E|].
  assert (E0 : (fun x => fst (fst x)) <$> dwc2_uframe_schedule_split demo_usecs empty_maps demo_qh
               = Some 0) by (vm_compute; reflexivity).
  assert (E1 : (fun x => length (hs_transfers (snd x)))
                 <$> dwc2_uframe_schedule_split demo_usecs empty_maps demo_qh
               = Some 8%nat) by (vm_compute; reflexivity).
  rewrite E in E0, E1. injection E0 as ->. injection E1 as E1.
  destruct Hc as [[Hc _]|(_ & Hn & _ & _ & _ & [_ Hm])]; [discriminate Hc|].
  split; [reflexivity|]. split; [by rewrite E1 in Hn|].
  intros b. rewrite (Hm b). cbn [hs_periodic_bitmap empty_maps]. cbn. by rewrite Z.testbit_0_l.
Defined.

(** The next round then takes the freed bits: the QH is scheduled, on time another
    one still holds. *)
Example split_steals_bandwidth :
  exists h' qh', dwc2_uframe_schedule_split demo_usecs busy_maps demo_qh = Some (0, h', qh')
  /\ start_schedule_us (transfer qh' 1) = 200 /\ duration_us (transfer qh' 1) = 15.
Proof. do 2 eexists. split; [vm_compute; reflexivity|]. split; vm_compute; reflexivity. Qed.

(** An isochronous OUT packet of 376 bytes takes two full transfers, but time for
    an empty one is reserved for the second. *)
Example isoc_out_short_reservation (qh : dwc2_qh) :
  ep_type qh = XFER_ISOC -> ep_is_in qh = false ->
  split_counts qh 376 0 188 188 = (2, 188, 188, 0).
Proof. intros H1 H2. unfold split_counts. rewrite H1, H2. by destruct (decide _). Qed.

Definition demo_hs_qh : dwc2_qh :=
  {| demo_qh with dev_speed := USB_SPEED_HIGH; do_split := false; host_us := 30; device_us := 30;
       host_interval := 4; device_interval := 4; num_hs_transfers := 1;
       schedule_low_speed := false |}.

Lemma demo_direct_qh : direct_qh demo_hs_qh.
Proof.
  split; try done; try (cbn; lia).
  - repeat constructor; cbn; lia.
  - by left.
Defined.

Lemma direct_schedule_roundtrip_witness :
  direct_qh demo_hs_qh
  /\ exists h' qh', dwc2_uframe_schedule demo_usecs busy_maps demo_hs_qh = Some (0, h', qh')
     /\ same_maps busy_maps (dwc2_uframe_unschedule h' qh').
Proof.
  split; [exact demo_direct_qh|].
  destruct (direct_schedule_roundtrip demo_usecs busy_maps demo_hs_qh demo_direct_qh)
    as (ret & h' & qh' & E & Hc).
  assert (E0 : (fun x => fst (fst x)) <$> dwc2_uframe_schedule demo_usecs busy_maps demo_hs_qh
               = Some 0) by (vm_compute; reflexivity).
  exists h', qh'. destruct Hc as [[-> _]|(-> & Hm & _)]; [rewrite E in E0; discriminate|].
  split; [exact E|exact Hm].
Defined.
