(* ===== verification/Dwc2Qh.v ===== *)
(** * Dwc2Qh: when a QH runs, and how its reservation is kept
      (src/usb/dwc2/hcd_queue.c, hcd.h)

    Frame numbers count modulo 2^14.  A QH that leaves the schedule keeps its
    reservation until a timer releases it; the timer's callback runs on its own
    and waits for the driver lock, so the events of the protocol interleave. *)

From S2P Require Export Dwc2Sched.
#[local] Open Scope Z_scope.

(** ** Frame numbers (hcd.h) *)

Definition HFNUM_MAX_FRNUM : Z := 0x3fff.

Definition dwc2_frame_num_le (frame1 frame2 : Z) : bool :=
  ((frame2 - frame1) .& HFNUM_MAX_FRNUM) <=? (HFNUM_MAX_FRNUM .>> 1).
Definition dwc2_frame_num_gt (frame1 frame2 : Z) : bool :=
  negb (frame1 =? frame2)
  && (((frame1 - frame2) .& HFNUM_MAX_FRNUM) <? (HFNUM_MAX_FRNUM .>> 1)).
Definition dwc2_frame_num_inc (frame inc : Z) : Z := (frame + inc) .& HFNUM_MAX_FRNUM.
Definition dwc2_frame_num_dec (frame dec : Z) : Z :=
  (frame + HFNUM_MAX_FRNUM + 1 - dec) .& HFNUM_MAX_FRNUM.

Section Frames.
Context {M : Type} `{!BitmapOps M}.

(** [while (dwc2_frame_num_gt(target, frame)) frame += interval;] *)
Fixpoint frame_catch_up (fuel : nat) (target interval frame : Z) : option Z :=
  if dwc2_frame_num_gt target frame then
    match fuel with
    | O => None
    | S fuel => frame_catch_up fuel target interval (dwc2_frame_num_inc frame interval)
    end
  else Some frame.

(** Half of the frame numbers: as long as a frame can be late. *)
Definition frame_fuel : nat := Z.to_nat 0x2000.

(** The frame of the interval the QH was scheduled in, and the interval. *)
Definition scheduled_frame (qh : dwc2_qh) : Z * Z :=
  if bool_decide (dev_speed qh = USB_SPEED_HIGH) || do_split qh then
    (u16 (start_schedule_us (transfer qh 0) / DWC2_HS_PERIODIC_US_PER_UFRAME),
     u16 (gcd (host_interval qh) DWC2_HS_SCHEDULE_UFRAMES))
  else
    (u16 (ls_start_schedule_slice qh / DWC2_LS_PERIODIC_SLICES_PER_FRAME),
     u16 (gcd (host_interval qh) DWC2_LS_SCHEDULE_FRAMES)).

Definition dwc2_pick_first_frame (uframe_sched : bool) (qh : dwc2_qh) (frame_number : Z)
  : option dwc2_qh :=
  let earliest_frame := dwc2_frame_num_inc frame_number 1 in
  let next_active_frame := earliest_frame in
  let done n := {| qh with next_active_frame := n; start_active_frame := n |} in
  if negb uframe_sched then
    Some (done (if do_split qh then next_active_frame .| 0x7 else next_active_frame))
  else
    let '(relative_frame, interval) := scheduled_frame qh in
    let next_active_frame := u16 (next_active_frame / interval * interval) in
    let next_active_frame := dwc2_frame_num_inc next_active_frame relative_frame in
    let next_active_frame := dwc2_frame_num_dec next_active_frame 1 in
    match frame_catch_up frame_fuel earliest_frame interval next_active_frame with
    | None => None
    | Some n => Some (done n)
    end.

Definition dwc2_next_for_periodic_split (qh : dwc2_qh) (frame_number : Z) : Z * dwc2_qh :=
  let old_frame := next_active_frame qh in
  let prev_frame_number := dwc2_frame_num_dec frame_number 1 in
  let incr :=
    if (old_frame =? start_active_frame qh)
       && negb (bool_decide (ep_type qh = XFER_ISOC) && negb (ep_is_in qh)) then 2 else 1 in
  let next := dwc2_frame_num_inc old_frame incr in
  if dwc2_frame_num_gt prev_frame_number next then
    (dwc2_frame_num_dec prev_frame_number next, {| qh with next_active_frame := frame_number |})
  else (0, {| qh with next_active_frame := next |}).

Definition dwc2_next_periodic_start (qh : dwc2_qh) (frame_number : Z) : option (Z * dwc2_qh) :=
  let interval := host_interval qh in
  let prev_frame_number := dwc2_frame_num_dec frame_number 1 in
  let start := dwc2_frame_num_inc (start_active_frame qh) interval in
  let done missed n :=
    Some (missed, {| qh with start_active_frame := n; next_active_frame := n |}) in
  if interval >=? 0x1000 then done 0 start
  else if (start =? next_active_frame qh) || dwc2_frame_num_gt prev_frame_number start then
    let ideal_start := start in
    let periods_in_map :=
      if do_split qh || bool_decide (dev_speed qh = USB_SPEED_HIGH)
      then DWC2_HS_SCHEDULE_UFRAMES else DWC2_LS_SCHEDULE_FRAMES in
    let interval := u16 (gcd interval periods_in_map) in
    match frame_catch_up frame_fuel prev_frame_number interval
            (dwc2_frame_num_inc start interval) with
    | None => None
    | Some start => done (dwc2_frame_num_dec start ideal_start) start
    end
  else done 0 start.
End Frames.

(** *** Facts *)

Lemma frnum_mod x : x .& HFNUM_MAX_FRNUM = x mod 2 ^ 14.
Proof. unfold HFNUM_MAX_FRNUM. change 0x3fff with (Z.ones 14). by rewrite Z.land_ones. Qed.

Lemma frame_gt_spec a b :
  0 <= a < 2 ^ 14 -> 0 <= b < 2 ^ 14 ->
  dwc2_frame_num_gt a b = true <-> 0 < (a - b) mod 2 ^ 14 < 0x1fff.
Proof.
  intros Ha Hb. unfold dwc2_frame_num_gt. rewrite frnum_mod.
  change (HFNUM_MAX_FRNUM .>> 1) with 0x1fff.
  rewrite andb_true_iff, negb_true_iff, Z.eqb_neq, Z.ltb_lt.
  Z.to_euclidean_division_equations. lia.
Qed.

Lemma frame_inc_range a i : 0 <= dwc2_frame_num_inc a i < 2 ^ 14.
Proof. unfold dwc2_frame_num_inc. rewrite frnum_mod. apply Z.mod_pos_bound. lia. Qed.

Lemma frame_dec_range a i : 0 <= dwc2_frame_num_dec a i < 2 ^ 14.
Proof. unfold dwc2_frame_num_dec. rewrite frnum_mod. apply Z.mod_pos_bound. lia. Qed.

Lemma frame_dec_mod a i : dwc2_frame_num_dec a i = (a - i) mod 2 ^ 14.
Proof.
  unfold dwc2_frame_num_dec. rewrite frnum_mod. change HFNUM_MAX_FRNUM with (2 ^ 14 - 1).
  replace (a + (2 ^ 14 - 1) + 1 - i) with (a - i + 1 * 2 ^ 14) by lia. apply Z_mod_plus_full.
Qed.

(** The loop ends, at the first frame of the progression that is not late. *)
Lemma frame_catch_up_spec target interval fuel frame :
  0 <= target < 2 ^ 14 -> 1 <= interval <= 8 -> 0 <= frame < 2 ^ 14 ->
  (dwc2_frame_num_gt target frame = true -> (target - frame) mod 2 ^ 14 <= Z.of_nat fuel) ->
  exists j, 0 <= j
  /\ frame_catch_up fuel target interval frame = Some ((frame + j * interval) mod 2 ^ 14)
  /\ dwc2_frame_num_gt target ((frame + j * interval) mod 2 ^ 14) = false
  /\ forall i, 0 <= i < j -> dwc2_frame_num_gt target ((frame + i * interval) mod 2 ^ 14) = true.
Proof.
  intros Ht Hi. revert frame. induction fuel as [|fuel IH]; intros frame Hf Hfuel;
    cbn [frame_catch_up]; destruct (dwc2_frame_num_gt target frame) eqn:E.
  - apply frame_gt_spec in E; [|done..]. specialize (Hfuel eq_refl). lia.
  - exists 0. rewrite Z.mul_0_l, Z.add_0_r, Z.mod_small by done. split_and!; [lia|done|done|lia].
  - pose proof E as E'. apply frame_gt_spec in E'; [|done..]. specialize (Hfuel eq_refl).
    destruct (IH (dwc2_frame_num_inc frame interval)) as (j & Hj & Ej & Hgt & Hall).
    { apply frame_inc_range. }
    { intros E2. apply frame_gt_spec in E2; [|done|apply frame_inc_range].
      unfold dwc2_frame_num_inc in *. rewrite frnum_mod in *.
      Z.to_euclidean_division_equations. lia. }
    assert (Hs : forall i, (dwc2_frame_num_inc frame interval + i * interval) mod 2 ^ 14
                           = (frame + (i + 1) * interval) mod 2 ^ 14).
    { intros i. unfold dwc2_frame_num_inc. rewrite frnum_mod, Zplus_mod_idemp_l. f_equal. lia. }
    rewrite Hs in Ej, Hgt. exists (j + 1). split; [lia|]. split; [done|]. split; [done|].
    intros i Hij. destruct (Z.eq_dec i 0) as [->|].
    + by rewrite Z.mul_0_l, Z.add_0_r, Z.mod_small.
    + specialize (Hall (i - 1) ltac:(lia)). rewrite Hs in Hall.
      by replace (i - 1 + 1) with i in Hall by lia.
  - exists 0. rewrite Z.mul_0_l, Z.add_0_r, Z.mod_small by done. split_and!; [lia|done|done|lia].
Qed.

(** The fuel is enough for any frame: a frame is late by less than half of the
    numbers. *)
Lemma frame_catch_up_total target interval frame :
  0 <= target < 2 ^ 14 -> 1 <= interval <= 8 -> 0 <= frame < 2 ^ 14 ->
  exists j, 0 <= j
  /\ frame_catch_up frame_fuel target interval frame = Some ((frame + j * interval) mod 2 ^ 14)
  /\ dwc2_frame_num_gt target ((frame + j * interval) mod 2 ^ 14) = false
  /\ forall i, 0 <= i < j -> dwc2_frame_num_gt target ((frame + i * interval) mod 2 ^ 14) = true.
Proof.
  intros Ht Hi Hf. apply frame_catch_up_spec; [done..|]. intros E.
  apply frame_gt_spec in E; [|done..]. unfold frame_fuel. lia.
Qed.

Section FrameTheorems.
Context {M : Type} `{Ho : !BitmapOps M} `{Hl : !BitmapLaws M}.

(** The period of a QH in its map divides the number of frames. *)
Lemma period_cases h p :
  0 <= h -> p = 8 \/ p = 1 ->
  u16 (gcd h p) = gcd h p /\ (gcd h p = 1 \/ gcd h p = 2 \/ gcd h p = 4 \/ gcd h p = 8).
Proof.
  intros Hh Hp. rewrite gcd_spec by lia.
  assert (Hle : Z.gcd h p <= p) by (apply Z.divide_pos_le; [lia|apply Z.gcd_divide_r]).
  assert (Hpos : Z.gcd h p <> 0) by (intros E; apply Z.gcd_eq_0 in E; lia).
  pose proof (Z.gcd_nonneg h p). destruct (Z.gcd_divide_r h p) as [q Hq].
  generalize dependent (Z.gcd h p). intros g Hle Hpos H0 Hq.
  assert (Hg : 1 <= g <= 8) by lia.
  split; [apply u16_id; unfold is_u16; lia|].
  assert (Hc : g = 1 \/ g = 2 \/ g = 3 \/ g = 4 \/ g = 5 \/ g = 6 \/ g = 7 \/ g = 8) by lia.
  destruct Hp as [-> | ->]; repeat destruct Hc as [Hc|Hc]; rewrite Hc in *; lia.
Qed.

Lemma scheduled_frame_period qh :
  0 <= host_interval qh ->
  let '(_, interval) := scheduled_frame qh in
  interval = 1 \/ interval = 2 \/ interval = 4 \/ interval = 8.
Proof.
  intros Hh. unfold scheduled_frame.
  case_if; [pose proof (period_cases (host_interval qh) 8 Hh ltac:(by left)) as [E Hc]
           |pose proof (period_cases (host_interval qh) 1 Hh ltac:(by right)) as [E Hc]];
    unfold DWC2_HS_SCHEDULE_UFRAMES, DWC2_LS_SCHEDULE_FRAMES; by rewrite E.
Qed.

(** The frame that the search starts from, and the one it ends with. *)
Lemma pick_first_frame_lands qh frame_number :
  0 <= frame_number < 2 ^ 14 -> 0 <= host_interval qh ->
  0 <= fst (scheduled_frame qh) < snd (scheduled_frame qh) ->
  exists n, dwc2_pick_first_frame true qh frame_number
            = Some {| qh with next_active_frame := n; start_active_frame := n |}
  /\ 0 <= n < 2 ^ 14
  /\ (n - (frame_number + 1)) mod 2 ^ 14 < snd (scheduled_frame qh)
  /\ (n + 1) mod snd (scheduled_frame qh) = fst (scheduled_frame qh).
Proof.
  intros Hf Hh Hr. pose proof (scheduled_frame_period qh Hh) as Hiv.
  unfold dwc2_pick_first_frame. cbn [negb].
  destruct (scheduled_frame qh) as [rel iv]. cbn [fst snd] in *.
  pose proof (frame_inc_range frame_number 1) as He.
  set (e := dwc2_frame_num_inc frame_number 1) in *.
  assert (Ee : e = (frame_number + 1) mod 2 ^ 14) by (unfold e, dwc2_frame_num_inc; apply frnum_mod).
  rewrite (u16_id (e / iv * iv))
    by (unfold is_u16; destruct Hiv as [-> | [-> | [-> | ->]]]; Z.to_euclidean_division_equations; lia).
  set (n0 := dwc2_frame_num_dec _ 1).
  assert (En0 : n0 = (e / iv * iv + rel - 1) mod 2 ^ 14).
  { unfold n0. rewrite frame_dec_mod. unfold dwc2_frame_num_inc.
    rewrite frnum_mod, Zminus_mod_idemp_l. done. }
  destruct (frame_catch_up_total e iv n0 He ltac:(lia) (frame_dec_range _ _))
    as (j & Hj & -> & Hgt & Hall).
  exists ((n0 + j * iv) mod 2 ^ 14). split; [done|]. split; [apply Z.mod_pos_bound; lia|].
  (** At most one step: the scheduled frame lies in the interval of [e]. *)
  assert (Hlate : forall i, dwc2_frame_num_gt e ((n0 + i * iv) mod 2 ^ 14) = true
                  <-> 0 < (e - (n0 + i * iv)) mod 2 ^ 14 < 0x1fff).
  { intros i. rewrite frame_gt_spec by (done || (apply Z.mod_pos_bound; lia)).
    by rewrite Zminus_mod_idemp_r. }
  assert (Hj1 : j = 0 \/ (j = 1 /\ 0 < (e - n0) mod 2 ^ 14 < 0x1fff)).
  { destruct (Z.eq_dec j 0); [by left|right]. pose proof (Hall 0 ltac:(lia)) as H0.
    rewrite Hlate, Z.mul_0_l, Z.add_0_r in H0. split; [|done].
    destruct (Z.le_gt_cases j 1); [lia|]. exfalso.
    specialize (Hall 1 ltac:(lia)). rewrite Hlate in Hall. clear Hgt Hlate.
    destruct Hiv as [-> | [-> | [-> | ->]]]; Z.to_euclidean_division_equations; lia. }
  assert (Hng : ~ 0 < (e - (n0 + j * iv)) mod 2 ^ 14 < 0x1fff)
    by (rewrite <- Hlate; by rewrite Hgt).
  rewrite <- (Zminus_mod_idemp_r _ (frame_number + 1)), <- Ee, Zminus_mod_idemp_l.
  clear Hall Hgt Hlate Ee Hf. clearbody n0 e.
  destruct Hiv as [-> | [-> | [-> | ->]]], Hj1 as [-> | [-> H0]]; split;
    Z.to_euclidean_division_equations; lia.
Qed.

(** C37: With the microframe scheduler, [dwc2_pick_first_frame] always comes to an end, and chooses the first frame
    that is not before the next one and after which - the QH is on the bus a
    frame later - comes the frame of the interval the QH was scheduled for. *)
Theorem pick_first_frame_exact qh frame_number :
  0 <= frame_number < 2 ^ 14 -> 0 <= host_interval qh ->
  0 <= fst (scheduled_frame qh) < snd (scheduled_frame qh) ->
  exists n, dwc2_pick_first_frame true qh frame_number
            = Some {| qh with next_active_frame := n; start_active_frame := n |}
  /\ 0 <= n < 2 ^ 14
  /\ (n - (frame_number + 1)) mod 2 ^ 14 < snd (scheduled_frame qh)
  /\ (n + 1) mod snd (scheduled_frame qh) = fst (scheduled_frame qh)
  /\ (forall n', 0 <= n' < 2 ^ 14 -> (n' + 1) mod snd (scheduled_frame qh) = fst (scheduled_frame qh) ->
      (n - (frame_number + 1)) mod 2 ^ 14 <= (n' - (frame_number + 1)) mod 2 ^ 14).
Proof.
  intros Hf Hh Hr. destruct (pick_first_frame_lands qh frame_number Hf Hh Hr) as (n & E & Hn & Hd & Hm).
  exists n. refine (conj E (conj Hn (conj Hd (conj Hm _)))). intros n' Hn' Hm'. pose proof (scheduled_frame_period qh Hh) as Hiv.
  destruct (scheduled_frame qh) as [rel iv]. cbn [fst snd] in *. rewrite <- Hm' in Hm. clear E Hh Hr Hm'.
  destruct Hiv as [-> | [-> | [-> | ->]]]; Z.to_euclidean_division_equations; lia.
Qed.

(** [dwc2_next_periodic_start] always comes to an end. A transfer on time
    starts [interval] after the last start. One that is late - or was already
    moved there - starts at the first frame of its period after that which is
    not late, and the result is the number of frames lost. *)
Theorem next_periodic_start_exact qh frame_number :
  0 <= frame_number < 2 ^ 14 -> 0 <= host_interval qh ->
  let s := dwc2_frame_num_inc (start_active_frame qh) (host_interval qh) in
  let late := dwc2_frame_num_gt (dwc2_frame_num_dec frame_number 1) in
  let period := gcd (host_interval qh)
                  (if do_split qh || bool_decide (dev_speed qh = USB_SPEED_HIGH) then 8 else 1) in
  exists missed n, dwc2_next_periodic_start qh frame_number
    = Some (missed, {| qh with start_active_frame := n; next_active_frame := n |})
  /\ if (host_interval qh >=? 0x1000) || negb ((s =? next_active_frame qh) || late s)
     then n = s /\ missed = 0
     else exists j, 1 <= j /\ n = (s + j * period) mod 2 ^ 14 /\ late n = false
          /\ (forall i, 1 <= i < j -> late ((s + i * period) mod 2 ^ 14) = true)
          /\ missed = (j * period) mod 2 ^ 14.
Proof.
  intros Hf Hh s late period. unfold dwc2_next_periodic_start. fold s.
  destruct (host_interval qh >=? 0x1000); [by do 2 eexists|]. cbn [orb].
  fold late. destruct ((s =? next_active_frame qh) || late s); cbn [negb]; [|by do 2 eexists].
  change DWC2_HS_SCHEDULE_UFRAMES with 8. change DWC2_LS_SCHEDULE_FRAMES with 1. fold period.
  pose proof (period_cases (host_interval qh)
    (if do_split qh || bool_decide (dev_speed qh = USB_SPEED_HIGH) then 8 else 1) Hh
    ltac:(case_if; [by left|by right])) as [Ep Hp]. fold period in Ep, Hp. rewrite Ep.
  assert (Hinc : forall i, (dwc2_frame_num_inc s period + i * period) mod 2 ^ 14
                           = (s + (i + 1) * period) mod 2 ^ 14).
  { intros i. unfold dwc2_frame_num_inc. rewrite frnum_mod, Zplus_mod_idemp_l. f_equal. lia. }
  destruct (frame_catch_up_total (dwc2_frame_num_dec frame_number 1) period
              (dwc2_frame_num_inc s period) (frame_dec_range _ _) ltac:(lia) (frame_inc_range _ _))
    as (j & Hj & -> & Hgt & Hall). rewrite Hinc in *.
  do 2 eexists. split; [done|]. exists (j + 1). split; [lia|]. split; [done|]. split; [done|].
  split.
  - intros i Hi. replace i with (i - 1 + 1) by lia. rewrite <- Hinc. apply Hall. lia.
  - rewrite frame_dec_mod, Zminus_mod_idemp_l. f_equal. lia.
Qed.
End FrameTheorems.

(** ** Reservations (hcd_queue.c) *)

Record dwc2_core_params := mkparams {
  uframe_sched : bool; host_channels : Z; max_transfer_size : Z; dma_desc_enable : bool
}.

(** [struct dwc2_hsotg]: what the queues use of it. *)
Record dwc2_hsotg (M : Type) := mkhsotg {
  params : dwc2_core_params;
  maps : dwc2_maps M;
  periodic_usecs : Z; periodic_qh_count : Z;
  periodic_channels : Z; non_periodic_channels : Z;
  frame_number : Z;
  (** the interrupt mask register *)
  gintmsk : Z
}.
Arguments mkhsotg {M}.
Arguments params {M}. Arguments maps {M}. Arguments periodic_usecs {M}.
Arguments periodic_qh_count {M}. Arguments periodic_channels {M}.
Arguments non_periodic_channels {M}. Arguments frame_number {M}. Arguments gintmsk {M}.

Definition GINTSTS_SOF : Z := BIT 3.

(** The schedule a QH is linked in. *)
Inductive qh_sched : Set :=
| NonPeriodicInactive | NonPeriodicWaiting
| PeriodicInactive | PeriodicReady.

(** A QH with its list entry and timers: whether the unreserve timer is pending,
    whether its callback has started and not had the lock, and the timer of a
    non-periodic QH that was NAKed. *)
Record qh_cell := mkcell {
  qh : dwc2_qh;
  qh_list_entry : option qh_sched;
  qtd_list_empty : bool;
  timer_pending : bool;
  timer_running : bool;
  want_wait : bool;
  wait_timer_cancel : bool;
  wait_timer : bool
}.

Definition dwc2_qh_is_non_per (q : dwc2_qh) : bool :=
  bool_decide (ep_type q = XFER_BULK) || bool_decide (ep_type q = XFER_CONTROL).

Section Queue.
Context {M : Type} `{!BitmapOps M}.
Variable HS_USECS_ISO : Z -> Z.
Implicit Types (h : dwc2_hsotg M) (c : qh_cell).

Definition dwc2_periodic_channel_available h : Z :=
  let num_channels := host_channels (params h) in
  if (periodic_channels h + non_periodic_channels h <? num_channels)
     && (periodic_channels h <? num_channels - 1) then 0 else - ENOSPC.

Definition dwc2_check_periodic_bandwidth h (q : dwc2_qh) : Z :=
  let max_claimed_usecs :=
    if bool_decide (dev_speed q = USB_SPEED_HIGH) || do_split q
    then s16 (100 - host_us q) else s16 (900 - host_us q) in
  if periodic_usecs h >? max_claimed_usecs then - ENOSPC else 0.

Definition dwc2_check_max_xfer_size h (q : dwc2_qh) : Z :=
  let max_xfer_size := u32 (maxp q * maxp_mult q) in
  if max_xfer_size >? u32 (max_transfer_size (params h)) then - ENOSPC else 0.

(** [hfnum] is the frame number the controller reads. *)
Definition dwc2_do_reserve h (q : dwc2_qh) (hfnum : Z) : option (Z * dwc2_hsotg M * dwc2_qh) :=
  let finish h q :=
    let h := if uframe_sched (params h) then h
             else {| h with periodic_channels := periodic_channels h + 1 |} in
    let h := {| h with periodic_usecs := u16 (periodic_usecs h + host_us q) |} in
    match dwc2_pick_first_frame (uframe_sched (params h)) q hfnum with
    | None => None
    | Some q => Some (0, h, q)
    end in
  if uframe_sched (params h) then
    match dwc2_uframe_schedule HS_USECS_ISO (maps h) q with
    | None => None
    | Some (status, m, q) =>
        let h := {| h with maps := m |} in
        if truthy status then Some (status, h, q) else finish h q
    end
  else
    let status := dwc2_periodic_channel_available h in
    if truthy status then Some (status, h, q)
    else
      let status := dwc2_check_periodic_bandwidth h q in
      if truthy status then Some (status, h, q) else finish h q.

Definition dwc2_do_unreserve h c : dwc2_hsotg M * qh_cell :=
  let q := {| (qh c) with unreserve_pending := false |} in
  let c := {| c with qh := q; qh_list_entry := None |} in
  let h := {| h with periodic_usecs := u16 (periodic_usecs h - host_us q) |} in
  if uframe_sched (params h) then ({| h with maps := dwc2_uframe_unschedule (maps h) q |}, c)
  else ({| h with periodic_channels := periodic_channels h - 1 |}, c).

(** The timer's callback once it has the lock. *)
Definition dwc2_unreserve_timer_fn h c : dwc2_hsotg M * qh_cell :=
  if unreserve_pending (qh c) then dwc2_do_unreserve h c else (h, c).

Definition dwc2_schedule_periodic h c (hfnum : Z) : option (Z * dwc2_hsotg M * qh_cell) :=
  let status := dwc2_check_max_xfer_size h (qh c) in
  if truthy status then Some (status, h, c)
  else
    let c := {| c with timer_pending := false |} in
    let link h q :=
      let q := {| q with unreserve_pending := false |} in
      let l := if dma_desc_enable (params h) then PeriodicReady else PeriodicInactive in
      Some (0, h, {| c with qh := q; qh_list_entry := Some l |}) in
    if negb (unreserve_pending (qh c)) then
      match dwc2_do_reserve h (qh c) hfnum with
      | None => None
      | Some (status, h, q) =>
          if truthy status then Some (status, h, {| c with qh := q |}) else link h q
      end
    else if dwc2_frame_num_le (next_active_frame (qh c)) (frame_number h) then
      match dwc2_pick_first_frame (uframe_sched (params h)) (qh c) hfnum with
      | None => None
      | Some q => link h q
      end
    else link h (qh c).

Definition dwc2_deschedule_periodic h c : dwc2_hsotg M * qh_cell :=
  (h, {| c with timer_pending := true; qh := {| (qh c) with unreserve_pending := true |};
                qh_list_entry := None |}).

Definition dwc2_hcd_qh_add h c (hfnum : Z) : option (Z * dwc2_hsotg M * qh_cell) :=
  match qh_list_entry c with
  | Some _ => Some (0, h, c)
  | None =>
      if dwc2_qh_is_non_per (qh c) then
        let q := {| (qh c) with start_active_frame := frame_number h;
                              next_active_frame := frame_number h |} in
        if want_wait c then
          Some (0, h, {| c with qh := q; qh_list_entry := Some NonPeriodicWaiting;
                                wait_timer_cancel := false; wait_timer := true |})
        else Some (0, h, {| c with qh := q; qh_list_entry := Some NonPeriodicInactive |})
      else
        match dwc2_schedule_periodic h c hfnum with
        | None => None
        | Some (status, h, c) =>
            if truthy status then Some (status, h, c)
            else
              let h := if periodic_qh_count h =? 0
                       then {| h with gintmsk := gintmsk h .| GINTSTS_SOF |} else h in
              Some (0, {| h with periodic_qh_count := u16 (periodic_qh_count h + 1) |}, c)
        end
  end.

Definition dwc2_hcd_qh_unlink h c : dwc2_hsotg M * qh_cell :=
  let c := {| c with wait_timer_cancel := true |} in
  match qh_list_entry c with
  | None => (h, c)
  | Some _ =>
      if dwc2_qh_is_non_per (qh c) then (h, {| c with qh_list_entry := None |})
      else
        let '(h, c) := dwc2_deschedule_periodic h c in
        let h := {| h with periodic_qh_count := u16 (periodic_qh_count h - 1) |} in
        let h := if (periodic_qh_count h =? 0) && negb (dma_desc_enable (params h))
                 then {| h with gintmsk := gintmsk h .& Z.lnot GINTSTS_SOF |} else h in
        (h, c)
  end.

(** The periodic part; [split] is [sched_next_periodic_split]. *)
Definition dwc2_hcd_qh_deactivate h c (split : bool) (hfnum : Z)
  : option (dwc2_hsotg M * qh_cell) :=
  if dwc2_qh_is_non_per (qh c) then
    let '(h, c) := dwc2_hcd_qh_unlink h c in
    if qtd_list_empty c then Some (h, c)
    else match dwc2_hcd_qh_add h c hfnum with
         | None => None
         | Some (_, h, c) => Some (h, c)
         end
  else
    match (if split then Some (dwc2_next_for_periodic_split (qh c) hfnum)
           else dwc2_next_periodic_start (qh c) hfnum) with
    | None => None
    | Some (_, q) =>
        let c := {| c with qh := q |} in
        if qtd_list_empty c then Some (dwc2_hcd_qh_unlink h c)
        else
          let l := if dwc2_frame_num_le (next_active_frame q) (frame_number h)
                   then PeriodicReady else PeriodicInactive in
          Some (h, {| c with qh_list_entry := Some l |})
    end.

(** What [dwc2_hcd_qh_free] does to the reservation; it waits for a callback
    that runs. *)
Definition dwc2_hcd_qh_free h c : dwc2_hsotg M :=
  if timer_pending c then fst (dwc2_do_unreserve h c) else h.
End Queue.

(** ** Creating a QH *)

(** What [dwc2_qh_init] reads of the request, of its device, and of the
    translator, with its think time, that [dwc2_host_get_tt_info] answers. *)
Record dwc2_urb := mkurb {
  urb_speed : usb_speed; urb_type : usb_xfer; urb_in : bool;
  urb_maxp : Z; urb_maxp_mult : Z; urb_interval : Z;
  urb_tt : option (dwc2_tt * Z); urb_ttport : Z
}.

Section Create.
(** Functions of the USB core: the bus time of a packet in ns, by speed,
    direction and whether it is isochronous, and its conversion. *)
Variable usb_calc_bus_time : usb_speed -> bool -> bool -> Z -> Z.
Variable NS_TO_US : Z -> Z.

(** [port_high] tells whether the root port runs at high speed. *)
Definition dwc2_qh_init (port_high : bool) (u : dwc2_urb) : dwc2_qh :=
  let do_split := port_high && negb (bool_decide (urb_speed u = USB_SPEED_HIGH)) in
  let bytes := urb_maxp_mult u * urb_maxp u in
  let q := mkqh (urb_type u) (urb_in u) (urb_maxp u) (urb_maxp_mult u) (urb_speed u) do_split
             0 0 0 0 0 0 0 (replicate 8 (mktime 0 0)) 0 None 0 false false in
  let is_isoc := bool_decide (urb_type u = XFER_ISOC) in
  if bool_decide (urb_type u = XFER_INT) || is_isoc then
    let host_speed := if do_split then USB_SPEED_HIGH else urb_speed u in
    let device_ns := usb_calc_bus_time (urb_speed u) (urb_in u) is_isoc bytes in
    let device_ns :=
      match urb_tt u with
      | Some (_, think_time) => if do_split then device_ns + think_time else device_ns
      | None => device_ns
      end in
    {| q with
       dwc_tt := fst <$> urb_tt u; ttport := urb_ttport u;
       host_us := u16 (NS_TO_US (usb_calc_bus_time host_speed (urb_in u) is_isoc bytes));
       device_us := u16 (NS_TO_US device_ns);
       device_interval := u16 (urb_interval u);
       host_interval := u16 (urb_interval u * if do_split then 8 else 1);
       schedule_low_speed := negb port_high || bool_decide (is_Some (urb_tt u));
       num_hs_transfers :=
         if do_split then -1 else if bool_decide (urb_speed u = USB_SPEED_HIGH) then 1 else 0 |}
  else q.

(** Bus times are positive, bounded, and at least 779 ns a byte for isochronous
    IN at full speed; the conversion rounds up. *)
Hypothesis bus_time_range : forall sp i iso b, 0 <= b <= 3072 ->
  1 <= usb_calc_bus_time sp i iso b <= 60000000.
Hypothesis bus_time_isoc_in : forall b, 0 <= b <= 1023 ->
  779 * b <= usb_calc_bus_time USB_SPEED_FULL true true b.
Hypothesis NS_TO_US_up : forall ns, ns <= 1000 * NS_TO_US ns < ns + 1000.

(** The limits of USB on periodic packets: 1024 bytes three times at high speed,
    1023 isochronous and 64 interrupt bytes below. *)
Definition usb_packet_ok (u : dwc2_urb) : Prop :=
  let bytes := urb_maxp_mult u * urb_maxp u in
  0 <= bytes
  <= match urb_speed u, urb_type u with
     | USB_SPEED_HIGH, _ => 3072
     | _, XFER_INT => 64
     | _, _ => 1023
     end
  /\ (urb_type u = XFER_ISOC -> urb_speed u <> USB_SPEED_LOW)
  /\ match urb_tt u with Some (_, think) => 0 <= think <= 10000 | None => True end.

Lemma us_range ns : 1 <= ns <= 61000000 -> 1 <= u16 (NS_TO_US ns) < 2 ^ 16 /\ ns <= 1000 * u16 (NS_TO_US ns).
Proof.
  intros Hns. pose proof (NS_TO_US_up ns). rewrite u16_id by (unfold is_u16; lia). lia.
Qed.

(** C36: A periodic QH is created in the form the scheduler relies on: for a device
    below high speed behind a translator on a high-speed port, as a split QH whose
    transfers fit; for a high-speed device without translator on such a port, and
    for a slower one behind a translator on a slower port, as a QH that needs no split.
    The packets are those USB allows - at most 3072 bytes a microframe at high speed, 64
    for a slower interrupt transfer, 1023 for a full-speed isochronous one - and a
    translator's think time is at most 10 us.  (Nothing is claimed for a high-speed
    device behind a translator or on a slower port, nor for a slower one without
    translator.) *)
Theorem qh_init_well_formed port_high u :
  urb_type u = XFER_ISOC \/ urb_type u = XFER_INT -> usb_packet_ok u ->
  let q := dwc2_qh_init port_high u in
  match urb_speed u, port_high, urb_tt u with
  | USB_SPEED_HIGH, true, None => direct_qh q
  | USB_SPEED_HIGH, _, _ => True
  | _, true, Some (t, _) => split_qh q (tt_id t, if tt_multi t then urb_ttport u - 1 else 0)
  | _, false, Some _ => direct_qh q
  | _, _, None => True
  end.
Proof.
  intros Hty (Hb & Hlow & Htt) q.
  assert (Hper : bool_decide (urb_type u = XFER_INT) || bool_decide (urb_type u = XFER_ISOC) = true).
  { apply orb_true_iff. destruct Hty; [right|left]; by apply bool_decide_eq_true_2. }
  assert (Hb3 : 0 <= urb_maxp_mult u * urb_maxp u <= 3072) by (destruct (urb_speed u), (urb_type u); lia).
  assert (Hbus : forall sp i iso t, 0 <= t <= 10000 ->
    1 <= usb_calc_bus_time sp i iso (urb_maxp_mult u * urb_maxp u) + t <= 61000000)
    by (intros sp i iso t Ht; pose proof (bus_time_range sp i iso _ Hb3); lia).
  assert (Hus : forall sp i iso t, 0 <= t <= 10000 ->
    1 <= u16 (NS_TO_US (usb_calc_bus_time sp i iso (urb_maxp_mult u * urb_maxp u) + t)) < 2 ^ 16)
    by (intros sp i iso t Ht; by apply us_range, Hbus).
  assert (Hu16 : forall x, 0 <= u16 x) by (intros x; apply Z.mod_pos_bound; lia).
  assert (Hus0 : forall sp i iso,
    1 <= u16 (NS_TO_US (usb_calc_bus_time sp i iso (urb_maxp_mult u * urb_maxp u))) < 2 ^ 16).
  { intros sp i iso. pose proof (Hus sp i iso 0 ltac:(lia)) as H0. by rewrite Z.add_0_r in H0. }
  assert (Htimes : times_ok (replicate 8 (mktime 0 0))) by (repeat constructor; cbn; lia).
  subst q. unfold dwc2_qh_init. rewrite Hper. cbv zeta.
  destruct (urb_speed u) eqn:Esp, port_high, (urb_tt u) as [[t think]|]; try done;
    rewrite ?(bool_decide_eq_true_2 (USB_SPEED_HIGH = USB_SPEED_HIGH)) by done;
    rewrite ?(bool_decide_eq_false_2 (USB_SPEED_LOW = USB_SPEED_HIGH)) by done;
    rewrite ?(bool_decide_eq_false_2 (USB_SPEED_FULL = USB_SPEED_HIGH)) by done;
    cbn [negb andb fst fmap option_fmap option_map].
  all: split; cbn [host_interval device_interval device_us host_us hs_transfers dev_speed
    num_hs_transfers schedule_low_speed do_split ep_type ep_is_in]; try done;
    try apply Hus0; try (by apply Hus); try apply Hu16.
  all: unfold bytecount; cbn [maxp maxp_mult ep_type].
  1, 4: destruct Hty as [E|E]; rewrite E in *;
    [rewrite decide_False by done|rewrite decide_True by done]; exact Hb.
  - intros Hiso. by destruct (Hlow Hiso).
  - right. by split_and!.
  - intros Hiso Hin. rewrite Hin, Hiso in *. cbn in Hb. rewrite bool_decide_eq_true_2 by done.
    pose proof (bus_time_isoc_in _ Hb). pose proof (us_range _ (Hbus USB_SPEED_FULL true true think Htt)).
    lia.
  - right. by split_and!.
  - left. by split_and!.
Qed.
End Create.

(** ** The protocol: events on a system of QHs *)

Record dwc2_sys (M : Type) := mksys { core : dwc2_hsotg M; cells : gmap Z qh_cell }.
Arguments mksys {M}. Arguments core {M}. Arguments cells {M}.

(** The driver's calls, the timer of a QH firing, and its callback getting the
    lock or giving up because the timer was armed again. *)
Inductive qh_event : Set :=
| EvNew (i : Z) (q : dwc2_qh)
| EvQtds (i : Z) (empty : bool)
| EvAdd (i hfnum : Z)
| EvUnlink (i : Z)
| EvDeactivate (i : Z) (split : bool) (hfnum : Z)
| EvFire (i : Z)
| EvRun (i : Z)
| EvGiveUp (i : Z)
| EvFree (i : Z).

Section Protocol.
Context {M : Type} `{!BitmapOps M}.
Variable HS_USECS_ISO : Z -> Z.
Implicit Types (h : dwc2_hsotg M) (c : qh_cell) (s : dwc2_sys M).

Definition put (i : Z) (r : dwc2_hsotg M * qh_cell) s : dwc2_sys M :=
  mksys (fst r) (<[i := snd r]> (cells s)).

Definition qh_exec s (e : qh_event) : option (dwc2_sys M) :=
  match e with
  | EvNew i q =>
      if decide (cells s !! i = None) then
        let q := {| q with unreserve_pending := false |} in
        Some (put i (core s, mkcell q None true false false false false false) s)
      else None
  | EvQtds i empty =>
      c ← cells s !! i; Some (put i (core s, {| c with qtd_list_empty := empty |}) s)
  | EvAdd i hfnum =>
      c ← cells s !! i;
      '(_, h, c) ← dwc2_hcd_qh_add HS_USECS_ISO (core s) c hfnum;
      Some (put i (h, c) s)
  | EvUnlink i => c ← cells s !! i; Some (put i (dwc2_hcd_qh_unlink (core s) c) s)
  | EvDeactivate i split hfnum =>
      c ← cells s !! i;
      (** a QH is deactivated while it is in a schedule *)
      if decide (qh_list_entry c = None) then None
      else r ← dwc2_hcd_qh_deactivate HS_USECS_ISO (core s) c split hfnum; Some (put i r s)
  | EvFire i =>
      c ← cells s !! i;
      if timer_pending c && negb (timer_running c)
      then Some (put i (core s, {| c with timer_pending := false; timer_running := true |}) s)
      else None
  | EvRun i =>
      c ← cells s !! i;
      if timer_running c
      then Some (put i (dwc2_unreserve_timer_fn (core s) {| c with timer_running := false |}) s)
      else None
  | EvGiveUp i =>
      c ← cells s !! i;
      if timer_running c && timer_pending c
      then Some (put i (core s, {| c with timer_running := false |}) s) else None
  | EvFree i =>
      c ← cells s !! i;
      (** a QH is freed when it is in no schedule, and the call waits for a callback
          that runs *)
      if bool_decide (qh_list_entry c = None) && negb (timer_running c)
      then Some (mksys (dwc2_hcd_qh_free (core s) c) (delete i (cells s))) else None
  end.

Fixpoint qh_run s (es : list qh_event) : option (dwc2_sys M) :=
  match es with
  | [] => Some s
  | e :: es => match qh_exec s e with Some s => qh_run s es | None => None end
  end.

(** A QH holds a reservation while it is in a schedule, and until the release
    that is pending. *)
Definition qh_holds c : bool :=
  negb (dwc2_qh_is_non_per (qh c))
  && (bool_decide (is_Some (qh_list_entry c)) || unreserve_pending (qh c)).

Definition held_usecs c : Z := if qh_holds c then host_us (qh c) else 0.
Definition linked c : Z :=
  if negb (dwc2_qh_is_non_per (qh c)) && bool_decide (is_Some (qh_list_entry c)) then 1 else 0.

Definition total (f : qh_cell -> Z) (m : gmap Z qh_cell) : Z := map_fold (fun _ c a => f c + a) 0 m.

Definition cell_ok c : Prop :=
  (unreserve_pending (qh c) = true ->
     dwc2_qh_is_non_per (qh c) = false /\ qh_list_entry c = None
     /\ (timer_pending c = true \/ timer_running c = true)).

(** Freeing a QH releases its time whenever its timer is armed, without a look at
    [unreserve_pending]: this much is released a second time, by a call and by a run. *)
Definition over_freed c : Z := if timer_pending c && negb (unreserve_pending (qh c)) then host_us (qh c) else 0.

Definition over_released_by s (e : qh_event) : Z :=
  match e with
  | EvFree i => match cells s !! i with Some c => over_freed c | None => 0 end
  | _ => 0
  end.

Fixpoint over_released s (es : list qh_event) : Z :=
  match es with
  | [] => 0
  | e :: es => over_released_by s e + match qh_exec s e with Some s => over_released s es | None => 0 end
  end.

(** [x] is the time released twice so far. *)
Definition protocol_inv (x : Z) s : Prop :=
  periodic_usecs (core s) = u16 (total held_usecs (cells s) - x)
  /\ periodic_qh_count (core s) = u16 (total linked (cells s))
  /\ forall i c, cells s !! i = Some c -> cell_ok c.

(** *** Facts *)

Lemma total_insert f m i c :
  m !! i = None -> total f (<[i := c]> m) = f c + total f m.
Proof. intros Hi. unfold total. by rewrite (map_fold_insert_L (fun _ c a => f c + a)) by (intros; lia || done). Qed.

Lemma total_replace f m i c c' :
  m !! i = Some c -> total f (<[i := c']> m) = total f m - f c + f c'.
Proof.
  intros Hi. rewrite <- (insert_delete_id m i c Hi) at 2.
  rewrite <- (insert_delete_eq m i c').
  rewrite !total_insert by apply lookup_delete_eq. lia.
Qed.

Lemma total_delete f m i c : m !! i = Some c -> total f (delete i m) = total f m - f c.
Proof.
  intros Hi. rewrite <- (insert_delete_id m i c Hi) at 2. rewrite total_insert by apply lookup_delete_eq. lia.
Qed.

Lemma u16_add_l a b : u16 (u16 a + b) = u16 (a + b).
Proof. unfold u16. apply Zplus_mod_idemp_l. Qed.
Lemma u16_sub_l a b : u16 (u16 a - b) = u16 (a - b).
Proof. unfold u16. apply Zminus_mod_idemp_l. Qed.

(** The scheduler keeps what the accounting looks at. *)
Definition sched_same (q q' : dwc2_qh) : Prop :=
  host_us q' = host_us q /\ ep_type q' = ep_type q /\ unreserve_pending q' = unreserve_pending q.

Lemma sched_same_trans q1 q2 q3 : sched_same q1 q2 -> sched_same q2 q3 -> sched_same q1 q3.
Proof. intros (? & ? & ?) (? & ? & ?). unfold sched_same. split_and!; congruence. Qed.

Ltac sched_cases E :=
  repeat match type of E with context [match ?x with _ => _ end] => destruct x eqn:? end;
  simplify_eq; try done.

Lemma ls_schedule_same m q sl ret m' q' :
  dwc2_ls_pmap_schedule (M := M) m q sl = Some (ret, m', q') -> sched_same q q'.
Proof. unfold dwc2_ls_pmap_schedule. cbv zeta. intros E. sched_cases E. Qed.

Lemma hs_schedule_same m q only i ret m' q' :
  dwc2_hs_pmap_schedule (M := M) m q only i = Some (ret, m', q') -> sched_same q q'.
Proof. unfold dwc2_hs_pmap_schedule. cbv zeta. intros E. sched_cases E. Qed.

Lemma hs_schedule_all_same n : forall m q i err j m' q',
  hs_schedule_all (M := M) m q n i = Some (err, j, m', q') -> sched_same q q'.
Proof.
  induction n as [|n IH]; intros m q i err j m' q'; cbn [hs_schedule_all]; [by intros [= <- <- <- <-]|].
  destruct (dwc2_hs_pmap_schedule m q true i) as [[[e m1] q1]|] eqn:E; [|done].
  apply hs_schedule_same in E. case_if; [by intros [= <- <- <- <-]|].
  intros H. by eapply sched_same_trans, IH.
Qed.

Definition outcome_qh (out : split_outcome (M := M)) : dwc2_qh :=
  match out with SplitReturn _ _ q | SplitDone _ q | SplitAgain _ _ q => q end.

Lemma split_hs_round_same m q b g out :
  split_hs_round HS_USECS_ISO m q b g = Some out -> sched_same q (outcome_qh out).
Proof.
  unfold split_hs_round. destruct (split_setup HS_USECS_ISO q b g) as [s|q1] eqn:Es; [by intros [= <-]|].
  assert (H1 : sched_same q q1).
  { revert Es. unfold split_setup. cbv zeta. case_if; [done|]. case_if; [done|].
    destruct (split_counts _ _ _ _ _) as [[[num c1] c2] c3]. by intros [= <-]. }
  destruct (hs_schedule_all _ _ _ _) as [[[[e j] m'] q']|] eqn:E; [|done].
  apply hs_schedule_all_same in E. case_if; intros [= <-]; cbn; by eapply sched_same_trans.
Qed.

Lemma split_loop_same fuel : forall m q sl ret m' q',
  split_loop HS_USECS_ISO (M := M) fuel m q sl = Some (ret, m', q') -> sched_same q q'.
Proof.
  induction fuel as [|fuel IH]; intros m q sl ret m' q'; cbn [split_loop];
    (case_if; [|by intros [= <- <- <-]]); [done|].
  destruct (split_round HS_USECS_ISO m q sl) as [out|] eqn:E; [|done].
  assert (Hs : sched_same q (outcome_qh out)).
  { unfold split_round in E. cbv zeta in E. case_if_in E.
    - destruct (dwc2_ls_pmap_schedule m q sl) as [[[e m1] q1]|] eqn:E1; [|done].
      apply ls_schedule_same in E1. case_if_in E; [by injection E as <-|].
      apply split_hs_round_same in E. by eapply sched_same_trans.
    - by apply split_hs_round_same in E. }
  destruct out; cbn in Hs; [by intros [= <- <- <-]..|].
  intros H. by eapply sched_same_trans, IH.
Qed.

Lemma uframe_schedule_same m q ret m' q' :
  dwc2_uframe_schedule HS_USECS_ISO (M := M) m q = Some (ret, m', q') -> sched_same q q'.
Proof.
  unfold dwc2_uframe_schedule. intros E. repeat case_if_in E.
  - unfold dwc2_uframe_schedule_hs in E. by apply hs_schedule_same in E.
  - by apply ls_schedule_same in E.
  - by apply split_loop_same in E.
Qed.

Lemma pick_first_frame_same b q f q' :
  dwc2_pick_first_frame (M := M) b q f = Some q' -> sched_same q q'.
Proof.
  unfold dwc2_pick_first_frame. cbv zeta. intros E. sched_cases E.
Qed.

Lemma next_periodic_start_same q f n q' :
  dwc2_next_periodic_start (M := M) q f = Some (n, q') -> sched_same q q'.
Proof. unfold dwc2_next_periodic_start. cbv zeta. intros E. sched_cases E. Qed.

Lemma next_for_periodic_split_same q f n q' :
  dwc2_next_for_periodic_split q f = (n, q') -> sched_same q q'.
Proof. unfold dwc2_next_for_periodic_split. cbv zeta. intros E. sched_cases E. Qed.

(** A reservation claims the time of the QH, once; a failure claims nothing. *)
Lemma do_reserve_spec h q hfnum status h' q' :
  dwc2_do_reserve HS_USECS_ISO h q hfnum = Some (status, h', q') ->
  sched_same q q' /\ periodic_qh_count h' = periodic_qh_count h
  /\ periodic_usecs h' = (if truthy status then periodic_usecs h
                          else u16 (periodic_usecs h + host_us q)).
Proof.
  unfold dwc2_do_reserve. cbv zeta. intros E. case_if_in E.
  - destruct (dwc2_uframe_schedule _ _ _) as [[[st m] q1]|] eqn:E1; [|done].
    apply uframe_schedule_same in E1. destruct (truthy st) eqn:Et.
    + injection E as <- <- <-. by rewrite Et.
    + destruct (dwc2_pick_first_frame _ _ _) as [q2|] eqn:E2; [|done].
      apply pick_first_frame_same in E2. injection E as <- <- <-.
      split; [by eapply sched_same_trans|]. destruct E1 as (Eh & _).
      rewrite <- Eh. by destruct (uframe_sched _).
  - destruct (truthy (dwc2_periodic_channel_available h)) eqn:Et;
      [injection E as <- <- <-; by rewrite Et|].
    destruct (truthy (dwc2_check_periodic_bandwidth h q)) eqn:Et2;
      [injection E as <- <- <-; by rewrite Et2|].
    destruct (dwc2_pick_first_frame _ _ _) as [q2|] eqn:E2; [|done].
    apply pick_first_frame_same in E2. injection E as <- <- <-. by destruct (uframe_sched _).
Qed.

(** How an operation on one QH has to change the counters. *)
Definition accounts h c h' c' : Prop :=
  cell_ok c'
  /\ u16 (periodic_usecs h') = u16 (periodic_usecs h + (held_usecs c' - held_usecs c))
  /\ u16 (periodic_qh_count h') = u16 (periodic_qh_count h + (linked c' - linked c)).

(** The counters are 16-bit fields. *)
Definition counters16 h : Prop :=
  u16 (periodic_usecs h) = periodic_usecs h /\ u16 (periodic_qh_count h) = periodic_qh_count h.

Lemma u16_idemp x : u16 (u16 x) = u16 x.
Proof. unfold u16. by rewrite Zmod_mod. Qed.

Lemma put_inv x s i c h' c' :
  protocol_inv x s -> cells s !! i = Some c -> counters16 h' ->
  accounts (core s) c h' c' -> protocol_inv x (put i (h', c') s).
Proof.
  intros (Hu & Hn & Hc) Hi [Hu' Hn'] (Hok & H1 & H2). split_and!; cbn [put core cells fst snd].
  - rewrite <- Hu', H1, Hu, u16_add_l, (total_replace _ _ _ c) by done. f_equal. lia.
  - rewrite <- Hn', H2, Hn, u16_add_l, (total_replace _ _ _ c) by done. f_equal. lia.
  - intros j d. destruct (decide (i = j)) as [<-|Hij].
    + rewrite lookup_insert_eq. intros [= <-]. exact Hok.
    + rewrite lookup_insert_ne by done. apply Hc.
Qed.

Lemma accounts_same h c c' :
  cell_ok c' -> held_usecs c' = held_usecs c -> linked c' = linked c -> accounts h c h c'.
Proof. intros Hok H1 H2. unfold accounts. by rewrite H1, H2, !Z.sub_diag, !Z.add_0_r. Qed.

Lemma sched_same_non_per q q' : sched_same q q' -> dwc2_qh_is_non_per q' = dwc2_qh_is_non_per q.
Proof. intros (_ & He & _). unfold dwc2_qh_is_non_per. by rewrite He. Qed.

Lemma schedule_periodic_spec h c hfnum st h' c' :
  cell_ok c -> qh_list_entry c = None -> dwc2_qh_is_non_per (qh c) = false ->
  dwc2_schedule_periodic HS_USECS_ISO h c hfnum = Some (st, h', c') ->
  cell_ok c' /\ dwc2_qh_is_non_per (qh c') = false
  /\ periodic_qh_count h' = periodic_qh_count h
  /\ (periodic_usecs h' = periodic_usecs h \/ periodic_usecs h' = u16 (periodic_usecs h + host_us (qh c)))
  /\ u16 (periodic_usecs h') = u16 (periodic_usecs h + (held_usecs c' - held_usecs c))
  /\ (if truthy st then qh_list_entry c' = None else is_Some (qh_list_entry c')).
Proof.
  intros Hok Hl Hnp. unfold dwc2_schedule_periodic. cbv zeta.
  assert (Hheld : forall q l t, sched_same (qh c) q ->
    held_usecs (mkcell {| q with unreserve_pending := false |} (Some l) t false
                  (timer_running c) (want_wait c) (wait_timer_cancel c) (wait_timer c))
    = host_us (qh c)).
  { intros q l t Hs. unfold held_usecs, qh_holds. cbn [qh qh_list_entry].
    change (dwc2_qh_is_non_per {| q with unreserve_pending := false |}) with (dwc2_qh_is_non_per q).
    rewrite (sched_same_non_per _ _ Hs), Hnp. cbn. by destruct Hs. }
  assert (Hc : held_usecs c = if unreserve_pending (qh c) then host_us (qh c) else 0).
  { unfold held_usecs, qh_holds. by rewrite Hnp, Hl. }
  destruct (truthy (dwc2_check_max_xfer_size h (qh c))) eqn:Ex.
  { intros [= <- <- <-]. rewrite Ex, Z.sub_diag, Z.add_0_r. by split_and!; try left. }
  cbn [qh]. destruct (unreserve_pending (qh c)) eqn:Ep; cbn [negb].
  - destruct (dwc2_frame_num_le _ _).
    + destruct (dwc2_pick_first_frame _ _ _) as [q|] eqn:E; [|done].
      apply pick_first_frame_same in E. intros [= <- <- <-]. cbn [truthy].
      rewrite Hc, Hheld, Z.sub_diag, Z.add_0_r by done.
      split_and!; [done| |done|by left|done|by eexists].
      rewrite <- Hnp. exact (sched_same_non_per _ _ E).
    + intros [= <- <- <-]. rewrite Hc, Hheld, Z.sub_diag, Z.add_0_r by done.
      split_and!; [done|done|done|by left|done|by eexists].
  - destruct (dwc2_do_reserve _ _ _ _) as [[[st1 h1] q]|] eqn:E; [|done].
    apply do_reserve_spec in E as (Hs & Hn & Hu). destruct (truthy st1) eqn:Et.
    + intros [= <- <- <-]. rewrite Et. rewrite Hu.
      assert (Hz : held_usecs (mkcell q (qh_list_entry c) (qtd_list_empty c) false
                (timer_running c) (want_wait c) (wait_timer_cancel c) (wait_timer c)) = 0).
      { unfold held_usecs, qh_holds. cbn [qh qh_list_entry].
        destruct Hs as (_ & _ & ->). rewrite Hl, Ep. cbn. by rewrite andb_false_r. }
      rewrite Hz, Hc, Z.add_0_r. split_and!; [|rewrite <- Hnp; exact (sched_same_non_per _ _ Hs)|done|by left|done|done].
      intros Hp. cbn in Hp. destruct Hs as (_ & _ & Hs). by rewrite Hs, Ep in Hp.
    + intros [= <- <- <-]. cbn [truthy]. rewrite Hc, Hheld, Z.sub_0_r, Hu, u16_idemp by done.
      split_and!; [done| |done|by right|done|by eexists].
      rewrite <- Hnp. exact (sched_same_non_per _ _ Hs).
Qed.

Lemma counters16_usecs h h' x :
  counters16 h -> periodic_qh_count h' = periodic_qh_count h ->
  periodic_usecs h' = periodic_usecs h \/ periodic_usecs h' = u16 x -> counters16 h'.
Proof.
  intros [H1 H2] Hn [Hu|Hu]; split; rewrite ?Hn, ?Hu; try done. apply u16_idemp.
Qed.

Lemma linked_non_per c : dwc2_qh_is_non_per (qh c) = true -> linked c = 0.
Proof. intros H. unfold linked. by rewrite H. Qed.
Lemma held_non_per c : dwc2_qh_is_non_per (qh c) = true -> held_usecs c = 0.
Proof. intros H. unfold held_usecs, qh_holds. by rewrite H. Qed.
Lemma linked_none c : qh_list_entry c = None -> linked c = 0.
Proof. intros H. unfold linked. rewrite H. by rewrite andb_false_r. Qed.
Lemma linked_some c l :
  dwc2_qh_is_non_per (qh c) = false -> qh_list_entry c = Some l -> linked c = 1.
Proof. intros H1 H2. unfold linked. by rewrite H1, H2. Qed.
Lemma held_some c l :
  dwc2_qh_is_non_per (qh c) = false -> qh_list_entry c = Some l -> held_usecs c = host_us (qh c).
Proof. intros H1 H2. unfold held_usecs, qh_holds. by rewrite H1, H2. Qed.
Lemma held_pending c :
  dwc2_qh_is_non_per (qh c) = false -> unreserve_pending (qh c) = true ->
  held_usecs c = host_us (qh c).
Proof. intros H1 H2. unfold held_usecs, qh_holds. rewrite H1, H2. by rewrite orb_true_r. Qed.

Lemma qh_add_accounts h c hfnum st h' c' :
  counters16 h -> cell_ok c -> dwc2_hcd_qh_add HS_USECS_ISO h c hfnum = Some (st, h', c') ->
  accounts h c h' c' /\ counters16 h'.
Proof.
  intros H16 Hok. unfold dwc2_hcd_qh_add. destruct (qh_list_entry c) as [l|] eqn:El.
  { intros [= <- <- <-]. split; [by apply accounts_same|done]. }
  destruct (dwc2_qh_is_non_per (qh c)) eqn:Enp.
  { cbv zeta. assert (Hnp : forall q l b1 b2 b3, ep_type q = ep_type (qh c) ->
      unreserve_pending q = unreserve_pending (qh c) ->
      accounts h c h (mkcell q l (qtd_list_empty c) (timer_pending c) (timer_running c) b1 b2 b3)).
    { intros q l b1 b2 b3 He Hp.
      assert (Hq : dwc2_qh_is_non_per q = true) by (unfold dwc2_qh_is_non_per in *; by rewrite He).
      apply accounts_same; [|by rewrite !held_non_per|by rewrite !linked_non_per].
      intros H. cbn in H. rewrite Hp in H. destruct (Hok H) as [H1 _]. by rewrite Enp in H1. }
    case_if; intros [= <- <- <-]; (split; [by apply Hnp|done]). }
  destruct (dwc2_schedule_periodic _ _ _ _) as [[[st1 h1] c1]|] eqn:E; [|done].
  apply schedule_periodic_spec in E as (Hok' & Hnp' & Hn & Hu & Hu16 & Hl'); [|done..].
  pose proof (counters16_usecs _ _ _ H16 Hn Hu) as H16'.
  destruct (truthy st1) eqn:Et.
  - intros [= <- <- <-]. split; [|done]. split; [done|]. split; [done|].
    by rewrite Hn, !linked_none, Z.add_0_r by done.
  - intros [= <- <- <-]. destruct Hl' as [l Hl'].
    assert (Hlk : linked c1 - linked c = 1).
    { rewrite (linked_some c1 l), (linked_none c); done. }
    split; [split; [done|]; split|].
    + by case_if.
    + rewrite Hlk, <- Hn. case_if; apply u16_idemp.
    + split; [by case_if; apply H16'|]. case_if; apply u16_idemp.
Qed.

Lemma qh_unlink_accounts h c :
  counters16 h -> cell_ok c ->
  let '(h', c') := dwc2_hcd_qh_unlink h c in
  accounts h c h' c' /\ counters16 h' /\ qh_list_entry c' = None.
Proof.
  intros H16 Hok. unfold dwc2_hcd_qh_unlink. cbn [qh_list_entry qh].
  destruct (qh_list_entry c) as [l|] eqn:El.
  2: { split; [|by split]. unfold cell_ok in Hok. rewrite El in Hok.
       apply accounts_same; [exact Hok|unfold held_usecs, qh_holds|unfold linked]; by rewrite El. }
  destruct (dwc2_qh_is_non_per (qh c)) eqn:Enp.
  { split; [|done]. apply accounts_same.
    - intros H. destruct (Hok H) as [H1 _]. by rewrite Enp in H1.
    - by rewrite !held_non_per.
    - by rewrite !linked_non_per. }
  cbv beta iota zeta delta [dwc2_deschedule_periodic].
  set (c' := mkcell _ _ _ _ _ _ _ _).
  assert (Hc' : held_usecs c' = host_us (qh c) /\ linked c' = 0 /\ cell_ok c').
  { split; [by rewrite held_pending|]. split; [by apply linked_none|].
    intros _. split; [done|]. split; [done|by left]. }
  destruct Hc' as (Hh & Hlk & Hok').
  split; [split; [exact Hok'|]; split|split].
  - rewrite Hh, (held_some c l), Z.sub_diag, Z.add_0_r by done. by case_if.
  - rewrite Hlk, (linked_some c l) by done. case_if; cbn; apply u16_idemp.
  - destruct H16 as [H1 H2]. split; case_if; cbn; (exact H1 || apply u16_idemp).
  - done.
Qed.

Lemma qh_deactivate_accounts h c split hfnum h' c' :
  counters16 h -> cell_ok c -> qh_list_entry c <> None ->
  dwc2_hcd_qh_deactivate HS_USECS_ISO h c split hfnum = Some (h', c') ->
  accounts h c h' c' /\ counters16 h'.
Proof.
  intros H16 Hok Hl. unfold dwc2_hcd_qh_deactivate.
  destruct (dwc2_qh_is_non_per (qh c)) eqn:Enp.
  { pose proof (qh_unlink_accounts h c H16 Hok) as Hun.
    destruct (dwc2_hcd_qh_unlink h c) as [h1 c1]. destruct Hun as ((Hok1 & Hu1 & Hn1) & H161 & _).
    destruct (qtd_list_empty c1); [by intros [= <- <-]|].
    destruct (dwc2_hcd_qh_add _ h1 c1 hfnum) as [[[st h2] c2]|] eqn:E; [|done].
    intros [= <- <-]. apply qh_add_accounts in E as ((Hok2 & Hu2 & Hn2) & H162); [|done..].
    split; [|done]. split; [done|]. rewrite Hu2, Hn2. split.
    - rewrite <- u16_add_l, Hu1, u16_add_l. f_equal. lia.
    - rewrite <- u16_add_l, Hn1, u16_add_l. f_equal. lia. }
  assert (Hres : forall n q, sched_same (qh c) q ->
    (let c := {| c with qh := q |} in
     if qtd_list_empty c then Some (dwc2_hcd_qh_unlink h c)
     else
       let l := if dwc2_frame_num_le n (frame_number h) then PeriodicReady else PeriodicInactive in
       Some (h, {| c with qh_list_entry := Some l |})) = Some (h', c') ->
    accounts h c h' c' /\ counters16 h').
  { intros n q Hs. cbv zeta. pose proof (sched_same_non_per _ _ Hs) as Hnp. rewrite Enp in Hnp.
    destruct (qh_list_entry c) as [l0|] eqn:El; [|done].
    assert (Hup : unreserve_pending q = false).
    { destruct Hs as (_ & _ & ->). destruct (unreserve_pending (qh c)) eqn:Ep; [|done].
      destruct (Hok Ep) as (_ & Hx & _). congruence. }
    set (c1 := mkcell q _ _ _ _ _ _ _).
    assert (Hok1 : cell_ok c1) by (intros H; cbn in H; congruence).
    assert (Hh1 : held_usecs c1 = held_usecs c).
    { rewrite (held_some c l0), (held_some c1 l0) by done. by destruct Hs. }
    assert (Hl1 : linked c1 = linked c) by (by rewrite (linked_some c l0), (linked_some c1 l0)).
    change (qtd_list_empty c1) with (qtd_list_empty c).
    destruct (qtd_list_empty c).
    - intros [= E]. pose proof (qh_unlink_accounts h c1 H16 Hok1) as Hun. rewrite E in Hun.
      destruct Hun as ((H1 & H2 & H3) & H4 & _). split; [|done].
      split; [done|]. by rewrite H2, H3, Hh1, Hl1.
    - intros [= <- <-]. split; [|done]. apply accounts_same.
      + intros H. cbn in H. congruence.
      + rewrite <- Hh1. rewrite (held_some c1 l0) by done. by erewrite held_some.
      + rewrite <- Hl1. rewrite (linked_some c1 l0) by done. by erewrite linked_some. }
  destruct split.
  - destruct (dwc2_next_for_periodic_split (qh c) hfnum) as [n q] eqn:E.
    apply next_for_periodic_split_same in E. by apply Hres.
  - destruct (dwc2_next_periodic_start (qh c) hfnum) as [[n q]|] eqn:E; [|done].
    apply next_periodic_start_same in E. by apply Hres.
Qed.

(** The callback releases a reservation if its release is still pending. *)
Lemma timer_fn_accounts h c :
  counters16 h -> cell_ok c ->
  let '(h', c') := dwc2_unreserve_timer_fn h {| c with timer_running := false |} in
  accounts h c h' c' /\ counters16 h' /\ unreserve_pending (qh c') = false.
Proof.
  intros [H1 H2] Hok. unfold dwc2_unreserve_timer_fn. cbn [qh].
  destruct (unreserve_pending (qh c)) eqn:Ep.
  - destruct (Hok Ep) as (Hnp & Hl & _). unfold dwc2_do_unreserve. cbn [qh host_us].
    assert (Hacc : forall h',
      periodic_usecs h' = u16 (periodic_usecs h - host_us (qh c)) ->
      periodic_qh_count h' = periodic_qh_count h ->
      accounts h c h' (mkcell {| (qh c) with unreserve_pending := false |} None
        (qtd_list_empty c) (timer_pending c) false (want_wait c) (wait_timer_cancel c) (wait_timer c))
      /\ counters16 h').
    { intros h' Hu Hn. split; [split; [done|]; split|split].
      - rewrite Hu, u16_idemp, (held_pending c) by done. f_equal.
        unfold held_usecs, qh_holds. cbn. rewrite andb_false_r. lia.
      - rewrite Hn, !linked_none, Z.sub_diag, Z.add_0_r by done. done.
      - rewrite Hu. apply u16_idemp.
      - by rewrite Hn. }
    case_if; (split; [by apply Hacc|split; [by apply (Hacc _)|done]]).
  - split; [|done]. apply accounts_same; [|done|done]. intros H. cbn in H. congruence.
Qed.

(** *** Main theorems *)

Definition sys_ok (x : Z) s : Prop := protocol_inv x s /\ counters16 (core s).

(** Freeing a QH that is in no schedule and whose callback is not running releases what
    it holds, and what [over_freed] says a second time. *)
Lemma qh_free_accounts h c :
  qh_list_entry c = None -> timer_running c = false -> cell_ok c -> counters16 h ->
  let h' := dwc2_hcd_qh_free h c in
  periodic_usecs h' = u16 (periodic_usecs h - (held_usecs c + over_freed c))
  /\ periodic_qh_count h' = periodic_qh_count h /\ counters16 h'.
Proof.
  intros Hl Hr Hok [H16 H16']. cbv zeta. unfold dwc2_hcd_qh_free, held_usecs, qh_holds, over_freed.
  rewrite Hl. rewrite (bool_decide_eq_false_2 (is_Some None)) by (by intros []). cbn [orb].
  assert (Hun : let h1 := fst (dwc2_do_unreserve h c) in
    periodic_usecs h1 = u16 (periodic_usecs h - host_us (qh c)) /\ periodic_qh_count h1 = periodic_qh_count h).
  { unfold dwc2_do_unreserve. by case_if. }
  destruct Hun as [Hun Hct]. destruct (unreserve_pending (qh c)) eqn:Ep.
  - destruct (Hok Ep) as (Hnp & _ & [Ht|Ht]); [|congruence]. rewrite Ht, Hnp. cbn [negb andb]. rewrite Z.add_0_r.
    split_and!; [done|done|]. split; [by rewrite Hun, u16_idemp|by rewrite Hct].
  - rewrite andb_false_r. destruct (timer_pending c); cbn [negb andb]; [|by rewrite Z.sub_0_r].
    split_and!; [done|done|]. split; [by rewrite Hun, u16_idemp|by rewrite Hct].
Qed.

Lemma qh_exec_ok x s e s' : qh_exec s e = Some s' -> sys_ok x s -> sys_ok (x + over_released_by s e) s'.
Proof.
  intros E [Hinv H16]. pose proof Hinv as (Hu & Hn & Hc).
  assert (Hput : forall i c h' c', cells s !! i = Some c -> accounts (core s) c h' c' /\ counters16 h' ->
    sys_ok (x + 0) (put i (h', c') s)).
  { intros i c h' c' Hi [Ha H16']. rewrite Z.add_0_r. split; [by eapply put_inv|done]. }
  destruct e as [i q|i empty|i f|i|i sp f|i|i|i|i]; cbn [qh_exec over_released_by] in *.
  - destruct (decide _) as [Hi|]; [|done]. injection E as <-. split; [|done].
    split_and!; cbn [put core cells fst snd].
    + rewrite total_insert by done. unfold held_usecs at 1, qh_holds. cbn.
      by rewrite andb_false_r, Z.add_0_l, Z.add_0_r.
    + rewrite total_insert by done. rewrite linked_none by done. done.
    + intros j d. destruct (decide (i = j)) as [<-|Hij].
      * rewrite lookup_insert_eq. by intros [= <-].
      * rewrite lookup_insert_ne by done. apply Hc.
  - destruct (cells s !! i) as [c|] eqn:Hi; [|done]. injection E as <-.
    apply (Hput i c); [done|]. split; [|done]. apply accounts_same; [exact (Hc i c Hi)|done|done].
  - destruct (cells s !! i) as [c|] eqn:Hi; [|done]. cbn in E.
    destruct (dwc2_hcd_qh_add _ _ _ _) as [[[st h1] c1]|] eqn:Ea; [|done]. injection E as <-.
    apply (Hput i c); [done|]. eapply qh_add_accounts; [done|exact (Hc i c Hi)|exact Ea].
  - destruct (cells s !! i) as [c|] eqn:Hi; [|done]. injection E as <-.
    pose proof (qh_unlink_accounts (core s) c H16 (Hc i c Hi)) as Ha.
    destruct (dwc2_hcd_qh_unlink (core s) c) as [h1 c1]. apply (Hput i c); [done|]. tauto.
  - destruct (cells s !! i) as [c|] eqn:Hi; [|done]. cbn in E.
    destruct (decide _) as [|Hl]; [done|].
    destruct (dwc2_hcd_qh_deactivate _ _ _ _ _) as [[h1 c1]|] eqn:Ed; [|done]. injection E as <-.
    apply (Hput i c); [done|]. by eapply qh_deactivate_accounts; [done|exact (Hc i c Hi)|exact Hl|exact Ed].
  - destruct (cells s !! i) as [c|] eqn:Hi; [|done]. cbn in E. case_if_in E; [|done]. injection E as <-.
    apply (Hput i c); [done|]. split; [|done]. apply accounts_same; [|done|done].
    intros H. destruct (Hc i c Hi H) as (H1 & H2 & _). split; [done|]. split; [done|by right].
  - destruct (cells s !! i) as [c|] eqn:Hi; [|done]. cbn in E. case_if_in E; [|done]. injection E as <-.
    pose proof (timer_fn_accounts (core s) c H16 (Hc i c Hi)) as Ha.
    destruct (dwc2_unreserve_timer_fn _ _) as [h1 c1]. apply (Hput i c); [done|]. tauto.
  - destruct (cells s !! i) as [c|] eqn:Hi; [|done]. cbn in E. case_if_in E; [|done]. injection E as <-.
    apply andb_true_iff in Heqb as [_ Hp].
    apply (Hput i c); [done|]. split; [|done]. apply accounts_same; [|done|done].
    intros H. destruct (Hc i c Hi H) as (H1 & H2 & _). split; [done|]. split; [done|by left].
  - destruct (cells s !! i) as [c|] eqn:Hi; [|done]. cbn in E. case_if_in E; [|done]. injection E as <-.
    apply andb_true_iff in Heqb as [Hl%bool_decide_eq_true Hr%negb_true_iff].
    destruct (qh_free_accounts (core s) c Hl Hr (Hc i c Hi) H16) as (H1 & H2 & H3).
    split; [|exact H3]. split_and!; cbn [core cells].
    + rewrite H1, Hu, u16_sub_l, (total_delete _ _ _ c) by done. f_equal. lia.
    + rewrite H2, Hn, (total_delete _ _ _ c), (linked_none c) by done. by rewrite Z.sub_0_r.
    + intros j d Hj. apply lookup_delete_Some in Hj as [_ Hj]. by apply (Hc j).
Qed.

Lemma qh_run_ok es : forall x s s', qh_run s es = Some s' -> sys_ok x s -> sys_ok (x + over_released s es) s'.
Proof.
  induction es as [|e es IH]; intros x s s'; cbn [qh_run over_released]; [intros [= <-]; by rewrite Z.add_0_r|].
  destruct (qh_exec s e) as [s1|] eqn:E; [|done]. intros H Hs.
  rewrite Z.add_assoc. apply (IH _ s1 s' H). by eapply qh_exec_ok.
Qed.

(** The controller before any QH is created. *)
Definition sys_init (h : dwc2_hsotg M) : dwc2_sys M :=
  mksys {| h with periodic_usecs := 0; periodic_qh_count := 0 |} empty.

Lemma sys_init_ok h : sys_ok 0 (sys_init h).
Proof. split; [|done]. split; [done|]. split; [done|]. intros i c Hi. cbn in Hi. by rewrite lookup_empty in Hi. Qed.

(** C16: However the driver's calls - the one that frees a QH included -, the timers and
    their callbacks interleave, the bus time claimed is that of the QHs that hold a
    reservation - in a schedule, or waiting for their release - each counted once, less
    the time that freeing has released twice: that of the QHs freed with their timer
    armed although nothing waited for release, which the code does not look at.  So the
    time claimed is exact as long as no QH is freed in that state.  The QH count is the
    number of periodic QHs in a schedule, and a QH that waits for its release is in no
    schedule and has its timer armed or its callback on the way. *)
Theorem qh_protocol_accounting h es s :
  qh_run (sys_init h) es = Some s ->
  periodic_usecs (core s) = u16 (total held_usecs (cells s) - over_released (sys_init h) es)
  /\ periodic_qh_count (core s) = u16 (total linked (cells s))
  /\ forall i c, cells s !! i = Some c -> unreserve_pending (qh c) = true ->
       qh_list_entry c = None /\ (timer_pending c = true \/ timer_running c = true).
Proof.
  intros E. destruct (qh_run_ok _ _ _ _ E (sys_init_ok h)) as [(H1 & H2 & H3) _].
  split; [done|]. split; [done|]. intros i c Hi Hp. destruct (H3 i c Hi Hp) as (_ & H4 & H5). done.
Qed.

(** No reservation is kept for ever: in every reachable state, a reservation
    that waits for its release is released, and its bus time with it, by the
    callback if that has started, and otherwise by the timer firing and its
    callback. *)
Theorem qh_release_enabled h es s i c :
  qh_run (sys_init h) es = Some s -> cells s !! i = Some c -> unreserve_pending (qh c) = true ->
  exists s' c', qh_run s (if timer_running c then [EvRun i] else [EvFire i; EvRun i]) = Some s'
  /\ cells s' !! i = Some c' /\ qh_holds c' = false
  /\ periodic_usecs (core s') = u16 (periodic_usecs (core s) - host_us (qh c)).
Proof.
  intros E Hi Hp. destruct (qh_run_ok _ _ _ _ E (sys_init_ok h)) as [(_ & _ & H3) _].
  destruct (H3 i c Hi Hp) as (Hnp & Hl & Ht).
  assert (Hrun : forall s1 c1, cells s1 !! i = Some c1 -> timer_running c1 = true -> qh c1 = qh c ->
    core s1 = core s ->
    exists s' c', qh_run s1 [EvRun i] = Some s' /\ cells s' !! i = Some c' /\ qh_holds c' = false
      /\ periodic_usecs (core s') = u16 (periodic_usecs (core s) - host_us (qh c))).
  { intros s1 c1 Hi1 Hr1 Hq1 Hc1. cbn [qh_run qh_exec]. rewrite Hi1. cbn. rewrite Hr1.
    unfold dwc2_unreserve_timer_fn. cbn [qh]. rewrite Hq1, Hp, Hc1.
    unfold dwc2_do_unreserve. case_if; (do 2 eexists; split; [done|]; cbn [put core cells fst snd];
      split; [apply lookup_insert_eq|]; split; [|done]; unfold qh_holds; cbn;
      by rewrite andb_false_r). }
  destruct (timer_running c) eqn:Er.
  - by apply (Hrun s c).
  - destruct Ht as [Ht|]; [|done].
    set (c1 := {| c with timer_pending := false; timer_running := true |}).
    assert (E1 : qh_exec s (EvFire i) = Some (put i (core s, c1) s)).
    { cbn [qh_exec]. rewrite Hi. cbn. by rewrite Ht, Er. }
    assert (E2 : qh_run s [EvFire i; EvRun i] = qh_run (put i (core s, c1) s) [EvRun i])
      by (cbn [qh_run]; by rewrite E1).
    destruct (Hrun (put i (core s, c1) s) c1) as (s' & c' & Hx & Hrest);
      [apply lookup_insert_eq|done..|].
    exists s', c'. by rewrite E2.
Qed.

End Protocol.

(** ** A high-speed QH runs in the time reserved for it *)

Section InReservedTime.
Context {M : Type} `{Ho : !BitmapOps M} `{Hl : !BitmapLaws M}.
Variable HS_USECS_ISO : Z -> Z.

Lemma uframe_hs_speed (m : dwc2_maps M) q ret m' q' :
  dwc2_uframe_schedule_hs m q = Some (ret, m', q') -> dev_speed q' = dev_speed q.
Proof.
  unfold dwc2_uframe_schedule_hs, dwc2_hs_pmap_schedule. cbv zeta. intros E.
  repeat match type of E with context [match ?x with _ => _ end] => destruct x eqn:? end;
  by simplify_eq.
Qed.

(** The bits of a reservation in a microframe that it repeats in. *)
Lemma resv_covers num interval s u b :
  0 <= interval -> 0 <= s -> 0 <= u < 8 ->
  u mod Z.gcd interval 8 = s / 100 -> s / 100 < Z.gcd interval 8 ->
  s mod 100 <= b < s mod 100 + num ->
  resv_bits 100 8 (u * 100 + b) (mkresv num interval s) = true.
Proof.
  intros Hi Hs Hu Hm Hlt Hb. unfold resv_bits, pmap_bits. cbn [r_num r_interval r_start].
  destruct (gcd_periods interval 8 Hi ltac:(lia)) as (Hg & Hr & Hgr).
  set (g := Z.gcd interval 8) in *. apply slot_bits_true. exists (u / g).
  pose proof (Z.div_mod u g ltac:(lia)). pose proof (Z.div_mod s 100 ltac:(lia)).
  assert (0 <= u / g) by (apply Z.div_pos; lia).
  assert (u / g < 8 / g) by (apply Z.div_lt_upper_bound; nia).
  split; [lia|]. nia.
Qed.

(** The place of a high-speed QH in its interval, and the microframes it runs in. *)
Lemma hs_scheduled_frame q :
  dev_speed q = USB_SPEED_HIGH -> 0 <= host_interval q -> 0 <= start_schedule_us (transfer q 0) ->
  is_u16 (start_schedule_us (transfer q 0)) ->
  scheduled_frame q = (start_schedule_us (transfer q 0) / 100, Z.gcd (host_interval q) 8).
Proof.
  intros Hsp Hh Hs Hu. unfold scheduled_frame, is_u16 in *. rewrite Hsp. cbn [orb].
  rewrite bool_decide_eq_true_2 by done. cbn [orb]. change DWC2_HS_SCHEDULE_UFRAMES with 8.
  rewrite gcd_spec by lia. unfold DWC2_HS_PERIODIC_US_PER_UFRAME.
  assert (0 <= Z.gcd (host_interval q) 8 <= 8)
    by (split; [apply Z.gcd_nonneg|apply Z.divide_pos_le; [lia|apply Z.gcd_divide_r]]).
  rewrite !u16_id; [done|unfold is_u16; lia|]. unfold is_u16. Z.to_euclidean_division_equations; lia.
Qed.

Lemma run_uframe n interval t :
  ((n + 1 + t * interval) mod 2 ^ 14) mod 8 mod Z.gcd interval 8 = (n + 1) mod Z.gcd interval 8.
Proof.
  pose proof (Z.gcd_divide_r interval 8) as Hd8. destruct (Z.gcd_divide_l interval 8) as [k Hk].
  set (g := Z.gcd interval 8) in *. rewrite Z.mod_mod_divide by done.
  rewrite Z.mod_mod_divide by (apply (Z.divide_trans _ 8); [done|by exists 2048]).
  rewrite Hk. replace (t * (k * g)) with (t * k * g) by lia. apply Z_mod_plus_full.
Qed.

(** C38: With the microframe scheduler, a high-speed QH that gets a reservation
    runs in it: in whichever microframe it is on the bus - the first one after
    its first active frame, and then every [host_interval] - its bus time lies in
    the time reserved for it in that microframe, inside the 100 us used for
    periodic transfers. *)
Theorem hs_runs_in_reserved_time h q hfnum h' q' t :
  direct_qh q -> dev_speed q = USB_SPEED_HIGH -> uframe_sched (params h) = true ->
  0 <= hfnum < 2 ^ 14 -> 0 <= t ->
  dwc2_do_reserve HS_USECS_ISO (M := M) h q hfnum = Some (0, h', q') ->
  let u := ((next_active_frame q' + 1 + t * host_interval q) mod 2 ^ 14) mod 8 in
  exists off, 0 <= off /\ off + host_us q <= 100
  /\ forall b, off <= b < off + host_us q ->
       resv_bits 100 8 (u * 100 + b) (transfer_resv q' 0) = true
       /\ test_bit (hs_periodic_bitmap (maps h')) (u * 100 + b) = true.
Proof.
  intros Hq Hsp Hsched Hf Ht E u. pose proof Hq as [Hhost _ _ Hhus _ _ _].
  unfold dwc2_do_reserve, dwc2_uframe_schedule in E. rewrite Hsched, Hsp in E. cbv zeta in E.
  rewrite decide_True in E by done.
  destruct (hs_schedule_direct (maps h) q Hq) as (ret & m1 & q1 & E1 & Hh & _ & _ & Htok & _ & Hc).
  rewrite E1 in E. destruct Hc as [(-> & Hd & Hs0 & Hs & Hpe & Ha)|(-> & _)]; [|discriminate E].
  change (truthy 0) with false in E. cbv iota in E. cbn [params] in E. rewrite Hsched in E.
  cbv iota in E. cbn [params] in E. rewrite Hsched in E.
  set (s := start_schedule_us (transfer q1 0)) in *.
  assert (Hsp1 : dev_speed q1 = USB_SPEED_HIGH) by (rewrite <- Hsp; by apply uframe_hs_speed in E1).
  assert (Hdiv : 100 * (s / 100) <= s < 100 * (s / 100) + 100)
    by (Z.to_euclidean_division_equations; lia).
  destruct (gcd_periods (host_interval q) 8 Hhost ltac:(lia)) as (Hg1 & _ & Hg8).
  set (g := Z.gcd (host_interval q) 8) in *.
  assert (Hg : g <= 8) by (apply Z.divide_pos_le; [lia|apply Z.gcd_divide_r]).
  assert (Hlt : s / 100 < g) by (apply Z.div_lt_upper_bound; lia).
  assert (Hsf : scheduled_frame q1 = (s / 100, g))
    by (unfold g; rewrite <- Hh in *; apply hs_scheduled_frame; [done|lia|lia|unfold is_u16; lia]).
  destruct (pick_first_frame_lands q1 hfnum Hf ltac:(lia)) as (n & Ep & Hn & _ & Hnr).
  { rewrite Hsf. cbn [fst snd]. split; [|done]. apply Z.div_pos; lia. }
  rewrite Ep in E. injection E as <- <-. rewrite Hsf in Hnr. cbn [fst snd] in Hnr.
  cbn [next_active_frame] in u.
  assert (Hu : 0 <= u < 8) by (apply Z.mod_pos_bound; lia).
  assert (Hug : u mod g = s / 100) by (rewrite <- Hnr; by apply run_uframe).
  exists (s mod 100). split; [apply Z.mod_pos_bound; lia|].
  split.
  { unfold period_end in Hpe. Z.to_euclidean_division_equations. lia. }
  intros b Hb.
  assert (Hbit : resv_bits 100 8 (u * 100 + b) (transfer_resv q1 0) = true).
  { unfold transfer_resv. rewrite Hd, Hh. fold s. by apply resv_covers. }
  split; [exact Hbit|].
  cbn [maps]. specialize (Ha (u * 100 + b)). change (hs_resvs q1 1) with [transfer_resv q1 0] in Ha.
  rewrite holders_single, Hbit in Ha.
  destruct (test_bit (hs_periodic_bitmap m1) (u * 100 + b)); [done|].
  destruct (test_bit (hs_periodic_bitmap (maps h)) _); cbn in Ha; lia.
Qed.
End InReservedTime.

(** ** Concrete runs *)

Definition demo_core : dwc2_hsotg Z :=
  mkhsotg (mkparams true 8 65535 false) busy_maps 0 0 0 0 0 0.

(** A high-speed QH scheduled at microframe 2 with interval 4, in frame 16381. *)
Definition demo_slot_qh : dwc2_qh :=
  {| demo_hs_qh with hs_transfers := <[0%nat := mktime 200 30]> (hs_transfers demo_hs_qh) |}.

Lemma pick_first_frame_exact_witness :
  0 <= 16381 < 2 ^ 14 /\ 0 <= host_interval demo_slot_qh
  /\ 0 <= fst (scheduled_frame (M := Z) demo_slot_qh) < snd (scheduled_frame (M := Z) demo_slot_qh)
  /\ exists n, dwc2_pick_first_frame (M := Z) true demo_slot_qh 16381
               = Some {| demo_slot_qh with next_active_frame := n; start_active_frame := n |}
     /\ (n + 1) mod 4 = 2.
Proof.
  assert (H1 : 0 <= 16381 < 2 ^ 14) by lia.
  assert (H2 : 0 <= host_interval demo_slot_qh) by (cbn; lia).
  assert (H3 : 0 <= fst (scheduled_frame (M := Z) demo_slot_qh)
               < snd (scheduled_frame (M := Z) demo_slot_qh)) by (vm_compute; split; congruence).
  destruct (pick_first_frame_exact demo_slot_qh 16381 H1 H2 H3) as (n & E & _ & _ & Hn & _).
  split; [exact H1|]. split; [exact H2|]. split; [exact H3|].
  exists n. split; [exact E|]. exact Hn.
Defined.

(** The last start was frame 16380 and it is frame 16: four transfers, at 0, 4, 8
    and 12, were missed. *)
Definition demo_late_qh : dwc2_qh :=
  {| demo_slot_qh with start_active_frame := 16380; next_active_frame := 16380 |}.

Lemma next_periodic_start_exact_witness :
  0 <= 16 < 2 ^ 14 /\ 0 <= host_interval demo_late_qh
  /\ exists q, dwc2_next_periodic_start (M := Z) demo_late_qh 16 = Some (16, q)
     /\ next_active_frame q = 16.
Proof.
  assert (H1 : 0 <= 16 < 2 ^ 14) by lia.
  assert (H2 : 0 <= host_interval demo_late_qh) by (cbn; lia).
  split; [exact H1|]. split; [exact H2|].
  destruct (next_periodic_start_exact (M := Z) demo_late_qh 16 H1 H2) as (missed & n & E & _).
  assert (E1 : (fun x => (fst x, next_active_frame (snd x)))
                 <$> dwc2_next_periodic_start (M := Z) demo_late_qh 16 = Some (16, 16))
    by (vm_compute; reflexivity).
  rewrite E in E1. injection E1 as -> E1. eexists. split; [exact E|]. exact E1.
Defined.

(** A QH is created, added, and removed; before its timer's callback has the lock it
    is added and removed again. *)
Definition demo_race : list qh_event :=
  [EvNew 1 demo_hs_qh; EvAdd 1 100; EvUnlink 1; EvFire 1; EvAdd 1 140; EvUnlink 1].

(** In the first run the QH waits for its release; in the second the callback has
    released it, but its timer is armed again, and freeing it releases it a second
    time: the time claimed wraps around. *)
Definition isSome {A} (o : option A) : bool := match o with Some _ => true | None => false end.
Definition demo_race_freed : list qh_event := demo_race ++ [EvRun 1; EvFree 1].

Lemma qh_protocol_accounting_witness :
  exists s s', qh_run demo_usecs (sys_init demo_core) demo_race = Some s
  /\ periodic_usecs (core s) = 30
  /\ qh_run demo_usecs (sys_init demo_core) demo_race_freed = Some s'
  /\ cells s' !! 1 = None /\ over_released demo_usecs (sys_init demo_core) demo_race_freed = 30
  /\ periodic_usecs (core s') = 65506.
Proof.
  destruct (qh_run demo_usecs (sys_init demo_core) demo_race) as [s|] eqn:E.
  2: { assert (H : isSome (qh_run demo_usecs (sys_init demo_core) demo_race) = true) by (vm_compute; reflexivity).
       rewrite E in H. discriminate H. }
  destruct (qh_run demo_usecs (sys_init demo_core) demo_race_freed) as [s'|] eqn:E'.
  2: { assert (H : isSome (qh_run demo_usecs (sys_init demo_core) demo_race_freed) = true) by (vm_compute; reflexivity).
       rewrite E' in H. discriminate H. }
  exists s, s'. split; [reflexivity|].
  assert (Ex : over_released demo_usecs (sys_init demo_core) demo_race = 0) by (vm_compute; reflexivity).
  assert (Ex' : over_released demo_usecs (sys_init demo_core) demo_race_freed = 30) by (vm_compute; reflexivity).
  assert (Et : (fun s => total held_usecs (cells s)) <$> qh_run demo_usecs (sys_init demo_core) demo_race = Some 30)
    by (vm_compute; reflexivity).
  assert (Et' : (fun s => (total held_usecs (cells s), cells s !! 1))
                  <$> qh_run demo_usecs (sys_init demo_core) demo_race_freed = Some (0, None))
    by (vm_compute; reflexivity).
  rewrite E in Et. rewrite E' in Et'. injection Et as Et. injection Et' as Et' Hc.
  split; [|split; [reflexivity|split; [exact Hc|split; [exact Ex'|]]]].
  - rewrite (proj1 (qh_protocol_accounting demo_usecs demo_core demo_race s E)), Et, Ex. reflexivity.
  - rewrite (proj1 (qh_protocol_accounting demo_usecs demo_core demo_race_freed s' E')), Et', Ex'. reflexivity.
Defined.

(** What a run leaves: the cell of QH 1 and the time claimed. *)
Definition demo_end (es : list qh_event) : option (dwc2_hsotg Z * qh_cell) :=
  s ← qh_run demo_usecs (sys_init demo_core) es; c ← cells s !! 1; Some (core s, c).

Lemma qh_release_enabled_witness :
  exists s c, qh_run demo_usecs (sys_init demo_core) demo_race = Some s
  /\ cells s !! 1 = Some c /\ unreserve_pending (qh c) = true
  /\ exists s', qh_run demo_usecs s [EvRun 1] = Some s' /\ periodic_usecs (core s') = 0.
Proof.
  assert (Ec : (fun x => (unreserve_pending (qh (snd x)), timer_running (snd x),
                          periodic_usecs (fst x), host_us (qh (snd x))))
                 <$> demo_end demo_race = Some (true, true, 30, 30)) by (vm_compute; reflexivity).
  unfold demo_end in Ec.
  destruct (qh_run demo_usecs (sys_init demo_core) demo_race) as [s|] eqn:E; [|discriminate Ec].
  cbn in Ec. destruct (cells s !! 1) as [c|] eqn:Hc; [|discriminate Ec].
  cbn in Ec. injection Ec as Hp Hr Hu Hh.
  exists s, c. split; [reflexivity|]. split; [exact Hc|]. split; [exact Hp|].
  destruct (qh_release_enabled demo_usecs demo_core demo_race s 1 c E Hc Hp)
    as (s' & c' & Er & _ & _ & Hus).
  rewrite Hr in Er. exists s'. split; [exact Er|]. rewrite Hus, Hu, Hh. reflexivity.
Defined.

Lemma hs_runs_in_reserved_time_witness :
  direct_qh demo_hs_qh /\ dev_speed demo_hs_qh = USB_SPEED_HIGH
  /\ exists h' q', dwc2_do_reserve demo_usecs demo_core demo_hs_qh 100 = Some (0, h', q')
     /\ exists off, 0 <= off
        /\ let u := ((next_active_frame q' + 1 + 7 * 4) mod 2 ^ 14) mod 8 in
           test_bit (hs_periodic_bitmap (maps h')) (u * 100 + off) = true.
Proof.
  split; [exact demo_direct_qh|]. split; [reflexivity|].
  assert (E0 : (fun x => fst (fst x)) <$> dwc2_do_reserve demo_usecs demo_core demo_hs_qh 100 = Some 0)
    by (vm_compute; reflexivity).
  destruct (dwc2_do_reserve demo_usecs demo_core demo_hs_qh 100) as [[[st h'] q']|] eqn:E;
    [|discriminate E0].
  injection E0 as ->. exists h', q'. split; [reflexivity|].
  destruct (hs_runs_in_reserved_time demo_usecs demo_core demo_hs_qh 100 h' q' 7 demo_direct_qh
    eq_refl eq_refl ltac:(lia) ltac:(lia) E) as (off & Ho & _ & Hb).
  exists off. split; [exact Ho|]. cbv zeta. apply Hb. cbn. lia.
Defined.

(** A full-speed isochronous IN endpoint with the largest packet, behind a
    translator, with a linear bus time. *)
Definition demo_bus_time (sp : usb_speed) (i iso : bool) (b : Z) : Z := 800 * b + 10000.
Definition demo_ns_to_us (ns : Z) : Z := (ns + 999) / 1000.
Definition demo_urb : dwc2_urb := mkurb USB_SPEED_FULL XFER_ISOC true 1023 1 1 (Some (mktt 1 false, 666)) 2.

Lemma qh_init_well_formed_witness :
  (forall sp i iso b, 0 <= b <= 3072 -> 1 <= demo_bus_time sp i iso b <= 60000000)
  /\ (forall b, 0 <= b <= 1023 -> 779 * b <= demo_bus_time USB_SPEED_FULL true true b)
  /\ (forall ns, ns <= 1000 * demo_ns_to_us ns < ns + 1000)
  /\ usb_packet_ok demo_urb
  /\ split_qh (dwc2_qh_init demo_bus_time demo_ns_to_us true demo_urb) (1, 0).
Proof.
  assert (H1 : forall sp i iso b, 0 <= b <= 3072 -> 1 <= demo_bus_time sp i iso b <= 60000000)
    by (intros; unfold demo_bus_time; lia).
  assert (H2 : forall b, 0 <= b <= 1023 -> 779 * b <= demo_bus_time USB_SPEED_FULL true true b)
    by (intros; unfold demo_bus_time; lia).
  assert (H3 : forall ns, ns <= 1000 * demo_ns_to_us ns < ns + 1000)
    by (intros; unfold demo_ns_to_us; Z.to_euclidean_division_equations; lia).
  assert (H4 : usb_packet_ok demo_urb).
  { split; [cbn; lia|]. split; [intros _; discriminate|]. cbn. lia. }
  split; [exact H1|]. split; [exact H2|]. split; [exact H3|]. split; [exact H4|].
  exact (qh_init_well_formed demo_bus_time demo_ns_to_us H1 H2 H3 true demo_urb (or_introl eq_refl) H4).
Defined.
